(* ===== verification/_CoqProject ===== *)
-Q . S2P
Prelude.v
Aether.v
SharedEvent.v
SyncFrame.v
MemoryTransport.v
Node.v
NodeTheory.v
NodeBudget.v
LinkSync.v
SharedNode.v
SharedNodeTheory.v
Lifecycle.v
DomainStorage.v
StoredGraph.v
SyncRuntime.v
SyncRuntimeTheory.v
SyncRuntimeExamples.v
PublicationChannel.v
NativeBytes.v
DirectoryStorage.v
Publication.v
PublicationTheory.v
GraphWalk.v
Checkpoint.v
CheckpointTheory.v
CheckpointLoading.v
PublicationExamples.v
ModelRuntime.v
ModelRuntimeTheory.v
UiMirror.v
UiMirrorTheory.v
UiMirrorExamples.v
GraphMirror.v
Distill.v
Presenters.v
UiObjects.v
UiObjectsTheory.v
WinPresenters.v
UnicodeTexts.v
WinPresentersTheory.v
WinPresentersExamples.v
MonitorLog.v
PresenceMonitor.v
PresenceMonitorTheory.v
Surfaces.v
SurfacesTheory.v
SizeQueue.v
SizeQueueTheory.v
SurfacesSession.v
SurfacesPublication.v
MainWindow.v
MainWindowTheory.v
ChatTransport.v
ChatModel.v
ChatModelTheory.v
ChatModelExamples.v
ChatLaunch.v
ChatJoin.v
ChatSession.v
ChatJoinTheory.v
ChatRoomTheory.v
ChatSessionTheory.v
ChatSessionRuns.v
ChatSessionExamples.v
ChatQueue.v
ChatOutput.v
ChatOutputTheory.v
ChatLoop.v
ChatLoopTheory.v
ChatLoopRuns.v
ChatLoopExamples.v
ChatNetwork.v
ChatNetworkTheory.v
ChatNetworkRuns.v
ChatApp.v
ChatAppTheory.v
ChatAppRuns.v
ChatAppExamples.v
