(* ===== verification/Prelude.v ===== *)
(** * AppTraverse: a verification development

    AppTraverse (include/apptraverse/, src/) keeps an application's model as a graph of
    event-sourced nodes, replicates nodes between devices, persists the graph, and mirrors it
    into the user interface's thread.  This development models those parts as executable
    definitions and proves what makes them correct.  Names of definitions are those of the
    source; a definition of another name has the function it is part of in its comment.

    ** The parts and how they interact

    - _Nodes_ (Node.v, NodeTheory.v; node.h): a base, a journal ordered by timestamp and the
      fields that a replay of the journal from the base gives.  Operations are [Commit],
      [TryInsertEvent], [CompactJournal], ...; the class of the node is [NodeKind].
      SharedEvent.v has the identities, orders and records of the journal; NodeBudget.v says
      how many more commits a node can take.
    - _Shared nodes_ (LinkSync.v, SharedNode.v, SharedNodeTheory.v; shared_node.h, .cpp): nodes
      whose events also change with whom they are shared; for each relationship a local node,
      [LinkSyncState], records how far the exchange has come.  Both are instances of
      [NodeKind], so that the theorems on nodes apply to them.
    - _Synchronization_ (SyncFrame.v, SyncRuntime.v, SyncRuntimeTheory.v; sync_frame.cpp,
      shared_sync_runtime.cpp): frames on the wire, and the runtime that sends snapshots and
      events of shared nodes and admits those it receives.  It sends through a byte transport, of
      which MemoryTransport.v is the one in memory (memory_transport.cpp) and ChatTransport.v the
      one of the chat demo with its frames (aether_byte_transport.cpp, aether_stream_frame.cpp);
      received snapshots are stored graphs (StoredGraph.v; shared_network_graph.cpp).
    - _Storage_ (DomainStorage.v; overlay_domain_storage.cpp and partitioned_...): the interface
      of a storage, [DomainStorage] with its laws [StorageLaws], against which the clients
      are proved, and its implementations: overlay, partition, and the directory of
      layer files (DirectoryStorage.v; directory_domain_storage.cpp).
    - _Lifecycle_ (Lifecycle.v; runtime_lifecycle.cpp): three nodes that record the runs of the
      application, the network and the registration.
    - _Publications_ (NativeBytes.v, Publication.v, PublicationTheory.v; object_serialization.cpp):
      graphs written to a buffer by the model's thread and read by the mirror's; the buffer
      crosses in a lock-free channel (PublicationChannel.v; publication_channel.h), and is
      written and applied by the mirror (UiMirror.v, UiMirrorTheory.v; ui_mirror.cpp).  The first
      copy of the graph goes object by object (GraphMirror.v; graph_mirror.cpp).
    - _Distillation_ (Distill.v; distill.h, runtime_node.h): bases for the nodes of a graph that
      a program has built, and the cut of the history before it is saved.
    - _The persistent checkpoint_ (Checkpoint.v, CheckpointTheory.v, CheckpointLoading.v;
      object_serialization.cpp, model_persistence.cpp): the graph with the generations and the
      bases of its nodes, written, stored and loaded.
    - _Walks and presenters_ (GraphWalk.v, Presenters.v; object_serialization.cpp): which objects
      a graph has, and the loading and unloading of what presents them.
    - _The model runtime_ (ModelRuntime.v, ModelRuntimeTheory.v; model_runtime.cpp): what is
      to be published for which root, and the queue of work of the model thread.
    - _User interface objects and surfaces_ (UiObjects.v; src/ui/*.cpp, localization.h;
      Surfaces.v; surfaces_model.cpp; their theories are UiObjectsTheory.v and
      SurfacesTheory.v): instances of [NodeKind], and the commands on them.  The sizes that
      the windows report reach the surfaces through a queue that two threads share
      (SizeQueue.v, SizeQueueTheory.v; surfaces_presentation_size_queue.cpp).
    - _The presenters of Windows_ (WinPresenters.v, WinPresentersTheory.v; win_ui_presenters.cpp,
      win_ui_utf8.cpp, win_ui_frame.cpp): windows, edit boxes, buttons and lists that show the
      nodes of UiObjects.v and submit to the model what the user does.  The functions of the
      window system are interfaces with their documented laws ([EditControl], [NativeWindow],
      [ListControl], [CodePages]); UnicodeTexts.v has UTF-16 and UTF-8, by which the laws of the
      code pages are stated.
    - _The chat demo_ (examples/chat_demo).  Its model, a workspace of entries with their rooms,
      and the commands on it (ChatModel.v, ChatModelTheory.v; chat_model.cpp,
      chat_commands.cpp); the rooms are shared nodes.  Joining a host: the record of attempts
      and its packets (ChatJoin.v, ChatJoinTheory.v; chat_demo_runtime_state.cpp,
      chat_bootstrap.cpp, chat_identity.h) and the part of the session that speaks the
      protocol (ChatSession.v, ChatRoomTheory.v, ChatSessionTheory.v, ChatSessionRuns.v;
      chat_session.cpp).  The session's queue of work and its status of
      life (ChatQueue.v); what it hands to the user interface, through the publication channel
      (ChatOutput.v, ChatOutputTheory.v); the commands of the user interface, the
      projections and the main loop (ChatLoop.v, ChatLoopTheory.v), which use all of these, and
      the runs in which edits, publications and takes interleave (ChatLoopRuns.v).
      The thread that drives the network client (ChatNetwork.v, ChatNetworkTheory.v,
      ChatNetworkRuns.v; chat_aether_runtime.cpp): what its callbacks leave and the turns of
      its loop, with the queue, the write and the presence of each peer.  The user interface
      (ChatApp.v, ChatAppTheory.v, ChatAppRuns.v; win_chat_app.cpp, and linux_chat_app.cpp where
      it differs): what the controls show, the calls to the session and the messages of the
      window.  The command line (ChatLaunch.v; chat_launch_options.cpp, the two main.cpp).

    - _The presence monitor_ (MonitorLog.v, PresenceMonitor.v, PresenceMonitorTheory.v;
      examples/aether_presence_monitor): a window that polls the local state of the network
      client and queries that of a peer, with a log in JSON.

    - _The threads of the other demos_: the session of the surfaces demo (SurfacesSession.v;
      surfaces_lifecycle.cpp), which runs the commands of Surfaces.v and publishes the nodes whose
      notifier they call (SurfacesPublication.v), and the main window demo with its model, its
      session, its native presenter and its messages (MainWindow.v, MainWindowTheory.v;
      examples/main_window_runtime_demo).

    The library of objects (aether-client-cpp) is not part of the repository.  What is used of
    it are parameters: identifiers and the class registry (Aether.v), saving an object into a
    scratch storage and loading it from one ([ObjectSystem] in StoredGraph.v, [UiSystem] in
    Publication.v, the loaders of Checkpoint.v), and the pointers that reflection lists.
    Concrete instances of all of them are used in the witnesses of the theorems
    (modules [Examples], and the files named so, [*Examples.v]).

    ** Conventions

    A machine integer is a [Z] with its wrap-around ([u8], [u32], [u64]); bytes are lists of
    [Z].  A failed assertion, which ends the process, is [None] ([assert!]); a refusal that
    the source reports is a value of the result.  Where an operation both can run out of
    fuel and can fail, the outer [option] is the fuel.  Objects are known by their
    identifiers; what the source reaches by pointer is a map from identifiers.  A global
    effect whose order matters is kept in a list ([calls], the trace of SyncRuntime.v, the
    intermediate directories of DirectoryStorage.v).

    Fuel: [walk_live] gets one turn for the root and for each pointer of the objects
    ([pushes]); [walk_history] one for each identifier ([history_ids]); [apply_progress] one
    for each record and one more; [load_passes] one for each presenter and one more;
    [inject_saved_layers] one for each byte; that these are enough is part of the theorems
    on them.  The loops of the other definitions are structural.

    ** What the theorems show

    - Nodes: insertion is an insertion by timestamp followed by a replay, on both of its
      paths; replicas that receive the same records in any order converge; compaction keeps
      the fields; identities stay distinct; what a refused event leaves; a timestamp at
      the last 64-bit value makes the next commit fail (a finding).
    - Frames: decoders accept exactly the encodings, those of the chat demo too, whose
      transport delivers in order and nothing after it is destroyed.
    - Network and runtime: packets arrive in order; every send is preceded by the save it
      relies on; an acknowledgement means that what it acknowledges is durable; a snapshot
      that is not admitted writes nothing; the synchronization state of a relationship
      only goes forward.
    - Storage: a layer on disk is the old one or the new one whatever fails and wherever a
      store is interrupted; a session without a failure has stored everything; without
      faults the directory is a map.
    - Publications: what is published is applied completely, and no truncated publication is
      accepted; a checkpoint leaves the model alone, and the Domain that a load of it returns has
      the objects, generations and bases that were saved; the channel hands over whole
      publications in order under every interleaving, and one that is unread is taken.
    - Surfaces: no sequence of commands makes the list of surfaces, the current one and the
      order of the windows disagree; an order that names some of the windows is completed to
      all of them.  No size that a window reports is lost, under every interleaving of the
      threads, and the queue comes to rest.
    - The chat demo: a draft that is sent becomes the next message of this endpoint at every
      workspace that commands reach, and its sequence number is saved first; no command and
      no message fails an assertion, but a host uid longer than 128 bytes (a finding), up to
      which everything holds; the session
      follows the protocol of joining, in every run: a room that is joined is the one that
      the expected host offered for the attempt, hosts announce only rooms they have saved,
      and an attempt ends by its deadline; every change of the status and every publication
      reaches the user interface; every edit and every send is answered, and the text of an
      edit arrives with its answer, whatever is published and taken meanwhile.  The frames for a
      peer leave in the order they were queued, one write at a time; a peer is only reported
      online when it was heard.  The transcript shows the messages of the room on every
      path; what the user has typed is not replaced while its edit is unanswered; closing
      goes through its stages in order, and ends.  The command line is accepted exactly when
      it is one of the language of options.
    - Windows' presenters: what the user types, of any code points but 0, comes back as it was
      left, with the caret (behind the unit 65535 its place is not known, a finding); a frame that
      the model asks for is not submitted back, and a move by the user settles in one exchange;
      lists show the rows on every path.
    - The presence monitor asks one query at a time and logs what it observes without
      repetitions; the lines of the log are read back.
    - The sessions of the demos: what was accepted is executed in order and saved, the thread ends
      after a stop; whatever commands are posted to the surfaces, once the session is at rest the
      user interface has been given every surface as it is; a publication that is older than the
      last move of the main window does not move it, and after the moves the model, the mirror and
      the native window agree.
    - The first copy gives the mirror the whole graph, which stays when the copy lets its
      objects go.  A stabilized snapshot depends on the
      present fields only; a finalized graph takes commits.
    - Walks, presenters, runtime: walks end and collect exactly the reachable objects;
      presenters are unloaded in the reverse order of loading, and the update after a
      publication ends; a detached node leaves no trace; no change that is to be published is
      lost; accepted work runs once, in order, and the thread ends after a stop.

    ** Not modelled, and why

    - The object library, and what is generated by its macros; link.cpp and
      model_object_proxy.cpp, thin wrappers of its pointers; the serialization scopes, which it
      interprets, and counters for tests.
    - [ImportClosedEventGraph] and the remapping of identifiers in shared_network_graph.cpp,
      which happen inside the archive of the object library.
    - The sidecar file of the checkpoint is a boolean, whether it was written; the
      text of diagnostics is left out.
    - Lifetimes: an object that is found stays until an operation removes it, where the source
      holds it by strong pointers for the time.  In graph_mirror.cpp, whose comment makes the
      point, letting go is the parameter [release]; LoadPersistentModelSnapshot is modelled
      up to its last statement, before the local pointers go.
    - Where two critical sections of one function touch different fields they are one step
      ([TryTakeUiUpdate]); the effects of [EnsureCurrentGeneration] in the initial publication
      are inputs; [PostTask] of the size queue always posts, where the session drops work
      after a stop.
    - What only calls a platform: the layout of the controls, painting, the set-up of the
      network client (its stream library is not part of the repository: ChatNetwork.v has its
      callbacks as inputs and its calls as effects), the bridges for Android, the web
      application, the presenters of the surfaces demo, profile locks.
    - The other demos of examples/, which repeat the chat demo, the surfaces or the main window
      with an earlier model; traces for tests.

    This file itself holds what the components share: assertions, machine integers, lists
    and automation. *)
From Stdlib Require Export ZArith Lia.
From stdpp Require Export base gmap strings list sets decidable numbers.
#[global] Open Scope Z_scope.

Declare Scope apptraverse_scope.
Delimit Scope apptraverse_scope with app.
#[global] Open Scope apptraverse_scope.

(** ** Failed assertions

    [assert(c)] of the source terminates the process when [c] is false; an
    operation that can fail an assertion returns [option], [None] being the
    failed assertion. *)

Notation "'assert!' c ;; k" := (if (c : bool) then k else None)
  (at level 100, c at next level, k at level 200, right associativity)
  : apptraverse_scope.

(** ** Machine integers *)

Definition u8 (z : Z) : Z := z mod 2 ^ 8.
Definition u32 (z : Z) : Z := z mod 2 ^ 32.
Definition u64 (z : Z) : Z := z mod 2 ^ 64.
Definition kMaxUint64 : Z := 18446744073709551615.

Definition is_u8 (z : Z) : Prop := 0 ≤ z < 256.
Definition is_u32 (z : Z) : Prop := 0 ≤ z < 4294967296.
Definition is_u64 (z : Z) : Prop := 0 ≤ z < 18446744073709551616.

#[global] Instance is_u8_dec z : Decision (is_u8 z).
Proof. unfold is_u8. apply _. Defined.
#[global] Instance is_u32_dec z : Decision (is_u32 z).
Proof. unfold is_u32. apply _. Defined.
#[global] Instance is_u64_dec z : Decision (is_u64 z).
Proof. unfold is_u64. apply _. Defined.

(** A vector of [std::uint8_t]. *)
Abbreviation bytes := (list Z).
Definition is_bytes (bs : bytes) : Prop := Forall is_u8 bs.

#[global] Instance is_bytes_dec bs : Decision (is_bytes bs).
Proof. unfold is_bytes. apply _. Defined.

Definition zlen {A} (l : list A) : Z := Z.of_nat (length l).

Lemma u32_range z : is_u32 (u32 z).
Proof. unfold u32, is_u32. apply Z.mod_pos_bound. lia. Qed.
Lemma u64_range z : is_u64 (u64 z).
Proof. unfold u64, is_u64. apply Z.mod_pos_bound. lia. Qed.
Lemma u32_small z : is_u32 z → u32 z = z.
Proof. apply Z.mod_small. Qed.
Lemma u64_small z : is_u64 z → u64 z = z.
Proof. apply Z.mod_small. Qed.

Create HintDb app discriminated.
Create Rewrite HintDb app.
#[export] Hint Resolve u32_range u64_range : app.
#[export] Hint Rewrite u32_small u64_small using assumption : app.

Lemma zlen_nonneg {A} (l : list A) : 0 ≤ zlen l.
Proof. unfold zlen. lia. Qed.
Lemma zlen_app {A} (l k : list A) : zlen (l ++ k) = zlen l + zlen k.
Proof. unfold zlen. rewrite length_app. lia. Qed.
Lemma zlen_nil {A} : zlen (@nil A) = 0.
Proof. done. Qed.
Lemma zlen_cons {A} (x : A) l : zlen (x :: l) = 1 + zlen l.
Proof. unfold zlen. simpl. lia. Qed.
#[export] Hint Rewrite @zlen_app @zlen_nil @zlen_cons : app.
#[export] Hint Resolve zlen_nonneg : app.

(** Filters that agree, and those that keep all or nothing. *)
Section filters.
  Context {A : Type}.
  Implicit Types (P Q : A → Prop) (l : list A).

Lemma filter_congr P Q `{!∀ x, Decision (P x), !∀ x, Decision (Q x)} l :
  (∀ x, x ∈ l → P x ↔ Q x) → filter P l = filter Q l.
Proof.
  induction l as [|x l IH]; intros Hl; [done|]. rewrite !filter_cons, IH by set_solver.
  specialize (Hl x ltac:(set_solver)). repeat case_decide; tauto.
Qed.

Lemma filter_all P `{!∀ x, Decision (P x)} l : (∀ x, x ∈ l → P x) → filter P l = l.
Proof.
  induction l as [|x l IH]; intros Hl; [done|]. by rewrite filter_cons_True, IH by set_solver.
Qed.

Lemma filter_none P `{!∀ x, Decision (P x)} l : (∀ x, x ∈ l → ¬ P x) → filter P l = [].
Proof.
  induction l as [|x l IH]; intros Hl; [done|]. by rewrite filter_cons_False, IH by set_solver.
Qed.
End filters.

(** Joining a high part and a low part that does not reach it. *)
Lemma lor_shiftl_low a b n :
  0 ≤ n → 0 ≤ b < 2 ^ n → Z.lor (Z.shiftl a n) b = a * 2 ^ n + b.
Proof.
  intros Hn Hb. rewrite <-Z.shiftl_mul_pow2 by done.
  rewrite <-Z.lxor_lor, Z.add_nocarry_lxor; [done| |];
    apply Z.bits_inj'; intros i Hi; rewrite Z.land_spec, Z.bits_0;
    destruct (decide (i < n)).
  1,3: rewrite Z.shiftl_spec_low by lia; done.
  all: replace b with (b mod 2 ^ n) by (apply Z.mod_small; lia);
    rewrite Z.mod_pow2_bits_high by lia; apply andb_false_r.
Qed.

(** ** Byte strings *)

Definition byte_of_ascii (a : Ascii.ascii) : Z := Z.of_N (Ascii.N_of_ascii a).
Definition ascii_of_byte (b : Z) : Ascii.ascii := Ascii.ascii_of_N (Z.to_N b).
Definition bytes_of_string (s : string) : bytes :=
  byte_of_ascii <$> String.list_ascii_of_string s.
Definition string_of_bytes (bs : bytes) : string :=
  String.string_of_list_ascii (ascii_of_byte <$> bs).

Lemma byte_of_ascii_range a : is_u8 (byte_of_ascii a).
Proof.
  unfold is_u8, byte_of_ascii. pose proof (Ascii.N_ascii_bounded a). lia.
Qed.
Lemma ascii_of_byte_of_ascii a : ascii_of_byte (byte_of_ascii a) = a.
Proof.
  unfold ascii_of_byte, byte_of_ascii. rewrite N2Z.id.
  apply Ascii.ascii_N_embedding.
Qed.
Lemma byte_of_ascii_of_byte b : is_u8 b → byte_of_ascii (ascii_of_byte b) = b.
Proof.
  unfold is_u8, ascii_of_byte, byte_of_ascii. intros ?.
  rewrite Ascii.N_ascii_embedding by lia. lia.
Qed.
Lemma bytes_of_string_range s : is_bytes (bytes_of_string s).
Proof.
  apply Forall_fmap, Forall_true. intros a. apply byte_of_ascii_range.
Qed.
Lemma string_of_bytes_of_string s : string_of_bytes (bytes_of_string s) = s.
Proof.
  unfold string_of_bytes, bytes_of_string. rewrite <-list_fmap_compose.
  rewrite (list_fmap_ext _ id).
  - by rewrite list_fmap_id, String.string_of_list_ascii_of_string.
  - intros i x _. apply ascii_of_byte_of_ascii.
Qed.
Lemma bytes_of_string_of_bytes bs :
  is_bytes bs → bytes_of_string (string_of_bytes bs) = bs.
Proof.
  intros Hbs. unfold string_of_bytes, bytes_of_string.
  rewrite String.list_ascii_of_string_of_list_ascii.
  induction Hbs as [|b bs Hb _ IH]; [done|].
  by rewrite !fmap_cons, byte_of_ascii_of_byte, IH.
Qed.
#[export] Hint Resolve byte_of_ascii_range bytes_of_string_range : app.

(** [std::string::size()]. *)
Definition string_size (s : string) : Z := zlen (bytes_of_string s).

(** ** Ltac of the development *)

(** Case analysis on the guard of the outermost [if], with its meaning. *)
Ltac case_if_dec :=
  match goal with
  | |- context [if ?c then _ else _] => destruct c eqn:?
  | H : context [if ?c then _ else _] |- _ => destruct c eqn:?
  end.

(** Turn boolean tests in hypotheses into propositions. *)
Ltac breflect :=
  repeat match goal with
  | H : _ && _ = true |- _ => apply andb_prop in H as [? ?]
  | H : _ || _ = false |- _ => apply orb_false_elim in H as [? ?]
  | H : negb _ = true |- _ => apply negb_true_iff in H
  | H : negb _ = false |- _ => apply negb_false_iff in H
  | H : (_ =? _) = true |- _ => apply Z.eqb_eq in H
  | H : (_ =? _) = false |- _ => apply Z.eqb_neq in H
  | H : (_ <? _) = true |- _ => apply Z.ltb_lt in H
  | H : (_ <? _) = false |- _ => apply Z.ltb_ge in H
  | H : (_ <=? _) = true |- _ => apply Z.leb_le in H
  | H : (_ <=? _) = false |- _ => apply Z.leb_gt in H
  | H : bool_decide _ = true |- _ => apply bool_decide_eq_true in H
  | H : bool_decide _ = false |- _ => apply bool_decide_eq_false in H
  end.
