(* ===== verification/Aether.v ===== *)
(** * What AppTraverse uses of the Aether object system

    The object system is the library aether-client-cpp and is not part of the
    repository.  These classes are the parameters of the development that stand
    for it: object identifiers, and the class registry.  An [ae::ObjId] is
    represented by the number [id()] returns. *)
From S2P Require Import Prelude.

(** Object identifiers: [ObjId_is_valid id] is [id.is_valid()], [ObjId_none] is
    the default constructed [ae::ObjId{}], which is never valid. *)
Class AetherIds := {
  ObjId_none : Z;
  ObjId_is_valid : Z → bool;
  ObjId_none_invalid : ObjId_is_valid ObjId_none = false
}.

(** The class registry.  [GenerationDistance base derived] is negative when
    [derived] is not a descendant of [base].  [has_factory c]: the registry
    finds a factory of [c] with create, load and save functions.
    The [kClassId] constants are computed by the registration macros of the
    object system. *)
Class AetherRegistry := {
  GenerationDistance : Z → Z → Z;
  IsExisting : Z → bool;
  has_factory : Z → bool;
  Obj_kClassId : Z;
  Node_kClassId : Z;
  Event_kClassId : Z;
  SharedNode_kClassId : Z
}.

(** [derives c base]: objects of class [c] can be used as objects of [base]. *)
Definition derives `{AetherRegistry} (c base : Z) : bool :=
  negb (GenerationDistance base c <? 0).

(** Concrete instances, on which the examples and witnesses evaluate: the zero
    identifier is the only invalid one, and a class hierarchy
    Obj(1) <- Node(2) <- SharedNode(4), Obj(1) <- Event(3) <- 10, 11. *)
Module Demo.
Definition parent (c : Z) : option Z :=
    if c =? 2 then Some 1 else if c =? 3 then Some 1
    else if c =? 4 then Some 2 else if c =? 10 then Some 3
    else if c =? 11 then Some 3 else None.

Fixpoint distance (fuel : nat) (base c : Z) : Z :=
    if base =? c then 0
    else match fuel, parent c with
         | S fuel', Some p =>
             let d := distance fuel' base p in
             if d <? 0 then d else d + 1
         | _, _ => -1
         end.

#[export] Instance ids : AetherIds := {|
    ObjId_none := 0;
    ObjId_is_valid z := negb (z =? 0);
    ObjId_none_invalid := eq_refl
  |}.

#[export] Instance registry : AetherRegistry := {|
    GenerationDistance := distance 5;
    IsExisting c := bool_decide (2 ≤ c ≤ 4 ∨ 10 ≤ c ≤ 11);
    has_factory c := bool_decide (2 ≤ c ≤ 4 ∨ 10 ≤ c ≤ 11);
    Obj_kClassId := 1;
    Node_kClassId := 2;
    Event_kClassId := 3;
    SharedNode_kClassId := 4
  |}.
End Demo.
