(* ===== verification/SharedEvent.v ===== *)
(** * Shared event identity, order, and journal records

    Models include/apptraverse/shared_event_id.h, shared_event_order.h and
    event_record.h: identity ([SharedEventId]) and position
    ([SharedEventOrder]) of a journal entry are independent. *)
From S2P Require Import Prelude.

(** ** SharedEventId (shared_event_id.h) *)
Record SharedEventId := mkSharedEventId {
  origin_uid : string;
  origin_sequence : Z
}.

#[export] Instance SharedEventId_eq_dec : EqDecision SharedEventId.
Proof. solve_decision. Defined.
#[export] Program Instance SharedEventId_countable : Countable SharedEventId :=
  inj_countable' (λ i, (origin_uid i, origin_sequence i))
    (λ p, mkSharedEventId p.1 p.2) _.
Next Obligation. by intros []. Qed.

Definition empty_identity : SharedEventId := mkSharedEventId "" 0.

(** [operator==] *)
Definition SharedEventId_eqb (a b : SharedEventId) : bool :=
  (origin_sequence b =? origin_sequence a) &&
  String.eqb (origin_uid a) (origin_uid b).

(** [operator<]: by origin, then by sequence. *)
Definition SharedEventId_ltb (a b : SharedEventId) : bool :=
  if negb (String.eqb (origin_uid a) (origin_uid b))
  then String.ltb (origin_uid a) (origin_uid b)
  else origin_sequence a <? origin_sequence b.

Lemma SharedEventId_eqb_spec a b : SharedEventId_eqb a b = bool_decide (a = b).
Proof.
  unfold SharedEventId_eqb. destruct a as [ua na], b as [ub nb]; simpl.
  destruct (Z.eqb_spec nb na), (String.eqb_spec ua ub); simpl;
    symmetry; [apply bool_decide_eq_true_2|apply bool_decide_eq_false_2..];
    congruence.
Qed.

(** ** SharedEventOrder (shared_event_order.h) *)
Record SharedEventOrder := mkSharedEventOrder { timestamp_us : Z }.

#[export] Instance SharedEventOrder_eq_dec : EqDecision SharedEventOrder.
Proof. solve_decision. Defined.

Definition SharedEventOrderLess (a b : SharedEventOrder) : bool :=
  timestamp_us a <? timestamp_us b.

(** ** Event pointers and journal records (event_record.h) *)

(** An [Event::ptr] as the journal uses it: whether it is valid, the object when
    it is loaded, and the Domain it belongs to. *)
Record EventPtr (E : Type) := mkEventPtr {
  ev_is_valid : bool;
  ev_object : option E;
  ev_domain : option Z
}.
Arguments mkEventPtr {E}.
Arguments ev_is_valid {E}.
Arguments ev_object {E}.
Arguments ev_domain {E}.

Definition ev_is_loaded {E} (p : EventPtr E) : bool :=
  match ev_object p with Some _ => true | None => false end.

Record EventRecord (E : Type) := mkEventRecord {
  event : EventPtr E;
  identity : SharedEventId;
  order : SharedEventOrder;
  retained_since_us : Z
}.
Arguments mkEventRecord {E}.
Arguments event {E}.
Arguments identity {E}.
Arguments order {E}.
Arguments retained_since_us {E}.

Definition HasSharedIdentity {E} (r : EventRecord E) : bool :=
  negb (String.eqb (origin_uid (identity r)) "").

Definition EventRecordOrderLess {E} (a b : EventRecord E) : bool :=
  SharedEventOrderLess (order a) (order b).

(** The timestamp of a record. *)
Definition ts {E} (r : EventRecord E) : Z := timestamp_us (order r).

Definition with_retained_since {E} (r : EventRecord E) (t : Z) : EventRecord E :=
  mkEventRecord (event r) (identity r) (order r) t.
