(* ===== verification/SyncFrame.v ===== *)
(** * Synchronization frames (sync_frame.h, sync_frame.cpp)

    The wire format of the shared synchronization protocol v1: the big-endian
    writers and the readers of untrusted bytes, the three frames, and the
    theorems that decoding inverts encoding and that only canonical encodings
    decode.  A reader takes the buffer and [pos] and returns [None] where the
    source returns false; the out-parameters of a failed read are not
    modelled, every caller discards them. *)
From S2P Require Import Prelude Aether SharedEvent.

Definition kSyncProtocolVersion : Z := 1.

Inductive SyncFrameType := kNodeState | kAck | kEvent.

#[export] Instance SyncFrameType_eq_dec : EqDecision SyncFrameType.
Proof. solve_decision. Defined.

(** [static_cast<std::uint8_t>(type)] *)
Definition SyncFrameType_u8 (t : SyncFrameType) : Z :=
  match t with kNodeState => 1 | kAck => 2 | kEvent => 3 end.

Record NodeStateFrame := mkNodeStateFrame {
  nsf_packet_id : Z;
  nsf_target_node_id : Z;
  nsf_destination_share_id : Z;
  nsf_payload : bytes
}.

Record AckFrame := mkAckFrame {
  ack_packet_id : Z;
  ack_target_node_id : Z;
  ack_destination_share_id : Z
}.

Record EventFrame := mkEventFrame {
  ef_packet_id : Z;
  ef_target_node_id : Z;
  ef_destination_share_id : Z;
  ef_identity : SharedEventId;
  ef_timestamp_us : Z;
  ef_event_class_id : Z;
  ef_payload : bytes
}.

(** ** Writers *)

Definition AppendU32 (out : bytes) (value : Z) : bytes :=
  out ++ [Z.land (Z.shiftr value 24) 255; Z.land (Z.shiftr value 16) 255;
          Z.land (Z.shiftr value 8) 255; Z.land value 255].

Definition AppendObjId (out : bytes) (id : Z) : bytes := AppendU32 out id.

Definition AppendU64 (out : bytes) (value : Z) : bytes :=
  AppendU32 (AppendU32 out (u32 (Z.shiftr value 32)))
            (u32 (Z.land value 4294967295)).

Definition AppendHeader (out : bytes) (type : SyncFrameType) : bytes :=
  out ++ [SyncFrameType_u8 type; kSyncProtocolVersion].

(** ** Readers *)

(** [in[pos]], for a position the caller has checked. *)
Definition byte_at (inb : bytes) (pos : Z) : Z :=
  default 0 (inb !! Z.to_nat pos).

Definition ReadU32 (inb : bytes) (pos : Z) : option (Z * Z) :=
  if pos + 4 >? zlen inb then None
  else Some (Z.lor (Z.lor (Z.lor (Z.shiftl (byte_at inb pos) 24)
                                 (Z.shiftl (byte_at inb (pos + 1)) 16))
                          (Z.shiftl (byte_at inb (pos + 2)) 8))
                   (byte_at inb (pos + 3)),
             pos + 4).

Definition ReadObjId `{AetherIds} (inb : bytes) (pos : Z) : option (Z * Z) :=
  '(raw, pos) ← ReadU32 inb pos;
  if ObjId_is_valid raw then Some (raw, pos) else None.

Definition ReadU64 (inb : bytes) (pos : Z) : option (Z * Z) :=
  '(hi, pos) ← ReadU32 inb pos;
  '(lo, pos) ← ReadU32 inb pos;
  Some (Z.lor (Z.shiftl hi 32) lo, pos).

Definition kMaxOriginUidBytes : Z := 256.

(** The [size] bytes from [pos], for a range the caller has checked. *)
Definition subrange (inb : bytes) (pos size : Z) : bytes :=
  take (Z.to_nat size) (drop (Z.to_nat pos) inb).

Definition ReadBoundedBytes (inb : bytes) (pos max_size : Z)
    : option (string * Z) :=
  '(size, pos) ← ReadU32 inb pos;
  if (size =? 0) || (size >? max_size) || (pos + size >? zlen inb) then None
  else Some (string_of_bytes (subrange inb pos size), pos + size).

Definition ReadHeader (inb : bytes) (expected : SyncFrameType) : option Z :=
  if zlen inb <? 2 then None
  else if negb (byte_at inb 0 =? SyncFrameType_u8 expected) then None
  else if negb (byte_at inb 1 =? kSyncProtocolVersion) then None
  else Some 2.

Definition PeekSyncFrameType (bs : bytes) : option SyncFrameType :=
  if (zlen bs <? 2) || negb (byte_at bs 1 =? kSyncProtocolVersion) then None
  else if byte_at bs 0 =? SyncFrameType_u8 kNodeState then Some kNodeState
  else if byte_at bs 0 =? SyncFrameType_u8 kAck then Some kAck
  else if byte_at bs 0 =? SyncFrameType_u8 kEvent then Some kEvent
  else None.

(** ** Frames *)

Definition EncodeNodeStateFrame (frame : NodeStateFrame) : bytes :=
  let out := AppendHeader [] kNodeState in
  let out := AppendObjId out (nsf_packet_id frame) in
  let out := AppendObjId out (nsf_target_node_id frame) in
  let out := AppendObjId out (nsf_destination_share_id frame) in
  let out := AppendU32 out (u32 (zlen (nsf_payload frame))) in
  out ++ nsf_payload frame.

Definition DecodeNodeStateFrame `{AetherIds} (bs : bytes)
    : option NodeStateFrame :=
  pos ← ReadHeader bs kNodeState;
  '(packet_id, pos) ← ReadObjId bs pos;
  '(target_node_id, pos) ← ReadObjId bs pos;
  '(destination_share_id, pos) ← ReadObjId bs pos;
  '(payload_size, pos) ← ReadU32 bs pos;
  if negb (pos + payload_size =? zlen bs) then None
  else Some (mkNodeStateFrame packet_id target_node_id destination_share_id
               (subrange bs pos payload_size)).

Definition EncodeAckFrame (frame : AckFrame) : bytes :=
  let out := AppendHeader [] kAck in
  let out := AppendObjId out (ack_packet_id frame) in
  let out := AppendObjId out (ack_target_node_id frame) in
  AppendObjId out (ack_destination_share_id frame).

Definition DecodeAckFrame `{AetherIds} (bs : bytes) : option AckFrame :=
  pos ← ReadHeader bs kAck;
  '(packet_id, pos) ← ReadObjId bs pos;
  '(target_node_id, pos) ← ReadObjId bs pos;
  '(destination_share_id, pos) ← ReadObjId bs pos;
  if pos =? zlen bs
  then Some (mkAckFrame packet_id target_node_id destination_share_id)
  else None.

Definition EncodeEventFrame (frame : EventFrame) : bytes :=
  let uid := bytes_of_string (origin_uid (ef_identity frame)) in
  let out := AppendHeader [] kEvent in
  let out := AppendObjId out (ef_packet_id frame) in
  let out := AppendObjId out (ef_target_node_id frame) in
  let out := AppendObjId out (ef_destination_share_id frame) in
  let out := AppendU32 out (u32 (zlen uid)) in
  let out := out ++ uid in
  let out := AppendU64 out (origin_sequence (ef_identity frame)) in
  let out := AppendU64 out (ef_timestamp_us frame) in
  let out := AppendU32 out (ef_event_class_id frame) in
  let out := AppendU32 out (u32 (zlen (ef_payload frame))) in
  out ++ ef_payload frame.

Definition DecodeEventFrame `{AetherIds, AetherRegistry} (bs : bytes)
    : option EventFrame :=
  pos ← ReadHeader bs kEvent;
  '(packet_id, pos) ← ReadObjId bs pos;
  '(target_node_id, pos) ← ReadObjId bs pos;
  '(destination_share_id, pos) ← ReadObjId bs pos;
  '(uid, pos) ← ReadBoundedBytes bs pos kMaxOriginUidBytes;
  '(sequence, pos) ← ReadU64 bs pos;
  if sequence =? 0 then None else
  '(timestamp, pos) ← ReadU64 bs pos;
  if timestamp =? 0 then None else
  '(event_class_id, pos) ← ReadU32 bs pos;
  if event_class_id =? 0 then None else
  if GenerationDistance Event_kClassId event_class_id <? 0 then None else
  '(payload_size, pos) ← ReadU32 bs pos;
  if negb (pos + payload_size =? zlen bs) then None
  else Some (mkEventFrame packet_id target_node_id destination_share_id
               (mkSharedEventId uid sequence) timestamp event_class_id
               (subrange bs pos payload_size)).

(** ** Lemmas: the four bytes of a word *)

Definition U32 (v : Z) : bytes := AppendU32 [] v.
Definition U64 (v : Z) : bytes := AppendU64 [] v.
Arguments U32 : simpl never.
Arguments U64 : simpl never.

Lemma AppendU32_app out v : AppendU32 out v = out ++ U32 v.
Proof. done. Qed.
Lemma AppendU64_app out v : AppendU64 out v = out ++ U64 v.
Proof. unfold U64, AppendU64. by rewrite !AppendU32_app, (assoc_L (++)). Qed.
Lemma zlen_U32 v : zlen (U32 v) = 4.
Proof. done. Qed.
Lemma zlen_U64 v : zlen (U64 v) = 8.
Proof. done. Qed.
#[export] Hint Rewrite zlen_U32 zlen_U64 : app.

Lemma U32_bytes v :
  U32 v = [Z.land (Z.shiftr v 24) 255; Z.land (Z.shiftr v 16) 255;
           Z.land (Z.shiftr v 8) 255; Z.land v 255].
Proof. done. Qed.

(** Big-endian recombination, as an equation between numbers. *)
Definition join4 (a b c d : Z) : Z :=
  Z.lor (Z.lor (Z.lor (Z.shiftl a 24) (Z.shiftl b 16)) (Z.shiftl c 8)) d.

Lemma join4_arith a b c d :
  is_u8 a → is_u8 b → is_u8 c → is_u8 d →
  join4 a b c d = a * 16777216 + b * 65536 + c * 256 + d.
Proof.
  unfold is_u8, join4. intros.
  replace (Z.shiftl a 24) with (Z.shiftl (Z.shiftl (Z.shiftl a 8) 8) 8)
    by (by rewrite !Z.shiftl_shiftl by lia).
  replace (Z.shiftl b 16) with (Z.shiftl (Z.shiftl b 8) 8)
    by (by rewrite !Z.shiftl_shiftl by lia).
  rewrite <-!Z.shiftl_lor, !lor_shiftl_low by lia. lia.
Qed.

Lemma byte_split v :
  is_u32 v →
  is_u8 (Z.land (Z.shiftr v 24) 255) ∧ is_u8 (Z.land (Z.shiftr v 16) 255) ∧
  is_u8 (Z.land (Z.shiftr v 8) 255) ∧ is_u8 (Z.land v 255) ∧
  Z.land (Z.shiftr v 24) 255 * 16777216 + Z.land (Z.shiftr v 16) 255 * 65536 +
  Z.land (Z.shiftr v 8) 255 * 256 + Z.land v 255 = v.
Proof.
  unfold is_u32, is_u8. intros.
  replace 255 with (Z.ones 8) by done.
  rewrite !Z.land_ones, !Z.shiftr_div_pow2 by lia.
  change (2 ^ 8) with 256; change (2 ^ 24) with 16777216;
    change (2 ^ 16) with 65536.
  Z.div_mod_to_equations; lia.
Qed.

Lemma split_join4 a b c d :
  is_u8 a → is_u8 b → is_u8 c → is_u8 d →
  is_u32 (join4 a b c d) ∧ U32 (join4 a b c d) = [a; b; c; d].
Proof.
  intros. rewrite join4_arith by done. unfold is_u8, is_u32 in *.
  split; [lia|]. unfold U32, AppendU32; simpl.
  replace 255 with (Z.ones 8) by done.
  rewrite !Z.land_ones, !Z.shiftr_div_pow2 by lia.
  change (2 ^ 8) with 256; change (2 ^ 24) with 16777216;
    change (2 ^ 16) with 65536.
  repeat f_equal; Z.div_mod_to_equations; lia.
Qed.

Lemma U32_range v : is_u32 v → is_bytes (U32 v).
Proof. intros H. destruct (byte_split v H) as (?&?&?&?&?).
  unfold U32, AppendU32, is_bytes; simpl.
  by repeat (apply List.Forall_cons; [done|]).
Qed.

(** ** Lemmas: a reader against the rest of the buffer *)

(** [inb] has [rest] left at position [pos]. *)
Definition at_pos (inb : bytes) (pos : Z) (rest : bytes) : Prop :=
  ∃ pre, inb = pre ++ rest ∧ pos = zlen pre.

Lemma at_pos_app inb pos chunk rest :
  at_pos inb pos (chunk ++ rest) → at_pos inb (pos + zlen chunk) rest.
Proof.
  intros (pre & -> & ->). exists (pre ++ chunk).
  by rewrite <-(assoc_L (++)), zlen_app.
Qed.

Lemma at_pos_len inb pos rest : at_pos inb pos rest → zlen inb = pos + zlen rest.
Proof. intros (pre & -> & ->). apply zlen_app. Qed.

Lemma at_pos_nonneg inb pos rest : at_pos inb pos rest → 0 ≤ pos.
Proof. intros (pre & _ & ->). apply zlen_nonneg. Qed.

Lemma at_pos_bytes inb pos rest : is_bytes inb → at_pos inb pos rest → is_bytes rest.
Proof. intros Hb (pre & -> & _). by apply Forall_app in Hb as [_ ?]. Qed.

Lemma at_pos_byte inb pos rest i :
  at_pos inb pos rest → 0 ≤ i → byte_at inb (pos + i) = default 0 (rest !! Z.to_nat i).
Proof.
  intros (pre & -> & ->) Hi. unfold byte_at, zlen.
  rewrite lookup_app_r by lia. do 2 f_equal. lia.
Qed.

Lemma at_pos_subrange inb pos chunk rest :
  at_pos inb pos (chunk ++ rest) → subrange inb pos (zlen chunk) = chunk.
Proof.
  intros (pre & -> & ->). unfold subrange, zlen.
  by rewrite !Nat2Z.id, drop_app_length, take_app_length.
Qed.

Lemma at_pos_split inb pos rest n :
  at_pos inb pos rest → 0 ≤ n → pos + n ≤ zlen inb →
  ∃ rest', rest = subrange inb pos n ++ rest' ∧ zlen (subrange inb pos n) = n.
Proof.
  intros Hp Hn Hle. pose proof (at_pos_len _ _ _ Hp) as Hlen.
  destruct Hp as (pre & -> & ->). exists (drop (Z.to_nat n) rest).
  unfold subrange, zlen in *. rewrite Nat2Z.id, drop_app_length.
  rewrite take_drop, length_take. split; [done|lia].
Qed.

Lemma U64_split v :
  U64 v = U32 (u32 (Z.shiftr v 32)) ++ U32 (u32 (Z.land v 4294967295)).
Proof. done. Qed.

#[local] Opaque U32 U64.

(** [ReadU32] succeeds exactly when the rest starts with the four bytes. *)
Lemma ReadU32_spec inb pos rest v pos' :
  is_bytes inb → at_pos inb pos rest →
  ReadU32 inb pos = Some (v, pos') ↔
  ∃ rest', is_u32 v ∧ rest = U32 v ++ rest' ∧ pos' = pos + 4.
Proof.
  intros Hb Hp. pose proof (at_pos_len _ _ _ Hp) as Hlen.
  pose proof (at_pos_bytes _ _ _ Hb Hp) as Hr.
  unfold ReadU32.
  replace (byte_at inb pos) with (byte_at inb (pos + 0)) by (f_equal; lia).
  rewrite !(at_pos_byte _ _ _ _ Hp) by lia.
  destruct (Z.gtb_spec (pos + 4) (zlen inb)) as [Hgt|Hle].
  { split; [done|]. intros (rest' & _ & -> & _).
    rewrite zlen_app, zlen_U32 in Hlen. pose proof (zlen_nonneg rest'). lia. }
  destruct rest as [|a [|b [|c [|d rest']]]];
    rewrite ?zlen_cons, ?zlen_nil in Hlen; try lia.
  repeat (apply Forall_cons_iff in Hr as [? Hr]); simpl.
  fold (join4 a b c d).
  split.
  - intros [= <- <-]. exists rest'.
    destruct (split_join4 a b c d) as [? ->]; done.
  - intros (r & Hv & Heq & ->). f_equal. f_equal.
    destruct (byte_split v Hv) as (?&?&?&?&Hsum).
    rewrite U32_bytes in Heq. injection Heq as -> -> -> -> ->.
    rewrite join4_arith by done. lia.
Qed.

Section readers.
  Context (inb : bytes) (Hb : is_bytes inb).

Lemma ReadU32_at pos v rest :
    at_pos inb pos (U32 v ++ rest) → is_u32 v → ReadU32 inb pos = Some (v, pos + 4).
  Proof using Hb. intros Hp Hv. apply (ReadU32_spec _ _ _ _ _ Hb Hp). eauto. Qed.

Lemma ReadU32_inv pos rest v pos' :
    at_pos inb pos rest → ReadU32 inb pos = Some (v, pos') →
    ∃ rest', is_u32 v ∧ rest = U32 v ++ rest' ∧ at_pos inb pos' rest'.
  Proof using Hb.
    intros Hp H. apply (ReadU32_spec _ _ _ _ _ Hb Hp) in H
      as (rest' & ? & -> & ->). exists rest'. split_and!; [done..|].
    by apply (at_pos_app _ _ _ _ Hp).
  Qed.

Lemma U64_join hi lo :
    is_u32 hi → is_u32 lo →
    is_u64 (Z.lor (Z.shiftl hi 32) lo) ∧
    u32 (Z.shiftr (Z.lor (Z.shiftl hi 32) lo) 32) = hi ∧
    u32 (Z.land (Z.lor (Z.shiftl hi 32) lo) 4294967295) = lo.
  Proof using.
    unfold is_u32, is_u64, u32. intros. rewrite !lor_shiftl_low by lia.
    replace 4294967295 with (Z.ones 32) by done.
    rewrite Z.land_ones, Z.shiftr_div_pow2 by lia.
    change (2 ^ 32) with 4294967296. Z.div_mod_to_equations; lia.
  Qed.

Lemma U64_unjoin v :
    is_u64 v →
    Z.lor (Z.shiftl (u32 (Z.shiftr v 32)) 32) (u32 (Z.land v 4294967295)) = v.
  Proof using.
    unfold is_u64, u32. intros. replace 4294967295 with (Z.ones 32) by done.
    rewrite Z.land_ones, Z.shiftr_div_pow2 by lia.
    change (2 ^ 32) with 4294967296.
    rewrite lor_shiftl_low; [|lia|by apply Z.mod_pos_bound].
    change (2 ^ 32) with 4294967296. Z.div_mod_to_equations; lia.
  Qed.

Lemma ReadU64_at pos v rest :
    at_pos inb pos (U64 v ++ rest) → is_u64 v → ReadU64 inb pos = Some (v, pos + 8).
  Proof using Hb.
    intros Hp Hv. rewrite U64_split, <-(assoc_L (++)) in Hp. unfold ReadU64.
    rewrite (ReadU32_at pos _ _ Hp (u32_range _)); simpl.
    apply at_pos_app in Hp. rewrite zlen_U32 in Hp.
    rewrite (ReadU32_at _ _ _ Hp (u32_range _)); simpl.
    rewrite U64_unjoin by done. f_equal. f_equal. lia.
  Qed.

Lemma ReadU64_inv pos rest v pos' :
    at_pos inb pos rest → ReadU64 inb pos = Some (v, pos') →
    ∃ rest', is_u64 v ∧ rest = U64 v ++ rest' ∧ at_pos inb pos' rest'.
  Proof using Hb.
    intros Hp. unfold ReadU64.
    destruct (ReadU32 inb pos) as [[hi p1]|] eqn:E1; [|done]; simpl.
    destruct (ReadU32 inb p1) as [[lo p2]|] eqn:E2; [|done]; simpl.
    intros [= <- <-].
    destruct (ReadU32_inv _ _ _ _ Hp E1) as (r1 & Hhi & -> & Hp1).
    destruct (ReadU32_inv _ _ _ _ Hp1 E2) as (r2 & Hlo & -> & Hp2).
    destruct (U64_join hi lo Hhi Hlo) as (? & Eh & El).
    exists r2. rewrite U64_split, Eh, El, (assoc_L (++)). done.
  Qed.

Lemma ReadObjId_at `{AetherIds} pos v rest :
    at_pos inb pos (U32 v ++ rest) → is_u32 v → ObjId_is_valid v = true →
    ReadObjId inb pos = Some (v, pos + 4).
  Proof using Hb.
    intros Hp Hv Hval. unfold ReadObjId.
    by rewrite (ReadU32_at _ _ _ Hp Hv); simpl; rewrite Hval.
  Qed.

Lemma ReadObjId_inv `{AetherIds} pos rest v pos' :
    at_pos inb pos rest → ReadObjId inb pos = Some (v, pos') →
    ∃ rest', is_u32 v ∧ ObjId_is_valid v = true ∧
      rest = U32 v ++ rest' ∧ at_pos inb pos' rest'.
  Proof using Hb.
    intros Hp. unfold ReadObjId.
    destruct (ReadU32 inb pos) as [[raw p1]|] eqn:E1; [|done]; simpl.
    destruct (ObjId_is_valid raw) eqn:Ev; [|done]. intros [= <- <-].
    destruct (ReadU32_inv _ _ _ _ Hp E1) as (r & ? & ? & ?). eauto 10.
  Qed.

Lemma ReadBoundedBytes_at pos max s rest :
    0 < string_size s ≤ max → max < 4294967296 →
    at_pos inb pos (U32 (string_size s) ++ bytes_of_string s ++ rest) →
    ReadBoundedBytes inb pos max = Some (s, pos + 4 + string_size s).
  Proof using Hb.
    intros Hs Hm Hp. unfold ReadBoundedBytes.
    rewrite (ReadU32_at pos (string_size s) _) with (1 := Hp)
      by (unfold is_u32; lia); simpl.
    apply at_pos_app in Hp. rewrite zlen_U32 in Hp.
    pose proof (at_pos_len _ _ _ Hp) as Hl. rewrite zlen_app in Hl.
    pose proof (zlen_nonneg rest). fold (string_size s) in Hl.
    destruct (Z.eqb_spec (string_size s) 0); [lia|].
    destruct (Z.gtb_spec (string_size s) max); [lia|].
    destruct (Z.gtb_spec (pos + 4 + string_size s) (zlen inb)); [lia|]; simpl.
    unfold string_size at 1. rewrite (at_pos_subrange _ _ _ _ Hp).
    by rewrite string_of_bytes_of_string.
  Qed.

Lemma ReadBoundedBytes_inv pos max rest s pos' :
    at_pos inb pos rest → ReadBoundedBytes inb pos max = Some (s, pos') →
    ∃ rest', 0 < string_size s ≤ max ∧ is_u32 (string_size s) ∧
      rest = U32 (string_size s) ++ bytes_of_string s ++ rest' ∧
      at_pos inb pos' rest'.
  Proof using Hb.
    intros Hp. unfold ReadBoundedBytes.
    destruct (ReadU32 inb pos) as [[size p1]|] eqn:E1; [|done]; simpl.
    destruct (ReadU32_inv _ _ _ _ Hp E1) as (r1 & Hsz & -> & Hp1).
    destruct (Z.eqb_spec size 0); [done|].
    destruct (Z.gtb_spec size max); [done|].
    destruct (Z.gtb_spec (p1 + size) (zlen inb)); [done|]; simpl.
    intros [= <- <-]. unfold is_u32 in Hsz.
    destruct (at_pos_split _ _ _ size Hp1) as (r2 & Er & Hlen); [lia..|].
    assert (is_bytes (subrange inb p1 size)) as Hsub.
    { pose proof (at_pos_bytes _ _ _ Hb Hp1) as Hr. rewrite Er in Hr.
      by apply Forall_app in Hr as [? _]. }
    assert (bytes_of_string (string_of_bytes (subrange inb p1 size))
      = subrange inb p1 size) as Hbs by (by apply bytes_of_string_of_bytes).
    exists r2. unfold string_size. rewrite Hbs, Hlen.
    split_and!; try (unfold is_u32; lia); [by rewrite <-Er|].
    rewrite Er in Hp1. apply at_pos_app in Hp1. by rewrite Hlen in Hp1.
  Qed.
End readers.

Definition header (t : SyncFrameType) : bytes :=
  [SyncFrameType_u8 t; kSyncProtocolVersion].

Lemma ReadHeader_at inb t rest :
  inb = header t ++ rest → ReadHeader inb t = Some 2 ∧ at_pos inb 2 rest.
Proof.
  intros ->. split; [|by exists (header t)].
  unfold ReadHeader, byte_at, zlen. simpl. rewrite !Z.eqb_refl; simpl.
  destruct (Z.ltb_spec (Z.of_nat (S (S (length rest)))) 2); [lia|done].
Qed.

Lemma ReadHeader_inv inb t pos :
  ReadHeader inb t = Some pos →
  ∃ rest, inb = header t ++ rest ∧ at_pos inb pos rest.
Proof.
  unfold ReadHeader. destruct (Z.ltb_spec (zlen inb) 2); [done|].
  destruct inb as [|a [|b rest]]; unfold zlen in *; simpl in *; [lia..|].
  unfold byte_at; simpl.
  destruct (Z.eqb_spec a (SyncFrameType_u8 t)) as [->|]; [|done].
  destruct (Z.eqb_spec b kSyncProtocolVersion) as [->|]; [|done].
  intros [= <-]. exists rest. split; [done|].
  by exists (header t).
Qed.

(** ** The frames *)

Definition id_ok `{AetherIds} (id : Z) : Prop :=
  is_u32 id ∧ ObjId_is_valid id = true.

Definition payload_ok (p : bytes) : Prop := is_bytes p ∧ is_u32 (zlen p).

Definition NodeStateFrame_ok `{AetherIds} (f : NodeStateFrame) : Prop :=
  id_ok (nsf_packet_id f) ∧ id_ok (nsf_target_node_id f) ∧
  id_ok (nsf_destination_share_id f) ∧ payload_ok (nsf_payload f).

Definition AckFrame_ok `{AetherIds} (f : AckFrame) : Prop :=
  id_ok (ack_packet_id f) ∧ id_ok (ack_target_node_id f) ∧
  id_ok (ack_destination_share_id f).

Definition EventFrame_ok `{AetherIds, AetherRegistry} (f : EventFrame) : Prop :=
  id_ok (ef_packet_id f) ∧ id_ok (ef_target_node_id f) ∧
  id_ok (ef_destination_share_id f) ∧
  0 < string_size (origin_uid (ef_identity f)) ≤ kMaxOriginUidBytes ∧
  is_u64 (origin_sequence (ef_identity f)) ∧ origin_sequence (ef_identity f) ≠ 0 ∧
  is_u64 (ef_timestamp_us f) ∧ ef_timestamp_us f ≠ 0 ∧
  is_u32 (ef_event_class_id f) ∧ ef_event_class_id f ≠ 0 ∧
  derives (ef_event_class_id f) Event_kClassId = true ∧
  payload_ok (ef_payload f).

Lemma EncodeNodeStateFrame_layout f :
  EncodeNodeStateFrame f =
  header kNodeState ++ U32 (nsf_packet_id f) ++ U32 (nsf_target_node_id f) ++
  U32 (nsf_destination_share_id f) ++ U32 (u32 (zlen (nsf_payload f))) ++
  nsf_payload f.
Proof.
  unfold EncodeNodeStateFrame, AppendObjId, AppendHeader. cbv zeta.
  by rewrite !AppendU32_app, <-!(assoc_L (++)).
Qed.

Lemma EncodeAckFrame_layout f :
  EncodeAckFrame f =
  header kAck ++ U32 (ack_packet_id f) ++ U32 (ack_target_node_id f) ++
  U32 (ack_destination_share_id f).
Proof.
  unfold EncodeAckFrame, AppendObjId, AppendHeader. cbv zeta.
  by rewrite !AppendU32_app, <-!(assoc_L (++)).
Qed.

Lemma EncodeEventFrame_layout f :
  EncodeEventFrame f =
  header kEvent ++ U32 (ef_packet_id f) ++ U32 (ef_target_node_id f) ++
  U32 (ef_destination_share_id f) ++
  U32 (u32 (string_size (origin_uid (ef_identity f)))) ++
  bytes_of_string (origin_uid (ef_identity f)) ++
  U64 (origin_sequence (ef_identity f)) ++ U64 (ef_timestamp_us f) ++
  U32 (ef_event_class_id f) ++ U32 (u32 (zlen (ef_payload f))) ++ ef_payload f.
Proof.
  unfold EncodeEventFrame, AppendObjId, AppendHeader. cbv zeta.
  by rewrite ?AppendU32_app, ?AppendU64_app, ?AppendU32_app, <-!(assoc_L (++)).
Qed.

(** Step through the reads of a decoder on a known buffer ([read_at]), or invert
    the reads of a decoder that succeeded ([read_inv]). *)
Ltac at_next :=
  match goal with
  | H : at_pos _ _ (?c ++ _) |- _ => apply at_pos_app in H
  end; autorewrite with app in *.

Ltac read_at Hb :=
  repeat first
  [ erewrite (ReadObjId_at _ Hb) by eauto
  | erewrite (ReadU64_at _ Hb) by eauto
  | erewrite (ReadU32_at _ Hb) by eauto ];
  simpl.

Ltac read_inv Hb :=
  match goal with
  | Hp : at_pos ?inb ?p _, H : context [ReadObjId ?inb ?p] |- _ =>
      let E := fresh "E" in
      destruct (ReadObjId inb p) as [[? ?]|] eqn:E; [|discriminate H]; simpl in H;
      destruct (ReadObjId_inv _ Hb _ _ _ _ Hp E) as (? & ? & ? & -> & ?);
      clear E
  | Hp : at_pos ?inb ?p _, H : context [ReadBoundedBytes ?inb ?p _] |- _ =>
      let E := fresh "E" in
      destruct (ReadBoundedBytes inb p _) as [[? ?]|] eqn:E; [|discriminate H];
      simpl in H;
      destruct (ReadBoundedBytes_inv _ Hb _ _ _ _ _ Hp E) as (? & ? & ? & -> & ?);
      clear E
  | Hp : at_pos ?inb ?p _, H : context [ReadU64 ?inb ?p] |- _ =>
      let E := fresh "E" in
      destruct (ReadU64 inb p) as [[? ?]|] eqn:E; [|discriminate H]; simpl in H;
      destruct (ReadU64_inv _ Hb _ _ _ _ Hp E) as (? & ? & -> & ?); clear E
  | Hp : at_pos ?inb ?p _, H : context [ReadU32 ?inb ?p] |- _ =>
      let E := fresh "E" in
      destruct (ReadU32 inb p) as [[? ?]|] eqn:E; [|discriminate H]; simpl in H;
      destruct (ReadU32_inv _ Hb _ _ _ _ Hp E) as (? & ? & -> & ?); clear E
  | H : context [if ?c =? 0 then None else _] |- _ =>
      destruct (Z.eqb_spec c 0); [discriminate H|]
  end.

(** The payload a decoder takes is the whole rest of the buffer. *)
Lemma payload_rest inb pos rest n :
  is_bytes inb → at_pos inb pos rest → is_u32 n → pos + n = zlen inb →
  subrange inb pos n = rest ∧ zlen rest = n ∧ payload_ok rest.
Proof.
  intros Hb Hp Hn Hlen. pose proof (at_pos_len _ _ _ Hp) as Hl.
  assert (n = zlen rest) as -> by lia.
  assert (subrange inb pos (zlen rest) = rest) as Hs.
  { rewrite <-(app_nil_r rest) in Hp. by apply at_pos_subrange in Hp. }
  split_and!; [done..|]. split; [by eapply at_pos_bytes|done].
Qed.

Lemma is_bytes_app a b : is_bytes a → is_bytes b → is_bytes (a ++ b).
Proof. intros. by apply Forall_app. Qed.
Lemma header_range t : is_bytes (header t).
Proof.
  unfold header, is_bytes. destruct t;
    repeat (apply List.Forall_cons; [by vm_compute|]); done.
Qed.
Lemma U64_range v : is_bytes (U64 v).
Proof. rewrite U64_split. apply is_bytes_app; apply U32_range; auto with app. Qed.
#[export] Hint Resolve is_bytes_app header_range U32_range U64_range : app.

(** Encoders write bytes. *)
Lemma EncodeNodeStateFrame_bytes `{AetherIds} f :
  NodeStateFrame_ok f → is_bytes (EncodeNodeStateFrame f).
Proof.
  intros ((?&?)&(?&?)&(?&?)&(?&?)). rewrite EncodeNodeStateFrame_layout.
  auto 10 with app.
Qed.
Lemma EncodeAckFrame_bytes `{AetherIds} f :
  AckFrame_ok f → is_bytes (EncodeAckFrame f).
Proof.
  intros ((?&?)&(?&?)&(?&?)). rewrite EncodeAckFrame_layout. auto 10 with app.
Qed.
Lemma EncodeEventFrame_bytes `{AetherIds, AetherRegistry} f :
  EventFrame_ok f → is_bytes (EncodeEventFrame f).
Proof.
  intros ((?&?)&(?&?)&(?&?)&?&?&?&?&?&?&?&?&(?&?)).
  rewrite EncodeEventFrame_layout. auto 20 with app.
Qed.

(** The last step of the decoders with a payload. *)
Ltac read_payload Hb :=
  match goal with
  | Hp : at_pos ?inb ?p ?r, Hn : is_u32 ?n,
    H : (if negb (?p + ?n =? zlen ?inb) then None else _) = Some _ |- _ =>
      destruct (Z.eqb_spec (p + n) (zlen inb)) as [Hlen|]; [|discriminate H];
      destruct (payload_rest _ _ _ _ Hb Hp Hn Hlen) as (Esub & <- & Hpay);
      injection H as <-; rewrite Esub
  end.

(** Reading back the payload an encoder wrote. *)
Lemma payload_read inb pos p :
  is_bytes inb → payload_ok p → at_pos inb pos (U32 (u32 (zlen p)) ++ p) →
  ReadU32 inb pos = Some (zlen p, pos + 4) ∧
  pos + 4 + zlen p = zlen inb ∧ subrange inb (pos + 4) (zlen p) = p.
Proof.
  intros Hb (Hpb & Hpl) Hp. rewrite u32_small in Hp by done.
  split_and!; [by eapply ReadU32_at|..].
  - rewrite (at_pos_len _ _ _ Hp), zlen_app, zlen_U32. lia.
  - apply at_pos_app in Hp. rewrite zlen_U32 in Hp.
    rewrite <-(app_nil_r p) in Hp. by apply at_pos_subrange in Hp.
Qed.

(** C4. NodeState frames: on any byte vector, [DecodeNodeStateFrame] returns [f]
    if and only if [f] is well formed and the vector is exactly the encoding of
    [f].  So encoding round-trips, the encoding of a frame is the only vector
    that decodes to it, and truncated or trailing bytes are rejected. *)
Theorem DecodeNodeStateFrame_iff `{AetherIds} (bs : bytes) (f : NodeStateFrame)
    (Hb : is_bytes bs) :
  DecodeNodeStateFrame bs = Some f ↔ NodeStateFrame_ok f ∧ bs = EncodeNodeStateFrame f.
Proof.
  rewrite EncodeNodeStateFrame_layout. split.
  - unfold DecodeNodeStateFrame. intros Hd.
    destruct (ReadHeader bs kNodeState) as [p|] eqn:E; [|discriminate Hd]; simpl in Hd.
    destruct (ReadHeader_inv _ _ _ E) as (r & Er & Hp). clear E.
    repeat read_inv Hb. read_payload Hb. simpl.
    rewrite u32_small by apply Hpay. split; [|done].
    unfold NodeStateFrame_ok, id_ok; simpl; tauto.
  - intros (((?&?)&(?&?)&(?&?)&Hpay) & Eb).
    destruct (ReadHeader_at _ _ _ Eb) as [Eh Hp].
    unfold DecodeNodeStateFrame. rewrite Eh; simpl. clear Eb Eh.
    do 3 (read_at Hb; at_next).
    destruct (payload_read _ _ _ Hb Hpay Hp) as (-> & Hl & Hs).
    cbn [mbind option_bind]. rewrite Hs, Hl, Z.eqb_refl. by destruct f.
Qed.

(** A decoder that stopped at the end of the buffer left nothing. *)
Lemma at_pos_end inb rest : at_pos inb (zlen inb) rest → rest = [].
Proof.
  intros Hp. apply at_pos_len in Hp. pose proof (zlen_nonneg rest).
  destruct rest; [done|]. rewrite zlen_cons in Hp.
  pose proof (zlen_nonneg rest). lia.
Qed.

(** The position after the fixed part of a frame. *)
Lemma at_pos_nil inb pos : at_pos inb pos [] → pos = zlen inb.
Proof. intros Hp. apply at_pos_len in Hp. rewrite zlen_nil in Hp. lia. Qed.

(** Acknowledgement frames: [DecodeAckFrame] accepts exactly the encodings of
    well-formed frames, and returns the frame that was encoded. *)
Theorem DecodeAckFrame_iff `{AetherIds} (bs : bytes) (f : AckFrame)
    (Hb : is_bytes bs) :
  DecodeAckFrame bs = Some f ↔ AckFrame_ok f ∧ bs = EncodeAckFrame f.
Proof.
  rewrite EncodeAckFrame_layout. split.
  - unfold DecodeAckFrame. intros Hd.
    destruct (ReadHeader bs kAck) as [p|] eqn:E; [|discriminate Hd]; simpl in Hd.
    destruct (ReadHeader_inv _ _ _ E) as (r & Er & Hp). clear E.
    repeat read_inv Hb.
    match type of Hd with context [?p =? _] => destruct (Z.eqb_spec p (zlen bs)) end;
      [|discriminate Hd]. subst.
    match goal with Hp : at_pos _ (zlen _) _ |- _ => apply at_pos_end in Hp end.
    subst. injection Hd as <-. split; [|by rewrite app_nil_r].
    unfold AckFrame_ok, id_ok; simpl; tauto.
  - intros (((?&?)&(?&?)&(?&?)) & Eb).
    rewrite <-(app_nil_r (U32 (ack_destination_share_id f))) in Eb.
    destruct (ReadHeader_at _ _ _ Eb) as [Eh Hp].
    unfold DecodeAckFrame. rewrite Eh; simpl. clear Eb Eh.
    do 3 (read_at Hb; at_next). apply at_pos_nil in Hp.
    rewrite <-Hp. by destruct f.
Qed.

(** Event frames: [DecodeEventFrame] accepts exactly the encodings of
    well-formed frames: valid identifiers, an origin of 1 to 256 bytes, nonzero
    64-bit sequence and timestamp, a class derived from Event, and a payload
    that is the rest of the frame; and it returns the frame that was encoded. *)
Theorem DecodeEventFrame_iff `{AetherIds, AetherRegistry} (bs : bytes)
    (f : EventFrame) (Hb : is_bytes bs) :
  DecodeEventFrame bs = Some f ↔ EventFrame_ok f ∧ bs = EncodeEventFrame f.
Proof.
  rewrite EncodeEventFrame_layout. split.
  - unfold DecodeEventFrame. intros Hd.
    destruct (ReadHeader bs kEvent) as [p|] eqn:E; [|discriminate Hd]; simpl in Hd.
    destruct (ReadHeader_inv _ _ _ E) as (r & Er & Hp). clear E.
    repeat read_inv Hb.
    destruct (GenerationDistance _ _ <? 0) eqn:Eg; [discriminate Hd|].
    repeat read_inv Hb. read_payload Hb. simpl.
    rewrite !u32_small by (done || apply Hpay). split; [|done].
    unfold EventFrame_ok, id_ok, derives; simpl. rewrite Eg. tauto.
  - intros (((?&?)&(?&?)&(?&?)&Hu&?&?&?&?&?&?&Hd&Hpay) & Eb).
    rewrite u32_small in Eb by (unfold is_u32, kMaxOriginUidBytes in *; lia).
    destruct (ReadHeader_at _ _ _ Eb) as [Eh Hp].
    unfold DecodeEventFrame. rewrite Eh; simpl. clear Eb Eh.
    do 3 (read_at Hb; at_next).
    rewrite (ReadBoundedBytes_at _ Hb _ kMaxOriginUidBytes _ _ Hu eq_refl Hp).
    do 2 at_next. fold (string_size (origin_uid (ef_identity f))) in Hp.
    cbn [mbind option_bind].
    do 2 (read_at Hb; at_next; rewrite (proj2 (Z.eqb_neq _ _)) by done).
    read_at Hb; at_next; rewrite (proj2 (Z.eqb_neq _ _)) by done.
    unfold derives in Hd. apply negb_true_iff in Hd. rewrite Hd.
    destruct (payload_read _ _ _ Hb Hpay Hp) as (-> & Hl & Hs).
    cbn [mbind option_bind]. rewrite Hs, Hl, Z.eqb_refl. by destruct f as [??? [??]].
Qed.

(** Dispatch: the frame type [PeekSyncFrameType] reports is the one of the
    only decoder that can accept the bytes; whatever a decoder accepts is
    dispatched to it. *)
Theorem PeekSyncFrameType_decoders `{AetherIds, AetherRegistry} (bs : bytes) :
  (∀ f, DecodeNodeStateFrame bs = Some f → PeekSyncFrameType bs = Some kNodeState) ∧
  (∀ f, DecodeAckFrame bs = Some f → PeekSyncFrameType bs = Some kAck) ∧
  (∀ f, DecodeEventFrame bs = Some f → PeekSyncFrameType bs = Some kEvent).
Proof.
  assert (∀ t pos, ReadHeader bs t = Some pos → PeekSyncFrameType bs = Some t) as Hh.
  { intros t pos (rest & -> & _)%ReadHeader_inv.
    unfold PeekSyncFrameType, byte_at, zlen. simpl.
    destruct (Z.ltb_spec (Z.of_nat (S (S (length rest)))) 2); [lia|]. by destruct t. }
  unfold DecodeNodeStateFrame, DecodeAckFrame, DecodeEventFrame.
  split_and!; intros f;
    match goal with |- context [ReadHeader bs ?t] =>
      destruct (ReadHeader bs t) eqn:E; [|done] end; eauto.
Qed.

(** ** Concrete frames *)
Module Examples.
  Import Demo.

Definition node_state : NodeStateFrame := mkNodeStateFrame 7 100 42 [1; 2; 255].
Definition ack : AckFrame := mkAckFrame 7 100 42.
Definition event_frame : EventFrame :=
    mkEventFrame 7 100 42 (mkSharedEventId "alice" 3) 1700000000000000 10 [9; 9].

Example event_frame_bytes :
    EncodeEventFrame event_frame =
    [3; 1; 0; 0; 0; 7; 0; 0; 0; 100; 0; 0; 0; 42; 0; 0; 0; 5; 97; 108; 105; 99;
     101; 0; 0; 0; 0; 0; 0; 0; 3; 0; 6; 10; 36; 24; 30; 64; 0; 0; 0; 0; 10; 0; 0;
     0; 2; 9; 9].
  Proof. vm_compute. reflexivity. Qed.

  (** A trailing byte makes the frame undecodable. *)
Example event_frame_trailing :
    DecodeEventFrame (EncodeEventFrame event_frame ++ [0]) = None.
  Proof. vm_compute. reflexivity. Qed.

Lemma DecodeNodeStateFrame_iff_witness :
    is_bytes (EncodeNodeStateFrame node_state) ∧
    DecodeNodeStateFrame (EncodeNodeStateFrame node_state) = Some node_state.
  Proof.
    assert (is_bytes (EncodeNodeStateFrame node_state)) as Hb
      by (apply (bool_decide_unpack _); vm_compute; exact I).
    split; [exact Hb|].
    apply (proj2 (DecodeNodeStateFrame_iff _ _ Hb)). split; [|reflexivity].
    repeat split; try (vm_compute; done).
    apply (bool_decide_unpack _); vm_compute; exact I.
  Defined.

Lemma DecodeAckFrame_iff_witness :
    is_bytes (EncodeAckFrame ack) ∧ DecodeAckFrame (EncodeAckFrame ack) = Some ack.
  Proof.
    assert (is_bytes (EncodeAckFrame ack)) as Hb
      by (apply (bool_decide_unpack _); vm_compute; exact I).
    split; [exact Hb|].
    apply (proj2 (DecodeAckFrame_iff _ _ Hb)). split; [|reflexivity].
    repeat split; vm_compute; done.
  Defined.

Lemma DecodeEventFrame_iff_witness :
    is_bytes (EncodeEventFrame event_frame) ∧
    DecodeEventFrame (EncodeEventFrame event_frame) = Some event_frame.
  Proof.
    assert (is_bytes (EncodeEventFrame event_frame)) as Hb
      by (apply (bool_decide_unpack _); vm_compute; exact I).
    split; [exact Hb|].
    apply (proj2 (DecodeEventFrame_iff _ _ Hb)). split; [|reflexivity].
    repeat split; try (vm_compute; done).
    apply (bool_decide_unpack _); vm_compute; exact I.
  Defined.
End Examples.
