(* ===== verification/MemoryTransport.v ===== *)
(** * In-process network (memory_transport.h, memory_transport.cpp)

    [MemoryNetwork]: one queue of packets per directed endpoint pair, a set of
    directions that are down, and the attached transports.  A transport is
    known by its endpoint uid; the network keeps its receive binding (the
    [ctx]/[fn] pair, an abstract token here).  Handing a packet to the receiver
    is the last action of [DeliverNext]; the model returns the delivery and the
    receiver runs on the network it left. *)
From S2P Require Import Prelude.

Abbreviation Direction := (string * string)%type.

(** What a bound receiver is: the runtime instance behind the [ctx] pointer. *)
Abbreviation Receiver := Z.

Record MemoryNetwork := mkMemoryNetwork {
  endpoints_ : gmap string (option Receiver);
  queues_ : gmap Direction (list bytes);
  disconnected_ : gset Direction
}.

Definition empty_network : MemoryNetwork := mkMemoryNetwork ∅ ∅ ∅.

Definition set_queues (n : MemoryNetwork) q :=
  mkMemoryNetwork (endpoints_ n) q (disconnected_ n).
Definition set_endpoints (n : MemoryNetwork) e :=
  mkMemoryNetwork e (queues_ n) (disconnected_ n).
Definition set_disconnected (n : MemoryNetwork) d :=
  mkMemoryNetwork (endpoints_ n) (queues_ n) d.

(** ** Queries *)

Definition PendingCount (n : MemoryNetwork) (from to : string) : nat :=
  match queues_ n !! (from, to) with
  | None => 0%nat
  | Some q => length q
  end.

Definition kNoBytes : bytes := [].

Definition PeekNext (n : MemoryNetwork) (from to : string) : bytes :=
  match queues_ n !! (from, to) with
  | None | Some [] => kNoBytes
  | Some (b :: _) => b
  end.

Definition IsConnected (n : MemoryNetwork) (from to : string) : bool :=
  bool_decide ((from, to) ∉ disconnected_ n).

(** ** Packet movement *)

(** A packet handed to the receiver of [to]. *)
Record Delivery := mkDelivery {
  d_receiver : Receiver;
  d_source : string;
  d_bytes : bytes
}.

(** [MemoryTransport::Deliver]: the attached endpoint must have a receiver. *)
Definition Deliver (binding : option Receiver) (source : string) (bs : bytes)
    : option Delivery :=
  match binding with
  | None => None
  | Some r => Some (mkDelivery r source bs)
  end.

Definition DeliverNext (n : MemoryNetwork) (from to : string)
    : option (bool * MemoryNetwork * option Delivery) :=
  if negb (IsConnected n from to) then Some (false, n, None)
  else match queues_ n !! (from, to) with
  | None | Some [] => Some (false, n, None)
  | Some (b :: q) =>
      match endpoints_ n !! to with
      | None => Some (false, n, None)
      | Some binding =>
          d ← Deliver binding from b;
          Some (true, set_queues n (<[(from, to) := q]> (queues_ n)), Some d)
      end
  end.

Definition DropNext (n : MemoryNetwork) (from to : string)
    : bool * MemoryNetwork :=
  match queues_ n !! (from, to) with
  | None | Some [] => (false, n)
  | Some (_ :: q) => (true, set_queues n (<[(from, to) := q]> (queues_ n)))
  end.

Definition DuplicateNext (n : MemoryNetwork) (from to : string)
    : bool * MemoryNetwork :=
  match queues_ n !! (from, to) with
  | None | Some [] => (false, n)
  | Some (b :: q) =>
      (true, set_queues n (<[(from, to) := (b :: q) ++ [b]]> (queues_ n)))
  end.

Definition Disconnect (n : MemoryNetwork) (from to : string) : MemoryNetwork :=
  set_disconnected n ({[(from, to)]} ∪ disconnected_ n).

Definition Reconnect (n : MemoryNetwork) (from to : string) : MemoryNetwork :=
  set_disconnected n (disconnected_ n ∖ {[(from, to)]}).

Definition Enqueue (n : MemoryNetwork) (from to : string) (bs : bytes)
    : MemoryNetwork :=
  if negb (IsConnected n from to) then n
  else set_queues n
         (<[(from, to) := default [] (queues_ n !! (from, to)) ++ [bs]]>
            (queues_ n)).

(** ** Transports *)

(** [MemoryTransport(network, uid)]: the constructor asserts a nonempty uid and
    [Attach] that the uid is not attached yet. *)
Definition Attach (n : MemoryNetwork) (uid : string) : option MemoryNetwork :=
  assert! negb (String.eqb uid "") ;;
  match endpoints_ n !! uid with
  | Some _ => None
  | None => Some (set_endpoints n (<[uid := None]> (endpoints_ n)))
  end.

(** [~MemoryTransport] *)
Definition Detach (n : MemoryNetwork) (uid : string) : MemoryNetwork :=
  set_endpoints n (delete uid (endpoints_ n)).

Definition Send (n : MemoryNetwork) (local to : string) (bs : bytes)
    : option MemoryNetwork :=
  assert! negb (String.eqb to local) ;; Some (Enqueue n local to bs).

Definition BindReceive (n : MemoryNetwork) (uid : string) (r : Receiver)
    : MemoryNetwork :=
  set_endpoints n (alter (λ _, Some r) uid (endpoints_ n)).

Definition ClearReceive (n : MemoryNetwork) (uid : string) : MemoryNetwork :=
  set_endpoints n (alter (λ _, None) uid (endpoints_ n)).

(** ** Runs *)

Inductive Op :=
| OpAttach (uid : string)
| OpDetach (uid : string)
| OpBind (uid : string) (r : Receiver)
| OpClear (uid : string)
| OpSend (from to : string) (bs : bytes)
| OpDeliver (from to : string)
| OpDrop (from to : string)
| OpDuplicate (from to : string)
| OpDisconnect (from to : string)
| OpReconnect (from to : string).

Definition exec (n : MemoryNetwork) (op : Op)
    : option (MemoryNetwork * option Delivery) :=
  match op with
  | OpAttach u => n' ← Attach n u; Some (n', None)
  | OpDetach u => Some (Detach n u, None)
  | OpBind u r => Some (BindReceive n u r, None)
  | OpClear u => Some (ClearReceive n u, None)
  | OpSend f t b => n' ← Send n f t b; Some (n', None)
  | OpDeliver f t => '(_, n', d) ← DeliverNext n f t; Some (n', d)
  | OpDrop f t => Some ((DropNext n f t).2, None)
  | OpDuplicate f t => Some ((DuplicateNext n f t).2, None)
  | OpDisconnect f t => Some (Disconnect n f t, None)
  | OpReconnect f t => Some (Reconnect n f t, None)
  end.

(** What a run did to one direction: [accepted] packets entered its queue,
    [removed] ones left it (delivered or dropped), in order; [delivered] are
    those handed to a receiver. *)
Record History := mkHistory {
  accepted : list bytes;
  removed : list bytes;
  delivered : list bytes
}.

Definition no_history : History := mkHistory [] [] [].

Definition pending (n : MemoryNetwork) (d : Direction) : list bytes :=
  default [] (queues_ n !! d).

Definition observe (d : Direction) (n : MemoryNetwork) (op : Op)
    (r : option Delivery) (h : History) : History :=
  match op with
  | OpSend f t b =>
      if bool_decide ((f, t) = d) && IsConnected n f t
      then mkHistory (accepted h ++ [b]) (removed h) (delivered h) else h
  | OpDuplicate f t =>
      if bool_decide ((f, t) = d)
      then mkHistory (accepted h ++ option_list (head (pending n d)))
             (removed h) (delivered h) else h
  | OpDrop f t =>
      if bool_decide ((f, t) = d)
      then mkHistory (accepted h) (removed h ++ option_list (head (pending n d)))
             (delivered h) else h
  | OpDeliver f t =>
      match r with
      | Some del => if bool_decide ((f, t) = d)
          then mkHistory (accepted h) (removed h ++ [d_bytes del])
                 (delivered h ++ [d_bytes del]) else h
      | None => h
      end
  | _ => h
  end.

Fixpoint run (d : Direction) (n : MemoryNetwork) (h : History) (ops : list Op)
    : option (MemoryNetwork * History) :=
  match ops with
  | [] => Some (n, h)
  | op :: ops' =>
      '(n', r) ← exec n op;
      run d n' (observe d n op r h) ops'
  end.

(** ** Lemmas *)

Lemma pending_insert n d d' q :
  pending (set_queues n (<[d := q]> (queues_ n))) d' =
  if decide (d = d') then q else pending n d'.
Proof.
  unfold pending; simpl. rewrite lookup_insert. by case_decide.
Qed.

(** The direction whose queue an operation can change. *)
Definition op_direction (op : Op) : option Direction :=
  match op with
  | OpSend f t _ | OpDeliver f t | OpDrop f t | OpDuplicate f t => Some (f, t)
  | _ => None
  end.

Ltac network_cases :=
  repeat first [ progress simplify_option_eq | case_match ].

(** Directions are independent. *)
Lemma exec_other d n op n' r h :
  exec n op = Some (n', r) → op_direction op ≠ Some d →
  pending n' d = pending n d ∧ observe d n op r h = h.
Proof.
  intros He Hd.
  assert (∀ f t, Some (f, t) ≠ Some d → bool_decide ((f, t) = d) = false) as Hb.
  { intros f t Hne. apply bool_decide_eq_false_2. congruence. }
  destruct op; simpl in He, Hd |- *; rewrite ?Hb by done;
    unfold Attach, Send, Enqueue, DropNext, DuplicateNext, DeliverNext in He;
    network_cases; rewrite ?pending_insert; try case_decide; naive_solver.
Qed.

Definition FIFO (d : Direction) (n : MemoryNetwork) (h : History) : Prop :=
  accepted h = removed h ++ pending n d ∧
  delivered h `sublist_of` removed h.

Lemma pending_cons n d b q : queues_ n !! d = Some (b :: q) → pending n d = b :: q.
Proof. unfold pending. by intros ->. Qed.
Lemma pending_none n d :
  queues_ n !! d = None ∨ queues_ n !! d = Some [] → pending n d = [].
Proof. unfold pending. by intros [->| ->]. Qed.

Lemma exec_FIFO d n op n' r h :
  FIFO d n h → exec n op = Some (n', r) → FIFO d n' (observe d n op r h).
Proof.
  intros [Ha Hs] He.
  destruct (decide (op_direction op = Some d)) as [Hd|Hd].
  2: { destruct (exec_other d n op n' r h He Hd) as [Hp ->].
       unfold FIFO. by rewrite Hp. }
  destruct op as [| | | |f t b|f t|f t|f t| |]; simplify_eq/=;
    rewrite ?bool_decide_eq_true_2 by done.
  - unfold Send, Enqueue in He. network_cases; [done|].
    split; [|done]. rewrite pending_insert, decide_True by done. simpl.
    by rewrite Ha, (assoc_L (++)).
  - unfold DeliverNext, Deliver in He. network_cases; try done.
    split; simpl; [|by apply sublist_app].
    rewrite pending_insert, decide_True by done.
    erewrite Ha, pending_cons by done. by rewrite <-(assoc_L (++)).
  - unfold DropNext. destruct (queues_ n !! (f, t)) as [[|b q]|] eqn:Eq; simpl.
    1,3: rewrite (pending_none n) by auto; simpl; rewrite app_nil_r; done.
    erewrite (pending_cons n) by done. split; simpl.
    + rewrite pending_insert, decide_True by done.
      erewrite Ha, pending_cons by done. by rewrite <-(assoc_L (++)).
    + by apply sublist_inserts_r.
  - unfold DuplicateNext.
    destruct (queues_ n !! (f, t)) as [[|b q]|] eqn:Eq; simpl.
    1,3: rewrite (pending_none n) by auto; simpl; rewrite app_nil_r; done.
    erewrite (pending_cons n) by done. split; simpl; [|done].
    rewrite pending_insert, decide_True by done.
    erewrite Ha, pending_cons by done. by rewrite <-(assoc_L (++)).
Qed.

Lemma run_FIFO d ops : ∀ n h n' h',
  FIFO d n h → run d n h ops = Some (n', h') → FIFO d n' h'.
Proof.
  induction ops as [|op ops IH]; intros n h n' h' HF Hr; simpl in Hr.
  - by simplify_eq.
  - destruct (exec n op) as [[n1 r]|] eqn:E; [|done]; simpl in Hr.
    eapply IH; [|done]. by eapply exec_FIFO.
Qed.

(** Channel order: on any run of network operations from an empty network
    (attach, detach, outages, drops and duplicates included), what entered a
    direction's queue is what left it followed by what is pending, in order, and
    what was delivered is a subsequence of what left it: no packet is invented,
    altered or reordered, and packets survive restarts and outages. *)
Theorem run_from_empty_FIFO (d : Direction) (ops : list Op) (n : MemoryNetwork)
    (h : History) (Hr : run d empty_network no_history ops = Some (n, h)) :
  accepted h = removed h ++ pending n d ∧ delivered h `sublist_of` removed h.
Proof. by eapply run_FIFO in Hr. Qed.

(** Delivery: [DeliverNext] hands over a packet exactly when the direction is
    up, its queue is not empty and the destination is attached; it then takes
    the head, gives it unchanged to the destination's bound receiver with the
    source endpoint, and changes nothing else.  Otherwise it returns false and
    leaves the network as it was; the assertion fails only for an attached
    destination without receiver. *)
Theorem DeliverNext_spec (n : MemoryNetwork) (from to : string) :
  match DeliverNext n from to with
  | None =>
      IsConnected n from to = true ∧ pending n (from, to) ≠ [] ∧
      endpoints_ n !! to = Some None
  | Some (false, n', d) =>
      n' = n ∧ d = None ∧
      (IsConnected n from to = false ∨ pending n (from, to) = [] ∨
       endpoints_ n !! to = None)
  | Some (true, n', d) =>
      ∃ b q r, pending n (from, to) = b :: q ∧
        IsConnected n from to = true ∧ endpoints_ n !! to = Some (Some r) ∧
        d = Some (mkDelivery r from b) ∧
        n' = set_queues n (<[(from, to) := q]> (queues_ n))
  end.
Proof.
  unfold DeliverNext, Deliver, pending.
  destruct (IsConnected n from to) eqn:Ec; simpl; [|auto].
  destruct (queues_ n !! (from, to)) as [[|b q]|] eqn:Eq; simpl; [by auto| |by auto].
  destruct (endpoints_ n !! to) as [[r|]|] eqn:Ee; simpl; [|by auto..].
  by exists b, q, r.
Qed.

(** ** A concrete run *)
Module Examples.
  #[local] Open Scope string_scope.

  (** alice sends two packets, bob is down for the first delivery attempt and
      comes back, the first packet is duplicated, one is dropped. *)
Definition ops : list Op := [
    OpAttach "alice"; OpSend "alice" "bob" [1]; OpSend "alice" "bob" [2];
    OpDeliver "alice" "bob"; OpAttach "bob"; OpBind "bob" 7;
    OpDuplicate "alice" "bob"; OpDeliver "alice" "bob"; OpDrop "alice" "bob";
    OpDisconnect "alice" "bob"; OpSend "alice" "bob" [3]; OpDetach "bob"].

Lemma run_from_empty_FIFO_witness :
    ∃ n h, run ("alice", "bob") empty_network no_history ops = Some (n, h) ∧
      pending n ("alice", "bob") = [[1]] ∧ delivered h = [[1]] ∧
      accepted h = (removed h ++ pending n ("alice", "bob"))%list.
  Proof.
    eexists _, _. split; [vm_compute; reflexivity|].
    split; [vm_compute; reflexivity|]. split; [vm_compute; reflexivity|].
    refine (proj1 (run_from_empty_FIFO ("alice", "bob") ops _ _ _)).
    vm_compute. reflexivity.
  Defined.
End Examples.
