(* ===== verification/Node.v ===== *)
(** * Event-sourced nodes (node.h, node_for.h, journal_retention_policy.h)

    A [Node] keeps a base snapshot, a journal of events ordered by timestamp, and
    materialized fields.  The concrete node class behind [NodeFor] is the
    interface [NodeKind]; this file has the operations of [Node], each as the
    source writes it.  [SystemUtcMicros()] readings are arguments ([now]). *)
From S2P Require Import Prelude SharedEvent.

(** ** The concrete node class

    [CanApplyTo], [ApplyTo], [MatchesSharedMetadata]: the virtual functions of
    the events of the class ([ApplyTo] returns [None] when an assertion of the
    concrete [Apply] fails, and whether it called [NoteMaterializedChange]).
    [SaveLoad]: the fields a load gives back after a materialized save, done by
    the object system.  [CarryLocal live loaded]: the fields after
    [StashLocalPersistentAcrossRebuild] on [live], the load of [loaded], and
    [RestoreLocalPersistentAcrossRebuild]. *)
Class NodeKind (F Ev : Type) := {
  CanApplyTo : F → Ev → bool;
  ApplyTo : F → Ev → option (F * bool);
  MatchesSharedMetadata : Ev → SharedEventId → SharedEventOrder → bool;
  SaveLoad : F → F;
  CarryLocal : F → F → F
}.

(** ** Data *)

Definition kSizeMax : Z := 18446744073709551615.

Module JournalRetentionPolicy.
Definition kUnlimitedEvents : Z := kSizeMax.
Record t := mk { max_events : Z; max_age : option Z }.
Definition default : t := mk kUnlimitedEvents None.
End JournalRetentionPolicy.

Definition kJournalFullyMaterialized : Z := kSizeMax.

(** A valid [base] pointer: the id of the base object, whether it is loaded, and
    the fields its storage layers hold. *)
Record BasePtr (F : Type) := mkBase {
  base_id : Z;
  base_loaded : bool;
  base_stored : F
}.
Arguments mkBase {F}.
Arguments base_id {F}.
Arguments base_loaded {F}.
Arguments base_stored {F}.

(** [materialized_change_ctx_] and [materialized_change_fn_] are one notifier;
    [notified] records its calls: the context and the generation it could read. *)
Record Node (F Ev : Type) := mkNode {
  obj_id : Z;
  domain : option Z;
  base : option (BasePtr F);
  journal : list (EventRecord Ev);
  fields : F;
  generation_ : Z;
  applied_journal_size_ : Z;
  journal_retention_policy_ : JournalRetentionPolicy.t;
  journal_compaction_blocked_ : bool;
  suppress_materialized_change_ : bool;
  materialized_change_fn_ : option Z;
  notified : list (Z * Z)
}.
Arguments mkNode {F Ev}.
Arguments obj_id {F Ev}.
Arguments domain {F Ev}.
Arguments base {F Ev}.
Arguments journal {F Ev}.
Arguments fields {F Ev}.
Arguments generation_ {F Ev}.
Arguments applied_journal_size_ {F Ev}.
Arguments journal_retention_policy_ {F Ev}.
Arguments journal_compaction_blocked_ {F Ev}.
Arguments suppress_materialized_change_ {F Ev}.
Arguments materialized_change_fn_ {F Ev}.
Arguments notified {F Ev}.

(** A node as the constructor leaves it. *)
Definition new_node {F Ev} (id : Z) (dom : option Z) (f : F) : Node F Ev :=
  mkNode id dom None [] f 1 kJournalFullyMaterialized
    JournalRetentionPolicy.default false false None [].

Section setters.
  Context {F Ev : Type}.
  Implicit Types n : Node F Ev.

Definition set_base n b : Node F Ev :=
    mkNode (obj_id n) (domain n) b (journal n) (fields n) (generation_ n)
      (applied_journal_size_ n) (journal_retention_policy_ n)
      (journal_compaction_blocked_ n) (suppress_materialized_change_ n)
      (materialized_change_fn_ n) (notified n).
Definition set_journal n j : Node F Ev :=
    mkNode (obj_id n) (domain n) (base n) j (fields n) (generation_ n)
      (applied_journal_size_ n) (journal_retention_policy_ n)
      (journal_compaction_blocked_ n) (suppress_materialized_change_ n)
      (materialized_change_fn_ n) (notified n).
Definition set_fields n f : Node F Ev :=
    mkNode (obj_id n) (domain n) (base n) (journal n) f (generation_ n)
      (applied_journal_size_ n) (journal_retention_policy_ n)
      (journal_compaction_blocked_ n) (suppress_materialized_change_ n)
      (materialized_change_fn_ n) (notified n).
Definition set_generation n g : Node F Ev :=
    mkNode (obj_id n) (domain n) (base n) (journal n) (fields n) g
      (applied_journal_size_ n) (journal_retention_policy_ n)
      (journal_compaction_blocked_ n) (suppress_materialized_change_ n)
      (materialized_change_fn_ n) (notified n).
Definition set_applied n a : Node F Ev :=
    mkNode (obj_id n) (domain n) (base n) (journal n) (fields n) (generation_ n)
      a (journal_retention_policy_ n)
      (journal_compaction_blocked_ n) (suppress_materialized_change_ n)
      (materialized_change_fn_ n) (notified n).
Definition set_suppress n s : Node F Ev :=
    mkNode (obj_id n) (domain n) (base n) (journal n) (fields n) (generation_ n)
      (applied_journal_size_ n) (journal_retention_policy_ n)
      (journal_compaction_blocked_ n) s
      (materialized_change_fn_ n) (notified n).
Definition set_notifier n f : Node F Ev :=
    mkNode (obj_id n) (domain n) (base n) (journal n) (fields n) (generation_ n)
      (applied_journal_size_ n) (journal_retention_policy_ n)
      (journal_compaction_blocked_ n) (suppress_materialized_change_ n)
      f (notified n).
Definition add_notified n e : Node F Ev :=
    mkNode (obj_id n) (domain n) (base n) (journal n) (fields n) (generation_ n)
      (applied_journal_size_ n) (journal_retention_policy_ n)
      (journal_compaction_blocked_ n) (suppress_materialized_change_ n)
      (materialized_change_fn_ n) (notified n ++ [e]).

  (** ** Accessors of the class *)

Definition Generation n : Z := generation_ n.
Definition AdoptPublishedGeneration n (g : Z) : Node F Ev := set_generation n g.
Definition AdoptMaterializedPersistentCheckpointJournal n : Node F Ev :=
    set_applied n kJournalFullyMaterialized.
Definition SetJournalRetentionPolicy n (p : JournalRetentionPolicy.t) : Node F Ev :=
    mkNode (obj_id n) (domain n) (base n) (journal n) (fields n) (generation_ n)
      (applied_journal_size_ n) p
      (journal_compaction_blocked_ n) (suppress_materialized_change_ n)
      (materialized_change_fn_ n) (notified n).
Definition SetJournalCompactionBlocked n (b : bool) : Node F Ev :=
    mkNode (obj_id n) (domain n) (base n) (journal n) (fields n) (generation_ n)
      (applied_journal_size_ n) (journal_retention_policy_ n)
      b (suppress_materialized_change_ n)
      (materialized_change_fn_ n) (notified n).
Definition BindMaterializedChangeNotifier n (ctx : Z) : Node F Ev := set_notifier n (Some ctx).
Definition ClearMaterializedChangeNotifier n : Node F Ev := set_notifier n None.
Definition CopyMaterializedChangeNotifierFrom n (source : Node F Ev) : Node F Ev :=
    set_notifier n (materialized_change_fn_ source).
Definition HasMaterializedChangeNotifier n : bool :=
    match materialized_change_fn_ n with Some _ => true | None => false end.

Definition base_is_valid n : bool :=
    match base n with Some _ => true | None => false end.
Definition base_is_loaded n : bool :=
    match base n with Some b => base_loaded b | None => false end.

Definition FindSharedEvent n (i : SharedEventId) : option (EventRecord Ev) :=
    if String.eqb (origin_uid i) "" then None
    else find (λ r, HasSharedIdentity r && SharedEventId_eqb (identity r) i)
           (journal n).
End setters.

(** ** Materialization and replay *)
Section node.
  Context {F Ev : Type} `{!NodeKind F Ev}.
  Implicit Types n : Node F Ev.
  Implicit Types r : EventRecord Ev.

Definition NoteMaterializedChange n : Node F Ev :=
    if suppress_materialized_change_ n then n
    else
      let n := set_generation n (u64 (generation_ n + 1)) in
      match materialized_change_fn_ n with
      | None => n
      | Some ctx => add_notified n (ctx, generation_ n)
      end.

Definition ApplyEvent n (e : Ev) : option (Node F Ev) :=
    '(f, noted) ← ApplyTo (fields n) e;
    let n := set_fields n f in
    Some (if noted : bool then NoteMaterializedChange n else n).

  (** The loop of [TryEnsureCurrentGeneration], on the records from
      [applied_journal_size_]: applying an event does not change the journal. *)
Fixpoint EnsureLoop (todo : list (EventRecord Ev)) n : option (bool * Node F Ev) :=
    match todo with
    | [] => Some (true, n)
    | r :: todo =>
        if negb (ev_is_valid (event r)) then Some (false, n) else
        match ev_object (event r) with
        | None => Some (false, n)
        | Some e =>
            if negb (CanApplyTo (fields n) e) then Some (false, n)
            else
              n ← ApplyEvent n e;
              EnsureLoop todo (set_applied n (applied_journal_size_ n + 1))
        end
    end.

Definition TryEnsureCurrentGeneration n : option (bool * Node F Ev) :=
    if applied_journal_size_ n =? kJournalFullyMaterialized
    then Some (true, set_applied n (zlen (journal n)))
    else EnsureLoop (drop (Z.to_nat (applied_journal_size_ n)) (journal n)) n.

  (** [assert(ok)] of the non-[Try] variants. *)
Definition expect (r : option (bool * Node F Ev)) : option (Node F Ev) :=
    '(ok, n) ← r; if ok : bool then Some n else None.

Definition EnsureCurrentGeneration n : option (Node F Ev) :=
    expect (TryEnsureCurrentGeneration n).

Definition TryReplayJournal n : option (bool * Node F Ev) :=
    TryEnsureCurrentGeneration (set_applied n 0).

Definition ReplayJournal n : option (Node F Ev) := expect (TryReplayJournal n).

  (** The load of the base replaces the concrete fields; obj_id, base and
      journal are put back.  Reached only with a valid base. *)
Definition TryRebuildFromBaseAndReplay n : option (bool * Node F Ev) :=
    b ← base n;
    let n := set_fields n (CarryLocal (fields n) (base_stored b)) in
    let n := set_generation n 1 in
    TryReplayJournal n.

Definition RebuildFromBaseAndReplay n : option (Node F Ev) :=
    expect (TryRebuildFromBaseAndReplay n).

Definition TryReplayFromBase n : option (bool * Node F Ev) :=
    TryRebuildFromBaseAndReplay n.

Definition CaptureBaseState n : option (Node F Ev) :=
    assert! bool_decide (is_Some (domain n)) ;;
    b ← base n;
    assert! base_loaded b ;;
    assert! bool_decide (journal n = []) ;;
    assert! negb (base_id b =? obj_id n) ;;
    Some (set_base n (Some (mkBase (base_id b) true (SaveLoad (fields n))))).
End node.

(** ** Insertion *)

(** [std::lower_bound]: binary search over [len] elements from [first] for the
    first element that [lt] does not place before the value. *)
Fixpoint lower_bound_loop {A} (fuel : nat) (lt : A → bool) (l : list A)
    (first len : nat) : nat :=
  match fuel with
  | O => first
  | S fuel =>
      if (len =? 0)%nat then first
      else
        let half := Nat.div2 len in
        match l !! (first + half)%nat with
        | None => first
        | Some x =>
            if lt x then lower_bound_loop fuel lt l (first + half + 1) (len - half - 1)
            else lower_bound_loop fuel lt l first half
        end
  end.

Definition lower_bound {A} (lt : A → bool) (l : list A) : nat :=
  lower_bound_loop (S (length l)) lt l 0 (length l).

(** [journal.insert(position, r)] *)
Definition insert_at {A} (p : nat) (x : A) (l : list A) : list A :=
  take p l ++ x :: drop p l.

(** Successive readings of [SystemUtcMicros()] in one operation. *)
Abbreviation Readings := (nat → Z).

Section insertion.
  Context {F Ev : Type} `{!NodeKind F Ev}.
  Implicit Types n : Node F Ev.
  Implicit Types r : EventRecord Ev.

Definition journal_position r (j : list (EventRecord Ev)) : nat :=
    lower_bound (λ x, EventRecordOrderLess x r) j.

Definition insert_admissible n r : bool :=
    negb (bool_decide (domain n = None) || negb (base_is_valid n) ||
          negb (base_is_loaded n) || negb (ev_is_valid (event r)) ||
          negb (ev_is_loaded (event r)) ||
          bool_decide (ev_domain (event r) ≠ domain n) || (ts r =? 0)).

Definition identity_in_journal r (j : list (EventRecord Ev)) : bool :=
    existsb (λ x, HasSharedIdentity x && SharedEventId_eqb (identity x) (identity r)) j.

Definition TryInsertEvent n r (now : Z) : option (bool * Node F Ev) :=
    if negb (insert_admissible n r) then Some (false, n) else
    let r := if retained_since_us r =? 0 then with_retained_since r now else r in
    if HasSharedIdentity r && identity_in_journal r (journal n)
    then Some (false, n) else
    let position := journal_position r (journal n) in
    let appended := (position =? length (journal n))%nat in
    let n := set_journal n (insert_at position r (journal n)) in
    if appended then
      let n := if applied_journal_size_ n =? kJournalFullyMaterialized
               then set_applied n (zlen (journal n) - 1) else n in
      '(ok, n) ← TryEnsureCurrentGeneration n;
      if negb ok then
        let n := set_journal n (removelast (journal n)) in
        Some (false, set_applied n (zlen (journal n)))
      else Some (true, n)
    else TryRebuildFromBaseAndReplay n.

Definition InsertEvent n r now : option (Node F Ev) := expect (TryInsertEvent n r now).

  (** [CommitInto]: a local commit, with an empty identity, at the current time
      or just after the last record. *)
Definition commit_timestamp (j : list (EventRecord Ev)) (now : Z) : Z :=
    match list.last j with
    | None => now
    | Some r => if now <=? ts r then u64 (ts r + 1) else now
    end.

Definition Commit n (e : EventPtr Ev) (now : Readings) : option (Node F Ev) :=
    assert! ev_is_valid e ;;
    match ev_object e with
    | None => None
    | Some ev =>
        assert! CanApplyTo (fields n) ev ;;
        InsertEvent n
          (mkEventRecord e empty_identity
             (mkSharedEventOrder (commit_timestamp (journal n) (now 0%nat))) (now 1%nat))
          (now 2%nat)
    end.

  (** [TryCommitSharedInto], which is also [TryInsertShared]. *)
Definition TryInsertShared n (e : EventPtr Ev) (i : SharedEventId)
      (o : SharedEventOrder) (now : Readings) : option (bool * Node F Ev) :=
    if negb (ev_is_valid e) then Some (false, n) else
    match ev_object e with
    | None => Some (false, n)
    | Some ev =>
        if String.eqb (origin_uid i) "" then Some (false, n)
        else if negb (MatchesSharedMetadata ev i o) then Some (false, n)
        else TryInsertEvent n (mkEventRecord e i o (now 0%nat)) (now 1%nat)
    end.

Definition InsertShared n e i o now : option (Node F Ev) :=
    expect (TryInsertShared n e i o now).

  (** [NodeFor::CommitShared] and [NodeFor::InsertSharedOrderedEvent]. *)
Definition CommitShared n e i o now : option (Node F Ev) :=
    expect (TryInsertShared n e i o now).

Definition InsertSharedOrderedEvent n e i o (now : Readings) : option (Node F Ev) :=
    InsertEvent n (mkEventRecord e i o 0) (now 0%nat).

  (** ** Retention and compaction *)

  (** Whether retention keeps the record at index [i] of a journal of [size]. *)
Definition retained_by (p : JournalRetentionPolicy.t) (size i : Z) r (now_us : Z)
      : bool :=
    (JournalRetentionPolicy.max_events p =? JournalRetentionPolicy.kUnlimitedEvents) ||
    (size - i <=? JournalRetentionPolicy.max_events p) ||
    match JournalRetentionPolicy.max_age p with
    | None => false
    | Some age =>
        (retained_since_us r >? now_us) ||
        (now_us - retained_since_us r <=? u64 age)
    end.

Fixpoint collapsible_from (p : JournalRetentionPolicy.t) (size : Z) (now_us : Z)
      (j : list (EventRecord Ev)) (i : nat) : nat :=
    match j with
    | [] => i
    | r :: j =>
        if retained_by p size (Z.of_nat i) r now_us then i
        else collapsible_from p size now_us j (S i)
    end.

Definition CollapsiblePrefixCount n (now_us : Z) : nat :=
    if journal_compaction_blocked_ n || bool_decide (journal n = []) then 0%nat
    else collapsible_from (journal_retention_policy_ n) (zlen (journal n)) now_us
           (journal n) 0.

Definition CompactJournal n (now_us : Z) : option (Node F Ev) :=
    let collapse := CollapsiblePrefixCount n now_us in
    if (collapse =? 0)%nat then Some n else
    let saved_generation := generation_ n in
    let retained := drop collapse (journal n) in
    if bool_decide (retained = []) then
      n ← CaptureBaseState (set_journal n []);
      Some (set_applied (set_generation n saved_generation) kJournalFullyMaterialized)
    else
      let n := set_journal n (take collapse (journal n)) in
      let n := set_suppress n true in
      n ← RebuildFromBaseAndReplay n;
      n ← CaptureBaseState (set_journal n []);
      n ← ReplayJournal (set_journal n retained);
      let n := set_suppress n false in
      Some (set_applied (set_generation n saved_generation) kJournalFullyMaterialized).
End insertion.

(** ** InitializeRuntimeNode (runtime_node.h)

    A new node gets a base object of its own class, under a fresh identifier, and
    captures its initial state in it; what the created base stored before the
    capture is overwritten by it. *)
Section runtime_node.
  Context {F Ev : Type} `{!NodeKind F Ev}.

Definition InitializeRuntimeNode (n : Node F Ev) (new_base_id : Z)
    : option (Node F Ev) :=
  assert! bool_decide (is_Some (domain n)) ;;
  assert! negb (base_is_valid n) ;;
  assert! bool_decide (journal n = []) ;;
  CaptureBaseState (set_base n (Some (mkBase new_base_id true (fields n)))).

Definition InitializeRuntimeNodeFrom (n : Node F Ev) (new_base_id : Z)
    (notifier_source : option Z) : option (Node F Ev) :=
  n ← InitializeRuntimeNode n new_base_id;
  Some (set_notifier n notifier_source).
End runtime_node.

(** [XEvent::ptr::Create(ae::CreateWith{*domain})]: a loaded event object in the
    node's own Domain. *)
Definition created {F Ev} (n : Node F Ev) (e : Ev) : EventPtr Ev :=
  mkEventPtr true (Some e) (domain n).

(** ** PendingDirtyNodes *)
Module PendingDirtyNodes.
Record t := mk { ordered : list Z; membership : gset Z }.
Definition init : t := mk [] ∅.

Definition Note (p : t) (id : Z) : t :=
    if decide (id ∈ membership p) then p
    else mk (ordered p ++ [id]) ({[id]} ∪ membership p).
Definition empty (p : t) : bool := bool_decide (ordered p = []).
Definition Clear (p : t) : t := init.
Definition PopFront (p : t) : option (Z * t) :=
    match ordered p with
    | [] => None
    | id :: rest => Some (id, mk rest (membership p ∖ {[id]}))
    end.
End PendingDirtyNodes.
