(* ===== verification/NodeTheory.v ===== *)
(** * What the journal of a node guarantees

    The theory of Node.v: replay of a journal as a fold ([replay]), the laws of a
    concrete node class ([NodeLaws]), the consistency invariant ([Consistent]:
    the materialized fields are what a replay of the whole journal from the base
    gives), and the theorems about insertion, convergence of replicas,
    compaction and local commits. *)
From Stdlib Require Import Sorting.Sorted.
From stdpp Require Import sorting.
From S2P Require Import Prelude SharedEvent Node.

(** ** Laws of a concrete node class

    Fields are compared up to an equivalence, which forgets what the shared
    history does not determine (local synchronization metadata).  Events must
    respect it, a save and load must give equivalent fields back, and carrying
    local state over a rebuild must not touch the shared part. *)
Class NodeLaws (F Ev : Type) `{!NodeKind F Ev} `{!Equiv F} : Prop := {
  fields_equiv :: Equivalence (≡@{F});
  CanApplyTo_equiv (f g : F) (e : Ev) : f ≡ g → CanApplyTo f e = CanApplyTo g e;
  ApplyTo_equiv (f g : F) (e : Ev) :
    f ≡ g → option_Forall2 (λ p q, p.1 ≡ q.1) (ApplyTo f e) (ApplyTo g e);
  SaveLoad_equiv (f : F) : SaveLoad f ≡ f;
  CarryLocal_equiv (live loaded : F) : CarryLocal live loaded ≡ loaded
}.

(** ** Reference semantics *)
Section replay.
  Context {F Ev : Type} `{!NodeKind F Ev}.
  Implicit Types (r : EventRecord Ev) (j : list (EventRecord Ev)).

  (** One record: defined when the event is there, accepts the fields, and its
      [Apply] passes its assertions. *)
Definition step (f : F) r : option F :=
    if ev_is_valid (event r) then
      e ← ev_object (event r);
      if CanApplyTo f e then fst <$> ApplyTo f e else None
    else None.

  (** The whole journal, from the fields of the base. *)
Fixpoint replay (f : F) j : option F :=
    match j with
    | [] => Some f
    | r :: j => f' ← step f r; replay f' j
    end.

Lemma replay_app f j k : replay f (j ++ k) = (f' ← replay f j; replay f' k).
  Proof.
    revert f; induction j as [|r j IH]; intros f; [done|]. cbn [app replay].
    destruct (step f r); [|done]. apply IH.
  Qed.

  Context `{!Equiv F, !NodeLaws F Ev}.

Lemma step_equiv f g r : f ≡ g → option_Forall2 (≡) (step f r) (step g r).
  Proof.
    intros Hfg. unfold step. destruct (ev_is_valid _); [|constructor].
    destruct (ev_object _) as [e|]; [cbn [mbind option_bind]|constructor].
    rewrite (CanApplyTo_equiv f g) by done.
    destruct (CanApplyTo g e); [|constructor].
    destruct (ApplyTo_equiv f g e Hfg); by constructor.
  Qed.

Lemma replay_equiv j f g : f ≡ g → option_Forall2 (≡) (replay f j) (replay g j).
  Proof.
    revert f g; induction j as [|r j IH]; intros f g Hfg; [by constructor|].
    cbn [replay]. destruct (step_equiv f g r Hfg); [|constructor].
    by apply IH.
  Qed.

Lemma replay_equiv_Some j f g h :
    f ≡ g → replay f j = Some h → ∃ h', replay g j = Some h' ∧ h ≡ h'.
  Proof.
    intros Hfg Hj. pose proof (replay_equiv j f g Hfg) as H. rewrite Hj in H.
    inversion H; subst. eauto.
  Qed.
End replay.

(** ** The cursor loop computes [replay] *)
Section materialization.
  Context {F Ev : Type} `{!NodeKind F Ev}.
  Implicit Types (n m : Node F Ev) (r : EventRecord Ev).
  Implicit Types j : list (EventRecord Ev).

  (** The state that materialization does not touch. *)
Record same_frame n m : Prop := {
    sf_obj_id : obj_id m = obj_id n;
    sf_domain : domain m = domain n;
    sf_base : base m = base n;
    sf_journal : journal m = journal n;
    sf_policy : journal_retention_policy_ m = journal_retention_policy_ n;
    sf_blocked : journal_compaction_blocked_ m = journal_compaction_blocked_ n;
    sf_suppress : suppress_materialized_change_ m = suppress_materialized_change_ n;
    sf_notifier : materialized_change_fn_ m = materialized_change_fn_ n
  }.

Lemma same_frame_refl n : same_frame n n.
  Proof. by constructor. Qed.
Lemma same_frame_trans n m k : same_frame n m → same_frame m k → same_frame n k.
  Proof. intros [] []; constructor; congruence. Qed.
Lemma same_frame_applied n a : same_frame n (set_applied n a).
  Proof. by constructor. Qed.
Lemma same_frame_note n : same_frame n (NoteMaterializedChange n).
  Proof.
    unfold NoteMaterializedChange. destruct (suppress_materialized_change_ n) eqn:?;
      [by constructor|].
    simpl. destruct (materialized_change_fn_ n) eqn:?; by constructor.
  Qed.

Lemma ApplyEvent_inv n e m :
    ApplyEvent n e = Some m →
    (∃ b, ApplyTo (fields n) e = Some (fields m, b)) ∧ same_frame n m ∧
    applied_journal_size_ m = applied_journal_size_ n ∧
    (suppress_materialized_change_ n = true →
       generation_ m = generation_ n ∧ notified m = notified n).
  Proof.
    unfold ApplyEvent. destruct (ApplyTo (fields n) e) as [[f b]|]; [|done].
    cbn [mbind option_bind]. intros [= <-].
    assert (fields (NoteMaterializedChange (set_fields n f)) = f ∧
      applied_journal_size_ (NoteMaterializedChange (set_fields n f))
        = applied_journal_size_ n) as [Hf Ha].
    { unfold NoteMaterializedChange; repeat case_match; by simplify_eq/=. }
    destruct b; simpl.
    - rewrite Hf. split; [by eexists|]. split; [|split; [done|]].
      + destruct (same_frame_note (set_fields n f)); by constructor.
      + intros Hs. unfold NoteMaterializedChange. simpl. by rewrite Hs.
    - split; [by eexists|]. by repeat split.
  Qed.

Lemma ApplyEvent_Some n e f b :
    ApplyTo (fields n) e = Some (f, b) → ∃ m, ApplyEvent n e = Some m ∧ fields m = f.
  Proof.
    intros He. assert (∃ m, ApplyEvent n e = Some m) as [m Hm].
    { unfold ApplyEvent. rewrite He. by eexists. }
    exists m. split; [done|]. apply ApplyEvent_inv in Hm as [[b' Hf] _]. congruence.
  Qed.

Lemma EnsureLoop_inv todo n ok m :
    EnsureLoop todo n = Some (ok, m) →
    same_frame n m ∧
    (suppress_materialized_change_ n = true →
       generation_ m = generation_ n ∧ notified m = notified n) ∧
    (if ok : bool then replay (fields n) todo = Some (fields m) ∧
          applied_journal_size_ m = applied_journal_size_ n + zlen todo
     else replay (fields n) todo = None).
  Proof.
    revert n; induction todo as [|r todo IH]; intros n H; cbn [EnsureLoop] in H.
    { simplify_eq. split; [apply same_frame_refl|]. split; [done|].
      split; [done|]. autorewrite with app. lia. }
    cbn [replay]. unfold step.
    destruct (ev_is_valid (event r)); cbn [negb] in H;
      [|simplify_eq; by split; [apply same_frame_refl|]].
    destruct (ev_object (event r)) as [e|]; cbn [mbind option_bind];
      [|simplify_eq; by split; [apply same_frame_refl|]].
    destruct (CanApplyTo (fields n) e); cbn [negb] in H;
      [|simplify_eq; by split; [apply same_frame_refl|]].
    destruct (ApplyEvent n e) as [n1|] eqn:E1; [|done]. cbn [mbind option_bind] in H.
    apply ApplyEvent_inv in E1 as ([b ->] & Hs & Ha & Hg). cbn.
    apply IH in H as (Hs' & Hg' & Hok). split; [|split].
    - by eapply same_frame_trans, same_frame_trans, Hs';
        [exact Hs|apply same_frame_applied].
    - intros Hsup. destruct (Hg Hsup) as [<- <-].
      destruct Hs as [_ _ _ _ _ _ Hsn _]. apply Hg'. simpl. congruence.
    - simpl in Hok. destruct ok; [|done]. destruct Hok as [-> ->].
      split; [done|]. autorewrite with app. lia.
  Qed.

Lemma EnsureLoop_Some todo n f :
    replay (fields n) todo = Some f →
    ∃ m, EnsureLoop todo n = Some (true, m) ∧ fields m = f.
  Proof.
    revert n; induction todo as [|r todo IH]; intros n H; cbn [EnsureLoop replay] in *.
    { simplify_eq. eauto. }
    unfold step in H. destruct (ev_is_valid (event r)); [cbn [negb]|done].
    destruct (ev_object (event r)) as [e|]; [cbn [mbind option_bind] in *|done].
    destruct (CanApplyTo (fields n) e); [cbn [negb]|done].
    destruct (ApplyTo (fields n) e) as [[f' b]|] eqn:E; [|done].
    cbn in H. destruct (ApplyEvent_Some n e f' b E) as (n1 & -> & <-).
    cbn [mbind option_bind]. by apply IH.
  Qed.
End materialization.

(** ** Binary search *)

Lemma lower_bound_loop_spec {A} (lt : A → bool) (l : list A) (p : nat) :
  (∀ i x, l !! i = Some x → lt x = bool_decide (i < p)%nat) →
  ∀ fuel first len,
    (len < fuel)%nat → (first ≤ p ≤ first + len)%nat → (first + len ≤ length l)%nat →
    lower_bound_loop fuel lt l first len = p.
Proof.
  intros Hp. induction fuel as [|fuel IH]; intros first len Hf Hfp Hl; [lia|].
  simpl. destruct (Nat.eqb_spec len 0) as [->|Hlen]; [lia|].
  assert (Nat.div2 len < len)%nat as Hd by (apply Nat.lt_div2; lia).
    set (h := Nat.div2 len) in *. clearbody h.
  destruct (lookup_lt_is_Some_2 l (first + h)%nat) as [x Hx]; [lia|].
  rewrite Hx, (Hp _ _ Hx). case_bool_decide; apply IH; lia.
Qed.

Section order.
  Context {Ev : Type}.
  Implicit Types (r : EventRecord Ev) (j : list (EventRecord Ev)).

Definition journal_sorted j : Prop := StronglySorted (λ a b, ts a ≤ ts b) j.

  (** Two records do not carry the same nonempty identity. *)
Definition identities_distinct j : Prop :=
    NoDup (identity <$> filter (λ r, HasSharedIdentity r = true) j).

Definition journal_wf j : Prop := journal_sorted j ∧ identities_distinct j.

Lemma journal_sorted_app j k :
    journal_sorted (j ++ k) ↔
    journal_sorted j ∧ journal_sorted k ∧
    (∀ a b, a ∈ j → b ∈ k → ts a ≤ ts b).
  Proof.
    unfold journal_sorted. induction j as [|x j IH]; simpl.
    - split; [|tauto]. intros ?. split; [constructor|]. split; [done|]. set_solver.
    - split.
      + intros [Hs Hx]%StronglySorted_inv. apply IH in Hs as (Hj & Hk & Hjk).
        apply list.Forall_app in Hx as [Hxj Hxk]. rewrite list.Forall_forall in Hxk.
        split; [by constructor|]. split; [done|].
        intros a b [->|Ha]%elem_of_cons Hb; auto.
      + intros ([Hj Hx]%StronglySorted_inv & Hk & Hjk). constructor.
        * apply IH. split; [done|]. split; [done|]. set_solver.
        * apply list.Forall_app. split; [done|]. apply list.Forall_forall. set_solver.
  Qed.

Lemma journal_sorted_cons r j :
    journal_sorted (r :: j) ↔ (∀ a, a ∈ j → ts r ≤ ts a) ∧ journal_sorted j.
  Proof.
    rewrite (journal_sorted_app [r] j). set_unfold. split; [naive_solver|].
    intros [Hr Hj]. split; [|naive_solver]. repeat constructor.
  Qed.

  (** A sorted journal splits at any timestamp. *)
Lemma journal_sorted_split t j :
    journal_sorted j → ∃ j1 j2, j = j1 ++ j2 ∧
      (∀ a, a ∈ j1 → ts a < t) ∧ (∀ b, b ∈ j2 → t ≤ ts b).
  Proof.
    induction j as [|r j IH]; intros Hj.
    { exists [], []. set_solver. }
    apply journal_sorted_cons in Hj as [Hr Hj].
    destruct (decide (ts r < t)) as [Hlt|Hge].
    - destruct (IH Hj) as (j1 & j2 & -> & H1 & H2).
      exists (r :: j1), j2. set_solver.
    - exists [], (r :: j). split; [done|]. split; [set_solver|].
      intros b [->|Hb]%elem_of_cons; [lia|]. specialize (Hr b Hb). lia.
  Qed.

Lemma journal_position_split r j1 j2 :
    (∀ a, a ∈ j1 → ts a < ts r) → (∀ b, b ∈ j2 → ts r ≤ ts b) →
    journal_position r (j1 ++ j2) = length j1.
  Proof.
    intros H1 H2. unfold journal_position, lower_bound.
    apply lower_bound_loop_spec; rewrite ?length_app; [|lia..].
    intros i x [Hi|[Hlen Hi]]%lookup_app_Some; unfold EventRecordOrderLess,
      SharedEventOrderLess; change (timestamp_us (order ?x)) with (ts x).
    - pose proof (lookup_lt_Some _ _ _ Hi). rewrite bool_decide_eq_true_2 by done.
      apply Z.ltb_lt, H1. by eapply list_elem_of_lookup_2.
    - rewrite bool_decide_eq_false_2 by lia.
      apply Z.ltb_ge, H2. by eapply list_elem_of_lookup_2.
  Qed.

Lemma insert_at_length {A} (j1 j2 : list A) x :
    insert_at (length j1) x (j1 ++ j2) = j1 ++ x :: j2.
  Proof. unfold insert_at. by rewrite take_app_length, drop_app_length. Qed.

  (** Where a record goes in a sorted journal. *)
Lemma insert_journal_split r r' j :
    journal_sorted j → ts r' = ts r → ∃ j1 j2, j = j1 ++ j2 ∧
      journal_position r j = length j1 ∧
      insert_at (journal_position r j) r' j = j1 ++ r' :: j2 ∧
      (∀ a, a ∈ j1 → ts a < ts r) ∧ (∀ b, b ∈ j2 → ts r ≤ ts b).
  Proof.
    intros Hj _. destruct (journal_sorted_split (ts r) j Hj) as (j1 & j2 & -> & H1 & H2).
    exists j1, j2. rewrite (journal_position_split r j1 j2), insert_at_length by done.
    done.
  Qed.

Lemma insert_journal_sorted r r' j :
    journal_sorted j → ts r' = ts r →
    journal_sorted (insert_at (journal_position r j) r' j).
  Proof.
    intros Hj Ht. destruct (insert_journal_split r r' j Hj Ht)
      as (j1 & j2 & -> & _ & -> & H1 & H2).
    apply journal_sorted_app in Hj as (Hj1 & Hj2 & H12).
    apply journal_sorted_app. rewrite journal_sorted_cons, Ht.
    split; [done|]. split; [done|]. intros a b Ha [->|Hb]%elem_of_cons; [|auto].
    rewrite Ht. specialize (H1 a Ha). lia.
  Qed.

Lemma insert_at_perm {A} p (x : A) l : insert_at p x l ≡ₚ x :: l.
  Proof.
    unfold insert_at. rewrite <-Permutation_middle. by rewrite take_drop.
  Qed.
End order.

(** ** The consistency invariant *)
Section consistency.
  Context {F Ev : Type} `{!NodeKind F Ev, !Equiv F}.
  Implicit Types (n m : Node F Ev) (r : EventRecord Ev).
  Implicit Types j : list (EventRecord Ev).

  (** What the fields must be: the replay of [j] from the node's base. *)
Definition base_replay n j : option F := b ← base n; replay (base_stored b) j.

  (** The materialized state is current: the base is valid and loaded, the fields
      are equivalent to the replay of the whole journal, and the cursor says so. *)
Record Consistent n : Prop := {
    consistent_base : base_is_loaded n = true;
    consistent_fields : ∃ f, base_replay n (journal n) = Some f ∧ f ≡ fields n;
    consistent_applied : applied_journal_size_ n = kJournalFullyMaterialized ∨
      applied_journal_size_ n = zlen (journal n)
  }.

  Context `{!NodeLaws F Ev}.

Lemma same_frame_base_replay n m j :
    same_frame n m → base_replay m j = base_replay n j.
  Proof. intros []. unfold base_replay. by rewrite sf_base0. Qed.
Lemma same_frame_base_loaded n m :
    same_frame n m → base_is_loaded m = base_is_loaded n.
  Proof. intros []. unfold base_is_loaded. by rewrite sf_base0. Qed.

  (** Rebuilding touches the materialized state only. *)
Lemma TryRebuild_frame n ok m :
    TryRebuildFromBaseAndReplay n = Some (ok, m) → same_frame n m.
  Proof.
    unfold TryRebuildFromBaseAndReplay, TryReplayJournal, TryEnsureCurrentGeneration.
    destruct (base n) as [b|] eqn:Eb; [cbn [mbind option_bind]|done].
    simpl. rewrite drop_0. intros H. apply EnsureLoop_inv in H as (Hs & _).
    destruct Hs; by constructor.
  Qed.

  (** Rebuilding gives the reference semantics, or fails. *)
Lemma TryRebuild_inv n ok m :
    base_is_loaded n = true →
    TryRebuildFromBaseAndReplay n = Some (ok, m) →
    same_frame n m ∧
    (suppress_materialized_change_ n = true →
       generation_ m = 1 ∧ notified m = notified n) ∧
    (ok = true → Consistent m) ∧ (ok = false → base_replay n (journal n) = None).
  Proof.
    intros Hb. unfold TryRebuildFromBaseAndReplay, TryReplayJournal,
      TryEnsureCurrentGeneration.
    destruct (base n) as [b|] eqn:Eb; [cbn [mbind option_bind]|done].
    simpl. rewrite drop_0. intros H. apply EnsureLoop_inv in H as (Hs & Hg & Hok).
    assert (same_frame n m) as Hf by (destruct Hs; by constructor).
    split; [done|]. split; [done|].
    assert (option_Forall2 (≡)
      (replay (CarryLocal (fields n) (base_stored b)) (journal n))
      (base_replay n (journal n))) as Hr.
    { unfold base_replay. rewrite Eb. apply replay_equiv, CarryLocal_equiv. }
    destruct ok; split; [intros _| |done|intros _]; [|done|].
    - simpl in Hok. destruct Hok as [Hrep Happ]. split.
      + by rewrite (same_frame_base_loaded n m Hf).
      + rewrite (same_frame_base_replay n m), (sf_journal _ _ Hf) by done.
        rewrite Hrep in Hr. inversion Hr; subst. eexists. by split.
      + right. by rewrite Happ, (sf_journal _ _ Hf).
    - simpl in Hok. rewrite Hok in Hr. by inversion Hr.
  Qed.

Lemma TryRebuild_Some n :
    is_Some (base_replay n (journal n)) →
    ∃ m, TryRebuildFromBaseAndReplay n = Some (true, m).
  Proof.
    intros [f Hf]. unfold TryRebuildFromBaseAndReplay, TryReplayJournal,
      TryEnsureCurrentGeneration. unfold base_replay in Hf.
    destruct (base n) as [b|]; [cbn [mbind option_bind] in *|done].
    simpl. rewrite drop_0.
    destruct (replay_equiv_Some (journal n) (base_stored b)
      (CarryLocal (fields n) (base_stored b)) f) as (f' & Hf' & _); [|done|].
    { symmetry. apply CarryLocal_equiv. }
    destruct (EnsureLoop_Some (journal n)
      (set_applied (set_generation
         (set_fields n (CarryLocal (fields n) (base_stored b))) 1) 0) f' Hf')
      as (m & -> & _). eauto.
  Qed.

  (** The record that an insertion stores. *)
Definition stamped r (now : Z) : EventRecord Ev :=
    if retained_since_us r =? 0 then with_retained_since r now else r.

Lemma ts_stamped r now : ts (stamped r now) = ts r.
  Proof. unfold stamped. by case_match. Qed.
Lemma identity_stamped r now : identity (stamped r now) = identity r.
  Proof. unfold stamped. by case_match. Qed.
Lemma HasSharedIdentity_stamped r now :
    HasSharedIdentity (stamped r now) = HasSharedIdentity r.
  Proof. unfold HasSharedIdentity. by rewrite identity_stamped. Qed.
Lemma journal_position_ts r r' j :
    ts r = ts r' → journal_position r j = journal_position r' j.
  Proof.
    unfold journal_position, EventRecordOrderLess, SharedEventOrderLess, ts.
    by intros ->.
  Qed.

Definition is_duplicate n r : bool :=
    HasSharedIdentity r && identity_in_journal r (journal n).

Definition inserted_journal n r now : list (EventRecord Ev) :=
    insert_at (journal_position r (journal n)) (stamped r now) (journal n).

Definition journal_fits n : Prop := zlen (journal n) < kSizeMax.

  (** [TryInsertEvent] once its guards are passed. *)
Lemma TryInsertEvent_body n r now :
    insert_admissible n r = true → is_duplicate n r = false →
    TryInsertEvent n r now =
      let n1 := set_journal n (inserted_journal n r now) in
      if (journal_position r (journal n) =? length (journal n))%nat then
        let n2 := if applied_journal_size_ n =? kJournalFullyMaterialized
                  then set_applied n1 (zlen (journal n1) - 1) else n1 in
        '(ok, m) ← TryEnsureCurrentGeneration n2;
        if ok : bool then Some (true, m)
        else Some (false, set_applied (set_journal m (removelast (journal m)))
                            (zlen (removelast (journal m))))
      else TryRebuildFromBaseAndReplay n1.
  Proof.
    intros Ha Hd. unfold TryInsertEvent. rewrite Ha. cbn [negb].
    fold (stamped r now).
    replace (HasSharedIdentity (stamped r now) &&
      identity_in_journal (stamped r now) (journal n)) with false.
    2: { unfold is_duplicate, identity_in_journal in *.
         by rewrite HasSharedIdentity_stamped, identity_stamped. }
    rewrite (journal_position_ts (stamped r now) r) by apply ts_stamped.
    fold (inserted_journal n r now). cbv zeta.
    change (applied_journal_size_ (set_journal n (inserted_journal n r now)))
      with (applied_journal_size_ n).
    destruct (_ =? length (journal n))%nat; [|done].
    destruct (TryEnsureCurrentGeneration _) as [[[] ?]|]; done.
  Qed.
End consistency.

(** ** Insertion *)
Section insertion.
  Context {F Ev : Type} `{!NodeKind F Ev, !Equiv F, !NodeLaws F Ev}.
  Implicit Types (n m : Node F Ev) (r : EventRecord Ev).
  Implicit Types j : list (EventRecord Ev).

  (** The node on which the append path runs the cursor. *)
Definition append_node n r : Node F Ev :=
    set_applied (set_journal n (journal n ++ [r])) (zlen (journal n)).

Lemma append_node_eq n r :
    Consistent n →
    (let n1 := set_journal n (journal n ++ [r]) in
     if applied_journal_size_ n =? kJournalFullyMaterialized
     then set_applied n1 (zlen (journal n1) - 1) else n1) = append_node n r.
  Proof.
    intros [_ _ Ha]. unfold append_node. cbv zeta.
    destruct (Z.eqb_spec (applied_journal_size_ n) kJournalFullyMaterialized) as [E|E].
    - f_equal. simpl. autorewrite with app. lia.
    - destruct Ha as [?|Ha]; [done|]. rewrite <-Ha. by destruct n.
  Qed.

Lemma append_node_ensure n r :
    journal_fits n →
    TryEnsureCurrentGeneration (append_node n r) = EnsureLoop [r] (append_node n r).
  Proof.
    intros Hf. unfold TryEnsureCurrentGeneration, append_node. simpl.
    destruct (Z.eqb_spec (zlen (journal n)) kJournalFullyMaterialized) as [E|_].
    { unfold journal_fits in Hf. unfold kJournalFullyMaterialized in E. lia. }
    unfold zlen. by rewrite Nat2Z.id, drop_app_length.
  Qed.

Lemma base_replay_snoc n r :
    Consistent n →
    option_Forall2 (≡) (base_replay n (journal n ++ [r])) (replay (fields n) [r]).
  Proof.
    intros [_ (f & Hf & Heq) _]. unfold base_replay in *.
    destruct (base n) as [b|]; [cbn [mbind option_bind] in *|done].
    rewrite replay_app, Hf. cbn [mbind option_bind]. by apply replay_equiv.
  Qed.

Lemma base_replay_set_journal n j k : base_replay (set_journal n j) k = base_replay n k.
  Proof. done. Qed.

Lemma EnsureLoop_single_false r n m : EnsureLoop [r] n = Some (false, m) → m = n.
  Proof.
    cbn [EnsureLoop]. intros H. repeat case_match; simplify_eq; try done.
    by destruct (ApplyEvent n _).
  Qed.

  (** What a call of [TryInsertEvent] past its guards can return. *)
Lemma TryInsertEvent_inv n r now ok m :
    Consistent n → journal_fits n →
    insert_admissible n r = true → is_duplicate n r = false →
    TryInsertEvent n r now = Some (ok, m) →
    if ok : bool
    then same_frame (set_journal n (inserted_journal n r now)) m ∧ Consistent m
    else base_replay n (inserted_journal n r now) = None ∧
      (journal_position r (journal n) = length (journal n) →
         m = set_applied n (zlen (journal n))).
  Proof.
    intros Hc Hf Ha Hd H. rewrite TryInsertEvent_body in H by done. cbv zeta in H.
    destruct (Nat.eqb_spec (journal_position r (journal n)) (length (journal n)))
      as [Hp|Hp].
    2: { apply TryRebuild_inv in H as (Hs & _ & Ht & Hn); [|by destruct Hc].
         destruct ok; [auto|]. split; [by rewrite <-Hn by done|done]. }
    assert (inserted_journal n r now = journal n ++ [stamped r now]) as Hj.
    { unfold inserted_journal, insert_at. rewrite Hp, firstn_all, skipn_all. done. }
    rewrite Hj in *. pose proof (append_node_eq n (stamped r now) Hc) as Hn.
    cbv zeta in Hn. rewrite Hn in H.
    rewrite append_node_ensure in H by done.
    set (r' := stamped r now) in *.
    pose proof (base_replay_snoc n r' Hc) as Hr.
    destruct (EnsureLoop [r'] (append_node n r')) as [[ok' m']|] eqn:E; [|done].
    cbn [mbind option_bind] in H.
    pose proof (EnsureLoop_inv _ _ _ _ E) as (Hs & _ & Hok).
    change (fields (append_node n r')) with (fields n) in Hok.
    destruct ok'; simplify_eq.
    - destruct Hok as [Hrep Happ]. rewrite Hrep in Hr. inversion Hr as [f f' Heq Hbr|]; subst.
      split; [destruct Hs; by constructor|]. split.
      + rewrite (same_frame_base_loaded _ _ Hs). by destruct Hc.
      + rewrite (same_frame_base_replay _ _ _ Hs), (sf_journal _ _ Hs).
        exists f. by split.
      + right. rewrite Happ, (sf_journal _ _ Hs). simpl. by autorewrite with app.
    - split; [rewrite Hok in Hr; by inversion Hr|]. intros _.
      apply EnsureLoop_single_false in E as ->. simpl.
      rewrite removelast_last. by destruct n.
  Qed.

Lemma TryInsertEvent_succeeds n r now :
    Consistent n → journal_fits n →
    insert_admissible n r = true → is_duplicate n r = false →
    is_Some (base_replay n (inserted_journal n r now)) →
    ∃ m, TryInsertEvent n r now = Some (true, m).
  Proof.
    intros Hc Hf Ha Hd Hr. rewrite TryInsertEvent_body by done. cbv zeta.
    destruct (Nat.eqb_spec (journal_position r (journal n)) (length (journal n)))
      as [Hp|Hp]; [|by apply TryRebuild_Some].
    assert (inserted_journal n r now = journal n ++ [stamped r now]) as Hj.
    { unfold inserted_journal, insert_at. rewrite Hp, firstn_all, skipn_all. done. }
    rewrite Hj in *. pose proof (append_node_eq n (stamped r now) Hc) as Hn.
    cbv zeta in Hn. rewrite Hn, append_node_ensure by done.
    destruct Hr as [f Hbr]. pose proof (base_replay_snoc n (stamped r now) Hc) as Hr.
    rewrite Hbr in Hr. inversion Hr as [? f' ? Hf'|]; subst.
    destruct (EnsureLoop_Some [stamped r now] (append_node n (stamped r now)) f')
      as (m & -> & _); [done|]. eauto.
  Qed.

  (** An insertion, whatever its outcome, leaves the journal or inserts the record
      at its position, and touches no other retained state. *)
Lemma TryEnsureCurrentGeneration_frame n ok m :
    TryEnsureCurrentGeneration n = Some (ok, m) → same_frame n m.
  Proof.
    unfold TryEnsureCurrentGeneration. case_match; intros He; simplify_eq.
    - apply same_frame_applied.
    - by apply EnsureLoop_inv in He as [? _].
  Qed.

Lemma TryInsertEvent_journal n r now ok m :
    TryInsertEvent n r now = Some (ok, m) →
    (ok = false ∧ journal m = journal n) ∨
    (insert_admissible n r = true ∧ is_duplicate n r = false ∧
     journal m = inserted_journal n r now).
  Proof.
    destruct (insert_admissible n r) eqn:Ha.
    2: { unfold TryInsertEvent. rewrite Ha. intros [= <- <-]. auto. }
    destruct (is_duplicate n r) eqn:Hd.
    { unfold TryInsertEvent. rewrite Ha. cbn [negb]. fold (stamped r now).
      unfold identity_in_journal. rewrite HasSharedIdentity_stamped, identity_stamped.
      fold (identity_in_journal r (journal n)). fold (is_duplicate n r). rewrite Hd.
      intros [= <- <-]. auto. }
    rewrite TryInsertEvent_body by done. cbv zeta.
    destruct (Nat.eqb_spec (journal_position r (journal n)) (length (journal n)))
      as [Hp|Hp].
    - destruct (TryEnsureCurrentGeneration _) as [[ok' m']|] eqn:E;
        [cbn [mbind option_bind]|done].
      apply TryEnsureCurrentGeneration_frame, sf_journal in E.
      replace (journal m') with (inserted_journal n r now) by (by case_match).
      intros H. destruct ok'; simplify_eq; [right; split; [done|split; [done|]]|left].
      + rewrite E. by case_match.
      + split; [done|]. simpl. unfold inserted_journal, insert_at.
        by rewrite Hp, firstn_all, skipn_all, removelast_last.
    - intros H. right. split; [done|]. split; [done|].
      unfold TryRebuildFromBaseAndReplay in H. simpl in H.
      destruct (base n) as [b|]; [cbn [mbind option_bind] in H|done].
      by apply TryEnsureCurrentGeneration_frame, sf_journal in H.
  Qed.

Lemma TryInsertEvent_id n r now ok m :
    TryInsertEvent n r now = Some (ok, m) → obj_id m = obj_id n.
  Proof.
    unfold TryInsertEvent. destruct (negb _); [by intros [= _ <-]|].
    destruct (_ && _); [by intros [= _ <-]|].
    destruct (_ =? _)%nat; [|by intros Hm%TryRebuild_frame%sf_obj_id].
    destruct (TryEnsureCurrentGeneration _) as [[ok' m']|] eqn:E; [|done].
    apply TryEnsureCurrentGeneration_frame, sf_obj_id in E. cbn [mbind option_bind].
    destruct (_ =? kJournalFullyMaterialized), ok'; intros [= _ <-]; exact E.
  Qed.

  (** A shared insertion that succeeds records the event under its identity. *)
Lemma InsertShared_record n e i o (now : Readings) m :
    InsertShared n e i o now = Some m →
    obj_id m = obj_id n ∧ origin_uid i ≠ ""%string ∧
    ∃ r, r ∈ journal m ∧ identity r = i ∧ ts r = timestamp_us o ∧ event r = e.
  Proof.
    unfold InsertShared, TryInsertShared, expect. intros H.
    destruct (ev_is_valid e); [|done]. cbn [negb] in H.
    destruct (ev_object e) as [ev|]; [|done].
    destruct (String.eqb_spec (origin_uid i) ""); [done|].
    destruct (MatchesSharedMetadata ev i o); [|done]. cbn [negb] in H.
    destruct (TryInsertEvent _ _ _) as [[[] m']|] eqn:E; simplify_eq/=.
    split; [by eapply TryInsertEvent_id|]. split; [done|].
    apply TryInsertEvent_journal in E as [[? _]|(_ & _ & ->)]; [done|].
    eexists. split; [unfold inserted_journal; rewrite insert_at_perm; by left|].
    unfold stamped. cbn. by case_match.
  Qed.

Lemma identities_distinct_insert n r now :
    identities_distinct (journal n) → is_duplicate n r = false →
    identities_distinct (inserted_journal n r now).
  Proof.
    intros Hn Hd. unfold identities_distinct, inserted_journal.
    rewrite insert_at_perm, filter_cons, HasSharedIdentity_stamped.
    case_decide as Hs; [|done]. rewrite fmap_cons, identity_stamped.
    apply list.NoDup_cons. split; [|done]. intros (x & Hx & Hin)%list_elem_of_fmap.
    apply list_elem_of_filter in Hin as [Hxs Hin].
    unfold is_duplicate in Hd. rewrite Hs in Hd. simpl in Hd.
    unfold identity_in_journal in Hd. apply not_true_iff_false in Hd. apply Hd.
    apply existsb_exists. exists x. split; [by apply list_elem_of_In|].
    rewrite Hxs, SharedEventId_eqb_spec, Hx. by apply bool_decide_eq_true_2.
  Qed.

(** The exact fields an accepted insertion leaves: one more [Apply], or the replay
      of the new journal from the loaded base with the local state carried over. *)
Lemma TryRebuild_exact n m :
    TryRebuildFromBaseAndReplay n = Some (true, m) →
    ∃ b, base n = Some b ∧
      replay (CarryLocal (fields n) (base_stored b)) (journal n) = Some (fields m).
  Proof.
    unfold TryRebuildFromBaseAndReplay, TryReplayJournal, TryEnsureCurrentGeneration.
    destruct (base n) as [b|] eqn:Eb; [cbn [mbind option_bind]|done].
    simpl. rewrite drop_0. intros H. apply EnsureLoop_inv in H as (_ & _ & Hok & _).
    by exists b.
  Qed.

Lemma TryInsertEvent_exact n r now m :
    Consistent n → journal_fits n → TryInsertEvent n r now = Some (true, m) →
    journal m = inserted_journal n r now ∧
    ((inserted_journal n r now = journal n ++ [stamped r now] ∧
      replay (fields n) [stamped r now] = Some (fields m)) ∨
     ∃ b, base n = Some b ∧
       replay (CarryLocal (fields n) (base_stored b)) (inserted_journal n r now)
         = Some (fields m)).
  Proof.
    intros Hc Hf Hm.
    apply TryInsertEvent_journal in Hm as Hj. destruct Hj as [[? _]|(Ha & Hd & Hj)]; [done|].
    split; [done|]. rewrite TryInsertEvent_body in Hm by done. cbv zeta in Hm.
    destruct (Nat.eqb_spec (journal_position r (journal n)) (length (journal n)))
      as [Hp|Hp]; [left|right; by apply TryRebuild_exact in Hm].
    assert (inserted_journal n r now = journal n ++ [stamped r now]) as Hij.
    { unfold inserted_journal, insert_at. rewrite Hp, firstn_all, skipn_all. done. }
    split; [done|]. rewrite Hij in Hm.
    pose proof (append_node_eq n (stamped r now) Hc) as Hn. cbv zeta in Hn.
    rewrite Hn, append_node_ensure in Hm by done.
    destruct (EnsureLoop [stamped r now] _) as [[[] m']|] eqn:E; [|done..].
    cbn [mbind option_bind] in Hm. injection Hm as <-.
    by apply EnsureLoop_inv in E as (_ & _ & Hok & _).
  Qed.

  (** C1. Insertion refines replay: on a consistent node, an admissible record
      with a fresh identity is accepted exactly when the whole journal with the
      record at its timestamp position can be replayed from the base, and the
      node it leaves has that journal and is consistent (its fields are those of
      that replay), whether the code appended incrementally or rebuilt. *)
Theorem TryInsertEvent_refines_replay n r now
      (Hc : Consistent n) (Hf : journal_fits n)
      (Ha : insert_admissible n r = true) (Hd : is_duplicate n r = false) :
    ((∃ m, TryInsertEvent n r now = Some (true, m)) ↔
       is_Some (base_replay n (inserted_journal n r now))) ∧
    (∀ m, TryInsertEvent n r now = Some (true, m) →
       Consistent m ∧ journal m = inserted_journal n r now ∧ base m = base n).
  Proof.
    split; [split|].
    - intros [m Hm]. apply TryInsertEvent_inv in Hm as [Hs [_ (f & Hfr & _) _]]; [|done..].
      rewrite (same_frame_base_replay _ _ _ Hs), (sf_journal _ _ Hs) in Hfr.
      by exists f.
    - by apply TryInsertEvent_succeeds.
    - intros m Hm. apply TryInsertEvent_inv in Hm as [Hs Hcm]; [|done..].
      split; [done|]. split; [apply (sf_journal _ _ Hs)|apply (sf_base _ _ Hs)].
  Qed.

  (** Refusals: an inadmissible record (no domain, no loaded base, invalid,
      unloaded or foreign event, zero timestamp) and a record whose nonempty
      identity is already in the journal leave the node as it was; an event
      refused when it is applied at the end of a consistent journal leaves
      journal, fields, base and generation as they were. *)
Theorem TryInsertEvent_refused n r now :
    (insert_admissible n r = false ∨ is_duplicate n r = true →
       TryInsertEvent n r now = Some (false, n)) ∧
    (Consistent n → journal_fits n →
     journal_position r (journal n) = length (journal n) →
     ∀ m, TryInsertEvent n r now = Some (false, m) →
       m = n ∨ m = set_applied n (zlen (journal n))).
  Proof.
    assert (insert_admissible n r = false ∨ is_duplicate n r = true →
      TryInsertEvent n r now = Some (false, n)) as Hrej.
    { unfold TryInsertEvent. destruct (insert_admissible n r); [|done].
      cbn [negb]. fold (stamped r now). intros [?|Hd]; [done|].
      unfold identity_in_journal. rewrite HasSharedIdentity_stamped, identity_stamped.
      fold (identity_in_journal r (journal n)). fold (is_duplicate n r). by rewrite Hd. }
    split; [done|]. intros Hc Hf Hp m Hm.
    destruct (insert_admissible n r) eqn:Ha; [|rewrite Hrej in Hm by auto; naive_solver].
    destruct (is_duplicate n r) eqn:Hd; [rewrite Hrej in Hm by auto; naive_solver|].
    right. by apply TryInsertEvent_inv in Hm as [_ Hm]; auto.
  Qed.

  (** Journal order and identities: whatever [TryInsertEvent] returns, it
      keeps the journal sorted by timestamp and its nonempty identities
      distinct. *)
Theorem TryInsertEvent_journal_wf n r now ok m
      (Hwf : journal_wf (journal n)) (H : TryInsertEvent n r now = Some (ok, m)) :
    journal_wf (journal m).
  Proof.
    destruct Hwf as [Hs Hi]. apply TryInsertEvent_journal in H as [[_ ->]|(Ha & Hd & ->)];
      [done|]. split; [|by apply identities_distinct_insert].
    apply insert_journal_sorted; [done|apply ts_stamped].
  Qed.
End insertion.

(** ** Convergence of replicas *)
Section convergence.
  Context {F Ev : Type} `{!NodeKind F Ev, !Equiv F, !NodeLaws F Ev}.
  Implicit Types (n m : Node F Ev) (r : EventRecord Ev).
  Implicit Types j k : list (EventRecord Ev).

  (** What replicas agree on: not the Domain an event object lives in, nor when
      this replica started to retain the record. *)
Definition content r : bool * option Ev * SharedEventId * SharedEventOrder :=
    (ev_is_valid (event r), ev_object (event r), identity r, order r).

Lemma content_stamped r now : content (stamped r now) = content r.
  Proof. unfold stamped. by case_match. Qed.

Lemma replay_content j k f : content <$> j = content <$> k → replay f j = replay f k.
  Proof.
    revert k f; induction j as [|r j IH]; intros [|r' k] f H; try done.
    rewrite !fmap_cons in H. injection H as Hv Ho Hi Hr Hjk. cbn [replay].
    assert (step f r = step f r') as -> by (unfold step; by rewrite Hv, Ho).
    destruct (step f r'); [|done]. by apply IH.
  Qed.

  (** Sorted journals with the same contents and no two equal timestamps are in
      the same order. *)
Lemma journal_sorted_unique j k :
    journal_sorted j → journal_sorted k → NoDup (ts <$> j) →
    content <$> j ≡ₚ content <$> k → content <$> j = content <$> k.
  Proof.
    intros Hj Hk Hnd Hp.
    set (R := λ x y : bool * option Ev * SharedEventId * SharedEventOrder,
                timestamp_us x.2 ≤ timestamp_us y.2).
    assert (∀ l, journal_sorted l → StronglySorted R (content <$> l)) as HR.
    { intros l Hl. induction Hl as [|x l Hl IH Hx]; [constructor|].
      rewrite fmap_cons. constructor; [done|]. apply list.Forall_fmap.
      eapply list.Forall_impl; [exact Hx|]. done. }
    apply (StronglySorted_unique_strong R); auto.
    intros x y Hx Hy Hxy Hyx. rewrite <-Hp in Hy.
    apply list_elem_of_fmap in Hx as (a & -> & [i Hi]%list_elem_of_lookup_1).
    apply list_elem_of_fmap in Hy as (b & -> & [l Hl]%list_elem_of_lookup_1).
    assert (i = l) as ->; [|by simplify_eq].
    eapply NoDup_lookup; [exact Hnd| |]; rewrite list_lookup_fmap, ?Hi, ?Hl; [done|].
    simpl. f_equal. unfold R in *. simpl in *. unfold ts. lia.
  Qed.

  (** A replica receiving records, at the readings of its clock. *)
Fixpoint insert_all n (rs : list (EventRecord Ev * Z)) : option (bool * Node F Ev) :=
    match rs with
    | [] => Some (true, n)
    | (r, now) :: rs =>
        '(ok, m) ← TryInsertEvent n r now;
        if ok : bool then insert_all m rs else Some (false, m)
    end.

Lemma TryInsertEvent_true_guards n r now m :
    TryInsertEvent n r now = Some (true, m) →
    insert_admissible n r = true ∧ is_duplicate n r = false.
  Proof. intros H. apply TryInsertEvent_journal in H. naive_solver. Qed.

Lemma insert_all_inv rs n m :
    Consistent n → journal_wf (journal n) → zlen (journal n) + zlen rs < kSizeMax →
    insert_all n rs = Some (true, m) →
    Consistent m ∧ journal_wf (journal m) ∧ base m = base n ∧
    content <$> journal m ≡ₚ (content <$> journal n) ++ (content <$> rs.*1).
  Proof.
    revert n; induction rs as [|[r now] rs IH]; intros n Hc Hwf Hl Hr; simpl in Hr.
    { simplify_eq. by rewrite app_nil_r. }
    destruct (TryInsertEvent n r now) as [[[] n']|] eqn:Et; [|done..].
    cbn [mbind option_bind] in Hr.
    destruct (TryInsertEvent_true_guards _ _ _ _ Et) as [Ha Hd].
    pose proof (TryInsertEvent_journal _ _ _ _ _ Et) as [[? _]|(_ & _ & Hj)]; [done|].
    rewrite zlen_cons in Hl. pose proof (zlen_nonneg rs).
    assert (identities_distinct (journal n') ∧ journal_sorted (journal n')) as [Hid Hs].
    { rewrite Hj. destruct Hwf. split; [by apply identities_distinct_insert|].
      apply insert_journal_sorted; [done|apply ts_stamped]. }
    apply TryInsertEvent_inv in Et as [Hf Hc'];
      [|done|unfold journal_fits; lia|done|done].
    assert (journal n' ≡ₚ stamped r now :: journal n) as Hp.
    { rewrite Hj. apply insert_at_perm. }
    destruct (IH n') as (Hcm & Hwfm & Hbm & Hpm); [done|done| |done|].
    { unfold zlen in *. rewrite Hp. simpl. lia. }
    split; [done|]. split; [done|].
    split; [rewrite Hbm; apply (sf_base _ _ Hf)|].
    rewrite Hpm, Hp, !fmap_cons, content_stamped. simpl.
    by rewrite <-Permutation_middle.
  Qed.

  (** C2. Convergence: two replicas whose bases are equivalent, which start from
      consistent journals and accept the records they receive, end with the same
      journal (event, identity and timestamp of each record, in the same order)
      and equivalent fields as soon as they have the same records, whatever the
      order in which each received them, provided no two records share a
      timestamp. *)
Theorem insert_all_converges n1 n2 m1 m2 b1 b2 rs1 rs2
      (Hc1 : Consistent n1) (Hc2 : Consistent n2)
      (Hwf1 : journal_wf (journal n1)) (Hwf2 : journal_wf (journal n2))
      (Hl1 : zlen (journal n1) + zlen rs1 < kSizeMax)
      (Hl2 : zlen (journal n2) + zlen rs2 < kSizeMax)
      (Hb1 : base n1 = Some b1) (Hb2 : base n2 = Some b2)
      (Hb : base_stored b1 ≡ base_stored b2)
      (Hp : content <$> (journal n1 ++ rs1.*1) ≡ₚ content <$> (journal n2 ++ rs2.*1))
      (Hts : NoDup (ts <$> (journal n1 ++ rs1.*1)))
      (H1 : insert_all n1 rs1 = Some (true, m1))
      (H2 : insert_all n2 rs2 = Some (true, m2)) :
    content <$> journal m1 = content <$> journal m2 ∧ fields m1 ≡ fields m2.
  Proof.
    apply insert_all_inv in H1 as (Hm1 & [Hs1 _] & Hbm1 & Hp1); [|done..].
    apply insert_all_inv in H2 as (Hm2 & [Hs2 _] & Hbm2 & Hp2); [|done..].
    rewrite <-fmap_app in Hp1, Hp2.
    assert (content <$> journal m1 = content <$> journal m2) as Hj.
    { apply journal_sorted_unique; [done|done| |by rewrite Hp1, Hp2].
      assert (∀ l : list (EventRecord Ev),
        ts <$> l = (λ c, timestamp_us c.2) <$> (content <$> l)) as Hc.
      { intros l. by rewrite <-list_fmap_compose. }
      rewrite Hc in Hts |- *. by rewrite Hp1. }
    split; [done|].
    destruct Hm1 as [_ (f1 & Hf1 & <-) _], Hm2 as [_ (f2 & Hf2 & <-) _].
    unfold base_replay in *. rewrite Hbm1, Hb1 in Hf1. rewrite Hbm2, Hb2 in Hf2.
    cbn [mbind option_bind] in *. rewrite (replay_content _ _ _ Hj) in Hf1.
    destruct (replay_equiv_Some _ _ _ _ Hb Hf1) as (f & Hf & Heq). by simplify_eq.
  Qed.
End convergence.

(** ** Retention and compaction *)
Section compaction.
  Context {F Ev : Type} `{!NodeKind F Ev}.
  Implicit Types (n m : Node F Ev) (r : EventRecord Ev).
  Implicit Types j : list (EventRecord Ev).

Lemma collapsible_from_spec p size now_us j i :
    let k := collapsible_from p size now_us j i in
    (i ≤ k ≤ i + length j)%nat ∧
    (∀ l r, j !! l = Some r → (i + l < k)%nat →
       retained_by p size (Z.of_nat (i + l)) r now_us = false) ∧
    (∀ r, j !! (k - i)%nat = Some r → retained_by p size (Z.of_nat k) r now_us = true).
  Proof.
    revert i; induction j as [|r j IH]; intros i; simpl; [split; [lia|done]|].
    destruct (retained_by p size (Z.of_nat i) r now_us) eqn:Er.
    - split; [lia|]. split; [lia|]. rewrite Nat.sub_diag. simpl. naive_solver.
    - destruct (IH (S i)) as (Hk & Hlt & Hge). split; [lia|]. split.
      + intros [|l] x Hx Hl; [simplify_eq/=; by rewrite Nat.add_0_r|].
        rewrite Nat.add_succ_r. by apply (Hlt l x); [|lia].
      + intros x Hx. apply Hge. revert Hx.
        by replace (_ - i)%nat
          with (S (collapsible_from p size now_us j (S i) - S i)) by lia.
  Qed.

  (** Retention: [CollapsiblePrefixCount] is the length of the longest prefix
      of records that neither the count nor the age rule keeps: zero when
      compaction is blocked, otherwise every record before it is not retained and
      the record at it, if any, is. *)
Theorem CollapsiblePrefixCount_longest n now_us :
    let k := CollapsiblePrefixCount n now_us in
    let retained i r := retained_by (journal_retention_policy_ n) (zlen (journal n))
                          (Z.of_nat i) r now_us in
    (k ≤ length (journal n))%nat ∧
    (journal_compaction_blocked_ n = true → k = 0%nat) ∧
    (∀ i r, journal n !! i = Some r → (i < k)%nat → retained i r = false) ∧
    (∀ r, journal n !! k = Some r → journal_compaction_blocked_ n = false →
       retained k r = true).
  Proof.
    unfold CollapsiblePrefixCount. destruct (journal_compaction_blocked_ n); simpl.
    { split; [lia|]. split; [done|]. split; [lia|done]. }
    case_bool_decide as Hj; simpl.
    { rewrite Hj. split; [lia|]. split; [done|]. split; [lia|done]. }
    destruct (collapsible_from_spec (journal_retention_policy_ n) (zlen (journal n))
      now_us (journal n) 0) as (Hk & Hlt & Hge).
    split; [lia|]. split; [done|]. split; [apply Hlt|].
    intros r Hr _. apply Hge. by rewrite Nat.sub_0_r.
  Qed.

  Context `{!Equiv F, !NodeLaws F Ev}.

Lemma CaptureBaseState_Some n b :
    is_Some (domain n) → base n = Some b → base_loaded b = true → journal n = [] →
    base_id b ≠ obj_id n →
    CaptureBaseState n =
      Some (set_base n (Some (mkBase (base_id b) true (SaveLoad (fields n))))).
  Proof.
    intros Hd Hb Hl Hj Hi. unfold CaptureBaseState.
    rewrite bool_decide_eq_true_2, Hb by done. cbn [mbind option_bind].
    rewrite Hl, bool_decide_eq_true_2 by done.
    by apply Z.eqb_neq in Hi as ->.
  Qed.

Lemma TryReplayJournal_Some n f :
    replay (fields n) (journal n) = Some f →
    ∃ m, TryReplayJournal n = Some (true, m) ∧ fields m = f ∧ same_frame n m ∧
      (suppress_materialized_change_ n = true → notified m = notified n).
  Proof.
    intros Hf. unfold TryReplayJournal, TryEnsureCurrentGeneration. simpl.
    rewrite drop_0.
    destruct (EnsureLoop_Some (journal n) (set_applied n 0) f Hf) as (m & Hm & Hfm).
    exists m. split; [done|]. split; [done|].
    apply EnsureLoop_inv in Hm as (Hs & Hg & _).
    split; [destruct Hs; by constructor|]. intros Hsup. by apply Hg.
  Qed.

  (** Compaction of a nonempty prefix that leaves some records. *)
Lemma CompactJournal_partial n k b :
    Consistent n → is_Some (domain n) → base n = Some b → base_id b ≠ obj_id n →
    drop k (journal n) ≠ [] →
    ∃ n1 n2 n3,
      RebuildFromBaseAndReplay (set_suppress (set_journal n (take k (journal n))) true)
        = Some n1 ∧
      CaptureBaseState (set_journal n1 []) = Some n2 ∧
      ReplayJournal (set_journal n2 (drop k (journal n))) = Some n3 ∧
      fields n3 ≡ fields n ∧ notified n3 = notified n ∧
      journal n3 = drop k (journal n) ∧ base_is_loaded n3 = true ∧
      (∃ f, base_replay n3 (journal n3) = Some f ∧ f ≡ fields n3).
  Proof.
    intros [Hbl (f & Hf & Hfn) _] Hd Hb Hid Hk.
    set (j1 := take k (journal n)) in *. set (j2 := drop k (journal n)) in *.
    set (n0 := set_suppress (set_journal n j1) true).
    assert (is_Some (base_replay n0 (journal n0))) as Hr0.
    { unfold base_replay in *. simpl. rewrite Hb in *.
      cbn [mbind option_bind] in *. rewrite <-(take_drop k (journal n)), replay_app in Hf.
      fold j1 in Hf. by destruct (replay (base_stored b) j1). }
    destruct (TryRebuild_Some n0 Hr0) as [n1 Hn1].
    exists n1. unfold RebuildFromBaseAndReplay, expect. rewrite Hn1.
    cbn [mbind option_bind].
    apply TryRebuild_inv in Hn1 as (Hs1 & Hg1 & Hc1 & _); [|done].
    destruct (Hc1 eq_refl) as [_ (f1 & Hf1 & Hfn1) _]. destruct (Hg1 eq_refl) as [_ Hnot1].
    rewrite (same_frame_base_replay _ _ _ Hs1), (sf_journal _ _ Hs1) in Hf1.
    assert (∃ g, replay f1 j2 = Some g ∧ g ≡ fields n) as (g & Hg & Hgn).
    { unfold base_replay in Hf, Hf1. simpl in Hf1. rewrite Hb in Hf, Hf1.
      cbn [mbind option_bind] in *. rewrite <-(take_drop k (journal n)), replay_app in Hf.
      fold j1 in Hf. rewrite Hf1 in Hf. by exists f. }
    exists (set_base (set_journal n1 [])
      (Some (mkBase (base_id b) true (SaveLoad (fields n1))))).
    pose proof Hs1 as [Ho Hdo Hba _ _ _ Hsu _]. simpl in Ho, Hdo, Hba, Hsu.
    rewrite (CaptureBaseState_Some _ b); simpl; [| |by rewrite Hba| |done|by rewrite Ho];
      [|by rewrite Hdo|by unfold base_is_loaded in Hbl; rewrite Hb in Hbl].
    set (n2 := set_journal _ j2).
    destruct (replay_equiv_Some j2 f1 (fields n1) g Hfn1 Hg) as (g2 & Hg2 & Hgg2).
    destruct (TryReplayJournal_Some n2 g2 Hg2) as (n3 & Hn3 & Hf3 & Hs3 & Hnot3).
    exists n3. unfold ReplayJournal, expect. rewrite Hn3. cbn [mbind option_bind].
    split; [done|]. split; [done|]. split; [done|].
    split; [by rewrite Hf3, <-Hgg2|].
    split; [rewrite Hnot3 by done; done|].
    split; [by rewrite (sf_journal _ _ Hs3)|].
    split; [by rewrite (same_frame_base_loaded _ _ Hs3)|].
    rewrite (same_frame_base_replay _ _ _ Hs3), (sf_journal _ _ Hs3). simpl.
    unfold base_replay. simpl.
    destruct (replay_equiv_Some j2 (fields n1) (SaveLoad (fields n1)) g2)
      as (g3 & Hg3 & Heq3); [symmetry; apply SaveLoad_equiv|done|].
    exists g3. split; [done|]. by rewrite Hf3, Heq3.
  Qed.

  (** C3. Compaction is housekeeping: on a consistent node in a domain whose base
      is another object, [CompactJournal] completes, drops exactly the
      collapsible prefix from the journal, keeps the fields up to equivalence and
      the generation, calls no notifier, and leaves a consistent node: replaying
      the retained records from the new base gives the fields. *)
Theorem CompactJournal_preserves n now_us b
      (Hc : Consistent n) (Hd : is_Some (domain n)) (Hb : base n = Some b)
      (Hid : base_id b ≠ obj_id n) (Hs : suppress_materialized_change_ n = false) :
    ∃ m, CompactJournal n now_us = Some m ∧
      journal m = drop (CollapsiblePrefixCount n now_us) (journal n) ∧
      fields m ≡ fields n ∧ generation_ m = generation_ n ∧ notified m = notified n ∧
      Consistent m.
  Proof.
    unfold CompactJournal. set (k := CollapsiblePrefixCount n now_us).
    destruct (Nat.eqb_spec k 0) as [->|Hk]; [by exists n|].
    case_bool_decide as Hj.
    - rewrite (CaptureBaseState_Some _ b); simpl;
        [|done|done|by destruct Hc as [Hl _ _]; unfold base_is_loaded in Hl;
                    rewrite Hb in Hl|done|done].
      eexists. split; [done|]. rewrite Hj. repeat (split; [done|]). split; [done| |].
      + exists (SaveLoad (fields n)). split; [done|]. apply SaveLoad_equiv.
      + by left.
    - destruct (CompactJournal_partial n k b Hc Hd Hb Hid Hj)
        as (n1 & n2 & n3 & -> & Hn2 & Hn3 & Hf & Hn & Hjn & Hbl & Hr).
      cbn [mbind option_bind]. rewrite Hn2. cbn [mbind option_bind].
      rewrite Hn3. cbn [mbind option_bind].
      eexists. split; [done|]. simpl. repeat (split; [done|]).
      split; [done|done|by left].
  Qed.
End compaction.

(** ** Local commits *)
Section commits.
  Context {F Ev : Type} `{!NodeKind F Ev, !Equiv F, !NodeLaws F Ev}.
  Implicit Types (n m : Node F Ev) (r : EventRecord Ev).
  Implicit Types j : list (EventRecord Ev).

Lemma commit_timestamp_last j now :
    journal_sorted j → Forall (λ r, 0 < ts r < 18446744073709551615) j →
    0 < now → is_u64 now →
    (∀ r, r ∈ j → ts r < commit_timestamp j now) ∧ 0 < commit_timestamp j now.
  Proof.
    intros Hj Hr Hnow Hu. unfold commit_timestamp.
    destruct j as [|l j _] using rev_ind; [set_solver|].
    rewrite last_snoc. apply journal_sorted_app in Hj as (_ & _ & Hj).
    apply list.Forall_app in Hr as [_ Hr]. rewrite list.Forall_singleton in Hr.
    assert (∀ r, r ∈ j ++ [l] → ts r ≤ ts l) as Hle.
    { intros r [Hin|Hin%list_elem_of_singleton]%elem_of_app; [|by subst].
      apply Hj; set_solver. }
    destruct (Z.leb_spec now (ts l)).
    - rewrite u64_small by (unfold is_u64; lia).
      split; [|lia]. intros r Hin. specialize (Hle r Hin). lia.
    - split; [|done]. intros r Hin. specialize (Hle r Hin). lia.
  Qed.

Lemma journal_position_end r j :
    (∀ x, x ∈ j → ts x < ts r) → journal_position r j = length j.
  Proof.
    intros H. rewrite <-(app_nil_r j) at 1. apply journal_position_split; [done|].
    set_solver.
  Qed.

  (** The record that [CommitInto] builds. *)
Definition commit_record n (e : EventPtr Ev) (now : Readings) : EventRecord Ev :=
    mkEventRecord e empty_identity
      (mkSharedEventOrder (commit_timestamp (journal n) (now 0%nat))) (now 1%nat).

(** A node that can take a local commit: it is consistent, lives in a domain, its
      journal is sorted, and no record is at the last representable timestamp. *)
Record CommitReady n : Prop := {
  ready_consistent : Consistent n;
  ready_sorted : journal_sorted (journal n);
  ready_fits : journal_fits n;
  ready_domain : is_Some (domain n);
  ready_ts : Forall (λ r, 0 < ts r < 18446744073709551615) (journal n)
}.

(** Clock readings are nonzero 64-bit microseconds. *)
Definition readings_ok (now : Readings) : Prop := ∀ i, 0 < now i ∧ is_u64 (now i).

Lemma commit_record_admissible n ev now :
  CommitReady n → readings_ok now →
  insert_admissible n (commit_record n (mkEventPtr true (Some ev) (domain n)) now) = true.
Proof.
  intros [Hc Hwf _ Hd Hts] Hnow.
  destruct (commit_timestamp_last (journal n) (now 0%nat)) as [_ Hpos];
    [done|done|apply Hnow..|].
  unfold insert_admissible, base_is_valid. destruct Hd as [d Hd], Hc as [Hl _ _].
  unfold base_is_loaded in *. rewrite Hd. destruct (base n); [|done]. rewrite Hl.
  simpl. rewrite !bool_decide_eq_false_2 by naive_solver. simpl.
  unfold ts. simpl. destruct (Z.eqb_spec (commit_timestamp (journal n) (now 0%nat)) 0);
    [lia|done].
Qed.

(** The insertion of a commit record applies its event to the current fields. *)
Lemma commit_insert_exact n ev (now : Readings) m :
  CommitReady n → readings_ok now →
  let r := commit_record n (mkEventPtr true (Some ev) (domain n)) now in
  TryInsertEvent n r (now 2%nat) = Some (true, m) →
  same_frame (set_journal n (journal n ++ [r])) m ∧ Consistent m ∧
  replay (fields n) [r] = Some (fields m).
Proof.
  intros Hready Hnow r Hm.
  pose proof (commit_record_admissible n ev now Hready Hnow) as Ha. fold r in Ha.
  destruct Hready as [Hc Hwf Hfit Hd Hts].
  destruct (commit_timestamp_last (journal n) (now 0%nat)) as [Hlt _];
    [done|done|apply Hnow..|].
  assert (stamped r (now 2%nat) = r) as Hst.
  { unfold stamped, r, commit_record. simpl. destruct (Hnow 1%nat).
    destruct (Z.eqb_spec (now 1%nat) 0); [lia|done]. }
  assert (inserted_journal n r (now 2%nat) = journal n ++ [r]) as Hj.
  { unfold inserted_journal, insert_at. rewrite Hst, journal_position_end by done.
    by rewrite firstn_all, skipn_all. }
  apply TryInsertEvent_inv in Hm as Hi; [|done..]. destruct Hi as [Hs Hcm].
  rewrite Hj in Hs. split; [done|split; [done|]].
  destruct (TryInsertEvent_exact n r (now 2%nat) m Hc Hfit Hm) as [_ [[_ Hx]|Hx]].
  { by rewrite Hst in Hx. }
  rewrite TryInsertEvent_body in Hm by done. cbv zeta in Hm.
  rewrite journal_position_end, Nat.eqb_refl in Hm by done.
  destruct (TryEnsureCurrentGeneration _) as [[[] m']|] eqn:E; [|done..].
  cbn [mbind option_bind] in Hm. injection Hm as <-.
  rewrite Hj in E. pose proof (append_node_eq n r Hc) as Hn. cbv zeta in Hn.
  rewrite Hn, append_node_ensure in E by done.
  by apply EnsureLoop_inv in E as (_ & _ & Hok & _).
Qed.

(** A local commit that succeeds applied its event to the current fields. *)
Lemma Commit_exact n ev (now : Readings) m :
  CommitReady n → readings_ok now →
  Commit n (mkEventPtr true (Some ev) (domain n)) now = Some m →
  same_frame (set_journal n
    (journal n ++ [commit_record n (mkEventPtr true (Some ev) (domain n)) now])) m ∧
  Consistent m ∧ CanApplyTo (fields n) ev = true ∧
  ∃ b, ApplyTo (fields n) ev = Some (fields m, b).
Proof.
  intros Hready Hnow Hm. unfold Commit in Hm. simpl in Hm.
  destruct (CanApplyTo (fields n) ev) eqn:Hcan; [|done].
  unfold InsertEvent, expect in Hm.
  destruct (TryInsertEvent _ _ _) as [[[] m']|] eqn:E; simplify_eq/=.
  apply commit_insert_exact in E as (Hs & Hc & Hr); [|done..].
  split; [done|split; [done|split; [done|]]].
  cbn [replay] in Hr. unfold step in Hr. simpl in Hr. rewrite Hcan in Hr.
  destruct (ApplyTo _ _) as [[f b]|]; simplify_eq/=. by eexists.
Qed.

(** A local commit of an event that the fields accept. *)
Lemma Commit_Some n ev (now : Readings) f b :
  CommitReady n → readings_ok now →
  CanApplyTo (fields n) ev = true → ApplyTo (fields n) ev = Some (f, b) →
  let r := commit_record n (mkEventPtr true (Some ev) (domain n)) now in
  ∃ m, Commit n (mkEventPtr true (Some ev) (domain n)) now = Some m ∧
    same_frame (set_journal n (journal n ++ [r])) m ∧ Consistent m ∧ fields m = f.
Proof.
  intros Hready Hnow Hcan Happ r.
  pose proof (commit_record_admissible n ev now Hready Hnow) as Ha. fold r in Ha.
  pose proof Hready as [Hc Hwf Hfit Hd Hts].
  destruct (commit_timestamp_last (journal n) (now 0%nat)) as [Hlt _];
    [done|done|apply Hnow..|].
  assert (replay (fields n) [stamped r (now 2%nat)] = Some f) as Hrep.
  { rewrite (replay_content [stamped r (now 2%nat)] [r]) by
      (cbn; by rewrite content_stamped).
    unfold r. cbn [replay]. unfold step. simpl. by rewrite Hcan, Happ. }
  pose proof (base_replay_snoc n (stamped r (now 2%nat)) Hc) as Hr. rewrite Hrep in Hr.
  inversion Hr as [g f' Hgf Hg|]; subst f'.
  destruct (TryInsertEvent_succeeds n r (now 2%nat)) as [m Hm]; [done..| |].
  { unfold inserted_journal, insert_at. rewrite journal_position_end by done.
    by rewrite firstn_all, skipn_all, <-Hg. }
  assert (Commit n (mkEventPtr true (Some ev) (domain n)) now = Some m) as Hcm.
  { unfold Commit. simpl. rewrite Hcan. unfold InsertEvent, expect. fold r.
    change (mkEventRecord _ _ _ _) with r. by rewrite Hm. }
  exists m. split; [done|].
  apply Commit_exact in Hcm as (Hs & Hcons & _ & b' & Hb); [|done..].
  split; [done|]. split; [done|]. congruence.
Qed.

(** Local commits come last: on a node that can take a commit, committing an
    event of the node's domain that the fields accept succeeds, appends a record
    without shared identity strictly after every record of the journal, even when
    the clock stands still or goes back, and leaves a consistent node whose fields
    are exactly one [Apply] further. *)
Theorem Commit_appends n ev (now : Readings) f b
    (Hready : CommitReady n) (Hnow : readings_ok now)
    (Hcan : CanApplyTo (fields n) ev = true)
    (Happ : ApplyTo (fields n) ev = Some (f, b)) :
  ∃ m r, Commit n (mkEventPtr true (Some ev) (domain n)) now = Some m ∧
    journal m = journal n ++ [r] ∧ ev_object (event r) = Some ev ∧
    HasSharedIdentity r = false ∧
    (∀ x, x ∈ journal n → ts x < ts r) ∧ Consistent m ∧ fields m = f.
Proof.
  destruct (Commit_Some n ev now f b Hready Hnow Hcan Happ) as (m & Hm & Hs & Hc & Hf).
  exists m, (commit_record n (mkEventPtr true (Some ev) (domain n)) now).
  split; [done|]. split; [apply (sf_journal _ _ Hs)|].
  split; [done|]. split; [done|]. split; [|done].
  destruct Hready as [_ Hwf _ _ Hts].
  by apply (commit_timestamp_last (journal n) (now 0%nat)); [| |apply Hnow..].
Qed.

  (** C5. Exhausted timestamps: after a record with the last 64-bit timestamp the
      next local commit wraps to timestamp zero, is refused, and fails the
      assertion of [InsertEvent]. *)
Theorem Commit_after_last_timestamp n j r e (now : Readings)
      (Hj : journal n = j ++ [r]) (Hr : ts r = 18446744073709551615)
      (Hnow : is_u64 (now 0%nat)) :
    Commit n e now = None.
  Proof.
    unfold Commit. destruct (ev_is_valid e); [|done].
    destruct (ev_object e) as [ev|]; [|done]. destruct (CanApplyTo _ _); [|done].
    unfold InsertEvent, TryInsertEvent, insert_admissible, ts, commit_timestamp. simpl.
    rewrite Hj, last_snoc, Hr.
    replace (now 0%nat <=? 18446744073709551615) with true.
    2: { symmetry. apply Z.leb_le. unfold is_u64 in Hnow. lia. }
    change (u64 (18446744073709551615 + 1) =? 0) with true. by rewrite orb_true_r.
  Qed.
End commits.

(** ** The set of nodes to publish *)
Module PendingDirty.
  Import PendingDirtyNodes.

Definition ok (p : t) : Prop :=
    NoDup (ordered p) ∧ membership p = list_to_set (ordered p).

Inductive Op := ONote (id : Z) | OPop | OClear.

  (** [PopFront] asserts that the set is not empty. *)
Definition exec (p : t) (o : Op) : option t :=
    match o with
    | ONote id => Some (Note p id)
    | OPop => snd <$> PopFront p
    | OClear => Some (Clear p)
    end.

Definition run (ops : list Op) : option t :=
    foldl (λ p o, p ← p; exec p o) (Some init) ops.

Lemma exec_ok p o p' : ok p → exec p o = Some p' → ok p'.
  Proof.
    intros [Hnd Hm]. destruct o as [id| |]; simpl.
    - intros [= <-]. unfold Note. case_decide as Hid; [done|]. split; simpl.
      + apply list.NoDup_app. split; [done|]. split; [set_solver|apply list.NoDup_singleton].
      + rewrite Hm. set_solver.
    - unfold PopFront. destruct p as [[|id l] mem]; simpl in *; [done|].
      intros [= <-]. apply list.NoDup_cons in Hnd as [Hid Hnd]. split; simpl; [done|].
      rewrite Hm. set_solver.
    - intros [= <-]. split; [constructor|done].
  Qed.

  (** The dirty set: after any sequence of notes, pops and clears, the order
      list has no duplicate and the membership set is exactly its elements. *)
Theorem run_ok ops p (H : run ops = Some p) : NoDup (ordered p) ∧
    membership p = list_to_set (ordered p).
  Proof.
    revert p H. unfold run. induction ops as [|o ops IH] using rev_ind; intros p.
    - intros [= <-]. split; [constructor|done].
    - rewrite foldl_app. simpl. destruct (foldl _ _ _) as [q|]; [|done].
      intros He. apply (exec_ok q o p); [|done]. by apply IH.
  Qed.
End PendingDirty.

(** ** A concrete class: a log of numbers that refuses zero *)
Module Examples.
#[local] Instance log_kind : NodeKind (list Z) Z := {|
    CanApplyTo _ e := negb (e =? 0);
    ApplyTo f e := Some ((f ++ [e])%list, true);
    MatchesSharedMetadata _ _ _ := true;
    SaveLoad f := f;
    CarryLocal _ loaded := loaded
  |}.
#[local] Instance log_equiv : Equiv (list Z) := (=).
#[local] Instance log_laws : NodeLaws (list Z) Z.
  Proof.
    split.
    - apply eq_equivalence.
    - by intros f g e ->.
    - intros f g e ->. by constructor.
    - done.
    - done.
  Qed.

Definition rec (uid : string) (seq t v : Z) : EventRecord Z :=
    mkEventRecord (mkEventPtr true (Some v) (Some 1)) (mkSharedEventId uid seq)
      (mkSharedEventOrder t) 5.

Definition fresh : Node (list Z) Z :=
    set_base (new_node 100 (Some 1) []) (Some (mkBase 101 true [])).

  (** alice's records at 10 and 30, then bob's at 20. *)
Definition alice_first := [(rec "alice"%string 1 10 7, 50); (rec "alice"%string 2 30 9, 51)].
Definition bob_record := rec "bob"%string 1 20 8.

Definition after (rs : list (EventRecord Z * Z)) : Node (list Z) Z :=
    match insert_all fresh rs with Some (_, n) => n | None => fresh end.

Definition two : Node (list Z) Z := after alice_first.

Lemma two_consistent : Consistent two.
  Proof.
    split; [reflexivity| |right; reflexivity].
    exists [7; 9]. split; reflexivity.
  Qed.

Lemma fresh_consistent : Consistent fresh.
  Proof. split; [reflexivity| |left; reflexivity]. exists []. split; reflexivity. Qed.

Lemma two_wf : journal_wf (journal two).
  Proof.
    split.
    - repeat constructor; vm_compute; discriminate.
    - unfold identities_distinct. vm_compute. repeat constructor; set_solver.
  Qed.

Lemma TryInsertEvent_refines_replay_witness :
    ∃ m, TryInsertEvent two bob_record 60 = Some (true, m) ∧
      fields m = [7; 8; 9] ∧ Consistent m.
  Proof.
    destruct (TryInsertEvent_refines_replay two bob_record 60 two_consistent
      ltac:(vm_compute; reflexivity) eq_refl eq_refl) as [[_ Hex] Hall].
    destruct Hex as [m Hm]; [by eexists|].
    exists m. split; [exact Hm|]. destruct (Hall m Hm) as [Hc _].
    split; [|exact Hc]. vm_compute in Hm. by injection Hm as <-.
  Defined.

(** A repeated identity changes nothing; a refused event at the end leaves the
      journal and the fields. *)
Lemma TryInsertEvent_refused_witness :
    TryInsertEvent two (rec "alice"%string 2 40 5) 60 = Some (false, two) ∧
    ∀ m, TryInsertEvent two (rec "bob"%string 1 40 0) 60 = Some (false, m) →
      m = two ∨ m = set_applied two 2.
  Proof.
    split.
    - apply (proj1 (TryInsertEvent_refused two (rec "alice"%string 2 40 5) 60)).
      right. reflexivity.
    - apply (proj2 (TryInsertEvent_refused two (rec "bob"%string 1 40 0) 60)).
      + exact two_consistent.
      + vm_compute. reflexivity.
      + reflexivity.
  Defined.

Lemma TryInsertEvent_journal_wf_witness :
    ∃ m, TryInsertEvent two bob_record 60 = Some (true, m) ∧ journal_wf (journal m).
  Proof.
    eexists. split; [vm_compute; reflexivity|].
    eapply (TryInsertEvent_journal_wf two bob_record 60 true); [exact two_wf|].
    vm_compute. reflexivity.
  Defined.

Definition orders : list (list (EventRecord Z * Z)) :=
    [alice_first ++ [(bob_record, 60)]; (bob_record, 40) :: reverse alice_first]%list.

Lemma insert_all_converges_witness :
    ∃ m1 m2,
      insert_all fresh (orders !!! 0%nat) = Some (true, m1) ∧
      insert_all fresh (orders !!! 1%nat) = Some (true, m2) ∧
      content <$> journal m1 = content <$> journal m2 ∧ fields m1 = fields m2.
  Proof.
    eexists _, _. split; [vm_compute; reflexivity|]. split; [vm_compute; reflexivity|].
    apply (insert_all_converges fresh fresh _ _ (mkBase 101 true []) (mkBase 101 true [])
      (orders !!! 0%nat) (orders !!! 1%nat)); try reflexivity; try exact fresh_consistent.
    - split; constructor.
    - split; constructor.
    - apply (bool_decide_unpack _). vm_compute. exact I.
    - apply (bool_decide_unpack _). vm_compute. exact I.
  Defined.

Definition bounded : Node (list Z) Z :=
    SetJournalRetentionPolicy two (JournalRetentionPolicy.mk 1 None).

Lemma CompactJournal_preserves_witness :
    ∃ m, CompactJournal bounded 100 = Some m ∧
      length (journal m) = 1%nat ∧ fields m = [7; 9] ∧ Consistent m.
  Proof.
    destruct (CompactJournal_preserves bounded 100 (mkBase 101 true []))
      as (m & Hm & Hj & Hf & _ & _ & Hc).
    - destruct two_consistent. split; assumption.
    - by eexists.
    - reflexivity.
    - vm_compute. discriminate.
    - reflexivity.
    - exists m. split; [exact Hm|]. rewrite Hj. split; [reflexivity|].
      split; [exact Hf|exact Hc].
  Defined.

Lemma two_ready : CommitReady two.
Proof.
  split.
  - exact two_consistent.
  - exact (proj1 two_wf).
  - vm_compute. reflexivity.
  - by eexists.
  - apply (bool_decide_unpack _). vm_compute. exact I.
Qed.

Lemma readings_20 : readings_ok (λ _, 20).
Proof. intros _. split; [reflexivity|split; [discriminate|reflexivity]]. Qed.

(** The clock is behind the journal: the commit lands just after its last record. *)
Lemma Commit_appends_witness :
  ∃ m, Commit two (mkEventPtr true (Some 4) (Some 1)) (λ _, 20) = Some m ∧
    fields m = [7; 9; 4] ∧ (ts <$> journal m) = [10; 30; 31] ∧ Consistent m.
Proof.
  destruct (Commit_appends two 4 (λ _, 20) [7; 9; 4] true)
    as (m & r & Hm & _ & _ & _ & _ & Hc & Hf).
  - exact two_ready.
  - exact readings_20.
  - reflexivity.
  - reflexivity.
  - exists m. split; [exact Hm|]. split; [exact Hf|]. split; [|exact Hc].
    vm_compute in Hm. injection Hm as <-. reflexivity.
Defined.

(** A peer's record with the last timestamp is accepted, and the next local
      commit fails. *)
Definition poisoned : Node (list Z) Z := after [(rec "bob"%string 1 18446744073709551615 8, 50)].

Lemma Commit_after_last_timestamp_witness :
    fields poisoned = [8] ∧
    Commit poisoned (mkEventPtr true (Some 4) (Some 1)) (λ _, 20) = None.
  Proof.
    split; [reflexivity|].
    eapply (Commit_after_last_timestamp poisoned [] (rec "bob"%string 1 18446744073709551615 8)).
    - reflexivity.
    - reflexivity.
    - split; [discriminate|reflexivity].
  Defined.

Lemma run_ok_witness :
    ∃ p, PendingDirty.run [PendingDirty.ONote 4; PendingDirty.ONote 5;
        PendingDirty.ONote 4; PendingDirty.OPop] = Some p ∧
      PendingDirtyNodes.ordered p = [5] ∧ NoDup (PendingDirtyNodes.ordered p).
  Proof.
    eexists. split; [vm_compute; reflexivity|]. split; [reflexivity|].
    eapply (PendingDirty.run_ok [PendingDirty.ONote 4; PendingDirty.ONote 5;
        PendingDirty.ONote 4; PendingDirty.OPop]). vm_compute. reflexivity.
  Defined.
End Examples.
