(* ===== verification/NodeBudget.v ===== *)
(** * How many commits a node has left

    A commit on a node succeeds while neither the timestamps nor the size of the journal are
    exhausted.  [Budget k n] says that [k] more commits succeed; the components that are made
    of nodes (the model of the chat, the surfaces) carry it in their invariants. *)
From Stdlib Require Import Sorting.Sorted.
From S2P Require Import Prelude Aether SharedEvent Node NodeTheory.

(** [Budget k n]: [k] more commits neither exhaust the timestamps nor the size of the
    journal; [clock_within k now]: the readings leave as much. *)
Section budget.
  Context {F Ev : Type} `{!NodeKind F Ev, !Equiv F, !NodeLaws F Ev}.
  Implicit Types (n m : Node F Ev) (k : Z).

Record Budget k n : Prop := {
  budget_consistent : Consistent n;
  budget_sorted : journal_sorted (journal n);
  budget_size : zlen (journal n) + k < kSizeMax;
  budget_domain : is_Some (domain n);
  budget_ts : Forall (λ r, 0 < ts r ∧ ts r + k < kMaxUint64) (journal n)
}.

Definition clock_within k (now : Readings) : Prop := ∀ i, 0 < now i ∧ now i + k < kMaxUint64.

Lemma clock_within_ok k now : 0 ≤ k → clock_within k now → readings_ok now.
Proof. intros Hk H i. specialize (H i). unfold is_u64, kMaxUint64 in *. lia. Qed.

Lemma clock_within_weaken k k' now : k' ≤ k → clock_within k now → clock_within k' now.
Proof. intros Hk H i. specialize (H i). lia. Qed.

Lemma Budget_ready k n : 0 ≤ k → Budget k n → CommitReady n.
Proof.
  intros Hk [Hc Hs Hz Hd Ht]. split; [done|done|unfold journal_fits; lia|done|].
  eapply list.Forall_impl; [exact Ht|]. cbn. unfold kMaxUint64. lia.
Qed.

Lemma Budget_weaken k k' n : k' ≤ k → Budget k n → Budget k' n.
Proof.
  intros Hk [Hc Hs Hz Hd Ht]. split; [done|done|lia|done|].
  eapply list.Forall_impl; [exact Ht|]. cbn. lia.
Qed.

Lemma Commit_Budget k n e now f b :
  0 ≤ k → Budget (k + 1) n → clock_within (k + 1) now →
  CanApplyTo (fields n) e = true → ApplyTo (fields n) e = Some (f, b) →
  ∃ m r, Commit n (created n e) now = Some m ∧ Budget k m ∧ fields m = f ∧
    obj_id m = obj_id n ∧ domain m = domain n ∧ journal m = journal n ++ [r] ∧
    event r = created n e ∧ identity r = empty_identity.
Proof.
  intros Hk Hb Hnow Hcan Happ. pose proof (Budget_ready (k + 1) n ltac:(lia) Hb) as Hr.
  pose proof (clock_within_ok (k + 1) now ltac:(lia) Hnow) as Hok.
  destruct (Commit_Some n e now f b Hr Hok Hcan Happ) as (m & Hm & Hs & Hc & Hf).
  exists m, (commit_record n (created n e) now).
  split; [done|]. destruct Hb as [_ Hsorted Hz Hd Ht].
  pose proof (ready_ts _ Hr) as Hrt.
  destruct (commit_timestamp_last (journal n) (now 0%nat) Hsorted Hrt) as [Hlt Hpos];
    [apply Hok..|].
  split; [split|split; [done|split; [apply (sf_obj_id _ _ Hs)|split; [apply (sf_domain _ _ Hs)|]]]];
    [done| | | | |split; [apply (sf_journal _ _ Hs)|done]]; rewrite ?(sf_journal _ _ Hs), ?(sf_domain _ _ Hs); cbn [journal set_journal].
  - apply journal_sorted_app. split; [done|]. split; [by repeat constructor|].
    intros a c Ha ->%list_elem_of_singleton. specialize (Hlt a Ha).
    unfold ts at 2. cbn. lia.
  - rewrite zlen_app. change (zlen [_]) with 1. lia.
  - done.
  - apply list.Forall_app. split; [eapply list.Forall_impl; [exact Ht|cbn; lia]|].
    constructor; [|done]. unfold ts. cbn. split; [done|]. unfold commit_timestamp.
    pose proof (Hnow 0%nat) as [_ H0]. destruct (list.last (journal n)) as [l|] eqn:El; [|lia].
    case_match; [|lia].
    assert (l ∈ journal n) as Hl by (by apply last_Some_elem_of).
    rewrite list.Forall_forall in Ht, Hrt. specialize (Ht l Hl). specialize (Hrt l Hl).
    rewrite u64_small by (unfold is_u64; lia). lia.
Qed.

(** A node that starts. *)
Lemma InitializeRuntimeNode_Budget k (id base_id d : Z) (f : F) :
  k < kSizeMax → base_id ≠ id → SaveLoad f = f →
  ∃ n, InitializeRuntimeNode (new_node id (Some d) f) base_id = Some n ∧
    fields n = f ∧ domain n = Some d ∧ journal n = [] ∧ Budget k n.
Proof.
  intros Hk Hid Hf. unfold InitializeRuntimeNode, CaptureBaseState. cbn.
  apply Z.eqb_neq in Hid. rewrite Hid. eexists. split; [reflexivity|]. split; [done|].
  split; [done|]. split; [done|].
  split; [|constructor|done|by eexists|constructor].
  split; [done| |by left]. exists f. split; [by cbn; rewrite Hf|reflexivity].
Qed.
End budget.

(** A node as [InitializeRuntimeNode] leaves it, for the examples. *)
Definition fresh {F Ev} (id : Z) (f : F) : Node F Ev :=
  set_base (new_node id (Some 1) f) (Some (mkBase (id + 1) true f)).

Lemma fresh_budget {F Ev} `{!NodeKind F Ev, !Equiv F} `{!NodeLaws F Ev} k id (f : F) :
  k < kSizeMax → Budget k (fresh (Ev := Ev) id f).
Proof.
  intros Hk. split; [|constructor|done|by eexists|constructor].
  split; [done| |by left]. exists f. split; [done|]. reflexivity.
Qed.
