(* ===== verification/LinkSync.v ===== *)
(** * Per-relationship synchronization state (shared_node.h, shared_node.cpp)

    [LinkSyncState] is a node whose events record the progress of one Share
    relationship: the phase of the initial-state exchange with its frozen packet,
    the identities known to be delivered, and the one outstanding event packet.
    Its fields and events are an instance of [NodeKind]; the operations commit
    events on the node. *)
From S2P Require Import Prelude Aether SharedEvent Node NodeTheory.

(** ** Data *)

(** [InitialSyncPhase], stored as its number. *)
Module InitialSyncPhase.
Definition NotStarted : Z := 0.
Definition Pending : Z := 1.
Definition Complete : Z := 2.
End InitialSyncPhase.

Record LinkSyncFields := mkLinkSync {
  sync_share_id : Z;
  sync_link : option Z;
  initial_sync_phase : Z;
  pending_initial_packet_id : Z;
  pending_initial_packet : bytes;
  received_initial_packet_id : Z;
  pending_initial_covered_event_ids : list SharedEventId;
  delivered_event_ids : list SharedEventId;
  pending_event_packet_id : Z;
  pending_event_identity : SharedEventId;
  pending_event_packet : bytes
}.

(** The seven event classes.  [obj_id] is the identifier of the event object,
    where the fields depend on it. *)
Inductive LinkSyncEvent :=
| SetLinkInitialSyncPhaseEvent (phase : Z)
| BeginInitialSyncEvent (obj_id : Z) (packet : bytes) (covered : list SharedEventId)
| CompleteInitialSyncEvent
| NoteInitialSyncReceivedEvent (packet_id : Z)
| CompleteFromReceivedSnapshotEvent (delivered : list SharedEventId)
| BeginIncrementalEventSyncEvent (obj_id : Z) (identity : SharedEventId) (packet : bytes)
| CompleteIncrementalEventSyncEvent.

(** The node. *)
Abbreviation SyncNode := (Node LinkSyncFields LinkSyncEvent).

(** ** The event handlers *)

Definition HasDelivered (f : LinkSyncFields) (i : SharedEventId) : bool :=
  existsb (λ d, SharedEventId_eqb d i) (delivered_event_ids f).

(** The loops that append to [delivered_event_ids] what is not in it yet;
    [keep] is the additional guard of the loop. *)
Fixpoint append_delivered (keep : SharedEventId → bool)
    (todo : list SharedEventId) (delivered : list SharedEventId)
    : list SharedEventId :=
  match todo with
  | [] => delivered
  | i :: todo =>
      append_delivered keep todo
        (if keep i && negb (existsb (λ d, SharedEventId_eqb d i) delivered)
         then delivered ++ [i] else delivered)
  end.

Section handlers.
  Context {ids : AetherIds}.
  Implicit Types f : LinkSyncFields.

Definition new_link_sync (share_id : Z) (link : option Z) : LinkSyncFields :=
  mkLinkSync share_id link InitialSyncPhase.NotStarted ObjId_none [] ObjId_none
    [] [] ObjId_none empty_identity [].

Definition HasPendingEvent f : bool := ObjId_is_valid (pending_event_packet_id f).

Definition CanApply_LinkSync f (e : LinkSyncEvent) : bool :=
  match e with
  | CompleteFromReceivedSnapshotEvent _ =>
      (initial_sync_phase f =? InitialSyncPhase.NotStarted) && negb (HasPendingEvent f)
  | _ => true
  end.

Definition Apply_SetPhase f (phase : Z) : option LinkSyncFields :=
  Some (mkLinkSync (sync_share_id f) (sync_link f) phase
    (pending_initial_packet_id f) (pending_initial_packet f)
    (received_initial_packet_id f) (pending_initial_covered_event_ids f)
    (delivered_event_ids f) (pending_event_packet_id f)
    (pending_event_identity f) (pending_event_packet f)).

Definition Apply_BeginInitial f (id : Z) (packet : bytes)
    (covered : list SharedEventId) : option LinkSyncFields :=
  assert! (initial_sync_phase f =? InitialSyncPhase.NotStarted) ;;
  assert! negb (bool_decide (packet = [])) ;;
  Some (mkLinkSync (sync_share_id f) (sync_link f) InitialSyncPhase.Pending
    id packet (received_initial_packet_id f) covered
    (delivered_event_ids f) (pending_event_packet_id f)
    (pending_event_identity f) (pending_event_packet f)).

Definition Apply_CompleteInitial f : option LinkSyncFields :=
  Some (mkLinkSync (sync_share_id f) (sync_link f) InitialSyncPhase.Complete
    ObjId_none [] (received_initial_packet_id f) []
    (append_delivered (λ _, true) (pending_initial_covered_event_ids f)
       (delivered_event_ids f))
    (pending_event_packet_id f) (pending_event_identity f) (pending_event_packet f)).

Definition Apply_NoteReceived f (packet_id : Z) : option LinkSyncFields :=
  Some (mkLinkSync (sync_share_id f) (sync_link f) InitialSyncPhase.Complete
    (pending_initial_packet_id f) (pending_initial_packet f) packet_id
    (pending_initial_covered_event_ids f) (delivered_event_ids f)
    (pending_event_packet_id f) (pending_event_identity f) (pending_event_packet f)).

Definition Apply_CompleteFromSnapshot f (delivered : list SharedEventId)
    : option LinkSyncFields :=
  Some (mkLinkSync (sync_share_id f) (sync_link f) InitialSyncPhase.Complete
    ObjId_none [] (received_initial_packet_id f) []
    (append_delivered (λ i, negb (String.eqb (origin_uid i) "")) delivered
       (delivered_event_ids f))
    (pending_event_packet_id f) (pending_event_identity f) (pending_event_packet f)).

Definition Apply_BeginIncremental f (id : Z) (i : SharedEventId) (packet : bytes)
    : option LinkSyncFields :=
  assert! (initial_sync_phase f =? InitialSyncPhase.Complete) ;;
  assert! negb (HasPendingEvent f) ;;
  assert! negb (String.eqb (origin_uid i) "") ;;
  assert! negb (bool_decide (packet = [])) ;;
  Some (mkLinkSync (sync_share_id f) (sync_link f) (initial_sync_phase f)
    (pending_initial_packet_id f) (pending_initial_packet f)
    (received_initial_packet_id f) (pending_initial_covered_event_ids f)
    (delivered_event_ids f) id i packet).

Definition Apply_CompleteIncremental f : option LinkSyncFields :=
  assert! HasPendingEvent f ;;
  Some (mkLinkSync (sync_share_id f) (sync_link f) (initial_sync_phase f)
    (pending_initial_packet_id f) (pending_initial_packet f)
    (received_initial_packet_id f) (pending_initial_covered_event_ids f)
    (if HasDelivered f (pending_event_identity f) then delivered_event_ids f
     else delivered_event_ids f ++ [pending_event_identity f])
    ObjId_none empty_identity []).

Definition Apply_LinkSync f (e : LinkSyncEvent) : option LinkSyncFields :=
  match e with
  | SetLinkInitialSyncPhaseEvent p => Apply_SetPhase f p
  | BeginInitialSyncEvent id p c => Apply_BeginInitial f id p c
  | CompleteInitialSyncEvent => Apply_CompleteInitial f
  | NoteInitialSyncReceivedEvent p => Apply_NoteReceived f p
  | CompleteFromReceivedSnapshotEvent d => Apply_CompleteFromSnapshot f d
  | BeginIncrementalEventSyncEvent id i p => Apply_BeginIncremental f id i p
  | CompleteIncrementalEventSyncEvent => Apply_CompleteIncremental f
  end.

(** Every [Apply] ends with [NoteMaterializedChange]; Load and Save list the same
    fields; nothing is stashed across a rebuild. *)
#[export] Instance LinkSync_kind : NodeKind LinkSyncFields LinkSyncEvent := {|
  CanApplyTo := CanApply_LinkSync;
  ApplyTo f e := f' ← Apply_LinkSync f e; Some (f', true);
  MatchesSharedMetadata _ _ _ := true;
  SaveLoad f := f;
  CarryLocal _ loaded := loaded
|}.

#[export] Instance LinkSync_equiv : Equiv LinkSyncFields := (=).

#[export] Instance LinkSync_laws : NodeLaws LinkSyncFields LinkSyncEvent.
Proof.
  split.
  - apply eq_equivalence.
  - by intros f g e ->.
  - intros f g e ->. destruct (ApplyTo g e); by constructor.
  - done.
  - done.
Qed.

(** ** Operations of the node *)

Implicit Types n : SyncNode.

Definition LinkSync_SetInitialSyncPhase n (phase : Z) (now : Readings) : option SyncNode :=
  if initial_sync_phase (fields n) =? phase then Some n
  else Commit n (created n (SetLinkInitialSyncPhaseEvent phase)) now.

Definition CompleteInitialSync n (now : Readings) : option SyncNode :=
  Commit n (created n CompleteInitialSyncEvent) now.

Definition NoteInitialSyncReceived n (packet_id : Z) (now : Readings)
    : option SyncNode :=
  assert! ObjId_is_valid packet_id ;;
  Commit n (created n (NoteInitialSyncReceivedEvent packet_id)) now.

Definition CompleteFromReceivedSnapshot n (delivered : list SharedEventId)
    (now : Readings) : option SyncNode :=
  Commit n (created n (CompleteFromReceivedSnapshotEvent delivered)) now.

(** [new_id] is the identifier of the created event. *)
Definition BeginIncrementalEvent n (i : SharedEventId) (packet : bytes)
    (new_id : Z) (now : Readings) : option SyncNode :=
  assert! (initial_sync_phase (fields n) =? InitialSyncPhase.Complete) ;;
  assert! negb (HasPendingEvent (fields n)) ;;
  assert! negb (String.eqb (origin_uid i) "") ;;
  assert! negb (origin_sequence i =? 0) ;;
  assert! negb (bool_decide (packet = [])) ;;
  Commit n (created n (BeginIncrementalEventSyncEvent new_id i packet)) now.

Definition CompleteIncrementalEvent n (now : Readings) : option SyncNode :=
  assert! HasPendingEvent (fields n) ;;
  Commit n (created n CompleteIncrementalEventSyncEvent) now.
End handlers.

(** ** The protocol discipline

    [SetLinkInitialSyncPhaseEvent] sets the phase arbitrarily and is not used by
    the synchronization runtime; created events have valid identifiers. *)
Section protocol.
  Context {ids : AetherIds}.
  Implicit Types f g : LinkSyncFields.
  Implicit Types j : list (EventRecord LinkSyncEvent).

Definition protocol_event (e : LinkSyncEvent) : Prop :=
  match e with
  | SetLinkInitialSyncPhaseEvent _ => False
  | BeginInitialSyncEvent id _ _ | BeginIncrementalEventSyncEvent id _ _ =>
      ObjId_is_valid id = true
  | _ => True
  end.

Definition protocol_record (r : EventRecord LinkSyncEvent) : Prop :=
  ∀ e, ev_object (event r) = Some e → protocol_event e.

(** What holds of a relationship's state between events. *)
Record sync_ok f : Prop := {
  ok_phase : initial_sync_phase f = InitialSyncPhase.NotStarted ∨
    initial_sync_phase f = InitialSyncPhase.Pending ∨
    initial_sync_phase f = InitialSyncPhase.Complete;
  ok_delivered : NoDup (delivered_event_ids f);
  ok_not_started : initial_sync_phase f = InitialSyncPhase.NotStarted →
    pending_initial_packet f = [] ∧ delivered_event_ids f = [] ∧
    HasPendingEvent f = false;
  ok_pending : initial_sync_phase f = InitialSyncPhase.Pending →
    ObjId_is_valid (pending_initial_packet_id f) = true ∧
    pending_initial_packet f ≠ [];
  ok_event : HasPendingEvent f = true →
    initial_sync_phase f = InitialSyncPhase.Complete ∧
    origin_uid (pending_event_identity f) ≠ ""%string ∧ pending_event_packet f ≠ [];
  ok_no_event : HasPendingEvent f = false →
    pending_event_identity f = empty_identity ∧ pending_event_packet f = []
}.

Lemma existsb_delivered l i :
  existsb (λ d, SharedEventId_eqb d i) l = bool_decide (i ∈ l).
Proof.
  apply eq_bool_prop_intro. rewrite Is_true_true, Is_true_true, bool_decide_eq_true.
  rewrite existsb_exists. split.
  - intros (x & Hx%list_elem_of_In & Hi). rewrite SharedEventId_eqb_spec in Hi.
    apply bool_decide_eq_true in Hi. by subst.
  - intros Hi. exists i. split; [by apply list_elem_of_In|].
    rewrite SharedEventId_eqb_spec. by apply bool_decide_eq_true_2.
Qed.

Lemma append_delivered_spec keep todo l :
  NoDup l → NoDup (append_delivered keep todo l) ∧
  l `prefix_of` append_delivered keep todo l ∧
  (∀ i, i ∈ append_delivered keep todo l ↔ i ∈ l ∨ (i ∈ todo ∧ keep i = true)).
Proof.
  revert l; induction todo as [|i todo IH]; intros l Hl; simpl.
  { split; [done|]. split; [done|]. set_solver. }
  rewrite existsb_delivered.
  assert (∀ x, (x ∈ i :: todo ∧ keep x = true) ↔
    (x = i ∧ keep i = true) ∨ (x ∈ todo ∧ keep x = true)) as Hc.
  { intros x. rewrite elem_of_cons. destruct (decide (x = i)); subst; tauto. }
  destruct (keep i) eqn:Hk; simpl.
  - case_bool_decide as Hi; simpl.
    + destruct (IH l Hl) as (? & ? & Hin). split; [done|]. split; [done|].
      intros x. rewrite Hin, Hc. destruct (decide (x = i)); subst; tauto.
    + destruct (IH (l ++ [i])) as (Hn & Hp & Hin).
      { apply list.NoDup_app. split; [done|].
        split; [set_solver|apply list.NoDup_singleton]. }
      split; [done|]. split; [by eapply prefix_app_l|].
      intros x. rewrite Hin, Hc, elem_of_app, list_elem_of_singleton. tauto.
  - destruct (IH l Hl) as (? & ? & Hin). split; [done|]. split; [done|].
    intros x. rewrite Hin, Hc. intuition congruence.
Qed.

Lemma new_link_sync_ok share link : sync_ok (new_link_sync share link).
Proof.
  split; unfold HasPendingEvent; simpl; rewrite ?ObjId_none_invalid; try done.
  - by left.
  - constructor.
Qed.

Ltac handler :=
  match goal with
  | H : Some _ = Some _ |- _ => injection H as <-
  | H : (if ?c then _ else None) = Some _ |- _ => destruct c eqn:?; [|discriminate H]
  end.

Ltac use_ok H :=
  destruct H as [Hphase Hnd Hns Hpe Hev Hne].

(** Every protocol event that is accepted and applied keeps the invariant. *)
Lemma Apply_sync_ok f e g :
  sync_ok f → protocol_event e → CanApply_LinkSync f e = true →
  Apply_LinkSync f e = Some g → sync_ok g.
Proof.
  intros Hok Hp Hc Ha. use_ok Hok.
  unfold HasPendingEvent in *.
  destruct e as [|id p c| |pid|d|id i p|]; simpl in Hp, Hc, Ha; [done|..];
    unfold Apply_BeginInitial, Apply_CompleteInitial, Apply_NoteReceived,
      Apply_CompleteFromSnapshot, Apply_BeginIncremental, Apply_CompleteIncremental,
      HasDelivered, HasPendingEvent in *; repeat handler; breflect.
  - destruct (Hns ltac:(done)) as (? & ? & Hf).
    split; unfold HasPendingEvent; simpl; try done; [by auto|]. congruence.
  - edestruct (append_delivered_spec (λ _, true)
      (pending_initial_covered_event_ids f) (delivered_event_ids f)) as (? & _ & _);
      [done|].
    split; unfold HasPendingEvent; simpl; try done; [by auto|].
    intros Hv. by destruct (Hev Hv) as (_ & ? & ?).
  - split; unfold HasPendingEvent; simpl; try done; [by auto|].
    intros Hv. by destruct (Hev Hv) as (_ & ? & ?).
  - edestruct (append_delivered_spec (λ i, negb (String.eqb (origin_uid i) "")) d
      (delivered_event_ids f)) as (? & _ & _); [done|].
    split; unfold HasPendingEvent; simpl; try done; [by auto|].
    intros Hv. by destruct (Hev Hv) as (_ & ? & ?).
  - split; unfold HasPendingEvent; simpl; try done.
    + intros Hn. rewrite Hn in *. done.
    + intros _. split; [done|]. split; [|done].
      by destruct (String.eqb_spec (origin_uid i) "").
    + congruence.
  - rewrite existsb_delivered.
    split; unfold HasPendingEvent; simpl; rewrite ?ObjId_none_invalid; try done.
    + case_bool_decide as Hi; [done|]. apply list.NoDup_app. split; [done|].
      split; [set_solver|apply list.NoDup_singleton].
    + intros Hn. destruct (Hev ltac:(done)) as [? _]. rewrite Hn in *. done.
Qed.

Lemma step_LinkSync f r g :
  step f r = Some g → ∃ e, ev_object (event r) = Some e ∧
    CanApply_LinkSync f e = true ∧ Apply_LinkSync f e = Some g.
Proof.
  unfold step. destruct (ev_is_valid _); [|done].
  destruct (ev_object _) as [e|]; [cbn|done].
  destruct (CanApply_LinkSync f e) eqn:Hc; [|done].
  destruct (Apply_LinkSync f e) as [f'|] eqn:Ha; [|done].
  intros [= <-]. by exists e.
Qed.

Lemma replay_keeps_ok f j g :
  sync_ok f → Forall protocol_record j → replay f j = Some g → sync_ok g.
Proof.
  intros Hok Hp. revert f Hok. induction Hp as [|r j Hr _ IH]; intros f Hok H;
    cbn [replay] in H; [by simplify_eq|].
  destruct (step f r) as [h|] eqn:Hs; [|done]. apply (IH h); [|done].
  apply step_LinkSync in Hs as (e & He & Hc & Ha).
  exact (Apply_sync_ok f e h Hok (Hr e He) Hc Ha).
Qed.

(** C6. Protocol invariant: whatever journal of protocol events a relationship's
    synchronization state is replayed from, an outstanding event packet exists
    only after the initial exchange and is then never empty nor without
    identity, a pending initial exchange always has its frozen packet, nothing is
    delivered or outstanding before the exchange starts, and no identity is
    recorded as delivered twice. *)
Theorem replay_sync_ok share link j f
    (Hp : Forall protocol_record j)
    (Hr : replay (new_link_sync share link) j = Some f) : sync_ok f.
Proof.
  exact (replay_keeps_ok _ j f (new_link_sync_ok share link) Hp Hr).
Qed.

(** What one step may not undo. *)
Record progress f g : Prop := {
  pr_phase : initial_sync_phase f ≤ initial_sync_phase g;
  pr_delivered : delivered_event_ids f `prefix_of` delivered_event_ids g;
  pr_initial : initial_sync_phase f = InitialSyncPhase.Pending →
    initial_sync_phase g = InitialSyncPhase.Pending →
    pending_initial_packet_id g = pending_initial_packet_id f ∧
    pending_initial_packet g = pending_initial_packet f ∧
    pending_initial_covered_event_ids g = pending_initial_covered_event_ids f
}.

Lemma Apply_progress f e g :
  sync_ok f → protocol_event e → CanApply_LinkSync f e = true →
  Apply_LinkSync f e = Some g → progress f g.
Proof.
  intros Hok Hp Hc Ha. pose proof (ok_phase _ Hok) as Hph.
  assert (0 ≤ initial_sync_phase f ≤ 2) as Hb.
  { unfold InitialSyncPhase.NotStarted, InitialSyncPhase.Pending,
      InitialSyncPhase.Complete in Hph. lia. }
  destruct e as [|id p c| |pid|d|id i p|]; simpl in Hp, Hc, Ha; [done|..];
    unfold Apply_BeginInitial, Apply_CompleteInitial, Apply_NoteReceived,
      Apply_CompleteFromSnapshot, Apply_BeginIncremental, Apply_CompleteIncremental
      in *; repeat handler; breflect;
    split; simpl; unfold InitialSyncPhase.NotStarted, InitialSyncPhase.Pending,
      InitialSyncPhase.Complete in *; try done; try lia.
  - by eapply append_delivered_spec, ok_delivered.
  - by eapply append_delivered_spec, ok_delivered.
  - case_match; [done|]. by apply prefix_app_r.
Qed.

Lemma progress_trans f g h :
  sync_ok g → progress f g → progress g h → progress f h.
Proof.
  intros Hg [Hp Hd Hi] [Hp' Hd' Hi']. split; [lia|by etrans|].
  intros Hf Hh. assert (initial_sync_phase g = InitialSyncPhase.Pending) as Hgp.
  { unfold InitialSyncPhase.Pending in *. lia. }
  destruct (Hi Hf Hgp) as (<- & <- & <-). auto.
Qed.

(** Progress: replaying protocol events never moves the phase back, never
    forgets a delivered identity, and as long as the initial exchange is pending
    keeps its packet, packet identity and covered identities unchanged: what is
    retried is what was frozen. *)
Theorem replay_progress f j g
    (Hok : sync_ok f) (Hp : Forall protocol_record j) (Hr : replay f j = Some g) :
  initial_sync_phase f ≤ initial_sync_phase g ∧
  delivered_event_ids f `prefix_of` delivered_event_ids g ∧
  (initial_sync_phase f = InitialSyncPhase.Pending →
   initial_sync_phase g = InitialSyncPhase.Pending →
   pending_initial_packet_id g = pending_initial_packet_id f ∧
   pending_initial_packet g = pending_initial_packet f ∧
   pending_initial_covered_event_ids g = pending_initial_covered_event_ids f).
Proof.
  assert (progress f g) as []; [|done].
  revert f Hok Hr. induction Hp as [|r j Hr _ IH]; intros f Hok H; cbn [replay] in H.
  { simplify_eq. by split. }
  destruct (step f r) as [h|] eqn:Hs; [|done].
  apply step_LinkSync in Hs as (e & He & Hc & Ha).
  pose proof (Apply_sync_ok f e h Hok (Hr e He) Hc Ha).
  eapply progress_trans; [done| |by apply IH]. exact (Apply_progress f e h Hok (Hr e He) Hc Ha).
Qed.

(** One outstanding event: while an event packet is outstanding no other can
    be frozen: any replay of protocol events that does not complete it leaves its
    bytes, identity and packet identity as they were; and completing it records
    its identity as delivered and clears it. *)
Theorem outstanding_event_stable f j g
    (Hok : sync_ok f) (Hp : Forall protocol_record j)
    (Hpend : HasPendingEvent f = true) (Hr : replay f j = Some g) :
  (Forall (λ r, ev_object (event r) ≠ Some CompleteIncrementalEventSyncEvent) j →
     pending_event_packet_id g = pending_event_packet_id f ∧
     pending_event_identity g = pending_event_identity f ∧
     pending_event_packet g = pending_event_packet f) ∧
  (∀ h, Apply_LinkSync f CompleteIncrementalEventSyncEvent = Some h →
     HasDelivered h (pending_event_identity f) = true ∧ HasPendingEvent h = false).
Proof.
  split.
  - revert f Hok Hpend Hr. induction Hp as [|r j Hr _ IH]; intros f Hok Hpend H Hn;
      cbn [replay] in H; [by simplify_eq|].
    inversion_clear Hn as [|?? Hne Hn'].
    destruct (step f r) as [h|] eqn:Hs; [|done].
    apply step_LinkSync in Hs as (e & He & Hc & Ha). rewrite He in Hne.
    assert (pending_event_packet_id h = pending_event_packet_id f ∧
      pending_event_identity h = pending_event_identity f ∧
      pending_event_packet h = pending_event_packet f) as (Hi1 & Hi2 & Hi3).
    { pose proof (Hr e He) as Hpe.
      destruct e as [|id p c| |pid|d|id i p|]; simpl in Hpe, Hc, Ha; [done|..|done];
        unfold Apply_BeginInitial, Apply_CompleteInitial, Apply_NoteReceived,
          Apply_CompleteFromSnapshot, Apply_BeginIncremental in *;
        repeat handler; try done. by rewrite Hpend in *. }
    rewrite <-Hi1, <-Hi2, <-Hi3. apply IH; [| |done|done].
    + exact (Apply_sync_ok f e h Hok (Hr e He) Hc Ha).
    + unfold HasPendingEvent in *. by rewrite Hi1.
  - simpl. unfold Apply_CompleteIncremental. rewrite Hpend. intros h [= <-].
    unfold HasPendingEvent, HasDelivered; simpl. rewrite ObjId_none_invalid.
    split; [|done]. rewrite !existsb_delivered. apply bool_decide_eq_true.
    case_bool_decide; [done|]. set_solver.
Qed.
End protocol.

(** ** A relationship's history *)
Module Examples.
Import Aether.Demo.

Definition of_events (l : list LinkSyncEvent) : list (EventRecord LinkSyncEvent) :=
  (λ e, mkEventRecord (mkEventPtr true (Some e) (Some 1)) empty_identity
          (mkSharedEventOrder 1) 1) <$> l.

Definition id1 := mkSharedEventId "alice" 1.
Definition id2 := mkSharedEventId "alice" 2.

(** The initial exchange covers event 1; event 2 is then frozen. *)
Definition initial : list LinkSyncEvent :=
  [BeginInitialSyncEvent 500 [1; 2] [id1]].
Definition rest : list LinkSyncEvent :=
  [CompleteInitialSyncEvent; BeginIncrementalEventSyncEvent 501 id2 [3; 4]].

Definition state_after (l : list LinkSyncEvent) : LinkSyncFields :=
  default (new_link_sync 7 (Some 70)) (replay (new_link_sync 7 (Some 70)) (of_events l)).

Lemma of_events_protocol l :
  Forall protocol_event l → Forall protocol_record (of_events l).
Proof.
  intros Hl. apply list.Forall_fmap. eapply list.Forall_impl; [exact Hl|].
  intros e He e' [= <-]. exact He.
Qed.

Lemma protocol_all : Forall protocol_record (of_events (initial ++ rest)).
Proof. apply of_events_protocol. repeat constructor. Qed.

Lemma replay_sync_ok_witness :
  replay (new_link_sync 7 (Some 70)) (of_events (initial ++ rest)) =
    Some (state_after (initial ++ rest)) ∧
  pending_event_packet (state_after (initial ++ rest)) = [3; 4] ∧
  delivered_event_ids (state_after (initial ++ rest)) = [id1] ∧
  sync_ok (state_after (initial ++ rest)).
Proof.
  split; [vm_compute; reflexivity|]. split; [vm_compute; reflexivity|].
  split; [vm_compute; reflexivity|].
  apply (replay_sync_ok 7 (Some 70) (of_events (initial ++ rest))).
  - exact protocol_all.
  - vm_compute. reflexivity.
Defined.

Lemma state_initial_ok : sync_ok (state_after initial).
Proof.
  apply (replay_keeps_ok (new_link_sync 7 (Some 70)) (of_events initial)).
  - apply new_link_sync_ok.
  - apply of_events_protocol. repeat constructor.
  - vm_compute. reflexivity.
Qed.

(** Receipts do not disturb a pending exchange's frozen packet. *)
Lemma replay_progress_witness :
  initial_sync_phase (state_after initial) = InitialSyncPhase.Pending ∧
  initial_sync_phase (state_after initial) ≤
    initial_sync_phase (state_after (initial ++ rest)) ∧
  delivered_event_ids (state_after initial) `prefix_of`
    delivered_event_ids (state_after (initial ++ rest)).
Proof.
  destruct (replay_progress (state_after initial) (of_events rest)
    (state_after (initial ++ rest))) as (Hp & Hd & _).
  - exact state_initial_ok.
  - apply of_events_protocol. repeat constructor.
  - vm_compute. reflexivity.
  - split; [vm_compute; reflexivity|]. split; [exact Hp|exact Hd].
Defined.

(** A second snapshot receipt, replayed while the packet of event 2 is outstanding. *)
Definition after_receipt : LinkSyncFields :=
  state_after (initial ++ rest ++ [NoteInitialSyncReceivedEvent 9]).

Lemma outstanding_event_stable_witness :
  replay (state_after (initial ++ rest)) (of_events [NoteInitialSyncReceivedEvent 9]) =
    Some after_receipt ∧
  pending_event_packet after_receipt = pending_event_packet (state_after (initial ++ rest)).
Proof.
  split; [vm_compute; reflexivity|].
  destruct (outstanding_event_stable (state_after (initial ++ rest))
    (of_events [NoteInitialSyncReceivedEvent 9]) after_receipt) as [Hs _].
  - apply (replay_keeps_ok (new_link_sync 7 (Some 70)) (of_events (initial ++ rest))).
    + apply new_link_sync_ok.
    + exact protocol_all.
    + vm_compute. reflexivity.
  - apply of_events_protocol. repeat constructor.
  - vm_compute. reflexivity.
  - vm_compute. reflexivity.
  - apply Hs. repeat constructor. discriminate.
Defined.
End Examples.
