(* ===== verification/SharedNode.v ===== *)
(** * Shared nodes (shared_node.h, shared_node.cpp)

    A [SharedNode] keeps the shared topology ([shares]), one local
    [LinkSyncState] per open Share relationship, and the fields of the concrete
    node class ([node_app]), which has events of its own.  Topology changes are events.

    Synchronization states are nested nodes here: a [LocalPtr] names one object
    of the replica's Domain, and no other object refers to it.  The identifiers
    that object creation generates come from [GenerateUnique]; [ids_drawn] counts
    how many this node has drawn. *)
From S2P Require Import Prelude Aether SharedEvent Node LinkSync NodeTheory.

(** The replica's Domain and its identifier generator ([ObjId::GenerateUnique],
    a service of the object system). *)
Class Replica := {
  replica_domain : Z;
  GenerateUnique : nat → Z;
  GenerateUnique_distinct (i j : nat) : i ≠ j → GenerateUnique i ≠ GenerateUnique j
}.

(** ** Data *)
Module ShareAccess.
Definition ReadWrite : Z := 0.
Definition ReadOnly : Z := 1.
End ShareAccess.

(** [link]: the identifier when the pointer is valid. *)
Record Share := mkShare { share_id : Z; link : option Z; access : Z }.

#[export] Instance Share_eq_dec : EqDecision Share.
Proof. solve_decision. Defined.

(** An entry of [link_sync_states] is [None] when the pointer is invalid. *)
Record SharedFields (A : Type) := mkShared {
  shares : list Share;
  link_sync_states : list (option SyncNode);
  node_app : A;
  ids_drawn : nat
}.
Arguments mkShared {A}.
Arguments shares {A}.
Arguments link_sync_states {A}.
Arguments node_app {A}.
Arguments ids_drawn {A}.

(** The topology events with the identifier of the event object where [Apply]
    uses it, and the events of the concrete class. *)
Inductive SharedNodeEvent (AE : Type) :=
| AddShareEvent (obj_id : Z) (link : option Z) (access : Z)
| RemoveShareEvent (share_id : Z)
| ChangeShareAccessEvent (share_id : Z) (access : Z)
| AppEvent (e : AE).
Arguments AddShareEvent {AE}.
Arguments RemoveShareEvent {AE}.
Arguments ChangeShareAccessEvent {AE}.
Arguments AppEvent {AE}.

(** The node. *)
Abbreviation SharedNode A AE := (Node (SharedFields A) (SharedNodeEvent AE)).

(** First index whose element satisfies [p], the length when there is none. *)
Fixpoint find_index {X} (p : X → bool) (l : list X) : nat :=
  match l with
  | [] => 0
  | x :: l => if p x then 0 else S (find_index p l)
  end.

Section operations.
  Context {ids : AetherIds} {rep : Replica}.
  Context {A AE : Type} `{!NodeKind A AE}.
  Implicit Types f : SharedFields A.

(** ** Queries *)

Definition FindShareIndex f (link_id : Z) : nat :=
  find_index (λ s, bool_decide (link s = Some link_id)) (shares f).

Definition FindShareIndexForShare f (id : Z) : nat :=
  find_index (λ s, share_id s =? id) (shares f).

(** Invalid entries are skipped. *)
Definition entry_is (id : Z) (entry : option SyncNode) : bool :=
  match entry with
  | None => false
  | Some s => sync_share_id (fields s) =? id
  end.

Definition FindLinkSyncIndexForShare f (id : Z) : nat :=
  find_index (entry_is id) (link_sync_states f).

(** ** Apply *)

Definition set_shares f s := mkShared s (link_sync_states f) (node_app f) (ids_drawn f).
Definition set_states f s := mkShared (shares f) s (node_app f) (ids_drawn f).

(** The [LinkSyncState] a relationship starts with: created in the node's Domain
    with its configuration, then made a node with a base of its own. *)
Definition create_link_sync (id : Z) (lnk : option Z) (drawn : nat)
    : option SyncNode :=
  InitializeRuntimeNode
    (new_node (GenerateUnique drawn) (Some replica_domain) (new_link_sync id lnk))
    (GenerateUnique (S drawn)).

Definition Apply_AddShare f (event_id : Z) (lnk : option Z) (acc : Z)
    : option (SharedFields A) :=
  link_id ← lnk;
  assert! ObjId_is_valid event_id ;;
  assert! (FindShareIndexForShare f event_id =? length (shares f))%nat ;;
  assert! (FindShareIndex f link_id =? length (shares f))%nat ;;
  let f := set_shares f (shares f ++ [mkShare event_id lnk acc]) in
  if (length (link_sync_states f) <=? FindLinkSyncIndexForShare f event_id)%nat then
    state ← create_link_sync event_id lnk (ids_drawn f);
    Some (mkShared (shares f) (link_sync_states f ++ [Some state]) (node_app f)
            (ids_drawn f + 2))
  else Some f.

(** [v.erase(v.begin() + i)] *)
Definition erase {X} (i : nat) (l : list X) : list X := take i l ++ drop (S i) l.

Definition Apply_RemoveShare f (id : Z) : option (SharedFields A) :=
  let index := FindShareIndexForShare f id in
  assert! (index <? length (shares f))%nat ;;
  let f := set_shares f (erase index (shares f)) in
  let sync_index := FindLinkSyncIndexForShare f id in
  if (sync_index <? length (link_sync_states f))%nat
  then Some (set_states f (erase sync_index (link_sync_states f)))
  else Some f.

Definition Apply_ChangeShareAccess f (id acc : Z) : option (SharedFields A) :=
  let index := FindShareIndexForShare f id in
  s ← shares f !! index;
  Some (set_shares f (<[index := mkShare (share_id s) (link s) acc]> (shares f))).

Definition Apply_Shared f (e : SharedNodeEvent AE) : option (SharedFields A * bool) :=
  match e with
  | AddShareEvent id l a => f ← Apply_AddShare f id l a; Some (f, true)
  | RemoveShareEvent id => f ← Apply_RemoveShare f id; Some (f, true)
  | ChangeShareAccessEvent id a => f ← Apply_ChangeShareAccess f id a; Some (f, true)
  | AppEvent e =>
      '(a, noted) ← ApplyTo (node_app f) e;
      Some (mkShared (shares f) (link_sync_states f) a (ids_drawn f), noted)
  end.

(** The topology events have no [CanApply]. *)
Definition CanApply_Shared f (e : SharedNodeEvent AE) : bool :=
  match e with AppEvent e => CanApplyTo (node_app f) e | _ => true end.

(** [StashLocalPersistentAcrossRebuild] then the load then
    [RestoreLocalPersistentAcrossRebuild]: the valid live states replace the
    loaded ones. *)
Definition Stash f : list (option SyncNode) :=
  List.filter (λ e, match e with Some _ => true | None => false end)
    (link_sync_states f).

Definition CarryLocal_Shared (live loaded : SharedFields A) : SharedFields A :=
  mkShared (shares loaded) (Stash live) (CarryLocal (node_app live) (node_app loaded))
    (ids_drawn live).

#[export] Instance Shared_kind : NodeKind (SharedFields A) (SharedNodeEvent AE) := {|
  CanApplyTo := CanApply_Shared;
  ApplyTo := Apply_Shared;
  MatchesSharedMetadata e i o :=
    match e with AppEvent e => MatchesSharedMetadata e i o | _ => true end;
  SaveLoad f := mkShared (shares f) (link_sync_states f) (SaveLoad (node_app f)) (ids_drawn f);
  CarryLocal := CarryLocal_Shared
|}.

(** ** Operations *)

Implicit Types n : SharedNode A AE.

(** [new_id] is the identifier of the created event. *)
Definition AddShare n (lnk : option Z) (acc : Z) (new_id : Z) (now : Readings)
    : option (SharedNode A AE) :=
  link_id ← lnk;
  if (FindShareIndex (fields n) link_id <? length (shares (fields n)))%nat
  then Some n
  else Commit n (created n (AddShareEvent new_id lnk acc)) now.

Definition RemoveShare n (lnk : option Z) (now : Readings) : option (SharedNode A AE) :=
  link_id ← lnk;
  match shares (fields n) !! FindShareIndex (fields n) link_id with
  | None => Some n
  | Some s => Commit n (created n (RemoveShareEvent (share_id s))) now
  end.

Definition SetShareAccess n (lnk : option Z) (acc : Z) (now : Readings)
    : option (SharedNode A AE) :=
  link_id ← lnk;
  s ← shares (fields n) !! FindShareIndex (fields n) link_id;
  if access s =? acc then Some n
  else Commit n (created n (ChangeShareAccessEvent (share_id s) acc)) now.

(** The state of an open relationship, and writing it back through the pointer. *)
Definition sync_state f (id : Z) : option SyncNode :=
  e ← link_sync_states f !! FindLinkSyncIndexForShare f id; e.

Definition put_sync_state f (id : Z) (s : SyncNode) : SharedFields A :=
  set_states f (<[FindLinkSyncIndexForShare f id := Some s]> (link_sync_states f)).

Definition SetInitialSyncPhase n (lnk : option Z) (phase : Z) (now : Readings)
    : option (SharedNode A AE) :=
  link_id ← lnk;
  s ← shares (fields n) !! FindShareIndex (fields n) link_id;
  state ← sync_state (fields n) (share_id s);
  state ← LinkSync_SetInitialSyncPhase state phase now;
  Some (set_fields n (put_sync_state (fields n) (share_id s) state)).

Definition GetInitialSyncPhase n (lnk : option Z) : option Z :=
  link_id ← lnk;
  Some match shares (fields n) !! FindShareIndex (fields n) link_id with
       | None => InitialSyncPhase.NotStarted
       | Some s =>
           match sync_state (fields n) (share_id s) with
           | None => InitialSyncPhase.NotStarted
           | Some state => initial_sync_phase (fields state)
           end
       end.
End operations.

(** ** Lemmas on indices *)
Section find_index.
  Context {X : Type}.
  Implicit Types (p : X → bool) (l : list X).

Lemma find_index_length p l : (find_index p l ≤ length l)%nat.
Proof. induction l as [|x l IH]; simpl; [done|]. case_match; lia. Qed.

Lemma find_index_all_false p l :
  find_index p l = length l ↔ ∀ x, x ∈ l → p x = false.
Proof.
  induction l as [|x l IH]; simpl; [set_solver|].
  destruct (p x) eqn:Hx; split.
  - discriminate.
  - intros H. specialize (H x ltac:(set_solver)). congruence.
  - intros H%eq_add_S y [->|Hy]%elem_of_cons; [done|]. by apply IH.
  - intros H. f_equal. apply IH. set_solver.
Qed.

Lemma find_index_lookup p l x :
  l !! find_index p l = Some x → p x = true.
Proof.
  induction l as [|y l IH]; simpl; [done|]. destruct (p y) eqn:Hy; [|done].
  by intros [= <-].
Qed.

Lemma find_index_app p l k :
  find_index p (l ++ k) =
    if (find_index p l <? length l)%nat then find_index p l
    else (length l + find_index p k)%nat.
Proof.
  induction l as [|x l IH]; [done|]. cbn [app find_index length].
  destruct (p x); [reflexivity|]. rewrite IH.
  change (S (find_index p l) <? S (length l))%nat with (find_index p l <? length l)%nat.
  by case_match.
Qed.

Lemma find_index_is_Some p l :
  is_Some (l !! find_index p l) ↔ (find_index p l < length l)%nat.
Proof. apply lookup_lt_is_Some. Qed.

(** Replacing the first accepted element by an accepted one. *)
Lemma find_index_replace p l y :
  p y = true → find_index p (<[find_index p l := y]> l) = find_index p l.
Proof.
  intros Hy. induction l as [|x l IH]; simpl; [done|]. destruct (p x) eqn:Hx; simpl.
  - by rewrite Hy.
  - by rewrite Hx, IH.
Qed.

Lemma erase_delete i l : erase i l = delete i l.
Proof. symmetry. apply delete_take_drop. Qed.

Lemma erase_ge i l : (length l ≤ i)%nat → erase i l = l.
Proof.
  intros Hi. unfold erase. rewrite firstn_all2, skipn_all2 by lia. apply app_nil_r.
Qed.

Lemma erase_Permutation i l x : l !! i = Some x → l ≡ₚ x :: erase i l.
Proof. rewrite erase_delete. apply delete_Permutation. Qed.

(** Erasing an element the predicate does not accept keeps the first accepted
    one. *)
Lemma find_index_erase p i l y :
  l !! i = Some y → p y = false →
  erase i l !! find_index p (erase i l) = l !! find_index p l.
Proof.
  rewrite erase_delete. revert i; induction l as [|x l IH]; intros [|i] Hi Hy;
    simplify_eq/=; [by rewrite Hy|].
  destruct (p x); simpl; [done|]. by apply IH.
Qed.
End find_index.
