(* ===== verification/SharedNodeTheory.v ===== *)
(** * What shared nodes guarantee

    The laws of [NodeKind] for the shared fields, the topology invariant, the
    survival of local synchronization state across rebuilds, the independence of
    successive relationships over one Link, and what an unchecked topology event
    does to a replay. *)
From S2P Require Import Prelude Aether SharedEvent Node LinkSync NodeTheory SharedNode.

Section theory.
  Context {ids : AetherIds} {rep : Replica}.
  Context {A AE : Type} `{!NodeKind A AE}.
  Implicit Types f g : SharedFields A.
  Implicit Types e : SharedNodeEvent AE.
  Implicit Types j : list (EventRecord (SharedNodeEvent AE)).

(** ** Creation of synchronization states *)

Lemma create_link_sync_spec id lnk drawn :
  ∃ s, create_link_sync id lnk drawn = Some s ∧ fields s = new_link_sync id lnk ∧
    journal s = [] ∧ Consistent s ∧ domain s = Some replica_domain ∧
    suppress_materialized_change_ s = false.
Proof.
  unfold create_link_sync, InitializeRuntimeNode, CaptureBaseState. simpl.
  assert ((GenerateUnique (S drawn) =? GenerateUnique drawn) = false) as ->.
  { apply Z.eqb_neq, GenerateUnique_distinct. lia. }
  eexists. split; [reflexivity|]. simpl. repeat (split; [done|]).
  split; [split|done]; [done| |by left]. simpl. by eexists.
Qed.

(** ** Equivalence: the shared part of the fields *)
  Context `{!Equiv A, !NodeLaws A AE}.

#[export] Instance Shared_equiv : Equiv (SharedFields A) :=
  λ f g, shares f = shares g ∧ node_app f ≡ node_app g.

Lemma Apply_Shared_equiv f g e :
  f ≡ g → option_Forall2 (λ p q, p.1 ≡ q.1) (Apply_Shared f e) (Apply_Shared g e).
Proof.
  intros [Hs Ha]. destruct e as [id l a|id|id a|e]; simpl.
  - unfold Apply_AddShare, FindShareIndexForShare, FindShareIndex. rewrite Hs.
    destruct l as [l|]; [cbn [mbind option_bind]|constructor].
    destruct (ObjId_is_valid id); [|constructor].
    repeat (case_match; [|constructor]).
    destruct (create_link_sync_spec id (Some l) (ids_drawn f)) as (sf & Hf & _).
    destruct (create_link_sync_spec id (Some l) (ids_drawn g)) as (sg & Hg & _).
    unfold set_shares; cbn [ids_drawn shares link_sync_states node_app]. rewrite Hf, Hg.
    cbn [mbind option_bind].
    repeat case_match; simplify_eq/=; constructor; by split.
  - unfold Apply_RemoveShare, FindShareIndexForShare. rewrite Hs.
    case_match; [|constructor]. repeat case_match; simplify_eq/=; constructor; by split.
  - unfold Apply_ChangeShareAccess, FindShareIndexForShare. rewrite Hs.
    destruct (shares g !! _); simpl; constructor. by split.
  - destruct (ApplyTo_equiv (node_app f) (node_app g) e Ha) as [[a1 b1] [a2 b2] Heq|]; simpl; constructor.
    by split.
Qed.

#[export] Instance Shared_laws : NodeLaws (SharedFields A) (SharedNodeEvent AE).
Proof.
  split.
  - split.
    + intros f. by split.
    + intros f g [? ?]. by split.
    + intros f g h [H1 H2] [H3 H4]. split; [congruence|by rewrite H2].
  - intros f g e [_ Ha]. destruct e as [| | |e]; try done.
    apply (CanApplyTo_equiv (node_app f) (node_app g) e Ha).
  - apply Apply_Shared_equiv.
  - intros f. split; [done|]. apply SaveLoad_equiv.
  - intros f g. split; [done|]. apply CarryLocal_equiv.
Qed.

(** ** Synchronization states by relationship *)

Definition entry_share (e : option SyncNode) : option Z :=
  s ← e; Some (sync_share_id (fields s)).

(** The relationships that have a local state, in order. *)
Definition sync_ids f : list Z := omap entry_share (link_sync_states f).

Lemma sync_state_share f id s :
  sync_state f id = Some s → sync_share_id (fields s) = id.
Proof.
  unfold sync_state, FindLinkSyncIndexForShare.
  destruct (_ !! _) as [[s'|]|] eqn:E; [|done..]. intros [= ->].
  apply find_index_lookup in E. by apply Z.eqb_eq in E.
Qed.

Lemma sync_state_is_Some f id :
  is_Some (sync_state f id) ↔
  (FindLinkSyncIndexForShare f id < length (link_sync_states f))%nat.
Proof.
  unfold sync_state, FindLinkSyncIndexForShare. rewrite <-find_index_is_Some.
  destruct (_ !! _) as [[s|]|] eqn:E; simpl; [by split| |by split].
  by apply find_index_lookup in E.
Qed.

Lemma elem_of_sync_ids f id : id ∈ sync_ids f ↔ is_Some (sync_state f id).
Proof.
  rewrite sync_state_is_Some. unfold sync_ids, FindLinkSyncIndexForShare.
  rewrite list_elem_of_omap. split.
  - intros ([s|] & Hin & Hs); [|done]. simplify_eq/=.
    pose proof (find_index_length (entry_is (sync_share_id (fields s)))
      (link_sync_states f)).
    destruct (decide (find_index (entry_is (sync_share_id (fields s)))
      (link_sync_states f) = length (link_sync_states f))) as [E|]; [|lia].
    rewrite find_index_all_false in E. specialize (E _ Hin). by apply Z.eqb_neq in E.
  - intros Hlt. apply find_index_is_Some in Hlt as [[s|] E].
    2: by apply find_index_lookup in E.
    exists (Some s). split; [by eapply list_elem_of_lookup_2|]. simpl.
    apply find_index_lookup, Z.eqb_eq in E. by rewrite E.
Qed.

(** Adding at the end keeps the first entries. *)
Lemma sync_state_snoc f g s id :
  link_sync_states g = link_sync_states f ++ [Some s] →
  sync_state g id = match sync_state f id with
    | Some x => Some x
    | None => if sync_share_id (fields s) =? id then Some s else None
    end.
Proof.
  intros Hl. pose proof (sync_state_is_Some f id) as His. unfold sync_state in *.
  unfold FindLinkSyncIndexForShare in *. rewrite Hl, find_index_app.
  destruct (Nat.ltb_spec (find_index (entry_is id) (link_sync_states f)) (length (link_sync_states f))) as [Hlt|Hge].
  - rewrite lookup_app_l by done. by destruct (proj2 His Hlt) as [x ->].
  - destruct (_ ≫= _) as [x|] eqn:E.
    { assert (is_Some (Some x)) as Hx by by eexists. apply His in Hx. lia. }
    rewrite lookup_app_r by lia. simpl.
    destruct (sync_share_id (fields s) =? id); simpl.
    + replace (_ - _)%nat with 0%nat by lia. done.
    + replace (_ - _)%nat with 1%nat by lia. done.
Qed.

(** Erasing the state of one relationship keeps the others. *)
Lemma sync_state_erase f id id' :
  id ≠ id' →
  sync_state (set_states f (erase (FindLinkSyncIndexForShare f id) (link_sync_states f)))
    id' = sync_state f id'.
Proof.
  intros Hne. unfold sync_state. simpl.
  destruct (link_sync_states f !! FindLinkSyncIndexForShare f id) as [x|] eqn:E.
  - unfold FindLinkSyncIndexForShare at 2. simpl.
    f_equal. eapply find_index_erase; [exact E|].
    apply find_index_lookup in E. destruct x as [s|]; [|done].
    apply Z.eqb_eq in E. apply Z.eqb_neq. congruence.
  - unfold FindLinkSyncIndexForShare at 1. simpl.
    rewrite erase_ge; [done|]. by apply lookup_ge_None.
Qed.

(** ** One topology event *)

Lemma Apply_AddShare_inv f id l a g :
  Apply_AddShare f id l a = Some g →
  ∃ link_id, l = Some link_id ∧ ObjId_is_valid id = true ∧
    (∀ s, s ∈ shares f → share_id s ≠ id ∧ link s ≠ l) ∧
    shares g = shares f ++ [mkShare id l a] ∧ node_app g = node_app f ∧
    ((is_Some (sync_state f id) ∧ link_sync_states g = link_sync_states f) ∨
     (sync_state f id = None ∧
      ∃ s, link_sync_states g = link_sync_states f ++ [Some s] ∧
        fields s = new_link_sync id l ∧ Consistent s)).
Proof.
  unfold Apply_AddShare. destruct l as [l|]; [cbn [mbind option_bind]|done].
  destruct (ObjId_is_valid id) eqn:Hv; [|done].
  destruct (Nat.eqb_spec (FindShareIndexForShare f id) (length (shares f))) as [Hs|];
    [|done].
  destruct (Nat.eqb_spec (FindShareIndex f l) (length (shares f))) as [Hl|]; [|done].
  assert (∀ s, s ∈ shares f → share_id s ≠ id ∧ link s ≠ Some l) as Hnew.
  { intros s Hin. unfold FindShareIndexForShare, FindShareIndex in *.
    rewrite find_index_all_false in Hs, Hl. specialize (Hs s Hin). specialize (Hl s Hin).
    apply Z.eqb_neq in Hs. by apply bool_decide_eq_false in Hl. }
  assert (∀ k, FindLinkSyncIndexForShare (set_shares f k) id =
    FindLinkSyncIndexForShare f id) as Hk by done.
  rewrite Hk. cbn [link_sync_states set_shares].
  pose proof (sync_state_is_Some f id) as His.
  destruct (Nat.leb_spec (length (link_sync_states f)) (FindLinkSyncIndexForShare f id)).
  - destruct (create_link_sync_spec id (Some l) (ids_drawn f)) as (s & Hcs & Hfs & _ & Hc & _).
    cbn [ids_drawn set_shares]. rewrite Hcs. intros [= <-].
    exists l. repeat (split; [done|]). right. split.
    + apply eq_None_not_Some. rewrite His. lia.
    + by exists s.
  - intros [= <-]. exists l. repeat (split; [done|]). left. by rewrite His.
Qed.

Lemma Apply_RemoveShare_inv f id g :
  Apply_RemoveShare f id = Some g →
  ∃ i s, shares f !! i = Some s ∧ share_id s = id ∧ shares g = erase i (shares f) ∧
    node_app g = node_app f ∧
    link_sync_states g = link_sync_states
      (set_states f (erase (FindLinkSyncIndexForShare f id) (link_sync_states f))).
Proof.
  unfold Apply_RemoveShare. case_match eqn:Hlt; [|done]. apply Nat.ltb_lt in Hlt.
  apply find_index_is_Some in Hlt as [s Hs]. intros Hg.
  exists (FindShareIndexForShare f id), s. split; [done|].
  apply find_index_lookup, Z.eqb_eq in Hs. split; [done|]. revert Hg.
  assert (∀ k, FindLinkSyncIndexForShare (set_shares f k) id =
    FindLinkSyncIndexForShare f id) as Hk by done.
  rewrite Hk. cbn [link_sync_states set_shares].
  destruct (Nat.ltb_spec (FindLinkSyncIndexForShare f id) (length (link_sync_states f)));
    intros [= <-]; [done|]. simpl.
  by rewrite (erase_ge _ (link_sync_states f)).
Qed.

(** ** The topology invariant *)

Record topology_ok f : Prop := {
  top_ids : NoDup (share_id <$> shares f);
  top_links : NoDup (link <$> shares f);
  top_valid s : s ∈ shares f → ObjId_is_valid (share_id s) = true ∧ is_Some (link s);
  top_states s : s ∈ shares f → is_Some (sync_state f (share_id s));
  top_sync : NoDup (sync_ids f)
}.

Lemma Apply_AddShare_topology f id l a g :
  topology_ok f → Apply_AddShare f id l a = Some g → topology_ok g.
Proof.
  intros [Hi Hl Hv Hst Hsy] Ha.
  apply Apply_AddShare_inv in Ha as (lid & -> & Hvid & Hnew & Hsh & _ & Hcase).
  assert (∀ s, is_Some (sync_state f s) → is_Some (sync_state g s)) as Hmono.
  { intros s [x Hx]. destruct Hcase as [[_ Hls]|(_ & st & Hls & _)].
    - unfold sync_state, FindLinkSyncIndexForShare in *. rewrite Hls. by exists x.
    - rewrite (sync_state_snoc f g st s Hls), Hx. by eexists. }
  assert (is_Some (sync_state g id)) as Hgid.
  { destruct Hcase as [[? _]|(Hn & st & Hls & Hfs & _)]; [by apply Hmono|].
    rewrite (sync_state_snoc f g st id Hls), Hn, Hfs. simpl.
    rewrite Z.eqb_refl. by eexists. }
  split; rewrite ?Hsh, ?fmap_app.
  - apply list.NoDup_app. split; [done|]. split; [|apply list.NoDup_singleton].
    intros x (s & -> & Hs)%list_elem_of_fmap. simpl. destruct (Hnew s Hs). set_solver.
  - apply list.NoDup_app. split; [done|]. split; [|apply list.NoDup_singleton].
    intros x (s & -> & Hs)%list_elem_of_fmap. simpl. destruct (Hnew s Hs). set_solver.
  - intros s [?| ->%list_elem_of_singleton]%elem_of_app; [auto|].
    by split; [|eexists].
  - intros s [?| ->%list_elem_of_singleton]%elem_of_app; auto.
  - unfold sync_ids. destruct Hcase as [[_ ->]|(Hn & st & -> & Hfs & _)]; [done|].
    rewrite omap_app. simpl. rewrite Hfs. apply list.NoDup_app. split; [done|].
    split; [|apply list.NoDup_singleton].
    intros x Hx ->%list_elem_of_singleton. apply elem_of_sync_ids in Hx.
    simpl in Hx. rewrite Hn in Hx. by destruct Hx.
Qed.

Lemma Apply_RemoveShare_topology f id g :
  topology_ok f → Apply_RemoveShare f id = Some g →
  topology_ok g ∧ sync_state g id = None ∧ (∀ s, s ∈ shares g → share_id s ≠ id).
Proof.
  intros [Hi Hl Hv Hst Hsy] Ha.
  apply Apply_RemoveShare_inv in Ha as (i & s & Hs & Hid & Hsh & _ & Hls).
  pose proof (erase_Permutation i (shares f) s Hs) as Hp. rewrite <-Hsh in Hp.
  rewrite Hp in Hi. rewrite Hp in Hl. simpl in Hi, Hl. apply list.NoDup_cons in Hi as [Hni Hi].
  apply list.NoDup_cons in Hl as [_ Hl]. simpl in Hls.
  assert (∀ x, x ∈ shares g → x ∈ shares f) as Hsub.
  { intros x Hx. rewrite Hp. set_solver. }
  assert (∀ x, x ∈ shares g → share_id x ≠ id) as Hne.
  { intros x Hx Heq. apply Hni. rewrite Hid, <-Heq. apply list_elem_of_fmap. eauto. }
  assert (∀ id', id ≠ id' → sync_state g id' = sync_state f id') as Hother.
  { intros id' Hd. rewrite <-(sync_state_erase f id id' Hd).
    unfold sync_state, FindLinkSyncIndexForShare. by rewrite Hls. }
  assert (NoDup (sync_ids g) ∧ id ∉ sync_ids g) as [Hng Hnot].
  { unfold sync_ids in *. rewrite Hls.
    destruct (link_sync_states f !! FindLinkSyncIndexForShare f id) as [x|] eqn:Ex.
    - rewrite (erase_Permutation _ _ _ Ex) in Hsy.
      apply find_index_lookup in Ex. destruct x as [st|]; [|done].
      apply Z.eqb_eq in Ex. simpl in Hsy. rewrite Ex in Hsy.
      by apply list.NoDup_cons in Hsy as [? ?].
    - apply lookup_ge_None in Ex. rewrite erase_ge by done. split; [done|].
      intros Hin. apply elem_of_sync_ids, sync_state_is_Some in Hin. lia. }
  split; [split|split]; [done|done|auto| |done| |done].
  - intros x Hx. rewrite Hother by (symmetry; auto). auto.
  - apply eq_None_not_Some. by rewrite <-elem_of_sync_ids.
Qed.

Lemma Apply_ChangeShareAccess_topology f id a g :
  topology_ok f → Apply_ChangeShareAccess f id a = Some g → topology_ok g.
Proof.
  intros [Hi Hl Hv Hst Hsy]. unfold Apply_ChangeShareAccess.
  destruct (shares f !! _) as [s|] eqn:Hs; [cbn [mbind option_bind]|done].
  intros [= <-].
  assert (∀ {B} (h : Share → B), h (mkShare (share_id s) (link s) a) = h s →
    h <$> <[FindShareIndexForShare f id := mkShare (share_id s) (link s) a]> (shares f)
    = h <$> shares f) as Hfm.
  { intros B h Hh. rewrite list_fmap_insert, Hh. apply list_insert_id.
    by rewrite list_lookup_fmap, Hs. }
  assert (∀ x, x ∈ <[FindShareIndexForShare f id := mkShare (share_id s) (link s) a]>
    (shares f) → ∃ y, y ∈ shares f ∧ share_id x = share_id y ∧ link x = link y) as Hin.
  { intros x [k Hk]%list_elem_of_lookup_1.
    apply list_lookup_insert_Some in Hk as [(<- & <- & _)|[_ Hk]].
    - exists s. split; [by eapply list_elem_of_lookup_2|done].
    - exists x. split; [by eapply list_elem_of_lookup_2|done]. }
  split; cbn [shares link_sync_states set_shares].
  - by rewrite Hfm.
  - by rewrite Hfm.
  - intros x (y & Hy & -> & ->)%Hin. auto.
  - intros x (y & Hy & -> & _)%Hin. apply (Hst y Hy).
  - done.
Qed.

Lemma Apply_Shared_topology f e g b :
  topology_ok f → Apply_Shared f e = Some (g, b) → topology_ok g.
Proof.
  intros Hok. destruct e as [id l a|id|id a|e]; simpl.
  - destruct (Apply_AddShare f id l a) as [h|] eqn:E; [|done]. intros [= <- <-].
    by eapply Apply_AddShare_topology.
  - destruct (Apply_RemoveShare f id) as [h|] eqn:E; [|done]. intros [= <- <-].
    by eapply Apply_RemoveShare_topology.
  - destruct (Apply_ChangeShareAccess f id a) as [h|] eqn:E; [|done]. intros [= <- <-].
    by eapply Apply_ChangeShareAccess_topology.
  - destruct (ApplyTo (node_app f) e) as [[a' b']|]; [|done]. intros [= <- <-].
    by destruct Hok.
Qed.

Lemma step_Shared f r g :
  step f r = Some g → ∃ e b, ev_object (event r) = Some e ∧
    Apply_Shared f e = Some (g, b).
Proof.
  unfold step. destruct (ev_is_valid _); [|done].
  destruct (ev_object _) as [e|]; [cbn|done].
  destruct (CanApply_Shared f e); [|done].
  destruct (Apply_Shared f e) as [[f' b]|] eqn:Ha; [|done].
  intros [= <-]. by exists e, b.
Qed.

Lemma topology_of_replay f j g :
  topology_ok f → replay f j = Some g → topology_ok g.
Proof.
  intros Hok Hr.
  revert f Hok Hr. induction j as [|r j IH]; intros f Hok Hr; cbn [replay] in Hr;
    [by simplify_eq|].
  destruct (step f r) as [h|] eqn:Hs; [|done].
  apply step_Shared in Hs as (e & b & _ & Ha).
  apply (IH h); [|done]. by eapply Apply_Shared_topology.
Qed.

(** C7. Topology invariant: replaying any journal from fields whose relationships
    have distinct valid identities, distinct Links and one local synchronization
    state each, with no two states for one relationship, gives such fields
    again. *)
Theorem replay_topology_ok f j g
    (Hok : topology_ok f) (Hr : replay f j = Some g) : topology_ok g.
Proof. exact (topology_of_replay f j g Hok Hr). Qed.

(** ** Local synchronization state across rebuilds *)

Definition removes (id : Z) (r : EventRecord (SharedNodeEvent AE)) : Prop :=
  ev_object (event r) = Some (RemoveShareEvent id).

Lemma Apply_Shared_keeps_state f e g b id st :
  Apply_Shared f e = Some (g, b) → e ≠ RemoveShareEvent id →
  sync_state f id = Some st → sync_state g id = Some st.
Proof.
  intros Ha Hne Hst.
  assert (∀ h : SharedFields A, link_sync_states h = link_sync_states f →
    sync_state h id = Some st) as Hsame.
  { intros h Hh. unfold sync_state, FindLinkSyncIndexForShare in *. by rewrite Hh. }
  destruct e as [id' l a|id'|id' a|e]; simpl in Ha.
  - destruct (Apply_AddShare f id' l a) as [h|] eqn:E; [|done]. injection Ha as <- <-.
    apply Apply_AddShare_inv in E as (lid & _ & _ & _ & _ & _ & [[_ Hls]|(_ & s & Hls & _)]).
    + by apply Hsame.
    + by rewrite (sync_state_snoc f h s id Hls), Hst.
  - destruct (Apply_RemoveShare f id') as [h|] eqn:E; [|done]. injection Ha as <- <-.
    apply Apply_RemoveShare_inv in E as (_ & _ & _ & _ & _ & _ & Hls).
    rewrite <-(sync_state_erase f id' id) in Hst by congruence.
    unfold sync_state, FindLinkSyncIndexForShare in *. by rewrite Hls.
  - unfold Apply_ChangeShareAccess in Ha.
    destruct (shares f !! _); [|done]. injection Ha as <- <-. by apply Hsame.
  - destruct (ApplyTo (node_app f) e) as [[a' b']|]; [|done]. injection Ha as <- <-.
    by apply Hsame.
Qed.

Lemma replay_keeps_state f j g id st :
  replay f j = Some g → Forall (λ r, ¬ removes id r) j →
  sync_state f id = Some st → sync_state g id = Some st.
Proof.
  revert f. induction j as [|r j IH]; intros f Hr Hn Hst; cbn [replay] in Hr;
    [by simplify_eq|].
  inversion_clear Hn as [|?? Hnr Hnj].
  destruct (step f r) as [h|] eqn:Hs; [|done].
  apply step_Shared in Hs as (e & b & He & Ha). apply (IH h); [done|done|].
  eapply Apply_Shared_keeps_state; [done| |done]. intros ->. by apply Hnr.
Qed.

Lemma sync_state_Stash live loaded id :
  sync_state (CarryLocal_Shared live loaded) id = sync_state live id.
Proof.
  unfold sync_state, FindLinkSyncIndexForShare, CarryLocal_Shared, Stash. simpl.
  induction (link_sync_states live) as [|[s|] l IH]; simpl; [done| |done].
  by destruct (sync_share_id (fields s) =? id).
Qed.

(** Synchronization progress survives rebuilds: when a consistent shared node
    accepts a record, at the end of its journal or in the middle of it, the local
    state of every relationship that no journal entry removes is exactly the one
    it had: phase, frozen packets, receipts and delivered identities included. *)
Theorem TryInsertEvent_keeps_sync_state
    (n m : SharedNode A AE) r now id st
    (Hc : Consistent n) (Hf : journal_fits n)
    (Hm : TryInsertEvent n r now = Some (true, m))
    (Hn : Forall (λ r, ¬ removes id r) (journal m))
    (Hst : sync_state (fields n) id = Some st) :
  sync_state (fields m) id = Some st.
Proof.
  destruct (TryInsertEvent_exact n r now m Hc Hf Hm) as [Hj [[Happ Hr]|(b & Hb & Hr)]].
  - rewrite Hj, Happ, list.Forall_app in Hn. destruct Hn as [_ Hn].
    by eapply replay_keeps_state.
  - rewrite Hj in Hn. eapply replay_keeps_state; [done|done|].
    exact (eq_trans (sync_state_Stash (fields n) (base_stored b) id) Hst).
Qed.

(** Relationship lifetimes: removing a relationship drops its local state and
    keeps every other one, and opening another relationship, over the same Link
    or not, starts from a fresh state: not started, nothing frozen, nothing
    delivered. *)
Theorem readded_share_is_fresh f id id' l a g h
    (Hok : topology_ok f)
    (Hrem : Apply_RemoveShare f id = Some g)
    (Hadd : Apply_AddShare g id' l a = Some h)
    (Hnew : sync_state f id' = None ∨ id' = id) :
  sync_state g id = None ∧
  (∀ o, o ≠ id → sync_state g o = sync_state f o) ∧
  (∃ st, sync_state h id' = Some st ∧ fields st = new_link_sync id' l) ∧
  (∀ o, o ≠ id' → sync_state h o = sync_state g o).
Proof.
  destruct (Apply_RemoveShare_topology f id g Hok Hrem) as (_ & Hnone & _).
  assert (∀ o, o ≠ id → sync_state g o = sync_state f o) as Hother.
  { intros o Ho. apply Apply_RemoveShare_inv in Hrem as (_ & _ & _ & _ & _ & _ & Hls).
    rewrite <-(sync_state_erase f id o) by congruence.
    unfold sync_state, FindLinkSyncIndexForShare. by rewrite Hls. }
  assert (sync_state g id' = None) as Hg.
  { destruct (decide (id' = id)) as [->|Hne]; [done|].
    rewrite Hother by done. by destruct Hnew. }
  split; [done|]. split; [done|].
  apply Apply_AddShare_inv in Hadd as (_ & _ & _ & _ & _ & _ & [[Hs _]|(_ & st & Hls & Hfs & _)]).
  { rewrite Hg in Hs. by destruct Hs. }
  split.
  - exists st. split; [|done]. rewrite (sync_state_snoc g h st id' Hls), Hg, Hfs. simpl.
    by rewrite Z.eqb_refl.
  - intros o Ho. rewrite (sync_state_snoc g h st o Hls), Hfs. simpl.
    destruct (sync_state g o); [done|]. destruct (Z.eqb_spec id' o); congruence.
Qed.

(** Unchecked topology events: the topology events have no [CanApply], so a
    replay over a removal of a relationship that is not open fails an assertion
    instead of returning false, for any node whose base has loaded. *)
Theorem TryReplayFromBase_unknown_share (n : SharedNode A AE) b r j id
    (Hb : base n = Some b)
    (Hj : journal n = r :: j)
    (Hv : ev_is_valid (event r) = true)
    (He : ev_object (event r) = Some (RemoveShareEvent id))
    (Hs : ∀ s, s ∈ shares (base_stored b) → share_id s ≠ id) :
  TryReplayFromBase n = None.
Proof.
  unfold TryReplayFromBase, TryRebuildFromBaseAndReplay, TryReplayJournal,
    TryEnsureCurrentGeneration. rewrite Hb. cbn [mbind option_bind].
  simpl. rewrite drop_0, Hj. cbn [EnsureLoop]. rewrite Hv, He. simpl.
  unfold ApplyEvent. simpl.
  assert (Apply_RemoveShare (CarryLocal_Shared (fields n) (base_stored b)) id = None)
    as ->; [|done].
  unfold Apply_RemoveShare.
  destruct (Nat.ltb_spec (FindShareIndexForShare (CarryLocal_Shared (fields n)
    (base_stored b)) id) (length (shares (CarryLocal_Shared (fields n)
    (base_stored b))))) as [Hlt|]; [|done].
  apply find_index_is_Some in Hlt as [s Hl].
  pose proof (find_index_lookup _ _ _ Hl) as Hid%Z.eqb_eq.
  by apply list_elem_of_lookup_2, Hs in Hl.
Qed.
End theory.

(** ** A concrete replica *)
Module Examples.
Import Aether.Demo.
#[local] Existing Instance NodeTheory.Examples.log_kind.
#[local] Existing Instance NodeTheory.Examples.log_equiv.
#[local] Existing Instance NodeTheory.Examples.log_laws.

Definition generate (i : nat) : Z := 1000 + Z.of_nat i.
Lemma generate_distinct (i j : nat) : i ≠ j → generate i ≠ generate j.
Proof. unfold generate. lia. Qed.

#[local] Instance replica : Replica := {|
  replica_domain := 1;
  GenerateUnique := generate;
  GenerateUnique_distinct := generate_distinct
|}.

Abbreviation Event := (SharedNodeEvent Z).

Definition rec (t : Z) (e : Event) : EventRecord Event :=
  mkEventRecord (mkEventPtr true (Some e) (Some 1)) empty_identity
    (mkSharedEventOrder t) 5.

Definition empty_fields : SharedFields (list Z) := mkShared [] [] [] 0.

Definition fresh : SharedNode (list Z) Z :=
  set_base (new_node 100 (Some 1) empty_fields) (Some (mkBase 101 true empty_fields)).

Definition after (rs : list (EventRecord Event)) : SharedNode (list Z) Z :=
  match insert_all fresh ((λ r, (r, 50)) <$> rs) with Some (_, n) => n | None => fresh end.

(** Relationship 7 over Link 70, then relationship 8 over Link 80. *)
Definition opened : SharedNode (list Z) Z :=
  after [rec 10 (AddShareEvent 7 (Some 70) 0); rec 20 (AddShareEvent 8 (Some 80) 0)].

(** Relationship 7 made progress since. *)
Definition progressed : SharedNode (list Z) Z :=
  set_fields opened
    match sync_state (fields opened) 7 with
    | Some st => put_sync_state (fields opened) 7
        (set_fields st (LinkSync.Examples.state_after LinkSync.Examples.initial))
    | None => fields opened
    end.

Lemma progressed_consistent : Consistent progressed.
Proof.
  split; [vm_compute; reflexivity| |right; vm_compute; reflexivity].
  eexists. split; [vm_compute; reflexivity|]. split; vm_compute; reflexivity.
Qed.

Lemma empty_topology : topology_ok empty_fields.
Proof.
  split.
  - constructor.
  - constructor.
  - intros s Hs. by apply elem_of_nil in Hs.
  - intros s Hs. by apply elem_of_nil in Hs.
  - constructor.
Qed.

Lemma replay_topology_ok_witness :
  is_Some (replay empty_fields (journal opened)) ∧
  ∀ g, replay empty_fields (journal opened) = Some g → topology_ok g.
Proof.
  split; [vm_compute; by eexists|].
  intros g Hg. exact (replay_topology_ok empty_fields (journal opened) g empty_topology Hg).
Defined.

(** A message at time 15 is inserted before the second relationship: the journal
    is rebuilt, and relationship 7 keeps its progress. *)
Lemma TryInsertEvent_keeps_sync_state_witness :
  ∃ m, TryInsertEvent progressed (rec 15 (AppEvent 3)) 60 = Some (true, m) ∧
    node_app (fields m) = [3] ∧
    sync_state (fields m) 7 = sync_state (fields progressed) 7.
Proof.
  eexists. split; [vm_compute; reflexivity|]. split; [vm_compute; reflexivity|].
  eapply (TryInsertEvent_keeps_sync_state progressed _ (rec 15 (AppEvent 3)) 60 7).
  - exact progressed_consistent.
  - vm_compute. reflexivity.
  - vm_compute. reflexivity.
  - repeat constructor; intros [=].
  - vm_compute. reflexivity.
Defined.

Lemma readded_share_is_fresh_witness :
  ∃ f g h, replay empty_fields (journal opened) = Some f ∧
    Apply_RemoveShare f 7 = Some g ∧
    Apply_AddShare g 9 (Some 70) 0 = Some h ∧
    ∃ st, sync_state h 9 = Some st ∧ fields st = new_link_sync 9 (Some 70).
Proof.
  eexists _, _, _. split; [vm_compute; reflexivity|].
  split; [vm_compute; reflexivity|]. split; [vm_compute; reflexivity|].
  refine (proj1 (proj2 (proj2 (readded_share_is_fresh _ 7 9 (Some 70) 0 _ _ _ _ _ _)))).
  - apply (topology_of_replay empty_fields (journal opened) _ empty_topology).
    vm_compute. reflexivity.
  - vm_compute. reflexivity.
  - vm_compute. reflexivity.
  - left. vm_compute. reflexivity.
Defined.

Lemma TryReplayFromBase_unknown_share_witness :
  TryReplayFromBase (set_journal fresh [rec 10 (RemoveShareEvent 7)]) = None.
Proof.
  apply (TryReplayFromBase_unknown_share (set_journal fresh [rec 10 (RemoveShareEvent 7)])
    (mkBase 101 true empty_fields) (rec 10 (RemoveShareEvent 7)) [] 7).
  - reflexivity.
  - reflexivity.
  - reflexivity.
  - reflexivity.
  - intros s Hs. by apply elem_of_nil in Hs.
Defined.
End Examples.
