(* ===== verification/Lifecycle.v ===== *)
(** * Runtime lifecycle (runtime_lifecycle.h, runtime_lifecycle.cpp)

    Three nodes observe one process run: the application's run number, network
    availability, and the registration with the network.  Every process run
    begins with [BeginRuntimeSession]; what a previous run observed is replayed
    from storage but must not be presented as current. *)
From S2P Require Import Prelude SharedEvent Node NodeTheory LinkSync.

(** ** Data *)

(** [NetworkAvailability] and [AetherRegistrationPhase], as their numbers. *)
Definition kInitializing : Z := 0.
Definition kInterfaceUnavailable : Z := 1.
Definition kInternetUnavailable : Z := 2.
Definition kAvailable : Z := 3.
Definition kRegistering : Z := 0.
Definition kRegistered : Z := 1.

Definition NetworkIsOutage (availability : Z) : bool :=
  (availability =? kInterfaceUnavailable) || (availability =? kInternetUnavailable).

Record ApplicationRuntimeState := mkRuntime { runtime_run_id : Z }.
Record NetworkState := mkNetwork { network_run_id : Z; availability : Z }.
Record AetherRegistrationState := mkAether {
  aether_run_id : Z;
  registered_run_id : Z;
  phase : Z;
  uid : string
}.

Inductive RuntimeEvent := ApplicationStartedEvent (run_id : Z).
Inductive NetworkEvent :=
| NetworkInitializingEvent (run_id : Z)
| NetworkInterfaceUnavailableEvent (run_id : Z)
| InternetUnavailableEvent (run_id : Z)
| NetworkAvailableEvent (run_id : Z).
Inductive AetherEvent :=
| AetherRegistrationStartedEvent (run_id : Z)
| AetherRegistrationCompletedEvent (run_id : Z) (uid : string).

(** ** CanApply and Apply

    Every [Apply] starts with [assert(CanApply(event))] and ends with
    [NoteMaterializedChange]. *)

Definition CanApply_Runtime (f : ApplicationRuntimeState) (e : RuntimeEvent) : bool :=
  match e with
  | ApplicationStartedEvent run => negb (run =? 0) && negb (run =? runtime_run_id f)
  end.

Definition Apply_Runtime (f : ApplicationRuntimeState) (e : RuntimeEvent)
    : option ApplicationRuntimeState :=
  assert! CanApply_Runtime f e ;;
  match e with ApplicationStartedEvent run => Some (mkRuntime run) end.

Definition CanApply_Network (f : NetworkState) (e : NetworkEvent) : bool :=
  match e with
  | NetworkInitializingEvent run =>
      negb (run =? 0) && (negb (run =? network_run_id f) ||
                          negb (availability f =? kInitializing))
  | NetworkInterfaceUnavailableEvent run =>
      negb (run =? 0) && (run =? network_run_id f) &&
      negb (availability f =? kInterfaceUnavailable)
  | InternetUnavailableEvent run =>
      negb (run =? 0) && (run =? network_run_id f) &&
      negb (availability f =? kInternetUnavailable)
  | NetworkAvailableEvent run =>
      negb (run =? 0) && (run =? network_run_id f) &&
      negb (availability f =? kAvailable)
  end.

Definition Apply_Network (f : NetworkState) (e : NetworkEvent) : option NetworkState :=
  assert! CanApply_Network f e ;;
  Some match e with
       | NetworkInitializingEvent run => mkNetwork run kInitializing
       | NetworkInterfaceUnavailableEvent _ =>
           mkNetwork (network_run_id f) kInterfaceUnavailable
       | InternetUnavailableEvent _ => mkNetwork (network_run_id f) kInternetUnavailable
       | NetworkAvailableEvent _ => mkNetwork (network_run_id f) kAvailable
       end.

Definition IsRegisteredForCurrentRun (f : AetherRegistrationState) : bool :=
  (phase f =? kRegistered) && (registered_run_id f =? aether_run_id f) &&
  negb (String.eqb (uid f) "").

Definition CurrentUid (f : AetherRegistrationState) : string :=
  if negb (IsRegisteredForCurrentRun f) then "" else uid f.

Definition CanApply_Aether (f : AetherRegistrationState) (e : AetherEvent) : bool :=
  match e with
  | AetherRegistrationStartedEvent run =>
      negb (run =? 0) && (negb (run =? aether_run_id f) || negb (phase f =? kRegistering))
  | AetherRegistrationCompletedEvent run u =>
      if String.eqb u "" then false
      else if negb (aether_run_id f =? 0) && negb (run =? 0) &&
              negb (run =? aether_run_id f) then false
      else negb (IsRegisteredForCurrentRun f) || negb (String.eqb (uid f) u)
  end.

Definition Apply_Aether (f : AetherRegistrationState) (e : AetherEvent)
    : option AetherRegistrationState :=
  assert! CanApply_Aether f e ;;
  Some match e with
       | AetherRegistrationStartedEvent run =>
           mkAether run (registered_run_id f) kRegistering (uid f)
       | AetherRegistrationCompletedEvent run u =>
           mkAether (if aether_run_id f =? 0 then run else aether_run_id f) run
             kRegistered u
       end.

(** ** The three node classes *)

Definition plain_kind {F Ev} (can : F → Ev → bool) (apply : F → Ev → option F)
    : NodeKind F Ev := {|
  CanApplyTo := can;
  ApplyTo f e := f' ← apply f e; Some (f', true);
  MatchesSharedMetadata _ _ _ := true;
  SaveLoad f := f;
  CarryLocal _ loaded := loaded
|}.

#[export] Instance Runtime_kind : NodeKind ApplicationRuntimeState RuntimeEvent :=
  plain_kind CanApply_Runtime Apply_Runtime.
#[export] Instance Network_kind : NodeKind NetworkState NetworkEvent :=
  plain_kind CanApply_Network Apply_Network.
#[export] Instance Aether_kind : NodeKind AetherRegistrationState AetherEvent :=
  plain_kind CanApply_Aether Apply_Aether.

#[export] Instance Runtime_equiv : Equiv ApplicationRuntimeState := (=).
#[export] Instance Network_equiv : Equiv NetworkState := (=).
#[export] Instance Aether_equiv : Equiv AetherRegistrationState := (=).

(** Fields compared by equality, with nothing carried over, satisfy the laws. *)
Lemma plain_laws {F Ev} (can : F → Ev → bool) (apply : F → Ev → option F) :
  @NodeLaws F Ev (plain_kind can apply) (=).
Proof.
  split.
  - apply eq_equivalence.
  - by intros f g e ->.
  - intros f g e ->. simpl. destruct (apply g e); by constructor.
  - done.
  - done.
Qed.

#[export] Instance Runtime_laws : NodeLaws ApplicationRuntimeState RuntimeEvent.
Proof. apply plain_laws. Qed.
#[export] Instance Network_laws : NodeLaws NetworkState NetworkEvent.
Proof. apply plain_laws. Qed.
#[export] Instance Aether_laws : NodeLaws AetherRegistrationState AetherEvent.
Proof. apply plain_laws. Qed.

Abbreviation RuntimeNode := (Node ApplicationRuntimeState RuntimeEvent).
Abbreviation NetworkNode := (Node NetworkState NetworkEvent).
Abbreviation AetherNode := (Node AetherRegistrationState AetherEvent).

(** ** Commits

    [created n e] is the event object made in the node's Domain; the event is
    committed when the fields accept it. *)
Definition CommitIf {F Ev} `{!NodeKind F Ev} (n : Node F Ev) (e : Ev) (now : Readings)
    : option (bool * Node F Ev) :=
  if negb (CanApplyTo (fields n) e) then Some (false, n)
  else n ← Commit n (created n e) now; Some (true, n).

Definition CommitApplicationStarted (n : RuntimeNode) run now :=
  CommitIf n (ApplicationStartedEvent run) now.
Definition CommitNetworkInitializing (n : NetworkNode) run now :=
  CommitIf n (NetworkInitializingEvent run) now.
Definition CommitNetworkInterfaceUnavailable (n : NetworkNode) run now :=
  CommitIf n (NetworkInterfaceUnavailableEvent run) now.
Definition CommitInternetUnavailable (n : NetworkNode) run now :=
  CommitIf n (InternetUnavailableEvent run) now.
Definition CommitNetworkAvailable (n : NetworkNode) run now :=
  CommitIf n (NetworkAvailableEvent run) now.
Definition CommitAetherRegistrationStarted (n : AetherNode) run now :=
  CommitIf n (AetherRegistrationStartedEvent run) now.

Definition CommitAetherRegistrationCompleted (n : AetherNode) (u : string) now :=
  if String.eqb u "" then Some (false, n)
  else CommitIf n (AetherRegistrationCompletedEvent (aether_run_id (fields n)) u) now.

(** The number of the next run: never zero. *)
Definition next_run (run_id : Z) : Z :=
  let run := u64 (run_id + 1) in if run =? 0 then 1 else run.

Definition BeginRuntimeSession (runtime : RuntimeNode) (network : NetworkNode)
    (aether : AetherNode) (now1 now2 now3 : Readings)
    : option (RuntimeNode * NetworkNode * AetherNode) :=
  let run := next_run (runtime_run_id (fields runtime)) in
  '(_, runtime) ← CommitApplicationStarted runtime run now1;
  '(_, network) ← CommitNetworkInitializing network run now2;
  '(_, aether) ← CommitAetherRegistrationStarted aether run now3;
  Some (runtime, network, aether).

(** ** Lemmas *)

Lemma CommitIf_Some {F Ev} `{!NodeKind F Ev, !Equiv F, !NodeLaws F Ev}
    (n : Node F Ev) e now f b :
  CommitReady n → readings_ok now →
  (CanApplyTo (fields n) e = true → ApplyTo (fields n) e = Some (f, b)) →
  ∃ m, CommitIf n e now = Some (CanApplyTo (fields n) e, m) ∧ Consistent m ∧
    fields m = if CanApplyTo (fields n) e then f else fields n.
Proof.
  intros Hr Hn Ha. unfold CommitIf.
  destruct (CanApplyTo (fields n) e) eqn:Hc; simpl.
  - destruct (Commit_Some n e now f b Hr Hn Hc (Ha eq_refl)) as (m & Hm & _ & Hcm & Hf).
    unfold created. rewrite Hm. by exists m.
  - exists n. split; [done|]. split; [apply Hr|done].
Qed.

Lemma next_run_nonzero run : next_run run ≠ 0.
Proof. unfold next_run. case_match; [done|]. by apply Z.eqb_neq. Qed.

Lemma next_run_fresh run : is_u64 run → next_run run ≠ run.
Proof.
  unfold next_run, u64, is_u64. intros Hr.
  destruct (decide (run = 18446744073709551615)) as [->|Hne]; [done|].
  rewrite Z.mod_small by lia. destruct (Z.eqb_spec (run + 1) 0); lia.
Qed.

(** A new session: for nodes that can take a commit, whatever a previous run
    left in them, [BeginRuntimeSession] completes and leaves the three nodes at
    one new nonzero run number, the network initializing and not in outage, the
    registration in progress, and no uid to present. *)
Theorem BeginRuntimeSession_fresh (runtime : RuntimeNode) (network : NetworkNode)
    (aether : AetherNode) now1 now2 now3
    (Hr : CommitReady runtime) (Hn : CommitReady network) (Ha : CommitReady aether)
    (H1 : readings_ok now1) (H2 : readings_ok now2) (H3 : readings_ok now3)
    (Hrun : is_u64 (runtime_run_id (fields runtime))) :
  ∃ runtime' network' aether' run,
    BeginRuntimeSession runtime network aether now1 now2 now3 =
      Some (runtime', network', aether') ∧
    run ≠ 0 ∧ run ≠ runtime_run_id (fields runtime) ∧
    fields runtime' = mkRuntime run ∧
    fields network' = mkNetwork run kInitializing ∧
    aether_run_id (fields aether') = run ∧ phase (fields aether') = kRegistering ∧
    CurrentUid (fields aether') = ""%string ∧
    Consistent runtime' ∧ Consistent network' ∧ Consistent aether'.
Proof.
  set (run := next_run (runtime_run_id (fields runtime))).
  pose proof (next_run_nonzero (runtime_run_id (fields runtime))) as Hnz.
  pose proof (next_run_fresh _ Hrun) as Hfr. fold run in Hnz, Hfr.
  apply Z.eqb_neq in Hnz as Hnz', Hfr as Hfr'.
  unfold BeginRuntimeSession. fold run. cbv zeta.
  destruct (CommitIf_Some runtime (ApplicationStartedEvent run) now1 (mkRuntime run) true)
    as (r' & Hr' & Hcr & Hfr''); [done|done| |].
  { intros Hc. simpl in *. unfold Apply_Runtime. simpl. by rewrite Hc. }
  destruct (CommitIf_Some network (NetworkInitializingEvent run) now2
    (mkNetwork run kInitializing) true) as (n' & Hn' & Hcn & Hfn); [done|done| |].
  { intros Hc. simpl in *. unfold Apply_Network. simpl. by rewrite Hc. }
  destruct (CommitIf_Some aether (AetherRegistrationStartedEvent run) now3
    (mkAether run (registered_run_id (fields aether)) kRegistering (uid (fields aether)))
    true) as (a' & Ha' & Hca & Hfa); [done|done| |].
  { intros Hc. simpl in *. unfold Apply_Aether. simpl. by rewrite Hc. }
  exists r', n', a', run.
  unfold CommitApplicationStarted, CommitNetworkInitializing,
    CommitAetherRegistrationStarted. rewrite Hr'. cbn [mbind option_bind].
  rewrite Hn'. cbn [mbind option_bind]. rewrite Ha'. cbn [mbind option_bind].
  split; [done|]. split; [done|]. split; [done|].
  simpl in Hfr'', Hfn, Hfa. rewrite Hnz' in Hfr'', Hfn, Hfa. simpl in Hfr'', Hfn, Hfa.
  rewrite Hfr' in Hfr''.
  assert (aether_run_id (fields a') = run ∧ phase (fields a') = kRegistering) as [Hai Hap].
  { rewrite Hfa. destruct (Z.eqb_spec run (aether_run_id (fields aether))); simpl; [|done].
    destruct (Z.eqb_spec (phase (fields aether)) kRegistering); simpl; [|done]. done. }
  split; [done|]. split.
  { rewrite Hfn. destruct (Z.eqb_spec run (network_run_id (fields network))) as [E|];
      simpl; [|done].
    destruct (Z.eqb_spec (availability (fields network)) kInitializing) as [Ev|];
      simpl; [|done].
    destruct (fields network); simpl in *. congruence. }
  split; [done|]. split; [done|]. split; [|done].
  unfold CurrentUid, IsRegisteredForCurrentRun. by rewrite Hap.
Qed.

Definition is_completion (r : EventRecord AetherEvent) : Prop :=
  ∃ run u, ev_object (event r) = Some (AetherRegistrationCompletedEvent run u).

Lemma step_Aether f r g :
  step f r = Some g → ∃ e, ev_object (event r) = Some e ∧ Apply_Aether f e = Some g.
Proof.
  unfold step. destruct (ev_is_valid _); [|done].
  destruct (ev_object _) as [e|]; [cbn|done].
  destruct (CanApply_Aether f e); [|done].
  destruct (Apply_Aether f e) as [f'|] eqn:Ha; [|done]. intros [= <-]. by exists e.
Qed.

Lemma replay_registering f j g :
  phase f = kRegistering → Forall (λ r, ¬ is_completion r) j → replay f j = Some g →
  phase g = kRegistering.
Proof.
  intros Hp Hj. revert f Hp. induction Hj as [|r j Hr _ IH]; intros f Hp H;
    cbn [replay] in H; [by simplify_eq|].
  destruct (step f r) as [h|] eqn:Hs; [|done]. apply (IH h); [|done].
  apply step_Aether in Hs as (e & He & Ha). unfold Apply_Aether in Ha.
  destruct (CanApply_Aether f e); [|done]. injection Ha as <-.
  destruct e as [run|run u]; [done|]. destruct Hr. by exists run, u.
Qed.

(** No stale uid: in any replayed history of the registration node, once a
    registration has been started no uid is presented until a completion event
    follows, whatever earlier runs had registered. *)
Theorem CurrentUid_needs_completion f j1 r run j2 g
    (Hr : ev_object (event r) = Some (AetherRegistrationStartedEvent run))
    (Hj2 : Forall (λ r, ¬ is_completion r) j2)
    (Hrep : replay f (j1 ++ r :: j2) = Some g) :
  CurrentUid g = ""%string.
Proof.
  rewrite replay_app in Hrep. destruct (replay f j1) as [h|]; [|done].
  cbn [mbind option_bind replay] in Hrep.
  destruct (step h r) as [k|] eqn:Hs; [|done]. cbn [mbind option_bind] in Hrep.
  apply step_Aether in Hs as (e & He & Ha). rewrite Hr in He. injection He as <-.
  unfold Apply_Aether in Ha. destruct (CanApply_Aether _ _); [|done]. injection Ha as <-.
  apply replay_registering in Hrep; [|done..].
  unfold CurrentUid, IsRegisteredForCurrentRun. by rewrite Hrep.
Qed.

(** Registration: completing the registration of the current run on a node
    that can take a commit leaves exactly the given uid presented, and commits
    nothing when that uid was presented already. *)
Theorem CommitAetherRegistrationCompleted_presents (n : AetherNode) u now
    (Hr : CommitReady n) (Hn : readings_ok now) (Hu : u ≠ ""%string) :
  ∃ b m, CommitAetherRegistrationCompleted n u now = Some (b, m) ∧
    CurrentUid (fields m) = u ∧ Consistent m ∧
    (CurrentUid (fields n) = u → b = false ∧ m = n).
Proof.
  unfold CommitAetherRegistrationCompleted.
  destruct (String.eqb_spec u "") as [|_]; [done|].
  set (e := AetherRegistrationCompletedEvent _ u).
  set (f := mkAether (aether_run_id (fields n)) (aether_run_id (fields n)) kRegistered u).
  assert (CanApplyTo (fields n) e =
    negb (IsRegisteredForCurrentRun (fields n)) || negb (String.eqb (uid (fields n)) u))
    as Hcan.
  { simpl. destruct (String.eqb_spec u ""); [done|]. rewrite Z.eqb_refl.
    destruct (negb (_ =? 0)); done. }
  destruct (CommitIf_Some n e now f true) as (m & Hm & Hc & Hf); [done|done| |].
  { intros Hx. simpl in *. unfold Apply_Aether. simpl. rewrite Hx. simpl.
    unfold f. by destruct (Z.eqb_spec (aether_run_id (fields n)) 0) as [->|]. }
  exists (CanApplyTo (fields n) e), m. split; [done|].
  assert (CurrentUid (fields m) = u) as Hcu.
  { assert (CurrentUid f = u) as Hfu.
    { unfold CurrentUid, IsRegisteredForCurrentRun, f. simpl. rewrite Z.eqb_refl.
      by destruct (String.eqb_spec u ""). }
    rewrite Hf, Hcan. destruct (IsRegisteredForCurrentRun (fields n)) eqn:Hreg; simpl;
      [|done].
    destruct (String.eqb_spec (uid (fields n)) u) as [He|]; simpl; [|done].
    unfold CurrentUid. by rewrite Hreg. }
  split; [done|]. split; [done|]. intros Hcn.
  assert (CanApplyTo (fields n) e = false) as Hfalse.
  { rewrite Hcan. unfold CurrentUid in Hcn.
    destruct (IsRegisteredForCurrentRun (fields n)); simpl in *; [|congruence].
    by destruct (String.eqb_spec (uid (fields n)) u). }
  split; [done|]. unfold CommitIf in Hm. rewrite Hfalse in Hm. simpl in Hm. congruence.
Qed.

(** ** Two runs *)
Module Examples.

Definition based {F Ev} (id : Z) (f : F) : Node F Ev :=
  set_base (new_node id (Some 1) f) (Some (mkBase (id + 1) true f)).

Lemma based_ready {F Ev} `{!NodeKind F Ev, !Equiv F} `{!NodeLaws F Ev} id (f : F) :
  CommitReady (based (Ev := Ev) id f).
Proof.
  split.
  - split; [reflexivity| |left; reflexivity].
    exists f. split; reflexivity.
  - constructor.
  - done.
  - by eexists.
  - constructor.
Qed.

Definition clock (t : Z) : Readings := λ _, t.
Lemma clock_ok : readings_ok (clock 100).
Proof. intros i. unfold clock. split; [reflexivity|split; [discriminate|reflexivity]]. Qed.

(** A previous run, number 4, left a registered uid. *)
Definition stale : AetherNode := based 30 (mkAether 4 4 kRegistered "uid-4").

Lemma BeginRuntimeSession_fresh_witness :
  CurrentUid (fields stale) = "uid-4"%string ∧
  ∃ r n a, BeginRuntimeSession (based 10 (mkRuntime 4)) (based 20 (mkNetwork 4 kAvailable))
      stale (clock 100) (clock 100) (clock 100) = Some (r, n, a) ∧
    fields r = mkRuntime 5 ∧ CurrentUid (fields a) = ""%string.
Proof.
  split; [reflexivity|].
  destruct (BeginRuntimeSession_fresh (based 10 (mkRuntime 4))
    (based 20 (mkNetwork 4 kAvailable)) stale (clock 100) (clock 100) (clock 100))
    as (r & n & a & run & Hb & _ & _ & Hr & _ & _ & _ & Hu & _).
  - apply based_ready.
  - apply based_ready.
  - apply based_ready.
  - exact clock_ok.
  - exact clock_ok.
  - exact clock_ok.
  - split; [discriminate|reflexivity].
  - exists r, n, a. split; [exact Hb|]. split; [|exact Hu].
    vm_compute in Hb. injection Hb as <- _ _. reflexivity.
Defined.

Definition record (e : AetherEvent) : EventRecord AetherEvent :=
  mkEventRecord (mkEventPtr true (Some e) (Some 1)) empty_identity
    (mkSharedEventOrder 1) 1.

Lemma CurrentUid_needs_completion_witness :
  ∃ g, replay (mkAether 0 0 kRegistering "") 
      ([record (AetherRegistrationStartedEvent 4);
        record (AetherRegistrationCompletedEvent 4 "uid-4")] ++
       record (AetherRegistrationStartedEvent 5) :: []) = Some g ∧
    uid g = "uid-4"%string ∧ CurrentUid g = ""%string.
Proof.
  eexists. split; [vm_compute; reflexivity|]. split; [reflexivity|].
  eapply (CurrentUid_needs_completion (mkAether 0 0 kRegistering "")
    [record (AetherRegistrationStartedEvent 4);
     record (AetherRegistrationCompletedEvent 4 "uid-4")]
    (record (AetherRegistrationStartedEvent 5)) 5 []).
  - reflexivity.
  - constructor.
  - vm_compute. reflexivity.
Defined.

Lemma CommitAetherRegistrationCompleted_presents_witness :
  ∃ b m, CommitAetherRegistrationCompleted stale "uid-9" (clock 100) = Some (b, m) ∧
    CurrentUid (fields m) = "uid-9"%string.
Proof.
  destruct (CommitAetherRegistrationCompleted_presents stale "uid-9" (clock 100))
    as (b & m & Hm & Hu & _).
  - apply based_ready.
  - exact clock_ok.
  - discriminate.
  - exists b, m. split; [exact Hm|exact Hu].
Defined.
End Examples.
