(* ===== verification/DomainStorage.v ===== *)
(** * Domain storages

    The interface [IDomainStorage] of the object system as a class
    ([DomainStorage]) with the laws the repository's code relies on
    ([StorageLaws]), and the storages the repository builds over it:
    [OverlayDomainStorage] (overlay_domain_storage.h, .cpp) and
    [PartitionedModelDomainStorage] (partitioned_model_domain_storage.h, .cpp).

    A layer is what one class of one object stores at one version.  [Store] is a
    writer obtained from [Store(query)] and given all its bytes; it is [None] when
    no writer is returned or the write fails. *)
From S2P Require Import Prelude.

(** [ae::DomainQuery] *)
Record DomainQuery := mkQuery { q_id : Z; q_class : Z; q_version : Z }.

#[export] Instance DomainQuery_eq_dec : EqDecision DomainQuery.
Proof. solve_decision. Defined.
#[export] Program Instance DomainQuery_countable : Countable DomainQuery :=
  inj_countable' (λ q, (q_id q, q_class q, q_version q))
    (λ p, mkQuery p.1.1 p.1.2 p.2) _.
Next Obligation. by intros []. Qed.

(** [ae::DomainLoad] *)
Inductive DomainLoad := kEmpty | kLoaded (data : bytes) | kRemoved.

Class DomainStorage (S : Type) := {
  Store : S → DomainQuery → bytes → option S;
  Enumerate : S → Z → list Z;
  Load : S → DomainQuery → DomainLoad;
  Remove : S → Z → S;
  CleanUp : S → S
}.

(** What a storage promises its clients: a stored layer is what is loaded, other
    layers are not touched (layers of a removed object may reappear as empty),
    and enumeration lists the classes of an object that have a layer. *)
Class StorageLaws (S : Type) `{!DomainStorage S} : Prop := {
  Load_Store_same s q d s' : Store s q d = Some s' → Load s' q = kLoaded d;
  Load_Store_other s q d s' q' :
    Store s q d = Some s' → q' ≠ q →
    Load s' q' = Load s q' ∨ (q_id q' = q_id q ∧ Load s q' = kRemoved ∧ Load s' q' = kEmpty);
  Enumerate_Load s id c :
    c ∈ Enumerate s id ↔ ∃ v d, Load s (mkQuery id c v) = kLoaded d;
  Load_Remove s id q :
    Load (Remove s id) q = if decide (q_id q = id) then kRemoved else Load s q
}.

(** ** OverlayDomainStorage *)
Section overlay.
  Context {R B : Type} `{!DomainStorage R, !DomainStorage B}.

Record OverlayDomainStorage := mkOverlay { overlay_ : R; backing_ : B }.
Implicit Types o : OverlayDomainStorage.

Definition Overlay_Store o (q : DomainQuery) (d : bytes) : option OverlayDomainStorage :=
  r ← Store (overlay_ o) q d; Some (mkOverlay r (backing_ o)).

(** The union of the two class sets, as a [std::set] lists it. *)
Definition Overlay_Enumerate o (id : Z) : list Z :=
  elements (list_to_set (Enumerate (overlay_ o) id) ∪
            list_to_set (Enumerate (backing_ o) id) : gset Z).

Definition Overlay_Load o (q : DomainQuery) : DomainLoad :=
  match Load (overlay_ o) q with
  | kLoaded d => kLoaded d
  | kRemoved => kRemoved
  | kEmpty => Load (backing_ o) q
  end.

Definition Overlay_Remove o (id : Z) : OverlayDomainStorage :=
  mkOverlay (Remove (overlay_ o) id) (backing_ o).

Definition Overlay_CleanUp o : OverlayDomainStorage :=
  mkOverlay (CleanUp (overlay_ o)) (backing_ o).

#[export] Instance overlay_storage : DomainStorage OverlayDomainStorage := {|
  Store := Overlay_Store;
  Enumerate := Overlay_Enumerate;
  Load := Overlay_Load;
  Remove := Overlay_Remove;
  CleanUp := Overlay_CleanUp
|}.
End overlay.
Arguments OverlayDomainStorage : clear implicits.

(** ** PartitionedModelDomainStorage: every layer goes to the durable backing *)
Section partitioned.
  Context {B : Type} `{!DomainStorage B}.

(** [checkpoint_sidecar_directory_] is the root of a directory backing. *)
Record PartitionedModelDomainStorage := mkPartitioned {
  durable_backing_ : B;
  checkpoint_sidecar_directory_ : option string
}.
Implicit Types p : PartitionedModelDomainStorage.

Definition Partitioned_with p (b : B) : PartitionedModelDomainStorage :=
  mkPartitioned b (checkpoint_sidecar_directory_ p).
Definition Partitioned_Store p (q : DomainQuery) (d : bytes)
    : option PartitionedModelDomainStorage :=
  b ← Store (durable_backing_ p) q d; Some (Partitioned_with p b).
Definition Partitioned_Enumerate p (id : Z) : list Z := Enumerate (durable_backing_ p) id.
Definition Partitioned_Load p (q : DomainQuery) : DomainLoad := Load (durable_backing_ p) q.
Definition Partitioned_Remove p (id : Z) := Partitioned_with p (Remove (durable_backing_ p) id).
Definition Partitioned_CleanUp p := Partitioned_with p (CleanUp (durable_backing_ p)).

#[export] Instance partitioned_storage : DomainStorage PartitionedModelDomainStorage := {|
  Store := Partitioned_Store;
  Enumerate := Partitioned_Enumerate;
  Load := Partitioned_Load;
  Remove := Partitioned_Remove;
  CleanUp := Partitioned_CleanUp
|}.

#[export] Instance partitioned_laws `{!StorageLaws B} :
  StorageLaws PartitionedModelDomainStorage.
Proof.
  split; simpl; unfold Partitioned_Store, Partitioned_Load, Partitioned_Enumerate,
    Partitioned_Remove.
  - intros s q d s' H. destruct (Store _ q d) as [b|] eqn:E; [|done].
    injection H as <-. by eapply Load_Store_same.
  - intros s q d s' q' H Hne. destruct (Store _ q d) as [b|] eqn:E; [|done].
    injection H as <-. by eapply Load_Store_other.
  - intros. apply Enumerate_Load.
  - intros. apply Load_Remove.
Qed.
End partitioned.
Arguments PartitionedModelDomainStorage : clear implicits.

(** ** The overlay against the interface *)
Section overlay_laws.
  Context {R B : Type} `{!DomainStorage R, !DomainStorage B}.
  Context `{!StorageLaws R, !StorageLaws B}.
  Implicit Types o : OverlayDomainStorage R B.

(** Objects that the overlay's [Remove] was never called on. *)
Definition not_removed o (id : Z) : Prop :=
  ∀ c v, Load (overlay_ o) (mkQuery id c v) ≠ kRemoved.

(** The overlay is a storage whose backing is never written: a stored layer
    is what is loaded, storing leaves every other layer of objects that were not
    removed as it was, every write and removal leaves the backing unchanged, and
    for objects that were not removed enumeration lists exactly the classes with
    a layer that can be loaded. *)
Theorem Overlay_refines_storage o q d o'
    (Hst : Store o q d = Some o') (Hr : not_removed o (q_id q)) :
  Load o' q = kLoaded d ∧
  (∀ q', q' ≠ q → not_removed o (q_id q') → Load o' q' = Load o q') ∧
  backing_ o' = backing_ o ∧
  (∀ id, backing_ (Remove o id) = backing_ o) ∧
  (∀ id c, not_removed o' id →
     c ∈ Enumerate o' id ↔ ∃ v d, Load o' (mkQuery id c v) = kLoaded d).
Proof.
  simpl in Hst. unfold Overlay_Store in Hst.
  destruct (Store (overlay_ o) q d) as [r|] eqn:E; [|done]. injection Hst as <-.
  simpl. unfold Overlay_Load; simpl. split; [|split; [|split; [done|split; [done|]]]].
  - by rewrite (Load_Store_same _ _ _ _ E).
  - intros q' Hne Hnr. destruct (Load_Store_other _ _ _ _ q' E Hne) as [->|(_ & Hrm & _)];
      [done|]. destruct q' as [i c v]. by destruct (Hnr c v).
  - intros id c Hnr. unfold Overlay_Enumerate, not_removed in *. simpl in *.
    rewrite elem_of_elements, elem_of_union, !elem_of_list_to_set, !Enumerate_Load. split.
    + intros [(v & x & Hl)|(v & x & Hl)]; exists v.
      * exists x. by rewrite Hl.
      * destruct (Load r (mkQuery id c v)) as [|y|] eqn:El; [by exists x|by exists y|].
        by destruct (Hnr c v).
    + intros (v & x & Hl). destruct (Load r (mkQuery id c v)) as [|y|] eqn:El.
      * right. by exists v, x.
      * left. by exists v, y.
      * done.
Qed.
End overlay_laws.

(** ** A concrete storage, for examples: objects with their layers, or removed *)
Module DemoStorage.

Abbreviation t := (gmap Z (option (gmap (Z * Z) bytes))).

Definition layers (s : t) (id : Z) : gmap (Z * Z) bytes :=
  match s !! id with Some (Some l) => l | _ => ∅ end.

#[export] Instance storage : DomainStorage t := {|
  Store s q d := Some (<[q_id q := Some (<[(q_class q, q_version q) := d]>
                                          (layers s (q_id q)))]> s);
  Enumerate s id := (map_to_list (layers s id)).*1.*1;
  Load s q := match s !! q_id q with
    | None => kEmpty
    | Some None => kRemoved
    | Some (Some l) => match l !! (q_class q, q_version q) with
                       | Some d => kLoaded d | None => kEmpty end
    end;
  Remove s id := <[id := None]> s;
  CleanUp s := ∅
|}.

Lemma load_layers (s : t) q d :
  Load s q = kLoaded d ↔ layers s (q_id q) !! (q_class q, q_version q) = Some d.
Proof.
  unfold layers. simpl. destruct (s !! q_id q) as [[l|]|]; [|by rewrite lookup_empty..].
  destruct (l !! _) as [x|]; split; congruence.
Qed.

#[export] Instance laws : StorageLaws t.
Proof.
  split.
  - intros s q d s' [= <-]. apply load_layers. unfold layers at 1.
    rewrite lookup_insert_eq. by rewrite lookup_insert_eq.
  - intros s q d s' q' [= <-] Hne. simpl.
    destruct (decide (q_id q' = q_id q)) as [Hid|Hid].
    + rewrite Hid, lookup_insert_eq, lookup_insert_ne.
      2: { destruct q, q'; simpl in *. congruence. }
      unfold layers. destruct (s !! q_id q) as [[l|]|]; [by left|right|left];
        rewrite lookup_empty; done.
    + left. by rewrite lookup_insert_ne by done.
  - intros s id c. simpl. rewrite list_elem_of_fmap. split.
    + intros ([c' v] & -> & Hin). apply list_elem_of_fmap in Hin as ([k d] & Hk & Hin).
      simpl in Hk. subst k. apply elem_of_map_to_list in Hin.
      exists v, d. by apply (load_layers s (mkQuery id c' v)).
    + intros (v & d & Hl). apply (load_layers s (mkQuery id c v)) in Hl. simpl in Hl.
      exists (c, v). split; [done|]. apply list_elem_of_fmap. exists (c, v, d).
      split; [done|]. by apply elem_of_map_to_list.
  - intros s id q. simpl. case_decide as Hid.
    + by rewrite Hid, lookup_insert_eq.
    + by rewrite lookup_insert_ne.
Qed.
End DemoStorage.

Module Examples.
Import DemoStorage.

Definition q1 := mkQuery 7 2 0.
Definition distribution : DemoStorage.t := {[7 := Some {[(2, 0) := [1]; (3, 0) := [9]]}]}.
Definition over : OverlayDomainStorage DemoStorage.t DemoStorage.t :=
  mkOverlay ∅ distribution.

(** A write hides the distribution's layer and keeps its other class visible. *)
Lemma Overlay_refines_storage_witness :
  ∃ o', Store over q1 [5] = Some o' ∧ Load o' q1 = kLoaded [5] ∧
    Load o' (mkQuery 7 3 0) = kLoaded [9] ∧ backing_ o' = distribution.
Proof.
  eexists. split; [reflexivity|].
  edestruct (Overlay_refines_storage over q1 [5]) as (Hl & Ho & Hb & _).
  - reflexivity.
  - intros c v. vm_compute. discriminate.
  - split; [exact Hl|]. split; [|exact Hb].
    rewrite Ho; [reflexivity|discriminate|]. intros c v. vm_compute. discriminate.
Defined.
End Examples.
