(* ===== verification/StoredGraph.v ===== *)
(** * Stored object graphs (shared_network_graph.h, shared_network_graph.cpp,
      operation_storage.h)

    Graphs that travel between replicas: a [RamDomainStorage] holds the layers of
    each object.  This file has the validation of stored class chains, the
    transfer into a replica's storage, the allocation of receiver identifiers, the
    payload formats, and the admission and import of event graphs.

    The object system (class [ObjectSystem]) supplies the archive, the loading of
    objects from layers and the saving of objects into layers. *)
From S2P Require Import Prelude Aether DomainStorage.

(** ** RamDomainStorage::state

    Object identifier to its layers by class and version; an object without value
    is a removed one. *)
Abbreviation Versions := (gmap Z bytes).
Abbreviation Classes := (gmap Z Versions).
Abbreviation RamState := (gmap Z (option Classes)).

(** The objects with a value, in the order of iteration. *)
Definition active (s : RamState) : list (Z * Classes) :=
  omap (λ e : Z * option Classes, c ← e.2; Some (e.1, c)) (map_to_list s).

Definition find_active (s : RamState) (id : Z) : option Classes :=
  match s !! id with Some (Some c) => Some c | _ => None end.

(** ** The object system *)

(** A pointer field of a loaded object: identifier when valid, whether its target
    is loaded, whether it is a [LocalPtr], and the class it points to. *)
Record Pointer := mkPointer {
  ptr_id : option Z;
  ptr_loaded : bool;
  ptr_local : bool;
  ptr_target_class : Z
}.

(** [O]: loaded objects.  The archive's loads return the value read and the bytes
    that are left, its saves whether they succeeded and the bytes written. *)
Class ObjectSystem (O : Type) := {
  archive_Load_id : bytes → option (Z * bytes);
  archive_Load_state : bytes → option (RamState * bytes);
  archive_Save_id : Z → bool * bytes;
  archive_Save_state : RamState → bool * bytes;
  LoadRoot : RamState → Z → option O;
  GetClassId : O → Z;
  SaveNetworkShared : O → Z → RamState;
  obj_pointers : O → list Pointer
}.

(** ** ValidateStoredClassChains *)
Record StoredClassChainInfo := mkChain {
  chain_obj_id : Z;
  chain : list Z;
  most_derived_class_id : Z
}.

Section chains.
  Context {reg : AetherRegistry} {ids : AetherIds}.

(** The loop that checks the layers of one object and collects its classes. *)
Definition layers_known (classes : Classes) : bool :=
  forallb (λ e : Z * Versions,
    ((e.1 =? Obj_kClassId) || IsExisting e.1) && negb (bool_decide (e.2 = ∅)))
    (map_to_list classes).

(** Whether two classes are related, [Obj] being the base of everything. *)
Definition related (c1 c2 : Z) : bool :=
  (c1 =? Obj_kClassId) || (c2 =? Obj_kClassId) ||
  negb ((GenerationDistance c1 c2 <? 0) && (GenerationDistance c2 c1 <? 0)).

Fixpoint pairwise_related (l : list Z) : bool :=
  match l with
  | [] => true
  | c :: l => forallb (related c) l && pairwise_related l
  end.

(** The comparison of the sort: base before derived. *)
Definition base_first (a b : Z) : bool :=
  if a =? b then false
  else if a =? Obj_kClassId then true
  else if b =? Obj_kClassId then false
  else GenerationDistance a b >? 0.

(** [std::sort] with this comparison; the checks before it make the comparison
    total on the chain, so that the sorted order is unique. *)
Fixpoint insert_sorted (c : Z) (l : list Z) : list Z :=
  match l with
  | [] => [c]
  | x :: l => if base_first c x then c :: x :: l else x :: insert_sorted c l
  end.
Definition sort_chain (l : list Z) : list Z := foldr insert_sorted [] l.

Definition validate_chain (id : Z) (classes : Classes) : option StoredClassChainInfo :=
  if negb (ObjId_is_valid id) then None else
  if bool_decide (classes = ∅) then None else
  if negb (layers_known classes) then None else
  let unsorted := (map_to_list classes).*1 in
  if negb (pairwise_related unsorted) then None else
  let sorted := sort_chain unsorted in
  most_derived ← list.last sorted;
  if most_derived =? Obj_kClassId then None else
  if negb (has_factory most_derived) then None else
  if negb (forallb (λ c, (c =? Obj_kClassId) ||
                         negb (GenerationDistance c most_derived <? 0)) sorted)
  then None
  else Some (mkChain id sorted most_derived).

Definition ValidateStoredClassChains (s : RamState)
    : option (list StoredClassChainInfo) :=
  mapM (λ e, validate_chain e.1 e.2) (active s).

(** The chain of one object, [std::find_if] over the chains. *)
Definition chain_of (chains : list StoredClassChainInfo) (id : Z)
    : option StoredClassChainInfo :=
  find (λ c, chain_obj_id c =? id) chains.
End chains.

(** ** Transfer into a storage *)
Section transfer.
  Context {S : Type} `{!DomainStorage S}.

(** All layers of one object, with their queries. *)
Definition layer_list (id : Z) (classes : Classes) : list (DomainQuery * bytes) :=
  e ← map_to_list classes;
  v ← map_to_list (e.2 : Versions);
  [(mkQuery id e.1 v.1, v.2)].

(** Writes the layers in order, up to the first writer that is null or fails. *)
Fixpoint write_layers (l : list (DomainQuery * bytes)) (s : S) : bool * S :=
  match l with
  | [] => (true, s)
  | (q, d) :: l =>
      match Store s q d with
      | None => (false, s)
      | Some s => write_layers l s
      end
  end.

(** A failed write is a failed assertion here. *)
Definition TransferRamObject (src : RamState) (id : Z) (dst : S) : option S :=
  match find_active src id with
  | None => Some dst
  | Some classes =>
      let '(ok, dst) := write_layers (layer_list id classes) dst in
      assert! ok ;; Some dst
  end.

Fixpoint commit_objects (src : RamState) (l : list (Z * Classes)) (dst : S)
    : option S :=
  match l with
  | [] => Some dst
  | (id, _) :: l => dst ← TransferRamObject src id dst; commit_objects src l dst
  end.

Definition CommitObjectGraph (parsed : RamState) (target : S) : option S :=
  commit_objects parsed (active parsed) target.

(** Layers written before a failure stay. *)
Definition CopyStoredObjectAs (source : RamState) (source_id destination_id : Z)
    (destination : S) : bool * S :=
  match find_active source source_id with
  | None => (false, destination)
  | Some classes => write_layers (layer_list destination_id classes) destination
  end.

(** [generate k] is the [k]-th identifier that [ObjId::GenerateUnique] returns from
    here on, [in_domain] whether the Domain has an object.  The loop is bounded by
    [fuel]. *)
Fixpoint AllocateUniqueReceiverObjId `{AetherIds} (fuel : nat) (generate : nat → Z)
    (in_domain : Z → bool) (storage : S) (reserved : gset Z) : option Z :=
  match fuel with
  | O => None
  | Datatypes.S fuel =>
      let id := generate 0%nat in
      let continue := AllocateUniqueReceiverObjId fuel (λ k, generate (Datatypes.S k))
                        in_domain storage reserved in
      if negb (ObjId_is_valid id) then continue
      else if bool_decide (id ∈ reserved) then continue
      else if in_domain id then continue
      else if negb (bool_decide (Enumerate storage id = [])) then continue
      else Some id
  end.
End transfer.

(** ** Payloads and event graphs *)
Section payloads.
  Context {O : Type} {reg : AetherRegistry} {ids : AetherIds} `{!ObjectSystem O}.

(** The overload that returns the bytes does not look at the result. *)
Definition SerializeObjectGraph (s : RamState) : bytes := (archive_Save_state s).2.

Definition DeserializeObjectGraph (payload : bytes) : option RamState :=
  '(s, rest) ← archive_Load_state payload;
  if bool_decide (rest = []) then Some s else None.

Definition ParseEventPayload (payload : bytes) : option (RamState * Z) :=
  '(root, rest) ← archive_Load_id payload;
  if negb (ObjId_is_valid root) then None else
  '(s, rest) ← archive_Load_state rest;
  if negb (bool_decide (rest = [])) then None else
  match find_active s root with
  | None => None
  | Some _ => Some (s, root)
  end.

(** ImportObjectGraphPayload: [Some (false, s)] when the payload is malformed. *)
Definition ImportObjectGraphPayload {S} `{!DomainStorage S} (payload : bytes) (target : S)
    : option (bool * S) :=
  match DeserializeObjectGraph payload with
  | None => Some (false, target)
  | Some parsed => target ← CommitObjectGraph parsed target; Some (true, target)
  end.

(** [HandlePointerSeri] in mode [kValidate], on one pointer field. *)
Definition pointer_valid (s : RamState) (most_derived : Z → option Z) (p : Pointer)
    : bool :=
  if ptr_local p then
    match ptr_id p with Some _ => false | None => true end
  else
    match ptr_id p with
    | None => true
    | Some id =>
        match find_active s id with
        | None => false
        | Some _ =>
            match most_derived id with
            | None => false
            | Some c => negb (GenerationDistance (ptr_target_class p) c <? 0) &&
                        ptr_loaded p
            end
        end
    end.

(** [expected = 0] accepts any event class. *)
Definition ValidateClosedEventGraphStorage (s : RamState) (root expected : Z)
    : option (list StoredClassChainInfo) :=
  if negb (ObjId_is_valid root) then None else
  match find_active s root with None => None | Some _ =>
  chains ← ValidateStoredClassChains s;
  info ← chain_of chains root;
  if GenerationDistance Event_kClassId (most_derived_class_id info) <? 0 then None else
  if negb (expected =? 0) && negb (most_derived_class_id info =? expected) then None else
  match LoadRoot s root with None => None | Some _ =>
  objs ← mapM (λ c, LoadRoot s (chain_obj_id c)) chains;
  let most_derived id := most_derived_class_id <$> chain_of chains id in
  if forallb (λ o, forallb (pointer_valid s most_derived) (obj_pointers o)) objs
  then Some chains else None
  end end.

(** [FreezeEventPayload] within a boundary of permitted identifiers; [id] is the
    identifier of the event. *)
Definition FreezeEventPayload (o : O) (id : Z) (permitted : gset Z) : option bytes :=
  if negb (bool_decide (id ∈ permitted)) then None else
  let scratch := SaveNetworkShared o id in
  if negb (forallb (λ e, bool_decide (e.1 ∈ permitted)) (active scratch)) then None else
  _ ← ValidateClosedEventGraphStorage scratch id (GetClassId o);
  let '(ok, head) := archive_Save_id id in
  if negb ok then None else
  let '(ok, body) := archive_Save_state scratch in
  if negb ok then None else Some (head ++ body).

Definition FreezeStandaloneEventPayload (o : O) (id : Z) : option bytes :=
  FreezeEventPayload o id (if ObjId_is_valid id then {[id]} else ∅).

Definition ValidateStandaloneEventGraph (s : RamState) (root expected : Z) : bool :=
  if negb (ObjId_is_valid root) then false else
  match ValidateStoredClassChains s with None => false | Some chains =>
  if negb (bool_decide ((active s).*1 = [root])) then false else
  match chain_of chains root with None => false | Some info =>
  if negb (most_derived_class_id info =? expected) then false else
  if GenerationDistance Event_kClassId expected <? 0 then false else
  match LoadRoot s root with
  | None => false
  | Some o => GetClassId o =? expected
  end end end.

(** [import]: the receiver graph's [LoadRoot] on the receiver's storage.  The
    result is the storage after the writes, and the event when it was imported. *)
Definition ImportStandaloneEventGraph {S} `{!DomainStorage S}
    (fuel : nat) (generate : nat → Z) (in_domain : Z → bool)
    (import : S → Z → option O) (s : RamState) (root expected : Z) (storage : S)
    : option (S * option (Z * O)) :=
  if negb (ValidateStandaloneEventGraph s root expected) then Some (storage, None) else
  id ← AllocateUniqueReceiverObjId fuel generate in_domain storage ∅;
  if negb (ObjId_is_valid id) then Some (storage, None) else
  let '(copied, storage) := CopyStoredObjectAs s root id storage in
  if negb copied then Some (storage, None) else
  match import storage id with
  | None => Some (storage, None)
  | Some o =>
      if negb (GetClassId o =? expected) then Some (storage, None)
      else Some (storage, Some (id, o))
  end.
End payloads.

(** ** Lemmas: validated chains *)
Section chain_lemmas.
  Context {reg : AetherRegistry} {ids : AetherIds}.

Lemma insert_sorted_perm c l : insert_sorted c l ≡ₚ c :: l.
Proof.
  induction l as [|x l IH]; simpl; [done|]. case_match; [done|].
  rewrite IH. apply Permutation_swap.
Qed.

Lemma sort_chain_perm l : sort_chain l ≡ₚ l.
Proof.
  induction l as [|c l IH]; simpl; [done|]. unfold sort_chain in *. simpl.
  by rewrite insert_sorted_perm, IH.
Qed.

(** What validation establishes of one object. *)
Record chain_ok (classes : Classes) (info : StoredClassChainInfo) : Prop := {
  co_id : ObjId_is_valid (chain_obj_id info) = true;
  co_chain : chain info ≡ₚ (map_to_list classes).*1;
  co_most : most_derived_class_id info ∈ chain info;
  co_not_obj : most_derived_class_id info ≠ Obj_kClassId;
  co_factory : has_factory (most_derived_class_id info) = true;
  co_ancestors c : c ∈ chain info → c = Obj_kClassId ∨
    (IsExisting c = true ∧ 0 ≤ GenerationDistance c (most_derived_class_id info));
  co_layers c v : classes !! c = Some v → v ≠ ∅
}.

Lemma validate_chain_spec id classes info :
  validate_chain id classes = Some info → chain_obj_id info = id ∧ chain_ok classes info.
Proof.
  unfold validate_chain. intros H.
  destruct (ObjId_is_valid id) eqn:Hid; cbn [negb] in H; [|done].
  case_bool_decide as Hne; [done|].
  destruct (layers_known classes) eqn:Hk; cbn [negb] in H; [|done].
  destruct (pairwise_related _); cbn [negb] in H; [|done].
  destruct (list.last (sort_chain (map_to_list classes).*1)) as [m|] eqn:Hm;
    [cbn [mbind option_bind] in H|done].
  destruct (Z.eqb_spec m Obj_kClassId); [done|].
  destruct (has_factory m) eqn:Hf; cbn [negb] in H; [|done].
  destruct (forallb _ (sort_chain _)) eqn:Ha; cbn [negb] in H; [|done].
  injection H as <-. split; [done|]. rewrite forallb_forall in Ha.
  unfold layers_known in Hk. rewrite forallb_forall in Hk.
  pose proof (sort_chain_perm (map_to_list classes).*1) as Hp.
  split; simpl; [done|done| |done|done| |].
  - apply last_Some in Hm as [l' ->]. set_solver.
  - intros c Hc. specialize (Ha c (proj1 (list_elem_of_In _ _) Hc)).
    rewrite Hp in Hc. apply list_elem_of_fmap in Hc as ([c' v] & -> & Hin).
    specialize (Hk _ (proj1 (list_elem_of_In _ _) Hin)). simpl in *.
    apply andb_prop in Hk as [Hk _].
    destruct (Z.eqb_spec c' Obj_kClassId); [by left|]. right. simpl in *.
    split; [done|]. apply negb_true_iff, Z.ltb_ge in Ha. done.
  - intros c v Hc. apply elem_of_map_to_list in Hc.
    specialize (Hk _ (proj1 (list_elem_of_In _ _) Hc)). simpl in Hk.
    apply andb_prop in Hk as [_ Hk]. apply negb_true_iff in Hk.
    by apply bool_decide_eq_false in Hk.
Qed.

Lemma elem_of_active s id classes : (id, classes) ∈ active s ↔ find_active s id = Some classes.
Proof.
  unfold active, find_active. rewrite list_elem_of_omap. split.
  - intros ([i o] & Hin & Ho). apply elem_of_map_to_list in Hin. simpl in Ho.
    destruct o as [c|]; [|done]. simpl in Ho. injection Ho as -> ->. by rewrite Hin.
  - intros H. destruct (s !! id) as [[c|]|] eqn:E; [|done..]. injection H as ->.
    exists (id, Some classes). split; [by apply elem_of_map_to_list|done].
Qed.

Lemma active_NoDup s : NoDup (active s).*1.
Proof.
  unfold active. assert (∀ l : list (Z * option Classes), NoDup l.*1 →
    NoDup (omap (λ e : Z * option Classes, c ← e.2; Some (e.1, c)) l).*1 ∧
    (∀ i, i ∈ (omap (λ e : Z * option Classes, c ← e.2; Some (e.1, c)) l).*1 → i ∈ l.*1))
    as Hl.
  { induction l as [|[i o] l IH]; simpl; [done|]. intros [Hi Hl]%list.NoDup_cons.
    destruct (IH Hl) as [Hn Hs]. destruct o as [c|]; simpl; [|split; [done|set_solver]].
    split; [|set_solver]. apply list.NoDup_cons. split; [|done]. intros Hin.
    by apply Hi, Hs. }
  apply Hl, NoDup_fst_map_to_list.
Qed.

(** Stored class chains: accepted storage has, for each object with layers,
    one entry that lists exactly its stored classes, whose most derived class is
    one of them, is registered with a factory, and has every stored class other
    than [Obj] registered and as its ancestor; identifiers are valid and no class
    is without layers. *)
Theorem ValidateStoredClassChains_sound s chains
    (H : ValidateStoredClassChains s = Some chains) :
  (∀ id classes, find_active s id = Some classes →
     ∃ info, chain_of chains id = Some info ∧ info ∈ chains ∧
       chain_obj_id info = id ∧ chain_ok classes info) ∧
  (∀ info, info ∈ chains → ∃ classes,
     find_active s (chain_obj_id info) = Some classes ∧ chain_ok classes info).
Proof.
  unfold ValidateStoredClassChains in H. apply mapM_Some in H.
  assert (∀ info, info ∈ chains → ∃ classes,
     find_active s (chain_obj_id info) = Some classes ∧ chain_ok classes info) as Hback.
  { intros info [i Hi]%list_elem_of_lookup_1.
    destruct (Forall2_lookup_r _ _ _ _ _ H Hi) as ([id c] & Hc & Hv).
    apply validate_chain_spec in Hv as [Hid Hok]. simpl in *. exists c. split; [|done].
    rewrite Hid. apply elem_of_active. by eapply list_elem_of_lookup_2. }
  split; [|done]. intros id classes Hc.
  assert (∃ info, info ∈ chains ∧ chain_obj_id info = id) as (info0 & Hin0 & Hid0).
  { apply elem_of_active, list_elem_of_lookup_1 in Hc as [i Hi].
    destruct (Forall2_lookup_l _ _ _ _ _ H Hi) as (info & Hinfo & Hv).
    apply validate_chain_spec in Hv as [Hid _].
    exists info. split; [by eapply list_elem_of_lookup_2|done]. }
  unfold chain_of. destruct (find _ chains) as [info|] eqn:Hf.
  - apply find_some in Hf as [Hin Heq]. apply list_elem_of_In in Hin.
    apply Z.eqb_eq in Heq. exists info. split; [done|]. split; [done|]. split; [done|].
    destruct (Hback info Hin) as (c & Hc' & Hok). rewrite Heq, Hc in Hc'. by simplify_eq.
  - exfalso. pose proof (find_none _ _ Hf info0 (proj1 (list_elem_of_In _ _) Hin0)) as Hx.
    simpl in Hx. rewrite Hid0, Z.eqb_refl in Hx. done.
Qed.
End chain_lemmas.

(** ** Lemmas: writing layers *)
Section transfer_lemmas.
  Context {S : Type} `{!DomainStorage S, !StorageLaws S}.
  Implicit Types (st : S) (l : list (DomainQuery * bytes)).

(** No layer is given two contents. *)
Definition consistent_layers l : Prop :=
  ∀ q d d', (q, d) ∈ l → (q, d') ∈ l → d = d'.

Lemma write_layers_keep l : ∀ st st' q d,
  write_layers l st = (true, st') → Load st q = kLoaded d →
  (∀ d', (q, d') ∈ l → d' = d) → Load st' q = kLoaded d.
Proof.
  induction l as [|[q0 d0] l IH]; intros st st' q d H Hl Hd; simpl in H.
  { by simplify_eq. }
  destruct (Store st q0 d0) as [s1|] eqn:E; [|done].
  eapply IH; [done| |intros d' Hin; apply Hd; set_solver].
  destruct (decide (q = q0)) as [->|Hne].
  - rewrite (Load_Store_same _ _ _ _ E). f_equal. apply Hd. set_solver.
  - destruct (Load_Store_other _ _ _ _ q E Hne) as [->|(_ & Hr & _)]; congruence.
Qed.

Lemma write_layers_stored l : ∀ st st' q d,
  write_layers l st = (true, st') → consistent_layers l → (q, d) ∈ l →
  Load st' q = kLoaded d.
Proof.
  induction l as [|[q0 d0] l IH]; intros st st' q d H Hc Hin; simpl in H.
  { by apply elem_of_nil in Hin. }
  destruct (Store st q0 d0) as [s1|] eqn:E; [|done].
  assert (consistent_layers l) as Hcl.
  { intros q' x y Hx Hy. apply (Hc q' x y); set_solver. }
  apply elem_of_cons in Hin as [[= -> ->]|Hin]; [|by eapply IH].
  eapply write_layers_keep; [done|by apply (Load_Store_same _ _ _ _ E)|].
  intros d' Hd'. apply (Hc q0 d' d0); set_solver.
Qed.

Lemma write_layers_other l : ∀ ok st st' q,
  write_layers l st = (ok, st') → (∀ e, e ∈ l → q_id e.1 ≠ q_id q) →
  Load st' q = Load st q.
Proof.
  induction l as [|[q0 d0] l IH]; intros ok st st' q H Hne; simpl in H.
  { by simplify_eq. }
  destruct (Store st q0 d0) as [s1|] eqn:E; [|by simplify_eq].
  pose proof (Hne (q0, d0) ltac:(set_solver)) as H0. simpl in H0.
  rewrite (IH ok s1 st' q H) by set_solver.
  destruct (Load_Store_other _ _ _ _ q E) as [?|(? & _)]; congruence.
Qed.

Lemma write_layers_app l k st :
  write_layers (l ++ k) st =
    let '(ok, st') := write_layers l st in
    if ok : bool then write_layers k st' else (false, st').
Proof.
  revert st; induction l as [|[q d] l IH]; intros st; simpl; [done|].
  destruct (Store st q d); [apply IH|done].
Qed.

Lemma elem_of_layer_list id classes q d :
  (q, d) ∈ layer_list id classes ↔
  q_id q = id ∧ ∃ vs, classes !! q_class q = Some vs ∧ vs !! q_version q = Some d.
Proof.
  unfold layer_list. rewrite list_elem_of_bind. split.
  - intros ([c vs] & Hin & Hc). apply elem_of_map_to_list in Hc.
    apply list_elem_of_bind in Hin as ([v x] & Hin & Hv).
    apply elem_of_map_to_list in Hv. apply list_elem_of_singleton in Hin.
    simplify_eq/=. eauto.
  - intros (<- & vs & Hc & Hv). exists (q_class q, vs).
    split; [|by apply elem_of_map_to_list]. apply list_elem_of_bind.
    exists (q_version q, d). split; [|by apply elem_of_map_to_list].
    simpl. destruct q. set_solver.
Qed.

(** Everything a list of objects writes. *)
Definition all_layers (src : RamState) (l : list (Z * Classes)) :
    list (DomainQuery * bytes) :=
  e ← l; layer_list e.1 (default ∅ (find_active src e.1)).

Lemma commit_objects_write src (l : list (Z * Classes)) : ∀ st st',
  commit_objects src l st = Some st' → write_layers (all_layers src l) st = (true, st').
Proof.
  induction l as [|[id c] l IH]; intros st st' H; simpl in H; [by simplify_eq|].
  unfold all_layers. cbn [mbind list_bind]. rewrite write_layers_app. simpl.
  unfold TransferRamObject in H.
  destruct (find_active src id) as [classes|]; simpl.
  - destruct (write_layers _ st) as [[] s1]; [|done]. apply IH. exact H.
  - apply IH. exact H.
Qed.

Lemma elem_of_all_layers src (ol : list (Z * Classes)) q d :
  (q, d) ∈ all_layers src ol → ∃ classes vs, q_id q ∈ ol.*1 ∧
    find_active src (q_id q) = Some classes ∧
    classes !! q_class q = Some vs ∧ vs !! q_version q = Some d.
Proof.
  unfold all_layers. intros (e & Hin & He)%list_elem_of_bind.
  apply elem_of_layer_list in Hin as (Hid & vs & Hc & Hv).
  destruct (find_active src e.1) as [classes|] eqn:Hf; [|done]. simpl in Hc.
  exists classes, vs. rewrite Hid. split; [|done]. apply list_elem_of_fmap. eauto.
Qed.

(** Committing a parsed graph: when [CommitObjectGraph] completes, every layer
    of the graph is what the storage loads, and no layer of an object the graph
    does not hold has changed. *)
Theorem CommitObjectGraph_writes parsed target target'
    (H : CommitObjectGraph parsed target = Some target') :
  (∀ id classes c vs v d, find_active parsed id = Some classes →
     classes !! c = Some vs → vs !! v = Some d →
     Load target' (mkQuery id c v) = kLoaded d) ∧
  (∀ q, find_active parsed (q_id q) = None → Load target' q = Load target q).
Proof.
  apply commit_objects_write in H. split.
  - intros id classes c vs v d Hf Hc Hv.
    eapply write_layers_stored; [done| |].
    + intros q x y (c1 & v1 & _ & Hf1 & Hc1 & Hx)%elem_of_all_layers
        (c2 & v2 & _ & Hf2 & Hc2 & Hy)%elem_of_all_layers. congruence.
    + unfold all_layers. apply list_elem_of_bind. exists (id, classes).
      split; [|by apply elem_of_active]. simpl. rewrite Hf. simpl.
      apply elem_of_layer_list. simpl. eauto.
  - intros q Hn. eapply write_layers_other; [done|]. intros [q' d] Hin Heq. simpl in Heq.
    apply elem_of_all_layers in Hin as (c & vs & _ & Hf & _). congruence.
Qed.

(** ** Allocation *)
  Context {ids : AetherIds}.

Definition free_id (in_domain : Z → bool) st (reserved : gset Z) (id : Z) : Prop :=
  (id ∉ reserved) ∧ in_domain id = false ∧ Enumerate st id = [].

Lemma Allocate_free fuel generate in_domain st reserved id :
  AllocateUniqueReceiverObjId fuel generate in_domain st reserved = Some id →
  ObjId_is_valid id = true ∧ free_id in_domain st reserved id.
Proof.
  revert generate; induction fuel as [|fuel IH]; intros generate H; simpl in H; [done|].
  destruct (ObjId_is_valid (generate 0%nat)) eqn:Hv; simpl in H; [|by apply IH in H].
  case_bool_decide as Hr; [by apply IH in H|].
  destruct (in_domain (generate 0%nat)) eqn:Hd; [by apply IH in H|].
  case_bool_decide as He; simpl in H; [|by apply IH in H].
  by injection H as <-.
Qed.

(** Allocation terminates with a fresh identifier: when the generator returns
    valid distinct identifiers and all but finitely many of them ([busy]) are
    free, [size busy + 1] rounds are enough, and the identifier returned is
    valid, not reserved, and not used in the Domain or in the storage. *)
Theorem AllocateUniqueReceiverObjId_terminates generate in_domain st reserved
    (busy : gset Z)
    (Hinj : ∀ i j, i ≠ j → generate i ≠ generate j)
    (Hvalid : ∀ i, ObjId_is_valid (generate i) = true)
    (Hbusy : ∀ i, generate i ∉ busy → free_id in_domain st reserved (generate i)) :
  ∃ id, AllocateUniqueReceiverObjId (Datatypes.S (size busy)) generate in_domain st
          reserved = Some id ∧
    ObjId_is_valid id = true ∧ free_id in_domain st reserved id.
Proof.
  assert (∃ id, AllocateUniqueReceiverObjId (Datatypes.S (size busy)) generate in_domain
    st reserved = Some id) as [id Hid].
  2: { exists id. split; [done|]. by eapply Allocate_free. }
  remember (size busy) as k eqn:Hk.
  revert generate busy Hk Hinj Hvalid Hbusy.
  induction k as [|k IH]; intros generate busy Hk Hinj Hvalid Hbusy.
  - destruct (Hbusy 0%nat) as (Hr & Hd & He).
    { symmetry in Hk. apply size_empty_inv in Hk. set_solver. }
    simpl. rewrite Hvalid, Hd, He. simpl. rewrite bool_decide_eq_false_2 by done. eauto.
  - destruct (decide (generate 0%nat ∈ busy)) as [Hin|Hnin].
    + destruct (IH (λ i, generate (Datatypes.S i)) (busy ∖ {[generate 0%nat]}))
        as [id Hid]; [|auto|auto| |].
      * rewrite size_difference by set_solver. rewrite size_singleton. lia.
      * intros i Hi. apply Hbusy. intros Hb. apply Hi.
        assert (generate (Datatypes.S i) ≠ generate 0%nat) by (apply Hinj; lia). set_solver.
      * remember (Datatypes.S k) as fuel. simpl. rewrite Hvalid. simpl.
        repeat case_match; eauto.
    + destruct (Hbusy 0%nat Hnin) as (Hr & Hd & He). remember (Datatypes.S k) as fuel.
      simpl. rewrite Hvalid, Hd, He. simpl. rewrite bool_decide_eq_false_2 by done. eauto.
Qed.
End transfer_lemmas.

(** ** Payload round trips and the import of one event *)

(** What the archive does: a load takes back exactly what a successful save wrote
    and leaves the bytes after it. *)
Class ArchiveLaws (O : Type) `{!ObjectSystem O} : Prop := {
  archive_id_roundtrip id b rest :
    archive_Save_id id = (true, b) → archive_Load_id (b ++ rest) = Some (id, rest);
  archive_state_roundtrip s b rest :
    archive_Save_state s = (true, b) → archive_Load_state (b ++ rest) = Some (s, rest)
}.

Section payload_lemmas.
  Context {O : Type} {reg : AetherRegistry} {ids : AetherIds} `{!ObjectSystem O}.

Lemma FreezeEventPayload_inv o id permitted payload :
  FreezeEventPayload o id permitted = Some payload →
  id ∈ permitted ∧
  (∀ i c, find_active (SaveNetworkShared o id) i = Some c → i ∈ permitted) ∧
  is_Some (ValidateClosedEventGraphStorage (SaveNetworkShared o id) id (GetClassId o)) ∧
  ∃ head body, archive_Save_id id = (true, head) ∧
    archive_Save_state (SaveNetworkShared o id) = (true, body) ∧ payload = head ++ body.
Proof.
  unfold FreezeEventPayload. case_bool_decide as Hp; cbn [negb]; [|done].
  destruct (forallb _ _) eqn:Ha; cbn [negb]; [|done].
  destruct (ValidateClosedEventGraphStorage _ _ _) as [chains|] eqn:Hv;
    [cbn [mbind option_bind]|done].
  destruct (archive_Save_id id) as [[] head] eqn:Hi; cbn [negb]; [|done].
  destruct (archive_Save_state _) as [[] body] eqn:Hs; cbn [negb]; [|done].
  intros [= <-]. split; [done|]. split; [|split; [by eexists|by exists head, body]].
  intros i c Hc. apply elem_of_active in Hc. rewrite forallb_forall in Ha.
  specialize (Ha _ (proj1 (list_elem_of_In _ _) Hc)). by apply bool_decide_eq_true in Ha.
Qed.

Lemma ValidateClosed_inv s root expected chains :
  ValidateClosedEventGraphStorage s root expected = Some chains →
  ObjId_is_valid root = true ∧ is_Some (find_active s root).
Proof.
  unfold ValidateClosedEventGraphStorage.
  destruct (ObjId_is_valid root); cbn [negb]; [|done].
  destruct (find_active s root); [|done]. intros _. split; [done|by eexists].
Qed.

(** Event payload round trip: what the standalone freeze produces parses back
    to exactly the frozen storage and the event's identifier, for an archive that
    reads back what it writes; and the frozen storage holds no object but the
    event. *)
Theorem FreezeStandaloneEventPayload_roundtrip (laws : ArchiveLaws O) o id payload
    (Hf : FreezeStandaloneEventPayload o id = Some payload) :
  ParseEventPayload payload = Some (SaveNetworkShared o id, id) ∧
  (∀ i c, find_active (SaveNetworkShared o id) i = Some c → i = id).
Proof.
  unfold FreezeStandaloneEventPayload in Hf.
  apply FreezeEventPayload_inv in Hf as (Hin & Hall & [chains Hv] & head & body & Hh & Hb & ->).
  apply ValidateClosed_inv in Hv as [Hid [c Hc]]. rewrite Hid in Hin, Hall.
  split; [|set_solver]. unfold ParseEventPayload.
  rewrite (archive_id_roundtrip id head body Hh). cbn [mbind option_bind]. rewrite Hid.
  cbn [negb]. rewrite <-(app_nil_r body), (archive_state_roundtrip _ body [] Hb).
  cbn [mbind option_bind]. rewrite bool_decide_eq_true_2 by done. cbn [negb].
  by rewrite Hc.
Qed.

  Context {S : Type} `{!DomainStorage S, !StorageLaws S}.

Lemma ValidateStandalone_inv s root expected :
  ValidateStandaloneEventGraph s root expected = true →
  ObjId_is_valid root = true ∧ (active s).*1 = [root] ∧
  0 ≤ GenerationDistance Event_kClassId expected.
Proof.
  unfold ValidateStandaloneEventGraph. intros H. repeat case_match; try done.
  breflect. done.
Qed.

(** Importing a standalone event: whatever the payload holds, an import writes
    only layers of one identifier that was valid, unused in the storage and
    unknown to the Domain; nothing at all is written for a graph that is not a
    single registered event of the expected class; and an imported event has that
    class and its layers are the ones received. *)
Theorem ImportStandaloneEventGraph_spec fuel generate in_domain import s root expected
    (st st' : S) r
    (H : ImportStandaloneEventGraph fuel generate in_domain import s root expected st
         = Some (st', r)) :
  (ValidateStandaloneEventGraph s root expected = false → st' = st ∧ r = None) ∧
  (st' = st ∨ ∃ id, ObjId_is_valid id = true ∧ free_id in_domain st ∅ id ∧
     (∀ q, q_id q ≠ id → Load st' q = Load st q)) ∧
  (∀ id o, r = Some (id, o) →
     free_id in_domain st ∅ id ∧ GetClassId o = expected ∧
     0 ≤ GenerationDistance Event_kClassId expected ∧
     (∀ classes c vs v d, find_active s root = Some classes → classes !! c = Some vs →
        vs !! v = Some d → Load st' (mkQuery id c v) = kLoaded d)).
Proof.
  unfold ImportStandaloneEventGraph in H.
  destruct (ValidateStandaloneEventGraph s root expected) eqn:Hv; cbn [negb] in H.
  2: { simplify_eq. split; [done|]. split; [by left|done]. }
  destruct (AllocateUniqueReceiverObjId _ _ _ _ _) as [id|] eqn:Ha;
    [cbn [mbind option_bind] in H|done].
  apply Allocate_free in Ha as [Hid Hfree]. rewrite Hid in H. cbn [negb] in H.
  destruct (CopyStoredObjectAs s root id st) as [ok st1] eqn:Hcp.
  assert (∀ q, q_id q ≠ id → Load st1 q = Load st q) as Hother.
  { intros q Hq. unfold CopyStoredObjectAs in Hcp.
    destruct (find_active s root) as [cl|]; [|by simplify_eq].
    eapply write_layers_other; [done|]. intros [q' d] Hin.
    apply elem_of_layer_list in Hin as [Hqi _]. simpl. congruence. }
  assert (st' = st1) as ->.
  { destruct ok; cbn [negb] in H; repeat case_match; by simplify_eq. }
  split; [done|]. split; [right; by exists id|].
  intros id' o ->. destruct ok; cbn [negb] in H; [|done].
  destruct (import st1 id) as [o'|]; [|done].
  destruct (Z.eqb_spec (GetClassId o') expected) as [Hcl|]; cbn [negb] in H; [|done].
  simplify_eq. apply ValidateStandalone_inv in Hv as (_ & _ & Hev).
  split; [done|]. split; [done|]. split; [done|].
  intros classes c vs v d Hf Hc Hvs. unfold CopyStoredObjectAs in Hcp. rewrite Hf in Hcp.
  eapply write_layers_stored; [done| |by apply elem_of_layer_list; eauto].
  intros q x y (_ & v1 & H1 & H1')%elem_of_layer_list (_ & v2 & H2 & H2')%elem_of_layer_list.
  congruence.
Qed.
End payload_lemmas.

(** ** A concrete object system and graph *)
Module Examples.
Import Aether.Demo DemoStorage.

(** Event 50 of class 10 with a layer for [Event] and one for its own class. *)
Definition event_graph : RamState :=
  {[50 := Some {[3 := {[0 := []]}; 10 := {[0 := [4; 2]]}]}]}.

(** Objects are their class; the archive writes an identifier as itself and knows
    one state. *)
#[local] Instance objects : ObjectSystem Z := {|
  archive_Load_id b := match b with i :: rest => Some (i, rest) | [] => None end;
  archive_Load_state b :=
    match b with 77 :: rest => Some (event_graph, rest) | _ => None end;
  archive_Save_id i := (true, [i]);
  archive_Save_state s := if decide (s = event_graph) then (true, [77]) else (false, []);
  LoadRoot s id := match find_active s id with Some _ => Some 10 | None => None end;
  GetClassId o := o;
  SaveNetworkShared o id := event_graph;
  obj_pointers o := []
|}.

#[local] Instance objects_laws : ArchiveLaws Z.
Proof.
  split.
  - intros id b rest [= <-]. done.
  - intros s b rest. simpl. case_decide as Hs; [|done]. intros [= <-]. by subst.
Qed.

Definition event_classes : Classes := {[3 := {[0 := []]}; 10 := {[0 := [4; 2]]}]}.

Lemma ValidateStoredClassChains_sound_witness :
  ValidateStoredClassChains event_graph = Some [mkChain 50 [3; 10] 10] ∧
  chain_ok event_classes (mkChain 50 [3; 10] 10).
Proof.
  split; [vm_compute; reflexivity|].
  edestruct (ValidateStoredClassChains_sound event_graph [mkChain 50 [3; 10] 10])
    as [Hall _]; [vm_compute; reflexivity|].
  destruct (Hall 50 event_classes) as (info & Hc & _ & _ & Hok); [vm_compute; reflexivity|].
  vm_compute in Hc. injection Hc as <-. exact Hok.
Defined.

Definition occupied : DemoStorage.t := {[1000 := Some {[(2, 0) := [1]]}]}.

Lemma CommitObjectGraph_writes_witness :
  ∃ t, CommitObjectGraph event_graph occupied = Some t ∧
    Load t (mkQuery 50 10 0) = kLoaded [4; 2] ∧ Load t (mkQuery 1000 2 0) = kLoaded [1].
Proof.
  eexists. split; [vm_compute; reflexivity|].
  edestruct (CommitObjectGraph_writes event_graph occupied) as [Hw Ho].
  - vm_compute. reflexivity.
  - split.
    + eapply Hw; vm_compute; reflexivity.
    + rewrite Ho; vm_compute; reflexivity.
Defined.

Definition generate (i : nat) : Z := 1000 + Z.of_nat i.

(** The first identifier the generator returns is taken. *)
Lemma AllocateUniqueReceiverObjId_terminates_witness :
  ∃ id, AllocateUniqueReceiverObjId 2 generate (λ _, false) occupied ∅ = Some id ∧
    id = 1001 ∧ free_id (λ _, false) occupied ∅ id.
Proof.
  destruct (AllocateUniqueReceiverObjId_terminates generate (λ _, false) occupied ∅ {[1000]})
    as (id & Hid & _ & Hf).
  - intros i j Hij. unfold generate. lia.
  - intros i. unfold generate. simpl. destruct (Z.eqb_spec (1000 + Z.of_nat i) 0); [lia|done].
  - intros i Hi. split; [apply not_elem_of_empty|]. split; [reflexivity|].
    apply not_elem_of_singleton in Hi. simpl. unfold layers, occupied.
    rewrite lookup_singleton_ne by congruence. reflexivity.
  - rewrite size_singleton in Hid. exists id. split; [exact Hid|]. split; [|exact Hf].
    vm_compute in Hid. by injection Hid.
Defined.

Lemma FreezeStandaloneEventPayload_roundtrip_witness :
  FreezeStandaloneEventPayload (10 : Z) 50 = Some [50; 77] ∧
  ParseEventPayload [50; 77] = Some (event_graph, 50).
Proof.
  split; [vm_compute; reflexivity|].
  refine (proj1 (FreezeStandaloneEventPayload_roundtrip objects_laws (10 : Z) 50 [50; 77] _)).
  vm_compute. reflexivity.
Defined.

Lemma ImportStandaloneEventGraph_spec_witness :
  ∃ t, ImportStandaloneEventGraph 2 generate (λ _, false) (λ _ _, Some 10)
      event_graph 50 10 occupied = Some (t, Some (1001, 10)) ∧
    Load t (mkQuery 1001 10 0) = kLoaded [4; 2].
Proof.
  eexists. split; [vm_compute; reflexivity|].
  edestruct (ImportStandaloneEventGraph_spec (O := Z) 2 generate (λ _, false)
    (λ _ _, Some 10) event_graph 50 10 occupied) as (_ & _ & Hi).
  - vm_compute. reflexivity.
  - destruct (Hi 1001 10 eq_refl) as (_ & _ & _ & Hl).
    eapply Hl; vm_compute; reflexivity.
Defined.
End Examples.
