(* ===== verification/SyncRuntime.v ===== *)
(** * The shared synchronization runtime (shared_sync_runtime.h, .cpp)

    One replica's runtime: it routes received bytes to the shared node a frame
    names and drives the initial-state and incremental exchanges of each Share
    relationship.  Operations are in a monad of the runtime state, a trace of
    durable effects (saves, writes into storage, sends, in their order), and failed
    assertions.

    Services of the object system are the classes [ObjectSystem] (scratch graphs)
    and [ReplicaWorld] (the replica's Domain with its storage). *)
From S2P Require Import Prelude Aether SharedEvent Node LinkSync.
From S2P Require Import SharedNode SyncFrame DomainStorage StoredGraph.

(** ** Data *)

(** The objects that graphs hold, with their most derived class. *)
Inductive GraphObject (A AE : Type) :=
| ONode (class : Z) (n : SharedNode A AE)
| OEvent (e : SharedNodeEvent AE)
| OLink (endpoint_uid : string)
| OOther (class : Z).
Arguments ONode {A AE}.
Arguments OEvent {A AE}.
Arguments OLink {A AE}.
Arguments OOther {A AE}.

(** A registered shared node with its most derived class. *)
Record NodeObj (A AE : Type) := mkNodeObj { no_class : Z; no_node : SharedNode A AE }.
Arguments mkNodeObj {A AE}.
Arguments no_class {A AE}.
Arguments no_node {A AE}.

(** What an event object answers: the node class it is written against, and its
    identifier. *)
Class EventObjects (AE : Type) := {
  TargetClassId : SharedNodeEvent AE → Z;
  event_obj_id : SharedNodeEvent AE → Z
}.

(** The replica's Domain and storage [W].  [DomainLoadRoot]: an object loaded from
    the storage; [DomainFind]: whether the Domain has the object.
    [EndpointUidOf]: the endpoint of the Link object the Domain has or can load.
    [SaveObject]: [ptr.Save()].  [scratch_after_replay]: a scratch storage after the
    candidate loaded from it was replayed in it; the synchronization states the
    replay creates capture their bases there. *)
Class ReplicaWorld (W A AE : Type) := {
  world_storage :: DomainStorage W;
  DomainLoadRoot : W → Z → option (GraphObject A AE);
  DomainFind : W → Z → bool;
  EndpointUidOf : W → Z → option string;
  SaveObject : W → Z → GraphObject A AE → W;
  SaveSyncState : W → SyncNode → W;
  ram_storage :: DomainStorage RamState;
  scratch_after_replay : RamState → SharedNode A AE → RamState
}.

Record EndpointExpectation := mkExpectation {
  exp_source_endpoint : string;
  exp_root_class_id : Z;
  exp_node_id : Z
}.

(** What the runtime did outside its own state. *)
Inductive Effect (A AE : Type) :=
| SavedNode (n : NodeObj A AE)
| SavedState (s : SyncNode)
| WroteGraph (g : RamState)
| WroteEvent (id : Z)
| Sent (destination : string) (packet : bytes).
Arguments SavedNode {A AE}.
Arguments SavedState {A AE}.
Arguments WroteGraph {A AE}.
Arguments WroteEvent {A AE}.
Arguments Sent {A AE}.

(** [initial_node_imported_callback_]: the application's answer for a source
    endpoint and an imported node, when it is set. *)
Record SharedSyncRuntime (W A AE : Type) := mkSync {
  world : W;
  local_endpoint_uid : string;
  nodes_ : list (NodeObj A AE);
  expected_initial_nodes_ : list Z;
  expected_endpoint_nodes_ : list EndpointExpectation;
  initial_node_imported_callback_ : option (string → NodeObj A AE → bool);
  standalone_event_classes_ : list Z
}.
Arguments mkSync {W A AE}.
Arguments world {W A AE}.
Arguments local_endpoint_uid {W A AE}.
Arguments nodes_ {W A AE}.
Arguments expected_initial_nodes_ {W A AE}.
Arguments expected_endpoint_nodes_ {W A AE}.
Arguments initial_node_imported_callback_ {W A AE}.
Arguments standalone_event_classes_ {W A AE}.

(** ** Topology questions

    [endpoint] resolves a Link identifier to the endpoint of the Link object, when
    the object is in the graph. *)
Section topology.
  Context {A AE : Type}.
  Implicit Types n : SharedNode A AE.

Definition ShareEndpoint (endpoint : Z → option string) (s : Share) : option string :=
  l ← link s; endpoint l.

Definition ShareEndpointOf (endpoint : Z → option string) n (id : Z) : option string :=
  s ← shares (fields n) !! FindShareIndexForShare (fields n) id;
  ShareEndpoint endpoint s.

Definition endpoint_is (endpoint : Z → option string) (uid : string) (s : Share) : bool :=
  match ShareEndpoint endpoint s with
  | Some u => String.eqb u uid
  | None => false
  end.

Definition TopologyKnowsEndpoint endpoint n (uid : string) : bool :=
  existsb (endpoint_is endpoint uid) (shares (fields n)).

Definition AddressedToThisReplica endpoint n (local source : string) (share : Z) : bool :=
  if String.eqb source local then false else
  match ShareEndpointOf endpoint n share with
  | None => false
  | Some destination =>
      if negb (String.eqb destination local) then false
      else TopologyKnowsEndpoint endpoint n source
  end.

Definition ShareOfEndpoint endpoint n (uid : string) : option Share :=
  find (endpoint_is endpoint uid) (shares (fields n)).

Definition EventAddressedToThisReplica endpoint n (local source : string) (share : Z)
    : bool :=
  if String.eqb source local then false else
  match ShareEndpointOf endpoint n share with
  | None => false
  | Some destination =>
      if negb (String.eqb destination local) then false else
      match ShareOfEndpoint endpoint n source with
      | None => false
      | Some s => access s =? ShareAccess.ReadWrite
      end
  end.

Definition NextUndeliveredSharedEvent n (state : LinkSyncFields) `{!AetherIds}
    (destination : string) : option (EventRecord (SharedNodeEvent AE)) :=
  find (λ r, HasSharedIdentity r &&
             negb (HasDelivered state (identity r)) &&
             negb (HasPendingEvent state &&
                   SharedEventId_eqb (pending_event_identity state) (identity r)) &&
             negb (String.eqb (origin_uid (identity r)) destination))
    (journal n).
End topology.

(** ** The monad *)
Section monad.
  Context {W A AE : Type}.

Definition M (X : Type) : Type :=
  SharedSyncRuntime W A AE → option (X * SharedSyncRuntime W A AE * list (Effect A AE)).

Definition ret {X} (x : X) : M X := λ rt, Some (x, rt, []).
Definition bind {X Y} (m : M X) (k : X → M Y) : M Y :=
  λ rt, '(x, rt, e1) ← m rt; '(y, rt, e2) ← k x rt; Some (y, rt, e1 ++ e2).
Definition get : M (SharedSyncRuntime W A AE) := λ rt, Some (rt, rt, []).
Definition put (rt : SharedSyncRuntime W A AE) : M unit := λ _, Some (tt, rt, []).
Definition emit (e : Effect A AE) : M unit := λ rt, Some (tt, rt, [e]).
(** A failed assertion when there is no value. *)
Definition required {X} (x : option X) : M X := λ rt, y ← x; Some (y, rt, []).
Definition check (b : bool) : M unit := λ rt, if b then Some (tt, rt, []) else None.
End monad.
Arguments M : clear implicits.

Notation "'let*' x ':=' m 'in' k" := (bind m (λ x, k))
  (at level 10, x pattern, m at level 100, k at level 200)
  : apptraverse_scope.
Notation "m ';*' k" := (bind m (λ _, k))
  (at level 100, k at level 200, right associativity) : apptraverse_scope.

(** ** Operations *)
Section runtime.
  Context {W A AE : Type}.
  Context {ids : AetherIds} {reg : AetherRegistry} {rep : Replica}.
  Context `{!NodeKind A AE} {evs : EventObjects AE}.
  Context {objs : ObjectSystem (GraphObject A AE)} {rw : ReplicaWorld W A AE}.
  Implicit Types rt : SharedSyncRuntime W A AE.
  Implicit Types n : SharedNode A AE.
  Implicit Types no : NodeObj A AE.

Definition set_world rt (w : W) : SharedSyncRuntime W A AE :=
  mkSync w (local_endpoint_uid rt) (nodes_ rt) (expected_initial_nodes_ rt)
    (expected_endpoint_nodes_ rt) (initial_node_imported_callback_ rt)
    (standalone_event_classes_ rt).
Definition set_nodes rt (l : list (NodeObj A AE)) : SharedSyncRuntime W A AE :=
  mkSync (world rt) (local_endpoint_uid rt) l (expected_initial_nodes_ rt)
    (expected_endpoint_nodes_ rt) (initial_node_imported_callback_ rt)
    (standalone_event_classes_ rt).
Definition set_expected_nodes rt (l : list Z) : SharedSyncRuntime W A AE :=
  mkSync (world rt) (local_endpoint_uid rt) (nodes_ rt) l
    (expected_endpoint_nodes_ rt) (initial_node_imported_callback_ rt)
    (standalone_event_classes_ rt).
Definition set_expectations rt (l : list EndpointExpectation)
    : SharedSyncRuntime W A AE :=
  mkSync (world rt) (local_endpoint_uid rt) (nodes_ rt) (expected_initial_nodes_ rt)
    l (initial_node_imported_callback_ rt) (standalone_event_classes_ rt).

(** [event->GetClassId()] *)
Definition event_class (e : SharedNodeEvent AE) : Z :=
  GetClassId (OEvent e : GraphObject A AE).

(** *** Registration and expectations *)

Definition node_is (id : Z) no : bool := obj_id (no_node no) =? id.

Definition FindNode rt (id : Z) : option (NodeObj A AE) := find (node_is id) (nodes_ rt).

(** Asserted before: the pointer is valid and loaded. *)
Definition RegisterNode no : M W A AE unit :=
  let* rt := get in
  check match FindNode rt (obj_id (no_node no)) with None => true | Some _ => false end ;*
  put (set_nodes rt (nodes_ rt ++ [no])).

Definition ExpectInitialNode (id : Z) : M W A AE unit :=
  check (ObjId_is_valid id) ;*
  let* rt := get in
  put (set_expected_nodes rt (expected_initial_nodes_ rt ++ [id])).

Definition IsExpectedInitialNode rt (id : Z) : bool :=
  bool_decide (id ∈ expected_initial_nodes_ rt).

Definition expectation_of (source : string) (e : EndpointExpectation) : bool :=
  String.eqb (exp_source_endpoint e) source.

(** An existing expectation of the endpoint is overwritten in place. *)
Fixpoint update_expectation (source : string) (class node : Z)
    (l : list EndpointExpectation) : option (list EndpointExpectation) :=
  match l with
  | [] => None
  | e :: l =>
      if expectation_of source e then Some (mkExpectation (exp_source_endpoint e) class node :: l)
      else l ← update_expectation source class node l; Some (e :: l)
  end.

Definition ExpectInitialNodeFromEndpoint (source : string) (class node : Z)
    : M W A AE unit :=
  if String.eqb source "" || (class =? 0) then ret tt else
  let* rt := get in
  put (set_expectations rt
    match update_expectation source class node (expected_endpoint_nodes_ rt) with
    | Some l => l
    | None => expected_endpoint_nodes_ rt ++ [mkExpectation source class node]
    end).

Definition ForgetInitialNodeFromEndpoint (source : string) : M W A AE unit :=
  if String.eqb source "" then ret tt else
  let* rt := get in
  put (set_expectations rt
    (List.filter (λ e, negb (expectation_of source e)) (expected_endpoint_nodes_ rt))).

Definition IsStandaloneEventClassAllowed rt (class : Z) : bool :=
  bool_decide (class ∈ standalone_event_classes_ rt).

Definition AllowStandaloneEventClass (class : Z) : M W A AE unit :=
  if class =? 0 then ret tt
  else if GenerationDistance Event_kClassId class <? 0 then ret tt
  else
    let* rt := get in
    if negb (IsStandaloneEventClassAllowed rt class)
    then put (mkSync (world rt) (local_endpoint_uid rt) (nodes_ rt)
                (expected_initial_nodes_ rt) (expected_endpoint_nodes_ rt)
                (initial_node_imported_callback_ rt)
                (standalone_event_classes_ rt ++ [class]))
    else ret tt.

(** *** Durable effects *)

(** The node objects of [nodes_] are the objects of the Domain: a changed node is
    changed there. *)
Definition replace_node no (l : list (NodeObj A AE)) : list (NodeObj A AE) :=
  (λ x, if node_is (obj_id (no_node no)) x then no else x) <$> l.
Definition update_node no : M W A AE unit :=
  let* rt := get in put (set_nodes rt (replace_node no (nodes_ rt))).

Definition save_node no : M W A AE unit :=
  let* rt := get in
  put (set_world rt
    (SaveObject (world rt) (obj_id (no_node no)) (ONode (no_class no) (no_node no)))) ;*
  emit (SavedNode no).

Definition save_sync_state (s : SyncNode) : M W A AE unit :=
  let* rt := get in
  put (set_world rt (SaveSyncState (A := A) (AE := AE) (world rt) s)) ;*
  emit (SavedState s).

Definition Send_to (destination : string) (packet : bytes) : M W A AE unit :=
  emit (Sent destination packet).

(** The endpoint of a Link of this replica's Domain. *)
Definition live_endpoint rt : Z → option string :=
  EndpointUidOf (A := A) (AE := AE) (world rt).

(** A node with the synchronization state of one relationship replaced. *)
Definition with_sync_state no (share : Z) (s : SyncNode) : NodeObj A AE :=
  mkNodeObj (no_class no)
    (set_fields (no_node no) (put_sync_state (fields (no_node no)) share s)).

(** *** Sending *)

Record FrozenNodeState := mkFrozen {
  frozen_payload : bytes;
  covered_event_ids : list SharedEventId
}.

(** The snapshot and the identities it covers, from the same scratch storage. *)
Definition FreezeNetworkSharedNodeState no : option FrozenNodeState :=
  let id := obj_id (no_node no) in
  let scratch := SaveNetworkShared (ONode (no_class no) (no_node no)) id in
  match LoadRoot scratch id with
  | Some (ONode _ loaded) =>
      Some (mkFrozen (SerializeObjectGraph (O := GraphObject A AE) scratch)
        (identity <$> filter (λ r, HasSharedIdentity r = true) (journal loaded)))
  | _ => None
  end.

(** The preconditions both drivers assert; the result is the node, the destination
    endpoint and the relationship's synchronization state. *)
Definition open_relationship (node_id share : Z)
    : M W A AE (NodeObj A AE * string * SyncNode) :=
  let* rt := get in
  let* no := required (FindNode rt node_id) in
  let* destination := required (ShareEndpointOf (live_endpoint rt) (no_node no) share) in
  check (negb (String.eqb destination "")) ;*
  check (negb (String.eqb destination (local_endpoint_uid rt))) ;*
  let* state := required (sync_state (fields (no_node no)) share) in
  ret (no, destination, state).

(** [new_id] is the identifier of the event object created for the packet. *)
Definition SyncInitialState (node_id share : Z) (new_id : Z) (now : Readings)
    : M W A AE unit :=
  let* (no, destination, state) := open_relationship node_id share in
  if initial_sync_phase (fields state) =? InitialSyncPhase.Complete then ret tt
  else if initial_sync_phase (fields state) =? InitialSyncPhase.Pending
  then Send_to destination (pending_initial_packet (fields state))
  else
    let* frozen := required (FreezeNetworkSharedNodeState no) in
    let packet := EncodeNodeStateFrame
      (mkNodeStateFrame new_id node_id share (frozen_payload frozen)) in
    let* state := required (Commit state
      (created state (BeginInitialSyncEvent new_id packet (covered_event_ids frozen))) now) in
    let no := with_sync_state no share state in
    update_node no ;*
    save_node no ;*
    save_sync_state state ;*
    Send_to destination (pending_initial_packet (fields state)).

Definition SyncNextEvent (node_id share : Z) (new_id : Z) (now : Readings)
    : M W A AE unit :=
  let* (no, destination, state) := open_relationship node_id share in
  if negb (initial_sync_phase (fields state) =? InitialSyncPhase.Complete) then ret tt
  else if HasPendingEvent (fields state)
  then Send_to destination (pending_event_packet (fields state))
  else
    match NextUndeliveredSharedEvent (no_node no) (fields state) destination with
    | None => ret tt
    | Some r =>
        check (ev_is_valid (event r)) ;*
        let* e := required (ev_object (event r)) in
        let* rt := get in
        if negb (IsStandaloneEventClassAllowed rt (event_class e)) then ret tt else
        match FreezeStandaloneEventPayload (OEvent e : GraphObject A AE) (event_obj_id e) with
        | None => ret tt
        | Some payload =>
            let packet := EncodeEventFrame
              (mkEventFrame new_id node_id share (identity r) (ts r) (event_class e) payload) in
            let* state := required (Commit state
              (created state (BeginIncrementalEventSyncEvent new_id (identity r) packet)) now) in
            let no := with_sync_state no share state in
            update_node no ;*
            save_node no ;*
            save_sync_state state ;*
            Send_to destination (pending_event_packet (fields state))
        end
    end.

(** *** Receiving initial state *)

(** The admission of an untrusted snapshot.  The result is the verdict and the
    candidate after the replay; [None] when the replay fails an assertion. *)
Definition journal_record_admissible (class : Z)
    (r : EventRecord (SharedNodeEvent AE)) : bool :=
  ev_is_valid (event r) &&
  match ev_object (event r) with
  | None => false
  | Some e => negb (GenerationDistance (TargetClassId e) class <? 0) && negb (ts r =? 0)
  end.

Definition share_admissible (endpoint : Z → option string) n (i : nat) (s : Share) : bool :=
  ObjId_is_valid (share_id s) &&
  (FindShareIndexForShare (fields n) (share_id s) =? i)%nat &&
  match ShareEndpoint endpoint s with
  | None => false
  | Some u => negb (String.eqb u "")
  end.

Definition shares_admissible endpoint n : bool :=
  forallb (λ e, share_admissible endpoint n e.1 e.2) (imap pair (shares (fields n))).

Definition SnapshotIsAdmissible (endpoint : Z → option string) (class : Z) n
    (local source : string) (share : Z) : option (bool * SharedNode A AE) :=
  if negb (base_is_valid n) || negb (base_is_loaded n) then Some (false, n) else
  if negb (forallb (journal_record_admissible class) (journal n)) then Some (false, n) else
  '(replayed, n) ← TryReplayFromBase n;
  if negb replayed then Some (false, n)
  else Some (shares_admissible endpoint n &&
             AddressedToThisReplica endpoint n local source share, n).

(** The class expected of a root from an endpoint, and the node named by the
    expectation. *)
Definition endpoint_expectation rt (source : string) : option EndpointExpectation :=
  find (expectation_of source) (expected_endpoint_nodes_ rt).

Definition root_class_admissible rt (source : string) (class : Z) : bool :=
  negb (GenerationDistance SharedNode_kClassId class <? 0) &&
  match endpoint_expectation rt source with
  | None => true
  | Some e => class =? exp_root_class_id e
  end.

(** Endpoints of the Links of a scratch storage. *)
Definition scratch_endpoint (s : RamState) (link : Z) : option string :=
  match LoadRoot (O := GraphObject A AE) s link with
  | Some (OLink u) => Some u
  | _ => None
  end.

(** The one Share of the source endpoint, when there is exactly one, with a valid
    identity and a local synchronization state after the replay. *)
Definition matching_share (endpoint : Z → option string) n (source : string) : option Z :=
  match List.filter (endpoint_is endpoint source) (shares (fields n)) with
  | [s] =>
      if negb (ObjId_is_valid (share_id s)) then None
      else match sync_state (fields n) (share_id s) with
           | None => None
           | Some _ => Some (share_id s)
           end
  | _ => None
  end.

(** No object of the graph is in the Domain or in the storage already. *)
Definition no_collision (w : W) (parsed : RamState) : bool :=
  forallb (λ e : Z * Classes,
    negb (DomainFind (W := W) (A := A) (AE := AE) w e.1) &&
    bool_decide (Enumerate w e.1 = [])) (active parsed).

(** The checks before the first write.  The result is the graph to commit and the
    identity of the source's Share; the inner [None] is a rejection, the outer one
    a failed assertion. *)
Definition admit_snapshot rt (source : string) (frame : NodeStateFrame)
    : option (option (RamState * Z)) :=
  let expected := endpoint_expectation rt source in
  if negb (IsExpectedInitialNode rt (nsf_target_node_id frame)) &&
     match expected with None => true | Some _ => false end then Some None else
  if match expected with
     | None => false
     | Some e => ObjId_is_valid (exp_node_id e) &&
                 negb (nsf_target_node_id frame =? exp_node_id e)
     end then Some None else
  match DeserializeObjectGraph (O := GraphObject A AE) (nsf_payload frame) with
  | None => Some None
  | Some parsed =>
  match ValidateStoredClassChains parsed with
  | None => Some None
  | Some chains =>
  match chain_of chains (nsf_target_node_id frame) with
  | None => Some None
  | Some info =>
  if negb (root_class_admissible rt source (most_derived_class_id info)) then Some None else
  match LoadRoot parsed (nsf_target_node_id frame) with
  | None => Some None
  | Some (ONode class candidate) =>
      if GenerationDistance SharedNode_kClassId class <? 0 then Some None else
      '(admitted, candidate) ← SnapshotIsAdmissible (scratch_endpoint parsed) class
        candidate (local_endpoint_uid rt) source (nsf_destination_share_id frame);
      if negb admitted then Some None else
      match matching_share (scratch_endpoint parsed) candidate source with
      | None => Some None
      | Some share =>
          let parsed := scratch_after_replay (W := W) parsed candidate in
          if negb (no_collision (world rt) parsed) then Some None
          else Some (Some (parsed, share))
      end
  | Some _ => Some None
  end end end end.

(** The production steps: write, load from the own storage, replay. *)
Definition ImportValidatedNode (source : string) (frame : NodeStateFrame)
    : M W A AE (option (NodeObj A AE * Z)) :=
  let* rt := get in
  let* admitted := required (admit_snapshot rt source frame) in
  match admitted with
  | None => ret None
  | Some (parsed, share) =>
      let* w := required (CommitObjectGraph parsed (world rt)) in
      put (set_world rt w) ;*
      emit (WroteGraph parsed) ;*
      match DomainLoadRoot w (nsf_target_node_id frame) with
      | Some (ONode class n) =>
          let* n := required (expect (TryReplayFromBase n)) in
          ret (Some (mkNodeObj class n, share))
      | _ => required None
      end
  end.

(** Recording the receipt of an imported snapshot on the source's relationship. *)
Definition note_covered (no : NodeObj A AE) (share : Z) (now : Readings)
    : M W A AE (NodeObj A AE * SyncNode) :=
  check (ObjId_is_valid share) ;*
  let* state := required (sync_state (fields (no_node no)) share) in
  let covered := identity <$> filter (λ r, HasSharedIdentity r = true)
                   (journal (no_node no)) in
  let* state := required (CompleteFromReceivedSnapshot state covered now) in
  let no := with_sync_state no share state in
  save_sync_state state ;*
  ret (no, state).

Definition ack_of_node_state (frame : NodeStateFrame) : AckFrame :=
  mkAckFrame (nsf_packet_id frame) (nsf_target_node_id frame) (nsf_destination_share_id frame).

(** The expectation that is still open for the endpoint is bound through the
    callback, and erased when that succeeds; the result says whether to go on. *)
Fixpoint erase_expectation (source : string) (l : list EndpointExpectation)
    : list EndpointExpectation :=
  match l with
  | [] => []
  | e :: l => if expectation_of source e then l else e :: erase_expectation source l
  end.

Definition bind_expected (source : string) (no : NodeObj A AE) : M W A AE bool :=
  let* rt := get in
  match endpoint_expectation rt source with
  | None => ret true
  | Some _ =>
      match initial_node_imported_callback_ rt with
      | None => ret false
      | Some callback =>
          if negb (callback source no) then ret false
          else
            put (set_expectations rt (erase_expectation source (expected_endpoint_nodes_ rt))) ;*
            ret true
      end
  end.

(** The end of [OnNodeState]: register an imported node, bind it, acknowledge. *)
Definition register_and_ack (source : string) (frame : NodeStateFrame)
    (imported : bool) (no : NodeObj A AE) : M W A AE unit :=
  (let* rt := get in
   put (if imported then set_nodes rt (nodes_ rt ++ [no]) else rt)) ;*
  let* bound := bind_expected source no in
  if negb bound then ret tt
  else Send_to source (EncodeAckFrame (ack_of_node_state frame)).

Definition OnNodeState (source : string) (frame : NodeStateFrame) (now : nat → Readings)
    : M W A AE unit :=
  let* rt := get in
  let* found := match FindNode rt (nsf_target_node_id frame) with
    | Some no =>
        if AddressedToThisReplica (live_endpoint rt) (no_node no) (local_endpoint_uid rt)
             source (nsf_destination_share_id frame)
        then ret (Some (no, None)) else ret None
    | None =>
        let* imported := ImportValidatedNode source frame in
        match imported with
        | None => ret None
        | Some (no, share) =>
            let* (no, state) := note_covered no share (now 0%nat) in
            ret (Some (no, Some state))
        end
    end in
  match found with
  | None => ret tt
  | Some (no, source_state) =>
      let imported := match source_state with Some _ => true | None => false end in
      let* state := required (sync_state (fields (no_node no)) (nsf_destination_share_id frame)) in
      if received_initial_packet_id (fields state) =? nsf_packet_id frame
      then register_and_ack source frame imported no
      else if ObjId_is_valid (received_initial_packet_id (fields state)) || negb imported
      then ret tt
      else
        let* state := required (NoteInitialSyncReceived state (nsf_packet_id frame) (now 1%nat)) in
        let no := with_sync_state no (nsf_destination_share_id frame) state in
        save_node no ;*
        save_sync_state state ;*
        match source_state with
        | Some s => save_sync_state s
        | None => ret tt
        end ;*
        register_and_ack source frame imported no
  end.

(** *** Acknowledgements *)
Definition OnAck (source : string) (frame : AckFrame) (now : Readings) : M W A AE unit :=
  let* rt := get in
  let share := ack_destination_share_id frame in
  match FindNode rt (ack_target_node_id frame) with
  | None => ret tt
  | Some no =>
  match ShareEndpointOf (live_endpoint rt) (no_node no) share with
  | None => ret tt
  | Some destination =>
  if negb (String.eqb destination source) then ret tt else
  match sync_state (fields (no_node no)) share with
  | None => ret tt
  | Some state =>
      let finish (s : option SyncNode) : M W A AE unit :=
        let* s := required s in
        let no := with_sync_state no share s in
        update_node no ;* save_node no ;* save_sync_state s in
      if (initial_sync_phase (fields state) =? InitialSyncPhase.Pending) &&
         (pending_initial_packet_id (fields state) =? ack_packet_id frame)
      then finish (CompleteInitialSync state now)
      else if (initial_sync_phase (fields state) =? InitialSyncPhase.Complete) &&
              (pending_event_packet_id (fields state) =? ack_packet_id frame)
      then finish (CompleteIncrementalEvent state now)
      else ret tt
  end end end.

(** *** Receiving events *)

(** The layers of the event itself against those of the wire's root. *)
Definition SameEventPayload (e : SharedNodeEvent AE) (payload : bytes) : bool :=
  match ParseEventPayload (O := GraphObject A AE) payload with
  | None => false
  | Some (parsed, root) =>
      match find_active (SaveNetworkShared (OEvent e : GraphObject A AE) (event_obj_id e))
              (event_obj_id e),
            find_active parsed root with
      | Some a, Some b => bool_decide (a = b)
      | _, _ => false
      end
  end.

(** The insertion tried on a scratch copy of the node; [None]: an assertion of the
    replay fails.  [generate] are the identifiers drawn for the scratch import. *)
Definition PreflightHistoricalEventInsertion (fuel : nat) (generate : nat → Z) no
    (parsed : RamState) (root class : Z) (i : SharedEventId) (timestamp : Z)
    (now : Readings) : option bool :=
  let scratch := SaveNetworkShared (ONode (no_class no) (no_node no)) (obj_id (no_node no)) in
  let storage := ram_storage (W := W) (A := A) (AE := AE) in
  '(scratch, candidate) ← ImportStandaloneEventGraph fuel generate (λ _, false)
     (λ s id, LoadRoot s id) parsed root class scratch;
  match candidate with
  | Some (_, OEvent e) =>
      match LoadRoot scratch (obj_id (no_node no)) with
      | None => Some false
      | Some (ONode _ n) =>
          '(ok, _) ← TryInsertShared n (created n e) i (mkSharedEventOrder timestamp) now;
          Some ok
      | Some _ => None
      end
  | _ => Some false
  end.

Definition ack_of_event (frame : EventFrame) : AckFrame :=
  mkAckFrame (ef_packet_id frame) (ef_target_node_id frame) (ef_destination_share_id frame).

(** Whether a journal record is the event that arrived. *)
Definition same_event (frame : EventFrame) (r : EventRecord (SharedNodeEvent AE)) : bool :=
  (ts r =? ef_timestamp_us frame) && ev_is_valid (event r) &&
  match ev_object (event r) with
  | None => false
  | Some e => (event_class e =? ef_event_class_id frame) && SameEventPayload e (ef_payload frame)
  end.

(** The checks of an event frame before the journal is consulted: its graph and the
    identifier of its root. *)
Definition event_payload_admissible no (frame : EventFrame) : option (RamState * Z) :=
  '(parsed, root) ← ParseEventPayload (O := GraphObject A AE) (ef_payload frame);
  if negb (ValidateStandaloneEventGraph (O := GraphObject A AE) parsed root
             (ef_event_class_id frame)) then None else
  match LoadRoot parsed root with
  | Some (OEvent e) =>
      if negb (event_class e =? ef_event_class_id frame) then None
      else if GenerationDistance (TargetClassId e) (no_class no) <? 0 then None
      else Some (parsed, root)
  | _ => None
  end.

(** [fuel] and the two generators bound the identifier allocations of the scratch
    and of the production import. *)
Definition OnEvent (fuel : nat) (generate1 generate2 : nat → Z) (source : string)
    (frame : EventFrame) (now : nat → Readings) : M W A AE unit :=
  let* rt := get in
  match FindNode rt (ef_target_node_id frame) with
  | None => ret tt
  | Some no =>
  if negb (EventAddressedToThisReplica (live_endpoint rt) (no_node no)
             (local_endpoint_uid rt) source (ef_destination_share_id frame)) then ret tt else
  if negb (IsStandaloneEventClassAllowed rt (ef_event_class_id frame)) then ret tt else
  match event_payload_admissible no frame with
  | None => ret tt
  | Some (parsed, root) =>
  match FindSharedEvent (no_node no) (ef_identity frame) with
  | Some r =>
      if negb (same_event frame r) then ret tt
      else Send_to source (EncodeAckFrame (ack_of_event frame))
  | None =>
      let* preflight := required (PreflightHistoricalEventInsertion fuel generate1 no parsed
        root (ef_event_class_id frame) (ef_identity frame) (ef_timestamp_us frame) (now 0%nat)) in
      if negb preflight then ret tt else
      let* (w, imported) := required (ImportStandaloneEventGraph fuel generate2
        (DomainFind (W := W) (A := A) (AE := AE) (world rt)) (λ w id, DomainLoadRoot w id)
        parsed root (ef_event_class_id frame) (world rt)) in
      put (set_world rt w) ;*
      match imported with
      | None => ret tt
      | Some (id, OEvent e) =>
          emit (WroteEvent id) ;*
          let* n := required (InsertShared (no_node no) (created (no_node no) e)
            (ef_identity frame) (mkSharedEventOrder (ef_timestamp_us frame)) (now 1%nat)) in
          let no := mkNodeObj (no_class no) n in
          update_node no ;*
          save_node no ;*
          Send_to source (EncodeAckFrame (ack_of_event frame))
      | Some _ => required None
      end
  end end end.

(** *** Dispatch *)
Definition OnBytes (fuel : nat) (generate1 generate2 : nat → Z) (source : string)
    (bs : bytes) (now : nat → Readings) : M W A AE unit :=
  match PeekSyncFrameType bs with
  | None => ret tt
  | Some kNodeState =>
      match DecodeNodeStateFrame bs with
      | Some frame => OnNodeState source frame now
      | None => ret tt
      end
  | Some kAck =>
      match DecodeAckFrame bs with
      | Some frame => OnAck source frame (now 0%nat)
      | None => ret tt
      end
  | Some kEvent =>
      match DecodeEventFrame bs with
      | Some frame => OnEvent fuel generate1 generate2 source frame now
      | None => ret tt
      end
  end.
End runtime.
