(* ===== verification/SyncRuntimeTheory.v ===== *)
(** * Properties of the shared synchronization runtime

    What a run of an operation of SyncRuntime.v did: the runtime state it leaves and
    the durable effects in their order.  A run that fails an assertion has no
    outcome; the theorems speak of the runs that return. *)
From S2P Require Import Prelude Aether SharedEvent Node NodeTheory LinkSync.
From S2P Require Import SharedNode SharedNodeTheory SyncFrame DomainStorage StoredGraph SyncRuntime.

(** ** Inversion of runs *)
Section runs.
  Context {W A AE : Type}.
  Implicit Types rt : SharedSyncRuntime W A AE.
  Implicit Types es : list (Effect A AE).

Lemma bind_run {X Y} (m : M W A AE X) (k : X → M W A AE Y) rt y rt' es :
  bind m k rt = Some (y, rt', es) →
  ∃ x rt1 e1 e2, m rt = Some (x, rt1, e1) ∧ k x rt1 = Some (y, rt', e2) ∧
    es = e1 ++ e2.
Proof.
  unfold bind. intros H. destruct (m rt) as [[[x rt1] e1]|]; [|done].
  cbn [mbind option_bind] in H.
  destruct (k x rt1) as [[[y' rt2] e2]|] eqn:Ek; simplify_eq/=. eauto 10.
Qed.

Lemma get_bind {Y} (k : SharedSyncRuntime W A AE → M W A AE Y) rt :
  bind get k rt = k rt rt.
Proof.
  unfold bind, get. cbn [mbind option_bind]. by destruct (k rt rt) as [[[]]|].
Qed.

Lemma ret_run {X} (x y : X) rt rt' es :
  ret x rt = Some (y, rt', es) → y = x ∧ rt' = rt ∧ es = [].
Proof. unfold ret. intros ?. by simplify_eq/=. Qed.

Lemma get_run rt rt1 rt' es :
  get rt = Some (rt1, rt', es) → rt1 = rt ∧ rt' = rt ∧ es = [].
Proof. unfold get. intros ?. by simplify_eq/=. Qed.

Lemma put_run rt rt1 u rt' es :
  put rt1 rt = Some (u, rt', es) → rt' = rt1 ∧ es = [].
Proof. unfold put. intros ?. by simplify_eq/=. Qed.

Lemma emit_run e rt u rt' es :
  emit e rt = Some (u, rt', es) → rt' = rt ∧ es = [e].
Proof. unfold emit. intros ?. by simplify_eq/=. Qed.

Lemma required_run {X} (o : option X) x rt rt' es :
  required o rt = Some (x, rt', es) → o = Some x ∧ rt' = rt ∧ es = [].
Proof. unfold required. destruct o; simpl; [|done]. intros ?. by simplify_eq/=. Qed.

Lemma check_run b u rt rt' es :
  check b rt = Some (u, rt', es) → b = true ∧ rt' = rt ∧ es = [].
Proof. unfold check. destruct b; [|done]. intros ?. by simplify_eq/=. Qed.
End runs.

(** One step of the inversion of the runs among the hypotheses. *)
Ltac run_step :=
  match goal with
  | H : bind _ _ _ = Some (_, _, _) |- _ =>
      let x := fresh "x" in let rt := fresh "rt" in
      let e1 := fresh "es" in let e2 := fresh "es" in let H1 := fresh "Hrun" in
      apply bind_run in H as (x & rt & e1 & e2 & H1 & H & ->)
  | H : ret _ _ = Some (_, _, _) |- _ => apply ret_run in H as (? & ? & ?)
  | H : get _ = Some (_, _, _) |- _ => apply get_run in H as (? & ? & ?)
  | H : put _ _ = Some (_, _, _) |- _ => apply put_run in H as (? & ?)
  | H : emit _ _ = Some (_, _, _) |- _ => apply emit_run in H as (? & ?)
  | H : required _ _ = Some (_, _, _) |- _ =>
      let Ho := fresh "Hsome" in apply required_run in H as (Ho & ? & ?)
  | H : check _ _ = Some (_, _, _) |- _ =>
      let Hb := fresh "Hcheck" in apply check_run in H as (Hb & ? & ?)
  | H : (let (_, _) := ?p in _) _ = Some (_, _, _) |- _ => destruct p
  | H : (if ?b then _ else _) _ = Some (_, _, _) |- _ => destruct b eqn:?
  | H : (match ?o with Some _ => _ | None => _ end) _ = Some (_, _, _) |- _ =>
      destruct o eqn:?
  end.
Ltac run := repeat (run_step; subst; cbn beta iota zeta in * |-).

(** ** Registered nodes and their relationships *)
Section registered.
  Context {W A AE : Type} {ids : AetherIds}.
  Implicit Types rt : SharedSyncRuntime W A AE.
  Implicit Types no : NodeObj A AE.
  Implicit Types l : list (NodeObj A AE).

Definition node_id no : Z := obj_id (no_node no).

Lemma node_is_iff id no : node_is id no = true ↔ node_id no = id.
Proof. apply Z.eqb_eq. Qed.

Lemma FindNode_id rt id no : FindNode rt id = Some no → node_id no = id.
Proof. intros H. apply find_some in H as [_ H]. by apply node_is_iff. Qed.

Lemma FindNode_In rt id no : FindNode rt id = Some no → no ∈ nodes_ rt.
Proof. intros H. apply find_some in H as [H _]. by apply list_elem_of_In. Qed.

Lemma find_replace_node id l no no' :
  find (node_is id) l = Some no → node_id no' = id →
  find (node_is id) (replace_node no' l) = Some no'.
Proof.
  intros H Hid. unfold replace_node. induction l as [|x l IH]; [done|].
  rewrite fmap_cons. cbn [find] in *. fold (node_id no') in *. rewrite Hid in *.
  destruct (node_is id x) eqn:Ex.
  - by rewrite (proj2 (node_is_iff id no') Hid).
  - rewrite Ex. by apply IH.
Qed.

Lemma find_snoc id l no :
  find (node_is id) l = None → node_is id no = true → find (node_is id) (l ++ [no]) = Some no.
Proof.
  intros H Hn. induction l as [|x l IH]; simpl in *; [by rewrite Hn|].
  destruct (node_is id x); [done|]. by apply IH.
Qed.

Lemma replace_node_ids no l : node_id <$> replace_node no l = node_id <$> l.
Proof.
  unfold replace_node. rewrite <-list_fmap_compose. apply list_fmap_ext.
  intros i x _. unfold compose. destruct (node_is _ x) eqn:E; [|done].
  apply node_is_iff in E. by symmetry.
Qed.

Lemma find_node_None id l : find (node_is id) l = None ↔ id ∉ node_id <$> l.
Proof.
  split.
  - intros H Hin. apply list_elem_of_fmap in Hin as (x & -> & Hx).
    apply list_elem_of_In in Hx. eapply find_none in H; [|done].
    by rewrite (proj2 (node_is_iff _ x) eq_refl) in H.
  - intros H. destruct (find _ l) as [x|] eqn:E; [|done]. destruct H.
    apply find_some in E as [Hin E]. apply node_is_iff in E as <-.
    by apply list_elem_of_fmap_2, list_elem_of_In.
Qed.

Lemma sync_state_put f id (s : SyncNode) :
  is_Some (sync_state f id) → sync_share_id (fields s) = id →
  sync_state (put_sync_state f id s : SharedFields A) id = Some s.
Proof.
  intros Hs Hid. apply sync_state_is_Some in Hs.
  unfold sync_state, put_sync_state, FindLinkSyncIndexForShare in *. simpl.
  rewrite find_index_replace.
  - by rewrite list_lookup_insert_eq.
  - simpl. by apply Z.eqb_eq.
Qed.
End registered.

(** ** Driving a relationship *)

(** What the replica's Domain promises: an object loaded under an identifier has
    that identifier, and saving a node or a synchronization state does not change
    the endpoint of a Link. *)
Class ReplicaLaws (W A AE : Type) `{!AetherIds} {rw : ReplicaWorld W A AE} : Prop := {
  load_id : ∀ (w : W) id class (n : SharedNode A AE),
    DomainLoadRoot w id = Some (ONode class n) → obj_id n = id;
  save_node_endpoint : ∀ (w : W) id class (n : SharedNode A AE) link,
    EndpointUidOf (W := W) (A := A) (AE := AE) (SaveObject w id (ONode class n)) link =
    EndpointUidOf (A := A) (AE := AE) w link;
  save_state_endpoint : ∀ (w : W) (s : SyncNode) link,
    EndpointUidOf (W := W) (A := A) (AE := AE)
      (SaveSyncState (A := A) (AE := AE) w s) link =
    EndpointUidOf (A := A) (AE := AE) w link
}.

Section sending.
  Context {W A AE : Type}.
  Context {ids : AetherIds} {reg : AetherRegistry} {rep : Replica}.
  Context `{!NodeKind A AE} {evs : EventObjects AE}.
  Context {objs : ObjectSystem (GraphObject A AE)} {rw : ReplicaWorld W A AE}.
  Implicit Types rt : SharedSyncRuntime W A AE.
  Implicit Types no : NodeObj A AE.

(** The relationship [share] of the registered node [node] is open to another
    endpoint [destination], with synchronization state [st]. *)
Record opened rt (node share : Z) no (destination : string) (st : SyncNode) : Prop := {
  opened_node : FindNode rt node = Some no;
  opened_endpoint : ShareEndpointOf (live_endpoint rt) (no_node no) share = Some destination;
  opened_nonempty : destination ≠ ""%string;
  opened_foreign : destination ≠ local_endpoint_uid rt;
  opened_state : sync_state (fields (no_node no)) share = Some st
}.

Lemma open_relationship_opened rt node share no destination st rt' es :
  open_relationship node share rt = Some ((no, destination, st), rt', es) →
  rt' = rt ∧ es = [] ∧ opened rt node share no destination st.
Proof.
  unfold open_relationship. intros H. run. split_and!; [done..|].
  breflect. apply String.eqb_neq in Hcheck. apply String.eqb_neq in Hcheck0.
  simplify_eq. by constructor.
Qed.

Lemma open_relationship_run rt node share no destination st :
  opened rt node share no destination st →
  open_relationship node share rt = Some ((no, destination, st), rt, []).
Proof.
  intros [H1 H2 H3 H4 H5]. unfold open_relationship, bind, get, required, check, ret.
  cbn [mbind option_bind]. rewrite H1. cbn [mbind option_bind]. rewrite H2.
  cbn [mbind option_bind]. rewrite (proj2 (String.eqb_neq _ _) H3).
  rewrite (proj2 (String.eqb_neq _ _) H4). cbn. by rewrite H5.
Qed.

Lemma with_sync_state_shares no share st :
  shares (fields (no_node (with_sync_state no share st))) = shares (fields (no_node no)).
Proof. done. Qed.

Lemma with_sync_state_id no share st : node_id (with_sync_state no share st) = node_id no.
Proof. done. Qed.

Lemma ShareEndpointOf_ext (f g : Z → option string) (n m : SharedNode A AE) share :
  (∀ l, f l = g l) → shares (fields n) = shares (fields m) →
  ShareEndpointOf f n share = ShareEndpointOf g m share.
Proof.
  intros Hfg Hs. unfold ShareEndpointOf, FindShareIndexForShare. rewrite Hs.
  destruct (_ !! _) as [s|]; [|done]. cbn [mbind option_bind].
  unfold ShareEndpoint. destruct (link s); [|done]. apply Hfg.
Qed.

(** The durable steps after a commit on the synchronization state. *)
Lemma persist_run (laws : ReplicaLaws W A AE) rt node share no destination st st' packet u rt' es :
  opened rt node share no destination st →
  sync_share_id (fields st') = sync_share_id (fields st) →
  let no' := with_sync_state no share st' in
  (update_node no' ;* save_node no' ;* save_sync_state st' ;*
   Send_to destination packet)%app rt = Some (u, rt', es) →
  es = [SavedNode no'; SavedState st'; Sent destination packet] ∧
  opened rt' node share no' destination st'.
Proof.
  intros [H1 H2 H3 H4 H5] Hid no' H.
  unfold update_node, save_node, save_sync_state, Send_to in H. run.
  split; [done|]. pose proof (FindNode_id _ _ _ H1) as Hno. split; try done.
  - apply find_replace_node with no; [done|]. by rewrite <-Hno.
  - rewrite <-H2. apply ShareEndpointOf_ext; [|done]. intros l.
    unfold live_endpoint. cbn. by rewrite save_state_endpoint, save_node_endpoint.
  - simpl. apply sync_state_put; [by rewrite H5|].
    rewrite Hid. by eapply sync_state_share.
Qed.

Lemma Commit_BeginInitial (st st' : SyncNode) id packet covered now :
  CommitReady st → readings_ok now →
  Commit st (created st (BeginInitialSyncEvent id packet covered)) now = Some st' →
  Apply_BeginInitial (fields st) id packet covered = Some (fields st').
Proof.
  intros Hr Hn H. apply Commit_exact in H as (_ & _ & _ & b & Hb); [|done..].
  cbn in Hb. destruct (Apply_BeginInitial _ _ _ _); by simplify_eq/=.
Qed.

Lemma Commit_BeginIncremental (st st' : SyncNode) id i packet now :
  CommitReady st → readings_ok now →
  Commit st (created st (BeginIncrementalEventSyncEvent id i packet)) now = Some st' →
  Apply_BeginIncremental (fields st) id i packet = Some (fields st').
Proof.
  intros Hr Hn H. apply Commit_exact in H as (_ & _ & _ & b & Hb); [|done..].
  cbn in Hb. destruct (Apply_BeginIncremental _ _ _ _); by simplify_eq/=.
Qed.

(** C8. An initial snapshot is frozen and durable before its first send, and a
    retry sends the same bytes: on an open relationship whose initial phase has not
    started, SyncInitialState encodes a frame of the node's network-shared snapshot
    with the new packet identity, saves the node and then the synchronization state
    that holds exactly this packet and the identities it covers, and only then sends
    the packet; every later call, with any clock and identifiers, sends the same
    bytes again and changes nothing. *)
Theorem SyncInitialState_persists_first (laws : ReplicaLaws W A AE)
    rt node share new_id now no destination st u rt' es
    (Hopen : opened rt node share no destination st)
    (Hready : CommitReady st) (Hnow : readings_ok now)
    (Hphase : initial_sync_phase (fields st) = InitialSyncPhase.NotStarted)
    (Hrun : SyncInitialState node share new_id now rt = Some (u, rt', es)) :
  ∃ frozen st',
    let packet := EncodeNodeStateFrame
      (mkNodeStateFrame new_id node share (frozen_payload frozen)) in
    let no' := with_sync_state no share st' in
    FreezeNetworkSharedNodeState no = Some frozen ∧
    es = [SavedNode no'; SavedState st'; Sent destination packet] ∧
    opened rt' node share no' destination st' ∧
    initial_sync_phase (fields st') = InitialSyncPhase.Pending ∧
    pending_initial_packet_id (fields st') = new_id ∧
    pending_initial_packet (fields st') = packet ∧
    pending_initial_covered_event_ids (fields st') = covered_event_ids frozen ∧
    ∀ new_id2 now2, SyncInitialState node share new_id2 now2 rt' =
      Some (tt, rt', [Sent destination packet]).
Proof.
  unfold SyncInitialState in Hrun. apply bind_run in Hrun as (x & rt1 & e1 & e2 & H1 & H & ->).
  rewrite (open_relationship_run _ _ _ _ _ _ Hopen) in H1. simplify_eq/=.
  rewrite Hphase in H. simpl in H.
  apply bind_run in H as (frozen & ? & ? & ? & (Hf & -> & ->)%required_run & H & ->).
  apply bind_run in H as (st' & ? & ? & ? & (Hc & -> & ->)%required_run & H & ->).
  apply Commit_BeginInitial in Hc; [|done..]. unfold Apply_BeginInitial in Hc.
  repeat case_match; [|done..]. injection Hc as Hc.
  eapply persist_run in H as [-> Hopen']; [|done..|by rewrite <-Hc].
  exists frozen, st'. cbv zeta. rewrite <-Hc at 2 3 4 5. simpl.
  rewrite <-Hc. simpl. split_and!; try done.
  intros id2 now2. unfold SyncInitialState, bind.
  rewrite (open_relationship_run _ _ _ _ _ _ Hopen'). cbn [mbind option_bind].
  by rewrite <-Hc.
Qed.

(** A record that incremental delivery skips for a destination. *)
Definition skipped (st : SyncNode) (destination : string)
    (r : EventRecord (SharedNodeEvent AE)) : Prop :=
  HasSharedIdentity r = false ∨ HasDelivered (fields st) (identity r) = true ∨
  origin_uid (identity r) = destination.

Lemma find_first {X} (p : X → bool) l x :
  find p l = Some x →
  ∃ l1 l2, l = l1 ++ x :: l2 ∧ p x = true ∧ Forall (λ y, p y = false) l1.
Proof.
  induction l as [|y l IH]; simpl; [done|]. destruct (p y) eqn:Hy.
  - intros [= <-]. by exists [], l.
  - intros (l1 & l2 & -> & Hx & Hl)%IH. exists (y :: l1), l2. auto.
Qed.

Lemma NextUndelivered_first (n : SharedNode A AE) (st : SyncNode) destination r :
  HasPendingEvent (fields st) = false →
  NextUndeliveredSharedEvent n (fields st) destination = Some r →
  ∃ j1 j2, journal n = j1 ++ r :: j2 ∧ Forall (skipped st destination) j1 ∧
    HasSharedIdentity r = true ∧ HasDelivered (fields st) (identity r) = false ∧
    origin_uid (identity r) ≠ destination.
Proof.
  intros Hp H. apply find_first in H as (j1 & j2 & -> & Hr & Hj).
  rewrite Hp in *. cbn [andb negb] in *. breflect.
  exists j1, j2. split; [done|]. split.
  - eapply list.Forall_impl; [exact Hj|]. intros y Hy. unfold skipped. cbn beta in Hy.
    destruct (HasSharedIdentity y); [right|by left].
    destruct (HasDelivered _ (identity y)); [by left|right].
    cbn [andb negb] in Hy. apply negb_false_iff in Hy. by apply String.eqb_eq.
  - split_and!; [done..|]. by apply String.eqb_neq.
Qed.

(** Incremental events are delivered one at a time, in journal order, frozen and
    durable before the first send, and a retry sends the same bytes: on an open
    relationship whose initial phase is complete and without an outstanding event, a
    call of SyncNextEvent that does anything takes the first journal record of shared
    identity that is not delivered and not from the destination itself, whose class
    is allowed, encodes its frozen graph, saves the node and the synchronization
    state that holds exactly this packet and identity, and only then sends it; every
    later call sends the same bytes again and changes nothing. *)
Theorem SyncNextEvent_persists_first (laws : ReplicaLaws W A AE)
    rt node share new_id now no destination st u rt' es
    (Hopen : opened rt node share no destination st)
    (Hready : CommitReady st) (Hnow : readings_ok now)
    (Hphase : initial_sync_phase (fields st) = InitialSyncPhase.Complete)
    (Hpending : HasPendingEvent (fields st) = false)
    (Hid : ObjId_is_valid new_id = true)
    (Hrun : SyncNextEvent node share new_id now rt = Some (u, rt', es))
    (Hes : es ≠ []) :
  ∃ j1 r j2 e payload st',
    let packet := EncodeEventFrame (mkEventFrame new_id node share (identity r) (ts r)
      (event_class e) payload) in
    let no' := with_sync_state no share st' in
    journal (no_node no) = j1 ++ r :: j2 ∧ Forall (skipped st destination) j1 ∧
    ¬ skipped st destination r ∧ ev_object (event r) = Some e ∧
    IsStandaloneEventClassAllowed rt (event_class e) = true ∧
    FreezeStandaloneEventPayload (OEvent e : GraphObject A AE) (event_obj_id e)
      = Some payload ∧
    es = [SavedNode no'; SavedState st'; Sent destination packet] ∧
    opened rt' node share no' destination st' ∧
    pending_event_identity (fields st') = identity r ∧
    pending_event_packet_id (fields st') = new_id ∧
    pending_event_packet (fields st') = packet ∧
    ∀ new_id2 now2, SyncNextEvent node share new_id2 now2 rt' =
      Some (tt, rt', [Sent destination packet]).
Proof.
  unfold SyncNextEvent in Hrun. apply bind_run in Hrun as (x & rt1 & e1 & e2 & H1 & H & ->).
  rewrite (open_relationship_run _ _ _ _ _ _ Hopen) in H1. simplify_eq/=.
  rewrite Hphase, Hpending in H. simpl in H.
  destruct (NextUndeliveredSharedEvent _ _ _) as [r|] eqn:Hr;
    [|apply ret_run in H; naive_solver].
  apply bind_run in H as (? & ? & ? & ? & (Hv & -> & ->)%check_run & H & ->).
  apply bind_run in H as (e & ? & ? & ? & (He & -> & ->)%required_run & H & ->).
  apply bind_run in H as (? & ? & ? & ? & (-> & -> & ->)%get_run & H & ->).
  destruct (IsStandaloneEventClassAllowed rt1 (event_class e)) eqn:Hc; simpl in H;
    [|apply ret_run in H; naive_solver].
  destruct (FreezeStandaloneEventPayload _ _) as [payload|] eqn:Hp;
    [|apply ret_run in H; naive_solver].
  apply bind_run in H as (st' & ? & ? & ? & (Hb & -> & ->)%required_run & H & ->).
  apply Commit_BeginIncremental in Hb; [|done..]. unfold Apply_BeginIncremental in Hb.
  repeat case_match; try done. injection Hb as Hb.
  eapply persist_run in H as [-> Hopen']; [|done..|by rewrite <-Hb].
  apply NextUndelivered_first in Hr as (j1 & j2 & Hj & Hskip & Hs & Hd & Ho); [|done].
  exists j1, r, j2, e, payload, st'. cbv zeta.
  split_and!; try done; try (rewrite <-Hb; done).
  - unfold skipped. naive_solver congruence.
  - intros id2 now2. unfold SyncNextEvent, bind.
    rewrite (open_relationship_run _ _ _ _ _ _ Hopen'). cbn [mbind option_bind].
    rewrite <-Hb. simpl. rewrite Hphase. unfold HasPendingEvent. simpl. by rewrite Hid.
Qed.

(** ** Acknowledgements *)

(** The acknowledged relationship: the frame names a registered node and one of its
    relationships, and it comes from that relationship's endpoint. *)
Record acked rt (source : string) (frame : AckFrame) no (st : SyncNode) : Prop := {
  acked_node : FindNode rt (ack_target_node_id frame) = Some no;
  acked_endpoint : ShareEndpointOf (live_endpoint rt) (no_node no)
    (ack_destination_share_id frame) = Some source;
  acked_state : sync_state (fields (no_node no)) (ack_destination_share_id frame) = Some st
}.

(** The transition an acknowledgement is for: the packet it names is outstanding. *)
Definition acknowledges (f : LinkSyncFields) (packet : Z) : option LinkSyncEvent :=
  if initial_sync_phase f =? InitialSyncPhase.Pending then
    if pending_initial_packet_id f =? packet then Some CompleteInitialSyncEvent else None
  else if initial_sync_phase f =? InitialSyncPhase.Complete then
    if pending_event_packet_id f =? packet then Some CompleteIncrementalEventSyncEvent else None
  else None.

Lemma OnAck_acked rt source frame now no st :
  acked rt source frame no st →
  OnAck source frame now rt =
  let finish (s : option SyncNode) : M W A AE unit :=
    let* s := required s in
    let no := with_sync_state no (ack_destination_share_id frame) s in
    update_node no ;* save_node no ;* save_sync_state s in
  match acknowledges (fields st) (ack_packet_id frame) with
  | Some CompleteInitialSyncEvent => finish (CompleteInitialSync st now) rt
  | Some _ => finish (CompleteIncrementalEvent st now) rt
  | None => Some (tt, rt, [])
  end.
Proof.
  intros [H1 H2 H3]. unfold OnAck. rewrite get_bind.
  rewrite H1, H2, String.eqb_refl, H3. cbn [negb]. unfold acknowledges.
  destruct (Z.eqb_spec (initial_sync_phase (fields st)) InitialSyncPhase.Pending) as [E|].
  - rewrite E. cbn [andb]. by destruct (_ =? _).
  - destruct (initial_sync_phase (fields st) =? InitialSyncPhase.Complete); [|done].
    cbn [andb]. by destruct (_ =? _).
Qed.

Lemma OnAck_not_acked rt source frame now :
  (∀ no st, ¬ acked rt source frame no st) → OnAck source frame now rt = Some (tt, rt, []).
Proof.
  intros Hn. unfold OnAck. rewrite get_bind.
  destruct (FindNode _ _) as [no|] eqn:H1; [|done].
  destruct (ShareEndpointOf _ _ _) as [d|] eqn:H2; [|done].
  destruct (String.eqb_spec d source) as [->|]; [|done]. cbn [negb].
  destruct (sync_state _ _) as [st|] eqn:H3; [|done]. by destruct (Hn no st).
Qed.

Lemma acked_dec rt source frame :
  (∃ no st, acked rt source frame no st) ∨ (∀ no st, ¬ acked rt source frame no st).
Proof.
  destruct (FindNode rt (ack_target_node_id frame)) as [no|] eqn:H1;
    [|right; intros ?? []; congruence].
  destruct (ShareEndpointOf (live_endpoint rt) (no_node no)
    (ack_destination_share_id frame)) as [d|] eqn:H2; [|right; intros ?? []; congruence].
  destruct (decide (d = source)) as [->|]; [|right; intros ?? []; congruence].
  destruct (sync_state (fields (no_node no)) (ack_destination_share_id frame))
    as [st|] eqn:H3; [|right; intros ?? []; congruence].
  left. by exists no, st.
Qed.

(** A node's state after a successful commit on the relationship. *)
Lemma finish_run (laws : ReplicaLaws W A AE) rt source frame no st st' :
  acked rt source frame no st →
  sync_share_id (fields st') = sync_share_id (fields st) →
  let no' := with_sync_state no (ack_destination_share_id frame) st' in
  ∃ rt', (update_node no' ;* save_node no' ;* save_sync_state st')%app rt =
      Some (tt, rt', [SavedNode no'; SavedState st']) ∧
    acked rt' source frame no' st'.
Proof.
  intros [H1 H2 H3] Hid no'. eexists. split; [reflexivity|].
  pose proof (FindNode_id _ _ _ H1) as Hno. split.
  - apply find_replace_node with no; [done|]. by rewrite <-Hno.
  - rewrite <-H2. apply ShareEndpointOf_ext; [|done]. intros l.
    unfold live_endpoint. cbn. by rewrite save_state_endpoint, save_node_endpoint.
  - simpl. apply sync_state_put; [by rewrite H3|].
    rewrite Hid. by eapply sync_state_share.
Qed.

(** What [acknowledges] selects can be committed, and it is not selected again. *)
Lemma acknowledges_applies (f : LinkSyncFields) packet e :
  sync_ok f → ObjId_is_valid packet = true → acknowledges f packet = Some e →
  ∃ g, Apply_LinkSync f e = Some g ∧ CanApply_LinkSync f e = true ∧
    sync_share_id g = sync_share_id f ∧ acknowledges g packet = None ∧
    match e with
    | CompleteInitialSyncEvent => True
    | CompleteIncrementalEventSyncEvent => HasPendingEvent f = true
    | _ => False
    end.
Proof.
  intros Hok Hv H. unfold acknowledges in H.
  assert (Hne : packet ≠ ObjId_none).
  { intros ->. by rewrite ObjId_none_invalid in Hv. }
  repeat case_match; simplify_eq; breflect.
  - eexists. split; [reflexivity|]. split_and!; [done..| |done].
    unfold acknowledges. simpl.
    destruct (Z.eqb_spec (pending_event_packet_id f) packet) as [E|];
      [|done].
    destruct (ok_event _ Hok) as [Hc _];
      [|unfold InitialSyncPhase.Pending, InitialSyncPhase.Complete in *; lia].
    unfold HasPendingEvent. by rewrite E.
  - unfold Apply_LinkSync, Apply_CompleteIncremental.
    assert (Hp : HasPendingEvent f = true) by (unfold HasPendingEvent; congruence).
    rewrite Hp. eexists. split; [reflexivity|]. split_and!; [done..| |done].
    unfold acknowledges. simpl.
    match goal with E : initial_sync_phase f = InitialSyncPhase.Complete |- _ =>
      rewrite E end. simpl.
    destruct (Z.eqb_spec ObjId_none packet); [congruence|done].
Qed.

(** Acknowledgements: a frame that does not come from the endpoint of the
    relationship it names changes nothing and writes nothing; one that does, with a
    valid packet identity, never fails an assertion: it completes the outstanding
    initial or incremental packet exactly when it names it, saves the node and then
    the state, and otherwise does nothing; a repetition of it does nothing. *)
Theorem OnAck_completes (laws : ReplicaLaws W A AE) rt source frame (now : Readings)
    (Hpacket : ObjId_is_valid (ack_packet_id frame) = true) (Hnow : readings_ok now)
    (Hready : ∀ no st, acked rt source frame no st → CommitReady st ∧ sync_ok (fields st)) :
  ((∀ no st, ¬ acked rt source frame no st) ∧
     OnAck source frame now rt = Some (tt, rt, [])) ∨
  ∃ no st, acked rt source frame no st ∧
    match acknowledges (fields st) (ack_packet_id frame) with
    | None => OnAck source frame now rt = Some (tt, rt, [])
    | Some e =>
        ∃ rt' st', Apply_LinkSync (fields st) e = Some (fields st') ∧
          let no' := with_sync_state no (ack_destination_share_id frame) st' in
          OnAck source frame now rt = Some (tt, rt', [SavedNode no'; SavedState st']) ∧
          acked rt' source frame no' st' ∧
          ∀ now2, OnAck source frame now2 rt' = Some (tt, rt', [])
    end.
Proof.
  destruct (acked_dec rt source frame) as [(no & st & Ha)|Hn];
    [right|left; split; [done|by apply OnAck_not_acked]].
  exists no, st. split; [done|]. destruct (Hready _ _ Ha) as [Hr Hok].
  rewrite (OnAck_acked _ _ _ _ _ _ Ha). cbv zeta.
  destruct (acknowledges _ _) as [e|] eqn:He; [|done].
  apply acknowledges_applies in He as (g & Hg & Hcan & Hsh & Hnone & Hkind); [|done..].
  destruct (Commit_Some st e now g true) as (st' & Hc & _ & _ & Hf); [done..| |].
  { cbn. by rewrite Hg. }
  destruct (finish_run laws rt source frame no st st') as (rt' & Hrun & Ha');
    [done|by rewrite Hf|].
  exists rt', st'. rewrite Hf. split; [done|]. split; [|split; [done|]].
  - destruct e; try done.
    + unfold CompleteInitialSync, bind at 1, created. rewrite Hc.
      cbn [required mbind option_bind]. rewrite Hrun. done.
    + unfold CompleteIncrementalEvent, bind at 1, created. rewrite Hkind, Hc.
      cbn [required mbind option_bind]. rewrite Hrun. done.
  - intros now2. rewrite (OnAck_acked _ _ _ _ _ _ Ha'). cbv zeta. by rewrite Hf, Hnone.
Qed.
End sending.

(** ** Importing an initial snapshot *)
Section importing.
  Context {W A AE : Type}.
  Context {ids : AetherIds} {reg : AetherRegistry} {rep : Replica}.
  Context `{!NodeKind A AE} {evs : EventObjects AE}.
  Context {objs : ObjectSystem (GraphObject A AE)} {rw : ReplicaWorld W A AE}.
  Implicit Types rt : SharedSyncRuntime W A AE.
  Implicit Types no : NodeObj A AE.
  Implicit Types es : list (Effect A AE).

(** The replica waits for this root from this source: it named the node, or it
    expects a root of this class, and of this identity when it knows one. *)
Definition awaited rt (source : string) (target class : Z) : Prop :=
  match endpoint_expectation rt source with
  | None => IsExpectedInitialNode rt target = true
  | Some e => class = exp_root_class_id e ∧
      (ObjId_is_valid (exp_node_id e) = true → target = exp_node_id e)
  end.

(** What an admitted snapshot [parsed] is: its stored root is an awaited SharedNode
    of the class [class], which replays to [n] in the scratch storage; the
    relationships of [n] have distinct valid identities and nonempty endpoints, one
    of them is this replica's and named by the frame, exactly one is the source's,
    and no object of the graph exists here. *)
Record admitted_snapshot rt (source : string) (frame : NodeStateFrame)
    (parsed g : RamState) (share : Z) : Prop := {
  as_parsed : DeserializeObjectGraph (O := GraphObject A AE) (nsf_payload frame) = Some parsed;
  as_source : source ≠ local_endpoint_uid rt;
  as_root : ∃ chains info, ValidateStoredClassChains parsed = Some chains ∧
    chain_of chains (nsf_target_node_id frame) = Some info ∧
    GenerationDistance SharedNode_kClassId (most_derived_class_id info) >= 0 ∧
    awaited rt source (nsf_target_node_id frame) (most_derived_class_id info);
  as_replay : ∃ class candidate (n : SharedNode A AE),
    LoadRoot parsed (nsf_target_node_id frame) = Some (ONode class candidate) ∧
    TryReplayFromBase candidate = Some (true, n) ∧
    Forall (λ r, ts r ≠ 0) (journal candidate) ∧
    NoDup (share_id <$> shares (fields n)) ∧
    Forall (λ s, ObjId_is_valid (share_id s) = true ∧
      ∃ u, ShareEndpoint (scratch_endpoint parsed) s = Some u ∧ u ≠ ""%string)
      (shares (fields n)) ∧
    ShareEndpointOf (scratch_endpoint parsed) n (nsf_destination_share_id frame) =
      Some (local_endpoint_uid rt) ∧
    share_id <$> filter (λ s, ShareEndpoint (scratch_endpoint parsed) s = Some source)
      (shares (fields n)) = [share] ∧
    is_Some (sync_state (fields n) share) ∧
    g = scratch_after_replay (W := W) parsed n;
  as_fresh : ∀ id classes, (id, classes) ∈ active g →
    DomainFind (W := W) (A := A) (AE := AE) (world rt) id = false ∧
    Enumerate (world rt) id = []
}.

Lemma endpoint_is_iff f uid s :
  endpoint_is f uid s = true ↔ ShareEndpoint f s = Some uid.
Proof.
  unfold endpoint_is. destruct (ShareEndpoint f s); [|done].
  rewrite String.eqb_eq. naive_solver.
Qed.

Lemma filter_endpoint f uid l :
  List.filter (endpoint_is f uid) l = filter (λ s, ShareEndpoint f s = Some uid) l.
Proof.
  induction l as [|s l IH]; [done|]. rewrite filter_cons. cbn [List.filter].
  destruct (endpoint_is f uid s) eqn:E.
  - rewrite decide_True by (by apply endpoint_is_iff). by rewrite IH.
  - rewrite decide_False; [done|]. rewrite <-endpoint_is_iff. congruence.
Qed.

(** Every relationship found at its own position: the identities are distinct. *)
Lemma find_index_positions {X} (key : X → Z) l :
  (∀ i x, l !! i = Some x → find_index (λ y, key y =? key x) l = i) →
  NoDup (key <$> l).
Proof.
  intros H. apply NoDup_alt. intros i j k Hi Hj.
  apply list_lookup_fmap_Some in Hi as (x & Hx & Hi).
  apply list_lookup_fmap_Some in Hj as (y & Hy & Hj).
  apply H in Hi as <-. apply H in Hj as <-. by rewrite <-Hx, <-Hy.
Qed.

Lemma shares_admissible_inv f (n : SharedNode A AE) :
  shares_admissible f n = true →
  NoDup (share_id <$> shares (fields n)) ∧
  Forall (λ s, ObjId_is_valid (share_id s) = true ∧
    ∃ u, ShareEndpoint f s = Some u ∧ u ≠ ""%string) (shares (fields n)).
Proof.
  unfold shares_admissible. intros H. rewrite forallb_forall in H.
  assert (Hall : ∀ i s, shares (fields n) !! i = Some s →
    share_admissible f n i s = true).
  { intros i s Hi. apply (H (i, s)), list_elem_of_In, elem_of_lookup_imap. eauto. }
  split.
  - apply find_index_positions. intros i s Hi. apply Hall in Hi.
    unfold share_admissible in Hi. breflect. by apply Nat.eqb_eq.
  - apply list.Forall_lookup. intros i s Hi. apply Hall in Hi.
    unfold share_admissible in Hi. breflect. split; [done|].
    destruct (ShareEndpoint f s) as [u|]; [|done]. exists u. split; [done|].
    breflect. by apply String.eqb_neq.
Qed.

Lemma SnapshotIsAdmissible_inv f class (n m : SharedNode A AE) local source share :
  SnapshotIsAdmissible f class n local source share = Some (true, m) →
  TryReplayFromBase n = Some (true, m) ∧ Forall (λ r, ts r ≠ 0) (journal n) ∧
  shares_admissible f m = true ∧ source ≠ local ∧
  ShareEndpointOf f m share = Some local.
Proof.
  unfold SnapshotIsAdmissible. intros H.
  destruct (negb (base_is_valid n) || _); [done|].
  destruct (forallb _ _) eqn:Hj; [|done]. cbn [negb] in H.
  destruct (TryReplayFromBase n) as [[[] m']|]; [|done..].
  cbn [mbind option_bind negb] in H. injection H as H <-. breflect.
  split; [done|]. split; [|split; [done|]].
  - apply list.Forall_forall. intros r Hr%list_elem_of_In.
    rewrite forallb_forall in Hj. apply Hj in Hr.
    unfold journal_record_admissible in Hr. breflect.
    destruct (ev_object (event r)); [|done]. breflect. done.
  - unfold AddressedToThisReplica in *.
    destruct (String.eqb_spec source local); [done|].
    destruct (ShareEndpointOf f m' share) as [d|]; [|done].
    destruct (String.eqb_spec d local) as [E|]; [by rewrite E|done].
Qed.

Lemma matching_share_inv f (n : SharedNode A AE) source share :
  matching_share f n source = Some share →
  share_id <$> filter (λ s, ShareEndpoint f s = Some source) (shares (fields n)) = [share] ∧
  is_Some (sync_state (fields n) share).
Proof.
  unfold matching_share. rewrite filter_endpoint.
  destruct (filter _ _) as [|s [|]]; try done.
  repeat case_match; try done. intros [= <-]. split; [done|by eexists].
Qed.

(** What the admission of a snapshot establishes. *)
Lemma admit_snapshot_inv rt source frame g share :
  admit_snapshot rt source frame = Some (Some (g, share)) →
  ∃ parsed, admitted_snapshot rt source frame parsed g share.
Proof.
  unfold admit_snapshot. intros H. cbv zeta in H.
  destruct (negb (IsExpectedInitialNode _ _) && _) eqn:Hexp; [done|].
  destruct (match endpoint_expectation rt source with None => false | Some _ => _ end)
    eqn:Hid; [done|].
  destruct (DeserializeObjectGraph _) as [parsed|] eqn:Hparse; [|done].
  destruct (ValidateStoredClassChains parsed) as [chains|] eqn:Hchains; [|done].
  destruct (chain_of chains _) as [info|] eqn:Hinfo; [|done].
  destruct (root_class_admissible _ _ _) eqn:Hclass; [|done]. cbn [negb] in H.
  destruct (LoadRoot parsed _) as [[class candidate| | |]|] eqn:Hload; try done.
  destruct (GenerationDistance _ _ <? 0) eqn:Hder; [done|].
  destruct (SnapshotIsAdmissible _ _ _ _ _ _) as [[[] n]|] eqn:Hadm; [|done..].
  cbn [mbind option_bind negb] in H.
  destruct (matching_share _ _ _) as [share'|] eqn:Hshare; [|done].
  destruct (no_collision _ _) eqn:Hcol; [|done]. cbn [negb] in H. simplify_eq.
  apply SnapshotIsAdmissible_inv in Hadm as (Hrep & Hts & Hsh & Hsrc & Haddr).
  apply shares_admissible_inv in Hsh as [Hnd Hall].
  apply matching_share_inv in Hshare as [Hone Hsync].
  exists parsed. split; [done|done| | |].
  - exists chains, info. split_and!; [done..| |].
    + unfold root_class_admissible in Hclass. breflect. lia.
    + unfold awaited, root_class_admissible in *.
      destruct (endpoint_expectation rt source) as [e|].
      * breflect. split; [done|]. intros Hv. rewrite Hv in Hid. cbn in Hid. by breflect.
      * destruct (IsExpectedInitialNode _ _); [done|discriminate Hexp].
  - exists class, candidate, n. by split_and!.
  - intros id classes Hin. unfold no_collision in Hcol.
    rewrite forallb_forall in Hcol. apply list_elem_of_In, Hcol in Hin. by breflect.
Qed.

(** The import writes only an admitted snapshot; a rejection leaves the runtime as it
    was. *)
Lemma ImportValidatedNode_run (laws : ReplicaLaws W A AE) rt source frame r rt' es :
  ImportValidatedNode source frame rt = Some (r, rt', es) →
  (r = None ∧ rt' = rt ∧ es = [] ∧ admit_snapshot rt source frame = Some None) ∨
  ∃ no share g w, r = Some (no, share) ∧ es = [WroteGraph g] ∧
    admit_snapshot rt source frame = Some (Some (g, share)) ∧
    CommitObjectGraph g (world rt) = Some w ∧ rt' = set_world rt w ∧
    node_id no = nsf_target_node_id frame.
Proof.
  unfold ImportValidatedNode. intros H. rewrite get_bind in H.
  apply bind_run in H as (adm & ? & ? & ? & (Ha & -> & ->)%required_run & H & ->).
  destruct adm as [[g share]|]; [right|left; apply ret_run in H; naive_solver].
  apply bind_run in H as (w & ? & ? & ? & (Hw & -> & ->)%required_run & H & ->).
  apply bind_run in H as (? & ? & ? & ? & (-> & ->)%put_run & H & ->).
  apply bind_run in H as (? & ? & ? & ? & (-> & ->)%emit_run & H & ->).
  destruct (DomainLoadRoot w _) as [[class n| | |]|] eqn:Hl;
    try (apply required_run in H as [? _]; done).
  apply bind_run in H as (m & ? & ? & ? & (Hm & -> & ->)%required_run & H & ->).
  apply ret_run in H as (-> & -> & ->).
  exists (mkNodeObj class m), share, g, w. split_and!; try done.
  unfold expect in Hm. destruct (TryReplayFromBase n) as [[[] m']|] eqn:Hr; simplify_eq/=.
  apply load_id in Hl as <-. unfold node_id. cbn [no_node].
  by apply TryRebuild_frame, sf_obj_id in Hr.
Qed.

(** *** Acknowledging a snapshot *)

(** What the application answers for a source that is still expected. *)
Definition binding_done rt (source : string) no : Prop :=
  match endpoint_expectation rt source with
  | None => True
  | Some _ => ∃ callback, initial_node_imported_callback_ rt = Some callback ∧
      callback source no = true
  end.

Lemma bind_expected_run rt source no b rt' es :
  bind_expected source no rt = Some (b, rt', es) →
  es = [] ∧ (b = true → binding_done rt source no) ∧
  (rt' = rt ∨
   rt' = set_expectations rt (erase_expectation source (expected_endpoint_nodes_ rt))).
Proof.
  unfold bind_expected, binding_done. rewrite get_bind. intros H.
  run; breflect; split_and!; eauto; done.
Qed.

Lemma register_and_ack_run rt source frame imported no u rt' es :
  register_and_ack source frame imported no rt = Some (u, rt', es) →
  let rt1 := if imported : bool then set_nodes rt (nodes_ rt ++ [no]) else rt in
  (rt' = rt1 ∨
   rt' = set_expectations rt1 (erase_expectation source (expected_endpoint_nodes_ rt))) ∧
  (es = [] ∨ binding_done rt source no ∧
             es = [Sent source (EncodeAckFrame (ack_of_node_state frame))]).
Proof.
  unfold register_and_ack. intros H.
  apply bind_run in H as (? & rt1 & ? & e2 & H1 & H & ->). rewrite get_bind in H1.
  apply put_run in H1 as [-> ->].
  apply bind_run in H as (b & rt2 & e1 & e3 & H1 & H & ->).
  apply bind_expected_run in H1 as (-> & Hb & Hrt2).
  assert (rt' = rt2 ∧ (e3 = [] ∨ b = true ∧
    e3 = [Sent source (EncodeAckFrame (ack_of_node_state frame))])) as [-> He3].
  { unfold Send_to in H. run; breflect; auto. }
  split; [by destruct imported|].
  destruct He3 as [->|[-> ->]]; [by left|right]. split; [|done].
  specialize (Hb eq_refl). by destruct imported.
Qed.

Lemma note_covered_run rt no share now no' s rt' es :
  note_covered no share now rt = Some ((no', s), rt', es) →
  es = [SavedState s] ∧ rt' = set_world rt (SaveSyncState (A := A) (AE := AE) (world rt) s) ∧
  no' = with_sync_state no share s ∧
  ∃ s0, sync_state (fields (no_node no)) share = Some s0 ∧
    CompleteFromReceivedSnapshot s0 (identity <$> filter (λ r, HasSharedIdentity r = true)
      (journal (no_node no))) now = Some s.
Proof.
  unfold note_covered, save_sync_state. intros H. run. simplify_eq.
  split_and!; eauto.
Qed.

(** What an acknowledged snapshot import wrote: the graph, the receipt on the source's
    relationship [s], and (unless the loaded state has the packet already) the node,
    the receipt [st] on this replica's own relationship and [s] again. *)
Definition import_effects (g : RamState) (s : SyncNode) (saved : option (NodeObj A AE * SyncNode))
    : list (Effect A AE) :=
  WroteGraph g :: SavedState s ::
  match saved with
  | Some (no, st) => [SavedNode no; SavedState st; SavedState s]
  | None => []
  end.

(** The outcomes of a run of [OnNodeState] for a node that is not registered. *)
Record imported_as rt source frame (now : nat → Readings) (g : RamState) no
    (s : SyncNode) (saved : option (NodeObj A AE * SyncNode)) : Prop := {
  ia_admitted : ∃ parsed share, admitted_snapshot rt source frame parsed g share;
  ia_id : node_id no = nsf_target_node_id frame;
  ia_saved : match saved with
    | Some (no', st) => no' = no ∧ ∃ st0,
        NoteInitialSyncReceived st0 (nsf_packet_id frame) (now 1%nat) = Some st
    | None => ∃ st, sync_state (fields (no_node no)) (nsf_destination_share_id frame) = Some st ∧
        received_initial_packet_id (fields st) = nsf_packet_id frame
    end
}.

Lemma OnNodeState_known rt source frame now no u rt' es :
  FindNode rt (nsf_target_node_id frame) = Some no →
  OnNodeState source frame now rt = Some (u, rt', es) →
  (rt' = rt ∧ es = []) ∨
  (source ≠ local_endpoint_uid rt ∧
   (∃ st, sync_state (fields (no_node no)) (nsf_destination_share_id frame) = Some st ∧
      received_initial_packet_id (fields st) = nsf_packet_id frame) ∧
   register_and_ack source frame false no rt = Some (u, rt', es)).
Proof.
  intros Hf H. unfold OnNodeState in H. rewrite get_bind in H.
  apply bind_run in H as (found & rt1 & e1 & e2 & H1 & H & ->). rewrite Hf in H1.
  destruct (AddressedToThisReplica _ _ _ _ _) eqn:Ha.
  2: { apply ret_run in H1 as (-> & -> & ->). apply ret_run in H. naive_solver. }
  apply ret_run in H1 as (-> & -> & ->).
  apply bind_run in H as (st & ? & ? & e3 & (Hst & -> & ->)%required_run & H & ->).
  unfold AddressedToThisReplica in Ha.
  destruct (String.eqb_spec source (local_endpoint_uid rt)); [done|].
  destruct (Z.eqb_spec (received_initial_packet_id (fields st)) (nsf_packet_id frame)) as [E|].
  - right. split_and!; eauto.
  - rewrite orb_true_r in H. apply ret_run in H. naive_solver.
Qed.

Lemma OnNodeState_new (laws : ReplicaLaws W A AE) rt source frame now u rt' es :
  FindNode rt (nsf_target_node_id frame) = None →
  OnNodeState source frame now rt = Some (u, rt', es) →
  (rt' = rt ∧ es = [] ∧ admit_snapshot rt source frame = Some None) ∨
  ∃ g no s w, (∃ parsed share, admitted_snapshot rt source frame parsed g share) ∧
    ((es = [WroteGraph g; SavedState s] ∧ rt' = set_world rt w) ∨
     ∃ saved es2, imported_as rt source frame now g no s saved ∧
       es = import_effects g s saved ++ es2 ∧
       register_and_ack source frame true no (set_world rt w) = Some (u, rt', es2)).
Proof.
  intros Hf H. unfold OnNodeState in H. rewrite get_bind in H.
  apply bind_run in H as (found & rt1 & e1 & e2 & H1 & H & ->). rewrite Hf in H1.
  apply bind_run in H1 as (imp & rt2 & e3 & e4 & Hi & H1 & ->).
  apply (ImportValidatedNode_run laws) in Hi as
    [(-> & -> & -> & Hadm)|(no & share & g & w & -> & -> & Hadm & _ & -> & Hid)].
  { apply ret_run in H1 as (-> & -> & ->). apply ret_run in H. naive_solver. }
  right. apply bind_run in H1 as ([no' s] & rt2 & e5 & e6 & Hn & H1 & ->).
  apply ret_run in H1 as (-> & -> & ->).
  apply note_covered_run in Hn as (-> & -> & -> & _).
  set (no1 := with_sync_state no share s) in *.
  apply bind_run in H as (st & ? & ? & e5 & (Hst & -> & ->)%required_run & H & ->).
  apply admit_snapshot_inv in Hadm as [parsed Hadm].
  destruct (Z.eqb_spec (received_initial_packet_id (fields st)) (nsf_packet_id frame)) as [E|].
  { eexists g, no1, s, _. split; [by eauto|right]. exists None, e5. split_and!; [|done..].
    split; [by eauto|done|by exists st]. }
  destruct (ObjId_is_valid (received_initial_packet_id (fields st))); cbn [orb negb] in H.
  { apply ret_run in H as (-> & -> & ->). eexists g, no1, s, _.
    split; [by eauto|left]. done. }
  apply bind_run in H as (st' & ? & ? & e6 & (Hst' & -> & ->)%required_run & H & ->).
  set (no2 := with_sync_state no1 (nsf_destination_share_id frame) st') in *.
  unfold save_node, save_sync_state in H.
  repeat match goal with
  | H : bind (bind _ _) _ _ = Some _ |- _ =>
      apply bind_run in H as (? & ? & ? & ? & ?H1 & H & ->)
  end. run.
  eexists g, no2, s, _. split; [by eauto|right]. exists (Some (no2, st')).
  eexists. split_and!; [|reflexivity|exact H].
  split; [by eauto|done|by eauto].
Qed.

(** C9. A snapshot is acknowledged only when it is durable and bound: whenever
    OnNodeState sends anything, it sends one frame, last, to the source of the
    snapshot, which is another replica: the acknowledgement of this packet.  The node
    is registered then, and the application has bound it when the source is still
    expected.  Either the node was registered before with this packet recorded as
    received, and nothing else was written; or it has just been imported from an
    admitted snapshot: the graph, the receipt on the source's relationship, the node
    and the receipt of this packet were written before, in this order. *)
Theorem OnNodeState_ack_means_durable (laws : ReplicaLaws W A AE)
    rt source frame now u rt' es d p
    (Hrun : OnNodeState source frame now rt = Some (u, rt', es))
    (Hack : Sent d p ∈ es) :
  d = source ∧ source ≠ local_endpoint_uid rt ∧
  p = EncodeAckFrame (ack_of_node_state frame) ∧
  ∃ no, FindNode rt' (nsf_target_node_id frame) = Some no ∧ binding_done rt source no ∧
    ((FindNode rt (nsf_target_node_id frame) = Some no ∧ es = [Sent d p] ∧
      ∃ st, sync_state (fields (no_node no)) (nsf_destination_share_id frame) = Some st ∧
        received_initial_packet_id (fields st) = nsf_packet_id frame) ∨
     (FindNode rt (nsf_target_node_id frame) = None ∧
      ∃ g s saved, imported_as rt source frame now g no s saved ∧
        es = import_effects g s saved ++ [Sent d p])).
Proof.
  destruct (FindNode rt (nsf_target_node_id frame)) as [no|] eqn:Hf.
  - apply OnNodeState_known with (no := no) in Hrun as [[-> ->]|(Hs & Hst & Hr)];
      [by apply not_elem_of_nil in Hack| |done].
    apply register_and_ack_run in Hr as [Hrt [->|[Hb ->]]];
      [by apply not_elem_of_nil in Hack|].
    apply list_elem_of_singleton in Hack as [= -> ->].
    split_and!; [done..|]. exists no. split; [by destruct Hrt as [->| ->]|]. eauto 10.
  - apply (OnNodeState_new laws) in Hrun as
      [(-> & -> & _)|(g & no & s & w & (parsed & share & Hadm) & [[-> ->]|Hr])];
      [by apply not_elem_of_nil in Hack| | |done].
    { rewrite !elem_of_cons, elem_of_nil in Hack. naive_solver. }
    destruct Hr as (saved & es2 & Hia & -> & Hr).
    apply register_and_ack_run in Hr as [Hrt He].
    assert (Sent d p ∈ es2) as Hin.
    { apply elem_of_app in Hack as [Hi|]; [|done]. unfold import_effects in Hi.
      destruct saved as [[]|]; rewrite !elem_of_cons, elem_of_nil in Hi; naive_solver. }
    destruct He as [->|[Hb ->]]; [by apply not_elem_of_nil in Hin|].
    apply list_elem_of_singleton in Hin as [= -> ->].
    split; [done|]. split; [by destruct Hadm|]. split; [done|]. exists no.
    split; [|split; [done|right; split; [done|by eauto 10]]].
    destruct Hia as [_ Hid _]. unfold FindNode in *.
    assert (find (node_is (nsf_target_node_id frame)) (nodes_ rt ++ [no]) = Some no) as Hfind.
    { apply find_snoc; [done|]. by apply node_is_iff. }
    by destruct Hrt as [->| ->].
Qed.

(** Snapshots that are not awaited or not admissible change nothing: a run of
    OnNodeState for a node that is not registered either leaves the runtime, the
    Domain and the storage as they were and sends nothing, or its first effect writes
    the graph of a snapshot that was admitted: from another replica, of a root this
    replica waits for, replayed in scratch from base to end with valid and distinct
    relationships, addressed to this replica, with exactly one relationship of the
    source, and colliding with no object of this replica. *)
Theorem OnNodeState_writes_only_admitted (laws : ReplicaLaws W A AE)
    rt source frame now u rt' es
    (Hnew : FindNode rt (nsf_target_node_id frame) = None)
    (Hrun : OnNodeState source frame now rt = Some (u, rt', es)) :
  (rt' = rt ∧ es = []) ∨
  ∃ parsed g share es', admitted_snapshot rt source frame parsed g share ∧
    es = WroteGraph g :: es'.
Proof.
  apply (OnNodeState_new laws) in Hrun as
    [(-> & -> & _)|(g & no & s & w & (parsed & share & Hadm) & [[-> ->]|Hr])];
    [by left|right; by eauto 10|right|done].
  destruct Hr as (saved & es2 & _ & -> & _). by eauto 10.
Qed.
End importing.

(** ** Receiving events *)
Section receiving.
  Context {W A AE : Type}.
  Context {ids : AetherIds} {reg : AetherRegistry} {rep : Replica}.
  Context `{!NodeKind A AE} {evs : EventObjects AE}.
  Context {objs : ObjectSystem (GraphObject A AE)} {rw : ReplicaWorld W A AE}.
  Implicit Types rt : SharedSyncRuntime W A AE.
  Implicit Types no : NodeObj A AE.
  Implicit Types es : list (Effect A AE).

(** The sender of an event frame is another participant with write access, and the
    frame is for the relationship that ends at this replica. *)
Record writable rt no (source : string) (share : Z) : Prop := {
  wr_source : source ≠ local_endpoint_uid rt;
  wr_destination : ShareEndpointOf (live_endpoint rt) (no_node no) share =
    Some (local_endpoint_uid rt);
  wr_access : ∃ s, s ∈ shares (fields (no_node no)) ∧
    ShareEndpoint (live_endpoint rt) s = Some source ∧ access s = ShareAccess.ReadWrite
}.

Lemma EventAddressed_writable rt no source share :
  EventAddressedToThisReplica (live_endpoint rt) (no_node no) (local_endpoint_uid rt)
    source share = true → writable rt no source share.
Proof.
  unfold EventAddressedToThisReplica. intros H.
  destruct (String.eqb_spec source (local_endpoint_uid rt)); [done|].
  destruct (ShareEndpointOf _ _ _) as [d|] eqn:Hd; [|done].
  destruct (String.eqb_spec d (local_endpoint_uid rt)) as [E|]; [|done]. cbn [negb] in H.
  destruct (ShareOfEndpoint _ _ _) as [s|] eqn:Hs; [|done].
  apply find_some in Hs as [Hin Hs]. apply endpoint_is_iff in Hs.
  split; [done|by rewrite Hd, E|]. exists s. breflect. split; [by apply list_elem_of_In|done].
Qed.

(** The outcomes of [OnEvent]. *)
Lemma OnEvent_run fuel gen1 gen2 source frame now rt u rt' es :
  OnEvent fuel gen1 gen2 source frame now rt = Some (u, rt', es) →
  (es = [] ∧ (rt' = rt ∨ ∃ w, rt' = set_world rt w)) ∨
  ∃ no, FindNode rt (ef_target_node_id frame) = Some no ∧
    writable rt no source (ef_destination_share_id frame) ∧
    IsStandaloneEventClassAllowed rt (ef_event_class_id frame) = true ∧
    ((∃ r, rt' = rt ∧ FindSharedEvent (no_node no) (ef_identity frame) = Some r ∧
       same_event frame r = true ∧
       es = [Sent source (EncodeAckFrame (ack_of_event frame))]) ∨
     ∃ id e n w, FindSharedEvent (no_node no) (ef_identity frame) = None ∧
       InsertShared (no_node no) (created (no_node no) e) (ef_identity frame)
         (mkSharedEventOrder (ef_timestamp_us frame)) (now 1%nat) = Some n ∧
       let no' := mkNodeObj (no_class no) n in
       rt' = set_world (set_nodes (set_world rt w) (replace_node no' (nodes_ rt)))
               (SaveObject w (obj_id n) (ONode (no_class no) n)) ∧
       es = [WroteEvent id; SavedNode no'; Sent source (EncodeAckFrame (ack_of_event frame))]).
Proof.
  unfold OnEvent. rewrite get_bind. intros H.
  destruct (FindNode _ _) as [no|] eqn:Hf; [|apply ret_run in H; naive_solver].
  destruct (EventAddressedToThisReplica _ _ _ _ _) eqn:Ha; [|apply ret_run in H; naive_solver].
  destruct (IsStandaloneEventClassAllowed _ _) eqn:Hc; [|apply ret_run in H; naive_solver].
  cbn [negb] in H. apply EventAddressed_writable in Ha.
  destruct (event_payload_admissible _ _) as [[parsed root]|]; [|apply ret_run in H; naive_solver].
  destruct (FindSharedEvent _ _) as [r|] eqn:Hr.
  { destruct (same_event frame r) eqn:Hs; [|apply ret_run in H; naive_solver].
    apply emit_run in H as [-> ->]. right. exists no. eauto 10. }
  apply bind_run in H as (pre & ? & ? & ? & (_ & -> & ->)%required_run & H & ->).
  destruct pre; cbn [negb] in H; [|apply ret_run in H; naive_solver].
  apply bind_run in H as ([w imported] & ? & ? & ? & (_ & -> & ->)%required_run & H & ->).
  apply bind_run in H as (? & ? & ? & ? & (-> & ->)%put_run & H & ->).
  destruct imported as [[id [| e | |]]|]; try (apply required_run in H as [? _]; done).
  2: { apply ret_run in H as (-> & -> & ->). left. eauto. }
  right. exists no. split_and!; [done..|]. right.
  apply bind_run in H as (? & ? & ? & ? & (-> & ->)%emit_run & H & ->).
  apply bind_run in H as (n & ? & ? & ? & (Hn & -> & ->)%required_run & H & ->).
  exists id, e, n, w. split; [done|]. split; [done|]. cbv zeta.
  unfold update_node, save_node, Send_to in H. run. by split.
Qed.

(** C10. An event is acknowledged only when its journal has it: whenever OnEvent
    sends anything, the sender is another participant with write access, the frame is
    for this replica's relationship, its class is allowed, and what is sent, last, is
    the acknowledgement of this packet to the sender; the registered node then has a
    record with the frame's identity and timestamp.  Either that record was there
    before and nothing at all was changed or written (a duplicate), or the event and
    the node with the record were saved before the send.  An identity that is recorded
    with another timestamp, class or content is never acknowledged nor inserted. *)
Theorem OnEvent_ack_means_recorded (fuel : nat) gen1 gen2 source frame now
    rt u rt' es d p
    (Hrun : OnEvent fuel gen1 gen2 source frame now rt = Some (u, rt', es))
    (Hack : Sent d p ∈ es) :
  d = source ∧ p = EncodeAckFrame (ack_of_event frame) ∧
  IsStandaloneEventClassAllowed rt (ef_event_class_id frame) = true ∧
  ∃ no no' r, FindNode rt (ef_target_node_id frame) = Some no ∧
    FindNode rt' (ef_target_node_id frame) = Some no' ∧
    writable rt no source (ef_destination_share_id frame) ∧
    r ∈ journal (no_node no') ∧ identity r = ef_identity frame ∧
    ts r = ef_timestamp_us frame ∧
    ((rt' = rt ∧ es = [Sent d p] ∧ same_event frame r = true) ∨
     (FindSharedEvent (no_node no) (ef_identity frame) = None ∧
      ∃ id, es = [WroteEvent id; SavedNode no'; Sent d p])).
Proof.
  apply OnEvent_run in Hrun as [[-> _]|(no & Hf & Hw & Hc & [H|H])];
    [by apply not_elem_of_nil in Hack|..].
  - destruct H as (r & -> & Hr & Hs & ->). apply list_elem_of_singleton in Hack as [= -> ->].
    split_and!; [done..|]. exists no, no, r. split_and!; try done.
    + unfold FindSharedEvent in Hr. case_match; [done|].
      apply find_some in Hr as [Hr _]. by apply list_elem_of_In.
    + unfold FindSharedEvent in Hr. case_match; [done|].
      apply find_some in Hr as [_ Hr]. breflect.
      rewrite SharedEventId_eqb_spec in *. by breflect.
    + unfold same_event in Hs. by breflect.
    + left. eauto.
  - destruct H as (id & e & n & w & Hr & Hn & -> & ->).
    rewrite !elem_of_cons, elem_of_nil in Hack.
    destruct Hack as [?|[?|[Hack|[]]]]; [done..|]. injection Hack as -> ->.
    apply InsertShared_record in Hn as (Hid & _ & r & Hin & Hi & Ht & _).
    split_and!; [done..|]. exists no, (mkNodeObj (no_class no) n), r.
    split_and!; try done; [|right; eauto].
    apply find_replace_node with no; [done|]. unfold node_id. cbn [no_node]. rewrite Hid.
    by apply FindNode_id in Hf.
Qed.
End receiving.

(** ** The runtime over its lifetime *)
Section lifetime.
  Context {W A AE : Type}.
  Context {ids : AetherIds} {reg : AetherRegistry} {rep : Replica}.
  Context `{!NodeKind A AE} {evs : EventObjects AE}.
  Context {objs : ObjectSystem (GraphObject A AE)} {rw : ReplicaWorld W A AE}.
  Implicit Types rt : SharedSyncRuntime W A AE.
  Implicit Types no : NodeObj A AE.
  Implicit Types es : list (Effect A AE).

(** The calls of the application and of the transport, with what the object system
    and the clock answer during each. *)
Inductive Operation :=
| OpRegisterNode (no : NodeObj A AE)
| OpExpectInitialNode (id : Z)
| OpExpectInitialNodeFromEndpoint (source : string) (class node : Z)
| OpForgetInitialNodeFromEndpoint (source : string)
| OpAllowStandaloneEventClass (class : Z)
| OpSyncInitialState (node share new_id : Z) (now : Readings)
| OpSyncNextEvent (node share new_id : Z) (now : Readings)
| OpReceive (fuel : nat) (gen1 gen2 : nat → Z) (source : string) (packet : bytes)
    (now : nat → Readings).

Definition perform (op : Operation) : M W A AE unit :=
  match op with
  | OpRegisterNode no => RegisterNode no
  | OpExpectInitialNode id => ExpectInitialNode id
  | OpExpectInitialNodeFromEndpoint s c n => ExpectInitialNodeFromEndpoint s c n
  | OpForgetInitialNodeFromEndpoint s => ForgetInitialNodeFromEndpoint s
  | OpAllowStandaloneEventClass c => AllowStandaloneEventClass c
  | OpSyncInitialState node share id now => SyncInitialState node share id now
  | OpSyncNextEvent node share id now => SyncNextEvent node share id now
  | OpReceive fuel g1 g2 source packet now => OnBytes fuel g1 g2 source packet now
  end.

Fixpoint perform_all (ops : list Operation) : M W A AE unit :=
  match ops with
  | [] => ret tt
  | op :: ops => perform op ;* perform_all ops
  end.

(** Each node is registered once, each endpoint is expected once, and only event
    classes are allowed, once each. *)
Record runtime_ok rt : Prop := {
  ro_nodes : NoDup (node_id <$> nodes_ rt);
  ro_expected : NoDup (exp_source_endpoint <$> expected_endpoint_nodes_ rt);
  ro_expectations : Forall (λ e, exp_source_endpoint e ≠ ""%string ∧ exp_root_class_id e ≠ 0)
    (expected_endpoint_nodes_ rt);
  ro_classes : NoDup (standalone_event_classes_ rt);
  ro_event_classes : Forall (λ c, GenerationDistance Event_kClassId c >= 0)
    (standalone_event_classes_ rt)
}.

(** The runtime is configured alike: what [runtime_ok] speaks about is the same. *)
Record same_config rt rt' : Prop := {
  sc_local : local_endpoint_uid rt' = local_endpoint_uid rt;
  sc_nodes : node_id <$> nodes_ rt' = node_id <$> nodes_ rt;
  sc_expected : expected_endpoint_nodes_ rt' = expected_endpoint_nodes_ rt;
  sc_classes : standalone_event_classes_ rt' = standalone_event_classes_ rt
}.

Lemma same_config_refl rt : same_config rt rt.
Proof. done. Qed.

Lemma same_config_ok rt rt' : same_config rt rt' → runtime_ok rt → runtime_ok rt'.
Proof.
  intros [_ Hn He Hc] [H1 H2 H3 H4 H5]. split; rewrite ?Hn, ?He, ?Hc; done.
Qed.

(** Nothing is sent to the replica's own endpoint. *)
Definition no_self_send (local : string) es : Prop := ∀ d p, Sent d p ∈ es → d ≠ local.

Lemma no_self_send_nil local : no_self_send local [].
Proof. intros d p H. by apply elem_of_nil in H. Qed.

Lemma no_self_send_app local es1 es2 :
  no_self_send local es1 → no_self_send local es2 → no_self_send local (es1 ++ es2).
Proof. intros H1 H2 d p [H|H]%elem_of_app; eauto. Qed.

Lemma no_self_send_one local d p : d ≠ local → no_self_send local [Sent d p].
Proof. intros H d' p' [= -> ->]%list_elem_of_singleton. done. Qed.

Lemma persist_config rt no st d p u rt' es :
  (update_node no ;* save_node no ;* save_sync_state st ;* Send_to d p)%app rt =
    Some (u, rt', es) →
  same_config rt rt' ∧ es = [SavedNode no; SavedState st; Sent d p].
Proof.
  unfold update_node, save_node, save_sync_state, Send_to. intros H. run.
  split; [|done]. split; try done. apply replace_node_ids.
Qed.

Lemma no_self_send_persist local no st d p :
  d ≠ local → no_self_send local [SavedNode no; SavedState st; Sent d p].
Proof.
  intros Hd d' p'. rewrite !elem_of_cons, elem_of_nil. naive_solver.
Qed.

Lemma SyncInitialState_config node share id now rt u rt' es :
  SyncInitialState node share id now rt = Some (u, rt', es) →
  same_config rt rt' ∧ no_self_send (local_endpoint_uid rt) es.
Proof.
  unfold SyncInitialState. intros H.
  apply bind_run in H as ([[no d] st] & ? & ? & ? & Ho & H & ->).
  apply open_relationship_opened in Ho as (-> & -> & [_ _ _ Hd _]).
  destruct (_ =? InitialSyncPhase.Complete).
  { apply ret_run in H as (_ & -> & ->). split; [done|apply no_self_send_nil]. }
  destruct (_ =? InitialSyncPhase.Pending).
  { apply emit_run in H as (-> & ->). split; [done|by apply no_self_send_one]. }
  apply bind_run in H as (frozen & ? & ? & ? & (_ & -> & ->)%required_run & H & ->).
  apply bind_run in H as (st' & ? & ? & ? & (_ & -> & ->)%required_run & H & ->).
  apply persist_config in H as [? ->]. split; [done|]. by apply no_self_send_persist.
Qed.

Lemma SyncNextEvent_config node share id now rt u rt' es :
  SyncNextEvent node share id now rt = Some (u, rt', es) →
  same_config rt rt' ∧ no_self_send (local_endpoint_uid rt) es.
Proof.
  unfold SyncNextEvent. intros H.
  apply bind_run in H as ([[no d] st] & ? & ? & ? & Ho & H & ->).
  apply open_relationship_opened in Ho as (-> & -> & [_ _ _ Hd _]).
  destruct (negb _).
  { apply ret_run in H as (_ & -> & ->). split; [done|apply no_self_send_nil]. }
  destruct (HasPendingEvent _).
  { apply emit_run in H as (-> & ->). split; [done|by apply no_self_send_one]. }
  destruct (NextUndeliveredSharedEvent _ _ _) as [r|].
  2: { apply ret_run in H as (_ & -> & ->). split; [done|apply no_self_send_nil]. }
  apply bind_run in H as (? & ? & ? & ? & (_ & -> & ->)%check_run & H & ->).
  apply bind_run in H as (e & ? & ? & ? & (_ & -> & ->)%required_run & H & ->).
  apply bind_run in H as (? & ? & ? & ? & (-> & -> & ->)%get_run & H & ->).
  destruct (negb _).
  { apply ret_run in H as (_ & -> & ->). split; [done|apply no_self_send_nil]. }
  destruct (FreezeStandaloneEventPayload _ _) as [payload|].
  2: { apply ret_run in H as (_ & -> & ->). split; [done|apply no_self_send_nil]. }
  apply bind_run in H as (st' & ? & ? & ? & (_ & -> & ->)%required_run & H & ->).
  apply persist_config in H as [? ->]. split; [done|]. by apply no_self_send_persist.
Qed.

Lemma OnAck_config source frame now rt u rt' es :
  OnAck source frame now rt = Some (u, rt', es) →
  same_config rt rt' ∧ no_self_send (local_endpoint_uid rt) es.
Proof.
  destruct (acked_dec rt source frame) as [(no & st & Ha)|Hn].
  2: { rewrite OnAck_not_acked by done. intros [= _ <- <-].
       split; [done|apply no_self_send_nil]. }
  rewrite (OnAck_acked _ _ _ _ _ _ Ha). cbv zeta.
  assert (∀ o : option SyncNode,
    (let* s := required o in
     let no := with_sync_state no (ack_destination_share_id frame) s in
     update_node no ;* save_node no ;* save_sync_state s)%app rt = Some (u, rt', es) →
    same_config rt rt' ∧ no_self_send (local_endpoint_uid rt) es) as Hfin.
  { intros o H. unfold update_node, save_node, save_sync_state in H. run.
    split; [split; try done; apply replace_node_ids|]. cbn [app].
    intros d p. rewrite !elem_of_cons, elem_of_nil. naive_solver. }
  destruct (acknowledges _ _) as [e|]; [by destruct e; apply Hfin|].
  intros [= _ <- <-]. split; [done|apply no_self_send_nil].
Qed.

Lemma OnEvent_config fuel gen1 gen2 source frame now rt u rt' es :
  OnEvent fuel gen1 gen2 source frame now rt = Some (u, rt', es) →
  same_config rt rt' ∧ no_self_send (local_endpoint_uid rt) es.
Proof.
  intros [[-> Hrt]|(no & Hf & [Hw _ _] & _ & [H|H])]%OnEvent_run.
  - split; [by destruct Hrt as [->|[w ->]]|apply no_self_send_nil].
  - destruct H as (r & -> & _ & _ & ->). split; [done|by apply no_self_send_one].
  - destruct H as (id & e & n & w & _ & Hn & -> & ->).
    split; [split; try done; apply replace_node_ids|].
    intros d p. rewrite !elem_of_cons, elem_of_nil. naive_solver.
Qed.

Lemma erase_expectation_sublist source l : sublist (erase_expectation source l) l.
Proof.
  induction l as [|e l IH]; simpl; [done|]. case_match; [by apply sublist_cons|].
  by apply sublist_skip.
Qed.

Lemma sublist_expectations_ok rt l :
  runtime_ok rt → sublist l (expected_endpoint_nodes_ rt) →
  runtime_ok (set_expectations rt l).
Proof.
  intros [H1 H2 H3 H4 H5] Hl. split; try done; cbn.
  - eapply sublist_NoDup; [done|by apply fmap_sublist].
  - apply list.Forall_forall. intros e He. rewrite list.Forall_forall in H3. apply H3.
    eapply elem_of_submseteq; [done|by apply sublist_submseteq].
Qed.

Lemma update_expectation_spec source class node l :
  match update_expectation source class node l with
  | Some l' => exp_source_endpoint <$> l' = exp_source_endpoint <$> l ∧
      ∀ e, e ∈ l' → e ∈ l ∨ exp_source_endpoint e = source ∧ exp_root_class_id e = class
  | None => source ∉ exp_source_endpoint <$> l
  end.
Proof.
  induction l as [|e l IH]; [by apply not_elem_of_nil|]. cbn [update_expectation].
  unfold expectation_of at 1. destruct (String.eqb_spec (exp_source_endpoint e) source) as [E|E].
  - split; [done|]. intros e' [->|?]%elem_of_cons; [by right|left; by right].
  - destruct (update_expectation source class node l) as [l'|]; cbn [mbind option_bind].
    + destruct IH as [IH1 IH2]. split; [by rewrite !fmap_cons, IH1|].
      intros e' [->|He]%elem_of_cons; [left; by left|].
      destruct (IH2 _ He); [left; by right|by right].
    + rewrite fmap_cons, not_elem_of_cons. split; [congruence|done].
Qed.

Lemma set_expectations_ok rt source class node l :
  source ≠ ""%string → class ≠ 0 → runtime_ok rt →
  l = match update_expectation source class node (expected_endpoint_nodes_ rt) with
      | Some l => l
      | None => expected_endpoint_nodes_ rt ++ [mkExpectation source class node]
      end →
  runtime_ok (set_expectations rt l).
Proof.
  intros Hs Hc [H1 H2 H3 H4 H5] ->.
  pose proof (update_expectation_spec source class node (expected_endpoint_nodes_ rt)) as H.
  destruct (update_expectation _ _ _ _) as [l|]; split; try done; cbn.
  - destruct H as [-> _]. done.
  - destruct H as [_ H]. apply list.Forall_forall. intros e He.
    rewrite list.Forall_forall in H3. destruct (H e He) as [?|[-> ->]]; [by apply H3|done].
  - rewrite fmap_app. apply list.NoDup_app. split; [done|]. split; [|apply list.NoDup_singleton].
    intros x Hx ->%list_elem_of_singleton. done.
  - by rewrite list.Forall_app, list.Forall_singleton.
Qed.

Lemma filter_expectations_sublist p (l : list EndpointExpectation) :
  sublist (List.filter p l) l.
Proof.
  induction l as [|e l IH]; simpl; [done|]. case_match; [by apply sublist_skip|].
  by apply sublist_cons.
Qed.

Lemma snoc_node_ok rt no :
  FindNode rt (node_id no) = None → runtime_ok rt → runtime_ok (set_nodes rt (nodes_ rt ++ [no])).
Proof.
  intros Hf [H1 H2 H3 H4 H5]. split; try done. cbn. rewrite fmap_app.
  apply find_node_None in Hf. apply list.NoDup_app. split; [done|].
  split; [|apply list.NoDup_singleton]. intros x Hx ->%list_elem_of_singleton. done.
Qed.

(** What every operation keeps. *)
Definition keeps (m : M W A AE unit) : Prop := ∀ rt u rt' es,
  runtime_ok rt → m rt = Some (u, rt', es) →
  runtime_ok rt' ∧ local_endpoint_uid rt' = local_endpoint_uid rt ∧
  no_self_send (local_endpoint_uid rt) es.

Lemma config_keeps (m : M W A AE unit) :
  (∀ rt u rt' es, m rt = Some (u, rt', es) →
     same_config rt rt' ∧ no_self_send (local_endpoint_uid rt) es) → keeps m.
Proof.
  intros H rt u rt' es Hok [Hc Hs]%H. split; [by eapply same_config_ok|].
  split; [by destruct Hc|done].
Qed.

Lemma ret_keeps : keeps (ret tt).
Proof.
  intros rt u rt' es Hok (_ & -> & ->)%ret_run. split; [done|].
  split; [done|apply no_self_send_nil].
Qed.

Lemma put_keeps (f : SharedSyncRuntime W A AE → SharedSyncRuntime W A AE) :
  (∀ rt, runtime_ok rt → runtime_ok (f rt) ∧ local_endpoint_uid (f rt) = local_endpoint_uid rt) →
  keeps (let* rt := get in put (f rt))%app.
Proof.
  intros Hf rt u rt' es Hok H. rewrite get_bind in H. apply put_run in H as [-> ->].
  destruct (Hf rt Hok). split; [done|]. split; [done|apply no_self_send_nil].
Qed.

Lemma register_keeps source frame imported no rt u rt' es :
  runtime_ok rt → source ≠ local_endpoint_uid rt →
  (imported = true → FindNode rt (node_id no) = None) →
  register_and_ack source frame imported no rt = Some (u, rt', es) →
  runtime_ok rt' ∧ local_endpoint_uid rt' = local_endpoint_uid rt ∧
  no_self_send (local_endpoint_uid rt) es.
Proof.
  intros Hok Hs Hn [Hrt He]%register_and_ack_run.
  assert (runtime_ok (if imported then set_nodes rt (nodes_ rt ++ [no]) else rt)) as Hok1.
  { destruct imported; [apply snoc_node_ok; auto|done]. }
  split; [|split].
  - destruct Hrt as [->| ->]; [done|]. apply sublist_expectations_ok; [done|].
    destruct imported; apply erase_expectation_sublist.
  - by destruct imported, Hrt as [->| ->].
  - destruct He as [->|[_ ->]]; [apply no_self_send_nil|by apply no_self_send_one].
Qed.

Lemma set_world_ok rt w : runtime_ok rt → runtime_ok (set_world rt w).
Proof. by apply same_config_ok. Qed.

Lemma import_effects_no_send local g s saved : no_self_send local (import_effects g s saved).
Proof.
  intros d p. unfold import_effects.
  destruct saved as [[]|]; rewrite !elem_of_cons, elem_of_nil; naive_solver.
Qed.

Lemma OnNodeState_keeps (laws : ReplicaLaws W A AE) source frame now :
  keeps (OnNodeState source frame now).
Proof.
  intros rt u rt' es Hok H.
  destruct (FindNode rt (nsf_target_node_id frame)) as [no|] eqn:Hf.
  - destruct (OnNodeState_known _ _ _ _ _ _ _ _ Hf H) as [[-> ->]|(Hs & _ & Hr)].
    + split; [done|]. split; [done|apply no_self_send_nil].
    + eapply (register_keeps _ _ false); [done|exact Hs|done|exact Hr].
  - apply (OnNodeState_new laws) in H as
      [(-> & -> & _)|(g & no & s & w & (parsed & share & Hadm) & [[-> ->]|Hr])]; [| | |done].
    + split; [done|]. split; [done|apply no_self_send_nil].
    + split; [by apply set_world_ok|]. split; [done|].
      apply (import_effects_no_send _ g s None).
    + destruct Hr as (saved & es2 & [_ Hid _] & -> & Hr).
      eapply register_keeps in Hr as (H1 & H2 & H3);
        [| by apply set_world_ok | by destruct Hadm | by rewrite Hid].
      split; [done|]. split; [done|]. apply no_self_send_app; [|done].
      apply import_effects_no_send.
Qed.

Lemma perform_keeps (laws : ReplicaLaws W A AE) op : keeps (perform op).
Proof.
  destruct op as [no|id|s c n|s|c|node share id now|node share id now|fuel g1 g2 s p now]; simpl.
  - intros rt u rt' es Hok H. unfold RegisterNode in H. rewrite get_bind in H. run.
    destruct (FindNode _ _) eqn:Hf; [done|].
    split; [by apply snoc_node_ok|]. split; [done|apply no_self_send_nil].
  - intros rt u rt' es Hok H. unfold ExpectInitialNode in H. run.
    split; [by destruct Hok|]. split; [done|apply no_self_send_nil].
  - unfold ExpectInitialNodeFromEndpoint.
    destruct (String.eqb_spec s ""); [apply ret_keeps|].
    destruct (Z.eqb_spec c 0); [apply ret_keeps|]. apply put_keeps. intros rt Hok.
    split; [by eapply set_expectations_ok|done].
  - unfold ForgetInitialNodeFromEndpoint.
    destruct (String.eqb s ""); [apply ret_keeps|]. apply put_keeps. intros rt Hok.
    split; [|done]. apply sublist_expectations_ok; [done|].
    apply filter_expectations_sublist.
  - unfold AllowStandaloneEventClass. destruct (c =? 0); [apply ret_keeps|].
    destruct (Z.ltb_spec (GenerationDistance Event_kClassId c) 0); [apply ret_keeps|].
    intros rt u rt' es Hok Hr. rewrite get_bind in Hr.
    destruct (IsStandaloneEventClassAllowed rt c) eqn:Hc; cbn [negb] in Hr;
      [by eapply ret_keeps|]. run.
    split; [|split; [done|apply no_self_send_nil]].
    unfold IsStandaloneEventClassAllowed in Hc. apply bool_decide_eq_false in Hc.
    destruct Hok as [H1 H2 H3 H4 H5]. split; try done; cbn.
    + apply list.NoDup_app. split; [done|]. split; [|apply list.NoDup_singleton].
      intros x Hx ->%list_elem_of_singleton. done.
    + rewrite list.Forall_app, list.Forall_singleton. split; [done|lia].
  - apply config_keeps, SyncInitialState_config.
  - apply config_keeps, SyncNextEvent_config.
  - unfold OnBytes. destruct (PeekSyncFrameType p) as [[]|]; try apply ret_keeps.
    + destruct (DecodeNodeStateFrame p); [by apply OnNodeState_keeps|apply ret_keeps].
    + destruct (DecodeAckFrame p); [|apply ret_keeps]. apply config_keeps, OnAck_config.
    + destruct (DecodeEventFrame p); [|apply ret_keeps]. apply config_keeps, OnEvent_config.
Qed.

(** Over any sequence of calls and received packets that fails no assertion, from
    a runtime without registrations, every node is registered at most once, every
    endpoint has at most one expectation (of a nonempty endpoint and a class), only
    classes of events are allowed, each once, and nothing is ever sent to the
    replica's own endpoint, whatever bytes arrive. *)
Theorem perform_all_ok (laws : ReplicaLaws W A AE) ops rt u rt' es
    (Hok : runtime_ok rt)
    (Hrun : perform_all ops rt = Some (u, rt', es)) :
  runtime_ok rt' ∧ local_endpoint_uid rt' = local_endpoint_uid rt ∧
  no_self_send (local_endpoint_uid rt) es.
Proof.
  revert rt es Hok Hrun. induction ops as [|op ops IH]; intros rt es Hok H.
  { apply ret_run in H as (_ & -> & ->). split; [done|]. split; [done|apply no_self_send_nil]. }
  apply bind_run in H as (x & rt1 & e1 & e2 & H1 & H & ->).
  apply (perform_keeps laws) in H1 as (Hok1 & Hl & Hs); [|done].
  apply IH in H as (Hok2 & Hl2 & Hs2); [|done]. rewrite Hl in *.
  split; [done|]. split; [done|]. by apply no_self_send_app.
Qed.
End lifetime.
