(* ===== verification/SyncRuntimeExamples.v ===== *)
(** * A concrete replica for the synchronization runtime

    A storage, an object system and a Domain on which the theorems of
    SyncRuntimeTheory.v are applied: "alice" shares node 100 with "bob". *)
From S2P Require Import Prelude Aether SharedEvent Node NodeTheory LinkSync SharedNode.
From S2P Require Import SharedNodeTheory SyncFrame DomainStorage StoredGraph SyncRuntime SyncRuntimeTheory.

Import Aether.Demo DemoStorage.
#[local] Existing Instance NodeTheory.Examples.log_kind.
#[local] Existing Instance NodeTheory.Examples.log_equiv.
#[local] Existing Instance NodeTheory.Examples.log_laws.
#[local] Existing Instance SharedNodeTheory.Examples.replica.

Abbreviation Event := (SharedNodeEvent Z).
Abbreviation Object := (GraphObject (list Z) Z).

Definition rec (t : Z) (e : Event) : EventRecord Event :=
  mkEventRecord (mkEventPtr true (Some e) (Some 1)) empty_identity
    (mkSharedEventOrder t) 5.

(** Relationship 7 ends at alice (Link 70), relationship 8 at bob (Link 80). *)
Definition topology : list (EventRecord Event) :=
  [rec 10 (AddShareEvent 7 (Some 70) 0); rec 20 (AddShareEvent 8 (Some 80) 0)].

(** Alice's message, by a shared identity. *)
Definition message : EventRecord Event :=
  mkEventRecord (mkEventPtr true (Some (AppEvent 3)) (Some 1)) (mkSharedEventId "alice" 1)
    (mkSharedEventOrder 30) 5.

(** The node as it is loaded, before the replay of its journal. *)
Definition loaded : SharedNode (list Z) Z :=
  set_journal SharedNodeTheory.Examples.fresh topology.

(** The node as it is live on a replica. *)
Definition live (rs : list (EventRecord Event)) : SharedNode (list Z) Z :=
  SharedNodeTheory.Examples.after rs.

Definition snapshot : RamState := {[
  70 := Some {[2 := {[0 := []]}]}; 80 := Some {[2 := {[0 := []]}]};
  100 := Some {[2 := {[0 := []]}; 4 := {[0 := [1]]}]};
  101 := Some {[2 := {[0 := []]}; 4 := {[0 := []]}]}
]}.

Definition event_graph : RamState :=
  {[50 := Some {[3 := {[0 := []]}; 10 := {[0 := [3]]}]}]}.

#[local] Instance objects : ObjectSystem Object := {|
  archive_Load_id b := match b with i :: rest => Some (i, rest) | [] => None end;
  archive_Load_state b :=
    match b with
    | 77 :: rest => Some (event_graph, rest)
    | 78 :: rest => Some (snapshot, rest)
    | _ => None
    end;
  archive_Save_id i := (true, [i]);
  archive_Save_state s :=
    if decide (s = event_graph) then (true, [77])
    else if decide (s = snapshot) then (true, [78]) else (false, []);
  LoadRoot s id := match find_active s id with
    | None => None
    | Some _ => if id =? 100 then Some (ONode 4 loaded)
                else if id =? 70 then Some (OLink "alice")
                else if id =? 80 then Some (OLink "bob")
                else if find_active event_graph 50 is Some _ then Some (OEvent (AppEvent 3))
                else None
    end;
  GetClassId o := match o with
    | ONode c _ | OOther c => c | OEvent _ => 10 | OLink _ => 2 end;
  SaveNetworkShared o id := match o with
    | ONode _ _ => snapshot | OEvent _ => event_graph | _ => ∅ end;
  obj_pointers o := []
|}.

#[local] Instance events : EventObjects Z := {|
  TargetClassId _ := 4; event_obj_id _ := 50
|}.

Definition ram_layers (s : RamState) (id : Z) : Classes :=
  match s !! id with Some (Some l) => l | _ => ∅ end.

#[local] Instance ram : DomainStorage RamState := {|
  Store s q d := Some (<[q_id q := Some (<[q_class q :=
    <[q_version q := d]> (default ∅ (ram_layers s (q_id q) !! q_class q))]>
      (ram_layers s (q_id q)))]> s);
  Enumerate s id := (map_to_list (ram_layers s id)).*1;
  Load s q := match s !! q_id q with
    | None => kEmpty
    | Some None => kRemoved
    | Some (Some l) => match (l !! q_class q) ≫= (.!! q_version q) with
                       | Some d => kLoaded d | None => kEmpty end
    end;
  Remove s id := <[id := None]> s;
  CleanUp s := ∅
|}.

Definition mark (w : DemoStorage.t) (id class : Z) : DemoStorage.t :=
  <[id := Some {[(class, 0) := [1]]}]> w.

#[local] Instance replica_world : ReplicaWorld DemoStorage.t (list Z) Z := {|
  world_storage := DemoStorage.storage;
  DomainLoadRoot w id := match w !! id with
    | Some (Some _) => if id =? 100 then Some (ONode 4 loaded) else Some (OEvent (AppEvent 3))
    | _ => None
    end;
  DomainFind w id := false;
  EndpointUidOf w id :=
    if id =? 70 then Some "alice"%string else if id =? 80 then Some "bob"%string else None;
  SaveObject w id o := mark w id 4;
  SaveSyncState w s := mark w (obj_id s) 5;
  ram_storage := ram;
  scratch_after_replay s n := s
|}.

#[local] Instance replica_laws : ReplicaLaws DemoStorage.t (list Z) Z.
Proof.
  split; [|done..]. intros w id class n. simpl.
  destruct (w !! id) as [[l|]|]; [|done..].
  destruct (Z.eqb_spec id 100) as [->|]; [by intros [= _ <-]|done].
Qed.

(** Alice before anything: she waits for node 100 and allows events of class 10. *)
Definition alice : SharedSyncRuntime DemoStorage.t (list Z) Z :=
  mkSync ∅ "alice" [] [100] [] None [10].

(** Alice with the live node. *)
Definition alice_with (rs : list (EventRecord Event)) :
    SharedSyncRuntime DemoStorage.t (list Z) Z :=
  mkSync ∅ "alice" [mkNodeObj 4 (live rs)] [] [] None [10].

Definition clock (t : Z) : Readings := λ _, t.

(** The runtime a run leaves. *)
Definition after_run (m : M DemoStorage.t (list Z) Z unit)
    (rt : SharedSyncRuntime DemoStorage.t (list Z) Z) :=
  match m rt with Some (_, rt', _) => rt' | None => rt end.

(** The last effect of a run. *)
Definition last_effect (m : M DemoStorage.t (list Z) Z unit)
    (rt : SharedSyncRuntime DemoStorage.t (list Z) Z) :=
  match m rt with Some (_, _, es) => list.last es | None => None end.

Lemma last_elem_of {X} (l : list X) x : list.last l = Some x → x ∈ l.
Proof. intros H. apply last_Some in H as [l' ->]. apply elem_of_app. right. by left. Qed.

Lemma last_effect_run m rt e :
  last_effect m rt = Some e →
  ∃ es, m rt = Some (tt, after_run m rt, es) ∧ list.last es = Some e ∧ e ∈ es.
Proof.
  unfold last_effect, after_run. destruct (m rt) as [[[[] rt'] es]|]; [|done].
  intros H. exists es. split; [done|split; [done|by apply last_elem_of]].
Qed.

(** A relationship's state, when it is open. *)
Definition state_of (rt : SharedSyncRuntime DemoStorage.t (list Z) Z) (share : Z) : SyncNode :=
  match nodes_ rt with
  | no :: _ => match sync_state (fields (no_node no)) share with
               | Some st => st
               | None => new_node 0 None (new_link_sync 0 None)
               end
  | [] => new_node 0 None (new_link_sync 0 None)
  end.

(** Proves that a closed node can take a commit. *)
Ltac commit_ready := split;
  [ split; [vm_compute; reflexivity
           |eexists; split; vm_compute; reflexivity
           |first [left; vm_compute; reflexivity|right; vm_compute; reflexivity]]
  | vm_compute; repeat constructor; discriminate
  | vm_compute; reflexivity
  | eexists; vm_compute; reflexivity
  | apply (bool_decide_unpack _); vm_compute; exact I ].

Definition gen := SharedNodeTheory.Examples.generate.

(** Alice with the topology, then with the pending snapshot for bob. *)
Definition alice1 := alice_with (topology ++ [message]).
Definition alice2 := after_run (SyncInitialState 100 8 300 (clock 1000)) alice1.
Definition alice3 := after_run (OnAck "bob" (mkAckFrame 300 100 8) (clock 1001)) alice2.

Lemma alice1_opened : ∃ no, opened alice1 100 8 no "bob" (state_of alice1 8).
Proof. eexists. split; [vm_compute; reflexivity|vm_compute; reflexivity|discriminate|vm_compute; discriminate|vm_compute; reflexivity]. Qed.

Lemma alice1_ready : CommitReady (state_of alice1 8).
Proof. commit_ready. Qed.

Lemma readings_clock_ok t : 0 < t < 2000 → readings_ok (clock t).
Proof. intros Ht i. unfold clock, is_u64. lia. Qed.

Lemma alice3_opened : ∃ no, opened alice3 100 8 no "bob" (state_of alice3 8).
Proof.
  eexists. split;
    [vm_compute; reflexivity|vm_compute; reflexivity|discriminate|vm_compute; discriminate|vm_compute; reflexivity].
Qed.

Lemma alice3_ready : CommitReady (state_of alice3 8).
Proof. commit_ready. Qed.

Abbreviation initial_run := (SyncInitialState 100 8 300 (clock 1000)).
Definition packet_300 := EncodeNodeStateFrame (mkNodeStateFrame 300 100 8 [78]).

Lemma SyncInitialState_persists_first_witness :
  last_effect initial_run alice1 = Some (Sent "bob" packet_300) ∧
  ∀ id now, SyncInitialState 100 8 id now alice2 = Some (tt, alice2, [Sent "bob" packet_300]).
Proof.
  assert (last_effect initial_run alice1 = Some (Sent "bob" packet_300)) as Hl
    by (vm_compute; reflexivity).
  split; [exact Hl|].
  destruct alice1_opened as [no Ho].
  destruct (last_effect_run initial_run alice1 _ Hl) as (es & Hr & Hlast & _).
  destruct (SyncInitialState_persists_first replica_laws alice1 100 8 300 _ no "bob" _ tt alice2
    es Ho alice1_ready (readings_clock_ok 1000 ltac:(lia)) eq_refl Hr)
    as (frozen & st' & _ & He & _ & _ & _ & _ & _ & Hretry).
  intros id now. rewrite Hretry. rewrite He in Hlast. cbn [list.last] in Hlast.
  exact (f_equal (λ o, Some (tt, alice2, match o with Some s => [s] | None => [] end)) Hlast).
Defined.

(** The snapshot covers no shared event, so the message is delivered next. *)
Abbreviation next_run := (SyncNextEvent 100 8 400 (clock 1002)).
Definition packet_400 := EncodeEventFrame
  (mkEventFrame 400 100 8 (mkSharedEventId "alice" 1) 30 10 [50; 77]).

Lemma SyncNextEvent_persists_first_witness :
  last_effect next_run alice3 = Some (Sent "bob" packet_400) ∧
  ∀ id now, SyncNextEvent 100 8 id now (after_run next_run alice3) =
    Some (tt, after_run next_run alice3, [Sent "bob" packet_400]).
Proof.
  assert (last_effect next_run alice3 = Some (Sent "bob" packet_400)) as Hl
    by (vm_compute; reflexivity).
  split; [exact Hl|].
  destruct alice3_opened as [no Ho].
  destruct (last_effect_run next_run alice3 _ Hl) as (es & Hr & Hlast & _).
  assert (es ≠ []) as Hes by (intros ->; discriminate Hlast).
  destruct (SyncNextEvent_persists_first replica_laws alice3 100 8 400 _ no "bob" _ tt
    (after_run next_run alice3) es Ho
    alice3_ready (readings_clock_ok 1002 ltac:(lia)) eq_refl eq_refl eq_refl Hr Hes)
    as (j1 & r & j2 & e & payload & st' & _ & _ & _ & _ & _ & _ & He & _ & _ & _ & _ & Hretry).
  intros id now. rewrite Hretry. rewrite He in Hlast. cbn [list.last] in Hlast.
  exact (f_equal (λ o, Some (tt, after_run next_run alice3,
    match o with Some s => [s] | None => [] end)) Hlast).
Defined.

(** The only relationship bob can acknowledge in this frame. *)
Definition ack_300 := mkAckFrame 300 100 8.

Lemma alice2_acked no st : acked alice2 "bob" ack_300 no st → st = state_of alice2 8.
Proof.
  intros [Hno _ Hst]. vm_compute in Hno. injection Hno as <-.
  vm_compute in Hst. injection Hst as <-. vm_compute. reflexivity.
Qed.

Lemma alice2_ready : CommitReady (state_of alice2 8).
Proof. commit_ready. Qed.

Lemma alice2_sync_ok : sync_ok (fields (state_of alice2 8)).
Proof.
  apply (replay_keeps_ok (new_link_sync 8 (Some 80))
    (LinkSync.Examples.of_events [BeginInitialSyncEvent 300 packet_300 []])).
  - apply new_link_sync_ok.
  - apply LinkSync.Examples.of_events_protocol. repeat constructor.
  - vm_compute. reflexivity.
Qed.

Lemma OnAck_completes_witness :
  ∃ es, OnAck "bob" ack_300 (clock 1001) alice2 = Some (tt, alice3, es) ∧
    ∀ now, OnAck "bob" ack_300 now alice3 = Some (tt, alice3, []).
Proof.
  destruct (OnAck_completes replica_laws alice2 "bob" ack_300 (clock 1001)
    eq_refl (readings_clock_ok 1001 ltac:(lia))) as [[Hn _]|(no & st & Ha & H)].
  - intros no st Ha. rewrite (alice2_acked no st Ha). exact (conj alice2_ready alice2_sync_ok).
  - exfalso. eapply Hn. split; vm_compute; reflexivity.
  - rewrite (alice2_acked no st Ha) in H.
    assert (acknowledges (fields (state_of alice2 8)) (ack_packet_id ack_300) =
      Some CompleteInitialSyncEvent) as E by (vm_compute; reflexivity).
    rewrite E in H. destruct H as (rt' & st' & _ & Hrun & _ & Hagain).
    assert (rt' = alice3) as ->; [|eauto].
    unfold alice3, after_run. fold ack_300. rewrite Hrun. reflexivity.
Defined.

(** Bob's snapshot of node 100, for alice's relationship 7, is imported, saved and
    acknowledged. *)
Definition frame_200 := mkNodeStateFrame 200 100 7 [78].
Definition ack_200 : Effect (list Z) Z := Sent "bob" (EncodeAckFrame (ack_of_node_state frame_200)).

Abbreviation import_run := (OnNodeState "bob" frame_200 (λ _, clock 1000)).

Lemma OnNodeState_ack_means_durable_witness :
  last_effect import_run alice = Some ack_200 ∧
  is_Some (FindNode (after_run import_run alice) 100).
Proof.
  assert (last_effect import_run alice = Some ack_200) as Hl by (vm_compute; reflexivity).
  split; [exact Hl|].
  destruct (last_effect_run import_run alice _ Hl) as (es & Hr & _ & Hin).
  destruct (OnNodeState_ack_means_durable replica_laws alice "bob" frame_200 _ tt
    (after_run import_run alice) es _ _ Hr Hin) as (_ & _ & _ & no & Hf & _).
  exists no. exact Hf.
Defined.

Lemma OnNodeState_writes_only_admitted_witness :
  last_effect import_run alice = Some ack_200 ∧
  ∃ parsed g share, admitted_snapshot alice "bob" frame_200 parsed g share.
Proof.
  assert (last_effect import_run alice = Some ack_200) as Hl by (vm_compute; reflexivity).
  split; [exact Hl|].
  destruct (last_effect_run import_run alice _ Hl) as (es & Hr & _ & Hin).
  destruct (OnNodeState_writes_only_admitted replica_laws alice "bob" frame_200 _ tt
    (after_run import_run alice) es eq_refl Hr) as [[_ He]|(parsed & g & share & _ & Hadm & _)].
  - rewrite He in Hin. destruct (not_elem_of_nil _ Hin).
  - exists parsed, g, share. exact Hadm.
Defined.

(** Bob's event arrives twice: it is inserted and acknowledged, then acknowledged. *)
Definition event_500 := mkEventFrame 500 100 7 (mkSharedEventId "bob" 1) 40 10 [50; 77].
Definition ack_500 : Effect (list Z) Z := Sent "bob" (EncodeAckFrame (ack_of_event event_500)).
Abbreviation receive := (OnEvent 5 gen gen "bob" event_500 (λ _, clock 1000)).
Definition alice_known := alice_with topology.

Lemma OnEvent_ack_means_recorded_witness :
  last_effect receive alice_known = Some ack_500 ∧
  receive (after_run receive alice_known) = Some (tt, after_run receive alice_known, [ack_500]) ∧
  ∃ no r, FindNode (after_run receive alice_known) 100 = Some no ∧
    r ∈ journal (no_node no) ∧ identity r = mkSharedEventId "bob" 1 ∧ ts r = 40.
Proof.
  assert (last_effect receive alice_known = Some ack_500) as Hl by (vm_compute; reflexivity).
  split; [exact Hl|]. split; [vm_compute; reflexivity|].
  destruct (last_effect_run receive alice_known ack_500 Hl) as (es & Hr & _ & Hin').
  destruct (OnEvent_ack_means_recorded 5 gen gen "bob" event_500 (λ _, clock 1000)
    alice_known tt (after_run receive alice_known) es _ _ Hr Hin')
    as (_ & _ & _ & no & no' & r & _ & Hf & _ & Hin & Hi & Ht & _).
  exists no', r. split; [exact Hf|]. split; [exact Hin|]. split; [exact Hi|exact Ht].
Defined.

Definition calls : list (Operation (A := list Z) (AE := Z)) :=
  [OpExpectInitialNodeFromEndpoint "carol" 4 101;
   OpReceive 5 gen gen "bob" (EncodeNodeStateFrame frame_200) (λ _, clock 1000);
   OpAllowStandaloneEventClass 10;
   OpSyncInitialState 100 8 300 (clock 1002);
   OpForgetInitialNodeFromEndpoint "carol"].

Lemma perform_all_ok_witness :
  last_effect (perform_all calls) alice = Some ack_200 ∧
  runtime_ok (after_run (perform_all calls) alice).
Proof.
  assert (runtime_ok alice) as Hok.
  { split; vm_compute; repeat constructor; try (intros H; inversion H); discriminate. }
  assert (last_effect (perform_all calls) alice = Some ack_200) as Hl
    by (vm_compute; reflexivity).
  split; [exact Hl|].
  destruct (last_effect_run (perform_all calls) alice _ Hl) as (es & Hr & _ & _).
  destruct (perform_all_ok replica_laws calls alice tt (after_run (perform_all calls) alice) es
    Hok Hr) as [H1 _].
  exact H1.
Defined.
