(* ===== verification/PublicationChannel.v ===== *)
(** * The publication channel

    Models include/apptraverse/publication_channel.h: the byte sink and source, the
    slots and the two atomic indices of [PublicationChannel], and its operations as
    programs over atomic accesses, so that the same definition is run alone ([run]) and
    interleaved with the other thread's program, one access at a time ([step]).

    The model interleaves the accesses in one total order.  That is what the source's
    orders give: [producer_safe] shows that no slot is ever written while the other
    thread reads it, and every hand-over of a slot goes through a release store and an
    acquire load of one of the two indices.

    - [AcquireProducer], [PublishProducer], [TakePublished], [ReleaseConsumer],
      [TakePublishedCopy]: the methods of the class.
    - [publish_round], [TakePublishedCopy]: a publication and a take as the two threads
      make them; [System] and [step]: any interleaving of any number of them.
    - [interleaving_safe], [taken_in_order], [unread_is_taken]: no assertion fails and no
      slot is shared; what is taken is what was published, in order, once; and a take
      that begins when a publication is unread returns it. *)
From S2P Require Import Prelude.

(** ** ByteSink and ByteSource *)

Module ByteSink.
Definition write (sink data : bytes) : bytes := sink ++ data.
Definition clear_keep_capacity (_ : bytes) : bytes := [].
End ByteSink.

Record ByteSource := mkByteSource {
  data : bytes;
  pos : Z;
  ok : bool
}.

Definition source_size (s : ByteSource) : Z := zlen (data s).

(** The bytes written to [out] and the source afterwards. *)
Definition read (s : ByteSource) (n : Z) : bytes * ByteSource :=
  if negb (ok s) || (source_size s <? u64 (pos s + n))
  then (repeat 0 (Z.to_nat n), mkByteSource (data s) (pos s) false)
  else (take (Z.to_nat n) (drop (Z.to_nat (pos s)) (data s)),
        mkByteSource (data s) (u64 (pos s + n)) true).

(** ** The channel *)

(** The two atomic indices. *)
Inductive Index := Published | InUi.

Record PublicationChannel := mkPublicationChannel {
  buffers_ : list bytes;
  published_ : Z;
  in_ui_ : Z;
  publish_count_ : Z;
  producer_ : Z
}.

Definition new_channel (N : nat) : PublicationChannel :=
  mkPublicationChannel (replicate N []) (-1) (-1) 0 0.

Definition index (c : PublicationChannel) (r : Index) : Z :=
  match r with Published => published_ c | InUi => in_ui_ c end.

Definition set_index (c : PublicationChannel) (r : Index) (v : Z) : PublicationChannel :=
  match r with
  | Published => mkPublicationChannel (buffers_ c) v (in_ui_ c) (publish_count_ c) (producer_ c)
  | InUi => mkPublicationChannel (buffers_ c) (published_ c) v (publish_count_ c) (producer_ c)
  end.

Definition set_buffers (c : PublicationChannel) (b : list bytes) : PublicationChannel :=
  mkPublicationChannel b (published_ c) (in_ui_ c) (publish_count_ c) (producer_ c).

Definition slot (c : PublicationChannel) (i : Z) : bytes :=
  default [] (buffers_ c !! Z.to_nat i).

(** A thread's program: what it still does, one access of shared state at a time.
    [GetProducer] and [SetProducer] access [producer_]; [Update] and [ReadSlot] access
    the bytes of one slot; [Assert] is [assert]. *)
Inductive prog (A : Type) :=
| Ret (a : A)
| Load (r : Index) (k : Z → prog A)
| CompareExchange (r : Index) (expected desired : Z) (k : bool → prog A)
| Store (r : Index) (v : Z) (k : prog A)
| GetProducer (k : Z → prog A)
| SetProducer (i : Z) (k : prog A)
| Update (i : Z) (f : bytes → bytes) (k : prog A)
| ReadSlot (i : Z) (k : bytes → prog A)
| FetchAdd (k : prog A)
| Assert (c : bool) (k : prog A).
Arguments Ret {A}.
Arguments Load {A}.
Arguments CompareExchange {A}.
Arguments Store {A}.
Arguments GetProducer {A}.
Arguments SetProducer {A}.
Arguments Update {A}.
Arguments ReadSlot {A}.
Arguments FetchAdd {A}.
Arguments Assert {A}.

Fixpoint prog_bind {A B} (p : prog A) (f : A → prog B) : prog B :=
  match p with
  | Ret a => f a
  | Load r k => Load r (λ v, prog_bind (k v) f)
  | CompareExchange r e d k => CompareExchange r e d (λ b, prog_bind (k b) f)
  | Store r v k => Store r v (prog_bind k f)
  | GetProducer k => GetProducer (λ v, prog_bind (k v) f)
  | SetProducer i k => SetProducer i (prog_bind k f)
  | Update i g k => Update i g (prog_bind k f)
  | ReadSlot i k => ReadSlot i (λ b, prog_bind (k b) f)
  | FetchAdd k => FetchAdd (prog_bind k f)
  | Assert c k => Assert c (prog_bind k f)
  end.

Notation "'do!' x ← p ;; q" := (prog_bind p (λ x, q))
  (at level 100, x name, p at next level, q at level 200, right associativity)
  : apptraverse_scope.

Section methods.
Context (N : nat).

(** The slot the producer may fill: the first that is neither published nor with the
    consumer.  The pointer to a slot is its index. *)
Definition AcquireProducer : prog (option Z) :=
  Load Published (λ published,
  Load InUi (λ in_ui,
  match list_find (λ i, i ≠ published ∧ i ≠ in_ui) (seqZ 0 (Z.of_nat N)) with
  | Some (_, i) =>
      SetProducer i (Update i ByteSink.clear_keep_capacity (Ret (Some i)))
  | None => Assert false (Ret None)
  end)).

Definition has_unread_published : prog bool :=
  Load Published (λ p, Ret (0 <=? p)).

Definition is_publication_busy : prog bool :=
  Load Published (λ p, if 0 <=? p then Ret true else Load InUi (λ i, Ret (0 <=? i))).

Definition PublishProducer : prog () :=
  GetProducer (λ i, CompareExchange Published (-1) i (λ stored, Assert stored (Ret ()))).

Definition TakePublished : prog (option Z) :=
  Load Published (λ idx,
  if idx <? 0 then Ret None else
  CompareExchange InUi (-1) idx (λ taken,
  if negb taken then Ret None else
  CompareExchange Published idx (-1) (λ cleared,
  if negb cleared then Store InUi (-1) (Ret None) else Ret (Some idx)))).

Definition ReleaseConsumer : prog () := Store InUi (-1) (Ret ()).

(** [None] stands for the empty vector returned when nothing was taken. *)
Definition TakePublishedCopy : prog (option bytes) :=
  do! buffer ← TakePublished ;;
  match buffer with
  | None => Ret None
  | Some i => ReadSlot i (λ copy, do! _ ← ReleaseConsumer ;; Ret (Some copy))
  end.

Definition NotePublished : prog () := FetchAdd (Ret ()).

(** ** The producing thread

    The serialization of a publication is a sequence of [ByteSink::write]s to the slot
    it was given. *)
Fixpoint write_all (i : Z) (chunks : list bytes) : prog () :=
  match chunks with
  | [] => Ret ()
  | d :: ds => Update i (λ sink, ByteSink.write sink d) (write_all i ds)
  end.

Definition publish (chunks : list bytes) : prog () :=
  do! buffer ← AcquireProducer ;;
  match buffer with
  | Some i =>
      do! _ ← write_all i chunks ;;
      do! _ ← NotePublished ;;
      PublishProducer
  | None => Assert false (Ret ())
  end.

(** A publication of [chunks], given up when the channel is not free: [busy] selects the
    test that the model thread makes, [is_publication_busy] or [has_unread_published]. *)
Definition publish_round (busy : bool) (chunks : list bytes) : prog () :=
  do! b ← (if busy then is_publication_busy else has_unread_published) ;;
  if b then Ret () else publish chunks.
End methods.

(** ** Executions *)

(** What an access shows to the outside. *)
Inductive Label :=
| Swapped (r : Index) (desired : Z)
| ReadOut (copy : bytes)
| Quiet.

(** One access; [None]: the program has returned, or its assertion fails. *)
Definition access {A} (c : PublicationChannel) (p : prog A)
    : option (PublicationChannel * prog A * Label) :=
  match p with
  | Ret _ => None
  | Load r k => Some (c, k (index c r), Quiet)
  | CompareExchange r e d k =>
      if index c r =? e then Some (set_index c r d, k true, Swapped r d)
      else Some (c, k false, Quiet)
  | Store r v k => Some (set_index c r v, k, Quiet)
  | GetProducer k => Some (c, k (producer_ c), Quiet)
  | SetProducer i k =>
      Some (mkPublicationChannel (buffers_ c) (published_ c) (in_ui_ c)
              (publish_count_ c) i, k, Quiet)
  | Update i f k => Some (set_buffers c (alter f (Z.to_nat i) (buffers_ c)), k, Quiet)
  | ReadSlot i k => Some (c, k (slot c i), ReadOut (slot c i))
  | FetchAdd k =>
      Some (mkPublicationChannel (buffers_ c) (published_ c) (in_ui_ c)
              (u64 (publish_count_ c + 1)) (producer_ c), k, Quiet)
  | Assert b k => if b then Some (c, k, Quiet) else None
  end.

(** The whole of a program without interference; [None]: an assertion fails. *)
Fixpoint run {A} (c : PublicationChannel) (p : prog A) : option (PublicationChannel * A) :=
  match p with
  | Ret a => Some (c, a)
  | Load r k => run c (k (index c r))
  | CompareExchange r e d k =>
      if index c r =? e then run (set_index c r d) (k true) else run c (k false)
  | Store r v k => run (set_index c r v) k
  | GetProducer k => run c (k (producer_ c))
  | SetProducer i k =>
      run (mkPublicationChannel (buffers_ c) (published_ c) (in_ui_ c) (publish_count_ c) i) k
  | Update i f k => run (set_buffers c (alter f (Z.to_nat i) (buffers_ c))) k
  | ReadSlot i k => run c (k (slot c i))
  | FetchAdd k =>
      run (mkPublicationChannel (buffers_ c) (published_ c) (in_ui_ c)
             (u64 (publish_count_ c + 1)) (producer_ c)) k
  | Assert b k => if b then run c k else None
  end.

(** The two threads, with the history of what was begun, published and taken. *)
Record System := mkSystem {
  channel : PublicationChannel;
  producer : prog ();
  consumer : prog (option bytes);
  requested : list bytes;
  sent : list bytes;
  taken : list bytes
}.

Definition initial_system (N : nat) : System :=
  mkSystem (new_channel N) (Ret ()) (Ret None) [] [] [].

Inductive step (N : nat) : System → System → Prop :=
| producer_begins c q rs ss ts busy chunks :
    step N (mkSystem c (Ret ()) q rs ss ts)
      (mkSystem c (publish_round N busy chunks) q (rs ++ [concat chunks]) ss ts)
| producer_moves c c' p p' l q rs ss ts :
    access c p = Some (c', p', l) →
    step N (mkSystem c p q rs ss ts)
      (mkSystem c' p' q rs
        (match l with Swapped Published i => ss ++ [slot c i] | _ => ss end) ts)
| consumer_begins c p r rs ss ts :
    step N (mkSystem c p (Ret r) rs ss ts) (mkSystem c p TakePublishedCopy rs ss ts)
| consumer_moves c c' p q q' l rs ss ts :
    access c q = Some (c', q', l) →
    step N (mkSystem c p q rs ss ts)
      (mkSystem c' p q' rs ss (match l with ReadOut b => ts ++ [b] | _ => ts end)).

Definition reachable (N : nat) (s : System) : Prop := rtc (step N) (initial_system N) s.

(** A thread that has not returned makes an access, and it is not a failing assertion. *)
Definition can_move {A} (c : PublicationChannel) (p : prog A) : Prop :=
  (∃ a, p = Ret a) ∨ is_Some (access c p).

(** The slot a thread is about to write, or to read. *)
Definition writes_slot {A} (p : prog A) : option Z :=
  match p with Update i _ _ => Some i | _ => None end.
Definition reads_slot {A} (p : prog A) : option Z :=
  match p with ReadSlot i _ => Some i | _ => None end.

(** ** Where the two threads are *)

Section theory.
Context (N : nat).

(** The rest of a take after the copy, and after its first, second and third access. *)
Definition take_release (copy : bytes) : prog (option bytes) :=
  Store InUi (-1) (Ret (Some copy)).
Definition take_mark (idx : Z) : prog (option bytes) :=
  do! buffer ← CompareExchange InUi (-1) idx (λ taken,
    if negb taken then Ret None else
    CompareExchange Published idx (-1) (λ cleared,
    if negb cleared then Store InUi (-1) (Ret None) else Ret (Some idx))) ;;
  match buffer with
  | None => Ret None
  | Some i => ReadSlot i (λ copy, take_release copy)
  end.
Definition take_clear (idx : Z) : prog (option bytes) :=
  match take_mark idx with CompareExchange _ _ _ k => k true | p => p end.
Definition take_read (idx : Z) : prog (option bytes) :=
  match take_clear idx with CompareExchange _ _ _ k => k true | p => p end.
(** The consumer's place, and what it has taken out of the channel but not yet read. *)
Inductive consumer_at (c : PublicationChannel) : prog (option bytes) → list bytes → Prop :=
| at_rest r : in_ui_ c = -1 → consumer_at c (Ret r) []
| at_take : in_ui_ c = -1 → consumer_at c TakePublishedCopy []
| at_mark idx : 0 ≤ idx → in_ui_ c = -1 → published_ c = idx →
    consumer_at c (take_mark idx) []
| at_clear idx : 0 ≤ idx → in_ui_ c = idx → published_ c = idx →
    consumer_at c (take_clear idx) []
| at_read idx : 0 ≤ idx → in_ui_ c = idx → published_ c ≠ idx →
    consumer_at c (take_read idx) [slot c idx]
| at_release copy : 0 ≤ in_ui_ c → published_ c ≠ in_ui_ c →
    consumer_at c (take_release copy) [].

(** The rest of a publication. *)
Definition publish_chosen (chunks : list bytes) (i : Z) : prog () :=
  SetProducer i (Update i ByteSink.clear_keep_capacity
    (do! _ ← write_all i chunks ;; do! _ ← NotePublished ;; PublishProducer)).

(** The producer's place, and the publication it is making. *)
Inductive producer_at (c : PublicationChannel) : prog () → list bytes → Prop :=
| at_pause : producer_at c (Ret ()) []
| at_test busy chunks : producer_at c (publish_round N busy chunks) [concat chunks]
| at_test_again chunks : published_ c = -1 →
    producer_at c (Load InUi (λ i, if 0 <=? i then Ret () else publish N chunks))
      [concat chunks]
| at_acquire chunks : published_ c = -1 → producer_at c (publish N chunks) [concat chunks]
| at_choose chunks : published_ c = -1 →
    producer_at c (match publish N chunks with Load _ k => k (-1) | p => p end)
      [concat chunks]
| at_claim chunks i : published_ c = -1 → 0 ≤ i < Z.of_nat N → i ≠ in_ui_ c →
    producer_at c (publish_chosen chunks i) [concat chunks]
| at_wipe chunks i : published_ c = -1 → 0 ≤ i < Z.of_nat N → i ≠ in_ui_ c → producer_ c = i →
    producer_at c (match publish_chosen chunks i with SetProducer _ k => k | p => p end)
      [concat chunks]
| at_write i written chunks : published_ c = -1 → 0 ≤ i < Z.of_nat N → i ≠ in_ui_ c →
    producer_ c = i → slot c i = written →
    producer_at c (do! _ ← write_all i chunks ;; do! _ ← NotePublished ;; PublishProducer)
      [written ++ concat chunks]
| at_publish i : published_ c = -1 → 0 ≤ i < Z.of_nat N → i ≠ in_ui_ c → producer_ c = i →
    producer_at c PublishProducer [slot c i]
| at_store i : published_ c = -1 → 0 ≤ i < Z.of_nat N → i ≠ in_ui_ c → producer_ c = i →
    producer_at c (CompareExchange Published (-1) i (λ stored, Assert stored (Ret ())))
      [slot c i]
| at_stored : producer_at c (Assert true (Ret ())) [].

Definition unread (c : PublicationChannel) : list bytes :=
  if 0 <=? published_ c then [slot c (published_ c)] else [].

Record channel_ok (c : PublicationChannel) : Prop := {
  ok_slots : length (buffers_ c) = N;
  ok_published : -1 ≤ published_ c < Z.of_nat N;
  ok_in_ui : -1 ≤ in_ui_ c < Z.of_nat N
}.

Record system_ok (s : System) (held current old : list bytes) : Prop := {
  ok_channel : channel_ok (channel s);
  ok_consumer : consumer_at (channel s) (consumer s) held;
  ok_producer : producer_at (channel s) (producer s) current;
  ok_requested : requested s = old ++ current;
  ok_sublist : sent s `sublist_of` old;
  ok_sent : sent s = taken s ++ held ++ unread (channel s)
}.

(** What the consumer does does not disturb the producer. *)
Lemma producer_at_frame c c' p current :
  producer_at c p current → buffers_ c' = buffers_ c → producer_ c' = producer_ c →
  published_ c' = published_ c ∨ published_ c' = -1 →
  in_ui_ c' = in_ui_ c ∨ in_ui_ c' = -1 ∨ in_ui_ c' = published_ c →
  producer_at c' p current.
Proof.
  intros H Hb Hp Hpub Hui.
  assert (∀ i, slot c' i = slot c i) as Hs by (intros i; unfold slot; by rewrite Hb).
  destruct H; try rewrite <-Hs; econstructor; try lia; try done.
  by rewrite Hs.
Qed.

(** What the producer does does not disturb the consumer. *)
Lemma consumer_at_frame c c' q held :
  consumer_at c q held → in_ui_ c' = in_ui_ c →
  published_ c' = published_ c ∨ published_ c = -1 ∧ published_ c' ≠ in_ui_ c →
  (0 ≤ in_ui_ c → slot c' (in_ui_ c) = slot c (in_ui_ c)) →
  consumer_at c' q held.
Proof.
  intros H Hui Hpub Hs.
  destruct H; try rewrite <-Hs by lia; try (econstructor; try lia; done).
  replace (slot c idx) with (slot c' idx) by (subst; by rewrite Hs).
  econstructor; lia.
Qed.

Lemma slot_update c f i j :
  0 ≤ i → 0 ≤ j → i < zlen (buffers_ c) →
  slot (set_buffers c (alter f (Z.to_nat i) (buffers_ c))) j =
    if decide (i = j) then f (slot c j) else slot c j.
Proof.
  intros Hi Hj Hl. unfold slot. simpl. destruct (decide (i = j)) as [<-|Hn].
  - destruct (lookup_lt_is_Some_2 (buffers_ c) (Z.to_nat i)) as [b Hb];
      [unfold zlen in *; lia|].
    by rewrite list_lookup_alter_eq, Hb.
  - rewrite list_lookup_alter_ne; [done|]. intros E. apply Hn. apply Z2Nat.inj in E; lia.
Qed.

(** With at least two slots there is one that is neither published nor in the UI,
    unless both are taken. *)
Lemma free_slot p q :
  p = -1 ∧ (2 ≤ N)%nat ∨ (3 ≤ N)%nat →
  ∃ j i, list_find (λ i, i ≠ p ∧ i ≠ q) (seqZ 0 (Z.of_nat N)) = Some (j, i) ∧
    0 ≤ i < Z.of_nat N ∧ i ≠ p ∧ i ≠ q.
Proof.
  intros HN.
  assert (∃ x, x ∈ seqZ 0 (Z.of_nat N) ∧ x ≠ p ∧ x ≠ q) as (x & Hx & Hxp).
  { destruct (decide (0 ≠ p ∧ 0 ≠ q)); [exists 0|];
      [|destruct (decide (1 ≠ p ∧ 1 ≠ q)); [exists 1|exists 2]];
      rewrite elem_of_seqZ; lia. }
  destruct (list_find_elem_of (λ i, i ≠ p ∧ i ≠ q) _ x Hx Hxp) as [[j i] Hf].
  exists j, i. split; [done|]. apply list_find_Some in Hf as (Hl & Hi & _).
  apply lookup_seqZ in Hl. lia.
Qed.

(** ** One access keeps the invariant *)

Definition copied (l : Label) : list bytes := match l with ReadOut b => [b] | _ => [] end.

Lemma consumer_access c q held c' q' l :
  channel_ok c → consumer_at c q held → access c q = Some (c', q', l) →
  channel_ok c' ∧ buffers_ c' = buffers_ c ∧ producer_ c' = producer_ c ∧
  (published_ c' = published_ c ∨ published_ c' = -1) ∧
  (in_ui_ c' = in_ui_ c ∨ in_ui_ c' = -1 ∨ in_ui_ c' = published_ c) ∧
  ∃ held', consumer_at c' q' held' ∧ held ++ unread c = copied l ++ held' ++ unread c'.
Proof.
  intros [Hl Hp Hi] H Ha. destruct H as [r Hui|Hui|idx H0 Hui Hpub|idx H0 Hui Hpub
    |idx H0 Hui Hpub|copy H0 Hpub]; simpl in Ha.
  - done.
  - injection Ha as <- <- <-. do 5 (split; [auto; by split|]).
    exists []. split; [|done]. case_if_dec; breflect; [by constructor|].
    by apply at_mark.
  - rewrite Hui in Ha. injection Ha as <- <- <-.
    split; [split; simpl; lia|]. do 4 (split; [simpl; auto; lia|]).
    exists []. split; [by apply at_clear|]. by unfold unread, slot.
  - rewrite Hpub, Z.eqb_refl in Ha. injection Ha as <- <- <-.
    split; [split; simpl; lia|]. do 4 (split; [simpl; auto; lia|]).
    exists [slot c idx]. split; [|].
    + apply (at_read (set_index c Published (-1)) idx); simpl; lia.
    + unfold unread. simpl. destruct (Z.leb_spec 0 (published_ c)); [|lia].
      by rewrite Hpub.
  - injection Ha as <- <- <-. do 5 (split; [auto; by split|]).
    exists []. split; [|done]. apply at_release; lia.
  - injection Ha as <- <- <-.
    split; [split; simpl; lia|]. do 4 (split; [simpl; auto; lia|]).
    exists []. split; [by apply at_rest|]. by unfold unread, slot.
Qed.

(** What a producer's access may change of what the consumer sees. *)
Record producer_keeps (c c' : PublicationChannel) : Prop := {
  kept_in_ui : in_ui_ c' = in_ui_ c;
  kept_published : published_ c' = published_ c ∨
    published_ c = -1 ∧ published_ c' ≠ in_ui_ c;
  kept_slot : 0 ≤ in_ui_ c → slot c' (in_ui_ c) = slot c (in_ui_ c)
}.

(** The producer's access either leaves the unread publication and goes on with, or
    gives up, the one it makes, or is the one that publishes it. *)
Definition producer_effect (c c' : PublicationChannel) (l : Label)
    (current current' : list bytes) : Prop :=
  (current' = current ∨ current' = []) ∧ unread c' = unread c ∧
    (∀ i, l ≠ Swapped Published i) ∨
  ∃ i, l = Swapped Published i ∧ current = [slot c i] ∧ current' = [] ∧
    unread c = [] ∧ unread c' = [slot c i].

Lemma quiet_effect c c' current current' :
  current' = current ∨ current' = [] → unread c' = unread c →
  producer_effect c c' Quiet current current'.
Proof. intros. left. split; [done|]. split; [done|]. discriminate. Qed.

Lemma keeps_refl c : producer_keeps c c.
Proof. split; auto. Qed.

Lemma channel_ok_update c i f :
  channel_ok c → channel_ok (set_buffers c (alter f (Z.to_nat i) (buffers_ c))).
Proof. intros []. split; simpl; [by rewrite length_alter|done..]. Qed.

Lemma keeps_update c i f :
  channel_ok c → 0 ≤ i < Z.of_nat N → i ≠ in_ui_ c →
  producer_keeps c (set_buffers c (alter f (Z.to_nat i) (buffers_ c))).
Proof.
  intros [Hl _ Hui] Hi Hn. split; simpl; [done|auto|]. intros H0.
  rewrite slot_update by (unfold zlen; lia). by rewrite decide_False.
Qed.

Lemma unread_none c : published_ c = -1 → unread c = [].
Proof. intros H. unfold unread. by rewrite H. Qed.

Lemma producer_access c p current c' p' l :
  (2 ≤ N)%nat →
  channel_ok c → producer_at c p current → access c p = Some (c', p', l) →
  channel_ok c' ∧ producer_keeps c c' ∧
  ∃ current', producer_at c' p' current' ∧ producer_effect c c' l current current'.
Proof.
  intros HN Hok H Ha. pose proof Hok as [Hl Hp Hui]. destruct H as
    [|busy chunks|chunks Hpub|chunks Hpub|chunks Hpub|chunks i Hpub Hi Hn|chunks i Hpub Hi Hn Hpr
    |i written chunks Hpub Hi Hn Hpr Hw|i Hpub Hi Hn Hpr|i Hpub Hi Hn Hpr|].
  - done.
  - destruct busy; simpl in Ha; injection Ha as <- <- <-;
      (split; [done|]; split; [apply keeps_refl|]); case_if_dec; breflect; simpl;
      try (exists []; split; [constructor|apply quiet_effect; auto]);
      exists [concat chunks]; (split; [|apply quiet_effect; auto]).
    + apply at_test_again. lia.
    + apply at_acquire. lia.
  - simpl in Ha. injection Ha as <- <- <-. split; [done|]. split; [apply keeps_refl|].
    case_if_dec; [exists []|exists [concat chunks]];
      (split; [by constructor|apply quiet_effect; auto]).
  - simpl in Ha. injection Ha as <- <- <-. split; [done|]. split; [apply keeps_refl|].
    exists [concat chunks]. split; [|apply quiet_effect; auto].
    rewrite Hpub. by apply (at_choose c chunks).
  - simpl in Ha. injection Ha as <- <- <-. split; [done|]. split; [apply keeps_refl|].
    exists [concat chunks]. split; [|apply quiet_effect; auto].
    destruct (free_slot (-1) (in_ui_ c)) as (j & i & -> & Hi & _ & Hn); [auto|].
    by apply at_claim.
  - simpl in Ha. injection Ha as <- <- <-. split; [by split|]. split; [by split; auto|].
    exists [concat chunks]. split; [|by apply quiet_effect; auto].
    by apply (at_wipe _ chunks i).
  - simpl in Ha. injection Ha as <- <- <-. split; [by apply channel_ok_update|].
    split; [by apply keeps_update|]. exists ([[] ++ concat chunks]).
    split; [|by apply quiet_effect; [auto|rewrite !unread_none]].
    apply (at_write _ i); try done. rewrite slot_update by (unfold zlen; lia).
    by rewrite decide_True.
  - destruct chunks as [|d ds]; simpl in Ha; injection Ha as <- <- <-.
    + split; [by split|]. split; [by split; auto|]. exists [written].
      split; [|by apply quiet_effect; [rewrite app_nil_r; auto|]].
      rewrite <-Hw. by apply (at_publish (mkPublicationChannel _ _ _ _ _) i).
    + split; [by apply channel_ok_update|]. split; [by apply keeps_update|].
      exists [(written ++ d) ++ concat ds].
      split; [|apply quiet_effect; [rewrite <-app_assoc; auto|by rewrite !unread_none]].
      apply (at_write _ i); try done. rewrite slot_update by (unfold zlen; lia).
      by rewrite decide_True, Hw.
  - simpl in Ha. injection Ha as <- <- <-. split; [done|]. split; [apply keeps_refl|].
    exists [slot c i]. split; [|apply quiet_effect; auto]. rewrite Hpr. by apply at_store.
  - simpl in Ha. rewrite Hpub in Ha. injection Ha as <- <- <-.
    split; [split; simpl; lia|]. split; [split; simpl; auto|].
    exists []. split; [by constructor|]. right. exists i. do 3 (split; [done|]).
    split; [by apply unread_none|]. unfold unread. simpl.
    destruct (Z.leb_spec 0 i); [done|lia].
  - simpl in Ha. injection Ha as <- <- <-. split; [done|]. split; [apply keeps_refl|].
    exists []. split; [by constructor|apply quiet_effect; auto].
Qed.

Lemma access_ret {A} c (a : A) : access c (Ret a) = None.
Proof. done. Qed.

Lemma initial_ok : system_ok (initial_system N) [] [] [].
Proof.
  split; try done; [|by constructor..].
  split; simpl; [by rewrite length_replicate|lia..].
Qed.

Lemma step_ok s s' held current old :
  (2 ≤ N)%nat → system_ok s held current old → step N s s' →
  ∃ held' current' old', system_ok s' held' current' old'.
Proof.
  intros HN [Hc Hq Hp Hr Hs Ht] H.
  destruct H as [c q rs ss ts busy chunks|c c' p p' l q rs ss ts Ha
    |c p r rs ss ts|c c' p q q' l rs ss ts Ha]; simpl in *.
  - exists held, [concat chunks], (old ++ current).
    split; simpl; [done..|constructor|by rewrite Hr, <-app_assoc| |done].
    by apply sublist_inserts_r.
  - apply (producer_access _ _ current) in Ha
      as (Hc' & [Hui Hpub Hsl] & current' & Hp' & He); [|done..].
    assert (consumer_at c' q held) as Hq' by by apply (consumer_at_frame c).
    destruct He as [(Hcur & Hun & Hl)|(i & -> & -> & -> & Hun & Hun')].
    + exists held. replace (match l with Swapped Published i => ss ++ [slot c i] | _ => ss end)
        with ss by (destruct l as [[]| |]; try done; by destruct (Hl desired)).
      destruct Hcur as [->| ->]; [exists current, old|exists [], (old ++ current)];
        (split; simpl; [done..| | |by rewrite Hun]); rewrite ?app_nil_r; try done.
      by apply sublist_inserts_r.
    + exists held, [], (old ++ [slot c i]).
      split; simpl; [done..|by rewrite app_nil_r| |].
      * by apply sublist_app.
      * by rewrite Hun', Ht, Hun, app_nil_r, <-app_assoc.
  - exists [], current, old. inversion Hq; subst. split; simpl; try done. by constructor.
  - apply (consumer_access _ _ held) in Ha
      as (Hc' & Hb & Hpr & Hpub & Hui & held' & Hq' & He); [|done..].
    exists held', current, old. split; simpl; try done.
    + by apply (producer_at_frame c).
    + rewrite Ht, He. by destruct l; rewrite ?app_nil_l, <-?app_assoc.
Qed.

Lemma reachable_ok s :
  (2 ≤ N)%nat → reachable N s → ∃ held current old, system_ok s held current old.
Proof.
  intros HN H. unfold reachable in H. remember (initial_system N) as s0 eqn:E0.
  assert (∃ held current old, system_ok s0 held current old) as Hok.
  { subst. exists [], [], []. apply initial_ok. }
  clear E0. induction H as [|s1 s2 s3 Hstep _ IH]; [done|].
  destruct Hok as (held & current & old & Hok).
  apply IH. by eapply step_ok.
Qed.

(** Any interleaving of publications and takes is safe, with two slots or more
    ([PublicationChannel<3>] has three): no assertion of the channel fails (neither is
    the channel exhausted nor an unread publication overwritten), no thread is ever
    stuck, the slot the producer clears and fills is neither published nor with the
    consumer, and the consumer writes no slot. *)
Theorem interleaving_safe s (HN : (2 ≤ N)%nat) (Hr : reachable N s) :
  can_move (channel s) (producer s) ∧ can_move (channel s) (consumer s) ∧
  (∀ i, writes_slot (producer s) = Some i →
     0 ≤ i < Z.of_nat N ∧ i ≠ published_ (channel s) ∧ i ≠ in_ui_ (channel s) ∧
     reads_slot (consumer s) ≠ Some i) ∧
  writes_slot (consumer s) = None.
Proof.
  destruct (reachable_ok s HN Hr) as (held & current & old & [Hc Hq Hp _ _ _]).
  assert (∀ i, reads_slot (consumer s) = Some i → in_ui_ (channel s) = i) as Hrd.
  { intros i. destruct Hq; simpl; try done. intros [= <-]. done. }
  split; [|split; [|split; [|by destruct Hq]]].
  - destruct Hp as [|[]| | | | | | | | |]; try (by left; eexists); try (by right; eexists).
    + destruct chunks; right; eexists; reflexivity.
    + right. simpl. by case_if_dec; eexists.
  - destruct Hq; try (by left; eexists); try (by right; eexists);
      right; simpl; case_if_dec; by eexists.
  - intros i Hi.
    assert (published_ (channel s) = -1 ∧ 0 ≤ i < Z.of_nat N ∧ i ≠ in_ui_ (channel s)) as Hw.
    { destruct Hp as [|[]| | | | | |j w [|]| | |]; try done; by injection Hi as <-. }
    split; [lia|]. split; [lia|]. split; [lia|]. intros E. by apply Hrd in E; lia.
Qed.

(** C11. The channel is a mailbox of whole publications: whatever the interleaving, what
    the consumer takes is what was published, byte for byte, in order, each once; what
    is published is a subsequence of what the producer set out to publish; and at most
    two publications are in the channel, one unread and one being copied. *)
Theorem taken_in_order s (HN : (2 ≤ N)%nat) (Hr : reachable N s) :
  taken s `prefix_of` sent s ∧ sent s `sublist_of` requested s ∧
  (length (sent s) ≤ length (taken s) + 2)%nat.
Proof.
  destruct (reachable_ok s HN Hr) as (held & current & old & [Hc Hq Hp Hrq Hs Ht]).
  split; [|split].
  - rewrite Ht. by eexists.
  - rewrite Hrq. by apply sublist_inserts_r.
  - rewrite Ht, !length_app. unfold unread. assert (length held ≤ 1)%nat by (destruct Hq; simpl; lia).
    case_if_dec; simpl; lia.
Qed.

(** ** A take that finds a publication *)

(** The places of a take that is going to return [b]. *)
Inductive taking (c : PublicationChannel) (b : bytes) : prog (option bytes) → Prop :=
| taking_start : 0 ≤ published_ c → in_ui_ c = -1 → slot c (published_ c) = b →
    taking c b TakePublishedCopy
| taking_mark idx : 0 ≤ idx → published_ c = idx → in_ui_ c = -1 → slot c idx = b →
    taking c b (take_mark idx)
| taking_clear idx : 0 ≤ idx → published_ c = idx → in_ui_ c = idx → slot c idx = b →
    taking c b (take_clear idx)
| taking_read idx : 0 ≤ idx → in_ui_ c = idx → slot c idx = b → taking c b (take_read idx)
| taking_release : taking c b (take_release b)
| taking_done : taking c b (Ret (Some b)).

Lemma taking_access c b q c' q' l :
  taking c b q → access c q = Some (c', q', l) → taking c' b q'.
Proof.
  intros H Ha. destruct H; simpl in Ha.
  - injection Ha as <- <- <-. case_if_dec; breflect; [lia|]. by apply taking_mark.
  - rewrite H1 in Ha. injection Ha as <- <- <-. by apply taking_clear.
  - rewrite H0, Z.eqb_refl in Ha. injection Ha as <- <- <-. by apply (taking_read _ _ idx).
  - injection Ha as <- <- <-. rewrite H1. apply taking_release.
  - injection Ha as <- <- <-. apply taking_done.
  - done.
Qed.

Lemma taking_frame c c' b q :
  taking c b q → producer_keeps c c' → unread c' = unread c ∨ unread c = [] →
  taking c' b q.
Proof.
  intros H [Hui Hpub Hsl] Hun.
  assert (0 ≤ published_ c →
    published_ c' = published_ c ∧ slot c' (published_ c) = slot c (published_ c)) as Hp.
  { intros H0. destruct Hpub as [Hpub|[]]; [|lia]. split; [done|].
    unfold unread in Hun. rewrite Hpub in Hun.
    destruct (Z.leb_spec 0 (published_ c)); [|lia]. by destruct Hun as [[= ->]|]. }
  destruct H as [H0 H1 H2|idx H0 H1 H2 H3|idx H0 H1 H2 H3|idx H0 H1 H2| |]; subst;
    try destruct (Hp H0) as [E1 E2].
  - apply taking_start; congruence || lia.
  - apply (taking_mark _ _ (published_ c)); congruence || lia.
  - apply (taking_clear _ _ (published_ c)); congruence || lia.
  - apply taking_read; [done..|]. by apply Hsl.
  - constructor.
  - constructor.
Qed.

Lemma taking_run c b q : taking c b q → ∃ c', run c q = Some (c', Some b).
Proof.
  intros H. destruct H as [H0 H1 H2|idx H0 H1 H2 H3|idx H0 H1 H2 H3|idx H0 H1 H2| |];
    simpl; subst.
  - destruct (Z.ltb_spec (published_ c) 0); [lia|]. simpl. rewrite H1. simpl.
    rewrite Z.eqb_refl. simpl. by eexists.
  - rewrite H2. simpl. rewrite Z.eqb_refl. simpl. by eexists.
  - rewrite H2, Z.eqb_refl. simpl. by eexists.
  - by eexists.
  - by eexists.
  - by eexists.
Qed.

(** A step in which the consumer does not begin a new take. *)
Definition step_during_take (a b : System) : Prop :=
  step N a b ∧ ∀ r, consumer a ≠ Ret r.

Lemma step_taking a b held current old x :
  (2 ≤ N)%nat → system_ok a held current old → step_during_take a b →
  taking (channel a) x (consumer a) → taking (channel b) x (consumer b).
Proof.
  intros HN [Hc Hq Hp _ _ _] [H Hn] Ht.
  destruct H as [| |c p r rs ss ts|]; simpl in *.
  - done.
  - destruct (producer_access _ _ current _ _ _ HN Hc Hp H) as (_ & Hk & current' & _ & He).
    apply (taking_frame c); [done..|].
    destruct He as [(_ & -> & _)|(i & _ & _ & _ & -> & _)]; auto.
  - by destruct (Hn r).
  - by eapply taking_access.
Qed.

(** A take that begins when a publication is unread returns it: whatever the
    producer does meanwhile, and wherever the take has got to, the consumer alone
    completes it, and its result is the bytes that were unread when it began. *)
Theorem unread_is_taken s r s'
    (HN : (2 ≤ N)%nat) (Hr : reachable N s) (Hc : consumer s = Ret r)
    (Hu : 0 ≤ published_ (channel s))
    (Hs : rtc step_during_take
            (mkSystem (channel s) (producer s) TakePublishedCopy
               (requested s) (sent s) (taken s)) s') :
  ∃ c', run (channel s') (consumer s') =
    Some (c', Some (slot (channel s) (published_ (channel s)))).
Proof.
  apply taking_run. destruct (reachable_ok s HN Hr) as (held & current & old & Hok).
  set (s1 := mkSystem _ _ _ _ _ _) in Hs.
  assert (∃ held current old, system_ok s1 held current old) as (held1 & current1 & old1 & Hok1).
  { eapply step_ok; [done|exact Hok|]. destruct s. simpl in *. subst. apply consumer_begins. }
  assert (taking (channel s1) (slot (channel s) (published_ (channel s))) (consumer s1)) as Ht.
  { apply taking_start; simpl; [done| |done]. destruct Hok as [_ Hq _ _ _ _].
    rewrite Hc in Hq. by inversion Hq. }
  clearbody s1. revert held1 current1 old1 Hok1 Ht.
  induction Hs as [|a b c Hab _ IH]; intros held1 current1 old1 Hok1 Ht; [done|].
  destruct (step_ok _ _ _ _ _ HN Hok1 (proj1 Hab)) as (h2 & c2 & o2 & Hok2).
  apply (IH h2 c2 o2 Hok2). exact (step_taking a b _ _ _ _ HN Hok1 Hab Ht).
Qed.
End theory.

(** ** Reading back what was written *)

(** Whatever was written between the bytes before and after it is read back, and the
    position moves past it. *)
Lemma read_written before d after :
  zlen (before ++ d ++ after) < 2 ^ 64 →
  read (mkByteSource (before ++ d ++ after) (zlen before) true) (zlen d) =
    (d, mkByteSource (before ++ d ++ after) (zlen before + zlen d) true).
Proof.
  intros Hl. unfold read, source_size. simpl. autorewrite with app in *.
  pose proof (zlen_nonneg before). pose proof (zlen_nonneg d). pose proof (zlen_nonneg after).
  rewrite u64_small by (unfold is_u64; lia).
  destruct (Z.ltb_spec (zlen before + (zlen d + zlen after)) (zlen before + zlen d)); [lia|].
  unfold zlen. rewrite !Nat2Z.id, drop_app_length, take_app_length. done.
Qed.

(** Once a read has failed every later one fails, with zeroes. *)
Lemma read_failed s n : ok s = false → read s n = (repeat 0 (Z.to_nat n), s).
Proof. intros H. unfold read. destruct s; simpl in *. by subst. Qed.

Lemma read_past_end s n :
  ok s = true → source_size s < u64 (pos s + n) →
  read s n = (repeat 0 (Z.to_nat n), mkByteSource (data s) (pos s) false).
Proof.
  intros H Hn. unfold read. rewrite H. by destruct (Z.ltb_spec (source_size s) (u64 (pos s + n))); [|lia].
Qed.

(** ** Examples *)

Module Examples.
(** A scheduler's choice, and the step it makes. *)
Inductive Choice := PBegin (busy : bool) (chunks : list bytes) | PMove | CBegin | CMove.

Definition perform (s : System) (ch : Choice) : option System :=
  let '(mkSystem c p q rs ss ts) := s in
  match ch with
  | PBegin busy chunks =>
      match p with
      | Ret _ =>
          Some (mkSystem c (publish_round 3 busy chunks) q (rs ++ [concat chunks]) ss ts)
      | _ => None
      end
  | PMove =>
      '(c', p', l) ← access c p;
      Some (mkSystem c' p' q rs
        (match l with Swapped Published i => ss ++ [slot c i] | _ => ss end) ts)
  | CBegin =>
      match q with
      | Ret _ => Some (mkSystem c p TakePublishedCopy rs ss ts)
      | _ => None
      end
  | CMove =>
      '(c', q', l) ← access c q;
      Some (mkSystem c' p q' rs ss (match l with ReadOut b => ts ++ [b] | _ => ts end))
  end.

Fixpoint performs (s : System) (l : list Choice) : option System :=
  match l with
  | [] => Some s
  | ch :: l => s' ← perform s ch; performs s' l
  end.

Lemma perform_step s ch s' : perform s ch = Some s' → step 3 s s'.
Proof.
  destruct s as [c p q rs ss ts], ch; simpl; intros H.
  - destruct p as [[]| | | | | | | | |]; simplify_eq. apply producer_begins.
  - apply bind_Some in H as ([[c' p'] l] & Ha & [= <-]). by apply producer_moves.
  - destruct q; simplify_eq. apply consumer_begins.
  - apply bind_Some in H as ([[c' q'] l] & Ha & [= <-]). by apply consumer_moves.
Qed.

Lemma performs_reachable l s' :
  performs (initial_system 3) l = Some s' → reachable 3 s'.
Proof.
  unfold reachable. generalize (initial_system 3) as s. induction l as [|ch l IH]; simpl; intros s H.
  { by simplify_eq. }
  apply bind_Some in H as (s1 & Hp & H). eapply rtc_l; [by eapply perform_step|by apply IH].
Qed.

(** A first publication is taken while a second is written; the third round finds the
    second unread and gives up. *)
Definition schedule : list Choice :=
  PBegin true [[1]; [2; 3]] :: repeat PMove 12 ++ [CBegin; CMove; CMove; CMove] ++
  PBegin false [[4]] :: repeat PMove 5.

Definition middle : System := default (initial_system 3) (performs (initial_system 3) schedule).

Lemma middle_reachable : reachable 3 middle.
Proof. apply (performs_reachable schedule). vm_compute. reflexivity. Qed.

(** The first slot is being read while the second is written. *)
Lemma interleaving_safe_witness :
  reads_slot (consumer middle) = Some 0 ∧ writes_slot (producer middle) = Some 1 ∧
  can_move (channel middle) (producer middle).
Proof.
  split; [vm_compute; reflexivity|]. split; [vm_compute; reflexivity|].
  exact (proj1 (interleaving_safe 3 middle ltac:(lia) middle_reachable)).
Defined.

Definition ending : System :=
  default (initial_system 3) (performs middle
    (repeat PMove 5 ++ [CMove; CMove; PBegin false [[5]]; PMove])).

Lemma ending_reachable : reachable 3 ending.
Proof.
  apply (performs_reachable (schedule ++ repeat PMove 5 ++ [CMove; CMove; PBegin false [[5]]; PMove])).
  vm_compute. reflexivity.
Qed.

Lemma taken_in_order_witness :
  requested ending = [[1; 2; 3]; [4]; [5]] ∧ sent ending = [[1; 2; 3]; [4]] ∧
  taken ending = [[1; 2; 3]] ∧ taken ending `prefix_of` sent ending.
Proof.
  split; [vm_compute; reflexivity|]. split; [vm_compute; reflexivity|].
  split; [vm_compute; reflexivity|].
  exact (proj1 (taken_in_order 3 ending ltac:(lia) ending_reachable)).
Defined.

(** The second publication is unread at the end. *)
Lemma unread_is_taken_witness :
  published_ (channel ending) = 1 ∧
  ∃ c', run (channel ending) TakePublishedCopy = Some (c', Some [4]).
Proof.
  split; [vm_compute; reflexivity|].
  assert (slot (channel ending) (published_ (channel ending)) = [4]) as <-
    by (vm_compute; reflexivity).
  apply (unread_is_taken 3 ending (Some [1; 2; 3])
    (mkSystem (channel ending) (producer ending) TakePublishedCopy
       (requested ending) (sent ending) (taken ending))).
  - lia.
  - exact ending_reachable.
  - vm_compute. reflexivity.
  - vm_compute. discriminate.
  - apply rtc_refl.
Defined.
End Examples.
