(* ===== verification/NativeBytes.v ===== *)
(** * Integers in memory

    The source copies integers to and from byte buffers with [memcpy] and hands their
    object representation to the archive.  On every platform the repository builds for
    the representation is little-endian. *)
From S2P Require Import Prelude.

(** The [n] bytes of [z], least significant first. *)
Fixpoint native_bytes (n : nat) (z : Z) : bytes :=
  match n with
  | O => []
  | S n => Z.land z 255 :: native_bytes n (Z.shiftr z 8)
  end.

(** The integer whose bytes are [bs]. *)
Fixpoint native_value (bs : bytes) : Z :=
  match bs with
  | [] => 0
  | b :: bs => Z.lor b (Z.shiftl (native_value bs) 8)
  end.

Definition u32_bytes (z : Z) : bytes := native_bytes 4 z.
Definition u64_bytes (z : Z) : bytes := native_bytes 8 z.

Lemma native_bytes_length n z : length (native_bytes n z) = n.
Proof. revert z. induction n as [|n IH]; intros z; simpl; [done|]. by rewrite IH. Qed.

Lemma native_bytes_zlen n z : zlen (native_bytes n z) = Z.of_nat n.
Proof. unfold zlen. by rewrite native_bytes_length. Qed.
#[export] Hint Rewrite native_bytes_zlen : app.

Lemma land_255 z : Z.land z 255 = z mod 2 ^ 8.
Proof. by rewrite <-Z.land_ones. Qed.

Lemma native_bytes_range n z : is_bytes (native_bytes n z).
Proof.
  revert z. induction n as [|n IH]; intros z; simpl; constructor; [|apply IH].
  rewrite land_255. apply Z.mod_pos_bound. lia.
Qed.

(** What was copied out is copied back, modulo the width. *)
Lemma native_value_bytes n z : native_value (native_bytes n z) = z mod 2 ^ (8 * Z.of_nat n).
Proof.
  revert z. induction n as [|n IH]; intros z; cbn [native_bytes native_value].
  { by rewrite Z.mod_1_r. }
  rewrite IH, Z.lor_comm, lor_shiftl_low, land_255; [|lia|rewrite land_255; by apply Z.mod_pos_bound].
  rewrite Z.shiftr_div_pow2 by lia.
  replace (8 * Z.of_nat (S n)) with (8 + 8 * Z.of_nat n) by lia.
  rewrite Z.pow_add_r, Z.rem_mul_r by lia. lia.
Qed.

(** The bytes determine the integer, and any [n] bytes are those of one. *)
Lemma native_bytes_value bs : is_bytes bs → native_bytes (length bs) (native_value bs) = bs.
Proof.
  intros Hbs. induction Hbs as [|b bs Hb _ IH]; cbn [length native_bytes native_value]; [done|].
  rewrite Z.lor_comm, lor_shiftl_low by (unfold is_u8 in Hb; lia).
  rewrite land_255, Z.shiftr_div_pow2 by lia.
  change (2 ^ 8) with 256. rewrite Z.add_comm, Z.mod_add, Z.div_add by lia.
  rewrite Z.mod_small, (Z.div_small b) by (unfold is_u8 in Hb; lia). by rewrite Z.add_0_l, IH.
Qed.

Lemma native_value_range bs : is_bytes bs → 0 ≤ native_value bs < 2 ^ (8 * zlen bs).
Proof.
  intros Hbs. rewrite <-(native_bytes_value bs Hbs) at 1 2. rewrite native_value_bytes.
  apply Z.mod_pos_bound, Z.pow_pos_nonneg; unfold zlen; lia.
Qed.

Lemma u32_value_bytes z : is_u32 z → native_value (u32_bytes z) = z.
Proof. intros. unfold u32_bytes. rewrite native_value_bytes. by apply u32_small. Qed.
Lemma u64_value_bytes z : is_u64 z → native_value (u64_bytes z) = z.
Proof. intros. unfold u64_bytes. rewrite native_value_bytes. by apply u64_small. Qed.
#[export] Hint Rewrite u32_value_bytes u64_value_bytes using assumption : app.

#[global] Arguments native_bytes : simpl never.
#[global] Arguments u32_bytes : simpl never.
#[global] Arguments u64_bytes : simpl never.
