(* ===== verification/DirectoryStorage.v ===== *)
(** * The directory storage

    Models src/directory_domain_storage.cpp and its header: layers as files
    [root/object/class/version], written to a temporary file that is renamed over the
    layer, compared with the file on disk first, and counted per save session.

    The files below the root are the state [Files]; the names the code makes from
    numbers are the numbers.  A call of the file system can fail; [Faults] says which
    ones do during one commit.  Commits return every state the files go through, so that
    what an interruption of the process leaves behind can be stated. *)
From S2P Require Import Prelude DomainStorage NativeBytes.

(** ** Files *)

(** [version], and [version.tmp]. *)
Inductive FileName := Layer (version : Z) | Tmp (version : Z).

#[export] Instance FileName_eq_dec : EqDecision FileName.
Proof. solve_decision. Defined.
#[export] Program Instance FileName_countable : Countable FileName :=
  inj_countable' (λ f, match f with Layer v => inl v | Tmp v => inr v end)
    (λ s, match s with inl v => Layer v | inr v => Tmp v end) _.
Next Obligation. by intros []. Qed.

Abbreviation ClassDir := (gmap FileName bytes).
Abbreviation ObjectDir := (gmap Z ClassDir).
(** The object directories under [root_]. *)
Abbreviation Files := (gmap Z ObjectDir).

Definition object_dir (fs : Files) (id : Z) : ObjectDir := default ∅ (fs !! id).
Definition class_dir (fs : Files) (id c : Z) : ClassDir := default ∅ (object_dir fs id !! c).

(** [DirectoryDomainStorageLayerPath]: the file of a layer. *)
Definition layer_file (fs : Files) (q : DomainQuery) : option bytes :=
  class_dir fs (q_id q) (q_class q) !! Layer (q_version q).
Definition DirectoryDomainStorageLayerFileExists (fs : Files) (q : DomainQuery) : bool :=
  match layer_file fs q with Some _ => true | None => false end.

Definition make_object_dir (id : Z) (fs : Files) : Files := <[id := object_dir fs id]> fs.
Definition make_class_dir (id c : Z) (fs : Files) : Files :=
  <[id := <[c := class_dir fs id c]> (object_dir fs id)]> fs.
Definition put_file (id c : Z) (n : FileName) (d : bytes) (fs : Files) : Files :=
  <[id := <[c := <[n := d]> (class_dir fs id c)]> (object_dir fs id)]> fs.
Definition remove_file (id c : Z) (n : FileName) (fs : Files) : Files :=
  <[id := <[c := delete n (class_dir fs id c)]> (object_dir fs id)]> fs.

(** What fails during one commit: finding, examining, opening and reading the existing
    layer; making its directories ([Some true]: after the object's directory is made);
    opening, writing and flushing the temporary file, of which [buffered] bytes reach the
    disk before the flush; renaming it and removing it. *)
Record Faults := mkFaults {
  exists_fails : bool;
  irregular : bool;
  read_open_fails : bool;
  read_fails : bool;
  mkdir_fails : option bool;
  tmp_open_fails : bool;
  buffered : nat;
  write_fails : bool;
  flush_fails : bool;
  rename_fails : bool;
  remove_fails : bool
}.

Definition no_faults : Faults :=
  mkFaults false false false false None false 0 false false false false.

(** Changes of the files: the states gone through, the last state, the result. *)
Definition D (A : Type) : Type := Files → list Files * Files * A.
Definition d_ret {A} (a : A) : D A := λ fs, ([], fs, a).
Definition d_bind {A B} (m : D A) (k : A → D B) : D B := λ fs,
  let '(l, fs, a) := m fs in let '(l', fs, b) := k a fs in (l ++ l', fs, b).
Definition change (f : Files → Files) : D () := λ fs, ([f fs], f fs, ()).

Notation "'let%' x ':=' m 'in' k" := (d_bind m (λ x, k))
  (at level 10, x name, m at level 100, k at level 200) : apptraverse_scope.
Notation "m ';%' k" := (d_bind m (λ _ : (), k))
  (at level 100, k at level 200, right associativity) : apptraverse_scope.

Definition when (b : bool) (m : D ()) : D () := if b then m else d_ret ().

(** ** ReadExistingLayerFile, ReplaceLayerFile *)

Inductive LayerFileRead :=
| kReadNotFound
| kReadEmpty
| kReadOk (read_bytes : bytes)
| kReadError.

Definition ReadExistingLayerFile (f : Faults) (fs : Files) (q : DomainQuery) : LayerFileRead :=
  match layer_file fs q with
  | None => kReadNotFound
  | Some d =>
      if exists_fails f then kReadNotFound
      else if irregular f then kReadError
      else if read_open_fails f then kReadError
      else if bool_decide (d = []) then kReadEmpty
      else if read_fails f then kReadError
      else kReadOk d
  end.

Definition create_directories (f : Faults) (id c : Z) : D bool :=
  match mkdir_fails f with
  | Some made =>
      when made (change (make_object_dir id)) ;% d_ret false
  | None =>
      change (make_object_dir id) ;% change (make_class_dir id c) ;% d_ret true
  end.

Definition ReplaceLayerFile (f : Faults) (q : DomainQuery) (d : bytes) : D bool :=
  let id := q_id q in
  let c := q_class q in
  let put name d := change (put_file id c name d) in
  let tmp := Tmp (q_version q) in
  let remove_tmp := when (negb (remove_fails f)) (change (remove_file id c tmp)) in
  let% made := create_directories f id c in
  if negb made then d_ret false else
  if tmp_open_fails f then d_ret false else
  put tmp [] ;%
  when (negb (bool_decide (d = []))) (put tmp (take (buffered f) d)) ;%
  if negb (bool_decide (d = [])) && write_fails f then remove_tmp ;% d_ret false else
  if flush_fails f then remove_tmp ;% d_ret false else
  put tmp d ;%
  if rename_fails f then remove_tmp ;% d_ret false else
  change (λ fs, remove_file id c tmp (put_file id c (Layer (q_version q)) d fs)) ;%
  d_ret true.

(** ** DirectoryDomainStorage *)

Inductive LayerCommitOutcome := kNone | kSkippedUnchanged | kWritten | kFailed.

#[export] Instance LayerCommitOutcome_eq_dec : EqDecision LayerCommitOutcome.
Proof. solve_decision. Defined.

Record DirectoryDomainStorageStoreStats := mkStoreStats {
  layer_store_calls : Z;
  layers_bytes_accepted : Z;
  layers_written : Z;
  layers_skipped_unchanged : Z;
  layers_written_bytes : Z;
  layers_failed_commits : Z
}.

Definition no_store_stats : DirectoryDomainStorageStoreStats := mkStoreStats 0 0 0 0 0 0.

Record DirectoryDomainStorage := mkDirectory {
  root_ : Files;
  save_session_stats_ : DirectoryDomainStorageStoreStats;
  save_session_active_ : bool;
  save_session_had_failure_ : bool;
  last_layer_commit_ : LayerCommitOutcome
}.

(** The constructor, over the files that are already there. *)
Definition new_directory (fs : Files) : DirectoryDomainStorage :=
  mkDirectory fs no_store_stats false false kNone.

Definition set_root (st : DirectoryDomainStorage) (fs : Files) : DirectoryDomainStorage :=
  mkDirectory fs (save_session_stats_ st) (save_session_active_ st)
    (save_session_had_failure_ st) (last_layer_commit_ st).

Definition BeginSaveSession (st : DirectoryDomainStorage) : DirectoryDomainStorage :=
  mkDirectory (root_ st) no_store_stats true false kNone.

Definition SnapshotSaveSessionStats (st : DirectoryDomainStorage) :=
  save_session_stats_ st.
Definition SaveSessionHadFailure (st : DirectoryDomainStorage) : bool :=
  save_session_had_failure_ st.

Definition TakeLastLayerCommitOutcome (st : DirectoryDomainStorage)
    : LayerCommitOutcome * DirectoryDomainStorage :=
  (last_layer_commit_ st,
   mkDirectory (root_ st) (save_session_stats_ st) (save_session_active_ st)
     (save_session_had_failure_ st) kNone).

Definition RecordLayerBytesAccepted (st : DirectoryDomainStorage) (n : Z)
    : DirectoryDomainStorage :=
  if save_session_active_ st then
    let s := save_session_stats_ st in
    mkDirectory (root_ st)
      (mkStoreStats (layer_store_calls s) (u64 (layers_bytes_accepted s + n))
         (layers_written s) (layers_skipped_unchanged s) (layers_written_bytes s)
         (layers_failed_commits s))
      (save_session_active_ st) (save_session_had_failure_ st) (last_layer_commit_ st)
  else st.

(** The counters after one more commit. *)
Definition count_commit (s : DirectoryDomainStorageStoreStats) (o : LayerCommitOutcome)
    (disk_bytes : Z) : DirectoryDomainStorageStoreStats :=
  let calls := u64 (layer_store_calls s + 1) in
  match o with
  | kSkippedUnchanged =>
      mkStoreStats calls (layers_bytes_accepted s) (layers_written s)
        (u64 (layers_skipped_unchanged s + 1)) (layers_written_bytes s)
        (layers_failed_commits s)
  | kWritten =>
      mkStoreStats calls (layers_bytes_accepted s) (u64 (layers_written s + 1))
        (layers_skipped_unchanged s) (u64 (layers_written_bytes s + disk_bytes))
        (layers_failed_commits s)
  | kFailed =>
      mkStoreStats calls (layers_bytes_accepted s) (layers_written s)
        (layers_skipped_unchanged s) (layers_written_bytes s)
        (u64 (layers_failed_commits s + 1))
  | kNone =>
      mkStoreStats calls (layers_bytes_accepted s) (layers_written s)
        (layers_skipped_unchanged s) (layers_written_bytes s) (layers_failed_commits s)
  end.

Definition RecordLayerCommit (st : DirectoryDomainStorage) (o : LayerCommitOutcome)
    (disk_bytes : Z) : DirectoryDomainStorage :=
  let had_failure := save_session_had_failure_ st || bool_decide (o = kFailed) in
  if negb (save_session_active_ st) then
    mkDirectory (root_ st) (save_session_stats_ st) false had_failure o
  else
    mkDirectory (root_ st) (count_commit (save_session_stats_ st) o disk_bytes) true
      had_failure o.

(** ** CompareOnCloseDirectoryStorageWriter *)

Record Writer := mkWriter {
  query_ : DomainQuery;
  buffer_ : bytes;
  committed_ : bool;
  failed_ : bool
}.

(** [DirectoryDomainStorage::Store] *)
Definition Directory_Store (q : DomainQuery) : Writer := mkWriter q [] false false.

(** [Write(DataWriteTag)]; the first component says whether it succeeded. *)
Definition Writer_Write (st : DirectoryDomainStorage) (w : Writer) (d : bytes)
    : bool * DirectoryDomainStorage * Writer :=
  if failed_ w then (false, st, w)
  else (true, RecordLayerBytesAccepted st (zlen d),
        mkWriter (query_ w) (buffer_ w ++ d) (committed_ w) (failed_ w)).

(** [Write(SizeWriteTag)] *)
Definition Writer_WriteSize (st : DirectoryDomainStorage) (w : Writer) (size : Z)
    : bool * DirectoryDomainStorage * Writer :=
  Writer_Write st w (u32_bytes (u32 size)).

(** The files gone through, and the storage and writer afterwards. *)
Definition CommitIfNeeded (f : Faults) (st : DirectoryDomainStorage) (w : Writer)
    : list Files * DirectoryDomainStorage * Writer :=
  if committed_ w || failed_ w then ([], st, w) else
  let done failed := mkWriter (query_ w) (buffer_ w) true failed in
  let replace :=
    let '(l, fs, replaced) := ReplaceLayerFile f (query_ w) (buffer_ w) (root_ st) in
    let st := set_root st fs in
    if negb replaced then (l, RecordLayerCommit st kFailed 0, done true)
    else (l, RecordLayerCommit st kWritten (zlen (buffer_ w)), done false) in
  let compare existing :=
    if bool_decide (existing = buffer_ w)
    then ([], RecordLayerCommit st kSkippedUnchanged 0, done false)
    else replace in
  match ReadExistingLayerFile f (root_ st) (query_ w) with
  | kReadError => ([], RecordLayerCommit st kFailed 0, done true)
  | kReadNotFound => replace
  | kReadEmpty => compare []
  | kReadOk d => compare d
  end.

(** The writes of a writer, then its destructor. *)
Fixpoint write_all (st : DirectoryDomainStorage) (w : Writer) (chunks : list bytes)
    : DirectoryDomainStorage * Writer :=
  match chunks with
  | [] => (st, w)
  | d :: ds => let '(_, st, w) := Writer_Write st w d in write_all st w ds
  end.

Definition StoreLayer (f : Faults) (st : DirectoryDomainStorage) (q : DomainQuery)
    (chunks : list bytes) : list Files * DirectoryDomainStorage :=
  let '(st, w) := write_all st (Directory_Store q) chunks in
  let '(l, st, _) := CommitIfNeeded f st w in
  (l, st).

(** ** Reading *)

(** The class directories of the object, as a [std::set] lists them. *)
Definition Directory_Enumerate (fs : Files) (id : Z) : list Z :=
  elements (dom (object_dir fs id) : gset Z).

(** [opens]: the layer's file, if there is one, can be opened. *)
Definition Directory_Load (opens : bool) (fs : Files) (q : DomainQuery) : DomainLoad :=
  match fs !! q_id q with
  | None => kEmpty
  | Some dir =>
      if bool_decide (dir = ∅) then kRemoved else
      match layer_file fs q with
      | Some d => if opens then kLoaded d else kEmpty
      | None => kEmpty
      end
  end.

(** [DirectoryStorageReader]: the bytes of the file that were not read, and whether the
    end was hit. *)
Record Reader := mkReader { rest_ : bytes; eof_ : bool }.

Inductive ReadResult := read_good (d : bytes) | read_eof.

Definition Reader_Read (r : Reader) (n : Z) : ReadResult * Reader :=
  if eof_ r then (read_eof, r)
  else if zlen (rest_ r) <? n then (read_eof, mkReader [] true)
  else (read_good (take (Z.to_nat n) (rest_ r)), mkReader (drop (Z.to_nat n) (rest_ r)) false).

(** [Read(SizeReadTag)]; [None] when it fails. *)
Definition Reader_ReadSize (r : Reader) : option Z * Reader :=
  match Reader_Read r 4 with
  | (read_good d, r) => (Some (native_value d), r)
  | (read_eof, r) => (None, r)
  end.

(** ** Removing *)

(** [stuck c]: the directory of class [c] cannot be removed. *)
Definition Directory_Remove (stuck : Z → bool) (fs : Files) (id : Z) : Files :=
  match fs !! id with
  | None => <[id := ∅]> fs
  | Some dir => <[id := filter (λ e, stuck e.1 = true) dir]> fs
  end.

Definition Directory_CleanUp (_ : Files) : Files := ∅.

(** ** The files after each change *)

Lemma object_dir_insert fs id d id' :
  object_dir (<[id := d]> fs) id' = if decide (id' = id) then d else object_dir fs id'.
Proof.
  unfold object_dir. destruct (decide (id' = id)) as [->|Hn].
  - by rewrite lookup_insert_eq.
  - by rewrite lookup_insert_ne.
Qed.

Lemma class_dir_insert fs id c d id' c' :
  class_dir (<[id := <[c := d]> (object_dir fs id)]> fs) id' c' =
    if decide (id' = id ∧ c' = c) then d else class_dir fs id' c'.
Proof.
  unfold class_dir. rewrite object_dir_insert. destruct (decide (id' = id)) as [->|Hn].
  - destruct (decide (c' = c)) as [->|Hc].
    + rewrite decide_True by done. by rewrite lookup_insert_eq.
    + rewrite decide_False by naive_solver. by rewrite lookup_insert_ne.
  - by rewrite decide_False by naive_solver.
Qed.

Lemma class_dir_make_object_dir fs id id' c' :
  class_dir (make_object_dir id fs) id' c' = class_dir fs id' c'.
Proof.
  unfold class_dir, make_object_dir. rewrite object_dir_insert. by case_decide; subst.
Qed.

Lemma class_dir_make_class_dir fs id c id' c' :
  class_dir (make_class_dir id c fs) id' c' = class_dir fs id' c'.
Proof.
  unfold make_class_dir. rewrite class_dir_insert. case_decide as H; [|done].
  by destruct H as [-> ->].
Qed.

Lemma layer_put_tmp fs id c v d q :
  layer_file (put_file id c (Tmp v) d fs) q = layer_file fs q.
Proof.
  unfold layer_file, put_file. rewrite class_dir_insert. case_decide as H; [|done].
  destruct H as [-> ->]. by rewrite lookup_insert_ne.
Qed.

Lemma layer_remove_tmp fs id c v q :
  layer_file (remove_file id c (Tmp v) fs) q = layer_file fs q.
Proof.
  unfold layer_file, remove_file. rewrite class_dir_insert. case_decide as H; [|done].
  destruct H as [-> ->]. by rewrite lookup_delete_ne.
Qed.

Lemma layer_put fs p d q :
  layer_file (put_file (q_id p) (q_class p) (Layer (q_version p)) d fs) q =
    if decide (q = p) then Some d else layer_file fs q.
Proof.
  unfold layer_file, put_file. rewrite class_dir_insert.
  destruct (decide (q = p)) as [->|Hn].
  - rewrite decide_True by done. by rewrite lookup_insert_eq.
  - case_decide as H; [|done]. destruct H as [Hi Hc]. rewrite lookup_insert_ne; [by rewrite Hi, Hc|].
    intros [= Hv]. apply Hn. destruct p, q; simpl in *. by subst.
Qed.

(** Two states of the files with the same layers, but perhaps other directories and
    temporary files. *)
Definition same_layers (fs fs' : Files) : Prop := ∀ q, layer_file fs' q = layer_file fs q.

#[export] Instance same_layers_equiv : Equivalence same_layers.
Proof.
  split.
  - done.
  - intros a b H q. by rewrite H.
  - intros a b c H H' q. by rewrite H', H.
Qed.

Lemma same_make_object_dir fs id : same_layers fs (make_object_dir id fs).
Proof. intros q. unfold layer_file. by rewrite class_dir_make_object_dir. Qed.
Lemma same_make_class_dir fs id c : same_layers fs (make_class_dir id c fs).
Proof. intros q. unfold layer_file. by rewrite class_dir_make_class_dir. Qed.
Lemma same_put_tmp fs id c v d : same_layers fs (put_file id c (Tmp v) d fs).
Proof. intros q. apply layer_put_tmp. Qed.
Lemma same_remove_tmp fs id c v : same_layers fs (remove_file id c (Tmp v) fs).
Proof. intros q. apply layer_remove_tmp. Qed.
#[export] Hint Resolve same_make_object_dir same_make_class_dir same_put_tmp
  same_remove_tmp : app.

(** A change of the files whose states are all related to the first one. *)
Definition along {A} (R : relation Files) (m : D A) : Prop :=
  ∀ fs, Forall (R fs) (m fs).1.1 ∧ R fs (m fs).1.2.

Section along.
Context (R : relation Files) `{!PreOrder R}.

Lemma along_ret {A} (a : A) : along R (d_ret a).
Proof. intros fs. split; [constructor|reflexivity]. Qed.

Lemma along_change f : (∀ fs, R fs (f fs)) → along R (change f).
Proof. intros H fs. split; [|apply H]. constructor; [apply H|constructor]. Qed.

Lemma along_bind {A B} (m : D A) (k : A → D B) :
  along R m → (∀ a, along R (k a)) → along R (d_bind m k).
Proof.
  intros Hm Hk fs. unfold d_bind. specialize (Hm fs).
  destruct (m fs) as [[l fs1] a]. simpl in Hm. destruct Hm as [Hl Hs].
  specialize (Hk a fs1). destruct (k a fs1) as [[l' fs2] b]. simpl in *.
  destruct Hk as [Hl' Hs']. split; [|by etrans].
  apply list.Forall_app. split; [done|]. eapply list.Forall_impl; [exact Hl'|].
  intros x Hx. by etrans.
Qed.

Lemma along_when b m : along R m → along R (when b m).
Proof. intros. destruct b; [done|]. apply along_ret. Qed.
End along.

Ltac along :=
  repeat match goal with
  | |- along _ (d_bind _ _) => apply along_bind; [apply _| |intros ?]
  | |- along _ (when _ _) => apply along_when; [apply _|]
  | |- along _ (change _) => apply along_change; intros ?; auto with app
  | |- along _ (d_ret _) => apply along_ret; apply _
  | |- along _ (if ?b then _ else _) => destruct b
  end.

Abbreviation keeps_layers := (along same_layers).

(** Nothing but the directory of one class of one object has changed. *)
Definition touches (id c : Z) (fs fs' : Files) : Prop :=
  (∀ i, i ≠ id → fs' !! i = fs !! i) ∧
  (∀ k, k ≠ c → object_dir fs' id !! k = object_dir fs id !! k).

#[export] Instance touches_preorder id c : PreOrder (touches id c).
Proof.
  split.
  - done.
  - intros x y z [H1 H2] [H3 H4]. split; intros i Hi; [by rewrite H3, H1|by rewrite H4, H2].
Qed.

Lemma touches_make_object_dir id c fs : touches id c fs (make_object_dir id fs).
Proof.
  split; intros i Hi; unfold make_object_dir; [by rewrite lookup_insert_ne|].
  by rewrite object_dir_insert, decide_True.
Qed.

Lemma touches_insert id c d fs : touches id c fs (<[id := <[c := d]> (object_dir fs id)]> fs).
Proof.
  split; intros i Hi; [by rewrite lookup_insert_ne|].
  rewrite object_dir_insert, decide_True by done. by rewrite lookup_insert_ne.
Qed.

Lemma touches_rename id c v d fs :
  touches id c fs (remove_file id c (Tmp v) (put_file id c (Layer v) d fs)).
Proof. etrans; apply touches_insert. Qed.
#[export] Hint Resolve touches_make_object_dir touches_insert touches_rename : app.

(** What [ReplaceLayerFile] may leave: the old layers, or the new one in its place. *)
Definition replaced (q : DomainQuery) (d : bytes) (fs fs' : Files) : Prop :=
  ∀ p, layer_file fs' p = if decide (p = q) then Some d else layer_file fs p.

(** A replacement of a layer: through states with the old layers, and at the end, when
    it succeeds, to the state with the new layer. *)
Definition replaces (q : DomainQuery) (d : bytes) (m : D bool) : Prop :=
  ∀ fs,
    let '(l, fs', ok) := m fs in
    if ok : bool then
      ∃ before, l = before ++ [fs'] ∧ Forall (same_layers fs) before ∧ replaced q d fs fs'
    else Forall (same_layers fs) l ∧ same_layers fs fs'.

Lemma replaces_false q d : replaces q d (d_ret false).
Proof. intros fs. simpl. split; [constructor|reflexivity]. Qed.

Lemma replaced_same q d fs fs1 fs2 :
  same_layers fs fs1 → replaced q d fs1 fs2 → replaced q d fs fs2.
Proof. intros H H' p. rewrite H', H. done. Qed.

Lemma replaces_bind {A} q d (m : D A) (k : A → D bool) :
  keeps_layers m → (∀ a, replaces q d (k a)) → replaces q d (d_bind m k).
Proof.
  intros Hm Hk fs. unfold d_bind. specialize (Hm fs).
  destruct (m fs) as [[l fs1] a]. simpl in Hm. destruct Hm as [Hl Hs].
  specialize (Hk a fs1). destruct (k a fs1) as [[l' fs2] ok].
  assert (∀ x, Forall (same_layers fs1) x → Forall (same_layers fs) x) as Hx.
  { intros x Hx. eapply list.Forall_impl; [exact Hx|]. intros y Hy. by rewrite Hs. }
  destruct ok.
  - destruct Hk as (before & -> & Hb & Hr). exists (l ++ before).
    rewrite app_assoc. split; [done|]. split; [|by eapply replaced_same].
    apply list.Forall_app. auto.
  - destruct Hk as [Hb Hr]. split; [|by rewrite Hs]. apply list.Forall_app. auto.
Qed.

Lemma replaces_rename q d :
  replaces q d (change (λ fs, remove_file (q_id q) (q_class q) (Tmp (q_version q))
    (put_file (q_id q) (q_class q) (Layer (q_version q)) d fs)) ;% d_ret true).
Proof.
  intros fs. simpl. exists []. split; [done|]. split; [constructor|].
  intros p. by rewrite layer_remove_tmp, layer_put.
Qed.

Lemma ReplaceLayerFile_replaces f q d : replaces q d (ReplaceLayerFile f q d).
Proof.
  unfold ReplaceLayerFile. apply replaces_bind.
  { unfold create_directories. destruct (mkdir_fails f); along. }
  intros made.
  repeat match goal with
  | |- replaces _ _ (d_ret false) => apply replaces_false
  | |- replaces _ _ (if ?b then _ else _) => destruct b
  | |- replaces _ _ (change (λ _, remove_file _ _ _ _) ;% _) => apply replaces_rename
  | |- replaces _ _ (d_bind _ _) => apply replaces_bind; [along|intros _]
  end.
Qed.

Lemma ReplaceLayerFile_no_faults q d fs : ∃ l fs', ReplaceLayerFile no_faults q d fs = (l, fs', true).
Proof.
  unfold ReplaceLayerFile, create_directories. simpl.
  rewrite andb_false_r. unfold d_bind, change, when, d_ret.
  destruct (negb (bool_decide (d = []))); eexists _, _; reflexivity.
Qed.

(** ** One commit *)

(** The counters and the failure flag after a commit with the given outcome. *)
Lemma RecordLayerCommit_root st o n : root_ (RecordLayerCommit st o n) = root_ st.
Proof. unfold RecordLayerCommit. by destruct (negb _). Qed.
Lemma RecordLayerCommit_active st o n :
  save_session_active_ (RecordLayerCommit st o n) = save_session_active_ st.
Proof. unfold RecordLayerCommit. by destruct (save_session_active_ st) eqn:E. Qed.
Lemma RecordLayerCommit_failure st o n :
  save_session_had_failure_ (RecordLayerCommit st o n) =
    save_session_had_failure_ st || bool_decide (o = kFailed).
Proof. unfold RecordLayerCommit. by destruct (negb _). Qed.
Lemma RecordLayerCommit_last st o n : last_layer_commit_ (RecordLayerCommit st o n) = o.
Proof. unfold RecordLayerCommit. by destruct (negb _). Qed.
Lemma RecordLayerCommit_stats st o n :
  save_session_active_ st = true →
  save_session_stats_ (RecordLayerCommit st o n) = count_commit (save_session_stats_ st) o n.
Proof. unfold RecordLayerCommit. by intros ->. Qed.
#[export] Hint Rewrite RecordLayerCommit_root RecordLayerCommit_active
  RecordLayerCommit_failure RecordLayerCommit_last : app.

(** What a commit of [d] as the layer [q] does with the files and the counters. *)
Record commit_spec (q : DomainQuery) (d : bytes) (st st' : DirectoryDomainStorage)
    (l : list Files) (o : LayerCommitOutcome) : Prop := {
  commit_state : st' = RecordLayerCommit (set_root st (root_ st')) o
    (if decide (o = kWritten) then zlen d else 0);
  commit_outcome : o ≠ kNone;
  commit_skipped : o = kSkippedUnchanged → l = [] ∧ root_ st' = root_ st;
  commit_files : if decide (o = kFailed) then same_layers (root_ st) (root_ st')
    else replaced q d (root_ st) (root_ st');
  commit_states : Forall (λ fs, same_layers (root_ st) fs ∨ replaced q d (root_ st) fs) l
}.

Lemma set_root_same st : set_root st (root_ st) = st.
Proof. by destruct st. Qed.

Lemma replaced_unchanged fs q d : layer_file fs q = Some d → replaced q d fs fs.
Proof. intros H p. by case_decide; subst. Qed.

Lemma CommitIfNeeded_spec f st q d :
  let '(l, st', w') := CommitIfNeeded f st (mkWriter q d false false) in
  ∃ o, commit_spec q d st st' l o ∧ w' = mkWriter q d true (bool_decide (o = kFailed)).
Proof.
  unfold CommitIfNeeded. cbn [committed_ failed_ orb query_ buffer_].
  set (replace := let '(l, fs, replaced) := ReplaceLayerFile f q d (root_ st) in _).
  assert (let '(l, st', w') := replace in
    ∃ o, commit_spec q d st st' l o ∧ w' = mkWriter q d true (bool_decide (o = kFailed)))
    as Hreplace.
  { subst replace. pose proof (ReplaceLayerFile_replaces f q d (root_ st)) as H.
    destruct (ReplaceLayerFile f q d (root_ st)) as [[l fs] []]; cbn [negb].
    - exists kWritten. split; [|done]. destruct H as (before & -> & Hb & Hr).
      split; simpl; autorewrite with app; try done.
      apply list.Forall_app. split; [|constructor; [by right|constructor]].
      eapply list.Forall_impl; [exact Hb|]. auto.
    - exists kFailed. split; [|done]. destruct H as [Hb Hr].
      split; simpl; autorewrite with app; try done.
      eapply list.Forall_impl; [exact Hb|]. auto. }
  assert (∀ e, layer_file (root_ st) q = Some e → e = d →
    ∃ o, commit_spec q d st (RecordLayerCommit st kSkippedUnchanged 0) [] o ∧
      mkWriter q d true false = mkWriter q d true (bool_decide (o = kFailed))) as Hskip.
  { intros e He ->. exists kSkippedUnchanged. split; [|done].
    split; simpl; autorewrite with app; rewrite ?set_root_same; try done.
    by apply replaced_unchanged. }
  unfold ReadExistingLayerFile. destruct (layer_file (root_ st) q) as [e|] eqn:E; [|done].
  destruct (exists_fails f); [done|].
  assert (∃ o, commit_spec q d st (RecordLayerCommit st kFailed 0) [] o ∧
    mkWriter q d true true = mkWriter q d true (bool_decide (o = kFailed))) as Hfail.
  { exists kFailed. split; [|done]. split; simpl; autorewrite with app;
    rewrite ?set_root_same; done. }
  destruct (irregular f); [done|]. destruct (read_open_fails f); [done|].
  destruct (bool_decide_reflect (e = [])) as [->|Hne].
  - destruct (bool_decide_reflect ([] = d)) as [Hd|]; [by apply (Hskip [])|done].
  - destruct (read_fails f); [done|].
    destruct (bool_decide_reflect (e = d)) as [Hd|]; [by apply (Hskip e)|done].
Qed.

(** ** A layer is stored *)

Lemma write_all_spec st q b chunks :
  let '(st', w) := write_all st (mkWriter q b false false) chunks in
  w = mkWriter q (b ++ concat chunks) false false ∧ root_ st' = root_ st ∧
  save_session_active_ st' = save_session_active_ st ∧
  save_session_had_failure_ st' = save_session_had_failure_ st ∧
  layer_store_calls (save_session_stats_ st') = layer_store_calls (save_session_stats_ st) ∧
  layers_written (save_session_stats_ st') = layers_written (save_session_stats_ st) ∧
  layers_skipped_unchanged (save_session_stats_ st') =
    layers_skipped_unchanged (save_session_stats_ st) ∧
  layers_failed_commits (save_session_stats_ st') =
    layers_failed_commits (save_session_stats_ st).
Proof.
  revert st b. induction chunks as [|d ds IH]; intros st b; simpl.
  { by rewrite app_nil_r. }
  specialize (IH (RecordLayerBytesAccepted st (zlen d)) (b ++ d)).
  destruct (write_all _ _ ds) as [st' w]. rewrite app_assoc.
  destruct IH as (-> & -> & -> & -> & -> & -> & -> & ->).
  unfold RecordLayerBytesAccepted. by destruct (save_session_active_ st) eqn:E; simpl; rewrite ?E.
Qed.

(** The counters that a commit with a given outcome increments. *)
Definition counted (o : LayerCommitOutcome) (s s' : DirectoryDomainStorageStoreStats) : Prop :=
  layer_store_calls s' = u64 (layer_store_calls s + 1) ∧
  layers_written s' =
    (if decide (o = kWritten) then u64 (layers_written s + 1) else layers_written s) ∧
  layers_skipped_unchanged s' =
    (if decide (o = kSkippedUnchanged) then u64 (layers_skipped_unchanged s + 1)
     else layers_skipped_unchanged s) ∧
  layers_failed_commits s' =
    (if decide (o = kFailed) then u64 (layers_failed_commits s + 1)
     else layers_failed_commits s).

Lemma count_commit_counted s o n : o ≠ kNone → counted o s (count_commit s o n).
Proof. intros Ho. by destruct o. Qed.

(** What storing a layer does: its outcome, the files, the failure flag and counters. *)
Record store_spec (q : DomainQuery) (d : bytes) (st st' : DirectoryDomainStorage)
    (l : list Files) (o : LayerCommitOutcome) : Prop := {
  store_outcome : last_layer_commit_ st' = o ∧ o ≠ kNone;
  store_files : if decide (o = kFailed) then same_layers (root_ st) (root_ st')
    else replaced q d (root_ st) (root_ st');
  store_states : Forall (λ fs, same_layers (root_ st) fs ∨ replaced q d (root_ st) fs) l;
  store_unchanged : o = kSkippedUnchanged → l = [];
  store_active : save_session_active_ st' = save_session_active_ st;
  store_failure : save_session_had_failure_ st' =
    save_session_had_failure_ st || bool_decide (o = kFailed);
  store_counted : save_session_active_ st = true →
    counted o (save_session_stats_ st) (save_session_stats_ st')
}.

Lemma StoreLayer_spec f st q chunks :
  let '(l, st') := StoreLayer f st q chunks in
  ∃ o, store_spec q (concat chunks) st st' l o.
Proof.
  unfold StoreLayer, Directory_Store. pose proof (write_all_spec st q [] chunks) as H.
  destruct (write_all st (mkWriter q [] false false) chunks) as [st1 w].
  destruct H as (-> & Hroot & Hact & Hfail & Hc1 & Hc2 & Hc3 & Hc4). simpl.
  pose proof (CommitIfNeeded_spec f st1 q (concat chunks)) as H.
  destruct (CommitIfNeeded f st1 _) as [[l st'] w'].
  destruct H as (o & [Hst Ho Hsk Hf Hs] & _). exists o.
  rewrite Hroot in Hf, Hs.
  split; try done.
  - rewrite Hst. by autorewrite with app.
  - intros E. by apply Hsk.
  - rewrite Hst. autorewrite with app. by simpl.
  - rewrite Hst. autorewrite with app. simpl. by rewrite Hfail.
  - intros Ha. rewrite Hst, RecordLayerCommit_stats by (simpl; by rewrite Hact).
    destruct (count_commit_counted (save_session_stats_ st1) o
      (if decide (o = kWritten) then zlen (concat chunks) else 0) Ho) as (E1 & E2 & E3 & E4).
    unfold counted. simpl. rewrite E1, E2, E3, E4, Hc1, Hc2, Hc3, Hc4. done.
Qed.

(** C12. A layer is replaced as a whole or not at all: whichever calls of the file system
    fail during a store, and wherever it is interrupted, every other layer is on disk as it was
    and the layer holds either what it held or exactly the bytes stored; after a
    store that did not fail it holds the bytes stored; and storing what is there already
    touches no file. *)
Theorem StoreLayer_atomic f st q chunks l st'
    (Hs : StoreLayer f st q chunks = (l, st')) :
  (∀ fs, fs ∈ l ∨ fs = root_ st' →
    (layer_file fs q = layer_file (root_ st) q ∨ layer_file fs q = Some (concat chunks)) ∧
    ∀ p, p ≠ q → layer_file fs p = layer_file (root_ st) p) ∧
  (last_layer_commit_ st' ≠ kFailed → layer_file (root_ st') q = Some (concat chunks)) ∧
  (last_layer_commit_ st' = kFailed → same_layers (root_ st) (root_ st') ∧
     SaveSessionHadFailure st' = true) ∧
  (last_layer_commit_ st' = kSkippedUnchanged → l = []).
Proof.
  pose proof (StoreLayer_spec f st q chunks) as H. rewrite Hs in H.
  destruct H as (o & [[Ho Hn] Hf Hl Hu _ Hfail _]).
  assert (∀ fs, same_layers (root_ st) fs ∨ replaced q (concat chunks) (root_ st) fs →
    (layer_file fs q = layer_file (root_ st) q ∨ layer_file fs q = Some (concat chunks)) ∧
    ∀ p, p ≠ q → layer_file fs p = layer_file (root_ st) p) as Hsr.
  { intros fs [H|H]; split.
    - left. apply H.
    - intros p _. apply H.
    - right. rewrite (H q). by rewrite decide_True.
    - intros p Hp. rewrite (H p). by rewrite decide_False. }
  rewrite Ho. split; [|split; [|split; [|done]]].
  - intros fs [Hin| ->]; apply Hsr.
    + rewrite list.Forall_forall in Hl. by apply Hl.
    + case_decide; auto.
  - intros Hne. rewrite decide_False in Hf by done. rewrite (Hf q). by rewrite decide_True.
  - intros ->. rewrite decide_True in Hf by done. split; [done|].
    unfold SaveSessionHadFailure. rewrite Hfail. by rewrite orb_true_r.
Qed.

(** ** A save session *)

Record LayerStore := mkLayerStore {
  ls_faults : Faults;
  ls_query : DomainQuery;
  ls_chunks : list bytes
}.
Definition ls_bytes (x : LayerStore) : bytes := concat (ls_chunks x).

Definition store_all (st : DirectoryDomainStorage) (xs : list LayerStore)
    : DirectoryDomainStorage :=
  foldl (λ st x, (StoreLayer (ls_faults x) st (ls_query x) (ls_chunks x)).2) st xs.

(** The last bytes stored as the layer [q], if any. *)
Fixpoint last_stored (q : DomainQuery) (xs : list LayerStore) : option bytes :=
  match xs with
  | [] => None
  | x :: xs =>
      match last_stored q xs with
      | Some d => Some d
      | None => if decide (ls_query x = q) then Some (ls_bytes x) else None
      end
  end.

Definition commits (s : DirectoryDomainStorageStoreStats) : Z :=
  layers_written s + layers_skipped_unchanged s + layers_failed_commits s.

(** Counters that have not wrapped. *)
Record stats_ok (st : DirectoryDomainStorage) (n : Z) : Prop := {
  stats_active : save_session_active_ st = true;
  stats_calls : layer_store_calls (save_session_stats_ st) = n;
  stats_sum : commits (save_session_stats_ st) = n;
  stats_written : 0 ≤ layers_written (save_session_stats_ st);
  stats_skipped : 0 ≤ layers_skipped_unchanged (save_session_stats_ st);
  stats_failed : 0 ≤ layers_failed_commits (save_session_stats_ st);
  stats_failure : save_session_had_failure_ st = true ↔
    0 < layers_failed_commits (save_session_stats_ st)
}.

Lemma stats_ok_step st st' q d l o n :
  store_spec q d st st' l o → stats_ok st n → n + 1 < 2 ^ 64 → stats_ok st' (n + 1).
Proof.
  intros [[_ Hnone] _ _ _ Hact Hfail Hc] [Ha Hn Hsum Hw Hsk Hf Hfl] Hb.
  destruct (Hc Ha) as (E1 & E2 & E3 & E4). unfold commits in *.
  assert (∀ x, 0 ≤ x ≤ n → u64 (x + 1) = x + 1) as Hu.
  { intros x Hx. apply u64_small. unfold is_u64. lia. }
  rewrite Hn, Hu in E1 by lia.
  split; [congruence|done|..]; unfold commits; rewrite ?E2, ?E3, ?E4, ?Hfail;
    destruct o; simpl; rewrite ?orb_false_r, ?orb_true_r; try done; rewrite ?Hu by lia; try lia.
Qed.

Lemma store_all_stats st xs n :
  stats_ok st n → n + zlen xs < 2 ^ 64 → stats_ok (store_all st xs) (n + zlen xs).
Proof.
  revert st n. induction xs as [|x xs IH]; intros st n Hok Hb; simpl.
  { by rewrite zlen_nil, Z.add_0_r. }
  pose proof (StoreLayer_spec (ls_faults x) st (ls_query x) (ls_chunks x)) as H.
  destruct (StoreLayer _ _ _ _) as [l st1]. destruct H as [o H]. simpl.
  rewrite zlen_cons in *. pose proof (zlen_nonneg xs). rewrite Z.add_assoc in *.
  apply IH; [|done]. eapply stats_ok_step; [done..|lia].
Qed.

Lemma store_all_failure st xs :
  save_session_had_failure_ st = true → save_session_had_failure_ (store_all st xs) = true.
Proof.
  revert st. induction xs as [|x xs IH]; intros st Hf; simpl; [done|]. apply IH.
  pose proof (StoreLayer_spec (ls_faults x) st (ls_query x) (ls_chunks x)) as H.
  destruct (StoreLayer _ _ _ _) as [l st1]. destruct H as [o []]. simpl.
  by rewrite store_failure0, Hf.
Qed.

Lemma store_all_layers st xs q :
  save_session_had_failure_ (store_all st xs) = false →
  layer_file (root_ (store_all st xs)) q =
    match last_stored q xs with Some d => Some d | None => layer_file (root_ st) q end.
Proof.
  revert st. induction xs as [|x xs IH]; intros st Hf; simpl in *; [done|].
  pose proof (StoreLayer_spec (ls_faults x) st (ls_query x) (ls_chunks x)) as H.
  destruct (StoreLayer _ _ _ _) as [l st1]. destruct H as [o [_ Hfs _ _ _ Hfl _]]. simpl in *.
  rewrite IH by done. destruct (last_stored q xs) as [d|]; [done|].
  destruct (decide (o = kFailed)) as [->|Hn].
  { rewrite store_all_failure in Hf; [done|]. rewrite Hfl. apply orb_true_r. }
  rewrite (Hfs q). fold (ls_bytes x).
  destruct (decide (q = ls_query x)) as [->|]; [by rewrite decide_True|].
  by rewrite decide_False.
Qed.

(** A save session that reports no failure has saved everything: after
    [BeginSaveSession] and any stores, if [SaveSessionHadFailure] is false every layer
    stored holds the bytes stored for it last and no other layer has changed.  A failure
    is reported exactly when a commit failed, and the number of stores is the number of layers
    written, skipped as unchanged and failed. *)
Theorem save_session_complete st xs (Hb : zlen xs < 2 ^ 64) :
  let st' := store_all (BeginSaveSession st) xs in
  let stats := SnapshotSaveSessionStats st' in
  (SaveSessionHadFailure st' = false → ∀ q,
     layer_file (root_ st') q =
       match last_stored q xs with Some d => Some d | None => layer_file (root_ st) q end) ∧
  (SaveSessionHadFailure st' = true ↔ 0 < layers_failed_commits stats) ∧
  layer_store_calls stats = zlen xs ∧ commits stats = zlen xs.
Proof.
  cbv zeta. split.
  { intros Hf q. by rewrite store_all_layers. }
  assert (stats_ok (BeginSaveSession st) 0) as Hok by (split; try done; simpl; lia).
  destruct (store_all_stats _ xs 0 Hok) as [_ Hn Hs _ _ _ Hfl]; [lia|].
  split; [exact Hfl|]. rewrite Z.add_0_l in *. done.
Qed.

(** ** The directory as a storage *)

(** Every class directory holds a layer. *)
Definition clean (fs : Files) : Prop :=
  ∀ id c d, object_dir fs id !! c = Some d → ∃ v b, d !! Layer v = Some b.

Lemma layer_dirs fs q d :
  layer_file fs q = Some d →
  ∃ dir cd, fs !! q_id q = Some dir ∧ dir !! q_class q = Some cd ∧
    cd !! Layer (q_version q) = Some d.
Proof.
  unfold layer_file, class_dir, object_dir. intros H.
  destruct (fs !! q_id q) as [dir|]; simpl in H; [|by rewrite !lookup_empty in H].
  destruct (dir !! q_class q) as [cd|] eqn:E; simpl in H; [|by rewrite lookup_empty in H].
  eauto.
Qed.

Lemma Load_layer fs q d : Directory_Load true fs q = kLoaded d ↔ layer_file fs q = Some d.
Proof.
  unfold Directory_Load. split.
  - destruct (fs !! q_id q) as [dir|]; [|done]. case_bool_decide; [done|].
    destruct (layer_file fs q); [|done]. congruence.
  - intros H. destruct (layer_dirs fs q d H) as (dir & cd & -> & Hc & _).
    rewrite bool_decide_eq_false_2, H; [done|]. intros ->. by rewrite lookup_empty in Hc.
Qed.

Lemma Enumerate_layer fs id c :
  clean fs → c ∈ Directory_Enumerate fs id ↔ ∃ v d, layer_file fs (mkQuery id c v) = Some d.
Proof.
  intros Hcl. unfold Directory_Enumerate. rewrite elem_of_elements, elem_of_dom. split.
  - intros [cd Hd]. destruct (Hcl id c cd Hd) as (v & b & Hv). exists v, b.
    unfold layer_file, class_dir. simpl. by rewrite Hd.
  - intros (v & d & H). apply layer_dirs in H as (dir & cd & H1 & H2 & _).
    unfold object_dir. simpl in *. by rewrite H1.
Qed.

(** A layer is stored when nothing fails. *)
Definition store (fs : Files) (q : DomainQuery) (d : bytes) : Files :=
  root_ (StoreLayer no_faults (new_directory fs) q [d]).2.

Lemma store_done fs q d :
  replaced q d fs (store fs q d) ∧ touches (q_id q) (q_class q) fs (store fs q d).
Proof.
  assert (along (touches (q_id q) (q_class q)) (ReplaceLayerFile no_faults q d)) as Ht.
  { unfold ReplaceLayerFile, create_directories, put_file, remove_file, make_class_dir.
    simpl. along. apply touches_rename. }
  specialize (Ht fs).
  pose proof (ReplaceLayerFile_replaces no_faults q d fs) as Hr.
  destruct (ReplaceLayerFile_no_faults q d fs) as (l & fs' & E).
  rewrite E in Ht, Hr. destruct Ht as [_ Ht], Hr as (_ & _ & _ & Hr). simpl in Ht.
  unfold store, StoreLayer, CommitIfNeeded, ReadExistingLayerFile. simpl.
  assert (∀ e, layer_file fs q = Some e → e = d → replaced q d fs fs ∧
    touches (q_id q) (q_class q) fs fs) as Hskip.
  { intros e He ->. split; [by apply replaced_unchanged|reflexivity]. }
  destruct (layer_file fs q) as [e|] eqn:El; simpl.
  - case_bool_decide; simpl; case_bool_decide; simpl; try rewrite E; simpl;
      try done; eapply Hskip; eauto; congruence.
  - rewrite E. simpl. done.
Qed.

Lemma clean_store fs q d : clean fs → clean (store fs q d).
Proof.
  intros Hcl id c cd H. destruct (store_done fs q d) as [Hr [Ho Hc]].
  destruct (decide (id = q_id q)) as [->|Hn].
  - destruct (decide (c = q_class q)) as [->|Hnc].
    + specialize (Hr q). rewrite decide_True in Hr by done.
      exists (q_version q), d. unfold layer_file, class_dir in Hr. by rewrite H in Hr.
    + apply (Hcl (q_id q) c). by rewrite <-Hc.
  - apply (Hcl id c). unfold object_dir in *. by rewrite <-Ho.
Qed.

Lemma Load_store fs q d q' :
  Directory_Load true (store fs q d) q' =
    if decide (q' = q) then kLoaded d
    else match Directory_Load true fs q' with
         | kRemoved => if decide (q_id q' = q_id q) then kEmpty else kRemoved
         | l => l
         end.
Proof.
  destruct (store_done fs q d) as [Hr [Ho Hc]]. pose proof (Hr q') as Hq'.
  destruct (decide (q' = q)) as [->|Hn].
  { by apply Load_layer. }
  destruct (decide (q_id q' = q_id q)) as [Hid|Hid].
  - pose proof (Hr q) as Hq. rewrite decide_True in Hq by done.
    apply layer_dirs in Hq as (dir & cd & Hdir & Hcd & _).
    unfold Directory_Load. rewrite Hid, Hdir, Hq'.
    rewrite bool_decide_eq_false_2 by (intros ->; by rewrite lookup_empty in Hcd).
    destruct (fs !! q_id q) as [od|] eqn:E.
    + case_bool_decide as Hod; [|by destruct (layer_file fs q')].
      unfold layer_file, class_dir, object_dir. by rewrite Hid, E, Hod.
    + unfold layer_file, class_dir, object_dir. by rewrite Hid, E.
  - unfold Directory_Load. rewrite Hq', Ho by done.
    destruct (fs !! q_id q') as [od|]; [|done]. case_bool_decide; [done|].
    by destruct (layer_file fs q').
Qed.

(** Removing when no directory is stuck. *)
Definition remove (fs : Files) (id : Z) : Files := Directory_Remove (λ _, false) fs id.

Lemma remove_lookup fs id i : remove fs id !! i = if decide (i = id) then Some ∅ else fs !! i.
Proof.
  unfold remove, Directory_Remove. destruct (decide (i = id)) as [->|Hn].
  - destruct (fs !! id) as [dir|]; rewrite lookup_insert_eq; [|done].
    f_equal. apply map_empty. intros c. apply map_lookup_filter_None. by right.
  - destruct (fs !! id); by rewrite lookup_insert_ne.
Qed.

Lemma Load_remove fs id q :
  Directory_Load true (remove fs id) q =
    if decide (q_id q = id) then kRemoved else Directory_Load true fs q.
Proof.
  unfold Directory_Load, layer_file, class_dir, object_dir. rewrite remove_lookup.
  by case_decide.
Qed.

Lemma clean_remove fs id : clean fs → clean (remove fs id).
Proof.
  intros Hcl i c d H. unfold object_dir in H. rewrite remove_lookup in H.
  case_decide; [done|]. by apply (Hcl i c d).
Qed.

(** The directory behind the interface of a storage. *)
Record CleanDirectory := mkClean { files : Files; files_clean : clean files }.

#[export] Instance directory_storage : DomainStorage CleanDirectory := {|
  Store s q d := Some (mkClean (store (files s) q d) (clean_store _ q d (files_clean s)));
  Enumerate s id := Directory_Enumerate (files s) id;
  Load s q := Directory_Load true (files s) q;
  Remove s id := mkClean (remove (files s) id) (clean_remove _ id (files_clean s));
  CleanUp s := mkClean ∅ (λ id c d H, ltac:(by destruct id))
|}.

#[export] Instance directory_laws : StorageLaws CleanDirectory.
Proof.
  split; simpl.
  - intros s q d s' [= <-]. simpl. by rewrite Load_store, decide_True.
  - intros s q d s' q' [= <-] Hne. simpl. rewrite Load_store, decide_False by done.
    destruct (Directory_Load true (files s) q'); auto. case_decide; auto.
  - intros s id c. rewrite (Enumerate_layer _ _ _ (files_clean s)).
    by setoid_rewrite Load_layer.
  - intros s id q. apply Load_remove.
Qed.

(** The operations of a storage's client. *)
Inductive StorageOp :=
| OpStore (q : DomainQuery) (d : bytes)
| OpRemove (id : Z)
| OpCleanUp.

Definition storage_op {S} `{!DomainStorage S} (s : S) (op : StorageOp) : S :=
  match op with
  | OpStore q d => default s (Store s q d)
  | OpRemove id => Remove s id
  | OpCleanUp => CleanUp s
  end.

Import DemoStorage.

(** C13. The directory refines the storage it stands for, a map from objects to their
    layers or to a removal mark: after the same stores, removals and clean-ups, when no
    call of the file system fails, every load returns the same on both, and both
    enumerate the same classes of every object. *)
Theorem Directory_refines_storage (s : CleanDirectory) (m : DemoStorage.t) ops
    (Hsim : ∀ q, Load s q = Load m q) :
  let s' := foldl storage_op s ops in
  let m' := foldl storage_op m ops in
  (∀ q, Load s' q = Load m' q) ∧ (∀ id c : Z, c ∈ Enumerate s' id ↔ c ∈ Enumerate m' id).
Proof.
  cbv zeta. assert (∀ q, Load (foldl storage_op s ops) q = Load (foldl storage_op m ops) q) as Hl.
  { revert s m Hsim. induction ops as [|op ops IH]; intros s m Hsim; [exact Hsim|].
    apply IH. intros q'. destruct op as [q d|id|]; cbn [storage_op].
    - destruct (Store m q d) as [m1|] eqn:E; [|discriminate]. cbn [default Store directory_storage]; unfold id.
      destruct (decide (q' = q)) as [->|Hn].
      + rewrite (Load_Store_same m q d m1 E). apply (Load_Store_same s q d). done.
      + injection E as <-. simpl. rewrite Load_store, decide_False by done.
        simpl in Hsim. rewrite Hsim. destruct (decide (q_id q' = q_id q)) as [Hid|Hid].
        * rewrite Hid, lookup_insert_eq. rewrite lookup_insert_ne.
          2: { destruct q, q'; simpl in *. congruence. }
          unfold DemoStorage.layers.
          destruct (m !! q_id q) as [[lay|]|]; [|by rewrite lookup_empty..].
          by destruct (lay !! _).
        * rewrite (lookup_insert_ne m) by done.
          destruct (m !! q_id q') as [[lay|]|]; [by destruct (lay !! _)|done|done].
    - by rewrite !Load_Remove, Hsim.
    - done. }
  split; [done|]. intros id c. rewrite !Enumerate_Load.
  split; intros (v & d & H); exists v, d; [by rewrite <-Hl|by rewrite Hl].
Qed.

(** ** What was written is read back *)

(** Reads of the sizes that were written return what was written, in order. *)
Fixpoint read_all (r : Reader) (sizes : list Z) : list ReadResult :=
  match sizes with
  | [] => []
  | n :: sizes => let '(x, r) := Reader_Read r n in x :: read_all r sizes
  end.

Lemma read_all_written chunks rest :
  read_all (mkReader (concat chunks ++ rest) false) (zlen <$> chunks) =
    read_good <$> chunks.
Proof.
  induction chunks as [|d ds IH]; [done|]. cbn [concat fmap list_fmap read_all].
  unfold Reader_Read. cbn [eof_ rest_]. rewrite <-app_assoc.
  destruct (Z.ltb_spec (zlen (d ++ concat ds ++ rest)) (zlen d)) as [H|_].
  { rewrite zlen_app in H. pose proof (zlen_nonneg (concat ds ++ rest)). lia. }
  unfold zlen at 1 2. rewrite Nat2Z.id, take_app_length, drop_app_length.
  f_equal. exact IH.
Qed.

Lemma read_size_written size rest :
  is_u32 size →
  (Reader_ReadSize (mkReader (u32_bytes size ++ rest) false)) =
    (Some size, mkReader rest false).
Proof.
  intros Hs. unfold Reader_ReadSize, Reader_Read. cbn [eof_ rest_].
  assert (zlen (u32_bytes size) = 4) as Hl by by (unfold u32_bytes; autorewrite with app).
  destruct (Z.ltb_spec (zlen (u32_bytes size ++ rest)) 4) as [H|_].
  { rewrite zlen_app in H. pose proof (zlen_nonneg rest). lia. }
  change (Z.to_nat 4) with (length (u32_bytes size)).
  by rewrite take_app_length, drop_app_length, u32_value_bytes.
Qed.

(** A read past the end fails, and so does every later one. *)
Lemma Reader_past_end r n m :
  zlen (rest_ r) < n →
  let '(x, r') := Reader_Read r n in x = read_eof ∧ Reader_Read r' m = (read_eof, r').
Proof.
  intros H. unfold Reader_Read. destruct (eof_ r) eqn:E.
  - by rewrite E.
  - by destruct (Z.ltb_spec (zlen (rest_ r)) n); [|lia].
Qed.

(** ** InstrumentedDomainStorage *)

Record InstrumentedDomainStorageStats := mkInstrumentedStats {
  store_calls : Z;
  load_calls : Z;
  store_bytes_accepted : Z;
  load_bytes : Z;
  store_new_layers : Z;
  store_overwrite_layers : Z;
  store_skipped_unchanged_layers : Z;
  store_disk_bytes_written : Z;
  store_failed_commits : Z;
  store_obj_ids : gset Z
}.

(** The instrumented storage over a directory: [directory_inner_] and [layer_root_] are
    whether the constructor was given them. *)
Record InstrumentedDomainStorage := mkInstrumented {
  inner_ : DirectoryDomainStorage;
  directory_inner_ : bool;
  layer_root_ : bool;
  stats_ : InstrumentedDomainStorageStats
}.

Record InstrumentedWriter := mkInstrumentedWriter {
  inner_writer_ : Writer;
  layer_existed_ : bool;
  layer_bytes_accepted_ : Z
}.

Definition LayerVersionExistsOnDisk (st : InstrumentedDomainStorage) (q : DomainQuery) : bool :=
  if layer_root_ st then DirectoryDomainStorageLayerFileExists (root_ (inner_ st)) q
  else bool_decide (q_class q ∈ Directory_Enumerate (root_ (inner_ st)) (q_id q)).

Definition with_stats (st : InstrumentedDomainStorage) (inner : DirectoryDomainStorage)
    (s : InstrumentedDomainStorageStats) : InstrumentedDomainStorage :=
  mkInstrumented inner (directory_inner_ st) (layer_root_ st) s.

Definition Instrumented_Store (st : InstrumentedDomainStorage) (q : DomainQuery)
    : InstrumentedDomainStorage * InstrumentedWriter :=
  let existed := LayerVersionExistsOnDisk st q in
  let s := stats_ st in
  (with_stats st (inner_ st)
     (mkInstrumentedStats (u64 (store_calls s + 1)) (load_calls s) (store_bytes_accepted s)
        (load_bytes s) (store_new_layers s) (store_overwrite_layers s)
        (store_skipped_unchanged_layers s) (store_disk_bytes_written s)
        (store_failed_commits s) ({[q_id q]} ∪ store_obj_ids s)),
   mkInstrumentedWriter (Directory_Store q) existed 0).

Definition Instrumented_Write (st : InstrumentedDomainStorage) (w : InstrumentedWriter)
    (d : bytes) : bool * InstrumentedDomainStorage * InstrumentedWriter :=
  let '(result, inner, iw) := Writer_Write (inner_ st) (inner_writer_ w) d in
  let s := stats_ st in
  if result then
    (true,
     with_stats st inner
       (mkInstrumentedStats (store_calls s) (load_calls s)
          (u64 (store_bytes_accepted s + zlen d)) (load_bytes s) (store_new_layers s)
          (store_overwrite_layers s) (store_skipped_unchanged_layers s)
          (store_disk_bytes_written s) (store_failed_commits s) (store_obj_ids s)),
     mkInstrumentedWriter iw (layer_existed_ w) (u64 (layer_bytes_accepted_ w + zlen d)))
  else (false, with_stats st inner s, mkInstrumentedWriter iw (layer_existed_ w)
          (layer_bytes_accepted_ w)).

Definition count_outcome (s : InstrumentedDomainStorageStats) (o : LayerCommitOutcome)
    (existed : bool) (n : Z) : InstrumentedDomainStorageStats :=
  let with_counts new over skip disk failed :=
    mkInstrumentedStats (store_calls s) (load_calls s) (store_bytes_accepted s)
      (load_bytes s) new over skip disk failed (store_obj_ids s) in
  match o with
  | kSkippedUnchanged =>
      with_counts (store_new_layers s) (store_overwrite_layers s)
        (u64 (store_skipped_unchanged_layers s + 1)) (store_disk_bytes_written s)
        (store_failed_commits s)
  | kWritten =>
      with_counts
        (if existed then store_new_layers s else u64 (store_new_layers s + 1))
        (if existed then u64 (store_overwrite_layers s + 1) else store_overwrite_layers s)
        (store_skipped_unchanged_layers s) (u64 (store_disk_bytes_written s + n))
        (store_failed_commits s)
  | kFailed =>
      with_counts (store_new_layers s) (store_overwrite_layers s)
        (store_skipped_unchanged_layers s) (store_disk_bytes_written s)
        (u64 (store_failed_commits s + 1))
  | kNone => s
  end.

(** The destructor of the writer. *)
Definition Instrumented_Close (f : Faults) (st : InstrumentedDomainStorage)
    (w : InstrumentedWriter) : InstrumentedDomainStorage :=
  let '(_, inner, _) := CommitIfNeeded f (inner_ st) (inner_writer_ w) in
  let '(outcome, inner) :=
    if directory_inner_ st then TakeLastLayerCommitOutcome inner else (kNone, inner) in
  with_stats st inner
    (count_outcome (stats_ st) outcome (layer_existed_ w) (layer_bytes_accepted_ w)).

Definition Instrumented_Load (opens : bool) (st : InstrumentedDomainStorage) (q : DomainQuery)
    : DomainLoad * InstrumentedDomainStorage :=
  let load := Directory_Load opens (root_ (inner_ st)) q in
  let s := stats_ st in
  (load,
   match load with
   | kLoaded _ =>
       with_stats st (inner_ st)
         (mkInstrumentedStats (store_calls s) (u64 (load_calls s + 1))
            (store_bytes_accepted s) (load_bytes s) (store_new_layers s)
            (store_overwrite_layers s) (store_skipped_unchanged_layers s)
            (store_disk_bytes_written s) (store_failed_commits s) (store_obj_ids s))
   | _ => st
   end).

(** [InstrumentedStorageReader::Read(DataReadTag)] *)
Definition Instrumented_Read (st : InstrumentedDomainStorage) (r : Reader) (n : Z)
    : ReadResult * InstrumentedDomainStorage * Reader :=
  let '(result, r) := Reader_Read r n in
  let s := stats_ st in
  (result,
   match result with
   | read_good _ =>
       with_stats st (inner_ st)
         (mkInstrumentedStats (store_calls s) (load_calls s) (store_bytes_accepted s)
            (u64 (load_bytes s + n)) (store_new_layers s) (store_overwrite_layers s)
            (store_skipped_unchanged_layers s) (store_disk_bytes_written s)
            (store_failed_commits s) (store_obj_ids s))
   | read_eof => st
   end, r).

(** One layer stored through the instrumented storage. *)
Fixpoint instrumented_writes (st : InstrumentedDomainStorage) (w : InstrumentedWriter)
    (chunks : list bytes) : InstrumentedDomainStorage * InstrumentedWriter :=
  match chunks with
  | [] => (st, w)
  | d :: ds => let '(_, st, w) := Instrumented_Write st w d in instrumented_writes st w ds
  end.

Definition instrumented_layer (f : Faults) (st : InstrumentedDomainStorage) (q : DomainQuery)
    (chunks : list bytes) : InstrumentedDomainStorage :=
  let '(st, w) := Instrumented_Store st q in
  let '(st, w) := instrumented_writes st w chunks in
  Instrumented_Close f st w.

Lemma instrumented_writes_inner st w chunks :
  let '(st', w') := instrumented_writes st w chunks in
  let '(d, iw) := write_all (inner_ st) (inner_writer_ w) chunks in
  inner_ st' = d ∧ inner_writer_ w' = iw ∧ directory_inner_ st' = directory_inner_ st ∧
  layer_existed_ w' = layer_existed_ w.
Proof.
  revert st w. induction chunks as [|d ds IH]; intros st w; simpl; [done|].
  unfold Instrumented_Write. destruct (Writer_Write _ _ d) as [[[] inner] iw]; cbn beta iota;
    match goal with |- context [instrumented_writes ?st ?w ds] => specialize (IH st w) end;
    destruct (instrumented_writes _ _ ds); exact IH.
Qed.

(** Instrumentation changes nothing that is stored: the files and the session's counters
    are those of the directory alone, and the outcome of the commit is taken. *)
Lemma instrumented_layer_transparent f st q chunks :
  directory_inner_ st = true →
  inner_ (instrumented_layer f st q chunks) =
    (TakeLastLayerCommitOutcome (StoreLayer f (inner_ st) q chunks).2).2.
Proof.
  intros Hd. unfold instrumented_layer, StoreLayer. cbn [Instrumented_Store].
  pose proof (instrumented_writes_inner (Instrumented_Store st q).1
    (mkInstrumentedWriter (Directory_Store q) (LayerVersionExistsOnDisk st q) 0) chunks) as H.
  cbn [Instrumented_Store fst] in H.
  destruct (instrumented_writes _ _ chunks) as [st1 w]. simpl in H.
  destruct (write_all (inner_ st) (Directory_Store q) chunks) as [d iw].
  destruct H as (<- & <- & Hdi & _). unfold Instrumented_Close. rewrite Hdi, Hd.
  by destruct (CommitIfNeeded f (inner_ st1) (inner_writer_ w)) as [[l inner] w'].
Qed.

(** ** Examples *)

Module Examples.
Definition q1 := mkQuery 7 2 0.
Definition q2 := mkQuery 7 2 1.
Definition opened : DirectoryDomainStorage := new_directory ∅.

(** The disk fills up after two bytes: the temporary file is removed and nothing else
    is left but directories. *)
Definition disk_full : Faults :=
  mkFaults false false false false None false 2 true false false false.

Definition stored : DirectoryDomainStorage := (StoreLayer no_faults opened q1 [[1]; [2]]).2.
Definition overwritten := StoreLayer no_faults stored q1 [[3; 4; 5]].

Lemma StoreLayer_atomic_witness :
  last_layer_commit_ (overwritten.2) = kWritten ∧
  Forall (λ fs, layer_file fs q1 = Some [1; 2] ∨ layer_file fs q1 = Some [3; 4; 5])
    (overwritten.1) ∧
  length (overwritten.1) = 6%nat ∧
  layer_file (root_ (overwritten.2)) q1 = Some [3; 4; 5].
Proof.
  destruct (StoreLayer_atomic no_faults stored q1 [[3; 4; 5]] overwritten.1 overwritten.2)
    as (Hs & Hw & _).
  { vm_compute. reflexivity. }
  split; [vm_compute; reflexivity|]. split; [|split; [vm_compute; reflexivity|]].
  - apply list.Forall_forall. intros fs Hin. destruct (Hs fs (or_introl Hin)) as [[H|H] _].
    + left. rewrite H. vm_compute. reflexivity.
    + right. exact H.
  - apply Hw. vm_compute. discriminate.
Defined.

Definition session : list LayerStore :=
  [mkLayerStore no_faults q1 [[1]; [2]]; mkLayerStore no_faults q2 [[9]];
   mkLayerStore no_faults q1 [[1; 2]]].

Lemma save_session_complete_witness :
  SaveSessionHadFailure (store_all (BeginSaveSession opened) session) = false ∧
  layer_file (root_ (store_all (BeginSaveSession opened) session)) q1 = Some [1; 2] ∧
  commits (SnapshotSaveSessionStats (store_all (BeginSaveSession opened) session)) = 3 ∧
  layers_skipped_unchanged
    (SnapshotSaveSessionStats (store_all (BeginSaveSession opened) session)) = 1.
Proof.
  destruct (save_session_complete opened session) as (Hl & _ & _ & Hc).
  { vm_compute. reflexivity. }
  assert (SaveSessionHadFailure (store_all (BeginSaveSession opened) session) = false) as Hf
    by (vm_compute; reflexivity).
  split; [exact Hf|]. split; [|split; [exact Hc|vm_compute; reflexivity]].
  rewrite (Hl Hf q1). vm_compute. reflexivity.
Defined.

(** A failed store is reported. *)
Lemma failed_session :
  SaveSessionHadFailure (store_all (BeginSaveSession opened)
    [mkLayerStore disk_full q1 [[1; 2; 3]]]) = true.
Proof. vm_compute. reflexivity. Qed.

Lemma clean_empty : clean ∅.
Proof. intros id c d H. unfold object_dir in H. by rewrite lookup_empty in H. Qed.

Definition ops : list StorageOp :=
  [OpStore q1 [1; 2]; OpStore (mkQuery 8 2 0) [3]; OpRemove 7; OpStore q2 [4]].

Lemma Directory_refines_storage_witness :
  Load (foldl storage_op (mkClean ∅ clean_empty) ops) q2 = kLoaded [4] ∧
  Load (foldl storage_op (mkClean ∅ clean_empty) ops) q1 = kEmpty.
Proof.
  destruct (Directory_refines_storage (mkClean ∅ clean_empty) ∅ ops) as [Hl _].
  { intros q. reflexivity. }
  split; rewrite Hl; vm_compute; reflexivity.
Defined.

(** A first store of an object that is interrupted, or fails, before the directory of its
    class is made leaves an empty directory, which is how a removed object is
    represented. *)
Lemma interrupted_first_store_removes :
  ∃ fs, fs ∈ (StoreLayer no_faults opened q1 [[1]]).1 ∧ Directory_Load true fs q1 = kRemoved.
Proof.
  exists (make_object_dir 7 ∅). split; [|vm_compute; reflexivity].
  apply list_elem_of_lookup. exists 0%nat. vm_compute. reflexivity.
Qed.

(** A store that fails after the directories are made leaves a class without a layer,
    which [Enumerate] lists, and an object that was removed is not any more. *)
Lemma failed_store_unremoves :
  Directory_Load true (remove ∅ 7) q1 = kRemoved ∧
  Directory_Load true (root_ (StoreLayer disk_full (new_directory (remove ∅ 7)) q1 [[1; 2; 3]]).2)
    q1 = kEmpty ∧
  Directory_Enumerate
    (root_ (StoreLayer disk_full (new_directory (remove ∅ 7)) q1 [[1; 2; 3]]).2) 7 = [2].
Proof. split; [|split]; vm_compute; reflexivity. Qed.
End Examples.
