(* ===== verification/Publication.v ===== *)
(** * Publications

    Models the publication formats of src/object_serialization.cpp: how the layers of a
    saved object graph are written to a buffer and read back into the storage of the
    mirror, for initial, structural and incremental publications.

    Saving an object fills a scratch storage, which is done by the object library: the
    scratch storage is an argument ([RamState]) of the writing functions.  The mirror's
    Domain is the interface [UiSystem]. *)
From stdpp Require Import sorting.
From S2P Require Import Prelude NativeBytes PublicationChannel.
From S2P Require Import Aether DomainStorage StoredGraph.

(** ** Integers of a buffer *)

Definition write_u8 (out : bytes) (z : Z) : bytes := ByteSink.write out (native_bytes 1 z).
Definition write_u32 (out : bytes) (z : Z) : bytes := ByteSink.write out (u32_bytes z).
Definition write_u64 (out : bytes) (z : Z) : bytes := ByteSink.write out (u64_bytes z).

Definition read_integer (n : Z) (s : ByteSource) : Z * ByteSource :=
  let '(b, s) := read s n in (native_value b, s).
Definition read_u8 := read_integer 1.
Definition read_u32 := read_integer 4.
Definition read_u64 := read_integer 8.

(** [memcpy] over the four bytes at [at_]. *)
Definition patch_u32 (out : bytes) (at_ : nat) (z : Z) : bytes :=
  take at_ out ++ u32_bytes z ++ drop (at_ + 4) out.

(** [in.data + in.pos], [size], and the advance of [pos]. *)
Definition source_bytes (s : ByteSource) (size : Z) : bytes :=
  take (Z.to_nat size) (drop (Z.to_nat (pos s)) (data s)).
Definition advance (s : ByteSource) (size : Z) : ByteSource :=
  mkByteSource (data s) (u64 (pos s + size)) (ok s).
Definition new_source (d : bytes) : ByteSource := mkByteSource d 0 true.

(** ** Layers *)

Record Layer := mkLayer {
  layer_query : DomainQuery;
  layer_data : bytes
}.
#[export] Instance Layer_eq_dec : EqDecision Layer.
Proof. solve_decision. Defined.

(** The layers of one object of the scratch storage, in the order of iteration. *)
Definition class_layers (id : Z) (c : Z) (versions : Versions) : list Layer :=
  (λ e, mkLayer (mkQuery id c e.1) e.2) <$> map_to_list versions.
Definition object_layers (id : Z) (classes : Classes) : list Layer :=
  concat ((λ e, class_layers id e.1 e.2) <$> map_to_list classes).

(** ** The objects of the model's Domain *)

(** A live object: its class, and for a node its base and generation. *)
Record LiveObject := mkLive {
  live_class : Z;
  live_base : option Z;
  live_generation : Z
}.

Section writing.
Context {reg : AetherRegistry}.
(** [Domain::Find] of the Domain of the object that is written. *)
Context (Find : Z → option LiveObject).

(** [AsObjOf<Node>] *)
Definition AsNode (o : LiveObject) : option LiveObject :=
  if GenerationDistance Node_kClassId (live_class o) <? 0 then None else Some o.

(** ** SerializeObjectToBuffer *)

Definition write_saved_layer (out : bytes) (l : Layer) : bytes :=
  let out := write_u32 out (q_class (layer_query l)) in
  let out := write_u8 out (q_version (layer_query l)) in
  let out := write_u32 out (u32 (zlen (layer_data l))) in
  ByteSink.write out (layer_data l).

(** [None]: an assertion fails. *)
Definition AppendSavedObjectLayers (scratch : RamState) (id : Z) (out : bytes) : option bytes :=
  classes ← find_active scratch id;
  Some (foldl write_saved_layer out (object_layers id classes)).

Definition SerializeObjectToBuffer (scratch : RamState) (id : Z) (out : bytes) : option bytes :=
  AppendSavedObjectLayers scratch id out.

(** ** SerializeObjectGraphToBuffer *)

Definition write_layer (out : bytes) (l : Layer) : bytes :=
  let out := write_u32 out (q_id (layer_query l)) in
  write_saved_layer out l.

(** The bases of the nodes of the graph, which are not published. *)
Definition distilled_base_ids (scratch : RamState) : gset Z :=
  list_to_set (omap (λ e : Z * Classes, o ← Find e.1; n ← AsNode o; live_base n) (active scratch)).

(** One pass over the scratch storage: [write] appends the entries of an object and says
    how many; the count is written first and patched when they are known. *)
Definition write_counted (objects : list (Z * Classes))
    (write : bytes → Z * Classes → bytes * Z) (out : bytes) : bytes :=
  let count_at := length out in
  let out := write_u32 out 0 in
  let '(out, count) := foldl (λ '(out, count) e,
    let '(out, n) := write out e in (out, u32 (count + n))) (out, 0) objects in
  patch_u32 out count_at count.

Definition write_object_layers (out : bytes) (e : Z * Classes) : bytes * Z :=
  (foldl write_layer out (object_layers e.1 e.2), zlen (object_layers e.1 e.2)).

Definition write_generation (out : bytes) (e : Z * Classes) : bytes * Z :=
  match o ← Find e.1; AsNode o with
  | Some n => (write_u64 (write_u32 out e.1) (live_generation n), 1)
  | None => (out, 0)
  end.

Definition published (scratch : RamState) : list (Z * Classes) :=
  filter (λ e, e.1 ∉ distilled_base_ids scratch) (active scratch).

Definition SerializeObjectGraphToBuffer (scratch : RamState) (out : bytes) : bytes :=
  let out := write_counted (published scratch) write_object_layers out in
  write_counted (published scratch) write_generation out.

(** ** Envelopes *)

Definition SerializeInitialPublication (scratch : RamState) (root : Z) (out : bytes) : bytes :=
  SerializeObjectGraphToBuffer scratch (write_u32 out root).

Definition write_envelope (id generation : Z) (payload : bytes) (out : bytes) : bytes :=
  let out := write_u32 out id in
  let out := write_u64 out generation in
  let out := write_u32 out (u32 (zlen payload)) in
  ByteSink.write out payload.

Definition SerializeIncrementalNodePublication (scratch : RamState) (id generation : Z)
    (out : bytes) : option bytes :=
  payload ← SerializeObjectToBuffer scratch id [];
  Some (write_envelope id generation payload out).

(** [pending]: [TakeFrameRequestPendingPublication] of a desktop window. *)
Definition SerializeStructuralNodePublication (scratch : RamState) (id generation : Z)
    (pending : bool) (out : bytes) : bytes :=
  let payload := SerializeObjectGraphToBuffer scratch [] in
  write_u8 (write_envelope id generation payload out) (if pending then 1 else 0).
End writing.

(** ** The mirror's Domain *)

(** [ui_Find u id]: the class of the object [id] when the Domain has it;
    [ui_LoadExisting]: the factory loads the layers of an existing object into it;
    [ui_LoadRoot]: [DomainGraph::LoadRoot], which may create objects; both say whether they
    succeeded.  [ui_AdoptPublished u id g]: the node gets generation [g], no base and no
    journal. *)
Class UiSystem (U S : Type) := {
  ui_Find : U → Z → option Z;
  ui_LoadExisting : U → S → Z → bool * U;
  ui_LoadRoot : U → S → Z → bool * U;
  ui_AdoptPublished : U → Z → Z → U
}.

Section reading.
Context {reg : AetherRegistry} {U S : Type} `{!DomainStorage S, !UiSystem U S}.

(** [InjectObjectBytes]: whether the layer was accepted, and the storage. *)
Definition InjectObjectBytes (st : S) (l : Layer) : bool * S :=
  match Store st (layer_query l) (layer_data l) with
  | Some st => (true, st)
  | None => (false, st)
  end.

Definition FinalizeUiNodeState (u : U) (id generation : Z) : U :=
  match ui_Find (S := S) u id with
  | Some c => if GenerationDistance Node_kClassId c <? 0 then u
              else ui_AdoptPublished (S := S) u id generation
  | None => u
  end.

Definition LoadExistingObjectUnchecked (u : U) (st : S) (id : Z) : U :=
  match ui_Find (S := S) u id with
  | Some _ => (ui_LoadExisting u st id).2
  | None => u
  end.

(** ** Headers *)

Record LayerHeader := mkHeader { h_id : Z; h_class : Z; h_version : Z; h_size : Z }.

Definition read_layer_header (s : ByteSource) : LayerHeader * ByteSource :=
  let '(id, s) := read_u32 s in
  let '(c, s) := read_u32 s in
  let '(v, s) := read_u8 s in
  let '(size, s) := read_u32 s in
  (mkHeader id c v size, s).

Definition header_layer (h : LayerHeader) (s : ByteSource) : Layer :=
  mkLayer (mkQuery (h_id h) (h_class h) (h_version h)) (source_bytes s (h_size h)).

(** The payload of a header does not fit: [in.pos + size > in.size]. *)
Definition payload_overruns (h : LayerHeader) (s : ByteSource) : bool :=
  source_size s <? u64 (pos s + h_size h).

(** An identifier is noted once, where it first appears. *)
Definition note_id (ids : list Z) (id : Z) : list Z :=
  if bool_decide (id ∈ ids) then ids else ids ++ [id].

(** ** DeserializeObjectGraphFromBuffer

    [None]: an assertion fails. *)
Fixpoint read_graph_layers (n : nat) (s : ByteSource) (st : S) (ids : list Z)
    : option (ByteSource * S * list Z) :=
  match n with
  | O => Some (s, st, ids)
  | Datatypes.S n =>
      let '(h, s) := read_layer_header s in
      assert! ok s && negb (payload_overruns h s) ;;
      let '(_, st) := InjectObjectBytes st (header_layer h s) in
      read_graph_layers n (advance s (h_size h)) st (note_id ids (h_id h))
  end.

Fixpoint read_generations (n : nat) (s : ByteSource) (u : U) : option (ByteSource * U) :=
  match n with
  | O => Some (s, u)
  | Datatypes.S n =>
      let '(id, s) := read_u32 s in
      let '(generation, s) := read_u64 s in
      assert! ok s ;;
      read_generations n s (FinalizeUiNodeState u id generation)
  end.

Definition DeserializeObjectGraphFromBuffer (root : Z) (s : ByteSource) (u : U) (st : S)
    : option (ByteSource * U * S) :=
  let '(count, s) := read_u32 s in
  assert! ok s ;;
  '(s, st, ids) ← read_graph_layers (Z.to_nat count) s st [];
  let u := LoadExistingObjectUnchecked u st root in
  let u := foldl (λ u id, LoadExistingObjectUnchecked u st id) u ids in
  let '(count, s) := read_u32 s in
  assert! ok s ;;
  '(s, u) ← read_generations (Z.to_nat count) s u;
  Some (s, u, st).

(** ** DeserializeObjectFromBuffer

    Every turn of the loop reads a header of nine bytes; [fuel] bounds the turns, and
    [InjectSavedObjectLayers] gives it one for every byte.  The outer [None]: out of fuel;
    the inner [None]: an assertion fails. *)
Fixpoint inject_saved_layers (fuel : nat) (id end_ : Z) (s : ByteSource) (st : S)
    : option (option (ByteSource * S)) :=
  if end_ <=? pos s then Some (assert! pos s =? end_ ;; Some (s, st)) else
  match fuel with
  | O => None
  | Datatypes.S fuel =>
      let '(c, s) := read_u32 s in
      let '(v, s) := read_u8 s in
      let '(size, s) := read_u32 s in
      if ok s && (u64 (pos s + size) <=? end_) then
        let '(_, st) := InjectObjectBytes st (mkLayer (mkQuery id c v) (source_bytes s size)) in
        inject_saved_layers fuel id end_ (advance s size) st
      else Some None
  end.

Definition InjectSavedObjectLayers (id payload_size : Z) (s : ByteSource) (st : S)
    : option (option (ByteSource * S)) :=
  inject_saved_layers (Z.to_nat payload_size) id (u64 (pos s + payload_size)) s st.

Definition DeserializeObjectFromBuffer (id : Z) (s : ByteSource) (u : U) (st : S)
    : option (option (ByteSource * U * S)) :=
  r ← InjectSavedObjectLayers id (source_size s - pos s) s st;
  Some ('(s, st) ← r; Some (s, LoadExistingObjectUnchecked u st id, st)).

(** ** The envelopes of incremental and structural publications *)

(** The header and payload of an envelope; [None]: an assertion fails. *)
Definition read_envelope (s : ByteSource) : option (Z * Z * bytes * ByteSource) :=
  let '(id, s) := read_u32 s in
  let '(generation, s) := read_u64 s in
  let '(size, s) := read_u32 s in
  assert! ok s ;;
  assert! u64 (pos s + size) <=? source_size s ;;
  Some (id, generation, source_bytes s size, advance s size).

Definition ApplyIncrementalPublication (s : ByteSource) (u : U) (st : S)
    : option (option (ByteSource * U * S)) :=
  match read_envelope s with
  | None => Some None
  | Some (id, generation, payload, s) =>
      match ui_Find (S := S) u id with
      | None => Some None
      | Some _ =>
          r ← DeserializeObjectFromBuffer id (new_source payload) u st;
          Some ('(_, u, st) ← r; Some (s, FinalizeUiNodeState u id generation, st))
      end
  end.

(** The result has the sidecar byte. *)
Definition ApplyStructuralPublication (s : ByteSource) (u : U) (st : S)
    : option (ByteSource * U * S * Z) :=
  '(id, generation, payload, s) ← read_envelope s;
  _ ← ui_Find (S := S) u id;
  '(_, u, st) ← DeserializeObjectGraphFromBuffer id (new_source payload) u st;
  let u := FinalizeUiNodeState u id generation in
  if pos s <? source_size s then
    let '(sidecar, s) := read_u8 s in Some (s, u, st, sidecar)
  else Some (s, u, st, 0).

(** ** TryLoadInitialPublication *)

Inductive InitialPublicationLoadStage :=
| Ok
| ReadRootId
| ReadLayerCount
| ReadLayerHeader
| ReadLayerPayload
| InjectLayerBytes
| LoadRootStage
| LoadExistingObject
| ReadGenerationCount
| ReadGenerationEntry
| FinalFindRoot.

(** Without the fields that repeat what the factory reported. *)
Record InitialPublicationLoadDiagnostics := mkDiagnostics {
  stage : InitialPublicationLoadStage;
  d_root_id : Z;
  d_obj_id : Z;
  d_class_id : Z;
  d_version : Z;
  d_offset : Z;
  d_size : Z;
  d_layer_index : Z;
  d_layer_count : Z
}.

Definition at_header (stage : InitialPublicationLoadStage) (root count i : Z)
    (h : LayerHeader) (s : ByteSource) : InitialPublicationLoadDiagnostics :=
  mkDiagnostics stage root (h_id h) (h_class h) (h_version h) (u32 (pos s)) (h_size h) i count.

(** [ReadAndInjectPublicationLayers], after the count: the storage is changed on a failure
    as well. *)
Fixpoint read_publication_layers (n : nat) (root count i : Z) (s : ByteSource) (st : S)
    (ids : list Z) : S * (InitialPublicationLoadDiagnostics + ByteSource * list Z) :=
  match n with
  | O => (st, inr (s, ids))
  | Datatypes.S n =>
      let '(h, s) := read_layer_header s in
      if negb (ok s) then (st, inl (at_header ReadLayerHeader root count i h s))
      else if payload_overruns h s then (st, inl (at_header ReadLayerPayload root count i h s))
      else
        let '(accepted, st) := InjectObjectBytes st (header_layer h s) in
        if negb accepted then (st, inl (at_header InjectLayerBytes root count i h s))
        else read_publication_layers n root count (u32 (i + 1)) (advance s (h_size h)) st
               (note_id ids (h_id h))
  end.

Definition ReadAndInjectPublicationLayers (root : Z) (s : ByteSource) (st : S)
    : S * (InitialPublicationLoadDiagnostics + Z * ByteSource * list Z) :=
  let '(count, s) := read_u32 s in
  if negb (ok s)
  then (st, inl (mkDiagnostics ReadLayerCount root 0 0 0 (u32 (pos s)) 0 0 0))
  else
    let '(st, r) := read_publication_layers (Z.to_nat count) root count 0 s st [] in
    (st, match r with inl d => inl d | inr (s, ids) => inr (count, s, ids) end).

(** [classes.back()] of what the storage enumerates for an object. *)
Definition last_class (st : S) (id : Z) : Z := default 0 (list.last (Enumerate st id)).

(** One object is loaded again from the storage. *)
Definition reload_object (u : U) (st : S) (id : Z) : bool * U :=
  let '(found, u) :=
    match ui_Find (S := S) u id with
    | Some _ => (true, u)
    | None => ui_LoadRoot u st id
    end in
  if negb found then (false, u) else ui_LoadExisting u st id.

(** All of a list, stopping at the first that fails. *)
Fixpoint reload_objects (u : U) (st : S) (ids : list Z) : U * option Z :=
  match ids with
  | [] => (u, None)
  | id :: ids =>
      let '(loaded, u) := reload_object u st id in
      if loaded then reload_objects u st ids else (u, Some id)
  end.

(** The first object that cannot be loaded as a root. *)
Fixpoint probe_roots (u : U) (st : S) (ids : list Z) : U * option Z :=
  match ids with
  | [] => (u, None)
  | id :: ids =>
      let '(loaded, u) := ui_LoadRoot u st id in
      if loaded then probe_roots u st ids else (u, Some id)
  end.

(** The three passes: in order of appearance, in descending order, in order again. *)
Definition HydrateInjectedPublicationGraph (root count : Z) (ids : list Z) (u : U) (st : S)
    : U * option InitialPublicationLoadDiagnostics :=
  let failed stage id :=
    mkDiagnostics stage root (default 0 id)
      (match id with Some id => last_class st id | None => 0 end) 0 0 0 0 count in
  let '(loaded, u) := ui_LoadRoot u st root in
  if negb loaded then
    let '(u, id) := probe_roots u st ids in (u, Some (failed LoadRootStage id))
  else
    let '(u, r) := reload_objects u st (ids ++ merge_sort Z.ge ids ++ ids) in
    match r with
    | Some id => (u, Some (failed LoadExistingObject (Some id)))
    | None => (u, None)
    end.

Fixpoint read_publication_generations (n : nat) (root count i : Z) (s : ByteSource) (u : U)
    : U * (InitialPublicationLoadDiagnostics + ByteSource) :=
  match n with
  | O => (u, inr s)
  | Datatypes.S n =>
      let '(id, s) := read_u32 s in
      let '(generation, s) := read_u64 s in
      if negb (ok s)
      then (u, inl (mkDiagnostics ReadGenerationEntry root id 0 0 (u32 (pos s)) 0 i count))
      else read_publication_generations n root count (u32 (i + 1)) s
             (FinalizeUiNodeState u id generation)
  end.

(** The diagnostics are [Ok] exactly when the mirror's root is returned. *)
Definition TryLoadInitialPublication (s : ByteSource) (u : U) (st : S)
    : ByteSource * U * S * InitialPublicationLoadDiagnostics :=
  let '(root, s) := read_u32 s in
  if negb (ok s)
  then (s, u, st, mkDiagnostics ReadRootId 0 0 0 0 (u32 (pos s)) 0 0 0)
  else
    let '(st, layers) := ReadAndInjectPublicationLayers root s st in
    match layers with
    | inl d => (s, u, st, d)
    | inr (count, s, ids) =>
        let '(u, failure) := HydrateInjectedPublicationGraph root count ids u st in
        match failure with
        | Some d => (s, u, st, d)
        | None =>
            let '(n, s) := read_u32 s in
            if negb (ok s)
            then (s, u, st, mkDiagnostics ReadGenerationCount root 0 0 0 (u32 (pos s)) 0 0 count)
            else
              let '(u, r) := read_publication_generations (Z.to_nat n) root count 0 s u in
              match r with
              | inl d => (s, u, st, d)
              | inr s =>
                  let '(loaded, u) := ui_LoadRoot u st root in
                  (s, u, st, mkDiagnostics (if loaded then Ok else FinalFindRoot)
                               root 0 0 0 0 0 0 count)
              end
        end
    end.
End reading.
