(* ===== verification/PublicationTheory.v ===== *)
(** * Publications: round trips, and what truncation does

    The writers of Publication.v as pure encodings ([SerializeObjectGraphToBuffer_bytes]),
    the position of a reader as what it has left to read ([at_bytes]), and the theorems
    that relate the two. *)
From stdpp Require Import sorting.
From S2P Require Import Prelude NativeBytes PublicationChannel.
From S2P Require Import Aether DomainStorage StoredGraph Publication.

(** ** Encodings *)

Definition saved_layer_bytes (l : Layer) : bytes :=
  u32_bytes (q_class (layer_query l)) ++ native_bytes 1 (q_version (layer_query l)) ++
  u32_bytes (u32 (zlen (layer_data l))) ++ layer_data l.
Definition layer_bytes (l : Layer) : bytes :=
  u32_bytes (q_id (layer_query l)) ++ saved_layer_bytes l.
Definition generation_bytes (e : Z * Z) : bytes := u32_bytes e.1 ++ u64_bytes e.2.

(** A counted table. *)
Definition table_bytes {A} (f : A → bytes) (xs : list A) : bytes :=
  u32_bytes (u32 (zlen xs)) ++ concat (f <$> xs).

Lemma write_saved_layer_bytes out l : write_saved_layer out l = out ++ saved_layer_bytes l.
Proof.
  unfold write_saved_layer, write_u32, write_u8, ByteSink.write, saved_layer_bytes.
  by rewrite <-!app_assoc.
Qed.

Lemma write_layer_bytes out l : write_layer out l = out ++ layer_bytes l.
Proof.
  unfold write_layer. rewrite write_saved_layer_bytes.
  unfold write_u32, ByteSink.write, layer_bytes. by rewrite <-app_assoc.
Qed.

Lemma foldl_append {A} (write : bytes → A → bytes) (f : A → bytes) xs out :
  (∀ out x, write out x = out ++ f x) → foldl write out xs = out ++ concat (f <$> xs).
Proof.
  intros Hw. revert out. induction xs as [|x xs IH]; intros out; simpl.
  { by rewrite app_nil_r. }
  by rewrite IH, Hw, <-app_assoc.
Qed.

Lemma u32_add_l a b : u32 (u32 a + b) = u32 (a + b).
Proof. unfold u32. by rewrite Zplus_mod_idemp_l. Qed.

Lemma patch_u32_spec out rest z w :
  patch_u32 (out ++ u32_bytes w ++ rest) (length out) z = out ++ u32_bytes z ++ rest.
Proof.
  unfold patch_u32. rewrite take_app_length. f_equal. f_equal.
  rewrite <-drop_drop, drop_app_length.
  change 4%nat with (length (u32_bytes w)). by rewrite drop_app_length.
Qed.

(** The count is patched to the number of entries. *)
Lemma write_counted_bytes {A} (entries : Z * Classes → list A) (f : A → bytes) objects write out :
  (∀ out e, write out e = (out ++ concat (f <$> entries e), zlen (entries e))) →
  write_counted objects write out = out ++ table_bytes f (concat (entries <$> objects)).
Proof.
  intros Hw. unfold write_counted.
  assert (∀ done count,
    foldl (λ '(out, count) e, let '(out, n) := write out e in (out, u32 (count + n)))
      (done, u32 count) objects =
    (done ++ concat (f <$> concat (entries <$> objects)),
     u32 (count + zlen (concat (entries <$> objects))))) as H.
  { induction objects as [|e es IH]; intros done count; simpl.
    { by rewrite app_nil_r, zlen_nil, Z.add_0_r. }
    rewrite Hw, u32_add_l, IH. rewrite fmap_app, concat_app, zlen_app, <-app_assoc.
    by rewrite Z.add_assoc. }
  rewrite (H _ 0). unfold write_u32, ByteSink.write. rewrite <-app_assoc, patch_u32_spec.
  by rewrite Z.add_0_l.
Qed.

Section encodings.
Context {reg : AetherRegistry} (Find : Z → option LiveObject).

(** The layers and the generations of a graph publication. *)
Definition published_layers (scratch : RamState) : list Layer :=
  concat ((λ e, object_layers e.1 e.2) <$> published Find scratch).
Definition object_generation (e : Z * Classes) : list (Z * Z) :=
  match o ← Find e.1; AsNode o with
  | Some n => [(e.1, live_generation n)]
  | None => []
  end.
Definition published_generations (scratch : RamState) : list (Z * Z) :=
  concat (object_generation <$> published Find scratch).

Lemma write_object_layers_bytes out e :
  write_object_layers out e =
    (out ++ concat (layer_bytes <$> object_layers e.1 e.2), zlen (object_layers e.1 e.2)).
Proof.
  unfold write_object_layers. f_equal. apply foldl_append. apply write_layer_bytes.
Qed.

Lemma write_generation_bytes out e :
  write_generation Find out e =
    (out ++ concat (generation_bytes <$> object_generation e), zlen (object_generation e)).
Proof.
  unfold write_generation, object_generation. destruct (o ← Find e.1; AsNode o) as [n|];
    cbn [concat fmap list_fmap].
  - unfold write_u64, write_u32, ByteSink.write, generation_bytes. cbn [fst snd].
    by rewrite app_nil_r, <-app_assoc.
  - by rewrite app_nil_r.
Qed.

Definition graph_bytes (scratch : RamState) : bytes :=
  table_bytes layer_bytes (published_layers scratch) ++
  table_bytes generation_bytes (published_generations scratch).

Lemma SerializeObjectGraphToBuffer_bytes scratch out :
  SerializeObjectGraphToBuffer Find scratch out = out ++ graph_bytes scratch.
Proof.
  unfold SerializeObjectGraphToBuffer.
  rewrite (write_counted_bytes object_generation generation_bytes) by apply write_generation_bytes.
  rewrite (write_counted_bytes (λ e, object_layers e.1 e.2) layer_bytes)
    by apply write_object_layers_bytes.
  by rewrite <-app_assoc.
Qed.

Lemma SerializeInitialPublication_bytes scratch root :
  SerializeInitialPublication Find scratch root [] = u32_bytes root ++ graph_bytes scratch.
Proof. unfold SerializeInitialPublication. by rewrite SerializeObjectGraphToBuffer_bytes. Qed.
End encodings.

(** ** Where a reader is *)

(** A source that has not failed, with [r] left to read. *)
Definition at_bytes (s : ByteSource) (r : bytes) : Prop :=
  ok s = true ∧ zlen (data s) < 2 ^ 63 ∧
  ∃ before, data s = before ++ r ∧ pos s = zlen before.

Lemma at_new_source d : zlen d < 2 ^ 63 → at_bytes (new_source d) d.
Proof. intros. split; [done|]. split; [done|]. by exists []. Qed.

Lemma at_bytes_left s r : at_bytes s r → source_size s = pos s + zlen r.
Proof.
  intros (_ & _ & before & Hd & ->). unfold source_size. by rewrite Hd, zlen_app.
Qed.

Lemma at_bytes_bounds s r : at_bytes s r → 0 ≤ pos s ∧ 0 ≤ zlen r ∧ pos s + zlen r < 2 ^ 63.
Proof.
  intros H. pose proof (at_bytes_left s r H) as Hl. destruct H as (_ & Hb & before & _ & Hp).
  pose proof (zlen_nonneg before). pose proof (zlen_nonneg r).
  unfold source_size in Hl. lia.
Qed.

Lemma pos_add s r n : at_bytes s r → 0 ≤ n < 2 ^ 63 → u64 (pos s + n) = pos s + n.
Proof.
  intros H Hn. destruct (at_bytes_bounds s r H) as (? & ? & ?). apply u64_small.
  unfold is_u64. lia.
Qed.

Lemma at_advance s b r : at_bytes s (b ++ r) → at_bytes (advance s (zlen b)) r.
Proof.
  intros H. pose proof (at_bytes_bounds s _ H) as Hb. rewrite zlen_app in Hb.
  pose proof (zlen_nonneg b). pose proof (zlen_nonneg r).
  destruct H as (Hok & Hlen & before & Hd & Hp). split; [done|]. split; [done|].
  exists (before ++ b). unfold advance. simpl. split; [by rewrite Hd, app_assoc|].
  rewrite zlen_app, <-Hp. apply u64_small. unfold is_u64. lia.
Qed.

Lemma at_source_bytes s b r : at_bytes s (b ++ r) → source_bytes s (zlen b) = b.
Proof.
  intros (_ & _ & before & Hd & Hp). unfold source_bytes. rewrite Hp, Hd.
  unfold zlen. rewrite !Nat2Z.id. by rewrite drop_app_length, take_app_length.
Qed.

Lemma read_at s b r :
  at_bytes s (b ++ r) → read s (zlen b) = (b, advance s (zlen b)).
Proof.
  intros H. pose proof (at_bytes_left s _ H) as Hl. pose proof (at_bytes_bounds s _ H) as Hb.
  rewrite zlen_app in *. pose proof (zlen_nonneg b). pose proof (zlen_nonneg r).
  pose proof (at_source_bytes s b r H) as Hs.
  unfold read. destruct H as (Hok & H). rewrite Hok. simpl.
  rewrite u64_small by (unfold is_u64; lia).
  destruct (Z.ltb_spec (source_size s) (pos s + zlen b)); [lia|].
  unfold source_bytes in Hs. rewrite Hs. unfold advance.
  by rewrite u64_small, Hok by (unfold is_u64; lia).
Qed.

Lemma read_short s r n :
  at_bytes s r → zlen r < n → n < 2 ^ 63 → ok (read s n).2 = false.
Proof.
  intros H Hn Hn'. pose proof (at_bytes_left s r H) as Hl. pose proof (zlen_nonneg r).
  unfold read. rewrite (pos_add s r n H) by lia. destruct H as [-> _]. simpl.
  by destruct (Z.ltb_spec (source_size s) (pos s + n)); [|lia].
Qed.

Lemma read_not_ok s n : ok s = false → ok (read s n).2 = false.
Proof. intros H. unfold read. by rewrite H. Qed.

Lemma read_integer_at s n z r :
  at_bytes s (native_bytes n z ++ r) →
  ∃ s', read_integer (Z.of_nat n) s = (z mod 2 ^ (8 * Z.of_nat n), s') ∧ at_bytes s' r.
Proof.
  intros H. pose proof (read_at s _ r H) as Hr. pose proof (at_advance s _ r H) as Ha.
  rewrite native_bytes_zlen in *. unfold read_integer. rewrite Hr, native_value_bytes. eauto.
Qed.

Lemma read_u32_at s z r :
  is_u32 z → at_bytes s (u32_bytes z ++ r) → ∃ s', read_u32 s = (z, s') ∧ at_bytes s' r.
Proof.
  intros Hz H. destruct (read_integer_at s 4 z r H) as (s' & E & Hs). exists s'.
  split; [|done].
  unfold read_u32. replace 4 with (Z.of_nat 4) by done. rewrite E. f_equal.
  change (2 ^ (8 * Z.of_nat 4)) with (2 ^ 32). by apply u32_small.
Qed.

Lemma read_u64_at s z r :
  is_u64 z → at_bytes s (u64_bytes z ++ r) → ∃ s', read_u64 s = (z, s') ∧ at_bytes s' r.
Proof.
  intros Hz H. destruct (read_integer_at s 8 z r H) as (s' & E & Hs). exists s'.
  split; [|done]. unfold read_u64. replace 8 with (Z.of_nat 8) by done. rewrite E. f_equal.
  change (2 ^ (8 * Z.of_nat 8)) with (2 ^ 64). by apply u64_small.
Qed.

Lemma read_u8_at s z r :
  is_u8 z → at_bytes s (native_bytes 1 z ++ r) → ∃ s', read_u8 s = (z, s') ∧ at_bytes s' r.
Proof.
  intros Hz H. destruct (read_integer_at s 1 z r H) as (s' & E & Hs). exists s'.
  split; [|done]. unfold read_u8. replace 1 with (Z.of_nat 1) by done. rewrite E. f_equal.
  change (2 ^ (8 * Z.of_nat 1)) with (2 ^ 8). apply Z.mod_small. exact Hz.
Qed.

(** ** A source that was cut

    [cut p e]: [p] is what is left of the encoding [e] after bytes at its end are lost. *)
Definition cut (p e : bytes) : Prop := ∃ k, k ≠ [] ∧ e = p ++ k.

Lemma cut_app p b e : cut p (b ++ e) → zlen p < zlen b ∨ ∃ p', p = b ++ p' ∧ cut p' e.
Proof.
  intros (k & Hk & E). destruct (decide (length p < length b)%nat) as [Hl|Hl].
  { left. unfold zlen. lia. }
  right. exists (drop (length b) p).
  assert (take (length b) p = b) as Hb.
  { rewrite <-(take_app_le p k) by lia. rewrite <-E. apply take_app_length. }
  split; [by rewrite <-Hb at 1; rewrite take_drop|].
  exists k. split; [done|]. rewrite <-(drop_app_le p k) by lia. rewrite <-E.
  by rewrite drop_app_length.
Qed.

Lemma cut_nil p : ¬ cut p [].
Proof. intros (k & Hk & E). symmetry in E. by apply app_eq_nil in E as [_ ->]. Qed.

Lemma read_integer_not_ok n s : ok s = false → ok (read_integer n s).2 = false.
Proof.
  intros H. unfold read_integer. pose proof (read_not_ok s n H).
  by destruct (read s n).
Qed.

(** A read of a cut source fails, or reads the integer that was written. *)
Lemma read_integer_cut s n z p e :
  at_bytes s p → cut p (native_bytes n z ++ e) → Z.of_nat n < 2 ^ 63 →
  ok (read_integer (Z.of_nat n) s).2 = false ∨
  ∃ p', at_bytes s (native_bytes n z ++ p') ∧ cut p' e.
Proof.
  intros Hs Hc Hn. destruct (cut_app p _ e Hc) as [Hl|(p' & -> & Hc')]; [left|eauto].
  rewrite native_bytes_zlen in Hl. unfold read_integer.
  pose proof (read_short s p _ Hs Hl Hn). by destruct (read s (Z.of_nat n)).
Qed.

Lemma read_u32_cut s z p e :
  is_u32 z → at_bytes s p → cut p (u32_bytes z ++ e) →
  ok (read_u32 s).2 = false ∨
  ∃ s' p', read_u32 s = (z, s') ∧ at_bytes s' p' ∧ cut p' e.
Proof.
  intros Hz Hs Hc. destruct (read_integer_cut s 4 z p e Hs Hc ltac:(lia)) as [H|(p' & H & Hc')];
    [by left|right].
  destruct (read_u32_at s z p' Hz H) as (s' & E & Hs'). eauto.
Qed.

Lemma read_u64_cut s z p e :
  is_u64 z → at_bytes s p → cut p (u64_bytes z ++ e) →
  ok (read_u64 s).2 = false ∨
  ∃ s' p', read_u64 s = (z, s') ∧ at_bytes s' p' ∧ cut p' e.
Proof.
  intros Hz Hs Hc. destruct (read_integer_cut s 8 z p e Hs Hc ltac:(lia)) as [H|(p' & H & Hc')];
    [by left|right].
  destruct (read_u64_at s z p' Hz H) as (s' & E & Hs'). eauto.
Qed.

Lemma read_u8_cut s z p e :
  is_u8 z → at_bytes s p → cut p (native_bytes 1 z ++ e) →
  ok (read_u8 s).2 = false ∨
  ∃ s' p', read_u8 s = (z, s') ∧ at_bytes s' p' ∧ cut p' e.
Proof.
  intros Hz Hs Hc. destruct (read_integer_cut s 1 z p e Hs Hc ltac:(lia)) as [H|(p' & H & Hc')];
    [by left|right].
  destruct (read_u8_at s z p' Hz H) as (s' & E & Hs'). eauto.
Qed.

(** ** Layers *)

Definition layer_ok (l : Layer) : Prop :=
  is_u32 (q_id (layer_query l)) ∧ is_u32 (q_class (layer_query l)) ∧
  is_u8 (q_version (layer_query l)) ∧ is_u32 (zlen (layer_data l)).

Definition layer_header (l : Layer) : LayerHeader :=
  mkHeader (q_id (layer_query l)) (q_class (layer_query l)) (q_version (layer_query l))
    (zlen (layer_data l)).

Lemma layer_bytes_cons l r :
  layer_bytes l ++ r =
    u32_bytes (q_id (layer_query l)) ++ u32_bytes (q_class (layer_query l)) ++
    native_bytes 1 (q_version (layer_query l)) ++ u32_bytes (u32 (zlen (layer_data l))) ++
    layer_data l ++ r.
Proof. unfold layer_bytes, saved_layer_bytes. by rewrite <-!app_assoc. Qed.

Lemma read_header_at s l r :
  layer_ok l → at_bytes s (layer_bytes l ++ r) →
  ∃ s', read_layer_header s = (layer_header l, s') ∧ at_bytes s' (layer_data l ++ r).
Proof.
  intros (Hi & Hc & Hv & Hd) H. rewrite layer_bytes_cons in H. rewrite u32_small in H by done.
  unfold read_layer_header.
  destruct (read_u32_at _ _ _ Hi H) as (s1 & -> & H1).
  destruct (read_u32_at _ _ _ Hc H1) as (s2 & -> & H2).
  destruct (read_u8_at _ _ _ Hv H2) as (s3 & -> & H3).
  destruct (read_u32_at _ _ _ Hd H3) as (s4 & -> & H4). eauto.
Qed.

Lemma read_header_not_ok s : ok s = false → ok (read_layer_header s).2 = false.
Proof.
  intros H. unfold read_layer_header.
  pose proof (read_integer_not_ok 4 s H) as H1. unfold read_u32, read_u8.
  destruct (read_integer 4 s) as [a s1].
  pose proof (read_integer_not_ok 4 s1 H1) as H2. destruct (read_integer 4 s1) as [b s2].
  pose proof (read_integer_not_ok 1 s2 H2) as H3. destruct (read_integer 1 s2) as [c s3].
  pose proof (read_integer_not_ok 4 s3 H3) as H4. by destruct (read_integer 4 s3) as [d s4].
Qed.

(** A header of a cut source fails, or is the one that was written. *)
Lemma read_header_cut s l p e :
  layer_ok l → at_bytes s p → cut p (layer_bytes l ++ e) →
  ok (read_layer_header s).2 = false ∨
  ∃ s' p', read_layer_header s = (layer_header l, s') ∧ at_bytes s' p' ∧
    cut p' (layer_data l ++ e).
Proof.
  intros (Hi & Hc & Hv & Hd) H Hcut. rewrite layer_bytes_cons in Hcut.
  rewrite u32_small in Hcut by done. unfold read_layer_header.
  assert (∀ n s, ok s = false → ok (read_integer n s).2 = false) as Hf
    by apply read_integer_not_ok.
  destruct (read_u32_cut _ _ _ _ Hi H Hcut) as [F|(s1 & p1 & -> & H1 & Hcut1)].
  { left. unfold read_u32, read_u8 in *. destruct (read_integer 4 s) as [a s1].
    pose proof (Hf 4 s1 F) as F1. destruct (read_integer 4 s1) as [b s2].
    pose proof (Hf 1 s2 F1) as F2. destruct (read_integer 1 s2) as [c s3].
    pose proof (Hf 4 s3 F2) as F3. by destruct (read_integer 4 s3). }
  destruct (read_u32_cut _ _ _ _ Hc H1 Hcut1) as [F|(s2 & p2 & -> & H2 & Hcut2)].
  { left. unfold read_u32, read_u8 in *. destruct (read_integer 4 s1) as [b s2].
    pose proof (Hf 1 s2 F) as F2. destruct (read_integer 1 s2) as [c s3].
    pose proof (Hf 4 s3 F2) as F3. by destruct (read_integer 4 s3). }
  destruct (read_u8_cut _ _ _ _ Hv H2 Hcut2) as [F|(s3 & p3 & -> & H3 & Hcut3)].
  { left. unfold read_u32, read_u8 in *. destruct (read_integer 1 s2) as [c s3].
    pose proof (Hf 4 s3 F) as F3. by destruct (read_integer 4 s3). }
  destruct (read_u32_cut _ _ _ _ Hd H3 Hcut3) as [F|(s4 & p4 & -> & H4 & Hcut4)].
  { left. by destruct (read_u32 s3). }
  right. eauto.
Qed.

Lemma payload_fits s l r :
  layer_ok l → at_bytes s (layer_data l ++ r) → payload_overruns (layer_header l) s = false.
Proof.
  intros (_ & _ & _ & Hd) H. unfold payload_overruns. simpl. unfold is_u32 in Hd.
  rewrite (pos_add _ _ _ H) by lia. rewrite (at_bytes_left _ _ H), zlen_app.
  pose proof (zlen_nonneg r). by destruct (Z.ltb_spec (pos s + (zlen (layer_data l) + zlen r))
    (pos s + zlen (layer_data l))); [lia|].
Qed.

Lemma payload_cut s l p e :
  layer_ok l → at_bytes s p → cut p (layer_data l ++ e) →
  payload_overruns (layer_header l) s = true ∨
  ∃ p', at_bytes s (layer_data l ++ p') ∧ cut p' e.
Proof.
  intros (_ & _ & _ & Hd) H Hc. destruct (cut_app _ _ _ Hc) as [Hl|(p' & -> & Hc')]; [|eauto].
  left. unfold payload_overruns. simpl. unfold is_u32 in Hd. rewrite (pos_add _ _ _ H) by lia.
  rewrite (at_bytes_left _ _ H).
  by destruct (Z.ltb_spec (pos s + zlen p) (pos s + zlen (layer_data l))); [|lia].
Qed.

Lemma header_layer_at s l r :
  at_bytes s (layer_data l ++ r) → header_layer (layer_header l) s = l.
Proof.
  intros H. unfold header_layer. simpl. rewrite (at_source_bytes _ _ _ H).
  by destruct l as [[]].
Qed.

(** ** What is injected *)

Section injecting.
Context {S : Type} `{!DomainStorage S, !StorageLaws S}.

Definition inject_all (st : S) (ls : list Layer) : S :=
  foldl (λ st l, (InjectObjectBytes st l).2) st ls.

(** The storage accepts every layer in turn. *)
Fixpoint accepts (st : S) (ls : list Layer) : Prop :=
  match ls with
  | [] => True
  | l :: ls => (InjectObjectBytes st l).1 = true ∧ accepts (InjectObjectBytes st l).2 ls
  end.

(** One data per query. *)
Definition consistent (ls : list Layer) : Prop :=
  ∀ l l', l ∈ ls → l' ∈ ls → layer_query l = layer_query l' → l = l'.

Lemma inject_one st l :
  (InjectObjectBytes st l).1 = true →
  Load (InjectObjectBytes st l).2 (layer_query l) = kLoaded (layer_data l) ∧
  ∀ q d, q ≠ layer_query l → Load st q = kLoaded d →
    Load (InjectObjectBytes st l).2 q = kLoaded d.
Proof.
  unfold InjectObjectBytes. destruct (Store st (layer_query l) (layer_data l)) as [st'|] eqn:E;
    [|done]. intros _. simpl. split; [by eapply Load_Store_same|].
  intros q d Hq Hl. destruct (Load_Store_other _ _ _ _ q E Hq) as [->|(_ & Hr & _)]; [done|].
  congruence.
Qed.

Lemma inject_other st l q :
  q_id q ≠ q_id (layer_query l) → Load (InjectObjectBytes st l).2 q = Load st q.
Proof.
  unfold InjectObjectBytes. destruct (Store st (layer_query l) (layer_data l)) as [st'|] eqn:E;
    [|done]. intros Hq. simpl.
  destruct (Load_Store_other _ _ _ _ q E) as [->|(Hid & _ & _)]; [congruence|done|done].
Qed.

Lemma inject_all_keeps st ls q d :
  accepts st ls → Load st q = kLoaded d →
  (∀ l, l ∈ ls → layer_query l = q → layer_data l = d) →
  Load (inject_all st ls) q = kLoaded d.
Proof.
  revert st. induction ls as [|l ls IH]; intros st Ha Hl Hd; simpl in *; [done|].
  destruct Ha as [Hacc Ha]. destruct (inject_one st l Hacc) as [Hs Ho]. apply IH; [done| |set_solver].
  destruct (decide (q = layer_query l)) as [->|Hq]; [|by apply Ho].
  rewrite Hs. f_equal. apply Hd; [set_solver|done].
Qed.

(** Every layer injected is loaded as it was, and no other object has changed. *)
Lemma inject_all_loads st ls l :
  accepts st ls → consistent ls → l ∈ ls →
  Load (inject_all st ls) (layer_query l) = kLoaded (layer_data l).
Proof.
  revert st. induction ls as [|x ls IH]; intros st Ha Hc Hin; [by apply not_elem_of_nil in Hin|].
  simpl in *. destruct Ha as [Hacc Ha]. apply elem_of_cons in Hin as [->|Hin].
  - destruct (inject_one st x Hacc) as [Hs _]. apply inject_all_keeps; [done..|].
    intros l' Hl' Hq. f_equal. apply Hc; [set_solver..|done].
  - apply IH; [done| |done]. intros a b Ha' Hb'. apply Hc; set_solver.
Qed.

Lemma inject_all_other st ls q :
  (∀ l, l ∈ ls → q_id (layer_query l) ≠ q_id q) → Load (inject_all st ls) q = Load st q.
Proof.
  revert st. induction ls as [|l ls IH]; intros st H; simpl; [done|].
  rewrite IH by set_solver. apply inject_other. intros E. apply (H l); [set_solver|done].
Qed.
End injecting.

Lemma elem_of_object_layers id classes l :
  l ∈ object_layers id classes ↔
    q_id (layer_query l) = id ∧ (∃ versions, classes !! q_class (layer_query l) = Some versions ∧
      versions !! q_version (layer_query l) = Some (layer_data l)).
Proof.
  unfold object_layers. rewrite list_elem_of_In, in_concat. setoid_rewrite <-list_elem_of_In.
  split.
  - intros (ls & Hls & Hl). apply list_elem_of_fmap in Hls as ([c vs] & -> & Hc).
    apply elem_of_map_to_list in Hc. apply list_elem_of_fmap in Hl as ([v d] & -> & Hv).
    apply elem_of_map_to_list in Hv. simpl in *. eauto.
  - intros (<- & vs & Hc & Hv). exists (class_layers (q_id (layer_query l))
      (q_class (layer_query l)) vs). split.
    + apply list_elem_of_fmap. eexists (_, _). split; [|by apply elem_of_map_to_list]. done.
    + apply list_elem_of_fmap. eexists (_, _). split; [|by apply elem_of_map_to_list].
      by destruct l as [[]].
Qed.

Section graphs.
Context {reg : AetherRegistry} (Find : Z → option LiveObject).

(** The layers of a publication are those of the scratch storage, less the bases. *)
Lemma elem_of_published_layers scratch l :
  l ∈ published_layers Find scratch ↔
    (q_id (layer_query l) ∉ distilled_base_ids Find scratch) ∧
    (∃ classes versions, find_active scratch (q_id (layer_query l)) = Some classes ∧
      classes !! q_class (layer_query l) = Some versions ∧
      versions !! q_version (layer_query l) = Some (layer_data l)).
Proof.
  unfold published_layers. rewrite list_elem_of_In, in_concat. setoid_rewrite <-list_elem_of_In.
  split.
  - intros (ls & Hls & Hl). apply list_elem_of_fmap in Hls as ([id classes] & -> & Hc).
    apply list_elem_of_filter in Hc as [Hn Hc]. apply elem_of_active in Hc.
    simpl in Hn, Hl. apply elem_of_object_layers in Hl as (<- & vs & Hv & Hd). eauto 10.
  - intros (Hn & classes & vs & Hf & Hc & Hv).
    exists (object_layers (q_id (layer_query l)) classes). split.
    + apply list_elem_of_fmap. exists (q_id (layer_query l), classes). split; [done|].
      apply list_elem_of_filter. split; [done|]. by apply elem_of_active.
    + apply elem_of_object_layers. eauto.
Qed.

Lemma published_consistent scratch : consistent (published_layers Find scratch).
Proof.
  intros l l' Hl Hl' Hq. apply elem_of_published_layers in Hl as (_ & c & v & Hf & Hc & Hv).
  apply elem_of_published_layers in Hl' as (_ & c' & v' & Hf' & Hc' & Hv').
  rewrite Hq in *. destruct l as [q d], l' as [q' d']. simpl in *. subst. congruence.
Qed.

Definition generation_ok (e : Z * Z) : Prop := is_u32 e.1 ∧ is_u64 e.2.

(** What a scratch storage of 32-bit identifiers and a buffer of less than 2^63 bytes
    satisfy. *)
Record scratch_ok (scratch : RamState) : Prop := {
  ok_layers : Forall layer_ok (published_layers Find scratch);
  ok_generations : Forall generation_ok (published_generations Find scratch);
  ok_layer_count : is_u32 (zlen (published_layers Find scratch));
  ok_generation_count : is_u32 (zlen (published_generations Find scratch))
}.
End graphs.

(** ** Reading what was written *)

Section reading.
Context {reg : AetherRegistry} {U S : Type} `{!DomainStorage S, !UiSystem U S}.

Definition note_ids (ids : list Z) (ls : list Layer) : list Z :=
  foldl (λ ids l, note_id ids (q_id (layer_query l))) ids ls.

Lemma read_graph_layers_at ls s st ids r :
  Forall layer_ok ls → at_bytes s (concat (layer_bytes <$> ls) ++ r) →
  ∃ s', read_graph_layers (length ls) s st ids =
      Some (s', inject_all st ls, note_ids ids ls) ∧ at_bytes s' r.
Proof.
  intros Hok. revert s st ids. induction Hok as [|l ls Hl _ IH]; intros s st ids H.
  { exists s. done. }
  cbn [fmap list_fmap concat] in H. rewrite <-app_assoc in H. cbn [length read_graph_layers].
  destruct (read_header_at _ _ _ Hl H) as (s1 & -> & H1).
  rewrite (payload_fits _ _ _ Hl H1), (header_layer_at _ _ _ H1).
  rewrite (proj1 H1). cbn [andb negb].
  pose proof (at_advance _ _ _ H1) as H2. unfold inject_all, note_ids. cbn [foldl].
  destruct (InjectObjectBytes st l) as [b st1]. cbn [snd].
  destruct (IH (advance s1 (zlen (layer_data l))) st1 (note_id ids (q_id (layer_query l))) H2)
    as (s' & E & Hs'). exists s'. split; [|done]. exact E.
Qed.

Definition finalize_all (u : U) (es : list (Z * Z)) : U :=
  foldl (λ u e, FinalizeUiNodeState (S := S) u e.1 e.2) u es.

Lemma read_generations_at es s u r :
  Forall generation_ok es → at_bytes s (concat (generation_bytes <$> es) ++ r) →
  ∃ s', read_generations (S := S) (length es) s u = Some (s', finalize_all u es) ∧ at_bytes s' r.
Proof.
  intros Hok. revert s u. induction Hok as [|e es [Hi Hg] _ IH]; intros s u H.
  { exists s. done. }
  cbn [fmap list_fmap concat] in H. unfold generation_bytes in H at 1.
  rewrite <-!app_assoc in H. cbn [length read_generations].
  destruct (read_u32_at _ _ _ Hi H) as (s1 & -> & H1).
  destruct (read_u64_at _ _ _ Hg H1) as (s2 & -> & H2).
  rewrite (proj1 H2). exact (IH s2 _ H2).
Qed.

(** The mirror's objects after a graph was read: the root, and then every object of it. *)
Definition reload_published (u : U) (st : S) (root : Z) (ids : list Z) : U :=
  foldl (λ u id, LoadExistingObjectUnchecked u st id) (LoadExistingObjectUnchecked u st root) ids.

Lemma zlen_to_nat {A} (xs : list A) : Z.to_nat (zlen xs) = length xs.
Proof. unfold zlen. by rewrite Nat2Z.id. Qed.

Lemma DeserializeObjectGraph_at (Find : Z → option LiveObject) scratch root s u st r :
  scratch_ok Find scratch → at_bytes s (graph_bytes Find scratch ++ r) →
  let st' := inject_all st (published_layers Find scratch) in
  ∃ s',
    DeserializeObjectGraphFromBuffer root s u st =
      Some (s', finalize_all (reload_published u st' root (note_ids [] (published_layers Find scratch)))
                  (published_generations Find scratch), st') ∧
    at_bytes s' r.
Proof.
  intros [Hl Hg Hlc Hgc] H. cbv zeta. unfold graph_bytes, table_bytes in H.
  rewrite (u32_small _ Hlc), (u32_small _ Hgc) in H. rewrite <-!app_assoc in H.
  unfold DeserializeObjectGraphFromBuffer.
  destruct (read_u32_at _ _ _ Hlc H) as (s1 & -> & H1). rewrite (proj1 H1), zlen_to_nat.
  destruct (read_graph_layers_at _ _ st [] _ Hl H1) as (s2 & -> & H2). cbn [mbind option_bind].
  destruct (read_u32_at _ _ _ Hgc H2) as (s3 & -> & H3). rewrite (proj1 H3), zlen_to_nat.
  destruct (read_generations_at _ _ (reload_published u
    (inject_all st (published_layers Find scratch)) root
    (note_ids [] (published_layers Find scratch))) _ Hg H3) as (s4 & E & H4).
  unfold reload_published in E at 1. rewrite E. eauto.
Qed.

(** ** Envelopes *)

Definition envelope_bytes (id generation : Z) (payload : bytes) : bytes :=
  u32_bytes id ++ u64_bytes generation ++ u32_bytes (u32 (zlen payload)) ++ payload.

Lemma write_envelope_bytes id generation payload out :
  write_envelope id generation payload out = out ++ envelope_bytes id generation payload.
Proof.
  unfold write_envelope, write_u32, write_u64, ByteSink.write, envelope_bytes.
  by rewrite <-!app_assoc.
Qed.

Lemma read_envelope_at s id generation payload r :
  is_u32 id → is_u64 generation → is_u32 (zlen payload) →
  at_bytes s (envelope_bytes id generation payload ++ r) →
  ∃ s', read_envelope s = Some (id, generation, payload, s') ∧ at_bytes s' r.
Proof.
  intros Hi Hg Hp H. unfold envelope_bytes in H. rewrite <-!app_assoc, u32_small in H by done.
  unfold read_envelope.
  destruct (read_u32_at _ _ _ Hi H) as (s1 & -> & H1).
  destruct (read_u64_at _ _ _ Hg H1) as (s2 & -> & H2).
  destruct (read_u32_at _ _ _ Hp H2) as (s3 & -> & H3).
  rewrite (proj1 H3), (at_source_bytes _ _ _ H3). unfold is_u32 in Hp.
  rewrite (pos_add _ _ _ H3), (at_bytes_left _ _ H3), zlen_app by lia.
  pose proof (zlen_nonneg r).
  destruct (Z.leb_spec (pos s3 + zlen payload) (pos s3 + (zlen payload + zlen r))); [|lia].
  eexists. split; [done|]. by apply at_advance.
Qed.

Context `{!StorageLaws S}.

(** Structural publications arrive whole: what is written for a node and its graph
    is applied by a mirror that has the node without failing an assertion and without
    leaving a byte; every layer of the graph, the bases of nodes apart, is in the mirror's
    storage as it was saved, no other object's layer has changed, the objects are loaded
    again from there, and every node of the graph gets the generation it had. *)
Theorem ApplyStructuralPublication_roundtrip (Find : Z → option LiveObject) scratch id
    generation pending u (st : S) c
    (Hok : scratch_ok Find scratch) (Hid : is_u32 id) (Hg : is_u64 generation)
    (Hsize : is_u32 (zlen (SerializeObjectGraphToBuffer Find scratch [])))
    (Hfind : ui_Find (S := S) u id = Some c)
    (Hacc : accepts st (published_layers Find scratch)) :
  let ls := published_layers Find scratch in
  ∃ s' st',
    ApplyStructuralPublication
      (new_source (SerializeStructuralNodePublication Find scratch id generation pending [])) u st =
      Some (s', FinalizeUiNodeState (S := S)
                  (finalize_all (reload_published u st' id (note_ids [] ls))
                     (published_generations Find scratch)) id generation,
            st', if pending then 1 else 0) ∧
    pos s' = source_size s' ∧
    (∀ l, l ∈ ls → Load st' (layer_query l) = kLoaded (layer_data l)) ∧
    (∀ q, (∀ l, l ∈ ls → q_id (layer_query l) ≠ q_id q) → Load st' q = Load st q).
Proof.
  cbv zeta. unfold SerializeStructuralNodePublication, write_u8, ByteSink.write.
  rewrite write_envelope_bytes, app_nil_l. set (payload := SerializeObjectGraphToBuffer _ _ []).
  set (sidecar := if pending then 1 else 0).
  assert (is_u8 sidecar) as Hsc by (subst sidecar; unfold is_u8; destruct pending; lia).
  assert (zlen payload < 2 ^ 32) as Hlt by apply Hsize.
  assert (at_bytes (new_source (envelope_bytes id generation payload ++ native_bytes 1 sidecar))
    (envelope_bytes id generation payload ++ native_bytes 1 sidecar ++ [])) as H0.
  { rewrite app_nil_r. apply at_new_source. unfold envelope_bytes, u32_bytes, u64_bytes.
    autorewrite with app. lia. }
  unfold ApplyStructuralPublication.
  destruct (read_envelope_at _ _ _ _ _ Hid Hg Hsize H0) as (s1 & -> & H1).
  cbn [mbind option_bind]. rewrite Hfind. cbn [mbind option_bind]. subst payload.
  assert (at_bytes (new_source (SerializeObjectGraphToBuffer Find scratch []))
    (graph_bytes Find scratch ++ [])) as Hp.
  { rewrite app_nil_r. rewrite SerializeObjectGraphToBuffer_bytes, app_nil_l in *.
    apply at_new_source. lia. }
  destruct (DeserializeObjectGraph_at Find scratch id _ u st [] Hok Hp) as (s2 & -> & _).
  cbn [mbind option_bind].
  pose proof (at_bytes_left _ _ H1) as Hleft. rewrite zlen_app, native_bytes_zlen, zlen_nil in Hleft.
  destruct (Z.ltb_spec (pos s1) (source_size s1)); [|lia].
  destruct (read_u8_at _ _ _ Hsc H1) as (s3 & -> & H3).
  eexists s3, _. split; [done|]. split; [|split].
  - pose proof (at_bytes_left _ _ H3) as E. rewrite zlen_nil in E. lia.
  - intros l Hl. apply inject_all_loads; [done|apply published_consistent|done].
  - intros q Hq. by apply inject_all_other.
Qed.

(** ** Initial publications *)

Lemma read_publication_layers_at ls root count i s st ids r :
  Forall layer_ok ls → accepts st ls → at_bytes s (concat (layer_bytes <$> ls) ++ r) →
  ∃ s', read_publication_layers (length ls) root count i s st ids =
      (inject_all st ls, inr (s', note_ids ids ls)) ∧ at_bytes s' r.
Proof.
  intros Hok. revert i s st ids. induction Hok as [|l ls Hl _ IH]; intros i s st ids Ha H.
  { exists s. done. }
  cbn [fmap list_fmap concat] in H. rewrite <-app_assoc in H.
  cbn [length read_publication_layers]. destruct Ha as [Hacc Ha].
  destruct (read_header_at _ _ _ Hl H) as (s1 & -> & H1).
  rewrite (payload_fits _ _ _ Hl H1), (header_layer_at _ _ _ H1), (proj1 H1).
  cbn [negb]. pose proof (at_advance _ _ _ H1) as H2.
  unfold inject_all, note_ids. cbn [foldl].
  destruct (InjectObjectBytes st l) as [b st1]. cbn [fst snd] in *. subst b. cbn [negb].
  exact (IH (u32 (i + 1)) _ st1 (note_id ids (q_id (layer_query l))) Ha H2).
Qed.

Lemma read_publication_layers_cut ls root count i s st ids p e :
  Forall layer_ok ls → at_bytes s p → cut p (concat (layer_bytes <$> ls) ++ e) →
  let '(_, r) := read_publication_layers (length ls) root count i s st ids in
  match r with
  | inl d => stage d ≠ Ok
  | inr (s', _) => ∃ p', at_bytes s' p' ∧ cut p' e
  end.
Proof.
  intros Hok. revert i s st ids p. induction Hok as [|l ls Hl _ IH]; intros i s st ids p H Hc.
  { cbn. eauto. }
  cbn [fmap list_fmap concat] in Hc. rewrite <-app_assoc in Hc.
  cbn [length read_publication_layers].
  destruct (read_header_cut _ _ _ _ Hl H Hc) as [F|(s1 & p1 & -> & H1 & Hc1)].
  { destruct (read_layer_header s) as [h s1]. cbn [snd] in F. rewrite F. discriminate. }
  rewrite (proj1 H1). cbn [negb].
  destruct (payload_cut _ _ _ _ Hl H1 Hc1) as [->|(p2 & H2 & Hc2)]; [discriminate|].
  rewrite (payload_fits _ _ _ Hl H2), (header_layer_at _ _ _ H2).
  destruct (InjectObjectBytes st l) as [[] st1]; cbn [negb]; [|discriminate].
  apply (IH _ _ _ _ p2); [|done]. by apply (at_advance s1 (layer_data l)).
Qed.

Lemma read_publication_generations_at es root count i s u r :
  Forall generation_ok es → at_bytes s (concat (generation_bytes <$> es) ++ r) →
  ∃ s', read_publication_generations (S := S) (length es) root count i s u =
      (finalize_all u es, inr s') ∧ at_bytes s' r.
Proof.
  intros Hok. revert i s u. induction Hok as [|e es [Hi Hg] _ IH]; intros i s u H.
  { exists s. done. }
  cbn [fmap list_fmap concat] in H. unfold generation_bytes in H at 1.
  rewrite <-!app_assoc in H. cbn [length read_publication_generations].
  destruct (read_u32_at _ _ _ Hi H) as (s1 & -> & H1).
  destruct (read_u64_at _ _ _ Hg H1) as (s2 & -> & H2).
  rewrite (proj1 H2). exact (IH _ s2 _ H2).
Qed.

Lemma read_publication_generations_cut es root count i s u p :
  Forall generation_ok es → at_bytes s p → cut p (concat (generation_bytes <$> es)) →
  match (read_publication_generations (S := S) (length es) root count i s u).2 with
  | inl d => stage d ≠ Ok
  | inr _ => False
  end.
Proof.
  intros Hok. revert i s u p. induction Hok as [|e es [Hi Hg] _ IH]; intros i s u p H Hc.
  { by apply cut_nil in Hc. }
  cbn [fmap list_fmap concat] in Hc. unfold generation_bytes in Hc at 1.
  rewrite <-!app_assoc in Hc. cbn [length read_publication_generations].
  destruct (read_u32_cut _ _ _ _ Hi H Hc) as [F|(s1 & p1 & -> & H1 & Hc1)].
  { destruct (read_u32 s) as [id s1]. pose proof (read_integer_not_ok 8 s1 F) as F1.
    unfold read_u64. destruct (read_integer 8 s1) as [g s2]. cbn [snd] in F1. rewrite F1.
    discriminate. }
  destruct (read_u64_cut _ _ _ _ Hg H1 Hc1) as [F|(s2 & p2 & -> & H2 & Hc2)].
  { destruct (read_u64 s1) as [g s2]. cbn [snd] in F. rewrite F. discriminate. }
  rewrite (proj1 H2). cbn [negb]. by apply (IH _ _ _ p2).
Qed.

(** The loads of the mirror's Domain of these objects from a storage succeed. *)
Definition loads_succeed (st : S) (ids : list Z) : Prop :=
  ∀ u id, id ∈ ids → (ui_LoadRoot u st id).1 = true ∧ (ui_LoadExisting u st id).1 = true.

Lemma reload_objects_succeed u st ids :
  loads_succeed st ids → ∃ u', reload_objects u st ids = (u', None).
Proof.
  revert u. induction ids as [|id ids IH]; intros u Hs; simpl; [eauto|].
  assert (loads_succeed st ids) as Hs'.
  { intros u' id' Hid. apply Hs. by right. }
  assert (id ∈ id :: ids) as Hin by left.
  unfold reload_object. destruct (ui_Find u id) as [c|].
  - destruct (Hs u id Hin) as [_ H]. destruct (ui_LoadExisting u st id) as [b u1].
    simpl in *. rewrite H. by apply IH.
  - destruct (Hs u id Hin) as [H _]. destruct (ui_LoadRoot u st id) as [b u1]. simpl in *.
    rewrite H. simpl. destruct (Hs u1 id Hin) as [_ H1].
    destruct (ui_LoadExisting u1 st id) as [b1 u2]. simpl in *. rewrite H1. by apply IH.
Qed.

Lemma Hydrate_succeeds root count ids u st :
  loads_succeed st (root :: ids) →
  ∃ u', HydrateInjectedPublicationGraph root count ids u st = (u', None).
Proof.
  intros Hs. unfold HydrateInjectedPublicationGraph.
  destruct (Hs u root) as [H _]; [by left|].
  destruct (ui_LoadRoot u st root) as [b u1]. simpl in H. rewrite H. simpl.
  destruct (reload_objects_succeed u1 st (ids ++ merge_sort Z.ge ids ++ ids)) as [u2 ->].
  { intros u' id Hid. apply Hs. right. rewrite !elem_of_app in Hid.
    by rewrite (merge_sort_Permutation Z.ge ids) in Hid; destruct Hid as [?|[?|?]]. }
  eauto.
Qed.

(** C14. Initial publications arrive whole: what is written for a graph is loaded with
    result [Ok] when the mirror's Domain can load the objects from the layers it is given;
    every byte is read, every layer of the graph, the bases of nodes apart, is in the mirror's
    storage as it was saved, and no other object's layer has changed. *)
Theorem TryLoadInitialPublication_complete (Find : Z → option LiveObject) scratch root u (st : S)
    (Hok : scratch_ok Find scratch) (Hroot : is_u32 root)
    (Hsize : zlen (SerializeInitialPublication Find scratch root []) < 2 ^ 63)
    (Hacc : accepts st (published_layers Find scratch))
    (Hload : loads_succeed (inject_all st (published_layers Find scratch))
               (root :: note_ids [] (published_layers Find scratch))) :
  let ls := published_layers Find scratch in
  ∃ s' u' st' d,
    TryLoadInitialPublication (new_source (SerializeInitialPublication Find scratch root [])) u st =
      (s', u', st', d) ∧
    stage d = Ok ∧ d_root_id d = root ∧ pos s' = source_size s' ∧
    (∀ l, l ∈ ls → Load st' (layer_query l) = kLoaded (layer_data l)) ∧
    (∀ q, (∀ l, l ∈ ls → q_id (layer_query l) ≠ q_id q) → Load st' q = Load st q).
Proof.
  cbv zeta. pose proof Hok as [Hl Hg Hlc Hgc].
  rewrite SerializeInitialPublication_bytes in *.
  pose proof (at_new_source _ Hsize) as H0. unfold graph_bytes, table_bytes in *.
  rewrite (u32_small _ Hlc), (u32_small _ Hgc), <-!app_assoc in *.
  set (source := new_source _) in *. clearbody source.
  unfold TryLoadInitialPublication, ReadAndInjectPublicationLayers.
  destruct (read_u32_at _ _ _ Hroot H0) as (s1 & -> & H1). rewrite (proj1 H1). cbn [negb].
  destruct (read_u32_at _ _ _ Hlc H1) as (s2 & -> & H2). rewrite (proj1 H2), zlen_to_nat.
  cbn [negb].
  destruct (read_publication_layers_at _ root (zlen (published_layers Find scratch)) 0 _ st [] _
    Hl Hacc H2) as (s3 & -> & H3).
  destruct (Hydrate_succeeds root (zlen (published_layers Find scratch))
    (note_ids [] (published_layers Find scratch)) u _ Hload) as [u1 ->].
  rewrite <-(app_nil_r (concat (generation_bytes <$> published_generations Find scratch))) in H3.
  destruct (read_u32_at _ _ _ Hgc H3) as (s4 & -> & H4). rewrite (proj1 H4), zlen_to_nat.
  cbn [negb].
  destruct (read_publication_generations_at _ root (zlen (published_layers Find scratch)) 0 _ u1 _
    Hg H4) as (s5 & -> & H5).
  destruct (Hload (finalize_all u1 (published_generations Find scratch)) root) as [Hr _];
    [by left|].
  destruct (ui_LoadRoot _ _ root) as [b u2]. simpl in Hr. subst b.
  eexists s5, u2, _, _. split; [done|]. split; [done|]. split; [done|]. split; [|split].
  - pose proof (at_bytes_left _ _ H5) as E. rewrite zlen_nil in E. lia.
  - intros l Hin. apply inject_all_loads; [done|apply published_consistent|done].
  - intros q Hq. by apply inject_all_other.
Qed.

(** C15. No truncated publication is accepted: of any strict prefix of an initial publication
    the loader reports a failure, whatever the mirror's Domain and storage hold and do. *)
Theorem TryLoadInitialPublication_truncated (Find : Z → option LiveObject) scratch root u (st : S) p
    (Hok : scratch_ok Find scratch) (Hroot : is_u32 root)
    (Hsize : zlen (SerializeInitialPublication Find scratch root []) < 2 ^ 63)
    (Hcut : cut p (SerializeInitialPublication Find scratch root [])) :
  stage (TryLoadInitialPublication (new_source p) u st).2 ≠ Ok.
Proof.
  destruct Hok as [Hl Hg Hlc Hgc].
  assert (at_bytes (new_source p) p) as H0.
  { apply at_new_source. destruct Hcut as (k & _ & E). rewrite E, zlen_app in Hsize.
    pose proof (zlen_nonneg k). lia. }
  rewrite SerializeInitialPublication_bytes in Hcut. unfold graph_bytes, table_bytes in Hcut.
  rewrite (u32_small _ Hlc), (u32_small _ Hgc), <-!app_assoc in Hcut.
  set (source := new_source p) in *. clearbody source.
  unfold TryLoadInitialPublication, ReadAndInjectPublicationLayers.
  destruct (read_u32_cut _ _ _ _ Hroot H0 Hcut) as [F|(s1 & p1 & -> & H1 & Hc1)].
  { destruct (read_u32 source). cbn [snd] in F. rewrite F. discriminate. }
  rewrite (proj1 H1). cbn [negb].
  destruct (read_u32_cut _ _ _ _ Hlc H1 Hc1) as [F|(s2 & p2 & -> & H2 & Hc2)].
  { destruct (read_u32 s1). cbn [snd] in F. rewrite F. discriminate. }
  rewrite (proj1 H2), zlen_to_nat. cbn [negb].
  pose proof (read_publication_layers_cut _ root (zlen (published_layers Find scratch)) 0 _ st []
    _ _ Hl H2 Hc2) as H3.
  destruct (read_publication_layers _ _ _ _ _ _ _) as [st1 [d|[s3 ids]]]; [exact H3|].
  destruct H3 as (p3 & H3 & Hc3).
  destruct (HydrateInjectedPublicationGraph root _ ids u st1) as [u1 [d|]] eqn:Hh.
  { unfold HydrateInjectedPublicationGraph in Hh.
    destruct (ui_LoadRoot u st1 root) as [[] u2]; simpl in Hh.
    - destruct (reload_objects _ _ _) as [u3 [id|]]; [injection Hh as <- <-|]; discriminate.
    - destruct (probe_roots _ _ _) as [u3 id]. injection Hh as <- <-. discriminate. }
  destruct (read_u32_cut _ _ _ _ Hgc H3 Hc3) as [F|(s4 & p4 & -> & H4 & Hc4)].
  { destruct (read_u32 s3). cbn [snd] in F. rewrite F. discriminate. }
  rewrite (proj1 H4), zlen_to_nat. cbn [negb].
  pose proof (read_publication_generations_cut _ root (zlen (published_layers Find scratch)) 0 _ u1
    _ Hg H4 Hc4) as H5.
  destruct (read_publication_generations _ _ _ _ _ _) as [u2 [d|s5]]; [exact H5|done].
Qed.
End reading.
