(* ===== verification/GraphWalk.v ===== *)
(** * Walks of the object graph

    Models the walks of src/object_serialization.cpp and src/model_persistence.cpp that
    collect the objects of a graph: through the fields of the live objects, through the
    scratch storage a save fills, and through the bases and events of loaded nodes.  An
    object is represented by its identifier. *)
From stdpp Require Import relations.
From S2P Require Import Prelude Aether DomainStorage StoredGraph Publication.

Section walks.
Context {reg : AetherRegistry}.
(** [Domain::Find]. *)
Context (Find : Z → option LiveObject).

Definition found (id : Z) : bool := bool_decide (is_Some (Find id)).
Definition node_at (id : Z) : option LiveObject := o ← Find id; AsNode o.

(** ** RemoveDistilledBaseObjects *)

Definition base_ids (objects : list Z) : list Z :=
  omap (λ id, n ← node_at id; live_base n) objects.

Definition RemoveDistilledBaseObjects (objects : list Z) : list Z :=
  match base_ids objects with
  | [] => objects
  | bases => filter (λ id, id ∉ bases) objects
  end.

(** ** CollectReachableObjectsFromLiveFields

    [edges id]: the pointer fields of an object, [None] where one is not valid;
    [appended id]: the objects that the registered edge appender pushes. *)
Context (edges : Z → list (option Z)) (appended : Z → list Z).

Definition pushed (id : Z) : list Z :=
  omap (λ e, id ← e; if found id then Some id else None) (edges id) ++ appended id.

(** The head of the list is the top of the stack.  [None]: out of fuel. *)
Fixpoint walk_live (fuel : nat) (seen : gset Z) (stack out : list Z) : option (list Z) :=
  match stack with
  | [] => Some out
  | id :: stack =>
      match fuel with
      | O => None
      | S fuel =>
          if bool_decide (id ∈ seen) then walk_live fuel seen stack out
          else walk_live fuel ({[id]} ∪ seen) (reverse (pushed id) ++ stack) (out ++ [id])
      end
  end.

Definition CollectReachableObjectsFromLiveFields (fuel : nat) (root : Z) : option (list Z) :=
  RemoveDistilledBaseObjects <$> walk_live fuel ∅ [root] [].

(** [CollectLiveReachableNodes] *)
Definition CollectLiveReachableNodes (fuel : nat) (root : Z) : option (list Z) :=
  filter (λ id, is_Some (node_at id)) <$> CollectReachableObjectsFromLiveFields fuel root.

(** ** Through a scratch storage

    [scratch]: what [SaveObjectGraphToScratch] of the root fills. *)
Definition scratch_objects (scratch : RamState) : list Z :=
  filter found (active scratch).*1.

(** [CollectReachableObjects] and [CollectMaterializedReachableObjects], which differ in
    the scope of the save. *)
Definition CollectReachableObjects (scratch : RamState) : list Z :=
  RemoveDistilledBaseObjects (scratch_objects scratch).

Definition CollectReachableNodes (scratch : RamState) : list Z :=
  filter (λ id, is_Some (node_at id)) (CollectReachableObjects scratch).

(** [CollectPersistentSerializationReachableObjects]: the root first; removed objects of
    the scratch storage are looked up as well.  [valid]: [is_valid] of an identifier. *)
Definition add_id (valid : Z → bool) (acc : gset Z * list Z) (id : Z) : gset Z * list Z :=
  let '(seen, out) := acc in
  if negb (valid id) then acc
  else if bool_decide (id ∈ seen) then acc
  else ({[id]} ∪ seen, if found id then out ++ [id] else out).

Definition CollectPersistentSerializationReachableObjects (valid : Z → bool) (root : Z)
    (scratch : RamState) : list Z :=
  (foldl (add_id valid) (∅, []) (root :: (map_to_list scratch).*1)).2.

(** [CollectLiveReachableObjects]: the live walk, then what only the save reaches. *)
Definition add_scratch (acc : gset Z * list Z) (id : Z) : gset Z * list Z :=
  let '(seen, out) := acc in
  if bool_decide (id ∈ seen) then acc
  else ({[id]} ∪ seen, if found id then out ++ [id] else out).

Definition CollectLiveReachableObjects (fuel : nat) (root : Z) (scratch : RamState)
    : option (list Z) :=
  out ← CollectReachableObjectsFromLiveFields fuel root;
  Some (RemoveDistilledBaseObjects
          (foldl add_scratch (list_to_set out, out) (active scratch).*1).2).

(** [FindLiveReachableNode] *)
Definition FindLiveReachableNode (fuel : nat) (root : Z) (scratch : RamState) (id : Z)
    : option (option Z) :=
  live ← CollectLiveReachableObjects fuel root scratch;
  Some (id ← list_find (λ i, i = id) live; if node_at id.2 is Some _ then Some id.2 else None).

(** ** CollectLoadedPersistentObjectsForSanitize

    [history id]: the base and the events of the records of a node, [None] where one is not
    valid. *)
Context (history : Z → list (option Z)).

Definition queue_id (acc : gset Z * list Z) (id : Z) : gset Z * list Z :=
  let '(queued, stack) := acc in
  if bool_decide (id ∈ queued) then acc else ({[id]} ∪ queued, id :: stack).

Definition queue_ids (acc : gset Z * list Z) (ids : list Z) : gset Z * list Z :=
  foldl queue_id acc ids.

Definition queued_by (id : Z) : list Z :=
  if node_at id is Some _ then omap (λ e, e) (history id) else [].

Fixpoint walk_history (fuel : nat) (queued : gset Z) (stack out : list Z) : option (list Z) :=
  match stack with
  | [] => Some out
  | id :: stack =>
      match fuel with
      | O => None
      | S fuel =>
          if found id then
            let '(queued, stack) := queue_ids (queued, stack) (queued_by id) in
            walk_history fuel queued stack (out ++ [id])
          else walk_history fuel queued stack out
      end
  end.

(** [roots]: the root and the loaded objects, the valid ones. *)
Definition CollectLoadedPersistentObjectsForSanitize (fuel : nat) (roots : list Z)
    : option (list Z) :=
  let '(queued, stack) := queue_ids (∅, []) roots in
  walk_history fuel queued stack [].
End walks.

(** ** Theorems *)

Section reachability.
Context (next : Z → list Z).

Definition leads_to (a b : Z) : Prop := b ∈ next a.

(** A closed set between the roots and what they reach is what they reach. *)
Lemma closed_is_reachable (roots : list Z) (X : Z → Prop) :
  (∀ r, r ∈ roots → X r) → (∀ a b, X a → leads_to a b → X b) →
  (∀ a, X a → ∃ r, r ∈ roots ∧ rtc leads_to r a) →
  ∀ a, X a ↔ ∃ r, r ∈ roots ∧ rtc leads_to r a.
Proof.
  intros Hr Hc Hs a. split; [apply Hs|]. intros (r & Hin & Hp). apply Hr in Hin.
  induction Hp as [|a b c Hab _ IH]; [done|]. apply IH. by apply (Hc a).
Qed.

(** The number of turns of a walk that has yet to see [rest]. *)
Definition pushes (rest : gset Z) : nat :=
  set_fold (λ id n, length (next id) + n)%nat O rest.

Lemma pushes_visit rest id :
  id ∈ rest → pushes rest = (length (next id) + pushes (rest ∖ {[id]}))%nat.
Proof.
  intros Hin. unfold pushes.
  assert (rest = rest ∖ {[id]} ∪ {[id]}) as E.
  { rewrite (union_comm_L _ {[id]}). by apply union_difference_singleton_L. }
  rewrite E at 1. rewrite (set_fold_disj_union_strong (=)); [by rewrite set_fold_singleton|solve_proper| |set_solver].
  intros x1 x2 b. lia.
Qed.
End reachability.

(** The identifiers a walk works in: closed under what it pushes. *)
Definition closed_under (next : Z → list Z) (dom : gset Z) : Prop :=
  ∀ a b, a ∈ dom → b ∈ next a → b ∈ dom.

Section distilled.
Context {reg : AetherRegistry} (Find : Z → option LiveObject).

Lemma elem_of_base_ids objects id :
  id ∈ base_ids Find objects ↔
  ∃ r n, r ∈ objects ∧ node_at Find r = Some n ∧ live_base n = Some id.
Proof.
  unfold base_ids. rewrite list_elem_of_omap. split.
  - intros (r & Hr & E). destruct (node_at Find r) as [n|] eqn:En; [|done]. by exists r, n.
  - intros (r & n & Hr & En & Hb). exists r. by rewrite En.
Qed.

Lemma elem_of_RemoveDistilledBaseObjects objects id :
  id ∈ RemoveDistilledBaseObjects Find objects ↔ id ∈ objects ∧ id ∉ base_ids Find objects.
Proof.
  unfold RemoveDistilledBaseObjects. destruct (base_ids Find objects) as [|b bs].
  - split; [|tauto]. intros Hid. split; [done|apply not_elem_of_nil].
  - rewrite list_elem_of_filter. tauto.
Qed.

Lemma RemoveDistilledBaseObjects_NoDup objects :
  NoDup objects → NoDup (RemoveDistilledBaseObjects Find objects).
Proof.
  intros Hn. unfold RemoveDistilledBaseObjects. destruct (base_ids Find objects); [done|].
  by apply list.NoDup_filter.
Qed.
End distilled.

Section live_walk.
Context {reg : AetherRegistry} (Find : Z → option LiveObject).
Context (edges : Z → list (option Z)) (appended : Z → list Z).

Abbreviation next := (pushed Find edges appended).

Record live_state (dom : gset Z) (root : Z) (seen : gset Z) (stack out : list Z) : Prop := {
  live_out : ∀ a, a ∈ seen ↔ a ∈ out;
  live_nodup : NoDup out;
  live_within : seen ⊆ dom ∧ (∀ a, a ∈ stack → a ∈ dom);
  live_root : root ∈ out ∨ root ∈ stack;
  live_closed : ∀ a b, a ∈ out → b ∈ next a → b ∈ out ∨ b ∈ stack;
  live_sound : ∀ a, a ∈ out ∨ a ∈ stack → rtc (leads_to next) root a
}.

Lemma live_state_visit dom root seen id stack out :
  closed_under next dom → id ∉ seen → live_state dom root seen (id :: stack) out →
  live_state dom root ({[id]} ∪ seen) (reverse (next id) ++ stack) (out ++ [id]).
Proof.
  intros Hdom Hid [Ho Hn [Hw Hs] Hr Hc Hp].
  assert (id ∈ dom) as Hin by (apply Hs; left).
  split.
  - set_solver.
  - apply list.NoDup_app. split; [done|]. split; [|apply NoDup_singleton]. set_solver.
  - split; [set_solver|]. intros a. rewrite elem_of_app, elem_of_reverse.
    intros [Ha|Ha]; [by apply (Hdom id)|apply Hs; by right].
  - set_solver.
  - intros a b Ha Hb. assert (a ∈ out ∨ a = id) as [Ha'| ->] by set_solver; [|set_solver].
    destruct (Hc a b Ha' Hb); set_solver.
  - intros a Ha.
    assert ((a ∈ out ∨ a ∈ id :: stack) ∨ a ∈ next id) as [Ha'|Ha'] by set_solver; [by apply Hp|].
    apply rtc_r with id; [apply Hp; right; left|done].
Qed.

Lemma live_state_skip dom root seen id stack out :
  id ∈ seen → live_state dom root seen (id :: stack) out → live_state dom root seen stack out.
Proof.
  intros Hid [Ho Hn [Hw Hs] Hr Hc Hp]. apply Ho in Hid. split; [done|done| | | |].
  - split; [done|]. intros a Ha. apply Hs. by right.
  - destruct Hr as [?|Hr]; [by left|]. apply elem_of_cons in Hr as [->|?]; [by left|by right].
  - intros a b Ha Hb. destruct (Hc a b Ha Hb) as [?|Hb']; [by left|].
    apply elem_of_cons in Hb' as [->|?]; [by left|by right].
  - intros a [Ha|Ha]; apply Hp; [by left|right; by right].
Qed.

Lemma walk_live_finishes dom root fuel seen stack out :
  closed_under next dom → live_state dom root seen stack out →
  (length stack + pushes next (dom ∖ seen) ≤ fuel)%nat →
  ∃ seen' out', walk_live Find edges appended fuel seen stack out = Some out' ∧
    live_state dom root seen' [] out'.
Proof.
  intros Hdom. revert seen stack out.
  induction fuel as [|fuel IH]; intros seen [|id stack] out Hst Hf; simpl in *; try lia.
  { by exists seen, out. }
  { by exists seen, out. }
  case_bool_decide as Hid.
  - apply IH; [by eapply live_state_skip|lia].
  - apply IH; [by apply live_state_visit|].
    assert (id ∈ dom) as Hin by (apply (live_within _ _ _ _ _ Hst); left).
    rewrite length_app, length_reverse.
    rewrite (pushes_visit next (dom ∖ seen) id) in Hf by set_solver.
    replace (dom ∖ ({[id]} ∪ seen)) with ((dom ∖ seen) ∖ {[id]}) by set_solver. lia.
Qed.

(** Reached from the root, and not the base of a node that is reached. *)
Definition live_object (root id : Z) : Prop :=
  rtc (leads_to next) root id ∧
  ∀ r n, rtc (leads_to next) root r → node_at Find r = Some n → live_base n ≠ Some id.

(** C19. The walk through live fields ends and finds the graph: given a turn for the root
    and for every pointer of the identifiers it can meet, it collects, each once, exactly the
    objects that the fields of objects lead to from the root, bases of the nodes among
    them apart; cycles and objects that share a field included. *)
Theorem CollectReachableObjectsFromLiveFields_spec dom fuel root
    (Hroot : root ∈ dom) (Hdom : closed_under next dom)
    (Hfuel : (1 + pushes next dom ≤ fuel)%nat) :
  ∃ out, CollectReachableObjectsFromLiveFields Find edges appended fuel root = Some out ∧
    NoDup out ∧ ∀ id, id ∈ out ↔ live_object root id.
Proof.
  destruct (walk_live_finishes dom root fuel ∅ [root] []) as (seen & out & E & Hst);
    [done| |rewrite difference_empty_L; simpl; lia|].
  { split; [set_solver|constructor|set_solver|set_solver|set_solver|].
    intros a [Ha|Ha]; [set_solver|]. apply list_elem_of_singleton in Ha as ->. constructor. }
  exists (RemoveDistilledBaseObjects Find out).
  unfold CollectReachableObjectsFromLiveFields. rewrite E. split; [done|].
  destruct Hst as [_ Hn _ Hr Hc Hp].
  assert (∀ a, a ∈ out ↔ rtc (leads_to next) root a) as Hout.
  { intros a. split; [intros Ha; apply Hp; by left|]. intros Ha.
    apply (closed_is_reachable next [root] (λ a, a ∈ out)); [set_solver|set_solver| |].
    - intros b Hb. exists root. split; [by left|]. apply Hp. by left.
    - exists root. split; [by left|done]. }
  split; [by apply RemoveDistilledBaseObjects_NoDup|]. intros id.
  rewrite elem_of_RemoveDistilledBaseObjects, Hout. unfold live_object.
  split; intros [Hid Hb]; (split; [done|]).
  - intros r n Hpath Hnode Hbase. apply Hb, elem_of_base_ids. exists r, n. by rewrite Hout.
  - rewrite elem_of_base_ids. intros (r & n & Hin & Hnode & Hbase).
    apply Hout in Hin. by apply (Hb r n).
Qed.
End live_walk.

Section history_walk.
Context {reg : AetherRegistry} (Find : Z → option LiveObject) (history : Z → list (option Z)).

Abbreviation hnext := (λ id, if found Find id then queued_by Find history id else []).

Lemma queue_ids_spec ids (queued queued' : gset Z) stack stack' :
  queue_ids (queued, stack) ids = (queued', stack') →
  NoDup stack → (∀ a, a ∈ stack → a ∈ queued) →
  queued' = queued ∪ list_to_set ids ∧ NoDup stack' ∧
  ∀ a, a ∈ stack' ↔ a ∈ stack ∨ (a ∈ ids ∧ a ∉ queued).
Proof.
  revert queued stack. induction ids as [|i ids IH]; intros queued stack.
  { intros [= <- <-] Hn Hq. split; [set_solver|]. split; [done|]. set_solver. }
  unfold queue_ids. cbn [foldl]. fold (queue_ids (queue_id (queued, stack) i) ids).
  unfold queue_id. case_bool_decide as Hi; intros E Hn Hq.
  - destruct (IH _ _ E Hn Hq) as (-> & Hn' & Hs). split; [set_solver|]. split; [done|].
    intros a. rewrite Hs. set_solver.
  - destruct (IH _ _ E) as (-> & Hn' & Hs).
    + constructor; [|done]. intros Hin. apply Hi. by apply Hq.
    + set_solver.
    + split; [set_solver|]. split; [done|]. intros a. rewrite Hs.
      destruct (decide (a = i)) as [->|]; set_solver.
Qed.

(** [done]: the identifiers that have been taken from the stack. *)
Record history_state (dom : gset Z) (roots : list Z) (done queued : gset Z)
    (stack out : list Z) : Prop := {
  history_queued : queued = done ∪ list_to_set stack ∧ (∀ a, a ∈ stack → a ∉ done);
  history_stack : NoDup stack;
  history_out : NoDup out ∧ (∀ a, a ∈ out ↔ a ∈ done ∧ found Find a = true);
  history_within : queued ⊆ dom;
  history_roots : ∀ r, r ∈ roots → r ∈ queued;
  history_closed : ∀ a b, a ∈ done → b ∈ hnext a → b ∈ queued;
  history_sound : ∀ a, a ∈ queued → ∃ r, r ∈ roots ∧ rtc (leads_to hnext) r a
}.

Lemma history_state_step dom roots d queued id stack out queued' stack' :
  closed_under hnext dom → history_state dom roots d queued (id :: stack) out →
  queue_ids (queued, stack) (hnext id) = (queued', stack') →
  history_state dom roots ({[id]} ∪ d) queued' stack'
    (if found Find id then out ++ [id] else out).
Proof.
  intros Hdom [[Hq Hd] Hs [Hn Ho] Hw Hr Hc Hp] E.
  apply list.NoDup_cons in Hs as [Hid Hs].
  destruct (queue_ids_spec _ _ _ _ _ E Hs) as (-> & Hs' & Hin); [set_solver|].
  assert (id ∈ queued) as Hiq by set_solver. assert (id ∈ dom) as Hidom by set_solver.
  split.
  - split; [|set_solver]. apply set_eq. intros a. rewrite Hq.
    destruct (decide (a ∈ d ∪ list_to_set (id :: stack))); set_solver.
  - done.
  - destruct (found Find id) eqn:Ef.
    + split; [|set_solver]. apply list.NoDup_app. split; [done|].
      split; [|apply NoDup_singleton]. set_solver.
    + split; [done|]. intros a. rewrite Ho. split; [set_solver|]. intros [Ha Hf].
      split; [|done]. destruct (decide (a = id)) as [->|]; [congruence|set_solver].
  - intros a. rewrite elem_of_union, elem_of_list_to_set. intros [?|Ha]; [set_solver|].
    by apply (Hdom id).
  - set_solver.
  - intros a b Ha Hb. destruct (decide (a = id)) as [->|]; [set_solver|].
    assert (b ∈ queued) by (apply (Hc a); set_solver). set_solver.
  - intros a. rewrite elem_of_union, elem_of_list_to_set. intros [Ha|Ha]; [by apply Hp|].
    destruct (Hp id Hiq) as (r & Hrr & Hpath). exists r. split; [done|]. by apply rtc_r with id.
Qed.

Lemma walk_history_finishes dom roots fuel d queued stack out :
  closed_under hnext dom → history_state dom roots d queued stack out →
  (size (dom ∖ d) ≤ fuel)%nat →
  ∃ d' queued' out', walk_history Find history fuel queued stack out = Some out' ∧
    history_state dom roots d' queued' [] out'.
Proof.
  intros Hdom. revert d queued stack out.
  induction fuel as [|fuel IH]; intros d queued [|id stack] out Hst Hf;
    try (by exists d, queued, out).
  - assert (id ∈ dom ∖ d) as Hid.
    { destruct Hst as [[Hq Hd] _ _ Hw _ _ _]. set_solver. }
    assert (size (dom ∖ d) = 0%nat) as H0 by lia. apply size_empty_inv in H0. set_solver.
  - cbn [walk_history]. pose proof (history_state_step dom roots d queued id stack out) as Hstep.
    assert (size (dom ∖ ({[id]} ∪ d)) ≤ fuel)%nat as Hf'.
    { assert (id ∈ dom ∖ d) as Hid.
      { destruct Hst as [[Hq Hd] _ _ Hw _ _ _]. set_solver. }
      replace (dom ∖ ({[id]} ∪ d)) with ((dom ∖ d) ∖ {[id]}) by set_solver.
      rewrite size_difference by set_solver. rewrite size_singleton. lia. }
    cbv beta in Hstep. destruct (found Find id) eqn:Ef.
    + destruct (queue_ids (queued, stack) (queued_by Find history id)) as [q' s'] eqn:E.
      apply (IH ({[id]} ∪ d)); [|done]. by apply (Hstep q' s').
    + apply (IH ({[id]} ∪ d)); [|done]. by apply (Hstep queued stack).
Qed.

(** The walk over loaded objects ends within one turn for each identifier it can meet, and
    visits, each once, exactly the objects the Domain has among those that bases and events
    of nodes lead to from the root and the loaded objects. *)
Theorem CollectLoadedPersistentObjectsForSanitize_spec dom fuel roots
    (Hroots : ∀ r, r ∈ roots → r ∈ dom) (Hdom : closed_under hnext dom)
    (Hfuel : (size dom ≤ fuel)%nat) :
  ∃ out, CollectLoadedPersistentObjectsForSanitize Find history fuel roots = Some out ∧
    NoDup out ∧
    ∀ id, id ∈ out ↔
      found Find id = true ∧ ∃ r, r ∈ roots ∧ rtc (leads_to hnext) r id.
Proof.
  unfold CollectLoadedPersistentObjectsForSanitize.
  destruct (queue_ids (∅, []) roots) as [queued stack] eqn:E.
  destruct (queue_ids_spec _ _ _ _ _ E) as (-> & Hs & Hin); [constructor|set_solver|].
  destruct (walk_history_finishes dom roots fuel ∅ (∅ ∪ list_to_set roots) stack [])
    as (d & queued & out & -> & [[Hq _] _ [Hn Ho] _ Hr Hc Hp]); [done| | |].
  - split; [|done|split; [constructor|set_solver]|set_solver|set_solver|set_solver|].
    + split; [|set_solver]. apply set_eq. set_solver.
    + intros a Ha. exists a. split; [set_solver|constructor].
  - rewrite difference_empty_L. done.
  - exists out. split; [done|]. split; [done|]. intros id. rewrite Ho.
    rewrite (and_comm (id ∈ d)). apply and_iff_compat_l.
    assert (queued = d) as -> by (apply set_eq; set_solver).
    by apply (closed_is_reachable hnext roots (λ a, a ∈ d)).
Qed.
End history_walk.

(** ** A graph with a cycle

    7 -> 8, 9; 8 -> 7, 20; node 7 has base 9.  12 is not in the Domain. *)
Module Examples.
Import Demo.

Lemma closed_under_decide next dom :
  forallb (λ a, forallb (λ b, bool_decide (b ∈ dom)) (next a)) (elements dom) = true →
  closed_under next dom.
Proof.
  rewrite forallb_forall. intros H a b Ha Hb. apply elem_of_elements, list_elem_of_In in Ha.
  apply H in Ha. rewrite forallb_forall in Ha. apply list_elem_of_In in Hb.
  by apply Ha, bool_decide_eq_true in Hb.
Qed.

Definition objects (id : Z) : option LiveObject :=
  if id =? 7 then Some (mkLive 2 (Some 9) 3)
  else if id =? 8 then Some (mkLive 4 None 5)
  else if id =? 9 then Some (mkLive 2 None 1)
  else if id =? 20 then Some (mkLive 1 None 0)
  else None.
Definition fields (id : Z) : list (option Z) :=
  if id =? 7 then [Some 8; None; Some 9; Some 12] else if id =? 8 then [Some 7; Some 20] else [].
Definition appended (id : Z) : list Z := if id =? 8 then [20] else [].
Definition events (id : Z) : list (option Z) :=
  if id =? 7 then [Some 9; Some 12; None] else if id =? 9 then [Some 20] else [].
Definition identifiers : gset Z := {[7; 8; 9; 12; 20]}.

Lemma CollectReachableObjectsFromLiveFields_spec_witness :
  ∃ out, CollectReachableObjectsFromLiveFields objects fields appended 10 7 = Some out ∧
    NoDup out ∧ ∀ id, id ∈ out ↔ live_object objects fields appended 7 id.
Proof.
  apply (CollectReachableObjectsFromLiveFields_spec objects fields appended identifiers).
  - apply (bool_decide_unpack (_ ∈ _)). vm_compute. exact I.
  - apply closed_under_decide. vm_compute. exact eq_refl.
  - apply Nat.leb_le. vm_compute. exact eq_refl.
Defined.

Example live_walk_result :
  CollectReachableObjectsFromLiveFields objects fields appended 10 7 = Some [7; 8; 20].
Proof. vm_compute. reflexivity. Qed.

Lemma CollectLoadedPersistentObjectsForSanitize_spec_witness :
  ∃ out, CollectLoadedPersistentObjectsForSanitize objects events 5 [7; 8] = Some out ∧
    NoDup out ∧
    ∀ id, id ∈ out ↔ found objects id = true ∧
      ∃ r, r ∈ [7; 8] ∧
        rtc (leads_to (λ id, if found objects id then queued_by objects events id else [])) r id.
Proof.
  apply (CollectLoadedPersistentObjectsForSanitize_spec objects events identifiers).
  - intros r Hr. apply list.Forall_forall with (x := r) (l := [7; 8]); [|exact Hr].
    apply (bool_decide_unpack (Forall _ _)). vm_compute. exact I.
  - apply closed_under_decide. vm_compute. exact eq_refl.
  - apply Nat.leb_le. vm_compute. exact eq_refl.
Defined.
End Examples.
