(* ===== verification/Checkpoint.v ===== *)
(** * The persistent checkpoint

    Models the persistent snapshot of src/object_serialization.cpp: how it is written, with
    the bases and journals of the nodes put aside and back, and how it is stored.  The
    format is that of a publication, with the bases of the nodes in a table of their own. *)
From S2P Require Import Prelude NativeBytes PublicationChannel.
From S2P Require Import Aether DomainStorage StoredGraph Publication GraphWalk.

(** ** InjectPersistentModelSnapshotToStorage *)

Section injecting.
Context {S : Type} `{!DomainStorage S}.

Fixpoint inject_checkpoint_layers (n : nat) (s : ByteSource) (st : S)
    : S * option ByteSource :=
  match n with
  | O => (st, Some s)
  | Datatypes.S n =>
      let '(h, s) := read_layer_header s in
      if negb (ok s) || payload_overruns h s then (st, None)
      else
        let '(accepted, st) := InjectObjectBytes st (header_layer h s) in
        if negb accepted then (st, None)
        else inject_checkpoint_layers n (advance s (h_size h)) st
  end.
End injecting.

(** Reading [n] pairs and keeping nothing; [None]: the bytes end before. *)
Fixpoint skip_pairs (read_second : ByteSource → Z * ByteSource) (n : nat) (s : ByteSource)
    : option ByteSource :=
  match n with
  | O => Some s
  | Datatypes.S n =>
      let '(_, s) := read_u32 s in
      let '(_, s) := read_second s in
      if negb (ok s) then None else skip_pairs read_second n s
  end.

(** [SkipPersistentCheckpointNodeBaseBindings]: older checkpoints end before the table. *)
Definition SkipPersistentCheckpointNodeBaseBindings (s : ByteSource) : bool :=
  if source_size s <? u64 (pos s + 4) then true else
  let '(count, s) := read_u32 s in
  if negb (ok s) then false
  else match skip_pairs read_u32 (Z.to_nat count) s with Some _ => true | None => false end.

Definition InjectPersistentModelSnapshotToStorage {S} `{!DomainStorage S} (expected_root : Z)
    (s : ByteSource) (st : S) : bool * S :=
  let '(root, s) := read_u32 s in
  if negb (ok s) || negb (root =? expected_root) then (false, st) else
  let '(count, s) := read_u32 s in
  if negb (ok s) then (false, st) else
  let '(st, r) := inject_checkpoint_layers (Z.to_nat count) s st in
  match r with
  | None => (false, st)
  | Some s =>
      let '(count, s) := read_u32 s in
      if negb (ok s) then (false, st) else
      match skip_pairs read_u64 (Z.to_nat count) s with
      | None => (false, st)
      | Some s => (SkipPersistentCheckpointNodeBaseBindings s, st)
      end
  end.

Section checkpoint.
Context {reg : AetherRegistry}.
Context (Find : Z → option LiveObject).

(** [WritePersistentCheckpointScratchLayers]: the objects the Domain has. *)
Definition checkpoint_objects (scratch : RamState) : list (Z * Classes) :=
  filter (λ e, is_Some (Find e.1)) (active scratch).

Definition WritePersistentCheckpointScratchLayers (scratch : RamState) (out : bytes) : bytes :=
  let out := write_counted (checkpoint_objects scratch) write_object_layers out in
  write_counted (checkpoint_objects scratch) (write_generation Find) out.

(** [WritePersistentCheckpointNodeBaseBindings]: the nodes, and their bases when valid. *)
Definition WritePersistentCheckpointNodeBaseBindings (saved_bases : list (Z * option Z))
    (out : bytes) : bytes :=
  let count_at := length out in
  let out := write_u32 out 0 in
  let '(out, count) := foldl (λ '(out, count) e,
    match e.2 with
    | None => (out, count)
    | Some base => (write_u32 (write_u32 out e.1) base, u32 (count + 1))
    end) (out, 0) saved_bases in
  patch_u32 out count_at count.

(** ** SerializePersistentModelSnapshot

    The base and journal of every node of the Domain.  [reachable] is
    [CollectReachableNodes], [save] is [SaveObjectGraphToScratch] of the root, [save_object]
    adds another object to a scratch storage; each sees the nodes as they are when it is
    called. *)
Context {J : Type} (record_valid : J → bool).

Record NodeHistory := mkHistory { nh_base : option Z; nh_journal : list J }.
Abbreviation Histories := (gmap Z NodeHistory).

Context (reachable : Histories → list Z) (save : Histories → RamState)
        (save_object : Histories → Z → RamState → RamState).

Definition set_history_journal (j : list J) (h : NodeHistory) : NodeHistory :=
  mkHistory (nh_base h) j.
Definition set_history_base (b : option Z) (h : NodeHistory) : NodeHistory :=
  mkHistory b (nh_journal h).

Definition journal_of (hs : Histories) (id : Z) : list J :=
  match hs !! id with Some h => nh_journal h | None => [] end.
Definition base_of (hs : Histories) (id : Z) : option Z :=
  h ← hs !! id; nh_base h.

(** The journals are saved and reduced to the records whose event is valid. *)
Definition reduce_journals (nodes : list Z) (hs : Histories) : Histories * list (Z * list J) :=
  foldl (λ '(hs, saved) id,
    (alter (set_history_journal (List.filter record_valid (journal_of hs id))) id hs,
     saved ++ [(id, journal_of hs id)])) (hs, []) nodes.

(** [ClearReachableNodeBaseForCheckpointSave] *)
Definition ClearReachableNodeBaseForCheckpointSave (nodes : list Z) (hs : Histories)
    : Histories * list (Z * option Z) :=
  foldl (λ '(hs, saved) id,
    (alter (set_history_base None) id hs, saved ++ [(id, base_of hs id)])) (hs, []) nodes.

(** [RestoreReachableNodeBase] *)
Definition RestoreReachableNodeBase (saved : list (Z * option Z)) (hs : Histories) : Histories :=
  foldl (λ hs e, alter (set_history_base e.2) e.1 hs) hs saved.

Definition restore_journals (saved : list (Z * list J)) (hs : Histories) : Histories :=
  foldl (λ hs e, alter (set_history_journal e.2) e.1 hs) hs saved.

(** [EnsurePersistentCheckpointBaseObjectsInScratch] *)
Definition EnsurePersistentCheckpointBaseObjectsInScratch (hs : Histories)
    (saved : list (Z * option Z)) (scratch : RamState) : RamState :=
  foldl (λ scratch e,
    match e.2 with
    | None => scratch
    | Some base =>
        if bool_decide (is_Some (find_active scratch base)) then scratch
        else if bool_decide (is_Some (Find base)) then save_object hs base scratch
        else scratch
    end) scratch saved.

(** The bytes, and the nodes afterwards. *)
Definition SerializePersistentModelSnapshot (root : Z) (hs : Histories) (out : bytes)
    : bytes * Histories :=
  let out := write_u32 out root in
  let '(hs, saved_journals) := reduce_journals (reachable hs) hs in
  let '(hs, saved_bases) := ClearReachableNodeBaseForCheckpointSave (reachable hs) hs in
  let scratch := save hs in
  let scratch := EnsurePersistentCheckpointBaseObjectsInScratch hs saved_bases scratch in
  let out := WritePersistentCheckpointScratchLayers scratch out in
  let out := WritePersistentCheckpointNodeBaseBindings saved_bases out in
  (out, restore_journals saved_journals (RestoreReachableNodeBase saved_bases hs)).

(** [SavePersistentModelSnapshotToStorageImpl]; [sidecar]: the sidecar is not asked for, or
    is written. *)
Definition SavePersistentModelSnapshotToStorage {S} `{!DomainStorage S} (sidecar : bool)
    (root : Z) (hs : Histories) (st : S) : bool * Histories * S :=
  let '(bytes, hs) := SerializePersistentModelSnapshot root hs [] in
  if negb sidecar then (false, hs, st) else
  let '(saved, st) := InjectPersistentModelSnapshotToStorage root (new_source bytes) st in
  (saved, hs, st).
End checkpoint.
Arguments NodeHistory : clear implicits.

(** ** LoadPersistentModelSnapshot *)

Section load.
Context {reg : AetherRegistry} {ids : AetherIds} {S : Type} `{!DomainStorage S}.

(** A live object of the Domain that is loaded: for a node its generation, its base when
    valid, and for every record its event when valid and whether the event is loaded;
    [lo_pointers]: the other pointers that reflection gives for a [Node] or an [ae::Obj]. *)
Record LoadedObject := mkLoaded {
  lo_class : Z;
  lo_generation : Z;
  lo_base : option Z;
  lo_journal : list (option Z * bool);
  lo_materialized : bool;
  lo_pointers : list (option Z)
}.
Abbreviation Domain := (gmap Z LoadedObject).

Definition set_lo_generation (g : Z) (o : LoadedObject) : LoadedObject :=
  mkLoaded (lo_class o) g (lo_base o) (lo_journal o) (lo_materialized o) (lo_pointers o).
Definition set_lo_base (b : option Z) (o : LoadedObject) : LoadedObject :=
  mkLoaded (lo_class o) (lo_generation o) b (lo_journal o) (lo_materialized o) (lo_pointers o).
Definition set_lo_materialized (o : LoadedObject) : LoadedObject :=
  mkLoaded (lo_class o) (lo_generation o) (lo_base o) (lo_journal o) true (lo_pointers o).

Definition is_node (o : LoadedObject) : bool :=
  negb (GenerationDistance Node_kClassId (lo_class o) <? 0).

Definition live (d : Domain) (id : Z) : option LiveObject :=
  (λ o, mkLive (lo_class o) (lo_base o) (lo_generation o)) <$> d !! id.

(** [LoadExisting d st id]: the factory loads the layers of the object [id] into it;
    [LoadRoot]: [DomainGraph::LoadRoot]; both with whether they succeeded.
    [reachable_nodes d root]: [CollectReachableNodes]. *)
Context (LoadExisting LoadRoot : Domain → S → Z → bool * Domain)
        (reachable_nodes : Domain → Z → list Z).

(** [None]: the load is abandoned with [abort]. *)
Definition materialize_checkpoint_shell (st : S) (d : Domain) (id : Z) : option Domain :=
  match d !! id with
  | Some _ => Some d
  | None => let '(loaded, d) := LoadRoot d st id in if loaded then Some d else None
  end.

Definition load_checkpoint_object (st : S) (d : Domain) (id : Z) : option Domain :=
  d ← materialize_checkpoint_shell st d id;
  let '(loaded, d) := LoadExisting d st id in
  if loaded then Some d else None.

Fixpoint for_each (f : Domain → Z → option Domain) (d : Domain) (l : list Z) : option Domain :=
  match l with
  | [] => Some d
  | id :: l => d ← f d id; for_each f d l
  end.

(** Every shell before any object is loaded, the root last in both passes. *)
Definition hydrate_checkpoint (st : S) (root : Z) (loaded_ids : list Z) (d : Domain)
    : option Domain :=
  let others := filter (λ id, id ≠ root) loaded_ids in
  d ← for_each (materialize_checkpoint_shell st) d others;
  d ← materialize_checkpoint_shell st d root;
  d ← for_each (load_checkpoint_object st) d others;
  load_checkpoint_object st d root.

Definition adopt_generation (id generation : Z) (d : Domain) : Domain :=
  match d !! id with
  | Some o => if is_node o then alter (set_lo_generation generation) id d else d
  | None => d
  end.

(** [None]: an assertion fails. *)
Fixpoint read_checkpoint_generations (n : nat) (s : ByteSource) (d : Domain)
    : option (ByteSource * Domain) :=
  match n with
  | O => Some (s, d)
  | Datatypes.S n =>
      let '(id, s) := read_u32 s in
      let '(generation, s) := read_u64 s in
      assert! ok s ;;
      read_checkpoint_generations n s (adopt_generation id generation d)
  end.

(** One row of the table of bases. *)
Definition restore_binding (st : S) (node_id base_id : Z) (d : Domain) : Domain :=
  match d !! node_id with
  | None => d
  | Some o =>
      if negb (is_node o) || bool_decide (is_Some (lo_base o)) then d else
      let '(held, d) :=
        match d !! base_id with
        | Some _ => (true, d)
        | None => LoadRoot d st base_id
        end in
      if negb held then d else alter (set_lo_base (Some base_id)) node_id d
  end.

Fixpoint read_bindings (n : nat) (s : ByteSource) (st : S) (d : Domain) : Domain :=
  match n with
  | O => d
  | Datatypes.S n =>
      let '(node_id, s) := read_u32 s in
      let '(base_id, s) := read_u32 s in
      if negb (ok s) then d else read_bindings n s st (restore_binding st node_id base_id d)
  end.

Definition RestorePersistedNodeBaseBindings (s : ByteSource) (st : S) (d : Domain) : Domain :=
  if source_size s <? u64 (pos s + 4) then d else
  let '(count, s) := read_u32 s in
  if negb (ok s) then d else read_bindings (Z.to_nat count) s st d.

(** ** SanitizeLoadedPersistentObjPtrs *)

(** [None] is never stale.  The pointers of loaded objects have a Domain. *)
Definition ObjPtrReferenceIsStale (loaded_ids : gset Z) (d : Domain) (ref : option Z) : bool :=
  match ref with
  | None => false
  | Some id => bool_decide (id ∉ loaded_ids) || negb (bool_decide (is_Some (d !! id)))
  end.

Definition clear_stale (loaded_ids : gset Z) (d : Domain) (ref : option Z) : option Z :=
  if ObjPtrReferenceIsStale loaded_ids d ref then None else ref.

(** Only a node has a base. *)
Definition SanitizePersistentObjPtrFieldsOnObject (loaded_ids : gset Z) (d : Domain) (id : Z)
    : Domain :=
  alter (λ o, mkLoaded (lo_class o) (lo_generation o)
                (if is_node o then clear_stale loaded_ids d (lo_base o) else lo_base o)
                (lo_journal o) (lo_materialized o)
                (clear_stale loaded_ids d <$> lo_pointers o)) id d.

Definition node_history (d : Domain) (id : Z) : list (option Z) :=
  match d !! id with Some o => lo_base o :: (lo_journal o).*1 | None => [] end.

(** The identifiers that the walk over the loaded objects can meet. *)
Definition history_ids (d : Domain) (roots : list Z) : list Z :=
  roots ++ omap (λ e, e) (concat (node_history d <$> (map_to_list d).*1)).

Definition SanitizeLoadedPersistentObjPtrs (root : Z) (loaded_ids : list Z) (d : Domain)
    : option Domain :=
  let roots := filter (λ id, ObjId_is_valid id) (root :: loaded_ids) in
  objects ← CollectLoadedPersistentObjectsForSanitize (live d) (node_history d)
              (length (history_ids d roots)) roots;
  Some (foldl (SanitizePersistentObjPtrFieldsOnObject (list_to_set (root :: loaded_ids))) d objects).

(** ** The journals: events that are not loaded are, and the journal is taken as applied. *)
Definition load_event (st : S) (d : Domain) (e : option Z * bool) : Domain :=
  match e with
  | (Some id, false) =>
      match d !! id with Some _ => (LoadExisting d st id).2 | None => d end
  | _ => d
  end.

Definition adopt_journal (st : S) (d : Domain) (id : Z) : Domain :=
  let journal := match d !! id with Some o => lo_journal o | None => [] end in
  alter set_lo_materialized id (foldl (load_event st) d journal).

(** [None]: an assertion fails, or the load is abandoned. *)
Definition LoadPersistentModelSnapshot (root : Z) (s : ByteSource) (d : Domain) (st : S)
    : option (Domain * S) :=
  let '(root_id, s) := read_u32 s in
  assert! ok s ;;
  assert! root =? root_id ;;
  let '(count, s) := read_u32 s in
  assert! ok s ;;
  '(s, st, loaded_ids) ← read_graph_layers (Z.to_nat count) s st [];
  d ← hydrate_checkpoint st root loaded_ids d;
  let '(count, s) := read_u32 s in
  assert! ok s ;;
  '(s, d) ← read_checkpoint_generations (Z.to_nat count) s d;
  let d := RestorePersistedNodeBaseBindings s st d in
  d ← SanitizeLoadedPersistentObjPtrs root loaded_ids d;
  Some (foldl (adopt_journal st) d (reachable_nodes d root), st).
End load.
