(* ===== verification/CheckpointTheory.v ===== *)
(** * Theorems on the persistent checkpoint

    What a checkpoint contains, that writing it leaves the model alone and that storing it
    stores all of it. *)
From S2P Require Import Prelude NativeBytes PublicationChannel.
From S2P Require Import Aether DomainStorage StoredGraph Publication PublicationTheory Checkpoint.

(** ** Checkpoints *)

Lemma alter_unchanged {A} (f : A → A) (i : Z) (m : gmap Z A) :
  (∀ x, m !! i = Some x → f x = x) → alter f i m = m.
Proof.
  intros H. apply map_eq. intros k. destruct (decide (k = i)) as [->|Hk].
  - rewrite lookup_alter_eq. destruct (m !! i) as [x|] eqn:E; [|done]. simpl. f_equal. auto.
  - by rewrite lookup_alter_ne.
Qed.

Section restoring.
Context {H V : Type} (get : gmap Z H → Z → V) (clear : gmap Z H → Z → H → H) (set : V → H → H).
Context (set_clear : ∀ hs id, alter (set (get hs id)) id (alter (clear hs id) id hs) = hs).

Definition restore_all (saved : list (Z * V)) (hs : gmap Z H) : gmap Z H :=
  foldl (λ hs e, alter (set e.2) e.1 hs) hs saved.

Lemma restore_alter saved f id hs :
  id ∉ saved.*1 → restore_all saved (alter f id hs) = alter f id (restore_all saved hs).
Proof.
  revert hs. induction saved as [|e saved IH]; intros hs Hn; simpl; [done|].
  rewrite fmap_cons, not_elem_of_cons in Hn. destruct Hn as [Hne Hn].
  by rewrite alter_alter_ne, IH by done.
Qed.

(** Fields that are saved and cleared one node after the other are all restored. *)
Lemma cleared_restored nodes hs saved :
  NoDup nodes →
  ∃ hs' more,
    foldl (λ '(hs, saved) id, (alter (clear hs id) id hs, saved ++ [(id, get hs id)]))
      (hs, saved) nodes = (hs', saved ++ more) ∧
    more.*1 = nodes ∧ restore_all more hs' = hs.
Proof.
  intros Hnd. revert hs saved. induction Hnd as [|id nodes Hid _ IH]; intros hs saved; simpl.
  { exists hs, []. by rewrite app_nil_r. }
  destruct (IH (alter (clear hs id) id hs) (saved ++ [(id, get hs id)]))
    as (hs' & more & -> & Hf & Hr).
  exists hs', ((id, get hs id) :: more). rewrite <-app_assoc. split; [done|].
  split; [by rewrite fmap_cons, Hf|]. simpl. rewrite restore_alter by by rewrite Hf.
  by rewrite Hr, set_clear.
Qed.
End restoring.

Section checkpoints.
Context {reg : AetherRegistry} (Find : Z → option LiveObject).
Context {J : Type} (record_valid : J → bool).
Abbreviation Histories := (gmap Z (NodeHistory J)).
Context (reachable : Histories → list Z) (save : Histories → RamState)
        (save_object : Histories → Z → RamState → RamState).

Lemma set_clear_journal (hs : Histories) id :
  alter (set_history_journal (journal_of hs id)) id
    (alter (set_history_journal (List.filter record_valid (journal_of hs id))) id hs) = hs.
Proof.
  rewrite alter_alter_eq. apply alter_unchanged. intros [b j] E. unfold journal_of.
  by rewrite E.
Qed.

Lemma set_clear_base (hs : Histories) id :
  alter (set_history_base (base_of hs id)) id (alter (set_history_base None) id hs) = hs.
Proof.
  rewrite alter_alter_eq. apply alter_unchanged. intros [b j] E. unfold base_of.
  by rewrite E.
Qed.

(** What is saved: the scratch storage of the nodes without bases and with their valid
    records, and the bases that were taken out. *)
Definition checkpoint_state (hs : Histories) : Histories * list (Z * option Z) :=
  let hs := (reduce_journals record_valid (reachable hs) hs).1 in
  ClearReachableNodeBaseForCheckpointSave (reachable hs) hs.
Definition checkpoint_scratch (hs : Histories) : RamState :=
  let '(hs, saved) := checkpoint_state hs in
  EnsurePersistentCheckpointBaseObjectsInScratch Find save_object hs saved (save hs).

Definition checkpoint_layers (scratch : RamState) : list Layer :=
  concat ((λ e, object_layers e.1 e.2) <$> checkpoint_objects Find scratch).
Definition checkpoint_generations (scratch : RamState) : list (Z * Z) :=
  concat (object_generation Find <$> checkpoint_objects Find scratch).
Definition bindings (saved : list (Z * option Z)) : list (Z * Z) :=
  omap (λ e, b ← e.2; Some (e.1, b)) saved.
Definition binding_bytes (e : Z * Z) : bytes := u32_bytes e.1 ++ u32_bytes e.2.

Lemma write_bindings_bytes saved out :
  WritePersistentCheckpointNodeBaseBindings saved out =
    out ++ table_bytes binding_bytes (bindings saved).
Proof.
  unfold WritePersistentCheckpointNodeBaseBindings.
  assert (∀ done count,
    foldl (λ '(out, count) e, match e.2 with
      | None => (out, count)
      | Some base => (write_u32 (write_u32 out e.1) base, u32 (count + 1))
      end) (done, u32 count) saved =
    (done ++ concat (binding_bytes <$> bindings saved), u32 (count + zlen (bindings saved)))) as H.
  { unfold bindings. induction saved as [|[id [b|]] saved IH]; intros done count;
      cbn [foldl omap list_omap mbind option_bind fmap list_fmap concat snd fst].
    - by rewrite app_nil_r, zlen_nil, Z.add_0_r.
    - rewrite u32_add_l, IH. unfold write_u32, ByteSink.write, binding_bytes. cbn [fst snd].
      rewrite zlen_cons, <-!app_assoc. by rewrite Z.add_assoc.
    - apply IH. }
  rewrite (H _ 0). unfold write_u32, ByteSink.write. rewrite <-app_assoc, patch_u32_spec.
  by rewrite Z.add_0_l.
Qed.

Lemma write_checkpoint_bytes scratch out :
  WritePersistentCheckpointScratchLayers Find scratch out =
    out ++ table_bytes layer_bytes (checkpoint_layers scratch) ++
    table_bytes generation_bytes (checkpoint_generations scratch).
Proof.
  unfold WritePersistentCheckpointScratchLayers.
  rewrite (write_counted_bytes (object_generation Find) generation_bytes)
    by apply write_generation_bytes.
  rewrite (write_counted_bytes (λ e, object_layers e.1 e.2) layer_bytes)
    by apply write_object_layers_bytes.
  by rewrite <-app_assoc.
Qed.

Definition snapshot_bytes (root : Z) (hs : Histories) : bytes :=
  u32_bytes root ++ table_bytes layer_bytes (checkpoint_layers (checkpoint_scratch hs)) ++
  table_bytes generation_bytes (checkpoint_generations (checkpoint_scratch hs)) ++
  table_bytes binding_bytes (bindings (checkpoint_state hs).2).

Abbreviation Serialize :=
  (SerializePersistentModelSnapshot Find record_valid reachable save save_object).

(** The snapshot writes its format, and puts every base and journal back. *)
Lemma SerializePersistentModelSnapshot_spec root hs out :
  (∀ hs, NoDup (reachable hs)) →
  Serialize root hs out = (out ++ snapshot_bytes root hs, hs).
Proof.
  intros Hnd. unfold SerializePersistentModelSnapshot, snapshot_bytes, checkpoint_scratch,
    checkpoint_state.
  destruct (cleared_restored journal_of
    (λ hs id, set_history_journal (List.filter record_valid (journal_of hs id)))
    set_history_journal set_clear_journal (reachable hs) hs [] (Hnd hs))
    as (hs1 & js & E1 & _ & R1).
  unfold reduce_journals. rewrite E1. cbn [fst app].
  destruct (cleared_restored base_of (λ _ _, set_history_base None)
    set_history_base set_clear_base (reachable hs1) hs1 [] (Hnd hs1))
    as (hs2 & bs & E2 & _ & R2).
  unfold ClearReachableNodeBaseForCheckpointSave. rewrite E2. cbn [app snd].
  rewrite write_bindings_bytes, write_checkpoint_bytes. unfold write_u32, ByteSink.write.
  rewrite <-!app_assoc. f_equal. unfold restore_journals, RestoreReachableNodeBase.
  unfold restore_all in R1, R2. by rewrite R2.
Qed.

Lemma elem_of_checkpoint_layers scratch l :
  l ∈ checkpoint_layers scratch ↔
    is_Some (Find (q_id (layer_query l))) ∧
    (∃ classes versions, find_active scratch (q_id (layer_query l)) = Some classes ∧
      classes !! q_class (layer_query l) = Some versions ∧
      versions !! q_version (layer_query l) = Some (layer_data l)).
Proof.
  unfold checkpoint_layers. rewrite list_elem_of_In, in_concat. setoid_rewrite <-list_elem_of_In.
  split.
  - intros (ls & Hls & Hl). apply list_elem_of_fmap in Hls as ([id classes] & -> & Hc).
    apply list_elem_of_filter in Hc as [Hn Hc]. apply elem_of_active in Hc.
    simpl in Hn, Hl. apply elem_of_object_layers in Hl as (<- & vs & Hv & Hd). eauto 10.
  - intros (Hn & classes & vs & Hf & Hc & Hv).
    exists (object_layers (q_id (layer_query l)) classes). split.
    + apply list_elem_of_fmap. exists (q_id (layer_query l), classes). split; [done|].
      apply list_elem_of_filter. split; [done|]. by apply elem_of_active.
    + apply elem_of_object_layers. eauto.
Qed.

Lemma checkpoint_consistent scratch : consistent (checkpoint_layers scratch).
Proof.
  intros l l' Hl Hl' Hq. apply elem_of_checkpoint_layers in Hl as (_ & c & v & Hf & Hc & Hv).
  apply elem_of_checkpoint_layers in Hl' as (_ & c' & v' & Hf' & Hc' & Hv').
  rewrite Hq in *. destruct l as [q d], l' as [q' d']. simpl in *. subst. congruence.
Qed.

(** The integers of a snapshot fit their fields. *)
Record snapshot_ok (hs : Histories) : Prop := {
  snapshot_layers : Forall layer_ok (checkpoint_layers (checkpoint_scratch hs));
  snapshot_generations : Forall generation_ok (checkpoint_generations (checkpoint_scratch hs));
  snapshot_bindings :
    Forall (λ e, is_u32 e.1 ∧ is_u32 e.2) (bindings (checkpoint_state hs).2);
  snapshot_layer_count : is_u32 (zlen (checkpoint_layers (checkpoint_scratch hs)));
  snapshot_generation_count : is_u32 (zlen (checkpoint_generations (checkpoint_scratch hs)));
  snapshot_binding_count : is_u32 (zlen (bindings (checkpoint_state hs).2))
}.

Section saving.
Context {S : Type} `{!DomainStorage S, !StorageLaws S}.

Lemma inject_checkpoint_layers_at ls s (st : S) r :
  Forall layer_ok ls → accepts st ls → at_bytes s (concat (layer_bytes <$> ls) ++ r) →
  ∃ s', inject_checkpoint_layers (length ls) s st = (inject_all st ls, Some s') ∧ at_bytes s' r.
Proof.
  intros Hok. revert s st. induction Hok as [|l ls Hl _ IH]; intros s st Ha H.
  { exists s. done. }
  cbn [fmap list_fmap concat] in H. rewrite <-app_assoc in H.
  cbn [length inject_checkpoint_layers]. destruct Ha as [Hacc Ha].
  destruct (read_header_at _ _ _ Hl H) as (s1 & -> & H1).
  rewrite (payload_fits _ _ _ Hl H1), (header_layer_at _ _ _ H1), (proj1 H1).
  cbn [negb orb]. pose proof (at_advance _ _ _ H1) as H2.
  unfold inject_all. cbn [foldl]. destruct (InjectObjectBytes st l) as [b st1].
  cbn [fst snd] in *. subst b. cbn [negb]. exact (IH _ st1 Ha H2).
Qed.

Lemma skip_generations_at es s r :
  Forall generation_ok es → at_bytes s (concat (generation_bytes <$> es) ++ r) →
  ∃ s', skip_pairs read_u64 (length es) s = Some s' ∧ at_bytes s' r.
Proof.
  intros Hok. revert s. induction Hok as [|e es [Hi Hg] _ IH]; intros s H; [by exists s|].
  cbn [fmap list_fmap concat] in H. unfold generation_bytes in H at 1.
  rewrite <-!app_assoc in H. cbn [length skip_pairs].
  destruct (read_u32_at _ _ _ Hi H) as (s1 & -> & H1).
  destruct (read_u64_at _ _ _ Hg H1) as (s2 & -> & H2).
  rewrite (proj1 H2). exact (IH s2 H2).
Qed.

Lemma skip_bindings_at es s r :
  Forall (λ e : Z * Z, is_u32 e.1 ∧ is_u32 e.2) es →
  at_bytes s (concat (binding_bytes <$> es) ++ r) →
  ∃ s', skip_pairs read_u32 (length es) s = Some s' ∧ at_bytes s' r.
Proof.
  intros Hok. revert s. induction Hok as [|e es [Hi Hg] _ IH]; intros s H; [by exists s|].
  cbn [fmap list_fmap concat] in H. unfold binding_bytes in H at 1.
  rewrite <-!app_assoc in H. cbn [length skip_pairs].
  destruct (read_u32_at _ _ _ Hi H) as (s1 & -> & H1).
  destruct (read_u32_at _ _ _ Hg H1) as (s2 & -> & H2).
  rewrite (proj1 H2). exact (IH s2 H2).
Qed.

(** Saving a checkpoint leaves the model alone and stores all of it: the bases and
    journals that are taken out of the nodes while the graph is saved are back
    afterwards, whatever the sidecar does; and when the storage accepts the layers the save
    reports success, every layer of the snapshot is loaded from the storage as it was
    saved, and no other object's layer has changed. *)
Theorem SavePersistentModelSnapshot_complete sidecar root hs (st : S)
    (Hnd : ∀ hs, NoDup (reachable hs)) (Hok : snapshot_ok hs) (Hroot : is_u32 root)
    (Hsize : zlen (Serialize root hs []).1 < 2 ^ 63)
    (Hacc : accepts st (checkpoint_layers (checkpoint_scratch hs))) :
  let '(saved, hs', st') :=
    SavePersistentModelSnapshotToStorage Find record_valid reachable save save_object
      sidecar root hs st in
  hs' = hs ∧ saved = sidecar ∧
  (sidecar = false → st' = st) ∧
  (sidecar = true →
    (∀ l, l ∈ checkpoint_layers (checkpoint_scratch hs) →
       Load st' (layer_query l) = kLoaded (layer_data l)) ∧
    (∀ q, (∀ l, l ∈ checkpoint_layers (checkpoint_scratch hs) →
       q_id (layer_query l) ≠ q_id q) → Load st' q = Load st q)).
Proof.
  unfold SavePersistentModelSnapshotToStorage.
  rewrite SerializePersistentModelSnapshot_spec, app_nil_l in * by done.
  destruct sidecar; cbn [negb]; [|done].
  destruct Hok as [Hl Hg Hb Hlc Hgc Hbc].
  pose proof (at_new_source _ Hsize) as H0. cbn [fst] in *.
  unfold snapshot_bytes, table_bytes in *.
  rewrite (u32_small _ Hlc), (u32_small _ Hgc), (u32_small _ Hbc), <-!app_assoc in *.
  set (source := new_source _) in *. clearbody source.
  unfold InjectPersistentModelSnapshotToStorage.
  destruct (read_u32_at _ _ _ Hroot H0) as (s1 & -> & H1).
  rewrite (proj1 H1), Z.eqb_refl. cbn [negb orb].
  destruct (read_u32_at _ _ _ Hlc H1) as (s2 & -> & H2). rewrite (proj1 H2), zlen_to_nat.
  cbn [negb].
  destruct (inject_checkpoint_layers_at _ _ st _ Hl Hacc H2) as (s3 & -> & H3).
  destruct (read_u32_at _ _ _ Hgc H3) as (s4 & -> & H4). rewrite (proj1 H4), zlen_to_nat.
  cbn [negb]. destruct (skip_generations_at _ _ _ Hg H4) as (s5 & -> & H5).
  rewrite <-(app_nil_r (concat (binding_bytes <$> bindings (checkpoint_state hs).2))) in H5.
  assert (SkipPersistentCheckpointNodeBaseBindings s5 = true) as ->.
  { unfold SkipPersistentCheckpointNodeBaseBindings.
    destruct (source_size s5 <? u64 (pos s5 + 4)); [done|].
    destruct (read_u32_at _ _ _ Hbc H5) as (s6 & -> & H6). rewrite (proj1 H6), zlen_to_nat.
    cbn [negb]. by destruct (skip_bindings_at _ _ _ Hb H6) as (s7 & -> & _). }
  split; [done|]. split; [done|]. split; [done|]. intros _. split.
  - intros l Hin. apply inject_all_loads; [done|apply checkpoint_consistent|done].
  - intros q Hq. by apply inject_all_other.
Qed.
End saving.
End checkpoints.
