(* ===== verification/CheckpointLoading.v ===== *)
(** * Loading a persistent checkpoint

    That what [SerializePersistentModelSnapshot] writes is loaded by
    [LoadPersistentModelSnapshot], with the generations and bases of the nodes. *)
From stdpp Require Import relations.
From S2P Require Import Prelude NativeBytes PublicationChannel.
From S2P Require Import Aether DomainStorage StoredGraph Publication PublicationTheory GraphWalk.
From S2P Require Import Checkpoint CheckpointTheory.

Abbreviation LoadedDomain := (gmap Z LoadedObject).

(** The Domain has the object. *)
Definition has (d : LoadedDomain) (id : Z) : Prop := is_Some (d !! id).

Section loading.
Context {reg : AetherRegistry} {ids : AetherIds}.

(** ** Generations *)

Definition adopt_all (es : list (Z * Z)) (d : LoadedDomain) : LoadedDomain :=
  foldl (λ d e, adopt_generation e.1 e.2 d) d es.

Lemma adopt_generation_lookup i g d n o :
  d !! n = Some o →
  adopt_generation i g d !! n =
    Some (if bool_decide (n = i) && is_node o then set_lo_generation g o else o).
Proof.
  intros E. unfold adopt_generation. case_bool_decide as Hi.
  - subst i. rewrite E. destruct (is_node o); [|done]. cbn [andb].
    by rewrite lookup_alter_eq, E.
  - destruct (d !! i) as [o'|]; [|done]. cbn [andb]. destruct (is_node o'); [|done].
    by rewrite lookup_alter_ne.
Qed.

(** The later entries of an object that has one entry leave it alone. *)
Lemma adopt_all_other es d n o :
  d !! n = Some o → n ∉ es.*1 → adopt_all es d !! n = Some o.
Proof.
  revert d. induction es as [|e es IH]; intros d E Hn; [done|]. cbn [adopt_all foldl].
  apply IH; [|set_solver]. rewrite (adopt_generation_lookup _ _ _ _ _ E).
  rewrite bool_decide_eq_false_2; [done|set_solver].
Qed.

Lemma adopt_all_adopts es d n g o :
  NoDup es.*1 → (n, g) ∈ es → d !! n = Some o → is_node o = true →
  adopt_all es d !! n = Some (set_lo_generation g o).
Proof.
  revert d. induction es as [|e es IH]; intros d Hn Hin E Ho; [set_solver|].
  cbn [fmap list_fmap] in Hn. apply list.NoDup_cons in Hn as [He Hn].
  cbn [adopt_all foldl]. apply elem_of_cons in Hin as [<-|Hin].
  - apply adopt_all_other; [|done]. rewrite (adopt_generation_lookup _ _ _ _ _ E).
    by rewrite bool_decide_eq_true_2, Ho.
  - apply IH; [done|done| |done]. rewrite (adopt_generation_lookup _ _ _ _ _ E).
    rewrite bool_decide_eq_false_2; [done|]. intros ->. apply He.
    apply list_elem_of_fmap. by exists (e.1, g).
Qed.

(** Adopting generations keeps everything else. *)
Lemma adopt_all_keeps es d n o :
  d !! n = Some o → ∃ g, adopt_all es d !! n = Some (set_lo_generation g o).
Proof.
  revert d o. induction es as [|e es IH]; intros d o E.
  { exists (lo_generation o). unfold adopt_all. cbn [foldl]. rewrite E. by destruct o. }
  cbn [adopt_all foldl].
  destruct (IH _ _ (adopt_generation_lookup e.1 e.2 _ _ _ E)) as (g & Hg).
  exists g. unfold adopt_all in Hg. rewrite Hg. by destruct (_ && _).
Qed.

Lemma read_checkpoint_generations_at es s r d :
  Forall generation_ok es → at_bytes s (concat (generation_bytes <$> es) ++ r) →
  ∃ s', read_checkpoint_generations (length es) s d = Some (s', adopt_all es d) ∧ at_bytes s' r.
Proof.
  intros Hok. revert s d. induction Hok as [|e es [Hi Hg] _ IH]; intros s d H; [by exists s|].
  cbn [fmap list_fmap concat] in H. unfold generation_bytes in H at 1.
  rewrite <-!app_assoc in H. cbn [length read_checkpoint_generations].
  destruct (read_u32_at _ _ _ Hi H) as (s1 & -> & H1).
  destruct (read_u64_at _ _ _ Hg H1) as (s2 & -> & H2).
  rewrite (proj1 H2). exact (IH s2 _ H2).
Qed.

(** ** Bases *)

Context {S : Type} `{!DomainStorage S, !StorageLaws S}.
Context (LoadRoot : LoadedDomain → S → Z → bool * LoadedDomain).

Definition bind_all (st : S) (bs : list (Z * Z)) (d : LoadedDomain) : LoadedDomain :=
  foldl (λ d e, restore_binding LoadRoot st e.1 e.2 d) d bs.

(** A row whose base the Domain has. *)
Lemma restore_binding_lookup st i b d n o :
  has d b → d !! n = Some o →
  restore_binding LoadRoot st i b d !! n =
    Some (if bool_decide (n = i) && is_node o && bool_decide (lo_base o = None)
          then set_lo_base (Some b) o else o).
Proof.
  intros [ob Hb] E. unfold restore_binding. case_bool_decide as Hi.
  - subst i. rewrite E, Hb. destruct (is_node o); cbn [negb orb andb]; [|done].
    destruct (lo_base o) as [x|]; [done|]. cbn. by rewrite lookup_alter_eq, E.
  - cbn [andb]. destruct (d !! i) as [o'|]; [|done]. rewrite Hb.
    destruct (negb (is_node o') || _); [done|]. cbn [negb]. by rewrite lookup_alter_ne.
Qed.

Lemma restore_binding_has st i b d n :
  has d b → has d n → has (restore_binding LoadRoot st i b d) n.
Proof.
  intros Hb [o E]. unfold has. by rewrite (restore_binding_lookup _ _ _ _ _ _ Hb E).
Qed.

Lemma bind_all_other st bs d n o :
  (∀ e, e ∈ bs → has d e.2) → d !! n = Some o → n ∉ bs.*1 → bind_all st bs d !! n = Some o.
Proof.
  revert d. induction bs as [|e bs IH]; intros d Hb E Hn; [done|]. cbn [bind_all foldl].
  assert (has d e.2) as He by (apply Hb; left).
  apply IH; [|by rewrite (restore_binding_lookup _ _ _ _ _ _ He E),
    bool_decide_eq_false_2 by set_solver|set_solver].
  intros e' He'. apply restore_binding_has; [done|]. apply Hb. by right.
Qed.

Lemma bind_all_binds st bs d n b o :
  NoDup bs.*1 → (∀ e, e ∈ bs → has d e.2) → (n, b) ∈ bs →
  d !! n = Some o → is_node o = true → lo_base o = None →
  bind_all st bs d !! n = Some (set_lo_base (Some b) o).
Proof.
  revert d. induction bs as [|e bs IH]; intros d Hn Hb Hin E Ho Hbase; [set_solver|].
  cbn [fmap list_fmap] in Hn. apply list.NoDup_cons in Hn as [He Hn].
  assert (has d e.2) as Heb by (apply Hb; left). cbn [bind_all foldl].
  assert (∀ e', e' ∈ bs → has (restore_binding LoadRoot st e.1 e.2 d) e'.2) as Hb'.
  { intros e' He'. apply restore_binding_has; [done|]. apply Hb. by right. }
  pose proof (restore_binding_lookup st e.1 e.2 _ _ _ Heb E) as E1.
  apply elem_of_cons in Hin as [<-|Hin].
  - apply bind_all_other; [done| |done]. rewrite E1.
    by rewrite Ho, Hbase, !bool_decide_eq_true_2.
  - apply IH; try done. rewrite E1, bool_decide_eq_false_2; [done|]. intros ->. apply He.
    apply list_elem_of_fmap. by exists (e.1, b).
Qed.

(** Restoring bases keeps everything else. *)
Lemma bind_all_keeps st bs d n o :
  (∀ e, e ∈ bs → has d e.2) → d !! n = Some o →
  ∃ b, bind_all st bs d !! n = Some (set_lo_base b o).
Proof.
  revert d o. induction bs as [|e bs IH]; intros d o Hb E.
  { exists (lo_base o). unfold bind_all. cbn [foldl]. rewrite E. by destruct o. }
  assert (has d e.2) as He by (apply Hb; left). cbn [bind_all foldl].
  assert (∀ e', e' ∈ bs → has (restore_binding LoadRoot st e.1 e.2 d) e'.2) as Hb'.
  { intros e' He'. apply restore_binding_has; [done|]. apply Hb. by right. }
  destruct (IH _ _ Hb' (restore_binding_lookup st e.1 e.2 _ _ _ He E)) as (b & Eb).
  exists b. unfold bind_all in Eb. rewrite Eb. by destruct (_ && _ && _).
Qed.

Lemma read_bindings_at bs s r st d :
  Forall (λ e : Z * Z, is_u32 e.1 ∧ is_u32 e.2) bs →
  at_bytes s (concat (binding_bytes <$> bs) ++ r) →
  read_bindings LoadRoot (length bs) s st d = bind_all st bs d.
Proof.
  intros Hok. revert s d. induction Hok as [|e bs [Hi Hb] _ IH]; intros s d H; [done|].
  cbn [fmap list_fmap concat] in H. unfold binding_bytes in H at 1.
  rewrite <-!app_assoc in H. cbn [length read_bindings].
  destruct (read_u32_at _ _ _ Hi H) as (s1 & -> & H1).
  destruct (read_u32_at _ _ _ Hb H1) as (s2 & -> & H2).
  rewrite (proj1 H2). exact (IH s2 _ H2).
Qed.

End loading.

(** ** Sanitizing *)

Section sanitizing.
Context {reg : AetherRegistry} {ids : AetherIds}.

(** What sanitizing keeps of the objects of [d]: generations, and the bases that were
    loaded and that the Domain has. *)
Definition keeps_loaded (loaded : gset Z) (d d1 : LoadedDomain) : Prop :=
  ∀ n o, d !! n = Some o → ∃ o1, d1 !! n = Some o1 ∧ lo_generation o1 = lo_generation o ∧
    ∀ b, lo_base o = Some b → b ∈ loaded → has d b → lo_base o1 = Some b.

Lemma sanitize_step loaded d id :
  keeps_loaded loaded d (SanitizePersistentObjPtrFieldsOnObject loaded d id).
Proof.
  intros n o E. unfold SanitizePersistentObjPtrFieldsOnObject.
  destruct (decide (n = id)) as [->|Hne]; [|rewrite lookup_alter_ne by done; by exists o].
  rewrite lookup_alter_eq, E. eexists. split; [done|]. cbn [lo_generation lo_base].
  split; [done|]. intros b -> Hb Hd. destruct (is_node o); [|done].
  unfold clear_stale, ObjPtrReferenceIsStale.
  rewrite bool_decide_eq_false_2 by tauto. by rewrite bool_decide_eq_true_2 by done.
Qed.

Lemma keeps_loaded_trans loaded d d1 d2 :
  keeps_loaded loaded d d1 → keeps_loaded loaded d1 d2 → keeps_loaded loaded d d2.
Proof.
  intros H1 H2 n o E. destruct (H1 n o E) as (o1 & E1 & Hg1 & Hb1).
  destruct (H2 n o1 E1) as (o2 & E2 & Hg2 & Hb2). exists o2. split; [done|].
  split; [congruence|]. intros b Hb Hl [ob Eb]. apply Hb2; [by apply Hb1; [..|eexists]|done|].
  destruct (H1 b ob Eb) as (ob1 & Eb1 & _). by eexists.
Qed.

Lemma sanitize_all_keeps loaded objects d :
  keeps_loaded loaded d (foldl (SanitizePersistentObjPtrFieldsOnObject loaded) d objects).
Proof.
  revert d. induction objects as [|id objects IH]; intros d; cbn [foldl].
  - intros n o E. by exists o.
  - eapply keeps_loaded_trans; [apply sanitize_step|apply IH].
Qed.

Lemma size_list_to_set_le (l : list Z) : (size (list_to_set l : gset Z) ≤ length l)%nat.
Proof.
  induction l as [|x l IH]; [done|]. cbn [list_to_set length foldr].
  rewrite size_union_alt, size_singleton.
  assert (size (list_to_set l ∖ {[x]} : gset Z) ≤ size (list_to_set l : gset Z))%nat; [|lia].
  apply subseteq_size. set_solver.
Qed.

Lemma history_ids_closed d roots :
  closed_under (λ id, if found (live d) id then queued_by (live d) (node_history d) id else [])
    (list_to_set (history_ids d roots)).
Proof.
  intros a b _. rewrite elem_of_list_to_set. destruct (found (live d) a) eqn:Ef; [|set_solver].
  unfold queued_by. destruct (node_at (live d) a); [|set_solver].
  rewrite list_elem_of_omap. intros (e & He & ->). apply elem_of_app. right.
  apply list_elem_of_omap. exists (Some b). split; [|done].
  apply list_elem_of_In, in_concat. exists (node_history d a). split; [|by apply list_elem_of_In].
  apply list_elem_of_In, list_elem_of_fmap_2. apply list_elem_of_fmap.
  unfold found, live in Ef. apply bool_decide_eq_true in Ef. rewrite fmap_is_Some in Ef.
  destruct Ef as [o Eo]. exists (a, o). split; [done|]. by apply elem_of_map_to_list.
Qed.

(** Sanitizing ends. *)
Lemma SanitizeLoadedPersistentObjPtrs_keeps root loaded d :
  ∃ objects d1, SanitizeLoadedPersistentObjPtrs root loaded d = Some d1 ∧
    d1 = foldl (SanitizePersistentObjPtrFieldsOnObject (list_to_set (root :: loaded))) d objects ∧
    keeps_loaded (list_to_set (root :: loaded)) d d1.
Proof.
  unfold SanitizeLoadedPersistentObjPtrs. set (roots := filter _ _).
  destruct (CollectLoadedPersistentObjectsForSanitize_spec (live d) (node_history d)
    (list_to_set (history_ids d roots)) (length (history_ids d roots)) roots)
    as (objects & -> & _).
  - intros r Hr. rewrite elem_of_list_to_set. apply elem_of_app. by left.
  - apply history_ids_closed.
  - apply size_list_to_set_le.
  - eexists objects, _. split; [done|]. split; [done|]. apply sanitize_all_keeps.
Qed.
End sanitizing.

(** ** Hydration

    [class_of] gives the class of every object by its identifier. *)

Section hydration.
Context {reg : AetherRegistry} {ids : AetherIds} (class_of : Z → Z).
Context {S : Type} (LoadExisting LoadRoot : LoadedDomain → S → Z → bool * LoadedDomain).

(** The class is that of a node. *)
Definition node_class (c : Z) : bool := negb (GenerationDistance Node_kClassId c <? 0).

(** The objects of the Domain have their classes, and the records of the journals name
    events, which are not nodes. *)
Definition typed (d : LoadedDomain) : Prop :=
  ∀ n o, d !! n = Some o → lo_class o = class_of n ∧
    ∀ e l, (Some e, l) ∈ lo_journal o → node_class (class_of e) = false.

(** What is relied on of the object library, for the storage [st]: a load keeps the objects
    the Domain has, changes no generation and no base but those of the object it loads,
    though it may create other objects, and gives objects their classes and journals their
    events; when [LoadRoot] succeeds the Domain has the object. *)
Record loader_ok (st : S) : Prop := {
  existing_frame : ∀ d id n o, typed d → d !! n = Some o →
    ∃ o', (LoadExisting d st id).2 !! n = Some o' ∧
      (n ≠ id → lo_generation o' = lo_generation o ∧ lo_base o' = lo_base o);
  root_frame : ∀ d id n o, typed d → d !! n = Some o →
    ∃ o', (LoadRoot d st id).2 !! n = Some o' ∧
      (n ≠ id → lo_generation o' = lo_generation o ∧ lo_base o' = lo_base o);
  root_found : ∀ d id, (LoadRoot d st id).1 = true → has (LoadRoot d st id).2 id;
  existing_typed : ∀ d id, typed d → typed (LoadExisting d st id).2;
  root_typed : ∀ d id, typed d → typed (LoadRoot d st id).2
}.

(** The objects can be loaded from the storage. *)
Definition loadable (st : S) (l : list Z) : Prop :=
  ∀ d id, id ∈ l → (LoadRoot d st id).1 = true ∧ (LoadExisting d st id).1 = true.

(** The nodes were stored without a base: loading one leaves it without. *)
Definition stored_without_base (st : S) (l : list Z) : Prop :=
  ∀ d id o, id ∈ l → (LoadExisting d st id).2 !! id = Some o → lo_base o = None.

Lemma typed_alter (f : LoadedObject → LoadedObject) i d :
  (∀ o, lo_class (f o) = lo_class o ∧ lo_journal (f o) = lo_journal o) →
  typed d → typed (alter f i d).
Proof.
  intros Hf Ht n o. destruct (decide (n = i)) as [->|Hne].
  - rewrite lookup_alter_eq. intros (o' & E & ->)%fmap_Some_1.
    destruct (Hf o') as [-> ->]. by apply Ht.
  - rewrite lookup_alter_ne by done. apply Ht.
Qed.

Lemma typed_is_node d n o : typed d → d !! n = Some o → is_node o = node_class (class_of n).
Proof. intros Ht E. unfold is_node. by rewrite (proj1 (Ht n o E)). Qed.

Context (st : S) (Hlaws : loader_ok st).

(** A step of the load keeps every object, and the generations and bases of those that [P]
    picks. *)
Definition loads_keep (P : Z → Prop) (d d' : LoadedDomain) : Prop :=
  typed d → typed d' ∧ ∀ n o, d !! n = Some o → ∃ o', d' !! n = Some o' ∧
    (P n → lo_generation o' = lo_generation o ∧ lo_base o' = lo_base o).

Lemma loads_keep_trans P d1 d2 d3 : loads_keep P d1 d2 → loads_keep P d2 d3 → loads_keep P d1 d3.
Proof.
  intros H1 H2 Ht. destruct (H1 Ht) as [Ht2 K1]. destruct (H2 Ht2) as [Ht3 K2].
  split; [done|]. intros n o E. destruct (K1 n o E) as (o2 & E2 & F2).
  destruct (K2 n o2 E2) as (o3 & E3 & F3). exists o3. split; [done|]. intros HP.
  destruct (F2 HP), (F3 HP). split; congruence.
Qed.

Lemma loads_keep_refl P d : loads_keep P d d.
Proof. intros Ht. split; [done|]. intros n o E. by exists o. Qed.

Lemma existing_keeps d id : loads_keep (λ n, n ≠ id) d (LoadExisting d st id).2.
Proof.
  intros Ht. split; [by apply (existing_typed _ Hlaws)|]. intros n o E.
  by apply (existing_frame _ Hlaws).
Qed.

Lemma materialize_succeeds l d id :
  loadable st l → id ∈ l → typed d →
  ∃ d', materialize_checkpoint_shell LoadRoot st d id = Some d' ∧
    loads_keep (λ n, n ≠ id) d d' ∧ has d' id.
Proof.
  intros Hl Hid Ht. unfold materialize_checkpoint_shell.
  destruct (d !! id) as [o|] eqn:E.
  { exists d. split; [done|]. split; [apply loads_keep_refl|by eexists]. }
  destruct (Hl d id Hid) as [Hr _]. pose proof (root_found _ Hlaws d id Hr) as Hf.
  pose proof (root_typed _ Hlaws d id) as Hk.
  pose proof (λ n o, root_frame _ Hlaws d id n o Ht) as Hfr.
  destruct (LoadRoot d st id) as [b d']. simpl in *. subst b. exists d'.
  split; [done|]. split; [|done]. intros _. split; [by apply Hk|done].
Qed.

Lemma load_checkpoint_object_succeeds l d id :
  loadable st l → id ∈ l → typed d → stored_without_base st (filter (λ n, node_class (class_of n)) l) →
  ∃ d', load_checkpoint_object LoadExisting LoadRoot st d id = Some d' ∧
    loads_keep (λ n, n ≠ id) d d' ∧
    ∃ o, d' !! id = Some o ∧ (node_class (class_of id) → lo_base o = None).
Proof.
  intros Hl Hid Ht Hb. unfold load_checkpoint_object.
  destruct (materialize_succeeds l d id Hl Hid Ht) as (d1 & -> & He & [o1 Hh]).
  cbn [mbind option_bind]. destruct (He Ht) as [Ht1 _]. destruct (Hl d1 id Hid) as [_ Hs].
  pose proof (existing_keeps d1 id) as Hk.
  destruct (existing_frame _ Hlaws d1 id id o1 Ht1 Hh) as (o & Eo & _).
  pose proof (Hb d1 id o) as Hnone. destruct (LoadExisting d1 st id) as [b d2].
  simpl in *. subst b. exists d2. split; [done|].
  split; [by eapply loads_keep_trans|]. exists o. split; [done|]. intros Hn.
  apply Hnone; [|done]. by apply list_elem_of_filter.
Qed.

(** A loop that does for every object what [Q] says, which the later steps keep. *)
Lemma for_each_succeeds (f : LoadedDomain → Z → option LoadedDomain)
    (Q : Z → LoadedDomain → Prop) l d :
  typed d →
  (∀ d id, typed d → id ∈ l → ∃ d', f d id = Some d' ∧ typed d' ∧ Q id d' ∧
     ∀ n, Q n d → Q n d') →
  ∃ d', for_each f d l = Some d' ∧ typed d' ∧ (∀ n, n ∈ l → Q n d') ∧ ∀ n, Q n d → Q n d'.
Proof.
  revert d. induction l as [|id l IH]; intros d Ht Hf.
  { exists d. split; [done|]. split; [done|]. split; [set_solver|done]. }
  destruct (Hf d id) as (d1 & E1 & Ht1 & Hq1 & Hk1); [done|by left|]. cbn [for_each].
  rewrite E1. cbn [mbind option_bind].
  destruct (IH d1) as (d2 & E2 & Ht2 & Hq2 & Hk2); [done|intros; apply Hf; [done|by right]|].
  exists d2. split; [done|]. split; [done|]. split; [|by intros n Hn; apply Hk2, Hk1].
  intros n Hn. apply elem_of_cons in Hn as [->|Hn]; [by apply Hk2|by apply Hq2].
Qed.

(** The object is there, and as a node it has no base. *)
Definition loaded_bare (n : Z) (d : LoadedDomain) : Prop :=
  ∃ o, d !! n = Some o ∧ (node_class (class_of n) → lo_base o = None).

Lemma loads_keep_bare d d' id n :
  typed d → loads_keep (λ n, n ≠ id) d d' → loaded_bare id d' → loaded_bare n d → loaded_bare n d'.
Proof.
  intros Ht Hk Hid (o & E & Hb). destruct (decide (n = id)) as [->|Hne]; [done|].
  destruct (Hk Ht) as [_ K]. destruct (K n o E) as (o' & E' & F).
  exists o'. split; [done|]. destruct (F Hne) as [_ ->]. done.
Qed.

(** The hydration: every object is there, and no node has a base yet. *)
Lemma hydrate_checkpoint_succeeds root loaded d :
  loadable st (root :: loaded) → typed d →
  stored_without_base st (filter (λ n, node_class (class_of n)) (root :: loaded)) →
  ∃ d', hydrate_checkpoint LoadExisting LoadRoot st root loaded d = Some d' ∧
    typed d' ∧ ∀ id, id ∈ root :: loaded → loaded_bare id d'.
Proof.
  intros Hl Ht Hbase. unfold hydrate_checkpoint. set (others := filter _ _).
  assert (∀ id, id ∈ others → id ∈ root :: loaded) as Hsub.
  { intros id Hid. apply list_elem_of_filter in Hid as [_ Hid]. by right. }
  destruct (for_each_succeeds (materialize_checkpoint_shell LoadRoot st) (λ _ _, True) others d)
    as (d1 & -> & Ht1 & _); [done| |].
  { intros d' id Ht' Hid.
    destruct (materialize_succeeds _ d' id Hl (Hsub _ Hid) Ht') as (d'' & E & Hk & _).
    exists d''. split; [done|]. split; [by apply Hk|done]. }
  cbn [mbind option_bind].
  destruct (materialize_succeeds _ d1 root Hl) as (d2 & -> & He2 & _); [by left|done|].
  cbn [mbind option_bind]. destruct (He2 Ht1) as [Ht2 _].
  destruct (for_each_succeeds (load_checkpoint_object LoadExisting LoadRoot st) loaded_bare
    others d2) as (d3 & -> & Ht3 & Hh3 & _); [done| |].
  { intros d' id Ht' Hid.
    destruct (load_checkpoint_object_succeeds _ d' id Hl (Hsub _ Hid) Ht' Hbase)
      as (d'' & E & Hk & Hb).
    exists d''. split; [done|]. split; [by apply Hk|]. split; [done|].
    intros n. by apply (loads_keep_bare _ _ id). }
  cbn [mbind option_bind].
  destruct (load_checkpoint_object_succeeds _ d3 root Hl) as (d4 & E4 & Hk4 & Hh4);
    [by left|done|done|].
  exists d4. split; [done|]. split; [by apply Hk4|].
  intros id Hid. destruct (decide (id = root)) as [->|Hne]; [done|].
  apply (loads_keep_bare _ _ root _ Ht3 Hk4 Hh4), Hh3, list_elem_of_filter.
  split; [done|set_solver].
Qed.

(** ** Adopting the journals *)

(** Loading events changes no node. *)
Lemma load_events_keep journal d :
  (∀ e l, (Some e, l) ∈ journal → node_class (class_of e) = false) →
  loads_keep (λ n, node_class (class_of n)) d (foldl (load_event LoadExisting st) d journal).
Proof.
  revert d. induction journal as [|[e l] journal IH]; intros d Hj; [apply loads_keep_refl|].
  cbn [foldl]. apply loads_keep_trans with (load_event LoadExisting st d (e, l)).
  - destruct e as [e|]; [|apply loads_keep_refl]. destruct l; [apply loads_keep_refl|].
    cbn [load_event]. destruct (d !! e); [|apply loads_keep_refl].
    intros Ht. destruct (existing_keeps d e Ht) as [Ht' K]. split; [done|].
    intros n o E. destruct (K n o E) as (o' & E' & F). exists o'. split; [done|].
    intros Hn. apply F. intros ->. rewrite (Hj e false) in Hn; [done|by left].
  - apply IH. intros e' l' He. apply (Hj e' l'). by right.
Qed.

Lemma adopt_journal_keeps d id :
  loads_keep (λ n, node_class (class_of n)) d (adopt_journal LoadExisting st d id).
Proof.
  intros Ht. unfold adopt_journal.
  set (journal := match d !! id with Some o => lo_journal o | None => [] end).
  destruct (load_events_keep journal d) as [Ht' K]; [|done|].
  { intros e l He. unfold journal in He. destruct (d !! id) as [o|] eqn:E; [|set_solver].
    by apply (proj2 (Ht id o E) e l). }
  split; [by apply typed_alter|]. intros n o E. destruct (K n o E) as (o' & E' & F).
  destruct (decide (n = id)) as [->|Hne].
  - rewrite lookup_alter_eq, E'. by exists (set_lo_materialized o').
  - rewrite lookup_alter_ne by done. by exists o'.
Qed.

Lemma adopt_journals_keep l d :
  loads_keep (λ n, node_class (class_of n)) d (foldl (adopt_journal LoadExisting st) d l).
Proof.
  revert d. induction l as [|id l IH]; intros d; [apply loads_keep_refl|]. cbn [foldl].
  eapply loads_keep_trans; [apply adopt_journal_keeps|apply IH].
Qed.

(** The steps between keep the Domain typed. *)
Lemma adopt_all_typed es d : typed d → typed (adopt_all es d).
Proof.
  revert d. induction es as [|e es IH]; intros d Ht; [done|]. cbn [adopt_all foldl].
  apply IH. unfold adopt_generation. destruct (d !! e.1) as [o|]; [|done].
  destruct (is_node o); [|done]. by apply typed_alter.
Qed.

Lemma bind_all_typed bs d : typed d → typed (bind_all LoadRoot st bs d).
Proof.
  revert d. induction bs as [|e bs IH]; intros d Ht; [done|]. cbn [bind_all foldl].
  apply IH. unfold restore_binding. destruct (d !! e.1) as [o|]; [|done].
  destruct (negb _ || _); [done|].
  assert (typed (match d !! e.2 with Some _ => (true, d) | None => LoadRoot d st e.2 end).2)
    as Ht' by (destruct (d !! e.2); [done|by apply (root_typed _ Hlaws)]).
  destruct (match d !! e.2 with Some _ => _ | None => _ end) as [held d']. simpl in Ht'.
  destruct held; [by apply typed_alter|done].
Qed.

Lemma sanitize_typed loaded objects d :
  typed d → typed (foldl (SanitizePersistentObjPtrFieldsOnObject loaded) d objects).
Proof.
  revert d. induction objects as [|id objects IH]; intros d Ht; [done|]. cbn [foldl].
  apply IH. by apply typed_alter.
Qed.
End hydration.

(** ** The tables have one row for each object *)

Lemma keyed_rows_sublist {X Y} (f : Z * X → list (Z * Y)) (l : list (Z * X)) :
  (∀ e, f e = [] ∨ ∃ y, f e = [(e.1, y)]) → (concat (f <$> l)).*1 `sublist_of` l.*1.
Proof.
  intros Hf. induction l as [|e l IH]; [done|]. cbn [fmap list_fmap concat].
  destruct (Hf e) as [->|[y ->]]; cbn [app fmap list_fmap fst].
  - by apply sublist_cons.
  - by apply sublist_skip.
Qed.

Lemma filter_keys_sublist {X} (P : Z * X → Prop) `{!∀ e, Decision (P e)} (l : list (Z * X)) :
  (filter P l).*1 `sublist_of` l.*1.
Proof.
  induction l as [|e l IH]; [done|]. cbn [filter list_filter]. case_decide; cbn.
  - by apply sublist_skip.
  - by apply sublist_cons.
Qed.

Section tables.
Context {reg : AetherRegistry} (Find : Z → option LiveObject).
Context {J : Type} (record_valid : J → bool).
Context (reachable : gmap Z (NodeHistory J) → list Z) (save : gmap Z (NodeHistory J) → RamState)
        (save_object : gmap Z (NodeHistory J) → Z → RamState → RamState).

Lemma checkpoint_generations_NoDup scratch : NoDup (checkpoint_generations Find scratch).*1.
Proof.
  apply sublist_NoDup with (checkpoint_objects Find scratch).*1.
  - apply sublist_NoDup with (active scratch).*1; [apply active_NoDup|apply filter_keys_sublist].
  - apply keyed_rows_sublist. intros e. unfold object_generation.
    destruct (o ← Find e.1; AsNode o) as [n|]; [right; by eexists|by left].
Qed.

Lemma bindings_NoDup hs :
  (∀ hs, NoDup (reachable hs)) → NoDup (bindings (checkpoint_state record_valid reachable hs).2).*1.
Proof.
  intros Hnd. unfold checkpoint_state.
  set (hs1 := (reduce_journals _ _ _).1).
  destruct (cleared_restored base_of (λ _ _, set_history_base None)
    set_history_base set_clear_base (reachable hs1) hs1 [] (Hnd hs1)) as (hs2 & bs & E & Hk & _).
  unfold ClearReachableNodeBaseForCheckpointSave. rewrite E. cbn [app snd].
  apply sublist_NoDup with bs.*1; [rewrite Hk; apply Hnd|]. unfold bindings.
  assert (omap (λ e : Z * option Z, b ← e.2; Some (e.1, b)) bs =
    concat ((λ e : Z * option Z, match e.2 with Some b => [(e.1, b)] | None => [] end) <$> bs)) as ->.
  { clear. induction bs as [|[i [b|]] bs IH];
      cbn [omap list_omap fmap list_fmap concat mbind option_bind snd fst app];
      [done|f_equal; exact IH|exact IH]. }
  apply keyed_rows_sublist. intros [i [b|]]; [right; by eexists|by left].
Qed.

(** ** The round trip *)

Context {ids : AetherIds} {S : Type} `{!DomainStorage S, !StorageLaws S}.
Context (LoadExisting LoadRoot : LoadedDomain → S → Z → bool * LoadedDomain)
        (reachable_nodes : LoadedDomain → Z → list Z).

Abbreviation Serialize :=
  (SerializePersistentModelSnapshot Find record_valid reachable save save_object).
Abbreviation layers hs :=
  (checkpoint_layers Find (checkpoint_scratch Find record_valid reachable save save_object hs)).
Abbreviation generations hs :=
  (checkpoint_generations Find (checkpoint_scratch Find record_valid reachable save save_object hs)).
Abbreviation bases hs := (bindings (checkpoint_state record_valid reachable hs).2).

Lemma RestorePersistedNodeBaseBindings_at bs s (st : S) d :
  Forall (λ e : Z * Z, is_u32 e.1 ∧ is_u32 e.2) bs → is_u32 (zlen bs) →
  at_bytes s (u32_bytes (zlen bs) ++ concat (binding_bytes <$> bs)) →
  RestorePersistedNodeBaseBindings LoadRoot s st d = bind_all LoadRoot st bs d.
Proof.
  intros Hb Hn H. unfold RestorePersistedNodeBaseBindings.
  pose proof (at_bytes_left _ _ H) as Hleft. rewrite zlen_app in Hleft.
  pose proof (zlen_nonneg (concat (binding_bytes <$> bs))).
  assert (zlen (u32_bytes (zlen bs)) = 4) as E4 by apply native_bytes_zlen.
  rewrite (pos_add _ _ _ H) by lia. destruct (Z.ltb_spec (source_size s) (pos s + 4)); [lia|].
  rewrite <-(app_nil_r (concat _)) in H.
  destruct (read_u32_at _ _ _ Hn H) as (s1 & -> & H1'). rewrite (proj1 H1'), zlen_to_nat.
  cbn [negb]. by apply (read_bindings_at LoadRoot _ _ []).
Qed.

(** The nodes whose generations are written are nodes of the Domain. *)
Lemma generations_of_nodes scratch n g :
  (n, g) ∈ checkpoint_generations Find scratch →
  ∃ o, Find n = Some o ∧ node_class (live_class o) = true ∧ live_generation o = g.
Proof.
  unfold checkpoint_generations. intros (rows & Hrows & Hin)%list_elem_of_In%in_concat.
  apply list_elem_of_In in Hrows. apply list_elem_of_fmap in Hrows as (e & -> & _).
  apply list_elem_of_In in Hin. unfold object_generation in Hin.
  destruct (Find e.1) as [o|] eqn:E; [|set_solver]. cbn [mbind option_bind] in Hin.
  unfold AsNode in Hin. destruct (GenerationDistance _ _ <? 0) eqn:Ed; [set_solver|].
  apply list_elem_of_singleton in Hin. simplify_eq. exists o.
  unfold node_class. by rewrite Ed.
Qed.

(** C17. A checkpoint that was saved is loaded: when the objects can be loaded from their
    layers, no assertion of the load fails and it is not abandoned; the layers are in the
    storage; and in the Domain that the load returns, after the journals are adopted, every
    object of the snapshot is there with its class, every node has the generation it had
    when it was saved, and every node that had a base has that base. *)
Theorem LoadPersistentModelSnapshot_restores (class_of : Z → Z) root hs (d : LoadedDomain) (st : S)
    (Hnd : ∀ hs, NoDup (reachable hs))
    (Hok : snapshot_ok Find record_valid reachable save save_object hs) (Hroot : is_u32 root)
    (Hsize : zlen (Serialize root hs []).1 < 2 ^ 63) (Hacc : accepts st (layers hs))
    (Hclass : ∀ n o, Find n = Some o → class_of n = live_class o)
    (Hstored : ∀ n, n ∈ (generations hs).*1 → n ∈ root :: note_ids [] (layers hs))
    (Hbases : ∀ e, e ∈ bases hs →
       e.1 ∈ (generations hs).*1 ∧ e.2 ∈ root :: note_ids [] (layers hs))
    (Hlaws : loader_ok class_of LoadExisting LoadRoot (inject_all st (layers hs)))
    (Hload : loadable LoadExisting LoadRoot (inject_all st (layers hs))
               (root :: note_ids [] (layers hs)))
    (Hbare : stored_without_base LoadExisting (inject_all st (layers hs))
               (filter (λ n, node_class (class_of n)) (root :: note_ids [] (layers hs))))
    (Hd : typed class_of d) :
  ∃ d' st',
    LoadPersistentModelSnapshot LoadExisting LoadRoot reachable_nodes root
      (new_source (Serialize root hs []).1) d st = Some (d', st') ∧
    (∀ l, l ∈ layers hs → Load st' (layer_query l) = kLoaded (layer_data l)) ∧
    (∀ id, id ∈ root :: note_ids [] (layers hs) →
       ∃ o, d' !! id = Some o ∧ lo_class o = class_of id) ∧
    (∀ n g, (n, g) ∈ generations hs → ∃ o, d' !! n = Some o ∧ lo_generation o = g) ∧
    (∀ n b, (n, b) ∈ bases hs → ∃ o, d' !! n = Some o ∧ lo_base o = Some b).
Proof.
  rewrite SerializePersistentModelSnapshot_spec, app_nil_l in * by done.
  destruct Hok as [Hl Hg Hb Hlc Hgc Hbc].
  pose proof (at_new_source _ Hsize) as H0. cbn [fst] in *.
  unfold snapshot_bytes, table_bytes in *.
  rewrite (u32_small _ Hlc), (u32_small _ Hgc), (u32_small _ Hbc), <-!app_assoc in *.
  set (source := new_source _) in *. clearbody source. clear Hsize.
  unfold LoadPersistentModelSnapshot.
  destruct (read_u32_at _ _ _ Hroot H0) as (s1 & -> & H1).
  rewrite (proj1 H1), Z.eqb_refl.
  destruct (read_u32_at _ _ _ Hlc H1) as (s2 & -> & H2). rewrite (proj1 H2), zlen_to_nat.
  destruct (read_graph_layers_at _ _ st [] _ Hl H2) as (s3 & -> & H3).
  cbn [mbind option_bind]. set (st' := inject_all st (layers hs)) in *.
  destruct (hydrate_checkpoint_succeeds _ _ _ _ Hlaws root _ d Hload Hd Hbare)
    as (d0 & -> & Ht0 & Hh0).
  cbn [mbind option_bind].
  destruct (read_u32_at _ _ _ Hgc H3) as (s4 & -> & H4). rewrite (proj1 H4), zlen_to_nat.
  destruct (read_checkpoint_generations_at _ _ _ d0 Hg H4) as (s5 & -> & H5).
  cbn [mbind option_bind].
  rewrite (RestorePersistedNodeBaseBindings_at _ _ _ _ Hb Hbc H5).
  set (d1 := adopt_all (generations hs) d0). set (d2 := bind_all LoadRoot st' (bases hs) d1).
  destruct (SanitizeLoadedPersistentObjPtrs_keeps root (note_ids [] (layers hs)) d2)
    as (objects & d3 & -> & E3 & Hk3). cbn [mbind option_bind].
  destruct (adopt_journals_keep class_of LoadExisting LoadRoot st' Hlaws
    (reachable_nodes d3 root) d3) as [Ht4 K4].
  { subst d3. by apply sanitize_typed, (bind_all_typed _ LoadExisting), adopt_all_typed. }
  clear E3 objects. set (d4 := foldl _ d3 _) in *.
  assert (∀ e, e ∈ bases hs → has d1 e.2) as Hhas.
  { intros e He. destruct (Hh0 _ (proj2 (Hbases e He))) as (o & Eo & _).
    destruct (adopt_all_keeps (generations hs) _ _ _ Eo) as [g Eg]. by eexists. }
  assert (∀ n g, (n, g) ∈ generations hs → node_class (class_of n) = true) as Hnode.
  { intros n g Hin. destruct (generations_of_nodes _ _ _ Hin) as (o & Eo & Hn & _).
    by rewrite (Hclass n o Eo). }
  exists d4, st'. split; [done|]. split; [|split; [|split]].
  - intros l Hin. apply inject_all_loads; [done|apply checkpoint_consistent|done].
  - intros id Hid. destruct (Hh0 id Hid) as (o & Eo & _).
    destruct (adopt_all_keeps (generations hs) _ _ _ Eo) as [g Eg].
    destruct (bind_all_keeps LoadRoot st' _ _ _ _ Hhas Eg) as [b Eb].
    destruct (Hk3 _ _ Eb) as (o3 & E & _). destruct (K4 _ _ E) as (o4 & E4 & _).
    exists o4. split; [done|]. apply (Ht4 _ _ E4).
  - intros n g Hin. destruct (Hh0 n) as (o & Eo & _).
    { apply Hstored, list_elem_of_fmap. by exists (n, g). }
    assert (is_node o = true) as Ho
      by by rewrite (typed_is_node _ _ _ _ Ht0 Eo), (Hnode n g Hin).
    pose proof (adopt_all_adopts _ _ _ _ _ (checkpoint_generations_NoDup _) Hin Eo Ho) as Eg.
    destruct (bind_all_keeps LoadRoot st' _ _ _ _ Hhas Eg) as [b Eb].
    destruct (Hk3 _ _ Eb) as (o3 & E & Hgen & _). destruct (K4 _ _ E) as (o4 & E4 & F4).
    exists o4. split; [done|]. rewrite (proj1 (F4 ltac:(by rewrite (Hnode n g Hin)))).
    by rewrite Hgen.
  - intros n b Hin. destruct (Hbases _ Hin) as [Hn Hloaded]. cbn [fst snd] in Hn, Hloaded.
    destruct (Hh0 n (Hstored n Hn)) as (o & Eo & Hbase).
    apply list_elem_of_fmap in Hn as ([? g] & -> & Hg'). cbn [fst] in *.
    pose proof (Hnode _ g Hg') as Hn. rewrite Hn in Hbase.
    assert (is_node o = true) as Ho by by rewrite (typed_is_node _ _ _ _ Ht0 Eo).
    destruct (adopt_all_keeps (generations hs) _ _ _ Eo) as [g' Eg].
    pose proof (bind_all_binds LoadRoot st' _ _ _ _ _ (bindings_NoDup hs Hnd) Hhas Hin Eg Ho
      (Hbase I)) as Eb.
    destruct (Hk3 _ _ Eb) as (o3 & E & _ & Hb3). destruct (K4 _ _ E) as (o4 & E4 & F4).
    exists o4. split; [done|]. rewrite (proj2 (F4 ltac:(by rewrite Hn))).
    apply Hb3; [done| |].
    + by rewrite elem_of_list_to_set.
    + destruct (Hhas _ Hin) as [ob Eob].
      destruct (bind_all_keeps LoadRoot st' _ _ _ _ Hhas Eob) as [b' Eb']. by eexists.
Qed.
End tables.
