(* ===== verification/PublicationExamples.v ===== *)
(** * Publications at concrete inputs

    A graph of two nodes and an object, the first node with a base, published into the
    concrete storage of DomainStorage.v and a mirror that keeps the class and the generation
    of its objects; and a checkpoint of the same nodes. *)
From S2P Require Import Prelude NativeBytes PublicationChannel.
From S2P Require Import Aether DomainStorage StoredGraph Publication PublicationTheory.
From S2P Require Import Checkpoint CheckpointTheory CheckpointLoading.
Import Demo DemoStorage.

(** The mirror: class and generation by identifier.  A root is created with the class of
    the last of its stored layers. *)
Abbreviation Mirror := (gmap Z (Z * Z)).

Definition mirror_load_root (u : Mirror) (st : DemoStorage.t) (id : Z) : bool * Mirror :=
  match Enumerate st id with
  | [] => (false, u)
  | _ => match u !! id with
          | Some _ => (true, u)
          | None => (true, <[id := (last_class st id, 0)]> u)
          end
  end.

#[export] Instance mirror_system : UiSystem Mirror DemoStorage.t := {|
  ui_Find u id := fst <$> u !! id;
  ui_LoadExisting u st id := (negb (bool_decide (Enumerate st id = [])), u);
  ui_LoadRoot := mirror_load_root;
  ui_AdoptPublished u id generation := alter (λ e, (e.1, generation)) id u
|}.

Definition model_objects (id : Z) : option LiveObject :=
  if id =? 7 then Some (mkLive 2 (Some 9) 3)
  else if id =? 8 then Some (mkLive 4 None 5)
  else if id =? 9 then Some (mkLive 2 None 1)
  else if id =? 20 then Some (mkLive 1 None 0)
  else None.

Definition model_graph : RamState :=
  {[7 := Some {[2 := {[0 := [1; 2; 3]]}]};
    8 := Some {[2 := {[0 := [4]]}; 4 := {[0 := []]}]};
    9 := Some {[2 := {[0 := [5; 5]]}]};
    20 := Some {[1 := {[2 := [6]]}]};
    21 := None]}.

Definition model_storage : DemoStorage.t := {[30 := Some {[(3, 0) := [7]]}]}.
Definition mirror : Mirror := {[7 := (2, 0)]}.

Lemma model_graph_ok : scratch_ok model_objects model_graph.
Proof.
  split.
  - apply (bool_decide_unpack (Forall layer_ok (published_layers model_objects model_graph))).
    vm_compute. exact I.
  - apply (bool_decide_unpack
      (Forall generation_ok (published_generations model_objects model_graph))).
    vm_compute. exact I.
  - apply (bool_decide_unpack (is_u32 _)). vm_compute. exact I.
  - apply (bool_decide_unpack (is_u32 _)). vm_compute. exact I.
Qed.

(** The layers are accepted: the storage accepts all of them. *)
Lemma demo_accepts (ls : list Layer) (st : DemoStorage.t) : accepts st ls.
Proof. revert st. induction ls as [|l ls IH]; intros st; [done|]. split; [done|]. apply IH. Qed.

(** The base of node 7 is not published; its own layer and the sidecar byte arrive. *)
Lemma ApplyStructuralPublication_roundtrip_witness :
  ∃ s' u' st',
    ApplyStructuralPublication
      (new_source (SerializeStructuralNodePublication model_objects model_graph 7 3 true []))
      mirror model_storage = Some (s', u', st', 1) ∧
    Load st' (mkQuery 8 2 0) = kLoaded [4] ∧
    Load st' (mkQuery 9 2 0) = kEmpty ∧ Load st' (mkQuery 30 3 0) = kLoaded [7].
Proof.
  destruct (ApplyStructuralPublication_roundtrip model_objects model_graph 7 3 true mirror
    model_storage 2 model_graph_ok) as (s' & st' & E & _ & Hl & Hk).
  - apply (bool_decide_unpack (is_u32 7)). vm_compute. exact I.
  - apply (bool_decide_unpack (is_u64 3)). vm_compute. exact I.
  - apply (bool_decide_unpack (is_u32 _)). vm_compute. exact I.
  - reflexivity.
  - apply demo_accepts.
  - eexists s', _, st'. split; [exact E|]. split; [|split].
    + apply (Hl (mkLayer (mkQuery 8 2 0) [4])).
      apply (bool_decide_unpack (_ ∈ _)). vm_compute. exact I.
    + rewrite Hk; [reflexivity|]. apply list.Forall_forall.
      apply (bool_decide_unpack (Forall _ _)). vm_compute. exact I.
    + rewrite Hk; [reflexivity|]. apply list.Forall_forall.
      apply (bool_decide_unpack (Forall _ _)). vm_compute. exact I.
Defined.

Lemma mirror_loads : loads_succeed (U := Mirror)
  (inject_all model_storage (published_layers model_objects model_graph))
  (7 :: note_ids [] (published_layers model_objects model_graph)).
Proof.
  intros u id Hid.
  assert (bool_decide (Enumerate (inject_all model_storage
    (published_layers model_objects model_graph)) id = []) = false) as E.
  { revert id Hid. apply list.Forall_forall. apply (bool_decide_unpack (Forall _ _)).
    vm_compute. exact I. }
  cbn [ui_LoadRoot ui_LoadExisting mirror_system fst]. unfold mirror_load_root.
  split; [|by rewrite E].
  apply bool_decide_eq_false in E.
  destruct (Enumerate _ id); [done|]. by destruct (u !! id).
Qed.

Lemma TryLoadInitialPublication_complete_witness :
  ∃ s' u' st' d,
    TryLoadInitialPublication
      (new_source (SerializeInitialPublication model_objects model_graph 7 []))
      mirror model_storage = (s', u', st', d) ∧
    stage d = Ok ∧ d_root_id d = 7 ∧ Load st' (mkQuery 20 1 2) = kLoaded [6].
Proof.
  destruct (TryLoadInitialPublication_complete model_objects model_graph 7 mirror
    model_storage model_graph_ok) as (s' & u' & st' & d & E & Hs & Hr & _ & Hl & _).
  - apply (bool_decide_unpack (is_u32 7)). vm_compute. exact I.
  - apply Z.ltb_lt. vm_compute. exact eq_refl.
  - apply demo_accepts.
  - apply mirror_loads.
  - exists s', u', st', d. split; [exact E|]. split; [exact Hs|]. split; [exact Hr|].
    apply (Hl (mkLayer (mkQuery 20 1 2) [6])).
    apply (bool_decide_unpack (_ ∈ _)). vm_compute. exact I.
Defined.

Lemma TryLoadInitialPublication_truncated_witness :
  (50 < length (SerializeInitialPublication model_objects model_graph 7 []))%nat ∧
  stage (TryLoadInitialPublication
    (new_source (take 50 (SerializeInitialPublication model_objects model_graph 7 [])))
    mirror model_storage).2 ≠ Ok.
Proof.
  split; [apply Nat.ltb_lt; vm_compute; exact eq_refl|].
  apply (TryLoadInitialPublication_truncated model_objects model_graph 7 mirror
    model_storage _ model_graph_ok).
  - apply (bool_decide_unpack (is_u32 7)). vm_compute. exact I.
  - apply Z.ltb_lt. vm_compute. exact eq_refl.
  - exists (drop 50 (SerializeInitialPublication model_objects model_graph 7 [])). split.
    + vm_compute. discriminate.
    + symmetry. apply take_drop.
Defined.

(** ** A checkpoint

    The journals are numbers, the negative ones without a valid event.  Node 7 has base 9,
    which only [save_object] saves; object 20 is an event. *)
Definition histories : gmap Z (NodeHistory Z) :=
  {[7 := mkHistory (Some 9) [1; -1; 2]; 8 := mkHistory None [5]]}.
Definition record_valid (j : Z) : bool := 0 <=? j.
Definition reachable_nodes (hs : gmap Z (NodeHistory Z)) : list Z := (map_to_list hs).*1.
Definition save_nodes (hs : gmap Z (NodeHistory Z)) : RamState :=
  <[8 := Some {[4 := {[0 := journal_of hs 8]}]}]>
    (<[20 := Some {[1 := {[0 := [6]]}]}]> ((λ h, Some {[2 := {[0 := nh_journal h]}]}) <$> hs)).
Definition save_object (hs : gmap Z (NodeHistory Z)) (id : Z) (scratch : RamState) : RamState :=
  <[id := Some {[2 := {[0 := [9]]}]}]> scratch.

Lemma histories_ok :
  snapshot_ok model_objects record_valid reachable_nodes save_nodes save_object histories.
Proof.
  split; first [apply (bool_decide_unpack (is_u32 _)); vm_compute; exact I
               |apply (bool_decide_unpack (Forall _ _)); vm_compute; exact I].
Qed.

(** The valid records of node 7 and its base are stored; the node has its base and all its
    records afterwards. *)
Lemma SavePersistentModelSnapshot_complete_witness :
  ∃ st', SavePersistentModelSnapshotToStorage model_objects record_valid reachable_nodes
           save_nodes save_object true 7 histories model_storage = (true, histories, st') ∧
    Load st' (mkQuery 7 2 0) = kLoaded [1; 2] ∧ Load st' (mkQuery 9 2 0) = kLoaded [9] ∧
    Load st' (mkQuery 30 3 0) = kLoaded [7].
Proof.
  pose proof (SavePersistentModelSnapshot_complete model_objects record_valid reachable_nodes
    save_nodes save_object true 7 histories model_storage) as H.
  destruct (SavePersistentModelSnapshotToStorage _ _ _ _ _ _ _ _ _) as [[b hs] st'] eqn:E.
  destruct H as (-> & -> & _ & Hst).
  - intros hs'. apply NoDup_fst_map_to_list.
  - exact histories_ok.
  - apply (bool_decide_unpack (is_u32 7)). vm_compute. exact I.
  - apply Z.ltb_lt. vm_compute. exact eq_refl.
  - apply demo_accepts.
  - destruct (Hst eq_refl) as [Hl Hk]. exists st'. split; [reflexivity|].
    split; [|split].
    + apply (Hl (mkLayer (mkQuery 7 2 0) [1; 2])).
      apply (bool_decide_unpack (_ ∈ _)). vm_compute. exact I.
    + apply (Hl (mkLayer (mkQuery 9 2 0) [9])).
      apply (bool_decide_unpack (_ ∈ _)). vm_compute. exact I.
    + rewrite Hk; [reflexivity|]. apply list.Forall_forall.
      apply (bool_decide_unpack (Forall _ _)). vm_compute. exact I.
Defined.

(** The checkpoint is loaded into an empty Domain, whose objects are created with the class of
    the last of their layers.  Loading a node gives it no base and a journal that names the
    event 20; loading the event gives it a pointer. *)
Definition demo_load_root (d : LoadedDomain) (st : DemoStorage.t) (id : Z) : bool * LoadedDomain :=
  if bool_decide (Enumerate st id = []) then (false, d)
  else (true, match d !! id with
              | Some _ => d
              | None => <[id := mkLoaded (last_class st id) 0 None [] false []]> d
              end).
Definition demo_load (o : LoadedObject) : LoadedObject :=
  if is_node o then mkLoaded (lo_class o) (lo_generation o) None [(Some 20, false)] false []
  else mkLoaded (lo_class o) (lo_generation o) None [] false [None].
Definition demo_load_existing (d : LoadedDomain) (st : DemoStorage.t) (id : Z)
    : bool * LoadedDomain :=
  (negb (bool_decide (Enumerate st id = [])), alter demo_load id d).
Definition demo_reachable (d : LoadedDomain) (root : Z) : list Z := (map_to_list d).*1.

Abbreviation demo_layers := (checkpoint_layers model_objects
  (checkpoint_scratch model_objects record_valid reachable_nodes save_nodes save_object histories)).
Abbreviation demo_stored := (inject_all model_storage demo_layers).
Definition demo_class_of (id : Z) : Z := last_class demo_stored id.

Lemma demo_event : node_class (demo_class_of 20) = false.
Proof. vm_compute. reflexivity. Qed.

Lemma demo_load_class o : lo_class (demo_load o) = lo_class o.
Proof. unfold demo_load. by destruct (is_node o). Qed.

Lemma demo_loader_ok : loader_ok demo_class_of demo_load_existing demo_load_root demo_stored.
Proof.
  split; unfold demo_load_existing, demo_load_root, has; cbn [snd].
  - intros d id n o _ E. destruct (decide (n = id)) as [->|Hne].
    + rewrite lookup_alter_eq, E. by eexists.
    + rewrite lookup_alter_ne by done. by exists o.
  - intros d id n o _ E. case_bool_decide; [by exists o|]. cbn [snd].
    destruct (d !! id) eqn:Ei; [by exists o|]. rewrite lookup_insert_ne by congruence.
    by exists o.
  - intros d id. case_bool_decide; [done|]. intros _. cbn [snd].
    destruct (d !! id) eqn:E; [rewrite E; by eexists|]. rewrite lookup_insert_eq. by eexists.
  - intros d id Ht n o. destruct (decide (n = id)) as [->|Hne].
    + rewrite lookup_alter_eq. intros (o' & E & ->)%fmap_Some_1. rewrite demo_load_class.
      split; [by apply Ht|]. unfold demo_load. destruct (is_node o'); cbn [lo_journal].
      * intros e l He%list_elem_of_singleton. simplify_eq. exact demo_event.
      * set_solver.
    + rewrite lookup_alter_ne by done. apply Ht.
  - intros d id Ht. case_bool_decide; [done|]. cbn [snd]. destruct (d !! id); [done|].
    intros n o. destruct (decide (n = id)) as [->|Hne].
    + rewrite lookup_insert_eq. intros [= <-]. split; [done|]. cbn [lo_journal]. set_solver.
    + rewrite lookup_insert_ne by done. apply Ht.
Qed.

Lemma demo_loadable : loadable demo_load_existing demo_load_root
  demo_stored (7 :: note_ids [] demo_layers).
Proof.
  intros d id Hid.
  assert (bool_decide (Enumerate demo_stored id = []) = false) as E.
  { revert id Hid. apply list.Forall_forall. apply (bool_decide_unpack (Forall _ _)).
    vm_compute. exact I. }
  unfold demo_load_root, demo_load_existing. by rewrite E.
Qed.

Lemma demo_without_base l : stored_without_base demo_load_existing demo_stored l.
Proof.
  intros d id o _. unfold demo_load_existing. cbn [snd]. rewrite lookup_alter_eq.
  intros (o' & _ & ->)%fmap_Some_1. unfold demo_load. by destruct (is_node o').
Qed.

Lemma demo_classes n o : model_objects n = Some o → demo_class_of n = live_class o.
Proof.
  unfold model_objects.
  do 4 (case Z.eqb_spec; [intros -> [= <-]; vm_compute; reflexivity|intros _]).
  done.
Qed.

(** In the Domain that is returned node 7 has its generation and its base. *)
Lemma LoadPersistentModelSnapshot_restores_witness :
  ∃ d st',
    LoadPersistentModelSnapshot demo_load_existing demo_load_root demo_reachable 7
      (new_source (SerializePersistentModelSnapshot model_objects record_valid reachable_nodes
        save_nodes save_object 7 histories []).1) ∅ model_storage = Some (d, st') ∧
    Load st' (mkQuery 7 2 0) = kLoaded [1; 2] ∧
    (∃ o, d !! 7 = Some o ∧ lo_generation o = 3) ∧ (∃ o, d !! 7 = Some o ∧ lo_base o = Some 9).
Proof.
  destruct (LoadPersistentModelSnapshot_restores model_objects record_valid reachable_nodes
    save_nodes save_object demo_load_existing demo_load_root demo_reachable demo_class_of
    7 histories ∅ model_storage) as (d & st' & E & Hl & _ & Hg & Hb).
  - intros hs'. apply NoDup_fst_map_to_list.
  - exact histories_ok.
  - apply (bool_decide_unpack (is_u32 7)). vm_compute. exact I.
  - apply Z.ltb_lt. vm_compute. exact eq_refl.
  - apply demo_accepts.
  - exact demo_classes.
  - apply list.Forall_forall. apply (bool_decide_unpack (Forall _ _)). vm_compute. exact I.
  - apply list.Forall_forall. apply (bool_decide_unpack (Forall _ _)). vm_compute. exact I.
  - exact demo_loader_ok.
  - exact demo_loadable.
  - apply demo_without_base.
  - intros n o Hn. by rewrite lookup_empty in Hn.
  - exists d, st'. split; [exact E|]. split; [|split].
    + apply (Hl (mkLayer (mkQuery 7 2 0) [1; 2])).
      apply (bool_decide_unpack (_ ∈ _)). vm_compute. exact I.
    + apply Hg. apply (bool_decide_unpack (_ ∈ _)). vm_compute. exact I.
    + apply Hb. apply (bool_decide_unpack (_ ∈ _)). vm_compute. exact I.
Defined.

(** Node 7 has its generation and its base, and the event was loaded for its journal. *)
Example checkpoint_result :
  (λ r : LoadedDomain * DemoStorage.t,
     ((λ o, (lo_generation o, lo_base o, lo_materialized o)) <$> r.1 !! 7,
      lo_pointers <$> r.1 !! 20)) <$>
    LoadPersistentModelSnapshot demo_load_existing demo_load_root demo_reachable 7
      (new_source (SerializePersistentModelSnapshot model_objects record_valid reachable_nodes
        save_nodes save_object 7 histories []).1) ∅ model_storage =
    Some (Some (3, Some 9, true), Some [None]).
Proof. vm_compute. reflexivity. Qed.
