(* ===== verification/ModelRuntime.v ===== *)
(** * The model runtime

    Models include/apptraverse/model_runtime.h and src/model_runtime.cpp: which nodes are
    mapped to which presentation roots and what is to be published ([Module Mapping]), and
    the queue of work between the threads that post and the model thread
    ([Module WorkQueue]).  A node is represented by the identifier of its object. *)
From S2P Require Import Prelude.

(** ** Nodes, presentation roots and pending publications *)
Module Mapping.

(** [bound]: the nodes whose notifier is bound to the runtime; [initialized]: the nodes with
    a valid base. *)
Record ModelRuntime := mkRuntime {
  model_nodes : list Z;
  object_to_roots : gmap Z (list Z);
  pending_by_root : gmap Z (gset Z);
  bound : gset Z;
  initialized : gset Z
}.

(** [reachable]: [CollectReachableNodes] of the application root. *)
Definition new_runtime (reachable : list Z) (initialized : gset Z) : ModelRuntime :=
  mkRuntime reachable ∅ ∅ ∅ initialized.

Definition roots_of (r : ModelRuntime) (id : Z) : list Z := default [] (object_to_roots r !! id).
Definition pending_of (r : ModelRuntime) (root : Z) : gset Z :=
  default ∅ (pending_by_root r !! root).

(** [objects]: [CollectReachableObjects] of the root. *)
Definition AddPresentationRoot (objects : list Z) (root : Z) (r : ModelRuntime) : ModelRuntime :=
  mkRuntime (model_nodes r)
    (foldl (λ m id, <[id := default [] (m !! id) ++ [root]]> m) (object_to_roots r) objects)
    (pending_by_root r) (bound r) (initialized r).

Definition AttachNode (node root : Z) (r : ModelRuntime) : ModelRuntime :=
  mkRuntime
    (if bool_decide (node ∈ model_nodes r) then model_nodes r else model_nodes r ++ [node])
    (<[node := if bool_decide (root ∈ roots_of r node) then roots_of r node
               else roots_of r node ++ [root]]> (object_to_roots r))
    (pending_by_root r) ({[node]} ∪ bound r) ({[node]} ∪ initialized r).

(** The entry of the node in what is pending for the root; an entry without nodes goes. *)
Definition drop_pending (node root : Z) (pending : gmap Z (gset Z)) : gmap Z (gset Z) :=
  match pending !! root with
  | None => pending
  | Some nodes =>
      let nodes := nodes ∖ {[node]} in
      if bool_decide (nodes = ∅) then delete root pending else <[root := nodes]> pending
  end.

(** [None]: the node is not mapped, and the code goes through the end iterator. *)
Definition DetachNode (node root : Z) (r : ModelRuntime) : option ModelRuntime :=
  let pending := drop_pending node root (pending_by_root r) in
  roots ← object_to_roots r !! node;
  match filter (λ i, i ≠ root) roots with
  | [] => Some (mkRuntime (filter (λ i, i ≠ node) (model_nodes r))
                  (delete node (object_to_roots r)) pending
                  (bound r ∖ {[node]}) (initialized r))
  | rest => Some (mkRuntime (model_nodes r) (<[node := rest]> (object_to_roots r)) pending
                    (bound r) (initialized r))
  end.

(** The notifier of a node, which is called only while it is bound. *)
Definition OnMaterializedChange (node : Z) (r : ModelRuntime) : ModelRuntime :=
  match object_to_roots r !! node with
  | None => r
  | Some roots =>
      mkRuntime (model_nodes r) (object_to_roots r)
        (foldl (λ m root, <[root := {[node]} ∪ default ∅ (m !! root)]> m) (pending_by_root r) roots)
        (bound r) (initialized r)
  end.

Definition NotifyMaterializedChange (node : Z) (r : ModelRuntime) : ModelRuntime :=
  if bool_decide (node ∈ bound r) then OnMaterializedChange node r else r.

Definition HasPending (r : ModelRuntime) (root : Z) : bool :=
  match pending_by_root r !! root with
  | None => false
  | Some nodes => negb (bool_decide (nodes = ∅))
  end.

Definition IsInExecutionList (r : ModelRuntime) (node : Z) : bool :=
  bool_decide (node ∈ model_nodes r).

Definition IsMappedToPresentationRoot (r : ModelRuntime) (node root : Z) : bool :=
  match object_to_roots r !! node with
  | None => false
  | Some roots => bool_decide (root ∈ roots)
  end.

Definition BindAllModelNodeNotifiers (r : ModelRuntime) : ModelRuntime :=
  mkRuntime (model_nodes r) (object_to_roots r) (pending_by_root r)
    (list_to_set (model_nodes r) ∪ bound r) (initialized r).

(** [publish]: [UiMirror::Publish], with the mirror's state. *)
Section publish.
Context {M : Type} (publish : M → Z → list Z → bool * M).

Definition publish_root (acc : ModelRuntime * M) (root : Z) : ModelRuntime * M :=
  let '(r, m) := acc in
  let without := mkRuntime (model_nodes r) (object_to_roots r) (delete root (pending_by_root r))
                   (bound r) (initialized r) in
  match pending_by_root r !! root with
  | None => (r, m)
  | Some nodes =>
      if bool_decide (nodes = ∅) then (without, m) else
      let '(published, m) := publish m root (elements nodes) in
      if published then (without, m) else (r, m)
  end.

Definition PublishChanged (r : ModelRuntime) (m : M) : ModelRuntime * M :=
  foldl publish_root (r, m) (map_to_list (pending_by_root r)).*1.
End publish.

(** The operations, and what callers keep to: a node is detached from a root it is mapped
    to. *)
Inductive Operation :=
| Attach (node root : Z)
| Detach (node root : Z)
| AddRoot (objects : list Z) (root : Z)
| Changed (node : Z)
| BindAll
| Publish (taken : Z → bool).

Definition perform (r : ModelRuntime) (op : Operation) : option ModelRuntime :=
  match op with
  | Attach node root => Some (AttachNode node root r)
  | Detach node root => DetachNode node root r
  | AddRoot objects root => Some (AddPresentationRoot objects root r)
  | Changed node => Some (NotifyMaterializedChange node r)
  | BindAll => Some (BindAllModelNodeNotifiers r)
  | Publish taken => Some (PublishChanged (λ _ root _, (taken root, tt)) r tt).1
  end.

Fixpoint perform_all (r : ModelRuntime) (ops : list Operation) : option ModelRuntime :=
  match ops with
  | [] => Some r
  | op :: ops => r ← perform r op; perform_all r ops
  end.
End Mapping.

(** ** The work queue and the model thread *)
Module WorkQueue.
Section queue.
Context {Work : Type}.

(** Where the model thread is in [ThreadMain]: at the test of the loop, in [DrainWork] (of the
    loop, or the one after it), running a work item, updating and publishing, waiting, or
    at the end. *)
Inductive Place :=
| LoopTest
| Drain (final : bool)
| Running (final : bool) (work : Work)
| UpdateAndPublish
| Waiting
| Exited.

(** [accepted] and [executed] record what happened. *)
Record Runtime := mkRuntime {
  work_ : list Work;
  accept_work_ : bool;
  stop_ : bool;
  place : Place;
  accepted : list Work;
  executed : list Work
}.

(** [Start] *)
Definition Start : Runtime := mkRuntime [] true false LoopTest [] [].

(** Decision and push are one critical section. *)
Definition Post (w : Work) (s : Runtime) : Runtime :=
  if accept_work_ s
  then mkRuntime (work_ s ++ [w]) true (stop_ s) (place s) (accepted s ++ [w]) (executed s)
  else s.

Definition RequestStop (s : Runtime) : Runtime :=
  mkRuntime (work_ s) false true (place s) (accepted s) (executed s).

Definition at_place (p : Place) (s : Runtime) : Runtime :=
  mkRuntime (work_ s) (accept_work_ s) (stop_ s) p (accepted s) (executed s).

(** One step of the model thread.  A wait ends when the condition holds or, with
    [timeout], when the next update is due; [None]: the thread stays where it is. *)
Definition thread_step (timeout : bool) (s : Runtime) : option Runtime :=
  match place s with
  | LoopTest => Some (at_place (Drain (stop_ s)) s)
  | Drain final =>
      match work_ s with
      | [] => Some (at_place (if final then Exited else UpdateAndPublish) s)
      | w :: rest => Some (mkRuntime rest (accept_work_ s) (stop_ s) (Running final w)
                             (accepted s) (executed s))
      end
  | Running final w => Some (mkRuntime (work_ s) (accept_work_ s) (stop_ s) (Drain final)
                               (accepted s) (executed s ++ [w]))
  | UpdateAndPublish => Some (at_place Waiting s)
  | Waiting => if stop_ s || negb (bool_decide (length (work_ s) = O)) || timeout
               then Some (at_place LoopTest s) else None
  | Exited => None
  end.

(** A step of the threads: a post (by any thread, the running work included), a request to
    stop, or a step of the model thread. *)
Inductive Action :=
| DoPost (w : Work)
| DoStop
| DoThread (timeout : bool).

Definition act (s : Runtime) (a : Action) : Runtime :=
  match a with
  | DoPost w => Post w s
  | DoStop => RequestStop s
  | DoThread timeout => default s (thread_step timeout s)
  end.

Definition acts (s : Runtime) (l : list Action) : Runtime := foldl act s l.
End queue.
Arguments Place : clear implicits.
Arguments Runtime : clear implicits.
Arguments Action : clear implicits.
End WorkQueue.
