(* ===== verification/ModelRuntimeTheory.v ===== *)
(** * Theorems on the model runtime

    What is pending is mapped and nothing of a detached node stays behind; publications lose
    no change; work that is accepted runs exactly once, in order, and the model thread
    ends. *)
From S2P Require Import Prelude ModelRuntime.

Module Mapping.
Import ModelRuntime.Mapping.

Record runtime_ok (r : ModelRuntime) : Prop := {
  ok_pending : ∀ root n, n ∈ pending_of r root → root ∈ roots_of r n;
  ok_bound : ∀ n, n ∈ bound r → n ∈ model_nodes r;
  ok_roots : ∀ n, object_to_roots r !! n ≠ Some [];
  ok_nodup : NoDup (model_nodes r)
}.

(** ** Presentation roots *)

Lemma add_root_lookup root objects (m : gmap Z (list Z)) n :
  ∃ k, default [] (foldl (λ m id, <[id := default [] (m !! id) ++ [root]]> m) m objects !! n) =
    default [] (m !! n) ++ replicate k root ∧
  ((foldl (λ m id, <[id := default [] (m !! id) ++ [root]]> m) m objects !! n) = m !! n ∨ k ≠ O).
Proof.
  revert m. induction objects as [|id objects IH]; intros m; cbn [foldl].
  { exists O. rewrite app_nil_r. split; [done|by left]. }
  destruct (IH (<[id := default [] (m !! id) ++ [root]]> m)) as (k & E & H).
  destruct (decide (n = id)) as [->|Hne].
  - rewrite lookup_insert_eq in E. simpl in E. exists (S k).
    rewrite E, <-app_assoc. split; [done|by right].
  - rewrite lookup_insert_ne in E, H by done. by exists k.
Qed.

Lemma AddPresentationRoot_ok objects root r :
  runtime_ok r → runtime_ok (AddPresentationRoot objects root r).
Proof.
  intros [Hp Hb Hr Hn]. split; [|done| |done].
  - intros i n Hin. apply Hp in Hin. unfold roots_of, AddPresentationRoot in *. cbn in *.
    destruct (add_root_lookup root objects (object_to_roots r) n) as (k & -> & _). set_solver.
  - intros n E. cbn in E.
    destruct (add_root_lookup root objects (object_to_roots r) n) as (k & Ek & [Hk|Hk]).
    + rewrite Hk in E. by apply (Hr n).
    + rewrite E in Ek. cbn in Ek. destruct (default [] _); [|done]. by destruct k.
Qed.

(** ** Attaching *)

Lemma AttachNode_ok node root r : runtime_ok r → runtime_ok (AttachNode node root r).
Proof.
  intros [Hp Hb Hr Hn]. unfold AttachNode.
  assert (∀ n, n ∈ model_nodes r → n ∈ (if bool_decide (node ∈ model_nodes r) then model_nodes r
    else model_nodes r ++ [node])) as Hsub by (intros; case_bool_decide; set_solver).
  split; cbn.
  - intros i n Hin. apply Hp in Hin. unfold roots_of in *. cbn.
    destruct (decide (n = node)) as [->|]; [|by rewrite lookup_insert_ne].
    rewrite lookup_insert_eq. cbn. destruct (bool_decide (root ∈ _)); [done|]. apply elem_of_app. by left.
  - intros n. rewrite elem_of_union, elem_of_singleton. intros [->|Hin]; [|by apply Hsub, Hb].
    clear Hsub. case_bool_decide; set_solver.
  - intros n. destruct (decide (n = node)) as [->|]; [|by rewrite lookup_insert_ne].
    rewrite lookup_insert_eq.
    destruct (bool_decide_reflect (root ∈ roots_of r node)) as [Hi|Hi]; intros [= E].
    + rewrite E in Hi. by apply elem_of_nil in Hi.
    + by destruct (roots_of r node).
  - clear Hsub. case_bool_decide; [done|]. apply list.NoDup_app. split; [done|].
    split; [set_solver|apply NoDup_singleton].
Qed.

(** ** Changes *)

Lemma note_roots_lookup node roots (m : gmap Z (gset Z)) root n :
  n ∈ default ∅ (foldl (λ m root, <[root := {[node]} ∪ default ∅ (m !! root)]> m) m roots !! root) ↔
  n ∈ default ∅ (m !! root) ∨ (n = node ∧ root ∈ roots).
Proof.
  revert m. induction roots as [|i roots IH]; intros m; cbn [foldl]; [set_solver|].
  rewrite IH. destruct (decide (root = i)) as [->|Hne].
  - rewrite lookup_insert_eq. cbn. set_solver.
  - rewrite lookup_insert_ne by done. set_solver.
Qed.

(** A change is pending for exactly the roots the node is mapped to, besides what was. *)
Lemma OnMaterializedChange_pending node r root n :
  n ∈ pending_of (OnMaterializedChange node r) root ↔
  n ∈ pending_of r root ∨ (n = node ∧ root ∈ roots_of r node).
Proof.
  unfold OnMaterializedChange, roots_of.
  destruct (object_to_roots r !! node) as [roots|]; [|set_solver].
  unfold pending_of. cbn. apply note_roots_lookup.
Qed.

Lemma NotifyMaterializedChange_ok node r :
  runtime_ok r → runtime_ok (NotifyMaterializedChange node r).
Proof.
  intros Hok. unfold NotifyMaterializedChange. case_bool_decide; [|done].
  destruct Hok as [Hp Hb Hr Hn].
  assert (object_to_roots (OnMaterializedChange node r) = object_to_roots r ∧
    model_nodes (OnMaterializedChange node r) = model_nodes r ∧
    bound (OnMaterializedChange node r) = bound r) as (Ho & Hm & Hbd).
  { unfold OnMaterializedChange. by destruct (object_to_roots r !! node). }
  split; [|by rewrite Hbd, Hm|by rewrite Ho|by rewrite Hm].
  intros root n Hin. unfold roots_of. rewrite Ho.
  apply OnMaterializedChange_pending in Hin as [Hin|[-> Hin]]; [by apply Hp|done].
Qed.

(** ** Detaching *)

Lemma drop_pending_lookup node root (m : gmap Z (gset Z)) i :
  default ∅ (drop_pending node root m !! i) =
    if decide (i = root) then default ∅ (m !! i) ∖ {[node]} else default ∅ (m !! i).
Proof.
  unfold drop_pending. case_decide as Hi.
  - subst i. destruct (m !! root) as [nodes|] eqn:E; [|rewrite E; cbn; set_solver].
    case_bool_decide as He.
    + rewrite lookup_delete_eq. cbn. by rewrite He.
    + by rewrite lookup_insert_eq.
  - destruct (m !! root) as [nodes|]; [|done].
    case_bool_decide; [by rewrite lookup_delete_ne|by rewrite lookup_insert_ne].
Qed.

Lemma mapped_roots_of r n i :
  IsMappedToPresentationRoot r n i = bool_decide (i ∈ roots_of r n).
Proof.
  unfold IsMappedToPresentationRoot, roots_of. destruct (object_to_roots r !! n); [done|].
  symmetry. apply bool_decide_eq_false_2. apply not_elem_of_nil.
Qed.

(** What is left of a mapped node, by whether the root was its last. *)
Lemma DetachNode_result node root r :
  is_Some (object_to_roots r !! node) →
  let rest := filter (λ i, i ≠ root) (roots_of r node) in
  ∃ r', DetachNode node root r = Some r' ∧
    (∀ i n, n ∈ pending_of r' i ↔ n ∈ pending_of r i ∧ ¬ (i = root ∧ n = node)) ∧
    (∀ n, n ≠ node → object_to_roots r' !! n = object_to_roots r !! n) ∧
    ((rest ≠ [] ∧ object_to_roots r' !! node = Some rest ∧
      model_nodes r' = model_nodes r ∧ bound r' = bound r) ∨
     (rest = [] ∧ object_to_roots r' !! node = None ∧
      model_nodes r' = filter (λ i, i ≠ node) (model_nodes r) ∧ bound r' = bound r ∖ {[node]})).
Proof.
  intros [roots Hroots]. unfold roots_of, DetachNode. rewrite Hroots. cbn.
  assert (∀ m o b i j n, n ∈ pending_of (mkRuntime m o
      (drop_pending node root (pending_by_root r)) b i) j ↔
    n ∈ pending_of r j ∧ ¬ (j = root ∧ n = node)) as Hpend.
  { intros m o b i j n. unfold pending_of. cbn. rewrite drop_pending_lookup.
    case_decide; set_solver. }
  destruct (filter (λ i, i ≠ root) roots) as [|i0 rest]; eexists; (split; [done|]);
    (split; [apply Hpend|]); cbn.
  - split; [intros n Hn; by rewrite lookup_delete_ne|]. right. by rewrite lookup_delete_eq.
  - split; [intros n Hn; by rewrite lookup_insert_ne|]. left. by rewrite lookup_insert_eq.
Qed.

Lemma DetachNode_ok node root r r' :
  runtime_ok r → DetachNode node root r = Some r' → runtime_ok r'.
Proof.
  intros [Hp Hb Hr Hn] E.
  assert (is_Some (object_to_roots r !! node)) as Hm.
  { unfold DetachNode in E. by destruct (object_to_roots r !! node). }
  destruct (DetachNode_result node root r Hm) as (r1 & E1 & Hpend & Hother & Hcase).
  assert (r1 = r') as <- by congruence. split.
  - intros i n. rewrite Hpend. intros [Hin Hne]. pose proof (Hp i n Hin) as Hi.
    unfold roots_of in *. destruct (decide (n = node)) as [->|Hnn]; [|by rewrite Hother].
    assert (i ∈ filter (λ i, i ≠ root) (roots_of r node)) as Hf.
    { apply list_elem_of_filter. split; [tauto|done]. }
    destruct Hcase as [(_ & -> & _)|(Hrest & _)]; [done|].
    unfold roots_of in Hrest, Hf. rewrite Hrest in Hf. by apply elem_of_nil in Hf.
  - destruct Hcase as [(_ & _ & -> & ->)|(_ & _ & -> & ->)]; [done|].
    intros n. rewrite list_elem_of_filter. set_solver.
  - intros n. destruct (decide (n = node)) as [->|Hnn]; [|by rewrite Hother].
    destruct Hcase as [(Hrest & -> & _)|(_ & -> & _)]; congruence.
  - destruct Hcase as [(_ & _ & -> & _)|(_ & _ & -> & _)]; [done|by apply list.NoDup_filter].
Qed.

(** Detaching forgets exactly what it must: of a node that is mapped, the pending
    publication for that root goes and the rest stays; and with its last root the node is
    in no list of the runtime any more (not to be updated, not to be published for any
    root, with no notifier), so that its owner may drop it. *)
Theorem DetachNode_forgets node root r (Hok : runtime_ok r)
    (Hmapped : is_Some (object_to_roots r !! node)) :
  ∃ r', DetachNode node root r = Some r' ∧ runtime_ok r' ∧
    (∀ i n, n ∈ pending_of r' i ↔ n ∈ pending_of r i ∧ ¬ (i = root ∧ n = node)) ∧
    (∀ n i, IsMappedToPresentationRoot r' n i = true ↔
       IsMappedToPresentationRoot r n i = true ∧ ¬ (i = root ∧ n = node)) ∧
    ((∀ i, i ∈ roots_of r node → i = root) →
       (node ∉ model_nodes r') ∧ (node ∉ bound r') ∧ object_to_roots r' !! node = None ∧
       ∀ i, node ∉ pending_of r' i).
Proof.
  destruct (DetachNode_result node root r Hmapped) as (r' & E & Hpend & Hother & Hcase).
  exists r'. split; [done|]. split; [by eapply DetachNode_ok|]. split; [done|]. split.
  - intros n i. rewrite !mapped_roots_of, !bool_decide_eq_true.
    destruct (decide (n = node)) as [->|Hnn].
    + assert (roots_of r' node = filter (λ i, i ≠ root) (roots_of r node)) as ->.
      { unfold roots_of at 1. by destruct Hcase as [(_ & -> & _)|(-> & -> & _)]. }
      rewrite list_elem_of_filter. tauto.
    + unfold roots_of. rewrite Hother by done. tauto.
  - intros Hlast. destruct Hcase as [(Hrest & _)|(_ & Ho & -> & ->)].
    + destruct (filter _ _) as [|i0 rest] eqn:Ef; [done|].
      assert (i0 ∈ filter (λ i, i ≠ root) (roots_of r node)) as Hi by (rewrite Ef; left).
      apply list_elem_of_filter in Hi as [Hne Hi]. by apply Hlast in Hi.
    + split; [rewrite list_elem_of_filter; tauto|]. split; [set_solver|]. split; [done|].
      intros i. rewrite Hpend. intros [Hin Hne]. apply Hne. split; [|done].
      by apply Hlast, (ok_pending r Hok).
Qed.

(** ** Publishing

    A mirror that takes a root's publication or not, and records what it took: every root
    is asked at most once in a pass, so that a function of the root says it. *)
Definition recording (taken : Z → bool) (log : list (Z * list Z)) (root : Z) (nodes : list Z)
    : bool * list (Z * list Z) :=
  (taken root, if taken root then log ++ [(root, nodes)] else log).

Definition publications (taken : Z → bool) (r : ModelRuntime) (roots : list Z)
    : list (Z * list Z) :=
  omap (λ root, if bool_decide (pending_of r root = ∅) then None
                else if taken root then Some (root, elements (pending_of r root)) else None) roots.

Lemma publish_root_spec taken r log root r' log' :
  publish_root (recording taken) (r, log) root = (r', log') →
  log' = log ++ publications taken r [root] ∧
  model_nodes r' = model_nodes r ∧ object_to_roots r' = object_to_roots r ∧ bound r' = bound r ∧
  (∀ i, pending_of r' i = if decide (i = root ∧ taken root = true) then ∅ else pending_of r i).
Proof.
  assert (∀ m o b j i, pending_of (mkRuntime m o (delete root (pending_by_root r)) b j) i =
    if decide (i = root) then ∅ else pending_of r i) as Hdel.
  { intros. unfold pending_of. cbn. case_decide as Hi; [by rewrite Hi, lookup_delete_eq|].
    by rewrite lookup_delete_ne. }
  assert (∀ root, pending_by_root r !! root = None → pending_of r root = ∅) as Hnone.
  { intros i E. unfold pending_of. by rewrite E. }
  unfold publish_root, publications. cbn [omap list_omap].
  destruct (pending_by_root r !! root) as [nodes|] eqn:E.
  - assert (pending_of r root = nodes) as -> by (unfold pending_of; by rewrite E).
    destruct (bool_decide_reflect (nodes = ∅)) as [->|Hne].
    + intros [= <- <-]. rewrite app_nil_r. do 4 (split; [done|]). intros i. rewrite Hdel.
      repeat case_decide; try tauto. subst. unfold pending_of. by rewrite E.
    + unfold recording. destruct (taken root) eqn:Et; intros [= <- <-].
      * do 4 (split; [done|]). intros i. rewrite Hdel. repeat case_decide; tauto.
      * rewrite app_nil_r. do 4 (split; [done|]). intros i. by case_decide as H; [destruct H|].
  - intros [= <- <-]. rewrite (Hnone _ E), bool_decide_eq_true_2, app_nil_r by done.
    do 4 (split; [done|]). intros i. case_decide as Hi; [|done]. destruct Hi as [-> _].
    by apply Hnone.
Qed.

Lemma publish_roots_spec taken roots r log r' log' :
  NoDup roots → foldl (publish_root (recording taken)) (r, log) roots = (r', log') →
  log' = log ++ publications taken r roots ∧
  model_nodes r' = model_nodes r ∧ object_to_roots r' = object_to_roots r ∧ bound r' = bound r ∧
  (∀ i, pending_of r' i = if decide (i ∈ roots ∧ taken i = true) then ∅ else pending_of r i).
Proof.
  intros Hnd. revert r log. induction Hnd as [|root roots Hroot _ IH]; intros r log; cbn [foldl].
  { intros [= <- <-]. rewrite app_nil_r. do 4 (split; [done|]). intros i. case_decide; set_solver. }
  destruct (publish_root (recording taken) (r, log) root) as [r1 log1] eqn:E1. intros E.
  destruct (publish_root_spec _ _ _ _ _ _ E1) as (-> & Hm1 & Ho1 & Hb1 & Hp1).
  destruct (IH _ _ E) as (-> & -> & -> & -> & Hp).
  split; [|split; [done|split; [done|split; [done|]]]].
  - rewrite <-app_assoc. f_equal. unfold publications. cbn [omap list_omap].
    assert (omap (λ root, if bool_decide (pending_of r1 root = ∅) then None
       else if taken root then Some (root, elements (pending_of r1 root)) else None) roots =
      omap (λ root, if bool_decide (pending_of r root = ∅) then None
       else if taken root then Some (root, elements (pending_of r root)) else None) roots) as ->.
    { apply list_omap_ext, Forall2_same_length_lookup_2; [done|]. intros k x y Hx Hy.
      assert (x = y) as -> by congruence. rewrite Hp1.
      destruct (decide (y = root ∧ taken root = true)) as [[-> _]|]; [|done].
      by apply list_elem_of_lookup_2 in Hy. }
    by destruct (if bool_decide _ then None else _).
  - intros i. rewrite Hp, Hp1. clear Hp Hp1. repeat case_decide; set_solver.
Qed.

(** Publishing loses no change: in a pass every root with pending changes is offered to
    the mirror once, with all of them; they are no longer pending exactly when the mirror
    took them, and otherwise stay for the next pass; nothing else of the runtime changes. *)
Theorem PublishChanged_delivers taken r :
  let '(r', log) := PublishChanged (recording taken) r [] in
  (∀ root nodes, (root, nodes) ∈ log ↔
     taken root = true ∧ pending_of r root ≠ ∅ ∧ nodes = elements (pending_of r root)) ∧
  NoDup log.*1 ∧
  (∀ root, pending_of r' root = if taken root then ∅ else pending_of r root) ∧
  model_nodes r' = model_nodes r ∧ object_to_roots r' = object_to_roots r ∧ bound r' = bound r.
Proof.
  destruct (PublishChanged (recording taken) r []) as [r' log] eqn:E.
  unfold PublishChanged in E.
  pose proof (NoDup_fst_map_to_list (pending_by_root r)) as Hnd.
  destruct (publish_roots_spec _ _ _ _ _ _ Hnd E) as (-> & Hm & Ho & Hb & Hp).
  assert (∀ root, pending_of r root ≠ ∅ → root ∈ (map_to_list (pending_by_root r)).*1) as Hin.
  { intros root Hne. unfold pending_of in Hne.
    destruct (pending_by_root r !! root) as [nodes|] eqn:En; [|done].
    apply list_elem_of_fmap. exists (root, nodes). split; [done|]. by apply elem_of_map_to_list. }
  split; [|split; [|split; [|done]]].
  - intros root nodes. cbn [app]. unfold publications. rewrite list_elem_of_omap. split.
    + intros (i & _ & Hi). case_bool_decide as He; [done|].
      destruct (taken i) eqn:Et; [|done]. by injection Hi as <- <-.
    + intros (Ht & Hne & ->). exists root. split; [by apply Hin|].
      by rewrite bool_decide_eq_false_2, Ht.
  - cbn [app]. eapply sublist_NoDup; [exact Hnd|]. unfold publications.
    generalize (map_to_list (pending_by_root r)).*1 as roots. clear. intros roots.
    induction roots as [|i roots IH]; [done|]. cbn [omap list_omap].
    destruct (bool_decide (pending_of r i = ∅)); [by apply sublist_cons|].
    destruct (taken i); [by apply sublist_skip|by apply sublist_cons].
  - intros root. rewrite Hp. clear Hp. destruct (taken root) eqn:Et.
    + case_decide as Hd; [done|]. destruct (decide (pending_of r root = ∅)) as [->|Hne]; [done|].
      exfalso. apply Hd. split; [by apply Hin|done].
    + case_decide as Hd; [by destruct Hd|done].
Qed.

Lemma PublishChanged_ok taken r :
  runtime_ok r → runtime_ok (PublishChanged (λ _ root _, (taken root, tt)) r tt).1.
Proof.
  intros Hok. unfold PublishChanged. generalize (map_to_list (pending_by_root r)).*1 as roots.
  intros roots. revert r Hok. induction roots as [|root roots IH]; intros r Hok; [done|].
  cbn [foldl]. destruct (publish_root _ (r, tt) root) as [r1 []] eqn:E. apply IH.
  assert (object_to_roots r1 = object_to_roots r ∧ model_nodes r1 = model_nodes r ∧
    bound r1 = bound r ∧ ∀ i n, n ∈ pending_of r1 i → n ∈ pending_of r i) as (Ho & Hm & Hb & Hp).
  { unfold publish_root in E.
    assert (∀ m o b j i n, n ∈ pending_of (mkRuntime m o (delete root (pending_by_root r)) b j) i →
      n ∈ pending_of r i) as Hdel.
    { intros m o b j i n. unfold pending_of. cbn. destruct (decide (i = root)) as [->|];
        [rewrite lookup_delete_eq; cbn; set_solver|by rewrite lookup_delete_ne]. }
    destruct (pending_by_root r !! root) as [nodes|]; [|by injection E as <-].
    case_bool_decide; [injection E as <-; do 3 (split; [done|]); apply Hdel|].
    destruct (taken root); injection E as <-; do 3 (split; [done|]); [apply Hdel|done]. }
  destruct Hok as [Hpend Hbound Hroots Hnd]. split.
  - intros i n Hin. unfold roots_of. rewrite Ho. by apply Hpend, Hp.
  - by rewrite Hb, Hm.
  - by rewrite Ho.
  - by rewrite Hm.
Qed.

(** Over any sequence of operations, what is pending for a root is mapped to it, only
    nodes that are updated have a notifier, and no node is updated twice in a round. *)
Theorem operations_keep_runtime_ok ops r r' (Hok : runtime_ok r) (Hrun : perform_all r ops = Some r') :
  runtime_ok r'.
Proof.
  revert r Hok Hrun. induction ops as [|op ops IH]; intros r Hok; [by intros [= <-]|].
  cbn [perform_all]. destruct (perform r op) as [r1|] eqn:E; [|done]. apply IH.
  destruct op; cbn [perform] in E;
    [injection E as <-| |injection E as <-|injection E as <-|injection E as <-|injection E as <-].
  - by apply AttachNode_ok.
  - by eapply DetachNode_ok.
  - by apply AddPresentationRoot_ok.
  - by apply NotifyMaterializedChange_ok.
  - destruct Hok as [Hp Hb Hr Hn]. split; cbn; [exact Hp| |done|done].
    intros n. rewrite elem_of_union, elem_of_list_to_set. intros [?|?]; [done|by apply Hb].
  - by apply PublishChanged_ok.
Qed.

Lemma new_runtime_ok reachable initialized :
  NoDup reachable → runtime_ok (new_runtime reachable initialized).
Proof.
  intros Hn. split; cbn; [|set_solver|done|done]. intros root n. unfold pending_of. cbn.
  rewrite lookup_empty. set_solver.
Qed.
End Mapping.

(** ** The work queue *)
Module WorkQueue.
Import ModelRuntime.WorkQueue.
Section queue.
Context {Work : Type}.
Implicit Types (s : Runtime Work) (l : list (Action Work)).

Definition in_hand (p : Place Work) : list Work :=
  match p with Running _ w => [w] | _ => [] end.

(** In the drain after the loop. *)
Definition finishing (p : Place Work) : bool :=
  match p with Drain true | Running true _ | Exited => true | _ => false end.

Record queue_ok s : Prop := {
  ok_order : accepted s = executed s ++ in_hand (place s) ++ work_ s;
  ok_window : accept_work_ s = negb (stop_ s);
  ok_finishing : finishing (place s) = true → stop_ s = true;
  ok_exited : place s = Exited → work_ s = []
}.

Lemma act_ok s a : queue_ok s → queue_ok (act s a).
Proof.
  intros Hok. pose proof Hok as [Ho Hw Hf He]. destruct a as [w| |timeout]; cbn [act].
  - unfold Post. destruct (accept_work_ s) eqn:Ea; [|done].
    assert (stop_ s = false) as Hs by (destruct (stop_ s); [discriminate Hw|done]).
    split; cbn; [by rewrite Ho, <-!app_assoc|by rewrite Hs|exact Hf|].
    intros Hx. rewrite Hx in Hf. rewrite Hf in Hs; done.
  - split; cbn; [done|done|done|exact He].
  - unfold thread_step. destruct (place s) as [|final|final w| | |] eqn:Ep;
      try rewrite Ep in *; cbn in Ho, Hf |- *.
    + split; cbn; [done|done|by destruct (stop_ s)|done].
    + destruct (work_ s) as [|w rest] eqn:Ework; split; cbn;
        destruct final; rewrite ?Ework in *; cbn; auto; try discriminate.
    + split; cbn; [by rewrite Ho, <-app_assoc|done|exact Hf|done].
    + by split.
    + destruct (stop_ s || _ || _); [|done]. by split.
    + done.
Qed.

Lemma acts_ok s l : queue_ok s → queue_ok (acts s l).
Proof. revert s. induction l as [|a l IH]; intros s Hs; [done|]. by apply IH, act_ok. Qed.

Lemma Start_ok : queue_ok Start.
Proof. by split. Qed.

(** The posts that find the window open, in order. *)
Fixpoint posted s l : list Work :=
  match l with
  | [] => []
  | a :: l => (match a with DoPost w => if accept_work_ s then [w] else [] | _ => [] end) ++
              posted (act s a) l
  end.

Lemma thread_step_accepted timeout s s' :
  thread_step timeout s = Some s' → accepted s' = accepted s ∧ stop_ s' = stop_ s ∧
    accept_work_ s' = accept_work_ s.
Proof.
  unfold thread_step. intros E. destruct (place s); [..|done]; try (by injection E as <-).
  - destruct (work_ s); by injection E as <-.
  - destruct (_ || _ || _); [|done]. by injection E as <-.
Qed.

Lemma accepted_posted s l : accepted (acts s l) = accepted s ++ posted s l.
Proof.
  revert s. induction l as [|a l IH]; intros s; cbn [acts foldl posted]; [by rewrite app_nil_r|].
  fold (acts (act s a) l). rewrite IH, app_assoc. f_equal. destruct a as [w| |timeout]; cbn [act].
  - unfold Post. destruct (accept_work_ s); [done|by rewrite app_nil_r].
  - by rewrite app_nil_r.
  - rewrite app_nil_r. destruct (thread_step timeout s) as [s'|] eqn:E; [|done].
    cbn. by apply thread_step_accepted in E as [-> _].
Qed.

(** C20. Accepted work runs exactly once, in the order of the posts: whatever the
    interleaving of posts, requests to stop and steps of the model thread, what has run and
    what is waiting are together exactly what was posted while the window was open; and
    when the thread has ended, all of it has run, and nothing is accepted any more. *)
Theorem accepted_work_runs_once l :
  let s := acts Start l in
  posted Start l = executed s ++ in_hand (place s) ++ work_ s ∧
  (place s = Exited → executed s = posted Start l ∧
     ∀ l', posted s l' = [] ∧ executed (acts s l') = executed s).
Proof.
  cbv zeta. pose proof (acts_ok Start l Start_ok) as Hok. pose proof (accepted_posted Start l) as Ha.
  cbn [app accepted Start] in Ha. rewrite <-Ha. split; [apply Hok|]. intros Hx.
  pose proof Hok as [Ho Hw Hf He]. rewrite Hx in Ho, Hf. rewrite (He Hx), app_nil_r in Ho.
  split; [done|]. intros l'.
  assert (accept_work_ (acts Start l) = false) as Hclosed by (rewrite Hw, Hf; done).
  revert Hx Hclosed. clear. generalize (acts Start l) as s. clear l.
  induction l' as [|a l' IH]; intros s Hx Hc; [done|].
  assert (act s a = s ∨ act s a = RequestStop s) as Hact.
  { destruct a as [w| |timeout]; cbn [act]; unfold Post, thread_step;
      rewrite ?Hc, ?Hx; [by left|by right|by left]. }
  destruct (IH (act s a)) as [E1 E2]; [by destruct Hact as [->| ->]..|].
  cbn [posted acts foldl]. fold (acts (act s a) l'). rewrite E1, E2. split.
  - destruct a; [by rewrite Hc|done..].
  - by destruct Hact as [->| ->].
Qed.

(** ** Stopping

    What is left for the model thread to do, in steps, once a stop is requested. *)
Definition steps_left s : nat :=
  2 * length (work_ s) +
  match place s with
  | Exited => 0
  | Drain true => 1
  | Running true _ => 2
  | LoopTest => 2
  | Waiting => 3
  | UpdateAndPublish => 4
  | Drain false => 5
  | Running false _ => 6
  end.

Lemma thread_step_decreases timeout s :
  stop_ s = true → place s ≠ Exited →
  ∃ s', thread_step timeout s = Some s' ∧ (steps_left s' < steps_left s)%nat.
Proof.
  intros Hs Hp. unfold thread_step. destruct (place s) as [|final|final w| | |] eqn:Ep;
    rewrite ?Hs; cbn [orb]; try done.
  - eexists. split; [done|]. unfold steps_left. rewrite Ep. cbn. lia.
  - destruct (work_ s) as [|w rest] eqn:Ew; eexists; (split; [done|]); unfold steps_left;
      rewrite Ep, Ew; destruct final; cbn; rewrite ?Ew; cbn; lia.
  - eexists. split; [done|]. unfold steps_left. rewrite Ep. destruct final; cbn; lia.
  - eexists. split; [done|]. unfold steps_left. rewrite Ep. cbn. lia.
  - eexists. split; [done|]. unfold steps_left. rewrite Ep. cbn. lia.
Qed.

Fixpoint thread_steps l : nat :=
  match l with
  | [] => 0
  | DoThread _ :: l => S (thread_steps l)
  | _ :: l => thread_steps l
  end.

(** The model thread ends: after a request to stop no post is accepted, and within a
    number of its own steps that is known then (two for every work item that waits, and
    at most six more) it is at the end, whatever the other threads do meanwhile. *)
Theorem thread_exits_after_stop s l (Hok : queue_ok s) (Hstop : stop_ s = true)
    (Hsteps : (2 * length (work_ s) + 6 ≤ thread_steps l)%nat) :
  place (acts s l) = Exited ∧ posted s l = [].
Proof.
  assert (steps_left s ≤ thread_steps l)%nat as Hle.
  { unfold steps_left. destruct (place s) as [|[]|[]| | |]; lia. }
  clear Hsteps. revert s Hok Hstop Hle. induction l as [|a l IH]; intros s Hok Hstop Hle.
  { split; [|done]. cbn in *. unfold steps_left in Hle.
    by destruct (place s) as [|[]|[]| | |]; try lia. }
  assert (accept_work_ s = false) as Hc by (rewrite (ok_window s Hok); by rewrite Hstop).
  assert (stop_ (act s a) = true ∧ (steps_left (act s a) ≤ thread_steps l)%nat) as [H1 H2].
  { destruct a as [w| |timeout]; cbn [act].
    - unfold Post. by rewrite Hc.
    - done.
    - assert (thread_steps (DoThread timeout :: l) = S (thread_steps l)) as E by done.
      rewrite E in Hle. assert (place s = Exited ∨ place s ≠ Exited) as [Hx|Hx]
        by (destruct (place s); (by left) || (by right)).
      + unfold thread_step. rewrite Hx. cbn. split; [done|].
        unfold steps_left. rewrite Hx, (ok_exited s Hok Hx). cbn. lia.
      + destruct (thread_step_decreases timeout s Hstop Hx) as (s' & Es & Hlt). rewrite Es.
        apply thread_step_accepted in Es as (_ & Hs' & _). cbn [default from_option id].
        split; [congruence|lia]. }
  destruct (IH (act s a)) as [E1 E2]; [by apply act_ok|done|done|].
  cbn [acts foldl posted]. fold (acts (act s a) l). split; [done|].
  rewrite E2, app_nil_r. destruct a; [by rewrite Hc|done..].
Qed.
End queue.
End WorkQueue.

(** ** Examples *)
Module Examples.
Import ModelRuntime.Mapping.

(** Node 7 is mapped to the roots 1 and 2 and has changed. *)
Definition runtime : ModelRuntime :=
  mkRuntime [5; 7] {[7 := [1; 2]]} {[1 := {[7]}; 2 := {[7]}]} {[7]} {[7]}.

Lemma runtime_run : perform_all (new_runtime [5] ∅) [Attach 7 1; Attach 7 2; Changed 7] = Some runtime.
Proof. vm_compute. reflexivity. Qed.

Lemma operations_keep_runtime_ok_witness :
  perform_all (new_runtime [5] ∅) [Attach 7 1; Attach 7 2; Changed 7] = Some runtime ∧
  Mapping.runtime_ok runtime.
Proof.
  split; [apply runtime_run|].
  apply (Mapping.operations_keep_runtime_ok [Attach 7 1; Attach 7 2; Changed 7] (new_runtime [5] ∅)).
  - apply Mapping.new_runtime_ok, NoDup_singleton.
  - exact runtime_run.
Defined.

(** Detached from root 1, it is still published for root 2; detached from both, it is gone. *)
Lemma DetachNode_forgets_witness :
  ∃ r', DetachNode 7 1 runtime = Some r' ∧ Mapping.runtime_ok r' ∧
    (7 ∉ pending_of r' 1) ∧ 7 ∈ pending_of r' 2 ∧ IsMappedToPresentationRoot r' 7 2 = true.
Proof.
  destruct (Mapping.DetachNode_forgets 7 1 runtime) as (r' & E & Hok & Hp & Hm & _).
  - apply (Mapping.operations_keep_runtime_ok _ (new_runtime [5] ∅) runtime
      (Mapping.new_runtime_ok _ _ (NoDup_singleton 5)) runtime_run).
  - vm_compute. by eexists.
  - exists r'. split; [exact E|]. split; [exact Hok|]. rewrite !Hp, Hm.
    split; [tauto|]. split; [|split; [reflexivity|lia]].
    split; [|lia]. apply (bool_decide_unpack (_ ∈ _)). vm_compute. exact I.
Defined.

(** A stop is requested while one work item runs and another waits. *)
Definition stopping : ModelRuntime.WorkQueue.Runtime nat :=
  ModelRuntime.WorkQueue.acts ModelRuntime.WorkQueue.Start
    [ModelRuntime.WorkQueue.DoPost 1%nat; ModelRuntime.WorkQueue.DoPost 2%nat; ModelRuntime.WorkQueue.DoThread false;
     ModelRuntime.WorkQueue.DoThread false; ModelRuntime.WorkQueue.DoStop].

Lemma thread_exits_after_stop_witness :
  ModelRuntime.WorkQueue.work_ stopping = [2%nat] ∧
  ModelRuntime.WorkQueue.place
    (ModelRuntime.WorkQueue.acts stopping (replicate 8 (ModelRuntime.WorkQueue.DoThread false))) =
    ModelRuntime.WorkQueue.Exited.
Proof.
  split; [reflexivity|].
  apply (WorkQueue.thread_exits_after_stop stopping).
  - apply WorkQueue.acts_ok, WorkQueue.Start_ok.
  - reflexivity.
  - vm_compute. lia.
Defined.
End Examples.
