(* ===== verification/UiMirror.v ===== *)
(** * The mirror of the user interface

    Models include/apptraverse/ui_mirror.h and src/ui_mirror.cpp: the publication of changed
    nodes, each with the graph it saves, and its application to the mirror's Domain, where
    the objects that exist are loaded first and shells are created for the others. *)
From S2P Require Import Prelude NativeBytes PublicationChannel.
From S2P Require Import Aether DomainStorage StoredGraph Publication PublicationTheory.

(** ** Publish *)

Section publish.
Context {reg : AetherRegistry} (Find : Z → option LiveObject).
(** What the save of a node fills. *)
Context (scratch : Z → RamState).

(** A changed node, with its generation. *)
Abbreviation Changed := (Z * Z)%type.

(** The size of the payload is patched when the payload has been written. *)
Definition write_record (out : bytes) (node : Changed) : bytes :=
  let out := write_u64 (write_u32 out node.1) node.2 in
  let size_at := length out in
  let out := write_u32 out 0 in
  let payload_at := zlen out in
  let out := SerializeObjectGraphToBuffer Find (scratch node.1) out in
  patch_u32 out size_at (u32 (zlen out - payload_at)).

Definition write_publication (changed : list Changed) (out : bytes) : bytes :=
  foldl write_record (write_u32 out (u32 (zlen changed))) changed.

(** [UiMirror::Publish]: whether it succeeded, and what is handed to the channel; [unread]:
    the channel has an unread publication. *)
Definition Publish (unread : bool) (changed : list Changed) : bool * option bytes :=
  if bool_decide (changed = []) then (true, None)
  else if unread then (false, None)
  else (true, Some (write_publication changed [])).
End publish.

(** ** ApplyPublished *)

(** A record of a publication. *)
Record PublishedRecord := mkRecord {
  rec_id : Z;
  rec_generation : Z;
  rec_payload : bytes
}.

Section apply.
Context {reg : AetherRegistry} {U S : Type} `{!DomainStorage S, !UiSystem U S}.

(** The layers of a payload, as far as they can be read. *)
Fixpoint preferred_class (n : nat) (s : ByteSource) (want first derived : Z) : Z * Z :=
  match n with
  | O => (first, derived)
  | Datatypes.S n =>
      if negb (ok s) then (first, derived) else
      let '(h, s) := read_layer_header s in
      if negb (ok s) || payload_overruns h s then (first, derived) else
      let s := advance s (h_size h) in
      if negb (h_id h =? want) then preferred_class n s want first derived
      else preferred_class n s want (if first =? 0 then h_class h else first)
             (if h_class h =? Node_kClassId then derived else h_class h)
  end.

Definition PreferredClassIdFor (s : ByteSource) (want : Z) : Z :=
  let '(count, s) := read_u32 s in
  let '(first, derived) := preferred_class (Z.to_nat count) s want 0 0 in
  if derived =? 0 then first else derived.

(** [create u id c]: the factory of the class makes an object, which is added to the Domain;
    [None]: there is no factory. *)
Context (create : U → Z → Z → option U).

(** [None]: no object is returned. *)
Definition CreateUiShell (u : U) (id class_id : Z) : option U :=
  match ui_Find (S := S) u id with
  | Some _ => Some u
  | None => if class_id =? 0 then None else create u id class_id
  end.

(** [None]: an assertion fails. *)
Fixpoint read_records (n : nat) (s : ByteSource) : option (list PublishedRecord) :=
  match n with
  | O => Some []
  | Datatypes.S n =>
      let '(id, s) := read_u32 s in
      let '(generation, s) := read_u64 s in
      let '(size, s) := read_u32 s in
      assert! ok s ;;
      assert! u64 (pos s + size) <=? source_size s ;;
      rs ← read_records n (advance s size);
      Some (mkRecord id generation (source_bytes s size) :: rs)
  end.

(** The mirror, its storage, and [changed_obj_ids]. *)
Abbreviation Applying := (U * S * list Z)%type.

(** [apply_existing] of a record that is not applied: whether it was applied.  The outer
    [None]: an assertion fails. *)
Definition apply_existing (r : PublishedRecord) (a : Applying) : option (bool * Applying) :=
  let '(u, st, changed) := a in
  match ui_Find (S := S) u (rec_id r) with
  | None => Some (false, a)
  | Some _ =>
      '(_, u, st) ← DeserializeObjectGraphFromBuffer (rec_id r) (new_source (rec_payload r)) u st;
      Some (true, (FinalizeUiNodeState (S := S) u (rec_id r) (rec_generation r), st,
                   changed ++ [rec_id r]))
  end.

(** One pass over the records, with their [applied]: those [want]ed are applied when they
    can be; the last component: whether one was. *)
Fixpoint apply_pass (want : PublishedRecord → bool) (rs : list (PublishedRecord * bool))
    (a : Applying) : option (list (PublishedRecord * bool) * Applying * bool) :=
  match rs with
  | [] => Some ([], a, false)
  | (r, applied) :: rs =>
      '(now, a) ← (if want r && negb applied then apply_existing r a else Some (false, a));
      '(rs, a, progress) ← apply_pass want rs a;
      Some ((r, applied || now) :: rs, a, now || progress)
  end.

(** [while (progress)]: the outer [None] is running out of fuel. *)
Fixpoint apply_progress (fuel : nat) (root : Z) (rs : list (PublishedRecord * bool)) (a : Applying)
    : option (option (list (PublishedRecord * bool) * Applying)) :=
  match fuel with
  | O => None
  | Datatypes.S fuel =>
      match apply_pass (λ r, rec_id r =? root) rs a with
      | None => Some None
      | Some (rs, a, progress) =>
          match apply_pass (λ _, true) rs a with
          | None => Some None
          | Some (rs, a, progress') =>
              if progress || progress' then apply_progress fuel root rs a else Some (Some (rs, a))
          end
      end
  end.

(** The records that are left, each with a shell that is created for it. *)
Fixpoint apply_shells (rs : list (PublishedRecord * bool)) (a : Applying) : option Applying :=
  match rs with
  | [] => Some a
  | (r, true) :: rs => apply_shells rs a
  | (r, false) :: rs =>
      let '(u, st, changed) := a in
      let class_id := PreferredClassIdFor (new_source (rec_payload r)) (rec_id r) in
      u ← CreateUiShell u (rec_id r) class_id;
      '(applied, a) ← apply_existing r (u, st, changed);
      assert! applied ;;
      apply_shells rs a
  end.

(** One turn of the loop more than there are records. *)
Definition ApplyPublished (root : Z) (s : ByteSource) (u : U) (st : S)
    : option (option Applying) :=
  let '(count, s) := read_u32 s in
  if negb (ok s) then Some None else
  match read_records (Z.to_nat count) s with
  | None => Some None
  | Some rs =>
      r ← apply_progress (Datatypes.S (length rs)) root ((λ r, (r, false)) <$> rs) (u, st, []);
      Some ('(rs, a) ← r; apply_shells rs a)
  end.
End apply.
