(* ===== verification/UiMirrorTheory.v ===== *)
(** * Theorems on the mirror of the user interface

    What is published is read back record by record, and every record is applied exactly
    once. *)
From S2P Require Import Prelude NativeBytes PublicationChannel.
From S2P Require Import Aether DomainStorage StoredGraph Publication PublicationTheory UiMirror.

(** ** The bytes of a publication *)

Section bytes.
Context {reg : AetherRegistry} (Find : Z → option LiveObject) (scratch : Z → RamState).

Definition record_of (node : Z * Z) : PublishedRecord :=
  mkRecord node.1 node.2 (graph_bytes Find (scratch node.1)).

Definition record_bytes (r : PublishedRecord) : bytes :=
  u32_bytes (rec_id r) ++ u64_bytes (rec_generation r) ++
  u32_bytes (u32 (zlen (rec_payload r))) ++ rec_payload r.

Lemma write_record_bytes out node :
  write_record Find scratch out node = out ++ record_bytes (record_of node).
Proof.
  unfold write_record, write_u64, write_u32, ByteSink.write, record_bytes, record_of.
  cbn [rec_id rec_generation rec_payload]. rewrite SerializeObjectGraphToBuffer_bytes.
  rewrite zlen_app, Z.add_simpl_l, <-(app_assoc _ (u32_bytes 0)), patch_u32_spec.
  by rewrite <-!app_assoc.
Qed.

Lemma write_publication_bytes changed :
  write_publication Find scratch changed [] =
    u32_bytes (u32 (zlen changed)) ++ concat (record_bytes <$> (record_of <$> changed)).
Proof.
  unfold write_publication, write_u32, ByteSink.write. rewrite app_nil_l.
  rewrite (foldl_append (write_record Find scratch) (λ node, record_bytes (record_of node)))
    by apply write_record_bytes.
  f_equal. rewrite <-list_fmap_compose. done.
Qed.

(** What the records of a publication of less than 2^63 bytes satisfy. *)
Record record_ok (r : PublishedRecord) : Prop := {
  ok_id : is_u32 (rec_id r);
  ok_generation : is_u64 (rec_generation r);
  ok_payload_size : is_u32 (zlen (rec_payload r));
  ok_payload : rec_payload r = graph_bytes Find (scratch (rec_id r));
  ok_scratch : scratch_ok Find (scratch (rec_id r))
}.

Lemma read_records_at rs s r :
  Forall record_ok rs → at_bytes s (concat (record_bytes <$> rs) ++ r) →
  read_records (length rs) s = Some rs.
Proof.
  intros Hok. revert s. induction Hok as [|rec rs [Hi Hg Hs _ _] _ IH]; intros s H; [done|].
  cbn [fmap list_fmap concat] in H. unfold record_bytes in H at 1.
  rewrite <-!app_assoc, (u32_small _ Hs) in H. cbn [length read_records].
  destruct (read_u32_at _ _ _ Hi H) as (s1 & -> & H1).
  destruct (read_u64_at _ _ _ Hg H1) as (s2 & -> & H2).
  destruct (read_u32_at _ _ _ Hs H2) as (s3 & -> & H3).
  rewrite (proj1 H3), (at_source_bytes _ _ _ H3). unfold is_u32 in Hs.
  rewrite (pos_add _ _ _ H3), (at_bytes_left _ _ H3), zlen_app by lia.
  pose proof (zlen_nonneg (concat (record_bytes <$> rs) ++ r)).
  destruct (Z.leb_spec (pos s3 + zlen (rec_payload rec))
    (pos s3 + (zlen (rec_payload rec) + zlen (concat (record_bytes <$> rs) ++ r)))); [|lia].
  rewrite (IH _ (at_advance _ _ _ H3)). cbn. by destruct rec.
Qed.
End bytes.

(** ** Applying *)

Section applying.
Context {reg : AetherRegistry} (Find : Z → option LiveObject) (scratch : Z → RamState).
Context {U S : Type} `{!DomainStorage S, !UiSystem U S, !StorageLaws S}.
Context (create : U → Z → Z → option U).

Implicit Types (rs : list (PublishedRecord * bool)).

Definition layers_of (r : PublishedRecord) : list Layer :=
  published_layers Find (scratch (rec_id r)).
Definition all_layers_of (l : list PublishedRecord) : list Layer := concat (layers_of <$> l).

Lemma inject_all_app (st : S) l l' : inject_all st (l ++ l') = inject_all (inject_all st l) l'.
Proof. unfold inject_all. by rewrite foldl_app. Qed.

Lemma apply_existing_found r u (st : S) changed :
  record_ok Find scratch r → is_Some (ui_Find (S := S) u (rec_id r)) →
  ∃ u', apply_existing r (u, st, changed) =
    Some (true, (u', inject_all st (layers_of r), changed ++ [rec_id r])).
Proof.
  intros [_ _ Hs Hp Hok] [c Hc]. unfold apply_existing. rewrite Hc.
  assert (at_bytes (new_source (rec_payload r)) (graph_bytes Find (scratch (rec_id r)) ++ [])) as H.
  { rewrite app_nil_r, <-Hp. apply at_new_source. unfold is_u32 in Hs. lia. }
  destruct (DeserializeObjectGraph_at Find (scratch (rec_id r)) (rec_id r) _ u st [] Hok H)
    as (s' & -> & _). cbn [mbind option_bind]. by eexists.
Qed.

Definition applied_records rs : list PublishedRecord :=
  omap (λ e : PublishedRecord * bool, if e.2 then Some e.1 else None) rs.
Definition left_records rs : list PublishedRecord :=
  omap (λ e : PublishedRecord * bool, if e.2 then None else Some e.1) rs.

Lemma applied_and_left rs : rs.*1 ≡ₚ applied_records rs ++ left_records rs.
Proof.
  induction rs as [|[r []] rs IH]; cbn [fmap list_fmap fst]; [done|..].
  - cbn. by rewrite IH.
  - cbn. rewrite IH. apply Permutation_middle.
Qed.

(** A pass applies some of the records it wants, each with all of its layers; all it wants
    that the mirror has at the start would be among them, were it the first. *)
Lemma apply_pass_spec want rs u (st : S) changed :
  Forall (record_ok Find scratch) rs.*1 →
  ∃ rs' u' now,
    apply_pass want rs (u, st, changed) =
      Some (rs', (u', inject_all st (all_layers_of now), changed ++ (rec_id <$> now)),
            negb (bool_decide (now = []))) ∧
    rs'.*1 = rs.*1 ∧ applied_records rs' ≡ₚ now ++ applied_records rs ∧
    Forall (λ r, want r = true) now ∧
    ((∃ r, (r, false) ∈ rs ∧ want r = true ∧ is_Some (ui_Find (S := S) u (rec_id r))) → now ≠ []).
Proof.
  revert u st changed. induction rs as [|[r applied] rs IH]; intros u st changed Hok.
  { exists [], u, []. cbn. rewrite app_nil_r. split; [done|]. split; [done|]. split; [done|].
    split; [done|]. set_solver. }
  cbn [fmap list_fmap fst] in Hok. apply list.Forall_cons in Hok as [Hr Hok].
  cbn [apply_pass].
  assert ((want r && negb applied = true ∧ is_Some (ui_Find (S := S) u (rec_id r))) ∨
    (if want r && negb applied then apply_existing r (u, st, changed)
     else Some (false, (u, st, changed))) = Some (false, (u, st, changed)) ∧
    ¬ (applied = false ∧ want r = true ∧ is_Some (ui_Find (S := S) u (rec_id r))))
    as [[Hw Hf]|[E Hno]].
  { destruct (want r) eqn:Ew, applied; cbn [andb negb]; try (right; split; [done|naive_solver]).
    unfold apply_existing. destruct (ui_Find u (rec_id r)) as [c|]; [left; by eauto|].
    right. split; [done|]. intros (_ & _ & [? ?]). done. }
  - destruct (apply_existing_found r u st changed Hr Hf) as (u1 & E). rewrite Hw, E.
    cbn [mbind option_bind].
    destruct (IH u1 (inject_all st (layers_of r)) (changed ++ [rec_id r]) Hok)
      as (rs' & u' & now & -> & Hfst & Happ & Hwant & _). cbn [mbind option_bind].
    apply andb_true_iff in Hw as [Hw Ha]. destruct applied; [done|].
    exists ((r, true) :: rs'), u', (r :: now). split; [|split; [|split; [|split]]].
    + unfold all_layers_of. cbn [fmap list_fmap concat]. rewrite inject_all_app, <-app_assoc. done.
    + cbn. by rewrite Hfst.
    + cbn. by rewrite Happ.
    + by constructor.
    + done.
  - rewrite E. cbn [mbind option_bind].
    destruct (IH u st changed Hok) as (rs' & u' & now & -> & Hfst & Happ & Hwant & Hfound).
    cbn [mbind option_bind]. rewrite orb_false_r. cbn [orb].
    exists ((r, applied) :: rs'), u', now. split; [done|].
    split; [cbn; by rewrite Hfst|]. split; [|split; [done|]].
    + destruct applied; cbn; [|done]. rewrite Happ. apply Permutation_middle.
    + intros (x & Hx & Hwx & Hfx). apply elem_of_cons in Hx as [[= <- <-]|Hx].
      * exfalso. apply Hno. done.
      * apply Hfound. by exists x.
Qed.

Lemma applied_length rs : (length (applied_records rs) ≤ length rs)%nat.
Proof.
  pose proof (Permutation_length (applied_and_left rs)) as H.
  rewrite length_fmap, length_app in H. lia.
Qed.

(** The loop ends, within a turn for every record that is left and one more. *)
Lemma apply_progress_spec fuel root rs u (st : S) changed :
  Forall (record_ok Find scratch) rs.*1 →
  (length rs - length (applied_records rs) < fuel)%nat →
  ∃ rs' u' now,
    apply_progress fuel root rs (u, st, changed) =
      Some (Some (rs', (u', inject_all st (all_layers_of now), changed ++ (rec_id <$> now)))) ∧
    rs'.*1 = rs.*1 ∧ applied_records rs' ≡ₚ now ++ applied_records rs ∧
    ((∃ r, (r, false) ∈ rs ∧ rec_id r = root ∧ is_Some (ui_Find (S := S) u (rec_id r))) →
       rec_id <$> head now = Some root).
Proof.
  revert rs u st changed. induction fuel as [|fuel IH]; intros rs u st changed Hok Hf; [lia|].
  cbn [apply_progress].
  destruct (apply_pass_spec (λ r, rec_id r =? root) rs u st changed Hok)
    as (rs1 & u1 & now1 & -> & F1 & A1 & W1 & N1).
  assert (Forall (record_ok Find scratch) rs1.*1) as Hok1 by by rewrite F1.
  destruct (apply_pass_spec (λ _, true) rs1 u1 (inject_all st (all_layers_of now1))
    (changed ++ (rec_id <$> now1)) Hok1) as (rs2 & u2 & now2 & -> & F2 & A2 & _ & _).
  assert ((∃ r, (r, false) ∈ rs ∧ rec_id r = root ∧ is_Some (ui_Find (S := S) u (rec_id r))) →
    rec_id <$> head now1 = Some root) as Hhead.
  { intros (r & Hr & Hid & Hfound). destruct now1 as [|r1 now1].
    - exfalso. apply N1; [|done]. exists r. split; [done|]. split; [|done]. by apply Z.eqb_eq.
    - apply list.Forall_cons in W1 as [W1 _]. apply Z.eqb_eq in W1. cbn. by rewrite W1. }
  assert (rs2.*1 = rs.*1) as F by by rewrite F2.
  assert (applied_records rs2 ≡ₚ (now1 ++ now2) ++ applied_records rs) as A.
  { rewrite A2, A1, app_assoc. by rewrite (Permutation_app_comm now2 now1). }
  rewrite <-inject_all_app, <-app_assoc, <-fmap_app.
  assert (all_layers_of now1 ++ all_layers_of now2 = all_layers_of (now1 ++ now2)) as ->.
  { unfold all_layers_of. by rewrite fmap_app, concat_app. }
  destruct (negb (bool_decide (now1 = [])) || negb (bool_decide (now2 = []))) eqn:Ep.
  - destruct (IH rs2 u2 (inject_all st (all_layers_of (now1 ++ now2)))
      (changed ++ (rec_id <$> (now1 ++ now2)))) as (rs3 & u3 & now3 & -> & F3 & A3 & _).
    + by rewrite F.
    + pose proof (Permutation_length A) as Hlen. rewrite !length_app in Hlen.
      pose proof (f_equal length F) as HF. rewrite !length_fmap in HF.
      pose proof (applied_length rs2). destruct now1, now2; cbn in *; try done; lia.
    + exists rs3, u3, ((now1 ++ now2) ++ now3). rewrite <-inject_all_app, <-app_assoc, <-fmap_app.
      split; [|split; [by rewrite F3|split]].
      * unfold all_layers_of. by rewrite !fmap_app, !concat_app.
      * rewrite A3, A, (app_assoc now3). by rewrite (Permutation_app_comm now3).
      * intros H. apply Hhead in H. by destruct now1.
  - exists rs2, u2, (now1 ++ now2). split; [done|]. split; [done|]. split; [done|].
    intros H. apply Hhead in H. by destruct now1.
Qed.

(** The shell of a record: its class is known, and its factory makes an object. *)
Definition shell_can_be_created (r : PublishedRecord) : Prop :=
  let c := PreferredClassIdFor (new_source (rec_payload r)) (rec_id r) in
  c ≠ 0 ∧ ∀ u, ui_Find (S := S) u (rec_id r) = None →
    ∃ u', create u (rec_id r) c = Some u' ∧ is_Some (ui_Find (S := S) u' (rec_id r)).

Lemma apply_shells_spec rs u (st : S) changed :
  Forall (record_ok Find scratch) rs.*1 → Forall shell_can_be_created rs.*1 →
  ∃ u', apply_shells create rs (u, st, changed) =
    Some (u', inject_all st (all_layers_of (left_records rs)),
          changed ++ (rec_id <$> left_records rs)).
Proof.
  revert u st changed. induction rs as [|[r applied] rs IH]; intros u st changed Hok Hsh.
  { exists u. cbn. by rewrite app_nil_r. }
  cbn [fmap list_fmap fst] in Hok, Hsh. apply list.Forall_cons in Hok as [Hr Hok].
  apply list.Forall_cons in Hsh as [[Hc Hcreate] Hsh]. cbn [apply_shells].
  destruct applied; [by apply IH|].
  assert (∃ u1, CreateUiShell (S := S) create u (rec_id r)
    (PreferredClassIdFor (new_source (rec_payload r)) (rec_id r)) = Some u1 ∧
    is_Some (ui_Find (S := S) u1 (rec_id r))) as (u1 & -> & Hf).
  { unfold CreateUiShell. destruct (ui_Find (S := S) u (rec_id r)) as [c|] eqn:E.
    - exists u. split; [done|]. by eexists.
    - apply Z.eqb_neq in Hc. rewrite Hc. by apply Hcreate. }
  cbn [mbind option_bind]. destruct (apply_existing_found r u1 st changed Hr Hf) as (u2 & ->).
  cbn [mbind option_bind].
  destruct (IH u2 (inject_all st (layers_of r)) (changed ++ [rec_id r]) Hok Hsh) as (u3 & ->).
  exists u3. unfold all_layers_of. cbn [left_records omap list_omap snd fst fmap list_fmap concat].
  fold (left_records rs). by rewrite inject_all_app, <-app_assoc.
Qed.

Lemma accepts_all (ls : list Layer) (st : S) :
  (∀ (st : S) l, (InjectObjectBytes st l).1 = true) → accepts st ls.
Proof. intros H. revert st. induction ls as [|l ls IH]; intros st; [done|]. by split. Qed.

(** C21. A publication is applied completely: of what [Publish] writes for the changed nodes,
    every record is applied exactly once, by loading it into the object that exists or into
    a shell that is created for it, the presentation root first when the mirror has it; no
    assertion fails, the loop over the records ends, and every layer is in the mirror's
    storage as it was saved. *)
Theorem ApplyPublished_applies_all root changed u (st : S)
    (Hok : Forall (record_ok Find scratch) (record_of Find scratch <$> changed))
    (Hcount : is_u32 (zlen changed)) (Hsize : zlen (write_publication Find scratch changed []) < 2 ^ 63)
    (Hacc : ∀ (st : S) l, (InjectObjectBytes st l).1 = true)
    (Hcons : consistent (all_layers_of (record_of Find scratch <$> changed)))
    (Hshells : Forall shell_can_be_created (record_of Find scratch <$> changed)) :
  ∃ u' st' ids,
    ApplyPublished create root (new_source (write_publication Find scratch changed [])) u st =
      Some (Some (u', st', ids)) ∧
    ids ≡ₚ changed.*1 ∧
    (root ∈ changed.*1 → is_Some (ui_Find (S := S) u root) → head ids = Some root) ∧
    ∀ l, l ∈ all_layers_of (record_of Find scratch <$> changed) →
      Load st' (layer_query l) = kLoaded (layer_data l).
Proof.
  rewrite write_publication_bytes in *. pose proof (at_new_source _ Hsize) as H0.
  rewrite (u32_small _ Hcount) in *. set (source := new_source _) in *. clearbody source.
  set (recs := record_of Find scratch <$> changed) in *.
  assert (rec_id <$> recs = changed.*1) as Hids by (unfold recs; by rewrite <-list_fmap_compose).
  unfold ApplyPublished. destruct (read_u32_at _ _ _ Hcount H0) as (s1 & -> & H1).
  rewrite (proj1 H1), zlen_to_nat. cbn [negb].
  rewrite <-(app_nil_r (concat _)) in H1.
  assert (length changed = length recs) as -> by (unfold recs; by rewrite length_fmap).
  rewrite (read_records_at Find scratch recs s1 [] Hok H1).
  set (rs0 := (λ r : PublishedRecord, (r, false)) <$> recs).
  assert (rs0.*1 = recs) as F0.
  { unfold rs0. rewrite <-list_fmap_compose. apply list_fmap_id. }
  assert (applied_records rs0 = []) as A0.
  { unfold rs0. clear. induction recs as [|r recs IH]; [done|]. exact IH. }
  destruct (apply_progress_spec (Datatypes.S (length recs)) root rs0 u st [])
    as (rs & u1 & now & -> & F & A & Hhead).
  { by rewrite F0. }
  { rewrite A0. unfold rs0. rewrite length_fmap. cbn. lia. }
  cbn [mbind option_bind]. rewrite A0, app_nil_r in A. rewrite F0 in F.
  destruct (apply_shells_spec rs u1 (inject_all st (all_layers_of now)) ([] ++ (rec_id <$> now)))
    as (u2 & ->); [by rewrite F..|].
  assert (now ++ left_records rs ≡ₚ recs) as P by (rewrite <-A, <-F; symmetry; apply applied_and_left).
  rewrite <-inject_all_app, app_nil_l, <-fmap_app.
  assert (all_layers_of now ++ all_layers_of (left_records rs) =
    all_layers_of (now ++ left_records rs)) as ->.
  { unfold all_layers_of. by rewrite fmap_app, concat_app. }
  eexists u2, _, _. split; [done|]. split; [by rewrite P, Hids|]. split.
  - intros Hroot Hfound. rewrite <-Hids in Hroot. apply list_elem_of_fmap in Hroot as (r & -> & Hr).
    rewrite fmap_app.
    assert (rec_id <$> head now = Some (rec_id r)) as E.
    { apply Hhead. exists r. split; [|done]. unfold rs0. apply list_elem_of_fmap. by exists r. }
    by destruct now.
  - intros l Hl. assert (∀ x, x ∈ all_layers_of (now ++ left_records rs) ↔ x ∈ all_layers_of recs) as Hin.
    { intros x. unfold all_layers_of. by rewrite P. }
    apply inject_all_loads; [by apply accepts_all| |by apply Hin].
    intros a b Ha Hb. apply Hcons; by apply Hin.
Qed.
End applying.

(** ** The class of a shell *)

Section preferred.
Context {reg : AetherRegistry}.

(** The classes of the layers of an object, in order. *)
Definition classes_of (want : Z) (ls : list Layer) : list Z :=
  (λ l, q_class (layer_query l)) <$> filter (λ l, q_id (layer_query l) = want) ls.

Definition pick (acc : Z * Z) (c : Z) : Z * Z :=
  (if acc.1 =? 0 then c else acc.1, if c =? Node_kClassId then acc.2 else c).

Lemma preferred_class_at ls s r want acc :
  Forall layer_ok ls → at_bytes s (concat (layer_bytes <$> ls) ++ r) →
  preferred_class (length ls) s want acc.1 acc.2 = foldl pick acc (classes_of want ls).
Proof.
  intros Hok. revert s acc. induction Hok as [|l ls Hl _ IH]; intros s acc H; [by destruct acc|].
  cbn [fmap list_fmap concat] in H. rewrite <-app_assoc in H.
  cbn [length preferred_class]. rewrite (proj1 H). cbn [negb].
  destruct (read_header_at _ _ _ Hl H) as (s1 & -> & H1).
  rewrite (payload_fits _ _ _ Hl H1), (proj1 H1). cbn [negb orb].
  pose proof (at_advance _ _ _ H1) as H2. unfold classes_of. rewrite filter_cons.
  cbn [layer_header h_id h_class h_size].
  destruct (Z.eqb_spec (q_id (layer_query l)) want) as [E|E]; cbn [negb].
  - rewrite decide_True by done. cbn [fmap list_fmap foldl].
    exact (IH _ (pick acc (q_class (layer_query l))) H2).
  - rewrite decide_False by done. exact (IH _ acc H2).
Qed.

Lemma pick_all acc cs :
  Forall (λ c, c ≠ 0) cs →
  foldl pick acc cs =
    (if acc.1 =? 0 then default acc.1 (head cs) else acc.1,
     default acc.2 (list.last (filter (λ c, c ≠ Node_kClassId) cs))).
Proof.
  revert acc. induction cs as [|c cs IH]; intros [f d] Hc; cbn [foldl fst snd].
  { cbn. by destruct (f =? 0). }
  apply list.Forall_cons in Hc as [Hc Hcs]. rewrite IH by done. unfold pick. cbn [fst snd].
  f_equal.
  - destruct (Z.eqb_spec f 0) as [->|Hf]; cbn [head default from_option id].
    + apply Z.eqb_neq in Hc. by rewrite Hc.
    + apply Z.eqb_neq in Hf. by rewrite Hf.
  - rewrite filter_cons. destruct (Z.eqb_spec c Node_kClassId) as [E|E].
    + by rewrite decide_False by tauto.
    + rewrite decide_True by done. rewrite last_cons. by destruct (list.last (filter _ cs)).
Qed.

(** The shell gets the last class of the object's layers that is not [Node], and [Node] only
    when it has no other. *)
Lemma PreferredClassIdFor_spec (Find : Z → option LiveObject) scratch want :
  scratch_ok Find scratch → zlen (graph_bytes Find scratch) < 2 ^ 63 →
  Forall (λ c, c ≠ 0) (classes_of want (published_layers Find scratch)) →
  PreferredClassIdFor (new_source (graph_bytes Find scratch)) want =
    let cs := classes_of want (published_layers Find scratch) in
    default (default 0 (head cs)) (list.last (filter (λ c, c ≠ Node_kClassId) cs)).
Proof.
  intros [Hl _ Hlc _] Hsize Hc. pose proof (at_new_source _ Hsize) as H0.
  set (source := new_source _) in *. clearbody source.
  unfold graph_bytes, table_bytes in H0. rewrite (u32_small _ Hlc), <-!app_assoc in H0.
  unfold PreferredClassIdFor. destruct (read_u32_at _ _ _ Hlc H0) as (s1 & -> & H1).
  rewrite zlen_to_nat. pose proof (preferred_class_at _ s1 _ want (0, 0) Hl H1) as E.
  cbn [fst snd] in E. rewrite E, pick_all by done. cbn [fst snd Z.eqb].
  set (cs := classes_of want (published_layers Find scratch)) in *. clearbody cs.
  destruct (list.last (filter (λ c, c ≠ Node_kClassId) cs)) as [c|] eqn:El; [|done].
  cbn. destruct (Z.eqb_spec c 0) as [->|]; [|done]. apply last_Some_elem_of in El.
  apply list_elem_of_filter in El as [_ Hin]. rewrite list.Forall_forall in Hc. by apply Hc in Hin.
Qed.
End preferred.
