(* ===== verification/UiMirrorExamples.v ===== *)
(** * The mirror of the user interface at concrete inputs

    Nodes 7 and 8 of PublicationExamples.v have changed; the mirror has node 7, which is the
    presentation root, and not node 8. *)
From S2P Require Import Prelude NativeBytes PublicationChannel.
From S2P Require Import Aether DomainStorage StoredGraph Publication PublicationTheory.
From S2P Require Import PublicationExamples UiMirror UiMirrorTheory.
Import Demo DemoStorage.

Definition graph_8 : RamState :=
  {[8 := Some {[2 := {[0 := [4]]}; 4 := {[0 := []]}]}; 20 := Some {[1 := {[2 := [6]]}]}]}.
Definition graph_of (id : Z) : RamState := if id =? 7 then model_graph else graph_8.
Definition changed : list (Z * Z) := [(8, 5); (7, 3)].
Definition create_shell (u : Mirror) (id class_id : Z) : option Mirror :=
  Some (<[id := (class_id, 0)]> u).

Lemma changed_ok :
  Forall (record_ok model_objects graph_of) (record_of model_objects graph_of <$> changed).
Proof.
  repeat constructor; cbn [rec_id rec_generation record_of fst snd];
    try (apply (bool_decide_unpack (is_u32 _)); vm_compute; exact I);
    try (apply (bool_decide_unpack (is_u64 _)); vm_compute; exact I).
Qed.

Lemma changed_shells :
  Forall (shell_can_be_created (U := Mirror) (S := DemoStorage.t) create_shell)
    (record_of model_objects graph_of <$> changed).
Proof.
  assert (∀ r, PreferredClassIdFor (new_source (rec_payload r)) (rec_id r) ≠ 0 →
    shell_can_be_created (U := Mirror) (S := DemoStorage.t) create_shell r) as H.
  { intros r Hc. split; [exact Hc|]. intros u _. eexists. split; [reflexivity|].
    cbn [ui_Find mirror_system]. rewrite lookup_insert_eq. by eexists. }
  constructor; [|constructor; [|constructor]]; apply H; vm_compute; discriminate.
Qed.

Lemma changed_consistent :
  consistent (all_layers_of model_objects graph_of (record_of model_objects graph_of <$> changed)).
Proof.
  set (ls := all_layers_of _ _ _).
  assert (Forall (λ l, Forall (λ l', layer_query l = layer_query l' → l = l') ls) ls) as H.
  { apply (bool_decide_unpack (Forall _ _)). vm_compute. exact I. }
  intros l l' Hl Hl'. rewrite list.Forall_forall in H. specialize (H l Hl).
  rewrite list.Forall_forall in H. by apply H.
Qed.

(** Node 7 is applied first, then node 8, for which a shell is created. *)
Lemma ApplyPublished_applies_all_witness :
  ∃ u' st' ids,
    ApplyPublished create_shell 7
      (new_source (write_publication model_objects graph_of changed [])) mirror model_storage =
      Some (Some (u', st', ids)) ∧
    ids ≡ₚ [8; 7] ∧ head ids = Some 7 ∧ Load st' (mkQuery 8 2 0) = kLoaded [4].
Proof.
  destruct (ApplyPublished_applies_all model_objects graph_of create_shell 7 changed mirror
    model_storage) as (u' & st' & ids & E & Hp & Hh & Hl).
  - exact changed_ok.
  - apply (bool_decide_unpack (is_u32 _)). vm_compute. exact I.
  - apply Z.ltb_lt. vm_compute. exact eq_refl.
  - intros st l. reflexivity.
  - exact changed_consistent.
  - exact changed_shells.
  - exists u', st', ids. split; [exact E|]. split; [exact Hp|]. split.
    + apply Hh; [apply (bool_decide_unpack (_ ∈ _)); vm_compute; exact I|].
      vm_compute. by eexists.
    + apply (Hl (mkLayer (mkQuery 8 2 0) [4])).
      apply (bool_decide_unpack (_ ∈ _)). vm_compute. exact I.
Defined.
