(* ===== verification/GraphMirror.v ===== *)
(** * The first copy of the model graph

    Models src/graph_mirror.cpp: the objects of the model are created in the Domain of the user
    interface with the same identifiers and classes, and each is loaded from what the model's
    object saves.  The model's Domain is an argument: what it finds, what a save fills, and
    bringing a node up to date; so is the mirror's, as in Publication.v. *)
From stdpp Require Import relations.
From S2P Require Import Prelude NativeBytes PublicationChannel.
From S2P Require Import Aether DomainStorage StoredGraph Publication PublicationTheory GraphWalk UiMirrorTheory.

Section copy.
Context {reg : AetherRegistry} {M U S : Type} `{!DomainStorage S, !UiSystem U S}.

(** [Find], the scratch storage of a save of an object with its graph and of an object alone,
    and [Node::EnsureCurrentGeneration]; [None]: its assertion fails. *)
Context (Find : M → Z → option LiveObject).
Context (graph_scratch object_scratch : M → Z → RamState).
Context (EnsureCurrentGeneration : M → Z → option M).
(** The factory of a class makes an object, which is added to the Domain; [None]: there is no
    factory.  [release]: what is left when only the root is held. *)
Context (create : U → Z → Z → option U) (release : U → Z → U).

Definition CreateUiShell (u : U) (id : Z) (model : LiveObject) : option U :=
  match ui_Find (S := S) u id with
  | Some _ => Some u
  | None => create u id (live_class model)
  end.

Definition ObjectGeneration (o : LiveObject) : Z :=
  if GenerationDistance Node_kClassId (live_class o) <? 0 then 1 else live_generation o.

Fixpoint ensure_all (m : M) (nodes : list Z) : option M :=
  match nodes with
  | [] => Some m
  | id :: nodes => m ← EnsureCurrentGeneration m id; ensure_all m nodes
  end.

Fixpoint create_shells (m : M) (u : U) (objects : list Z) : option U :=
  match objects with
  | [] => Some u
  | id :: objects => o ← Find m id; u ← CreateUiShell u id o; create_shells m u objects
  end.

(** One object is saved, and loaded into its shell.  The outer [None]: out of fuel. *)
Definition copy_object (m : M) (id : Z) (u : U) (st : S) : option (option (U * S)) :=
  match o ← Find m id; _ ← ui_Find (S := S) u id;
        b ← SerializeObjectToBuffer (object_scratch m id) id []; Some (o, b) with
  | None => Some None
  | Some (o, payload) =>
      r ← DeserializeObjectFromBuffer id (new_source payload) u st;
      Some ('(_, u, st) ← r; Some (FinalizeUiNodeState (S := S) u id (ObjectGeneration o), st))
  end.

Fixpoint copy_objects (m : M) (objects : list Z) (u : U) (st : S) : option (option (U * S)) :=
  match objects with
  | [] => Some (Some (u, st))
  | id :: objects =>
      match copy_object m id u st with
      | None => None
      | Some None => Some None
      | Some (Some (u, st)) => copy_objects m objects u st
      end
  end.

(** The model, the mirror and its storage; the outer [None]: out of fuel. *)
Definition CopyModelGraphToUiDomain (m : M) (root : Z) (u : U) (st : S)
    : option (option (M * U * S)) :=
  match ensure_all m (CollectReachableNodes (Find m) (graph_scratch m root)) with
  | None => Some None
  | Some m =>
      let objects := CollectReachableObjects (Find m) (graph_scratch m root) in
      match create_shells m u objects with
      | None => Some None
      | Some u =>
          r ← copy_objects m objects u st;
          Some ('(u, st) ← r;
                assert! bool_decide (is_Some (ui_Find (S := S) u root)) ;;
                let u := release u root in
                assert! bool_decide (is_Some (ui_Find (S := S) u root)) ;;
                Some (m, u, st))
      end
  end.
End copy.

(** ** Reading the layers of one object *)

Lemma read_saved_layer_at s l r :
  layer_ok l → at_bytes s (saved_layer_bytes l ++ r) →
  ∃ s1 s2 s3, read_u32 s = (q_class (layer_query l), s1) ∧ read_u8 s1 = (q_version (layer_query l), s2) ∧
    read_u32 s2 = (zlen (layer_data l), s3) ∧ at_bytes s3 (layer_data l ++ r).
Proof.
  intros (_ & Hc & Hv & Hd) H. unfold saved_layer_bytes in H. rewrite <-!app_assoc in H.
  rewrite u32_small in H by done.
  destruct (read_u32_at _ _ _ Hc H) as (s1 & E1 & H1).
  destruct (read_u8_at _ _ _ Hv H1) as (s2 & E2 & H2).
  destruct (read_u32_at _ _ _ Hd H2) as (s3 & E3 & H3). by exists s1, s2, s3.
Qed.

Lemma saved_layer_bytes_size l : zlen (saved_layer_bytes l) = 9 + zlen (layer_data l).
Proof.
  unfold saved_layer_bytes, u32_bytes. rewrite !zlen_app, !native_bytes_zlen. lia.
Qed.

Section reading.
Context {reg : AetherRegistry} {U S : Type} `{!DomainStorage S, !UiSystem U S}.

Lemma inject_saved_layers_at id ls : ∀ fuel s (st : S),
  Forall layer_ok ls → (∀ l, l ∈ ls → q_id (layer_query l) = id) →
  at_bytes s (concat (saved_layer_bytes <$> ls)) → (length ls ≤ fuel)%nat →
  ∃ s', inject_saved_layers fuel id (pos s + zlen (concat (saved_layer_bytes <$> ls))) s st =
    Some (Some (s', inject_all st ls)).
Proof.
  induction ls as [|l ls IH]; intros fuel s st Hok Hid H Hf.
  { exists s. destruct fuel; simpl; rewrite Z.add_0_r, Z.leb_refl, Z.eqb_refl; done. }
  apply Forall_cons_1 in Hok as [Hl Hok]. destruct fuel as [|fuel]; [simpl in Hf; lia|].
  cbn [fmap list_fmap concat] in *.
  pose proof (zlen_nonneg (concat (saved_layer_bytes <$> ls))) as Hn.
  pose proof (zlen_nonneg (layer_data l)) as Hn'.
  pose proof (at_bytes_left _ _ H) as Hleft. pose proof (at_bytes_bounds _ _ H) as Hbounds.
  destruct (read_saved_layer_at _ _ _ Hl H) as (s1 & s2 & s3 & E1 & E2 & E3 & H3).
  pose proof (at_bytes_left _ _ H3) as Hleft3.
  assert (Hsize : source_size s3 = source_size s).
  { unfold read_u32, read_u8, read_integer in *.
    assert (Hd : ∀ x n, data (read x n).2 = data x) by (intros x n; unfold read; repeat case_match; done).
    pose proof (Hd s 4) as D1. destruct (read s 4) as [? ?]. simplify_eq/=.
    pose proof (Hd s1 1) as D2. destruct (read s1 1) as [? ?]. simplify_eq/=.
    pose proof (Hd s2 4) as D3. destruct (read s2 4) as [? ?]. simplify_eq/=.
    unfold source_size. by rewrite D3, D2, D1. }
  rewrite !zlen_app, saved_layer_bytes_size in *.
  cbn [inject_saved_layers]. rewrite (proj2 (Z.leb_gt _ _)) by lia. rewrite E1, E2, E3.
  assert (Hdata : zlen (layer_data l) < 2 ^ 63) by (destruct Hbounds as (? & ? & ?); lia).
  rewrite (pos_add _ _ _ H3) by lia. rewrite (proj1 H3).
  rewrite (proj2 (Z.leb_le _ _)) by lia. cbn [andb].
  rewrite (at_source_bytes _ _ _ H3).
  replace (mkLayer _ (layer_data l)) with l.
  2:{ rewrite <-(Hid l) by left. by destruct l as [[]]. }
  destruct (InjectObjectBytes st l) as [b st1] eqn:Hinj.
  pose proof (at_advance _ _ _ H3) as H4.
  destruct (IH fuel (advance s3 (zlen (layer_data l))) st1 Hok) as (s' & E);
    [intros x Hx; apply Hid; by right|exact H4|simpl in Hf; lia|].
  exists s'. unfold inject_all. cbn [foldl]. rewrite Hinj. cbn [snd]. unfold inject_all in E. rewrite <-E.
  f_equal. pose proof (at_bytes_left _ _ H4) as Hleft4. unfold advance, source_size in *. simpl in *. lia.
Qed.

Lemma saved_layers_length ls :
  Z.of_nat (length ls) ≤ zlen (concat (saved_layer_bytes <$> ls)).
Proof.
  induction ls as [|l ls IH]; [done|]. cbn [fmap list_fmap concat length].
  rewrite zlen_app, saved_layer_bytes_size. pose proof (zlen_nonneg (layer_data l)). lia.
Qed.

(** An object that is saved and loaded: its layers are in the storage. *)
Lemma DeserializeObjectFromBuffer_at id ls u (st : S) :
  Forall layer_ok ls → (∀ l, l ∈ ls → q_id (layer_query l) = id) →
  zlen (concat (saved_layer_bytes <$> ls)) < 2 ^ 63 →
  ∃ s', DeserializeObjectFromBuffer id (new_source (concat (saved_layer_bytes <$> ls))) u st =
    Some (Some (s', LoadExistingObjectUnchecked u (inject_all st ls) id, inject_all st ls)).
Proof.
  intros Hok Hid Hsize. pose proof (at_new_source _ Hsize) as H.
  unfold DeserializeObjectFromBuffer, InjectSavedObjectLayers.
  pose proof (at_bytes_left _ _ H) as Hleft. rewrite Hleft.
  replace (pos (new_source (concat (saved_layer_bytes <$> ls))) + zlen (concat (saved_layer_bytes <$> ls)) -
    pos (new_source (concat (saved_layer_bytes <$> ls)))) with (zlen (concat (saved_layer_bytes <$> ls))) by lia.
  rewrite (pos_add _ _ _ H) by (pose proof (zlen_nonneg (concat (saved_layer_bytes <$> ls))); lia).
  destruct (inject_saved_layers_at id ls (Z.to_nat (zlen (concat (saved_layer_bytes <$> ls))))
    (new_source (concat (saved_layer_bytes <$> ls))) st Hok Hid H) as (s' & ->).
  - pose proof (saved_layers_length ls). lia.
  - by exists s'.
Qed.
End reading.

(** ** The copy *)

Section copying.
Context {reg : AetherRegistry} {M U S : Type} `{!DomainStorage S, !UiSystem U S, !StorageLaws S}.
Context (Find : M → Z → option LiveObject).
Context (graph_scratch object_scratch : M → Z → RamState).
Context (EnsureCurrentGeneration : M → Z → option M).
Context (create : U → Z → Z → option U) (release : U → Z → U).

(** A stored layer comes from the layers that were injected or was there before. *)
Lemma inject_all_loaded ls q x : ∀ st : S,
  accepts st ls → Load (inject_all st ls) q = kLoaded x →
  mkLayer q x ∈ ls ∨ Load st q = kLoaded x.
Proof.
  induction ls as [|l ls IH]; intros st Hacc Hl; [by right|].
  cbn [accepts] in Hacc. destruct Hacc as [Hone Hacc].
  destruct (IH _ Hacc Hl) as [Hin|Hl']; [left; by right|].
  unfold InjectObjectBytes in Hone, Hl'.
  destruct (Store st (layer_query l) (layer_data l)) as [st'|] eqn:Hs; [|done]. cbn [snd] in Hl'.
  destruct (decide (q = layer_query l)) as [->|Hne].
  - rewrite (Load_Store_same _ _ _ _ Hs) in Hl'. injection Hl' as <-. left. destruct l. by left.
  - destruct (Load_Store_other _ _ _ _ _ Hs Hne) as [E|(_ & _ & E)]; [|congruence].
    right. by rewrite <-E.
Qed.

(** The layers of the object in the storage are [ls]. *)
Definition stores (st : S) (id : Z) (ls : list Layer) : Prop :=
  (∀ l, l ∈ ls → q_id (layer_query l) = id) ∧
  ∀ q x, q_id q = id → Load st q = kLoaded x ↔ mkLayer q x ∈ ls.

(** The pointers between the objects of the mirror, one object to another that the Domain
    has. *)
Definition linked (refs : U → Z → list Z) (u : U) (a b : Z) : Prop :=
  b ∈ refs u a ∧ is_Some (ui_Find (S := S) u b).

(** What the mirror's Domain promises.  [generation]: that of a node; [refs]: the objects that
    the pointers of an object hold; [references]: the identifiers that the layers of an object
    name.  Loading an object and adopting a generation leave the objects that are there, with
    their classes, and the others' pointers; an object that is loaded points to every object
    its layers name that the Domain has; a shell has the class it was created with; and when
    only the root is held, what the pointers reach from it stays as it is. *)
Record domain_laws (generation : U → Z → Z) (refs : U → Z → list Z)
    (references : list Layer → list Z) (creatable : Z → Prop) : Prop := {
  load_keeps u (st : S) id id' c :
    ui_Find (S := S) u id' = Some c → ui_Find (S := S) (ui_LoadExisting u st id).2 id' = Some c;
  load_frame u (st : S) id id' : id ≠ id' → is_Some (ui_Find (S := S) u id') →
    generation (ui_LoadExisting u st id).2 id' = generation u id' ∧
    refs (ui_LoadExisting u st id).2 id' = refs u id';
  load_links u (st : S) id ls b :
    is_Some (ui_Find (S := S) u id) → stores st id ls → b ∈ references ls →
    is_Some (ui_Find (S := S) u b) → b ∈ refs (ui_LoadExisting u st id).2 id;
  adopt_keeps u id g id' :
    ui_Find (S := S) (ui_AdoptPublished (S := S) u id g) id' = ui_Find (S := S) u id' ∧
    refs (ui_AdoptPublished (S := S) u id g) id' = refs u id';
  adopt_generation u id g id' : is_Some (ui_Find (S := S) u id) →
    generation (ui_AdoptPublished (S := S) u id g) id' =
      if decide (id = id') then g else generation u id';
  create_finds u id c : ui_Find (S := S) u id = None → creatable c →
    ∃ u', create u id c = Some u' ∧
      ∀ id', ui_Find (S := S) u' id' = if decide (id = id') then Some c else ui_Find (S := S) u id';
  release_keeps u root id : rtc (linked refs u) root id →
    ui_Find (S := S) (release u root) id = ui_Find (S := S) u id ∧
    generation (release u root) id = generation u id
}.

Context (generation : U → Z → Z) (refs : U → Z → list Z).
Context (references : list Layer → list Z) (creatable : Z → Prop).
Hypothesis laws : domain_laws generation refs references creatable.

Definition node_class (o : LiveObject) : Prop := ¬ GenerationDistance Node_kClassId (live_class o) < 0.

(** The layers that an object saves. *)
Definition layers_of (m : M) (id : Z) : list Layer :=
  match find_active (object_scratch m id) id with
  | Some classes => object_layers id classes
  | None => []
  end.

(** An object that can be saved, and a class that can be created. *)
Record copyable (m : M) (id : Z) : Prop := {
  copy_found : ∃ o, Find m id = Some o ∧ creatable (live_class o);
  copy_saved : is_Some (find_active (object_scratch m id) id);
  copy_layers : Forall layer_ok (layers_of m id);
  copy_size : zlen (concat (saved_layer_bytes <$> layers_of m id)) < 2 ^ 63
}.

(** One object of the model names another that is copied. *)
Definition names (m : M) (objects : list Z) (a b : Z) : Prop :=
  b ∈ references (layers_of m a) ∧ b ∈ objects.

(** The storage has no layer of the object but those that will be written again. *)
Definition nothing_else_stored (m : M) (st : S) (id : Z) : Prop :=
  ∀ q x, q_id q = id → Load st q = kLoaded x → q ∈ layer_query <$> layers_of m id.

(** The mirror's object of an identifier has the class of the model's. *)
Definition class_agrees (m : M) (u : U) (id : Z) : Prop :=
  ∀ o c, Find m id = Some o → ui_Find (S := S) u id = Some c → c = live_class o.

Lemma elem_of_layers_of m id l : l ∈ layers_of m id → q_id (layer_query l) = id.
Proof.
  unfold layers_of. destruct (find_active _ _); [|by intros ?%elem_of_nil].
  intros Hl. by apply elem_of_object_layers in Hl as [? _].
Qed.

Lemma layers_consistent m objects : consistent (concat (layers_of m <$> objects)).
Proof.
  intros l l' Hl Hl' Hq. apply list_elem_of_In, in_concat in Hl as (ls & Hls & Hl).
  apply list_elem_of_In, in_concat in Hl' as (ls' & Hls' & Hl').
  apply list_elem_of_In, list_elem_of_fmap in Hls as (id & -> & _).
  apply list_elem_of_In, list_elem_of_fmap in Hls' as (id' & -> & _).
  apply list_elem_of_In in Hl, Hl'.
  pose proof (elem_of_layers_of _ _ _ Hl) as E1. pose proof (elem_of_layers_of _ _ _ Hl') as E2.
  assert (id = id') as <- by (rewrite <-E1, <-E2; by rewrite Hq). unfold layers_of in *.
  destruct (find_active _ _); [|by apply elem_of_nil in Hl].
  apply elem_of_object_layers in Hl as (_ & v & Hv & Hd). apply elem_of_object_layers in Hl' as (_ & v' & Hv' & Hd').
  rewrite Hq in *. destruct l as [q d], l' as [q' d']. simpl in *. subst. congruence.
Qed.

Lemma layers_of_consistent m id : consistent (layers_of m id).
Proof.
  pose proof (layers_consistent m [id]) as H. cbn [fmap list_fmap concat] in H.
  by rewrite app_nil_r in H.
Qed.

Lemma layers_of_stored m id (st : S) :
  accepts st (layers_of m id) → nothing_else_stored m st id →
  stores (inject_all st (layers_of m id)) id (layers_of m id).
Proof.
  intros Hacc Hst. split; [apply elem_of_layers_of|]. intros q x Hq. split.
  - intros Hl. destruct (inject_all_loaded _ _ _ _ Hacc Hl) as [|Hold]; [done|].
    apply (Hst q x Hq) in Hold. apply list_elem_of_fmap in Hold as (l & -> & Hin).
    rewrite (inject_all_loads _ _ _ Hacc (layers_of_consistent m id) Hin) in Hl.
    injection Hl as <-. by destruct l.
  - intros Hin. by apply (inject_all_loads _ _ _ Hacc (layers_of_consistent m id) Hin).
Qed.

Lemma nothing_else_after m (st : S) id id' :
  id' ≠ id → nothing_else_stored m st id' →
  nothing_else_stored m (inject_all st (layers_of m id)) id'.
Proof.
  intros Hne Hst q x Hq. rewrite inject_all_other; [by apply Hst|].
  intros l Hl. by rewrite (elem_of_layers_of _ _ _ Hl), Hq.
Qed.

Lemma all_accepted (ls : list Layer) (st : S) :
  (∀ (st : S) l, (InjectObjectBytes st l).1 = true) → accepts st ls.
Proof. intros Hacc. revert st. induction ls as [|x ls IH]; intros st; [done|]. by split. Qed.

Lemma create_shells_spec m objects : ∀ u,
  (∀ id, id ∈ objects → copyable m id ∧ class_agrees m u id) →
  ∃ u', create_shells (S := S) Find create m u objects = Some u' ∧
    (∀ id c, ui_Find (S := S) u id = Some c → ui_Find (S := S) u' id = Some c) ∧
    ∀ id o, id ∈ objects → Find m id = Some o → ui_Find (S := S) u' id = Some (live_class o).
Proof.
  induction objects as [|id objects IH]; intros u Hok.
  { exists u. split; [done|]. split; [done|]. by intros id o ?%elem_of_nil. }
  destruct (Hok id) as [[(o & Ho & Hcr) _ _ _] Hagree]; [by left|]. cbn [create_shells].
  rewrite Ho. cbn [mbind option_bind].
  assert (Hu : ∃ u1, CreateUiShell (S := S) create u id o = Some u1 ∧
    (∀ id' c, ui_Find (S := S) u id' = Some c → ui_Find (S := S) u1 id' = Some c) ∧
    ui_Find (S := S) u1 id = Some (live_class o) ∧
    ∀ id', id' ≠ id → ui_Find (S := S) u1 id' = ui_Find (S := S) u id').
  { unfold CreateUiShell. destruct (ui_Find u id) as [c|] eqn:Hf.
    - exists u. split_and!; try done. rewrite Hf. f_equal. by apply Hagree.
    - destruct (create_finds _ _ _ _ laws u id (live_class o) Hf Hcr) as (u1 & Hc & Hfind).
      exists u1. split; [done|]. split; [|split].
      + intros id' c Hc'. rewrite Hfind. destruct (decide (id = id')) as [<-|]; [congruence|done].
      + by rewrite Hfind, decide_True.
      + intros id' Hne. by rewrite Hfind, decide_False. }
  destruct Hu as (u1 & -> & Hk1 & Hid & Hother). cbn [mbind option_bind].
  destruct (IH u1) as (u' & -> & Hk' & Hf').
  { intros id' Hin. destruct (Hok id') as [Hc Ha]; [by right|]. split; [done|].
    intros o' c' Ho' Hc'. destruct (decide (id' = id)) as [->|Hne]; [congruence|].
    rewrite Hother in Hc' by done. by apply Ha. }
  exists u'. split; [done|]. split; [intros id' c Hc; by apply Hk', Hk1|].
  intros id' o' Hin Ho'. apply elem_of_cons in Hin as [->|Hin]; [|by apply Hf'].
  rewrite Ho in Ho'. injection Ho' as <-. by apply Hk'.
Qed.

(** What a copy leaves of the objects of the mirror other than the one that is copied. *)
Definition others_keep (P : Z → Prop) (u u' : U) : Prop :=
  ∀ id c, ui_Find (S := S) u id = Some c → ui_Find (S := S) u' id = Some c ∧
    (P id → generation u' id = generation u id ∧ refs u' id = refs u id).

Lemma copy_object_spec m id u (st : S) o :
  copyable m id → Find m id = Some o → ui_Find (S := S) u id = Some (live_class o) →
  (∀ (st : S) l, (InjectObjectBytes st l).1 = true) → nothing_else_stored m st id →
  ∃ u', copy_object Find object_scratch m id u st = Some (Some (u', inject_all st (layers_of m id))) ∧
    others_keep (λ id', id' ≠ id) u u' ∧
    (node_class o → generation u' id = live_generation o) ∧
    ∀ b, b ∈ references (layers_of m id) → is_Some (ui_Find (S := S) u b) → b ∈ refs u' id.
Proof.
  intros [_ [classes Hcl] Hl Hsize] Ho Hu Hacc Hst. unfold copy_object. rewrite Ho.
  cbn [mbind option_bind]. rewrite Hu. unfold SerializeObjectToBuffer, AppendSavedObjectLayers.
  assert (Hlo : layers_of m id = object_layers id classes) by (unfold layers_of; by rewrite Hcl).
  rewrite Hcl. cbn [mbind option_bind].
  rewrite (foldl_append write_saved_layer saved_layer_bytes _ [] write_saved_layer_bytes), <-Hlo.
  rewrite (app_nil_l (concat _)).
  destruct (DeserializeObjectFromBuffer_at id (layers_of m id) u st Hl) as (s' & ->);
    [apply elem_of_layers_of|done|].
  cbn [mbind option_bind]. unfold LoadExistingObjectUnchecked. rewrite Hu.
  set (st1 := inject_all st (layers_of m id)). set (u1 := (ui_LoadExisting u st1 id).2).
  assert (Hk1 : others_keep (λ id', id' ≠ id) u u1).
  { intros id' c Hc. split; [by apply (load_keeps _ _ _ _ laws)|]. intros Hne.
    apply (load_frame _ _ _ _ laws); [done|by eexists]. }
  assert (Hlinks : ∀ b, b ∈ references (layers_of m id) → is_Some (ui_Find (S := S) u b) →
    b ∈ refs u1 id).
  { intros b Hb Hf. apply (load_links _ _ _ _ laws) with (layers_of m id); [by eexists| |done..].
    by apply layers_of_stored; [apply all_accepted|]. }
  eexists. split; [reflexivity|]. unfold FinalizeUiNodeState. rewrite (proj1 (Hk1 _ _ Hu)).
  unfold ObjectGeneration, node_class. destruct (GenerationDistance _ _ <? 0) eqn:Hn.
  - apply Z.ltb_lt in Hn. by split_and!.
  - apply Z.ltb_ge in Hn. assert (Hu1 : is_Some (ui_Find (S := S) u1 id)).
    { rewrite (proj1 (Hk1 _ _ Hu)). by eexists. }
    split_and!.
    + intros id' c Hc. destruct (Hk1 id' c Hc) as [Hf Hg].
      destruct (adopt_keeps _ _ _ _ laws u1 id (live_generation o) id') as [-> ->].
      split; [done|]. intros Hne. rewrite (adopt_generation _ _ _ _ laws) by done.
      rewrite decide_False by done. by apply Hg.
    + intros _. by rewrite (adopt_generation _ _ _ _ laws), decide_True by done.
    + intros b Hb Hf. destruct (adopt_keeps _ _ _ _ laws u1 id (live_generation o) id) as [_ ->].
      by apply Hlinks.
Qed.

Lemma copy_objects_spec m objects : ∀ u (st : S),
  NoDup objects → (∀ id, id ∈ objects → copyable m id) →
  (∀ id o, id ∈ objects → Find m id = Some o → ui_Find (S := S) u id = Some (live_class o)) →
  (∀ (st : S) l, (InjectObjectBytes st l).1 = true) →
  (∀ id, id ∈ objects → nothing_else_stored m st id) →
  ∃ u', copy_objects Find object_scratch m objects u st =
      Some (Some (u', inject_all st (concat (layers_of m <$> objects)))) ∧
    others_keep (λ id, id ∉ objects) u u' ∧
    ∀ id, id ∈ objects →
      (∀ o, Find m id = Some o → node_class o → generation u' id = live_generation o) ∧
      ∀ b, b ∈ references (layers_of m id) → is_Some (ui_Find (S := S) u b) → b ∈ refs u' id.
Proof.
  induction objects as [|id objects IH]; intros u st Hnd Hok Hshell Hacc Hst.
  { exists u. split_and!; [done|by intros id c|]. by intros id ?%elem_of_nil. }
  apply list.NoDup_cons in Hnd as [Hid Hnd].
  destruct (copy_found _ _ (Hok id ltac:(by left))) as (o & Ho & _).
  pose proof (Hshell id o ltac:(by left) Ho) as Hu.
  destruct (copy_object_spec m id u st o) as (u1 & Hc & Hk1 & Hn1 & Hr1);
    [by apply Hok; left|done|done|done|by apply Hst; left|].
  cbn [copy_objects]. rewrite Hc.
  destruct (IH u1 (inject_all st (layers_of m id)) Hnd) as (u' & Hcs & Hk' & Hn').
  { intros id' Hin. apply Hok. by right. }
  { intros id' o' Hin Ho'. eapply Hk1, Hshell; [by right|done]. }
  { done. }
  { intros id' Hin. apply nothing_else_after; [by intros ->|]. apply Hst. by right. }
  exists u'. rewrite Hcs. cbn [fmap list_fmap concat]. rewrite inject_all_app.
  split; [done|]. split.
  - intros id' c Hc'. destruct (Hk1 _ _ Hc') as [Hf1 Hg1]. destruct (Hk' _ _ Hf1) as [Hf' Hg'].
    split; [done|]. intros Hnin. apply not_elem_of_cons in Hnin as [Hne Hnin].
    destruct (Hg1 Hne), (Hg' Hnin). split; congruence.
  - intros id' Hin. apply elem_of_cons in Hin as [->|Hin].
    + destruct (Hk1 _ _ Hu) as [Hf1 _]. destruct (proj2 (Hk' _ _ Hf1) Hid) as [-> ->].
      split; [|done]. intros o' Ho'. rewrite Ho in Ho'. by injection Ho' as <-.
    + destruct (Hn' id' Hin) as [Hg Hr]. split; [done|]. intros b Hb [c Hf]. apply Hr; [done|].
      destruct (Hk1 _ _ Hf) as [-> _]. by eexists.
Qed.

(** What the chain of names reaches in the model, the pointers reach in the mirror. *)
Lemma names_linked m objects u a b :
  (∀ id, id ∈ objects → is_Some (ui_Find (S := S) u id) ∧
     ∀ b, b ∈ references (layers_of m id) → b ∈ objects → b ∈ refs u id) →
  a ∈ objects → rtc (names m objects) a b → b ∈ objects ∧ rtc (linked refs u) a b.
Proof.
  intros Hu Ha H. revert Ha. induction H as [a|a c b [Hn Hc] _ IH]; intros Ha; [by split|].
  destruct (IH Hc) as [Hb Hr]. split; [done|]. eapply rtc_l; [|done].
  destruct (Hu c Hc) as [Hf _]. split; [|done]. by apply (Hu a Ha).
Qed.

(** C22. The first copy mirrors the whole graph, and what is returned keeps it: when the nodes
    can be brought up to date and the objects saved, no assertion fails and the reading ends;
    after the copy has let go of every object but the root, every object of the model to which
    a chain of saved pointers leads from the root is in the mirror with its class, a node with
    the model's generation; and every layer that the objects save is in the mirror's storage as
    it was saved. *)
Theorem CopyModelGraph_mirrors m m' root u (st : S) :
  ensure_all EnsureCurrentGeneration m (CollectReachableNodes (Find m) (graph_scratch m root)) = Some m' →
  let objects := CollectReachableObjects (Find m') (graph_scratch m' root) in
  root ∈ objects → (∀ id, id ∈ objects → copyable m' id ∧ class_agrees m' u id) →
  (∀ (st : S) l, (InjectObjectBytes st l).1 = true) →
  (∀ id, id ∈ objects → nothing_else_stored m' st id) →
  ∃ u' st',
    CopyModelGraphToUiDomain Find graph_scratch object_scratch EnsureCurrentGeneration create release
      m root u st = Some (Some (m', u', st')) ∧
    (∀ id, rtc (names m' objects) root id →
       ∃ o, Find m' id = Some o ∧ ui_Find (S := S) u' id = Some (live_class o) ∧
         (node_class o → generation u' id = live_generation o)) ∧
    ∀ id l, id ∈ objects → l ∈ layers_of m' id → Load st' (layer_query l) = kLoaded (layer_data l).
Proof.
  intros Hens objects Hroot Hok Hacc Hst. unfold CopyModelGraphToUiDomain. rewrite Hens. fold objects.
  assert (Hnd : NoDup objects).
  { unfold objects, CollectReachableObjects, scratch_objects. apply RemoveDistilledBaseObjects_NoDup.
    apply list.NoDup_filter, active_NoDup. }
  destruct (create_shells_spec m' objects u Hok) as (u1 & -> & _ & Hshell).
  destruct (copy_objects_spec m' objects u1 st Hnd) as (held & -> & Hk & Hm);
    [intros id Hin; by apply Hok|done..|].
  cbn [mbind option_bind].
  assert (Hfind : ∀ id, id ∈ objects → ∃ o, Find m' id = Some o ∧
    ui_Find (S := S) u1 id = Some (live_class o) ∧ ui_Find (S := S) held id = Some (live_class o)).
  { intros id Hin. destruct (copy_found _ _ (proj1 (Hok id Hin))) as (o & Ho & _).
    exists o. pose proof (Hshell id o Hin Ho) as Hu1. by destruct (Hk _ _ Hu1) as [Hh _]. }
  destruct (Hfind root Hroot) as (o & _ & _ & Hr).
  destruct (release_keeps _ _ _ _ laws held root root) as [Hrel _]; [done|].
  rewrite Hr, Hrel, Hr. rewrite !bool_decide_true by done. cbn [mbind option_bind].
  eexists _, _. split; [reflexivity|]. split.
  - intros id Hid. destruct (names_linked m' objects held root id) as [Hin Hlinked]; [|done..|].
    { intros a Ha. destruct (Hfind a Ha) as (oa & _ & _ & ->). split; [by eexists|].
      intros b Hb Hin. apply (proj2 (Hm a Ha)); [done|].
      destruct (Hfind b Hin) as (ob & _ & -> & _). by eexists. }
    destruct (Hfind id Hin) as (o' & Ho' & _ & Hf').
    destruct (release_keeps _ _ _ _ laws held root id Hlinked) as [-> ->].
    exists o'. split; [done|]. split; [done|]. by apply (proj1 (Hm id Hin)).
  - intros id l Hin Hl. apply inject_all_loads; [by apply all_accepted|apply layers_consistent|].
    apply list_elem_of_In, in_concat. exists (layers_of m' id). split; [|by apply list_elem_of_In].
    apply list_elem_of_In, list_elem_of_fmap. by exists id.
Qed.
End copying.

(** ** Example: a graph of two nodes that point to each other

    Node 7, the root, has a base and points to node 8 and to an object, and node 8 points back.
    A stored byte is the identifier of an object that a pointer of the object names. *)
Module Examples.
Import Demo DemoStorage.

(** Class, generation and pointers by identifier. *)
Abbreviation LinkedMirror := (gmap Z (Z * Z * list Z)).

(** A pointer is set when the Domain has the object. *)
Definition load_pointers (u : LinkedMirror) (st : DemoStorage.t) (id : Z) : list Z :=
  filter (λ b, is_Some (u !! b)) (concat (map_to_list (layers st id)).*2).

#[export] Instance linked_mirror_system : UiSystem LinkedMirror DemoStorage.t := {|
  ui_Find u id := fst ∘ fst <$> u !! id;
  ui_LoadExisting u st id := (true, alter (λ e, (e.1, load_pointers u st id)) id u);
  ui_LoadRoot u _ id := (bool_decide (is_Some (u !! id)), u);
  ui_AdoptPublished u id g := alter (λ e, (e.1.1, g, e.2)) id u
|}.

Definition generation (u : LinkedMirror) (id : Z) : Z := default 0 (snd ∘ fst <$> u !! id).
Definition refs (u : LinkedMirror) (id : Z) : list Z := default [] (snd <$> u !! id).
Definition references (ls : list Layer) : list Z := concat (layer_data <$> ls).
Definition create (u : LinkedMirror) (id c : Z) : option LinkedMirror :=
  Some (<[id := (c, 0, [])]> u).

(** What is left when only the root is held: the Domain forgets what the pointers do not
    reach from it. *)
Fixpoint reach (u : LinkedMirror) (fuel : nat) (seen : list Z) : list Z :=
  match fuel with
  | O => seen
  | Datatypes.S fuel => reach u fuel (remove_dups (seen ++ concat (refs u <$> seen)))
  end.
Definition release (u : LinkedMirror) (root : Z) : LinkedMirror :=
  let kept := reach u (size u) [root] in
  if bool_decide (root ∈ kept ∧ Forall (λ a, Forall (λ b, b ∈ kept) (refs u a)) kept)
  then filter (λ e, e.1 ∈ kept) u else u.

Lemma release_keeps_linked u root id :
  rtc (linked (S := DemoStorage.t) refs u) root id → release u root !! id = u !! id.
Proof.
  intros H. unfold release. case_bool_decide as Hk; [|done]. destruct Hk as [Hroot Hk].
  rewrite list.Forall_forall in Hk. set (kept := reach _ _ _) in *. clearbody kept.
  assert (id ∈ kept) as Hid.
  { induction H as [|a c b [Hc _] _ IH]; [done|]. apply IH.
    specialize (Hk a Hroot). rewrite list.Forall_forall in Hk. by apply Hk. }
  destruct (u !! id) as [e|] eqn:E.
  - by apply map_lookup_filter_Some.
  - apply map_lookup_filter_None. by left.
Qed.

Lemma linked_mirror_laws :
  domain_laws (S := DemoStorage.t) create release generation refs references (λ _, True).
Proof.
  split.
  - intros u st id id' c. cbn. destruct (decide (id' = id)) as [->|Hne];
      [rewrite lookup_alter_eq|by rewrite lookup_alter_ne].
    by destruct (u !! id).
  - intros u st id id' Hne _. unfold generation, refs. cbn. by rewrite lookup_alter_ne.
  - intros u st id ls b [c Hc] [Hids Hst] Hb Hf. unfold refs. cbn in *. rewrite lookup_alter_eq.
    destruct (u !! id) as [e|]; [|done]. cbn. apply list_elem_of_filter.
    split; [by destruct (u !! b); [eexists|destruct Hf]|].
    unfold references in Hb. apply list_elem_of_In, in_concat in Hb as (x & Hx & Hb).
    apply list_elem_of_In, list_elem_of_fmap in Hx as ([q y] & -> & Hin).
    apply list_elem_of_In, in_concat. exists y. split; [|done].
    apply list_elem_of_In, list_elem_of_fmap. exists ((q_class q, q_version q), y).
    split; [done|]. apply elem_of_map_to_list.
    assert (q_id q = id) as Hq by apply (Hids _ Hin).
    apply Hst in Hin; [|done]. apply load_layers in Hin. by rewrite Hq in Hin.
  - intros u id g id'. unfold refs. cbn. destruct (decide (id' = id)) as [->|Hne];
      [rewrite lookup_alter_eq; by destruct (u !! id)|by rewrite lookup_alter_ne].
  - intros u id g id' [c Hc]. unfold generation. cbn in *. destruct (decide (id = id')) as [<-|Hne];
      [rewrite lookup_alter_eq; by destruct (u !! id)|by rewrite lookup_alter_ne].
  - intros u id c _ _. eexists. split; [reflexivity|]. intros id'. cbn.
    destruct (decide (id = id')) as [<-|Hne]; [by rewrite lookup_insert_eq|by rewrite lookup_insert_ne].
  - intros u root id H. unfold generation. cbn. by rewrite !release_keeps_linked.
Qed.

Definition graph_objects (id : Z) : option LiveObject :=
  if id =? 7 then Some (mkLive 2 (Some 9) 3)
  else if id =? 8 then Some (mkLive 4 None 5)
  else if id =? 9 then Some (mkLive 2 None 1)
  else if id =? 20 then Some (mkLive 1 None 0)
  else None.
Definition graph : RamState :=
  {[7 := Some {[2 := {[0 := [8; 20]]}]}; 8 := Some {[4 := {[0 := [7]]}]};
    9 := Some {[2 := {[0 := []]}]}; 20 := Some {[1 := {[2 := []]}]}]}.
(** What a save of an object alone fills. *)
Definition object_scratch (_ : unit) (id : Z) : RamState :=
  match graph !! id with Some e => {[id := e]} | None => ∅ end.
(** The mirror has node 7 already, and an object that nothing points to. *)
Definition first_mirror : LinkedMirror := {[7 := (2, 0, []); 99 := (1, 0, [])]}.
Definition copied : option (option (unit * LinkedMirror * DemoStorage.t)) :=
  CopyModelGraphToUiDomain (λ _, graph_objects) (λ _ _, graph) object_scratch (λ m _, Some m)
    create release tt 7 first_mirror ∅.

Definition reached_objects : list Z := CollectReachableObjects graph_objects graph.

Example the_base_is_left_out : reached_objects ≡ₚ [7; 8; 20].
Proof. apply (bool_decide_unpack (_ ≡ₚ _)). vm_compute. exact I. Qed.

Lemma reached_copyable id :
  id ∈ reached_objects →
  copyable (λ _, graph_objects) object_scratch (λ _, True) tt id ∧
  class_agrees (S := DemoStorage.t) (λ _, graph_objects) tt first_mirror id.
Proof.
  rewrite the_base_is_left_out. intros Hin.
  assert (Ho : graph_objects id = Some (mkLive 2 (Some 9) 3) ∧ id = 7 ∨
    is_Some (graph_objects id) ∧ first_mirror !! id = None).
  { repeat (apply elem_of_cons in Hin as [->|Hin]; [vm_compute; naive_solver|]). by apply elem_of_nil in Hin. }
  assert (Hsaved : bool_decide (is_Some (find_active (object_scratch tt id) id)) &&
    bool_decide (Forall layer_ok (layers_of object_scratch tt id)) &&
    (zlen (concat (saved_layer_bytes <$> layers_of object_scratch tt id)) <? 2 ^ 63) = true).
  { repeat (apply elem_of_cons in Hin as [->|Hin]; [vm_compute; reflexivity|]). by apply elem_of_nil in Hin. }
  apply andb_prop in Hsaved as [[H1 H2]%andb_prop H3].
  apply bool_decide_eq_true in H1, H2. apply Z.ltb_lt in H3. split; [split|]; try done.
  - destruct Ho as [[-> ->]|[[o Ho] _]]; eauto.
  - intros o c Hm Hc. destruct Ho as [[Ho ->]|[_ Ho]]; [|by cbn in Hc; rewrite Ho in Hc].
    rewrite Ho in Hm. injection Hm as <-. vm_compute in Hc. by injection Hc as <-.
Qed.

(** Node 8, which only a pointer of the root holds, is in the mirror at the end. *)
Lemma CopyModelGraph_mirrors_witness :
  ∃ u st, copied = Some (Some (tt, u, st)) ∧
    ui_Find (S := DemoStorage.t) u 8 = Some 4 ∧ generation u 8 = 5 ∧
    Load st (mkQuery 8 4 0) = kLoaded [7].
Proof.
  destruct (CopyModelGraph_mirrors (λ _ : unit, graph_objects) (λ _ _, graph) object_scratch
    (λ m _, Some m) create release generation refs references (λ _, True) linked_mirror_laws
    tt tt 7 first_mirror ∅) as (u & st & E & Hg & Hl).
  - vm_compute. reflexivity.
  - change (7 ∈ reached_objects). rewrite the_base_is_left_out. by left.
  - exact reached_copyable.
  - done.
  - intros id _ q x _ Hx. by apply load_layers in Hx.
  - assert (H8 : 8 ∈ CollectReachableObjects graph_objects graph).
    { change (8 ∈ reached_objects). rewrite the_base_is_left_out. right. by left. }
    destruct (Hg 8) as (o & Ho & Hf & Hn).
    { apply rtc_once. split; [|done]. apply (bool_decide_unpack (_ ∈ _)). vm_compute. exact I. }
    assert (o = mkLive 4 None 5) as -> by (symmetry in Ho; vm_compute in Ho; by injection Ho).
    exists u, st. split; [exact E|]. split; [exact Hf|]. split.
    + apply Hn. unfold node_class. apply Z.nlt_ge. apply Z.leb_le. vm_compute. exact eq_refl.
    + apply (Hl 8 (mkLayer (mkQuery 8 4 0) [7]) H8).
      apply (bool_decide_unpack (_ ∈ _)). vm_compute. exact I.
Defined.

(** The three objects are in the mirror, and the object nothing points to is gone. *)
Example copied_mirror :
  match copied with
  | Some (Some (_, u, _)) =>
      bool_decide (u = {[7 := (2, 3, [8; 20]); 8 := (4, 5, [7]); 20 := (1, 0, [])]})
  | _ => false
  end = true.
Proof. vm_compute. reflexivity. Qed.
End Examples.
