(* ===== verification/Distill.v ===== *)
(** * Distilled graphs

    Models distill.h and the walks over nodes of runtime_node.h: a graph that a program has
    built gets its bases before it is saved for the first time, and its history is cut before
    it is saved as a snapshot.  The live nodes of the Domain are a map from identifiers; which
    of them a root reaches is the walk of GraphWalk.v. *)
From Stdlib Require Import Sorting.Sorted.
From S2P Require Import Prelude Aether SharedEvent Node NodeTheory NodeBudget.

Section distill.
Context {F Ev : Type} `{!NodeKind F Ev}.
Implicit Types (n : Node F Ev) (h : gmap Z (Node F Ev)).

(** [CollectReachableNodes] and [CollectLiveReachableNodes] of the root, in the graph as it
    is; the successive results of [ObjId::GenerateUnique]. *)
Context (CollectReachableNodes CollectLiveReachableNodes : gmap Z (Node F Ev) → list Z).
Context (GenerateUnique : nat → Z).

Definition needs_base n : bool := negb (base_is_valid n) && bool_decide (journal n = []).

(** [made]: how many bases were made. *)
Fixpoint finalize_nodes (ids : list Z) (made : nat) h : option (gmap Z (Node F Ev)) :=
  match ids with
  | [] => Some h
  | id :: ids =>
      n ← h !! id;
      if needs_base n then
        n ← InitializeRuntimeNode n (GenerateUnique made);
        finalize_nodes ids (S made) (<[id := n]> h)
      else finalize_nodes ids made h
  end.

Definition FinalizeDistilledGraph h : option (gmap Z (Node F Ev)) :=
  finalize_nodes (CollectReachableNodes h) 0 h.

Definition stabilize_node n : option (Node F Ev) :=
  let n := set_journal n [] in
  n ← (if base_is_valid n then CaptureBaseState n else Some n);
  Some (AdoptPublishedGeneration n 1).

Fixpoint stabilize_nodes (ids : list Z) h : option (gmap Z (Node F Ev)) :=
  match ids with
  | [] => Some h
  | id :: ids =>
      n ← h !! id;
      n ← stabilize_node n;
      stabilize_nodes ids (<[id := n]> h)
  end.

Definition StabilizeDistilledPersistentSnapshot h : option (gmap Z (Node F Ev)) :=
  stabilize_nodes (CollectReachableNodes h) h.

(** runtime_node.h *)
Definition on_nodes (f : Node F Ev → Node F Ev) (ids : list Z) h : gmap Z (Node F Ev) :=
  foldl (λ h id, alter f id h) h ids.

Definition BindReachableNodesMaterializedChangeNotifier (ctx : Z) h : gmap Z (Node F Ev) :=
  on_nodes (λ n, BindMaterializedChangeNotifier n ctx) (CollectReachableNodes h) h.

Definition ClearLiveReachableNodesMaterializedChangeNotifier h : gmap Z (Node F Ev) :=
  on_nodes ClearMaterializedChangeNotifier (CollectLiveReachableNodes h) h.

Definition ClearReachableNodesMaterializedChangeNotifier h : gmap Z (Node F Ev) :=
  on_nodes ClearMaterializedChangeNotifier (CollectReachableNodes h) h.

(** ** One node *)

(** A node of the Domain whose base, if it has one, is loaded and is another object. *)
Record in_graph id n : Prop := {
  graph_id : obj_id n = id;
  graph_domain : is_Some (domain n);
  graph_base b : base n = Some b → base_loaded b = true ∧ base_id b ≠ id
}.

(** A node that is saved the same way however it came about. *)
Record distilled n : Prop := {
  distilled_journal : journal n = [];
  distilled_generation : generation_ n = 1;
  distilled_base b : base n = Some b → base_stored b = SaveLoad (fields n)
}.

(** A node with the history cut: what [stabilize_node] leaves. *)
Definition cut_history n : Node F Ev :=
  set_generation
    (set_base (set_journal n [])
       ((λ b, mkBase (base_id b) true (SaveLoad (fields n))) <$> base n)) 1.

Lemma stabilize_node_cuts id n : in_graph id n → stabilize_node n = Some (cut_history n).
Proof.
  intros [Hid Hd Hb]. unfold stabilize_node, cut_history, base_is_valid. cbn [base set_journal].
  destruct (base n) as [b|] eqn:Hn; [|by destruct n; simpl in *; subst].
  destruct (Hb b eq_refl) as [Hl Hi].
  rewrite (CaptureBaseState_Some _ b) by (simpl; congruence). done.
Qed.

Lemma cut_history_distilled n : distilled (cut_history n).
Proof. split; [done..|]. intros b. cbn. by destruct (base n) as [c|]; cbn; [intros [= <-]|]. Qed.

Lemma cut_history_in_graph id n : in_graph id n → in_graph id (cut_history n).
Proof.
  intros [Hid Hd Hb]. split; [done..|]. intros b. cbn.
  destruct (base n) as [c|]; cbn; [|done]. intros [= <-]. by destruct (Hb c eq_refl).
Qed.

Lemma cut_history_idemp n : cut_history (cut_history n) = cut_history n.
Proof. unfold cut_history. cbn. by destruct (base n). Qed.

Lemma initialize_gives_base id n new_id :
  in_graph id n → needs_base n = true → new_id ≠ id →
  InitializeRuntimeNode n new_id = Some (set_base n (Some (mkBase new_id true (SaveLoad (fields n))))).
Proof.
  intros [Hid Hd _] Hn Hne. unfold needs_base in Hn. apply andb_prop in Hn as [Hb Hj].
  apply bool_decide_eq_true in Hj. unfold InitializeRuntimeNode.
  rewrite bool_decide_true by done. rewrite Hb, bool_decide_true by done.
  apply (CaptureBaseState_Some (set_base n (Some (mkBase new_id true (fields n))))
    (mkBase new_id true (fields n))); simpl; congruence.
Qed.

(** ** The graph *)

(** What a save of the graph writes of a node, but for the identifier of the base. *)
Definition image n : F * list (EventRecord Ev) * option F * Z :=
  (fields n, journal n, base_stored <$> base n, generation_ n).

Definition graph_ok h : Prop := ∀ id n, h !! id = Some n → in_graph id n.
Definition nodes_found h (ids : list Z) : Prop := ∀ id, id ∈ ids → is_Some (h !! id).

Lemma graph_ok_insert h id n : graph_ok h → in_graph id n → graph_ok (<[id := n]> h).
Proof.
  intros Hok Hn id' n'. rewrite lookup_insert_Some. intros [[<- <-]|[_ ?]]; [done|by apply Hok].
Qed.

Lemma nodes_found_insert h id n ids : nodes_found h ids → nodes_found (<[id := n]> h) ids.
Proof. intros H id' Hin. apply lookup_insert_is_Some. destruct (decide (id = id')); eauto. Qed.

(** Every node that is reached is replaced by its node without history. *)
Lemma stabilize_nodes_cuts ids : ∀ h, graph_ok h → nodes_found h ids →
  ∃ h', stabilize_nodes ids h = Some h' ∧ graph_ok h' ∧
    ∀ id, h' !! id = if decide (id ∈ ids) then cut_history <$> h !! id else h !! id.
Proof.
  induction ids as [|id ids IH]; intros h Hok Hf.
  { exists h. split_and!; [done..|]. intros id. by rewrite decide_False by apply not_elem_of_nil. }
  destruct (Hf id) as [n Hn]; [by left|]. cbn [stabilize_nodes]. rewrite Hn. cbn [mbind option_bind].
  rewrite (stabilize_node_cuts id n) by by apply Hok. cbn [mbind option_bind].
  destruct (IH (<[id := cut_history n]> h)) as (h' & -> & Hok' & Hh').
  { apply graph_ok_insert; [done|]. by apply cut_history_in_graph, Hok. }
  { apply nodes_found_insert. intros id' Hin. apply Hf. by right. }
  exists h'. split; [done|]. split; [done|]. intros id'. rewrite Hh'.
  destruct (decide (id' = id)) as [->|Hne].
  - rewrite lookup_insert_eq, (decide_True (P := id ∈ id :: ids)) by by left. rewrite Hn. cbn.
    rewrite cut_history_idemp. by destruct (decide (id ∈ ids)).
  - rewrite lookup_insert_ne by done. rewrite (decide_ext (id' ∈ id :: ids) (id' ∈ ids)); [done|].
    rewrite elem_of_cons. split; [by intros [->|?]|by right].
Qed.

(** C18. A stabilized snapshot does not depend on the history of the graph.  For nodes whose bases
    are loaded no assertion fails; each node that the root reaches has no journal, generation 1
    and a base that stores its present fields; the fields and the other nodes are as before;
    stabilizing once more changes nothing; and two graphs with the same nodes, whose fields
    agree and which have bases at the same nodes, are saved the same way, whatever events,
    generations and base states led to them. *)
Theorem snapshot_forgets_history h :
  graph_ok h → nodes_found h (CollectReachableNodes h) →
  ∃ h', StabilizeDistilledPersistentSnapshot h = Some h' ∧
    (∀ id n, id ∈ CollectReachableNodes h → h !! id = Some n →
       ∃ n', h' !! id = Some n' ∧ distilled n' ∧ fields n' = fields n ∧
         base_id <$> base n' = base_id <$> base n) ∧
    (∀ id, id ∉ CollectReachableNodes h → h' !! id = h !! id) ∧
    (CollectReachableNodes h' = CollectReachableNodes h →
       StabilizeDistilledPersistentSnapshot h' = Some h') ∧
    ∀ g, graph_ok g → CollectReachableNodes g = CollectReachableNodes h →
      (∀ id, id ∈ CollectReachableNodes h →
         (λ n, (fields n, base_is_valid n)) <$> g !! id = (λ n, (fields n, base_is_valid n)) <$> h !! id) →
      ∃ g', StabilizeDistilledPersistentSnapshot g = Some g' ∧
        ∀ id, id ∈ CollectReachableNodes h → image <$> g' !! id = image <$> h' !! id.
Proof.
  intros Hok Hf. set (ids := CollectReachableNodes h) in *. unfold StabilizeDistilledPersistentSnapshot at 1.
  destruct (stabilize_nodes_cuts ids h Hok Hf) as (h' & Hs & Hok' & Hh'). fold ids. exists h'.
  split; [done|]. split; [|split; [|split]].
  - intros id n Hin Hn. rewrite Hh', decide_True, Hn by done. eexists. split; [done|].
    split; [apply cut_history_distilled|]. split; [done|]. cbn. by destruct (base n).
  - intros id Hin. by rewrite Hh', decide_False.
  - intros Hsame. unfold StabilizeDistilledPersistentSnapshot. rewrite Hsame.
    destruct (stabilize_nodes_cuts ids h' Hok') as (h2 & -> & _ & Hh2).
    { intros id Hin. rewrite Hh', decide_True by done. apply fmap_is_Some. by apply Hf. }
    f_equal. apply map_eq. intros id. rewrite Hh2, Hh'. case_decide; [|done].
    destruct (h !! id); [|done]. cbn. by rewrite cut_history_idemp.
  - intros g Hgok Hgs Hag. unfold StabilizeDistilledPersistentSnapshot. rewrite Hgs. fold ids.
    destruct (stabilize_nodes_cuts ids g Hgok) as (g' & -> & _ & Hg').
    { intros id Hin. destruct (Hf id Hin) as [n Hn]. specialize (Hag id Hin). rewrite Hn in Hag.
      destruct (g !! id); [by eexists|done]. }
    exists g'. split; [done|]. intros id Hin. rewrite Hg', Hh', !decide_True by done.
    specialize (Hag id Hin). destruct (g !! id) as [n|], (h !! id) as [m|]; cbn in Hag; try done.
    injection Hag as Hfields Hbase. cbn. unfold image, cut_history. cbn. rewrite Hfields.
    unfold base_is_valid in Hbase. by destruct (base n), (base m).
Qed.

(** ** Finalizing *)

Definition with_base n id : Node F Ev := set_base n (Some (mkBase id true (SaveLoad (fields n)))).

(** [at_ id]: which of the bases made is that of [id]. *)
Definition bases_made (ids : list Z) (made : nat) h h' (at_ : Z → nat) : Prop :=
  (∀ id n, h !! id = Some n → id ∈ ids → needs_base n = true →
     (made ≤ at_ id)%nat ∧ h' !! id = Some (with_base n (GenerateUnique (at_ id)))) ∧
  ∀ id1 id2 n1 n2, id1 ∈ ids → id2 ∈ ids → h !! id1 = Some n1 → h !! id2 = Some n2 →
    needs_base n1 = true → needs_base n2 = true → at_ id1 = at_ id2 → id1 = id2.

Lemma with_base_in_graph id n i : in_graph id n → i ≠ id → in_graph id (with_base n i).
Proof. intros [Hid Hd _] Hi. split; [done..|]. by intros b [= <-]. Qed.

(** One base made for the first node. *)
Lemma based_cons id n ids made h h' at_ :
  h !! id = Some n → h' !! id = Some (with_base n (GenerateUnique made)) →
  bases_made ids (S made) (<[id := with_base n (GenerateUnique made)]> h) h' at_ →
  bases_made (id :: ids) made h h' (λ x, if decide (x = id) then made else at_ x).
Proof.
  intros Hn Hh' [Hnew Hinj].
  assert (Hother : ∀ x m, x ≠ id → h !! x = Some m →
    <[id := with_base n (GenerateUnique made)]> h !! x = Some m)
    by (intros x m Hx Hm; by rewrite lookup_insert_ne).
  assert (Hin' : ∀ x, x ≠ id → x ∈ id :: ids → x ∈ ids)
    by (intros x Hx [->|]%elem_of_cons; done).
  split.
  - intros x m Hm Hin Hnb. destruct (decide (x = id)) as [->|Hx].
    { rewrite Hn in Hm. injection Hm as <-. by split; [lia|]. }
    destruct (Hnew x m) as [Hle Hl]; [by apply Hother|by apply Hin'|done|]. split; [lia|done].
  - intros x y m1 m2 Hx Hy Hm1 Hm2 Hb1 Hb2.
    destruct (decide (x = id)) as [->|Hx'], (decide (y = id)) as [->|Hy']; [done| | |].
    + destruct (Hnew y m2) as [Hle _]; [by apply Hother|by apply Hin'|done|lia].
    + destruct (Hnew x m1) as [Hle _]; [by apply Hother|by apply Hin'|done|lia].
    + intros He. apply (Hinj x y m1 m2); try done; [by apply Hin'..|by apply Hother|by apply Hother].
Qed.

Lemma finalize_nodes_bases ids : ∀ made h,
  graph_ok h → nodes_found h ids → (∀ i id, id ∈ ids → GenerateUnique i ≠ id) →
  ∃ h' at_, finalize_nodes ids made h = Some h' ∧ graph_ok h' ∧ bases_made ids made h h' at_ ∧
    ∀ id, (∀ n, h !! id = Some n → id ∈ ids → needs_base n = false) → h' !! id = h !! id.
Proof.
  induction ids as [|id ids IH]; intros made h Hok Hf Hu.
  { exists h, (λ _, O). split_and!; [done|done| |done].
    split; [by intros id n _ ?%elem_of_nil|by intros id1 id2 n1 n2 ?%elem_of_nil]. }
  destruct (Hf id) as [n Hn]; [by left|]. cbn [finalize_nodes]. rewrite Hn. cbn [mbind option_bind].
  assert (Hf' : nodes_found h ids) by (intros id' Hin; apply Hf; by right).
  assert (Hu' : ∀ i id', id' ∈ ids → GenerateUnique i ≠ id') by (intros i id' Hin; apply Hu; by right).
  destruct (needs_base n) eqn:Hnb.
  - assert (Hne : GenerateUnique made ≠ id) by (apply Hu; by left).
    rewrite (initialize_gives_base id n) by (done || by apply Hok).
    cbn [mbind option_bind]. fold (with_base n (GenerateUnique made)).
    destruct (IH (S made) (<[id := with_base n (GenerateUnique made)]> h))
      as (h' & at_ & -> & Hok' & Hb & Hsame).
    { by apply graph_ok_insert, with_base_in_graph; [|apply Hok|]. }
    { by apply nodes_found_insert. }
    { done. }
    eexists h', _. split; [done|]. split; [done|]. split.
    + apply (based_cons id n ids made h h' at_); [done| |done]. rewrite Hsame, lookup_insert_eq; [done|].
      intros m Hm _. rewrite lookup_insert_eq in Hm. by injection Hm as <-.
    + intros x Hx. destruct (decide (x = id)) as [->|Hxid].
      { specialize (Hx n Hn ltac:(by left)). congruence. }
      rewrite Hsame, lookup_insert_ne; [done..|]. rewrite lookup_insert_ne by done.
      intros m Hm Hin. apply Hx; [done|by right].
  - destruct (IH made h Hok Hf' Hu') as (h' & at_ & -> & Hok' & [Hnew Hinj] & Hsame).
    exists h', at_. split; [done|]. split; [done|]. split; [split|].
    + intros x m Hm [->|Hin]%elem_of_cons Hb; [congruence|]. by apply Hnew.
    + intros x y m1 m2 [->|Hx]%elem_of_cons [->|Hy]%elem_of_cons Hm1 Hm2 Hb1 Hb2;
        [done|congruence|congruence|by apply (Hinj x y m1 m2)].
    + intros x Hx. apply Hsame. intros m Hm Hin. apply Hx; [done|by right].
Qed.
End distill.

Section ready.
Context {F Ev : Type} `{!NodeKind F Ev, !Equiv F, !NodeLaws F Ev}.
Context (CollectReachableNodes : gmap Z (Node F Ev) → list Z).
Context (GenerateUnique : nat → Z).
Implicit Types (n : Node F Ev) (h : gmap Z (Node F Ev)).

(** The cursor of a node without events. *)
Definition at_the_end n : Prop := applied_journal_size_ n = kJournalFullyMaterialized ∨ applied_journal_size_ n = 0.

Lemma with_base_ready id n i :
  in_graph id n → at_the_end n → journal n = [] → CommitReady (with_base n i).
Proof.
  intros [_ Hd _] Ha Hj. split;
    [|unfold journal_sorted; cbn; rewrite Hj; apply SSorted_nil|unfold journal_fits; cbn; by rewrite Hj
    |done|cbn; by rewrite Hj].
  split; [done| |cbn; rewrite Hj; destruct Ha; [by left|by right]].
  exists (SaveLoad (fields n)). split; [cbn; by rewrite Hj|]. apply SaveLoad_equiv.
Qed.

Lemma commit_without_base n e now : base n = None → Commit n e now = None.
Proof.
  intros Hb. unfold Commit. destruct (ev_is_valid e); [|done]. cbn [mbind option_bind].
  destruct (ev_object e) as [ev|]; [|done]. destruct (CanApplyTo (fields n) ev); [|done].
  cbn [mbind option_bind]. unfold InsertEvent, TryInsertEvent, insert_admissible, base_is_valid.
  rewrite Hb. cbn. by rewrite orb_true_r.
Qed.

(** A finalized graph can be edited.  No assertion fails; a node that the root reaches and
    that has neither base nor events, to which no commit is possible before, gets a base of
    its own that stores its fields, and then takes every event that its fields accept; all
    other nodes are left alone, and distinct nodes get distinct bases. *)
Theorem finalized_graph_takes_commits h :
  graph_ok h → nodes_found h (CollectReachableNodes h) →
  (∀ i id, id ∈ CollectReachableNodes h → GenerateUnique i ≠ id) →
  (∀ i j, GenerateUnique i = GenerateUnique j → i = j) →
  (∀ id n, h !! id = Some n → needs_base n = true → at_the_end n) →
  ∃ h', FinalizeDistilledGraph CollectReachableNodes GenerateUnique h = Some h' ∧ graph_ok h' ∧
    (∀ id n, h !! id = Some n → id ∈ CollectReachableNodes h → needs_base n = true →
       (∀ e now, Commit n e now = None) ∧
       ∃ n', h' !! id = Some n' ∧ fields n' = fields n ∧ base_is_valid n' = true ∧
         ∀ e now f b, readings_ok now → CanApplyTo (fields n) e = true → ApplyTo (fields n) e = Some (f, b) →
           ∃ m, Commit n' (created n' e) now = Some m ∧ fields m = f ∧ zlen (journal m) = 1) ∧
    (∀ id, (∀ n, h !! id = Some n → id ∈ CollectReachableNodes h → needs_base n = false) →
       h' !! id = h !! id) ∧
    ∀ id1 id2 n1 n2, h !! id1 = Some n1 → h !! id2 = Some n2 →
      id1 ∈ CollectReachableNodes h → id2 ∈ CollectReachableNodes h →
      needs_base n1 = true → needs_base n2 = true →
      (b ← h' !! id1; base_id <$> base b) = (b ← h' !! id2; base_id <$> base b) → id1 = id2.
Proof.
  intros Hok Hf Hu Hinj Hend. unfold FinalizeDistilledGraph.
  destruct (finalize_nodes_bases GenerateUnique (CollectReachableNodes h) 0 h Hok Hf Hu)
    as (h' & at_ & -> & Hok' & [Hnew Hdist] & Hsame).
  exists h'. split; [done|]. split; [done|]. split; [|split; [exact Hsame|]].
  - intros id n Hn Hin Hnb. destruct (Hnew id n Hn Hin Hnb) as [_ Hh'].
    pose proof Hnb as Hnd. unfold needs_base, base_is_valid in Hnb. apply andb_prop in Hnb as [Hb Hj].
    apply bool_decide_eq_true in Hj. split.
    { intros e now. apply commit_without_base. by destruct (base n). }
    eexists. split; [exact Hh'|]. split_and!; [done..|]. intros e now f b Hnow Hcan Happ.
    destruct (Commit_Some _ e now f b
      (with_base_ready id n (GenerateUnique (at_ id)) (Hok id n Hn) (Hend id n Hn Hnd) Hj) Hnow Hcan Happ)
      as (m & Hm & Hs & _ & Hfm).
    exists m. split; [exact Hm|]. split; [done|]. rewrite (sf_journal _ _ Hs). cbn. by rewrite Hj.
  - intros id1 id2 n1 n2 H1 H2 Hi1 Hi2 Hb1 Hb2.
    destruct (Hnew id1 n1 H1 Hi1 Hb1) as [_ ->], (Hnew id2 n2 H2 Hi2 Hb2) as [_ ->]. cbn.
    intros [= He]. apply (Hdist id1 id2 n1 n2); auto.
Qed.
End ready.

(** ** Examples: a graph of logs *)
Module Examples.
#[local] Existing Instance NodeTheory.Examples.log_kind.
#[local] Existing Instance NodeTheory.Examples.log_equiv.
#[local] Existing Instance NodeTheory.Examples.log_laws.

(** Three nodes of a program that has built its graph: two are new, one has a base and two
    events. *)
Definition edited : Node (list Z) Z := NodeTheory.Examples.two.
Definition graph : gmap Z (Node (list Z) Z) :=
  {[1 := new_node 1 (Some 1) [4]; 2 := new_node 2 (Some 1) []; 100 := edited]}.
Definition reached (h : gmap Z (Node (list Z) Z)) : list Z := [100; 1; 2].
Definition unique (i : nat) : Z := 1000 + Z.of_nat i.
Definition at_five (i : nat) : Z := 5.

Lemma graph_in : graph_ok graph.
Proof.
  intros id n. unfold graph. rewrite !lookup_insert_Some, lookup_singleton_Some.
  intros [[<- <-]|[_ [[<- <-]|[_ [<- <-]]]]]; (split; [done|by eexists|]); cbn; try done.
  by intros b [= <-].
Qed.

Lemma graph_found : nodes_found graph (reached graph).
Proof.
  intros id Hin. unfold reached in Hin.
  repeat (apply elem_of_cons in Hin as [->|Hin]; [by eexists|]). by apply elem_of_nil in Hin.
Qed.

Definition finalized : gmap Z (Node (list Z) Z) :=
  default ∅ (FinalizeDistilledGraph reached unique graph).

Example finalized_bases :
  (λ id, n ← finalized !! id; base_id <$> base n) <$> [1; 2; 100] = [Some 1000; Some 1001; Some 101].
Proof. vm_compute. reflexivity. Qed.

Lemma finalized_graph_takes_commits_witness :
  FinalizeDistilledGraph reached unique graph = Some finalized ∧ graph_ok finalized.
Proof.
  destruct (finalized_graph_takes_commits reached unique graph graph_in graph_found)
    as (h' & Hh' & Hok & _).
  - intros i id Hin. unfold unique. unfold reached in Hin.
    repeat (apply elem_of_cons in Hin as [->|Hin]; [lia|]). by apply elem_of_nil in Hin.
  - unfold unique. lia.
  - intros id n. unfold graph. rewrite !lookup_insert_Some, lookup_singleton_Some.
    intros [[<- <-]|[_ [[<- <-]|[_ [<- <-]]]]]; unfold at_the_end; vm_compute; auto; done.
  - unfold finalized. rewrite Hh'. by split.
Defined.

(** The same graph without the events: the values were there from the start. *)
Definition without_history : gmap Z (Node (list Z) Z) :=
  <[100 := set_base (new_node 100 (Some 1) [7; 9]) (Some (mkBase 101 true []))]> graph.

Definition stabilized : gmap Z (Node (list Z) Z) :=
  default ∅ (StabilizeDistilledPersistentSnapshot reached graph).

Lemma snapshot_forgets_history_witness :
  StabilizeDistilledPersistentSnapshot reached graph = Some stabilized ∧
  StabilizeDistilledPersistentSnapshot reached stabilized = Some stabilized ∧
  ∃ g', StabilizeDistilledPersistentSnapshot reached without_history = Some g' ∧
    ∀ id, id ∈ [100; 1; 2] → image <$> g' !! id = image <$> stabilized !! id.
Proof.
  destruct (snapshot_forgets_history reached graph graph_in graph_found)
    as (h' & Hh' & _ & _ & Hagain & Hsame).
  unfold stabilized. rewrite Hh'. split; [done|]. split; [by apply Hagain|].
  apply Hsame; [|done|].
  - apply graph_ok_insert; [apply graph_in|]. split; [done|by eexists|]. by intros b [= <-].
  - intros id Hin. unfold reached in Hin. repeat (apply elem_of_cons in Hin as [->|Hin]; [done|]).
    by apply elem_of_nil in Hin.
Defined.

Lemma image_of_the_edited_node :
  image <$> stabilized !! 100 = Some ([7; 9], [], Some [7; 9], 1).
Proof. vm_compute. reflexivity. Qed.

(** The cursor is not reset with the journal: an event that is committed to a stabilized node
    is put in the journal, but not applied to the fields. *)
Example stabilized_node_skips_events :
  (n ← stabilized !! 100; n ← Commit n (created n 8) at_five; Some (fields n, zlen (journal n)))
    = Some ([7; 9], 1) ∧
  (n ← finalized !! 1; n ← Commit n (created n 8) at_five; Some (fields n, zlen (journal n)))
    = Some ([4; 8], 1).
Proof. split; vm_compute; reflexivity. Qed.
End Examples.
