(* ===== verification/Presenters.v ===== *)
(** * Presenters

    Models the presentation half of src/object_serialization.cpp: presenters are loaded in
    passes until none is left that can be (a child waits for its parent's window), unloaded
    in the reverse order of their loading, and updated after a structural publication. *)
From stdpp Require Import sorting.
From S2P Require Import Prelude.

Section presenters.
(** [A]: the application's state, which the presenters' methods change.  [live]:
    [CollectLiveReachableObjects] of the root; [ready], [created]: [ReadyForPresentation] and
    [PresentationCreateSucceeded]. *)
Context {A : Type} (is_presenter : Z → bool) (live : A → list Z)
        (ready created : A → Z → bool) (OnLoad OnUnload OnModelChanged : A → Z → A).

(** The calls of the presenters' methods. *)
Inductive Call := Loaded (id : Z) | Unloaded (id : Z) | ModelChanged (id : Z).

(** [loads]: the [presentation_load_order] of the presenters that are loaded. *)
Record Presentation := mkPresentation {
  app : A;
  loads : gmap Z Z;
  next_order : Z;
  calls : list Call
}.

Definition presentation_loaded (p : Presentation) (id : Z) : bool :=
  bool_decide (is_Some (loads p !! id)).

Definition load_order (p : Presentation) (id : Z) : Z := default 0 (loads p !! id).

(** ** InitializeNewPresenters *)

Definition try_load (acc : Presentation * bool) (id : Z) : Presentation * bool :=
  let '(p, progress) := acc in
  if negb (is_presenter id) || presentation_loaded p id then acc
  else if negb (ready (app p) id) then acc
  else
    let a := OnLoad (app p) id in
    let calls := calls p ++ [Loaded id] in
    if negb (created a id) then (mkPresentation a (loads p) (next_order p) calls, progress)
    else (mkPresentation a (<[id := next_order p]> (loads p)) (u64 (next_order p + 1)) calls, true).

(** One pass, over the objects that are live when it starts. *)
Definition load_pass (p : Presentation) : Presentation * bool :=
  foldl try_load (p, false) (live (app p)).

(** [for (;;)]: [None] is running out of fuel. *)
Fixpoint load_passes (fuel : nat) (p : Presentation) : option Presentation :=
  match fuel with
  | O => None
  | S fuel => let '(p, progress) := load_pass p in
              if progress then load_passes fuel p else Some p
  end.

Definition all_loaded (p : Presentation) : bool :=
  forallb (λ id, negb (is_presenter id) || presentation_loaded p id) (live (app p)).

(** The inner [None]: the assertion that every live presenter is loaded fails. *)
Definition InitializeNewPresenters (fuel : nat) (p : Presentation) : option (option Presentation) :=
  p ← load_passes fuel p;
  Some (assert! all_loaded p ;; Some p).

Definition notify_changed (p : Presentation) (id : Z) : Presentation :=
  if is_presenter id && presentation_loaded p id
  then mkPresentation (OnModelChanged (app p) id) (loads p) (next_order p)
         (calls p ++ [ModelChanged id])
  else p.

Definition InitializePresenters (fuel : nat) (p : Presentation) : option (option Presentation) :=
  r ← InitializeNewPresenters fuel p;
  Some (p ← r; Some (foldl notify_changed p (live (app p)))).

(** ** Unloading *)

Definition UnloadPresenter (p : Presentation) (id : Z) : Presentation :=
  mkPresentation (OnUnload (app p) id) (delete id (loads p)) (next_order p)
    (calls p ++ [Unloaded id]).

Definition unload_if_loaded (p : Presentation) (id : Z) : Presentation :=
  if presentation_loaded p id then UnloadPresenter p id else p.

Definition descending (p : Presentation) (a b : Z) : Prop := load_order p b ≤ load_order p a.
#[local] Instance descending_dec p a b : Decision (descending p a b).
Proof. unfold descending. apply _. Defined.

Definition UnloadPresentersDescending (ids : list Z) (p : Presentation) : Presentation :=
  foldl unload_if_loaded p (merge_sort (descending p) ids).

Definition loaded_presenters (p : Presentation) (ids : list Z) : list Z :=
  filter (λ id, is_presenter id && presentation_loaded p id) ids.

Definition UnloadPresenters (p : Presentation) : Presentation :=
  UnloadPresentersDescending (loaded_presenters p (live (app p))) p.

(** ** UpdatePresentersAfterStructuralPublication

    [previously_active]: the presenters that were loaded before the publication was applied,
    which the keepalive holds. *)
Definition UpdatePresentersAfterStructuralPublication (fuel : nat) (previously_active : list Z)
    (p : Presentation) : option (option Presentation) :=
  let live_objects := live (app p) in
  let live_presenters := filter (λ id, is_presenter id) live_objects in
  let removed := filter (λ id, presentation_loaded p id ∧ id ∉ live_presenters) previously_active in
  let p := UnloadPresentersDescending removed p in
  r ← InitializeNewPresenters fuel p;
  Some (p ← r; Some (foldl notify_changed p live_objects)).

(** ** Loading *)

(** Every order is below the next one, and no two presenters share an order. *)
Record orders_ok (p : Presentation) : Prop := {
  orders_below : ∀ id o, loads p !! id = Some o → 0 ≤ o < next_order p;
  orders_distinct : ∀ a b o, loads p !! a = Some o → loads p !! b = Some o → a = b;
  orders_next : 0 ≤ next_order p
}.

(** ** Unloading *)

#[local] Instance descending_total p : Total (descending p).
Proof. intros a b. unfold descending. lia. Qed.
#[local] Instance descending_trans p : Transitive (descending p).
Proof. intros a b c. unfold descending. lia. Qed.

Lemma unload_fold l p :
  NoDup l → Forall (λ id, presentation_loaded p id = true) l →
  let p' := foldl unload_if_loaded p l in
  calls p' = calls p ++ (Unloaded <$> l) ∧ next_order p' = next_order p ∧
  ∀ id, loads p' !! id = if decide (id ∈ l) then None else loads p !! id.
Proof.
  intros Hnd. revert p. induction Hnd as [|i l Hi _ IH]; intros p Hl; cbn [foldl].
  { cbn. rewrite app_nil_r. split; [done|]. split; [done|]. intros id. case_decide; set_solver. }
  apply list.Forall_cons in Hl as [Hpi Hl].
  assert (unload_if_loaded p i = UnloadPresenter p i) as -> by (unfold unload_if_loaded; by rewrite Hpi).
  destruct (IH (UnloadPresenter p i)) as (Ec & En & El).
  { rewrite list.Forall_forall in *. intros id Hid. rewrite <-(Hl id Hid). unfold presentation_loaded.
    cbn [UnloadPresenter loads]. rewrite lookup_delete_ne; [done|]. intros ->. done. }
  rewrite Ec, En. split; [|split; [done|]].
  - cbn. by rewrite <-app_assoc.
  - intros id. rewrite El. cbn [UnloadPresenter loads]. clear El.
    destruct (decide (id = i)) as [->|Hne].
    + rewrite lookup_delete_eq. repeat case_decide; set_solver.
    + rewrite lookup_delete_ne by done. repeat case_decide; set_solver.
Qed.

Lemma UnloadPresentersDescending_loads ids p :
  NoDup ids → Forall (λ id, presentation_loaded p id = true) ids →
  calls (UnloadPresentersDescending ids p) =
    calls p ++ (Unloaded <$> merge_sort (descending p) ids) ∧
  next_order (UnloadPresentersDescending ids p) = next_order p ∧
  ∀ id, loads (UnloadPresentersDescending ids p) !! id =
    if decide (id ∈ ids) then None else loads p !! id.
Proof.
  intros Hnd Hloaded. unfold UnloadPresentersDescending. set (l := merge_sort (descending p) ids).
  assert (l ≡ₚ ids) as Hp by apply merge_sort_Permutation.
  destruct (unload_fold l p) as (Ec & En & El); [by rewrite Hp..|].
  split; [done|]. split; [done|]. intros id. rewrite El.
  assert (id ∈ l ↔ id ∈ ids) by by rewrite Hp. repeat case_decide; tauto.
Qed.

(** Presenters are torn down in the reverse order of their loading: each of those given is
    unloaded exactly once, one that was loaded later always before one that was loaded
    earlier (a child before its parent), and no other presenter is unloaded. *)
Theorem UnloadPresentersDescending_reverses ids p (Hok : orders_ok p) (Hnd : NoDup ids)
    (Hloaded : Forall (λ id, presentation_loaded p id = true) ids) :
  ∃ l, calls (UnloadPresentersDescending ids p) = calls p ++ (Unloaded <$> l) ∧ l ≡ₚ ids ∧
    StronglySorted (λ a b, load_order p b < load_order p a) l ∧
    ∀ id, loads (UnloadPresentersDescending ids p) !! id =
      if decide (id ∈ ids) then None else loads p !! id.
Proof.
  destruct (UnloadPresentersDescending_loads ids p Hnd Hloaded) as (Ec & _ & El).
  set (l := merge_sort (descending p) ids) in *.
  assert (l ≡ₚ ids) as Hp by apply merge_sort_Permutation.
  assert (NoDup l) as Hl by by rewrite Hp.
  exists l. split; [done|]. split; [done|]. split; [|exact El].
  - assert (StronglySorted (descending p) l) as Hs.
    { apply (StronglySorted_merge_sort (descending p)). }
    assert (∀ a b, a ∈ l → b ∈ l → load_order p a = load_order p b → a = b) as Hinj.
    { intros a b. rewrite Hp. rewrite list.Forall_forall in Hloaded.
      intros Ha%Hloaded Hb%Hloaded E. unfold presentation_loaded in Ha, Hb.
      apply bool_decide_eq_true in Ha as [oa Ea]. apply bool_decide_eq_true in Hb as [ob Eb].
      unfold load_order in E. rewrite Ea, Eb in E. cbn in E. subst ob.
      by eapply (orders_distinct p Hok). }
    clear -Hs Hinj Hl. induction Hs as [|a l Hs IH Ha]; [constructor|].
    apply list.NoDup_cons in Hl as [Hal Hl]. constructor.
    + apply IH; [done|]. intros x y Hx Hy. apply Hinj; by right.
    + rewrite list.Forall_forall in *. intros b Hb. pose proof (Ha b Hb) as Hab.
      unfold descending in Hab. assert (load_order p b ≠ load_order p a); [|lia].
      intros E. assert (b = a) as -> by (apply Hinj; [by right|by left|done]). done.
Qed.

(** ** Passes *)

(** What loading does to the presenters: those that were loaded keep their order, the others
    that are loaded now got later ones. *)
Definition loads_more (p p' : Presentation) : Prop :=
  (∀ id o, loads p !! id = Some o → loads p' !! id = Some o) ∧
  (∀ id o, loads p' !! id = Some o → loads p !! id = Some o ∨ next_order p ≤ o) ∧
  next_order p' = next_order p + (Z.of_nat (size (loads p')) - Z.of_nat (size (loads p))).

Lemma loads_more_refl p : loads_more p p.
Proof. split; [done|]. split; [by left|]. lia. Qed.

Lemma loads_more_trans p q r :
  next_order p ≤ next_order q → loads_more p q → loads_more q r → loads_more p r.
Proof.
  intros Hle (K1 & N1 & E1) (K2 & N2 & E2). split; [auto|]. split; [|lia].
  intros id o Hid. destruct (N2 id o Hid) as [Hq|]; [by apply N1|]. right. lia.
Qed.

(** The presenters there can be. *)
Context (universe : gset Z) (Huniverse : ∀ a id, id ∈ live a → is_presenter id = true → id ∈ universe).

Definition unloaded (p : Presentation) : nat := size (universe ∖ dom (loads p)).

(** The counter does not reach its last value. *)
Definition counter_ok (p : Presentation) : Prop :=
  next_order p + Z.of_nat (unloaded p) < 2 ^ 64.

Record step_ok (p p' : Presentation) (progress : bool) : Prop := {
  step_orders : orders_ok p';
  step_more : loads_more p p';
  step_counter : counter_ok p';
  step_next : next_order p ≤ next_order p';
  step_left : (unloaded p' ≤ unloaded p)%nat ∧ (progress = true → (unloaded p' < unloaded p)%nat);
  step_same : progress = false → loads p' = loads p
}.

Lemma step_ok_refl p : orders_ok p → counter_ok p → step_ok p p false.
Proof. intros. split; try done. apply loads_more_refl. Qed.

Lemma step_ok_trans p q r b b' : step_ok p q b → step_ok q r b' → step_ok p r (b || b').
Proof.
  intros [O1 M1 C1 N1 [L1 P1] S1] [O2 M2 C2 N2 [L2 P2] S2]. split; try done.
  - by eapply loads_more_trans.
  - lia.
  - split; [lia|]. destruct b; [intros _; specialize (P1 eq_refl); lia|].
    intros Hb. specialize (P2 Hb). lia.
  - intros [Hb Hb']%orb_false_iff. rewrite (S2 Hb'). by apply S1.
Qed.

Lemma try_load_ok p progress id a' progress' :
  orders_ok p → counter_ok p → id ∈ universe ∨ is_presenter id = false →
  try_load (p, progress) id = (a', progress') →
  ∃ b, step_ok p a' b ∧ progress' = progress || b.
Proof.
  intros Hok Hcount Hid. unfold try_load.
  destruct (is_presenter id) eqn:Epr; cbn [negb orb];
    [|intros [= <- <-]; exists false; rewrite orb_false_r; split; [by apply step_ok_refl|done]].
  destruct Hid as [Hid|]; [|done].
  unfold presentation_loaded. case_bool_decide as Hl;
    [intros [= <- <-]; exists false; rewrite orb_false_r; split; [by apply step_ok_refl|done]|].
  destruct (ready (app p) id); cbn [negb];
    [|intros [= <- <-]; exists false; rewrite orb_false_r; split; [by apply step_ok_refl|done]].
  destruct (created (OnLoad (app p) id) id); cbn [negb]; intros [= <- <-].
  2:{ exists false. rewrite orb_false_r. split; [|done].
      destruct (step_ok_refl p Hok Hcount) as [[O1 O2 O3] M C N L Sm].
      split; [by split|exact M|exact C|exact N|exact L|done]. }
  exists true. rewrite orb_true_r. split; [|done].
  apply eq_None_not_Some in Hl. destruct Hok as [Hb Hd Hn]. unfold counter_ok, unloaded in *.
  assert (id ∈ universe ∖ dom (loads p)) as Hin.
  { apply elem_of_difference. split; [done|]. by apply not_elem_of_dom. }
  assert (size (universe ∖ dom (<[id:=next_order p]> (loads p))) + 1 =
    size (universe ∖ dom (loads p)))%nat as Hsize.
  { rewrite dom_insert_L.
    replace (universe ∖ ({[id]} ∪ dom (loads p))) with ((universe ∖ dom (loads p)) ∖ {[id]}) by set_solver.
    rewrite size_difference, size_singleton by set_solver.
    assert (size (universe ∖ dom (loads p)) ≠ 0)%nat; [|lia].
    intros E. apply size_empty_inv in E. set_solver. }
  assert (u64 (next_order p + 1) = next_order p + 1) as Eu by (apply u64_small; unfold is_u64; lia).
  split; cbn [loads next_order app calls]; rewrite ?Eu.
  - split; cbn [loads next_order]; rewrite ?Eu; [| |lia].
    + intros i o. rewrite lookup_insert_Some. intros [[_ <-]|[_ Hi]]; [lia|].
      specialize (Hb i o Hi). lia.
    + intros a b o. rewrite !lookup_insert_Some. intros [[<- <-]|[Ha Hoa]] [[<- Eb]|[Hb' Hob]].
      * done.
      * specialize (Hb b _ Hob). lia.
      * subst o. specialize (Hb a _ Hoa). lia.
      * by eapply Hd.
  - split; [|split]; cbn [loads next_order]; rewrite ?Eu.
    + intros i o Hi. rewrite lookup_insert_ne; [done|]. congruence.
    + intros i o. rewrite lookup_insert_Some. intros [[_ <-]|[_ Hi]]; [right; lia|by left].
    + rewrite map_size_insert_None by done. lia.
  - unfold counter_ok, unloaded. cbn [loads next_order]. lia.
  - lia.
  - unfold unloaded. cbn [loads]. split; [lia|]. intros _. lia.
  - done.
Qed.

Lemma load_pass_ok p p' progress :
  orders_ok p → counter_ok p → load_pass p = (p', progress) → step_ok p p' progress.
Proof.
  intros Hok Hcount. unfold load_pass.
  assert (∀ id, id ∈ live (app p) → id ∈ universe ∨ is_presenter id = false) as Hids.
  { intros id Hid. destruct (is_presenter id) eqn:E; [left; by eapply Huniverse|by right]. }
  assert (∀ q b l, step_ok p q b → (∀ id, id ∈ l → id ∈ universe ∨ is_presenter id = false) →
    foldl try_load (q, b) l = (p', progress) → step_ok p p' progress) as H.
  { intros q b l. revert q b. induction l as [|id l IH]; intros q b Hq Hl; cbn [foldl].
    { by intros [= <- <-]. }
    destruct (try_load (q, b) id) as [q1 b1] eqn:E. apply IH; [|intros; apply Hl; by right].
    destruct (try_load_ok q b id q1 b1) as (b' & Hb' & ->); try apply Hq; try done.
    - apply Hl. by left.
    - by eapply step_ok_trans. }
  apply H; [by apply step_ok_refl|done].
Qed.

(** Initialization ends: within a pass for every presenter that is not loaded yet and one
    more, there is a pass in which none could be loaded; the presenters that were loaded
    are not loaded again, and every other that is loaded got a later order, each its own. *)
Theorem load_passes_end fuel p (Hok : orders_ok p) (Hcount : counter_ok p)
    (Hfuel : (unloaded p < fuel)%nat) :
  ∃ p', load_passes fuel p = Some p' ∧ orders_ok p' ∧ loads_more p p' ∧
    ∃ q, load_pass q = (p', false) ∧ loads q = loads p'.
Proof.
  revert p Hok Hcount Hfuel. induction fuel as [|fuel IH]; intros p Hok Hcount Hfuel; [lia|].
  cbn [load_passes]. destruct (load_pass p) as [p1 progress] eqn:E.
  destruct (load_pass_ok p p1 progress Hok Hcount E) as [Hok1 Hm1 Hc1 Hn1 [Hl1 Hp1] Hs1].
  destruct progress.
  - destruct (IH p1 Hok1 Hc1) as (p2 & E2 & Hok2 & Hm2 & Hq); [specialize (Hp1 eq_refl); lia|].
    exists p2. split; [done|]. split; [done|]. split; [|done]. by eapply loads_more_trans.
  - exists p1. split; [done|]. split; [done|]. split; [done|]. exists p. split; [done|].
    symmetry. by apply Hs1.
Qed.

(** ** Updating *)

Lemma notify_all_loads l p : loads (foldl notify_changed p l) = loads p.
Proof.
  revert p. induction l as [|id l IH]; intros p; [done|]. cbn [foldl]. rewrite IH.
  unfold notify_changed. by destruct (is_presenter id && presentation_loaded p id).
Qed.

Lemma all_loaded_spec p :
  all_loaded p = true ↔
  ∀ id, id ∈ live (app p) → is_presenter id = true → is_Some (loads p !! id).
Proof.
  unfold all_loaded. rewrite forallb_forall. split.
  - intros H id Hid Hp. apply list_elem_of_In, H in Hid. rewrite Hp in Hid. cbn in Hid.
    by apply bool_decide_eq_true in Hid.
  - intros H id Hid%list_elem_of_In. destruct (is_presenter id) eqn:Hp; [|done]. cbn.
    apply bool_decide_eq_true. by apply H.
Qed.

Lemma unload_keeps_ok ids p :
  orders_ok p → NoDup ids → Forall (λ id, presentation_loaded p id = true) ids →
  orders_ok (UnloadPresentersDescending ids p) ∧
  next_order (UnloadPresentersDescending ids p) = next_order p ∧
  ∀ id, loads (UnloadPresentersDescending ids p) !! id =
    if decide (id ∈ ids) then None else loads p !! id.
Proof.
  intros Hok Hnd Hl. destruct (UnloadPresentersDescending_loads ids p Hnd Hl) as (_ & En & El).
  split; [|by split]. destruct Hok as [Hb Hd Hn].
  assert (∀ id o, loads (UnloadPresentersDescending ids p) !! id = Some o → loads p !! id = Some o) as H.
  { intros id o. rewrite El. by case_decide. }
  split; rewrite ?En; [intros id o ?%H; by eapply Hb|intros a b o ?%H ?%H; by eapply Hd|done].
Qed.

(** A structural publication updates the presentation: the update ends, and unless its
    assertion fails every live presenter is loaded afterwards; the presenters that were
    active and are no longer live have been unloaded, whatever else is loaded then; and
    those that stay were not loaded a second time. *)
Theorem UpdatePresenters_result fuel previously_active p (Hok : orders_ok p)
    (Hcount : next_order p + Z.of_nat (size universe) < 2 ^ 64)
    (Hnd : NoDup previously_active) (Hfuel : (size universe < fuel)%nat) :
  ∃ r, UpdatePresentersAfterStructuralPublication fuel previously_active p = Some r ∧
    ∀ p', r = Some p' →
      (∃ q, all_loaded q = true ∧ loads p' = loads q) ∧
      (∀ id o, id ∈ previously_active → loads p !! id = Some o →
         (id ∈ live (app p) → is_presenter id = false) →
         loads p' !! id = None ∨ ∃ o', loads p' !! id = Some o' ∧ next_order p ≤ o') ∧
      (∀ id o, loads p !! id = Some o → is_presenter id = true → id ∈ live (app p) →
         loads p' !! id = Some o).
Proof.
  unfold UpdatePresentersAfterStructuralPublication.
  set (removed := filter _ previously_active).
  assert (NoDup removed) as Hr by by apply list.NoDup_filter.
  assert (Forall (λ id, presentation_loaded p id = true) removed) as Hl.
  { apply list.Forall_forall. intros id [[H _] _]%list_elem_of_filter. by apply Is_true_true in H. }
  destruct (unload_keeps_ok removed p Hok Hr Hl) as (Hok1 & En & El).
  set (p1 := UnloadPresentersDescending removed p) in *.
  assert (unloaded p1 ≤ size universe)%nat as Hu by (unfold unloaded; apply subseteq_size; set_solver).
  destruct (load_passes_end fuel p1) as (p2 & E2 & Hok2 & (Hk & Hn & _) & _).
  { done. }
  { unfold counter_ok. lia. }
  { lia. }
  unfold InitializeNewPresenters. rewrite E2. cbn [mbind option_bind].
  eexists. split; [done|]. intros p'. destruct (all_loaded p2) eqn:Ea; cbn [mbind option_bind];
    [|done]. intros [= <-]. rewrite notify_all_loads. split; [by exists p2|]. split.
  - intros id o Hin Ho Hgone.
    assert (id ∈ removed) as Hrem.
    { apply list_elem_of_filter. split; [|done]. split.
      - apply Is_true_true. apply bool_decide_eq_true. by eexists.
      - intros [Hp Hlive]%list_elem_of_filter. apply Hgone in Hlive. by rewrite Hlive in Hp. }
    destruct (loads p2 !! id) as [o'|] eqn:Eo; [|by left]. right. exists o'. split; [done|].
    destruct (Hn id o' Eo) as [H1|H1]; [|by rewrite En in H1].
    rewrite El, decide_True in H1 by done. done.
  - intros id o Ho Hp Hlive. apply Hk. rewrite El, decide_False; [done|].
    intros [[_ Hnot] _]%list_elem_of_filter. apply Hnot, list_elem_of_filter.
    split; [by apply Is_true_true|done].
Qed.
End presenters.

(** ** Three windows

    Presenter 2 waits for 1 and 3 for 2; object 20 is no presenter.  The state is the list of
    what has been created, with what is live. *)
Module Examples.
Definition is_presenter (id : Z) : bool := bool_decide (1 ≤ id ≤ 3).
Definition live (a : list Z * list Z) : list Z := filter (λ id, 1 ≤ id ≤ 3 ∨ id = 20) a.2.
Definition ready (a : list Z * list Z) (id : Z) : bool := bool_decide (id = 1 ∨ id - 1 ∈ a.1).
Definition created (a : list Z * list Z) (id : Z) : bool := bool_decide (id ∈ a.1).
Definition on_load (a : list Z * list Z) (id : Z) : list Z * list Z := (id :: a.1, a.2).
Definition on_unload (a : list Z * list Z) (id : Z) : list Z * list Z :=
  (filter (λ i, i ≠ id) a.1, a.2).
Definition universe : gset Z := {[1; 2; 3]}.
Definition start : Presentation (A := list Z * list Z) := mkPresentation ([], [3; 20; 2; 1]) ∅ 1 [].
Definition running : Presentation (A := list Z * list Z) :=
  mkPresentation ([3; 2; 1], [3; 20; 2; 1]) {[1 := 1; 2 := 2; 3 := 3]} 4
    [Loaded 1; Loaded 2; Loaded 3].
(** Window 3 is gone. *)
Definition after_publication : Presentation (A := list Z * list Z) :=
  mkPresentation ([3; 2; 1], [20; 2; 1]) {[1 := 1; 2 := 2; 3 := 3]} 4 [].

Lemma universe_ok a id : id ∈ live a → is_presenter id = true → id ∈ universe.
Proof.
  intros _ H. apply bool_decide_eq_true in H. unfold universe.
  assert (id = 1 ∨ id = 2 ∨ id = 3) as [->|[->| ->]] by lia; set_solver.
Qed.

Lemma orders_decide (p : Presentation (A := list Z * list Z)) :
  bool_decide (0 ≤ next_order p) && bool_decide (NoDup (map_to_list (loads p)).*2) &&
    bool_decide (Forall (λ e : Z * Z, 0 ≤ e.2 < next_order p) (map_to_list (loads p))) = true →
  orders_ok p.
Proof.
  intros [[Hn Hd]%andb_true_iff Hb]%andb_true_iff. apply bool_decide_eq_true in Hn, Hd, Hb.
  split; [| |done].
  - intros id o Ho. rewrite list.Forall_forall in Hb.
    apply (Hb (id, o)). by apply elem_of_map_to_list.
  - intros a b o Ha Hb'. apply elem_of_map_to_list in Ha, Hb'.
    apply list_elem_of_lookup in Ha as [i Hi]. apply list_elem_of_lookup in Hb' as [j Hj].
    assert ((map_to_list (loads p)).*2 !! i = Some o) as H1 by by rewrite list_lookup_fmap, Hi.
    assert ((map_to_list (loads p)).*2 !! j = Some o) as H2 by by rewrite list_lookup_fmap, Hj.
    rewrite (NoDup_lookup _ _ _ _ Hd H1 H2) in Hi. congruence.
Qed.

(** Four passes: the children are listed before their parents. *)
Lemma load_passes_end_witness :
  ∃ p', load_passes is_presenter live ready created on_load 4 start = Some p' ∧
    orders_ok p' ∧ loads_more start p'.
Proof.
  destruct (load_passes_end is_presenter live ready created on_load universe universe_ok 4 start)
    as (p' & E & Hok & Hm & _).
  - apply orders_decide. vm_compute. exact eq_refl.
  - unfold counter_ok. vm_compute. exact eq_refl.
  - apply Nat.ltb_lt. vm_compute. exact eq_refl.
  - by exists p'.
Defined.

Example load_result :
  load_passes is_presenter live ready created on_load 4 start = Some running.
Proof. vm_compute. reflexivity. Qed.

Lemma UnloadPresentersDescending_reverses_witness :
  ∃ l, calls (UnloadPresentersDescending on_unload [1; 3; 2] running) =
      calls running ++ (Unloaded <$> l) ∧
    l ≡ₚ [1; 3; 2] ∧ StronglySorted (λ a b, load_order running b < load_order running a) l.
Proof.
  destruct (UnloadPresentersDescending_reverses is_presenter on_unload [1; 3; 2] running)
    as (l & E & Hp & Hs & _).
  - apply orders_decide. vm_compute. exact eq_refl.
  - apply (bool_decide_unpack (NoDup _)). vm_compute. exact I.
  - apply (bool_decide_unpack (Forall _ _)). vm_compute. exact I.
  - exists l. split; [exact E|]. split; [exact Hp|exact Hs].
Defined.

Lemma UpdatePresenters_result_witness :
  ∃ r, UpdatePresentersAfterStructuralPublication is_presenter live ready created on_load on_unload
      (λ a _, a) 4 [1; 2; 3] after_publication = Some r ∧
    ∀ p', r = Some p' → loads p' !! 1 = Some 1 ∧
      (loads p' !! 3 = None ∨ ∃ o, loads p' !! 3 = Some o ∧ 4 ≤ o).
Proof.
  destruct (UpdatePresenters_result is_presenter live ready created on_load on_unload
    (λ a _, a) universe universe_ok 4 [1; 2; 3] after_publication) as (r & E & H).
  - apply orders_decide. vm_compute. exact eq_refl.
  - vm_compute. exact eq_refl.
  - apply (bool_decide_unpack (NoDup _)). vm_compute. exact I.
  - apply Nat.ltb_lt. vm_compute. exact eq_refl.
  - exists r. split; [exact E|]. intros p' Hr. destruct (H p' Hr) as (_ & Hgone & Hstay). split.
    + apply (Hstay 1 1); [reflexivity|reflexivity|].
      apply (bool_decide_unpack (_ ∈ _)). vm_compute. exact I.
    + apply (Hgone 3 3); [apply (bool_decide_unpack (_ ∈ _)); vm_compute; exact I|reflexivity|].
      intros Hlive. exfalso. revert Hlive. apply (bool_decide_unpack (_ ∉ _)). vm_compute. exact I.
Defined.
End Examples.
