(* ===== verification/UiObjects.v ===== *)
(** * The objects of the user interface

    Models src/ui/*.cpp and include/apptraverse/ui/*.h: windows, edit boxes, lists, buttons, the
    language and the localized strings, each an instance of [NodeKind]; and the small presenters
    of src/surfaces/ that translate commands of the window system into calls of the model. *)
From S2P Require Import Prelude SharedEvent Node.

(** ** Windows *)

(** [frame_request_pending_publication_] is not reflected: it is not saved, and a load leaves it
    as it is. *)
Record WindowFields := mkWindow {
  x_ : Z; y_ : Z;
  client_width_ : Z; client_height_ : Z;
  frame_request_pending_publication_ : bool
}.

Inductive WindowEvent :=
| SetUiWindowClientSizeEvent (width height : Z)
| SetUiDesktopWindowFrameEvent (x y client_width client_height : Z)
| ReportUiDesktopWindowFrameFromNativeEvent (x y client_width client_height : Z)
| RequestUiDesktopWindowFrameEvent (x y client_width client_height : Z).

Definition default_window : WindowFields := mkWindow 100 100 800 600 false.

(** The operations return whether they called [NoteMaterializedChange]. *)
Definition SetClientSizeInternal (f : WindowFields) (width height : Z) : WindowFields * bool :=
  if (client_width_ f =? width) && (client_height_ f =? height) then (f, false)
  else (mkWindow (x_ f) (y_ f) width height (frame_request_pending_publication_ f), true).

Definition ApplyFrameGeometry (f : WindowFields) (x y width height : Z) : WindowFields * bool :=
  let changed := false in
  let '(f, changed) :=
    if negb (x_ f =? x)
    then (mkWindow x (y_ f) (client_width_ f) (client_height_ f)
            (frame_request_pending_publication_ f), true)
    else (f, changed) in
  let '(f, changed) :=
    if negb (y_ f =? y)
    then (mkWindow (x_ f) y (client_width_ f) (client_height_ f)
            (frame_request_pending_publication_ f), true)
    else (f, changed) in
  if negb (client_width_ f =? width) || negb (client_height_ f =? height)
  then SetClientSizeInternal f width height
  else (f, changed).

Definition Apply_Window (f : WindowFields) (e : WindowEvent) : WindowFields * bool :=
  match e with
  | SetUiWindowClientSizeEvent w h => SetClientSizeInternal f w h
  | SetUiDesktopWindowFrameEvent x y w h
  | ReportUiDesktopWindowFrameFromNativeEvent x y w h
  | RequestUiDesktopWindowFrameEvent x y w h => ApplyFrameGeometry f x y w h
  end.

Definition with_pending (f : WindowFields) (b : bool) : WindowFields :=
  mkWindow (x_ f) (y_ f) (client_width_ f) (client_height_ f) b.

#[export] Instance Window_kind : NodeKind WindowFields WindowEvent := {|
  CanApplyTo _ _ := true;
  ApplyTo f e := Some (Apply_Window f e);
  MatchesSharedMetadata _ _ _ := true;
  SaveLoad f := with_pending f false;
  CarryLocal live loaded := with_pending loaded (frame_request_pending_publication_ live)
|}.

Abbreviation UiDesktopWindow := (Node WindowFields WindowEvent).

Definition frame_is (f : WindowFields) (x y width height : Z) : bool :=
  (x_ f =? x) && (y_ f =? y) && (client_width_ f =? width) && (client_height_ f =? height).

Definition SubmitFrameFromNative (n : UiDesktopWindow) (x y width height : Z) (now : Readings)
    : option UiDesktopWindow :=
  if frame_is (fields n) x y width height then Some n
  else Commit n (created n (ReportUiDesktopWindowFrameFromNativeEvent x y width height)) now.

Definition RequestFrame (n : UiDesktopWindow) (x y width height : Z) (now : Readings)
    : option UiDesktopWindow :=
  if frame_is (fields n) x y width height then Some n
  else
    n ← Commit n (created n (RequestUiDesktopWindowFrameEvent x y width height)) now;
    Some (set_fields n (with_pending (fields n) true)).

Definition TakeFrameRequestPendingPublication (n : UiDesktopWindow) : bool * UiDesktopWindow :=
  (frame_request_pending_publication_ (fields n),
   set_fields n (with_pending (fields n) false)).

(** ** Edit boxes *)

Record EditBoxFields := mkEditBox { text_ : string; caret_utf8_offset_ : Z; read_only_ : bool }.

Inductive EditBoxEvent :=
| SetUiEditBoxTextEvent (text : string)
| SetUiEditBoxCaretEvent (caret_utf8_offset : Z).

Definition MaterializeText (f : EditBoxFields) (text : string) : EditBoxFields * bool :=
  if String.eqb (text_ f) text then (f, false)
  else (mkEditBox text (caret_utf8_offset_ f) (read_only_ f), true).

Definition MaterializeCaret (f : EditBoxFields) (caret : Z) : EditBoxFields * bool :=
  if caret_utf8_offset_ f =? caret then (f, false)
  else (mkEditBox (text_ f) caret (read_only_ f), true).

Definition Apply_EditBox (f : EditBoxFields) (e : EditBoxEvent) : EditBoxFields * bool :=
  match e with
  | SetUiEditBoxTextEvent text => MaterializeText f text
  | SetUiEditBoxCaretEvent caret => MaterializeCaret f caret
  end.

#[export] Instance EditBox_kind : NodeKind EditBoxFields EditBoxEvent := {|
  CanApplyTo _ _ := true;
  ApplyTo f e := Some (Apply_EditBox f e);
  MatchesSharedMetadata _ _ _ := true;
  SaveLoad f := f;
  CarryLocal _ loaded := loaded
|}.

Abbreviation UiEditBox := (Node EditBoxFields EditBoxEvent).

Definition SubmitCaretFromUi (n : UiEditBox) (caret : Z) (now : Readings) : option UiEditBox :=
  Commit n (created n (SetUiEditBoxCaretEvent caret)) now.

Definition SubmitTextFromUi (n : UiEditBox) (text : string) (caret : Z)
    (clock : nat → Readings) : option UiEditBox :=
  n ← Commit n (created n (SetUiEditBoxTextEvent text)) (clock 0%nat);
  SubmitCaretFromUi n caret (clock 1%nat).

(** ** Lists *)

(** The rows, by identifier; [None]: a null pointer. *)
Record ListFields := mkList { rows : list (option Z) }.
Inductive ListEvent := RemoveUiListRowEvent (row_id : Z).

(** The event does not call [NoteMaterializedChange]. *)
Definition Apply_List (f : ListFields) (e : ListEvent) : ListFields * bool :=
  match e with
  | RemoveUiListRowEvent row_id => (mkList (filter (λ row, row ≠ Some row_id) (rows f)), false)
  end.

#[export] Instance List_kind : NodeKind ListFields ListEvent := {|
  CanApplyTo _ _ := true;
  ApplyTo f e := Some (Apply_List f e);
  MatchesSharedMetadata _ _ _ := true;
  SaveLoad f := f;
  CarryLocal _ loaded := loaded
|}.

(** ** Buttons *)

Record ButtonFields := mkButton { label : option Z; enabled_ : bool }.
Inductive ButtonEvent := UiPushButtonClickedEvent | SetUiPushButtonEnabledEvent (enabled : bool).

Definition MaterializeEnabled (f : ButtonFields) (enabled : bool) : ButtonFields * bool :=
  if Bool.eqb (enabled_ f) enabled then (f, false) else (mkButton (label f) enabled, true).

Definition Apply_Button (f : ButtonFields) (e : ButtonEvent) : ButtonFields * bool :=
  match e with
  | UiPushButtonClickedEvent => (f, false)
  | SetUiPushButtonEnabledEvent enabled => MaterializeEnabled f enabled
  end.

#[export] Instance Button_kind : NodeKind ButtonFields ButtonEvent := {|
  CanApplyTo _ _ := true;
  ApplyTo f e := Some (Apply_Button f e);
  MatchesSharedMetadata _ _ _ := true;
  SaveLoad f := f;
  CarryLocal _ loaded := loaded
|}.

(** Whether the virtual [HandlePushButtonClicked] is called. *)
Definition NotifyClicked (f : ButtonFields) : bool := enabled_ f.

(** ** The language *)

Record LocaleFields := mkLocale { language_index_ : Z }.
Inductive LocaleEvent := SetUiLanguageIndexEvent (language_index : Z).

Definition Apply_Locale (f : LocaleFields) (e : LocaleEvent) : LocaleFields * bool :=
  match e with
  | SetUiLanguageIndexEvent i =>
      if language_index_ f =? i then (f, false) else (mkLocale i, true)
  end.

#[export] Instance Locale_kind : NodeKind LocaleFields LocaleEvent := {|
  CanApplyTo _ _ := true;
  ApplyTo f e := Some (Apply_Locale f e);
  MatchesSharedMetadata _ _ _ := true;
  SaveLoad f := f;
  CarryLocal _ loaded := loaded
|}.

Abbreviation UiLocaleSettings := (Node LocaleFields LocaleEvent).

Definition SubmitLanguageIndexFromUi (n : UiLocaleSettings) (i : Z) (now : Readings)
    : option UiLocaleSettings :=
  if language_index_ (fields n) =? i then Some n
  else Commit n (created n (SetUiLanguageIndexEvent i)) now.

(** ** Localized strings *)

(** [strings]: pointers to [UiString] objects; [texts]: those objects of the Domain with their
    [utf8].  They are no part of the node: a save of the node writes the pointers, and a load
    finds the objects of the Domain as they are. *)
Record LocalizationFields := mkLocalization {
  strings : list (option Z);
  texts : gmap Z string
}.
Inductive LocalizationEvent := SetUiLocalizationSlotUtf8Event (slot_index : Z) (utf8 : string).

Definition Apply_Localization (f : LocalizationFields) (e : LocalizationEvent)
    : LocalizationFields * bool :=
  match e with
  | SetUiLocalizationSlotUtf8Event slot utf8 =>
      if slot <? 0 then (f, false) else
      match strings f !! Z.to_nat slot with
      | None | Some None => (f, false)
      | Some (Some id) =>
          if bool_decide (texts f !! id = Some utf8) then (f, false)
          else (mkLocalization (strings f) (<[id := utf8]> (texts f)), true)
      end
  end.

#[export] Instance Localization_kind : NodeKind LocalizationFields LocalizationEvent := {|
  CanApplyTo _ _ := true;
  ApplyTo f e := Some (Apply_Localization f e);
  MatchesSharedMetadata _ _ _ := true;
  SaveLoad f := f;
  CarryLocal live loaded := mkLocalization (strings loaded) (texts live)
|}.

Abbreviation UiLocalizationString := (Node LocalizationFields LocalizationEvent).

Definition text_of (f : LocalizationFields) (p : option Z) : option string :=
  id ← p; texts f !! id.

(** [localization == nullptr] is [None]. *)
Definition ResolveLocalization (localization : option LocalizationFields) (language_index : Z)
    : string :=
  match localization with
  | None => ""%string
  | Some f =>
      match strings f with
      | [] => ""%string
      | front :: _ =>
          if (language_index <? 0) || (zlen (strings f) <=? language_index)
          then default ""%string (text_of f front)
          else match strings f !! Z.to_nat language_index with
               | Some (Some id) => default ""%string (texts f !! id)
               | _ => default ""%string (text_of f front)
               end
      end
  end.

(** src/surfaces/surfaces_localization.cpp.  [ids]: the identifiers of the node, of its base
    and of the two strings; [notifier]: that of the list of surfaces. *)
Definition MakeLocalizedString (d : Z) (notifier : option Z) (id base_id en_id ru_id : Z)
    (texts : gmap Z string) (en ru : string) : option UiLocalizationString :=
  n ← InitializeRuntimeNodeFrom (new_node id (Some d) (mkLocalization [] texts)) base_id notifier;
  Some (set_fields n (mkLocalization [Some en_id; Some ru_id]
                        (<[ru_id := ru]> (<[en_id := en]> texts)))).

(** [prefix.Resolve(language_index) + std::to_string(number)].  [to_string] is that of the
    standard library. *)
Definition FormatSurfaceWindowTitle (to_string : Z → string) (prefix : LocalizationFields)
    (language_index number : Z) : string :=
  String.append (ResolveLocalization (Some prefix) language_index) (to_string number).

(** ** Presenters *)

Definition kEnChange : Z := 768.
Definition kBnClicked : Z := 0.

(** What a presenter posts to the model. *)
Inductive Call :=
| CallNotifyClicked (button : Z)
| CallAddSurface (surface : Z)
| CallRemoveSurface (surface : Z)
| CallSetLanguage (locale : Z) (index : Z).

(** [window_presenter && window_presenter->presentation_loaded] *)
Definition ReadyForPresentation (window_presentation_loaded : option bool) : bool :=
  default false window_presentation_loaded.

(** [UiEditBoxPresenter::OnCommand] *)
Definition OnCommand_EditBox (control_id command_id notification_code : Z) : bool :=
  negb ((control_id =? 0) || negb (command_id =? control_id) ||
        negb (notification_code =? kEnChange)).

(** [UiPushButtonPresenter::OnCommand].  [button]: the mirrored button with its identifier. *)
Definition OnCommand_PushButton (control_id : Z) (button : option (Z * ButtonFields))
    (has_proxy : bool) (command_id notification_code : Z) : bool * list Call :=
  if (control_id =? 0) || negb (command_id =? control_id) || negb (notification_code =? kBnClicked)
  then (false, [])
  else match button with
       | None => (false, [])
       | Some (id, f) =>
           if negb (enabled_ f) then (false, [])
           else if negb has_proxy then (false, [])
           else (true, [CallNotifyClicked id])
       end.

Inductive SurfaceButtonRole := RoleAdd | RoleClose.

(** [SurfaceButtonPresenter::OnCommand] *)
Definition OnCommand_SurfaceButton (role : SurfaceButtonRole) (control_id : Z)
    (surface : option Z) (has_proxy : bool) (command_id : Z) : bool * list Call :=
  if negb (command_id =? control_id) || negb has_proxy then (false, [])
  else match surface with
       | None => (false, [])
       | Some s => match role with
                   | RoleAdd => (true, [CallAddSurface s])
                   | RoleClose => (true, [CallRemoveSurface s])
                   end
       end.

(** [SurfaceLanguageButtonPresenter::OnCommand].  [locale]: the mirrored settings. *)
Definition OnCommand_LanguageButton (control_id : Z) (locale : option (Z * LocaleFields))
    (has_proxy : bool) (command_id : Z) : bool * list Call :=
  if negb (command_id =? control_id) || negb has_proxy then (false, [])
  else match locale with
       | None => (false, [])
       | Some (id, f) => (true, [CallSetLanguage id (1 - language_index_ f)])
       end.
