(* ===== verification/UiObjectsTheory.v ===== *)
(** * What holds of the objects of the user interface

    The frame of a desktop window is what was reported or requested last, each change is one
    event, and a request is taken for publication once; reports of the window system, which
    follow from a request, are no requests.  Language and localized strings. *)
From S2P Require Import Prelude SharedEvent Node NodeTheory NodeBudget UiObjects.

(** Windows are equivalent when all that is saved of them is equal. *)
#[export] Instance Window_equiv : Equiv WindowFields :=
  λ f g, with_pending f false = with_pending g false.

Lemma ApplyFrameGeometry_spec f x y w h :
  ApplyFrameGeometry f x y w h =
  (mkWindow x y w h (frame_request_pending_publication_ f), negb (frame_is f x y w h)).
Proof.
  destruct f as [x0 y0 w0 h0 p]. unfold ApplyFrameGeometry, SetClientSizeInternal, frame_is. cbn.
  repeat match goal with
  | |- context [?a =? ?b] => destruct (Z.eqb_spec a b); subst; cbn
  end; done.
Qed.

#[export] Instance Window_laws : NodeLaws WindowFields WindowEvent.
Proof.
  split.
  - split; [by intros f|by intros f g|by intros f g k; unfold equiv, Window_equiv; intros ->].
  - done.
  - intros [x y w h p] [x' y' w' h' p'] e [= -> -> -> ->]. constructor.
    destruct e; cbn; rewrite ?ApplyFrameGeometry_spec; [|done..].
    unfold SetClientSizeInternal. cbn. by destruct (_ && _).
  - done.
  - by intros [] [].
Qed.

#[export] Instance EditBox_equiv : Equiv EditBoxFields := (=).
#[export] Instance EditBox_laws : NodeLaws EditBoxFields EditBoxEvent.
Proof. split; [apply eq_equivalence|done| |done|done]. intros f g e ->. by constructor. Qed.
#[export] Instance Locale_equiv : Equiv LocaleFields := (=).
#[export] Instance Locale_laws : NodeLaws LocaleFields LocaleEvent.
Proof. split; [apply eq_equivalence|done| |done|done]. intros f g e ->. by constructor. Qed.

(** ** Windows *)

Definition Frame : Type := Z * Z * Z * Z.

Definition frame_of (f : WindowFields) : Frame :=
  (x_ f, y_ f, client_width_ f, client_height_ f).

Lemma frame_is_spec f x y w h : frame_is f x y w h = bool_decide (frame_of f = (x, y, w, h)).
Proof.
  unfold frame_is, frame_of. destruct (bool_decide _) eqn:E; breflect.
  - simplify_eq. by rewrite !Z.eqb_refl.
  - apply not_true_iff_false. rewrite !andb_true_iff, !Z.eqb_eq. intuition congruence.
Qed.

Inductive WindowCall := FromNative (frame : Frame) | Requested (frame : Frame) | Taken.

(** A call on the window; the result of [TakeFrameRequestPendingPublication]. *)
Definition window_call (n : UiDesktopWindow) (c : WindowCall) (now : Readings)
    : option (list bool * UiDesktopWindow) :=
  match c with
  | FromNative (x, y, w, h) => n ← SubmitFrameFromNative n x y w h now; Some ([], n)
  | Requested (x, y, w, h) => n ← RequestFrame n x y w h now; Some ([], n)
  | Taken => let '(b, n) := TakeFrameRequestPendingPublication n in Some ([b], n)
  end.

Fixpoint window_calls (n : UiDesktopWindow) (cs : list (WindowCall * Readings))
    : option (list bool * UiDesktopWindow) :=
  match cs with
  | [] => Some ([], n)
  | (c, now) :: cs =>
      p ← window_call n c now;
      q ← window_calls p.2 cs;
      Some (p.1 ++ q.1, q.2)
  end.

(** The abstract window: its frame, whether a request waits, the number of changes. *)
Record AbstractWindow := mkAbstract { frame : Frame; waiting : bool; changes : nat }.

Definition abstract_call (a : AbstractWindow) (c : WindowCall) : list bool * AbstractWindow :=
  match c with
  | FromNative f => ([], if decide (frame a = f) then a else mkAbstract f (waiting a) (S (changes a)))
  | Requested f => ([], if decide (frame a = f) then a else mkAbstract f true (S (changes a)))
  | Taken => ([waiting a], mkAbstract (frame a) false (changes a))
  end.

Fixpoint abstract_calls (a : AbstractWindow) (cs : list WindowCall) : list bool * AbstractWindow :=
  match cs with
  | [] => ([], a)
  | c :: cs =>
      let p := abstract_call a c in
      let q := abstract_calls p.2 cs in
      (p.1 ++ q.1, q.2)
  end.

Definition abstraction (n : UiDesktopWindow) : AbstractWindow :=
  mkAbstract (frame_of (fields n)) (frame_request_pending_publication_ (fields n))
    (length (journal n)).

Lemma Budget_with_pending k (n : UiDesktopWindow) b :
  Budget k n → Budget k (set_fields n (with_pending (fields n) b)).
Proof.
  intros [[Hb (f & Hf & Hfe) Ha] Hs Hz Hd Ht]. split; try done. split; try done. by exists f.
Qed.

(** A commit of a frame on a window that has another one. *)
Lemma commit_frame k n e x y w h now :
  0 ≤ k → Budget (k + 1) n → clock_within (k + 1) now →
  Apply_Window (fields n) e = ApplyFrameGeometry (fields n) x y w h →
  ∃ m, Commit n (created n e) now = Some m ∧ Budget k m ∧
    abstraction m = mkAbstract (x, y, w, h) (frame_request_pending_publication_ (fields n))
                      (S (length (journal n))).
Proof.
  intros Hk Hb Hnow He. rewrite ApplyFrameGeometry_spec in He.
  destruct (Commit_Budget k n e now _ _ Hk Hb Hnow eq_refl (f_equal Some He))
    as (m & r & Hm & Hbm & Hf & _ & _ & Hj & _).
  exists m. split; [done|]. split; [done|]. unfold abstraction.
  rewrite Hf, Hj, length_app. cbn. f_equal. lia.
Qed.

Lemma window_call_refines k n c now :
  0 ≤ k → Budget (k + 1) n → clock_within (k + 1) now →
  ∃ m, window_call n c now = Some ((abstract_call (abstraction n) c).1, m) ∧ Budget k m ∧
    abstraction m = (abstract_call (abstraction n) c).2.
Proof.
  intros Hk Hb Hnow. assert (Budget k n) as Hbk by (apply (Budget_weaken (k + 1)); [lia|done]).
  destruct c as [[[[x y] w] h]|[[[x y] w] h]|]; cbn [window_call abstract_call fst].
  - unfold SubmitFrameFromNative. rewrite frame_is_spec. cbn [frame abstraction].
    destruct (decide (frame_of (fields n) = (x, y, w, h))) as [E|E].
    { rewrite bool_decide_eq_true_2 by done. by exists n. }
    rewrite bool_decide_eq_false_2 by done.
    destruct (commit_frame k n (ReportUiDesktopWindowFrameFromNativeEvent x y w h) x y w h now)
      as (m & -> & Hbm & Ha); [done..|]. by exists m.
  - unfold RequestFrame. rewrite frame_is_spec. cbn [frame abstraction].
    destruct (decide (frame_of (fields n) = (x, y, w, h))) as [E|E].
    { rewrite bool_decide_eq_true_2 by done. by exists n. }
    rewrite bool_decide_eq_false_2 by done.
    destruct (commit_frame k n (RequestUiDesktopWindowFrameEvent x y w h) x y w h now)
      as (m & -> & Hbm & Ha); [done..|].
    eexists. split; [reflexivity|]. split; [by apply Budget_with_pending|].
    unfold abstraction in *. injection Ha as Hx Hy Hw Hh _ Hj. unfold frame_of. cbn.
    by rewrite Hx, Hy, Hw, Hh, Hj.
  - eexists. split; [reflexivity|]. split; [by apply Budget_with_pending|done].
Qed.

(** Over any sequence of reports of the window system, requests and takings the desktop
    window behaves as the abstract window: the frame is the last one reported or requested,
    every change of it is one event of the journal and an equal frame is none, and a taking is
    told of a request exactly when a request has changed the frame since the last taking;
    reports never look like requests. *)
Theorem desktop_window_refines k n cs :
  0 ≤ k → Budget (k + zlen cs) n → Forall (clock_within (k + zlen cs)) cs.*2 →
  ∃ m, window_calls n cs = Some ((abstract_calls (abstraction n) cs.*1).1, m) ∧ Budget k m ∧
    abstraction m = (abstract_calls (abstraction n) cs.*1).2.
Proof.
  intros Hk. revert n. induction cs as [|[c now] cs IH]; intros n.
  { rewrite zlen_nil, Z.add_0_r. intros Hb _. by exists n. }
  rewrite zlen_cons. replace (k + (1 + zlen cs)) with (k + zlen cs + 1) by lia.
  intros Hb Hc. apply list.Forall_cons in Hc as [Hnow Hcs]. pose proof (zlen_nonneg cs).
  destruct (window_call_refines (k + zlen cs) n c now ltac:(lia) Hb Hnow) as (m & Hm & Hbm & Ha).
  cbn [window_calls]. rewrite Hm. cbn [mbind option_bind snd fst].
  destruct (IH m Hbm) as (m' & -> & Hbm' & Ha').
  { eapply list.Forall_impl; [exact Hcs|]. intros r Hr i. specialize (Hr i). lia. }
  cbn [mbind option_bind snd fst]. exists m'. rewrite Ha in *. by cbn.
Qed.

(** ** Text *)

(** A submitted text is two events whatever was there, and the last one wins. *)
Lemma SubmitTextFromUi_spec k n text caret clock :
  0 ≤ k → Budget (k + 1 + 1) n → (∀ i, clock_within (k + 1 + 1) (clock i)) →
  ∃ m, SubmitTextFromUi n text caret clock = Some m ∧ Budget k m ∧
    fields m = mkEditBox text caret (read_only_ (fields n)) ∧
    length (journal m) = S (S (length (journal n))).
Proof.
  intros Hk Hb Hnow. unfold SubmitTextFromUi, SubmitCaretFromUi.
  assert (∀ f t, MaterializeText f t = (mkEditBox t (caret_utf8_offset_ f) (read_only_ f),
    negb (String.eqb (text_ f) t))) as Ht.
  { intros f t. unfold MaterializeText. destruct (String.eqb_spec (text_ f) t) as [<-|]; [|done].
    by destruct f. }
  assert (∀ f c, MaterializeCaret f c = (mkEditBox (text_ f) c (read_only_ f),
    negb (caret_utf8_offset_ f =? c))) as Hc.
  { intros f c. unfold MaterializeCaret. destruct (Z.eqb_spec (caret_utf8_offset_ f) c) as [<-|]; [|done].
    by destruct f. }
  destruct (Commit_Budget (k + 1) n (SetUiEditBoxTextEvent text) (clock 0%nat) _ _ ltac:(lia) Hb
    (Hnow 0%nat) eq_refl (f_equal Some (Ht _ _))) as (n1 & r1 & -> & Hb1 & Hf1 & _ & _ & Hj1 & _).
  cbn [mbind option_bind].
  destruct (Commit_Budget k n1 (SetUiEditBoxCaretEvent caret) (clock 1%nat) _ _ Hk Hb1
    ltac:(intros i; specialize (Hnow 1%nat i); lia) eq_refl (f_equal Some (Hc _ _)))
    as (n2 & r2 & -> & Hb2 & Hf2 & _ & _ & Hj2 & _).
  exists n2. split; [done|]. split; [done|]. split; [by rewrite Hf2, Hf1|].
  rewrite Hj2, Hj1, !length_app. cbn. lia.
Qed.

(** ** Localized strings *)

(** A text of a slot shows in its language, and elsewhere only where the same object is used. *)
Lemma Apply_Localization_shows f slot id utf8 i :
  strings f !! Z.to_nat slot = Some (Some id) → 0 ≤ slot → 0 ≤ i < zlen (strings f) →
  let g := (Apply_Localization f (SetUiLocalizationSlotUtf8Event slot utf8)).1 in
  (strings f !! Z.to_nat i = Some (Some id) → ResolveLocalization (Some g) i = utf8) ∧
  (∀ id', strings f !! Z.to_nat i = Some (Some id') → id' ≠ id →
     ResolveLocalization (Some g) i = ResolveLocalization (Some f) i).
Proof.
  intros Hs Hslot Hi g. assert (strings g = strings f ∧ texts g !! id = Some utf8 ∧
    (∀ id', id' ≠ id → texts g !! id' = texts f !! id')) as (Hgs & Hgt & Hgo).
  { unfold g. cbn. rewrite (proj2 (Z.ltb_ge _ _)), Hs by done.
    destruct (bool_decide _) eqn:E; breflect; [done|]. cbn. split; [done|].
    split; [apply lookup_insert_eq|]. intros id' Hne. by apply lookup_insert_ne. }
  assert ((i <? 0) || (zlen (strings f) <=? i) = false) as Hr.
  { apply orb_false_intro; [apply Z.ltb_ge|apply Z.leb_gt]; lia. }
  unfold ResolveLocalization. rewrite Hgs.
  destruct (strings f) as [|p l] eqn:El; [done|]. rewrite <-El in *. rewrite Hr.
  split; [intros ->; by rewrite Hgt|]. intros id' -> Hne. by rewrite Hgo.
Qed.

(** The base of a string that [MakeLocalizedString] makes is captured before its slots are
    filled: a rebuild leaves it without any text. *)
Lemma MakeLocalizedString_rebuild d notifier id base_id en_id ru_id texts en ru n m :
  MakeLocalizedString d notifier id base_id en_id ru_id texts en ru = Some n →
  RebuildFromBaseAndReplay n = Some m →
  strings (fields n) = [Some en_id; Some ru_id] ∧ strings (fields m) = [] ∧
  ∀ i, ResolveLocalization (Some (fields m)) i = ""%string.
Proof.
  unfold MakeLocalizedString, InitializeRuntimeNodeFrom, InitializeRuntimeNode, CaptureBaseState.
  cbn. destruct (base_id =? id); [done|]. cbn. intros [= <-]. cbn.
  intros [= <-]. done.
Qed.

Module Examples.
Definition window : UiDesktopWindow := fresh 1 default_window.
Definition the_time : Readings := λ _, 1000.

Definition calls : list (WindowCall * Readings) :=
  (λ c, (c, the_time)) <$>
  [FromNative (100, 100, 800, 600); Taken; FromNative (10, 20, 800, 600); Taken;
   Requested (1, 2, 30, 40); FromNative (1, 2, 30, 40); Taken; Taken].

Example calls_result :
  (λ p, (p.1, abstraction p.2)) <$> window_calls window calls =
  Some ([false; false; true; false], mkAbstract (1, 2, 30, 40) false 2).
Proof. vm_compute. reflexivity. Qed.

Lemma desktop_window_refines_witness :
  ∃ m, window_calls window calls = Some ((abstract_calls (abstraction window) calls.*1).1, m) ∧
    Budget 0 m ∧ abstraction m = (abstract_calls (abstraction window) calls.*1).2.
Proof.
  apply (desktop_window_refines 0); [lia| |].
  - apply fresh_budget. vm_compute. reflexivity.
  - cbn [calls fmap list_fmap snd]. repeat constructor; intros i; vm_compute; split; reflexivity.
Defined.
End Examples.
