(* ===== verification/WinPresenters.v ===== *)
(** * The presenters of Windows

    Models src/platform/windows/win_ui_presenters.cpp, win_ui_utf8.cpp and win_ui_frame.cpp, with
    the parts of src/ui/ui_presenters.cpp that they call: how windows, edit boxes, buttons,
    lists, labels and images are brought to what the mirror has, and what the user does with
    them is submitted to the model.  The mirrored nodes are those of UiObjects.v.

    The window system is a set of interfaces: what the functions of the system that a presenter
    calls do with a window or a control.  [NativeWindow], [EditControl] and [ListControl] have
    the documented behaviour that the presenters rely on. *)
From S2P Require Import Prelude SharedEvent Node UiObjects.

(** ** Texts (win_ui_utf8.cpp) *)

Definition wide : Type := list Z.

(** What a function that is given [w.c_str()] reads: the units before the first that is 0. *)
Fixpoint c_str (w : wide) : wide :=
  match w with
  | [] => []
  | u :: w => if u =? 0 then [] else u :: c_str w
  end.

(** [None]: the size that is returned is not positive. *)
Class CodePages := {
  MultiByteToWideChar : string → option wide;
  WideCharToMultiByte : wide → option string
}.

Section texts.
  Context {cp : CodePages}.

Definition Utf8ToWide (utf8 : string) : wide :=
  if String.eqb utf8 "" then [] else default [] (MultiByteToWideChar utf8).

Definition WideToUtf8 (w : wide) : string :=
  match w with [] => "" | _ => default "" (WideCharToMultiByte w) end.

Definition utf8_size (w : wide) : Z := Z.of_nat (String.length (WideToUtf8 w)).

Definition Utf8OffsetFromWideCaret (w : wide) (wide_caret : Z) : Z :=
  if wide_caret <=? 0 then 0
  else utf8_size (take (Nat.min (Z.to_nat wide_caret) (length w)) w).

(** The loop stops at the first prefix that is long enough. *)
Definition WideCaretFromUtf8Offset (w : wide) (utf8_offset : Z) : Z :=
  if utf8_offset =? 0 then 0
  else match list_find (λ i, utf8_offset ≤ utf8_size (take (S i) w)) (seq 0 (length w)) with
       | Some (_, i) => Z.of_nat i + 1
       | None => zlen w
       end.
End texts.

(** ** What is submitted to the model *)

(** Calls of the model through its proxy, and of the host. *)
Inductive Submitted :=
| SubmitFrame (window : Z) (x y client_width client_height : Z)
| SubmitText (edit_box : Z) (text : string) (caret : Z)
| SubmitClick (button : Z)
| SubmitRowActivated (container row : Z)
| RowSelectionChanged (container row : Z)
| UserClose (window : Z)
| PostClose.

(** [UiDesktopWindowPresenter::SubmitFrameFromNative], [UiEditBoxPresenter::SubmitTextFromUi]
    and those of [UiListContainerPresenter]; [proxy]: whether [model_proxy] is set. *)
Definition SubmitFrameFromNative_ (proxy : bool) (desktop : option Z) (x y w h : Z) : list Submitted :=
  match desktop with
  | Some id => if proxy then [SubmitFrame id x y w h] else []
  | None => []
  end.
Definition SubmitTextFromUi_ (proxy : bool) (edit_box : option Z) (text : string) (caret : Z)
    : list Submitted :=
  match edit_box with
  | Some id => if proxy then [SubmitText id text caret] else []
  | None => []
  end.
Definition SubmitListRowActivatedFromUi (proxy : bool) (container : option Z) (row : Z)
    : list Submitted :=
  match container with
  | Some id => if proxy then [SubmitRowActivated id row] else []
  | None => []
  end.
(** The selection is not passed to the model: a virtual function of the presenter is called. *)
Definition SubmitListRowSelectionChangedFromUi (proxy : bool) (container : option Z) (row : Z)
    : list Submitted :=
  match container with
  | Some id => if proxy then [RowSelectionChanged id row] else []
  | None => []
  end.

(** ** Edit boxes *)

(** [edit_selection]: the start and the end, in units. *)
Class EditControl (E : Type) := {
  GetWindowText : E → wide;
  edit_selection : E → Z * Z;
  SetWindowText : E → wide → E;
  SetSelection : E → Z → Z → E;
  SetReadOnly : E → E;
  GetWindowText_set e t : 0 ∉ t → GetWindowText (SetWindowText e t) = t;
  GetWindowText_sel e a b : GetWindowText (SetSelection e a b) = GetWindowText e;
  GetWindowText_ro e : GetWindowText (SetReadOnly e) = GetWindowText e;
  edit_selection_set e c : 0 ≤ c ≤ zlen (GetWindowText e) → edit_selection (SetSelection e c c) = (c, c)
}.

(** The result of [EM_GETSEL]: both in 16 bits, or -1 when one does not fit. *)
Definition EM_GETSEL (s : Z * Z) : Z :=
  if (65535 <? s.1) || (65535 <? s.2) then 2 ^ 32 - 1 else Z.lor (Z.shiftl s.2 16) s.1.
Definition HIWORD (z : Z) : Z := Z.land (Z.shiftr z 16) 65535.

(** [edit_box]: the mirrored node with its identifier.  [mirror_text_applied_] says whether
    [last_applied_generation_] has been set. *)
Record EditBoxPresenter (E : Type) := mkEditPresenter {
  edit_hwnd : option E;
  control_id : Z;
  edit_proxy : bool;
  applying_mirror_text_ : bool;
  mirror_text_applied_ : bool;
  last_applied_generation_ : Z
}.
Arguments mkEditPresenter {E}.
Arguments edit_hwnd {E}.
Arguments control_id {E}.
Arguments edit_proxy {E}.
Arguments applying_mirror_text_ {E}.
Arguments mirror_text_applied_ {E}.
Arguments last_applied_generation_ {E}.

Section edit_box.
  Context {cp : CodePages} {E : Type} {ec : EditControl E}.
  Implicit Types (p : EditBoxPresenter E) (edit_box : option (Z * UiEditBox)).

Definition with_edit p (h : option E) : EditBoxPresenter E := mkEditPresenter h (control_id p) (edit_proxy p)
  (applying_mirror_text_ p) (mirror_text_applied_ p) (last_applied_generation_ p).
Definition with_applying_text p b : EditBoxPresenter E := mkEditPresenter (edit_hwnd p) (control_id p) (edit_proxy p) b
  (mirror_text_applied_ p) (last_applied_generation_ p).
Definition with_applied p g : EditBoxPresenter E := mkEditPresenter (edit_hwnd p) (control_id p) (edit_proxy p)
  (applying_mirror_text_ p) true g.

Definition ReadFromNativeAndSubmit p edit_box : list Submitted :=
  match edit_hwnd p with
  | None => []
  | Some e =>
      if applying_mirror_text_ p then []
      else
        let w := GetWindowText e in
        let wide_caret := HIWORD (EM_GETSEL (edit_selection e)) in
        SubmitTextFromUi_ (edit_proxy p) (fst <$> edit_box) (WideToUtf8 w)
          (Utf8OffsetFromWideCaret w wide_caret)
  end.

(** [EN_CHANGE] of the control, which the desktop window routes: [RouteChildCommand]. *)
Definition edit_changed p edit_box : list Submitted :=
  if OnCommand_EditBox (control_id p) (control_id p) kEnChange
  then ReadFromNativeAndSubmit p edit_box else [].

(** [SetWindowTextW] notifies of the change. *)
Definition SyncFromMirror_edit p edit_box : EditBoxPresenter E * list Submitted :=
  match edit_hwnd p, edit_box with
  | Some e, Some (_, n) =>
      let current_native := WideToUtf8 (GetWindowText e) in
      let needs_update :=
        negb (mirror_text_applied_ p) || negb (String.eqb current_native (text_ (fields n))) ||
        negb (Generation n =? last_applied_generation_ p) in
      if negb needs_update then (p, [])
      else
        let w := Utf8ToWide (text_ (fields n)) in
        let p := with_applying_text p true in
        let e := SetWindowText e (c_str w) in
        let p := with_edit p (Some e) in
        let submitted := edit_changed p edit_box in
        let caret := WideCaretFromUtf8Offset w (caret_utf8_offset_ (fields n)) in
        let p := with_edit p (Some (SetSelection e caret caret)) in
        (with_applied (with_applying_text p false) (Generation n), submitted)
  | _, _ => (p, [])
  end.

(** [desktop]: the window of [Desktop()] has been created; [create]: the control that
    [CreateWindowExW] makes. *)
Definition OnLoad_edit p (desktop : bool) edit_box (create : option E)
    : EditBoxPresenter E * list Submitted :=
  match edit_box with
  | Some (_, n) =>
      if negb desktop || (control_id p =? 0) then (p, [])
      else match create with
           | None => (with_edit p None, [])
           | Some e =>
               let e := if read_only_ (fields n) then SetReadOnly e else e in
               SyncFromMirror_edit (with_edit p (Some e)) edit_box
           end
  | None => (p, [])
  end.

Definition OnModelChanged_edit p edit_box := SyncFromMirror_edit p edit_box.
Definition OnUnload_edit p : EditBoxPresenter E := with_edit p None.

(** The user changes the text: the control has it, and notifies. *)
Definition type_edit p (t : wide) (caret : Z) edit_box : EditBoxPresenter E * list Submitted :=
  match edit_hwnd p with
  | Some e =>
      let p := with_edit p (Some (SetSelection (SetWindowText e t) caret caret)) in
      (p, edit_changed p edit_box)
  | None => (p, [])
  end.
End edit_box.

(** ** Desktop windows *)

Record Rect := mkRect { left : Z; top : Z; right : Z; bottom : Z }.

Record ClientFrame := mkFrame { frame_x : Z; frame_y : Z; client_width : Z; client_height : Z }.
Definition zero_frame : ClientFrame := mkFrame 0 0 0 0.

Class NativeWindow (W : Type) := {
  GetWindowRect : W → Rect;
  GetClientRect : W → Rect;
  SetWindowPos : W → Z → Z → Z → Z → W;
  SetWindowTitle : W → wide → W;
  (** for the style of the windows and without a menu *)
  AdjustWindowRectEx : Rect → Rect
}.

(** win_ui_frame.cpp *)
Section frames.
  Context {W : Type} {nw : NativeWindow W}.

Definition ClientSizeToOuter (width height : Z) : Z * Z :=
  let rect := AdjustWindowRectEx (mkRect 0 0 width height) in
  (right rect - left rect, bottom rect - top rect).

Definition ReadModelFrameFromHwnd (w : W) : ClientFrame :=
  mkFrame (left (GetWindowRect w)) (top (GetWindowRect w))
    (right (GetClientRect w) - left (GetClientRect w))
    (bottom (GetClientRect w) - top (GetClientRect w)).

(** The window as it is asked for. *)
Definition set_frame (w : W) (f : ClientFrame) : W :=
  let '(outer_w, outer_h) := ClientSizeToOuter (client_width f) (client_height f) in
  SetWindowPos w (frame_x f) (frame_y f) outer_w outer_h.
End frames.

(** What a child of the window is, with its mirrored object. *)
Inductive Child (E L : Type) :=
| EditChild (p : EditBoxPresenter E) (edit_box : option (Z * UiEditBox))
| ButtonChild (id : Z) (proxy : bool) (button : option (Z * ButtonFields))
| ListChild (on_command : Z → Z → bool * list Submitted)
| OtherChild.
Arguments EditChild {E L}.
Arguments ButtonChild {E L}.
Arguments ListChild {E L}.
Arguments OtherChild {E L}.

Record DesktopWindowPresenter (W : Type) := mkDesktopPresenter {
  hwnd_ : option W;
  desktop_proxy : bool;
  applying_native_frame_ : bool;
  interactive_move_active_ : bool
}.
Arguments mkDesktopPresenter {W}.
Arguments hwnd_ {W}.
Arguments desktop_proxy {W}.
Arguments applying_native_frame_ {W}.
Arguments interactive_move_active_ {W}.

(** [WinPresentationHost]: whether it has a handler for closing, and a window to notify. *)
Record Host := mkHost { has_close_handler : bool; has_notify_hwnd : bool }.

Inductive WindowMessage (E L : Type) :=
| WM_NCCREATE
| WM_COMMAND (command_id notification_code : Z) (child : option (Child E L))
| WM_ENTERSIZEMOVE
| WM_EXITSIZEMOVE
| WM_WINDOWPOSCHANGED
| WM_CLOSE
| OtherMessage.
Arguments WM_NCCREATE {E L}.
Arguments WM_COMMAND {E L}.
Arguments WM_ENTERSIZEMOVE {E L}.
Arguments WM_EXITSIZEMOVE {E L}.
Arguments WM_WINDOWPOSCHANGED {E L}.
Arguments WM_CLOSE {E L}.
Arguments OtherMessage {E L}.

Section desktop.
  Context {cp : CodePages} {E L W : Type} {ec : EditControl E} {nw : NativeWindow W}.
  Implicit Types (p : DesktopWindowPresenter W) (desktop : option (Z * WindowFields)).

Definition with_hwnd p (h : option W) : DesktopWindowPresenter W := mkDesktopPresenter h (desktop_proxy p) (applying_native_frame_ p)
  (interactive_move_active_ p).
Definition with_applying p b : DesktopWindowPresenter W := mkDesktopPresenter (hwnd_ p) (desktop_proxy p) b
  (interactive_move_active_ p).
Definition with_interactive p b : DesktopWindowPresenter W := mkDesktopPresenter (hwnd_ p) (desktop_proxy p)
  (applying_native_frame_ p) b.

Definition mirror_frame (f : WindowFields) : ClientFrame :=
  mkFrame (x_ f) (y_ f) (client_width_ f) (client_height_ f).
Definition ReadMirrorClientFrame desktop : ClientFrame :=
  match desktop with Some (_, f) => mirror_frame f | None => zero_frame end.

Definition FramesEqual (a b : ClientFrame) : bool :=
  (frame_x a =? frame_x b) && (frame_y a =? frame_y b) &&
  (client_width a =? client_width b) && (client_height a =? client_height b).

Definition ReadNativeClientFrame p : ClientFrame :=
  match hwnd_ p with Some w => ReadModelFrameFromHwnd w | None => zero_frame end.

Definition HandleNativeFrameChanged p desktop : list Submitted :=
  if applying_native_frame_ p then []
  else match hwnd_ p, desktop with
       | Some _, Some (id, _) =>
           let native := ReadNativeClientFrame p in
           SubmitFrameFromNative_ (desktop_proxy p) (Some id) (frame_x native) (frame_y native)
             (client_width native) (client_height native)
       | _, _ => []
       end.

(** [None]: a notification of an edit box from a presenter that is none. *)
Definition RouteChildCommand (command_id notification_code : Z) (child : option (Child E L))
    : option (bool * list Submitted) :=
  match child with
  | None => Some (false, [])
  | Some c =>
      if notification_code =? kEnChange then
        match c with
        | EditChild q edit_box =>
            if OnCommand_EditBox (control_id q) command_id notification_code
            then Some (true, ReadFromNativeAndSubmit q edit_box) else Some (false, [])
        | _ => None
        end
      else
        match c with
        | EditChild q _ => Some (OnCommand_EditBox (control_id q) command_id notification_code, [])
        | ButtonChild id proxy button =>
            let '(handled, calls) := OnCommand_PushButton id button proxy command_id notification_code in
            Some (handled, omap (λ c, match c with CallNotifyClicked b => Some (SubmitClick b)
                                                 | _ => None end) calls)
        | ListChild on_command => Some (on_command command_id notification_code)
        | OtherChild => Some (false, [])
        end
  end.

(** Whether the message is answered here; otherwise it is passed to [DefWindowProcW]. *)
Definition WndProc (host : option Host) p desktop (msg : WindowMessage E L)
    : option (DesktopWindowPresenter W * bool * list Submitted) :=
  match msg with
  | WM_NCCREATE | OtherMessage => Some (p, false, [])
  | WM_COMMAND command_id code child =>
      '(handled, calls) ← RouteChildCommand command_id code child;
      Some (p, handled, calls)
  | WM_ENTERSIZEMOVE => Some (with_interactive p true, false, [])
  | WM_EXITSIZEMOVE =>
      let p := with_interactive p false in
      Some (p, false, if applying_native_frame_ p then [] else HandleNativeFrameChanged p desktop)
  | WM_WINDOWPOSCHANGED =>
      Some (p, false,
            if applying_native_frame_ p then []
            else if interactive_move_active_ p then []
            else HandleNativeFrameChanged p desktop)
  | WM_CLOSE =>
      Some (p, true,
            match host with
            | None => []
            | Some h =>
                if has_close_handler h
                then match desktop with Some (id, _) => [UserClose id] | None => [] end
                else if has_notify_hwnd h then [PostClose] else []
            end)
  end.

(** [SetWindowPos] sends [WM_WINDOWPOSCHANGED] to the window. *)
Definition set_window_pos (host : option Host) p desktop (f : ClientFrame)
    : option (DesktopWindowPresenter W * list Submitted) :=
  '(p, _, calls) ← WndProc host (with_hwnd p ((λ w, set_frame w f) <$> hwnd_ p)) desktop
                     (WM_WINDOWPOSCHANGED (E := E) (L := L));
  Some (p, calls).

Definition ApplyRequestedFrameFromMirror (host : option Host) p desktop
    : option (DesktopWindowPresenter W * list Submitted) :=
  if interactive_move_active_ p || negb (bool_decide (is_Some (hwnd_ p))) then Some (p, [])
  else if negb (bool_decide (is_Some desktop)) then Some (p, [])
  else
    let mirror := ReadMirrorClientFrame desktop in
    if FramesEqual mirror (ReadNativeClientFrame p) then Some (p, [])
    else
      '(p, calls) ← set_window_pos host (with_applying p true) desktop mirror;
      Some (with_applying p false, calls).

(** [title], [locale]: the mirrored objects, where the pointers are set. *)
Definition ResolveTitleText (title : option LocalizationFields) (locale : option LocaleFields) : wide :=
  match title, locale with
  | Some t, Some l => Utf8ToWide (ResolveLocalization (Some t) (language_index_ l))
  | _, _ => []
  end.

(** [create]: what [CreateWindowExW] makes with a title, a place and an outer size. *)
Definition OnLoad_desktop p desktop (title : option LocalizationFields) (locale : option LocaleFields)
    (create : wide → Z → Z → Z → Z → option W) : DesktopWindowPresenter W :=
  match desktop with
  | None => p
  | Some (_, f) =>
      let '(outer_w, outer_h) := ClientSizeToOuter (client_width_ f) (client_height_ f) in
      with_hwnd p (create (c_str (ResolveTitleText title locale)) (x_ f) (y_ f) outer_w outer_h)
  end.

Definition OnModelChanged_desktop p (title : option LocalizationFields) (locale : option LocaleFields)
    : DesktopWindowPresenter W :=
  match hwnd_ p with
  | Some w => with_hwnd p (Some (SetWindowTitle w (c_str (ResolveTitleText title locale))))
  | None => p
  end.

Definition OnUnload_desktop p : DesktopWindowPresenter W := with_hwnd p None.
End desktop.

(** ** Lists *)

(** [lb_current], [lb_top]: [None] is [LB_ERR]. *)
Class ListControl (L : Type) := {
  lb_items : L → list wide;
  lb_current : L → option Z;
  lb_top : L → option Z;
  LB_DELETESTRING : L → nat → L;
  LB_INSERTSTRING : L → nat → wide → L;
  LB_ADDSTRING : L → wide → L;
  LB_RESETCONTENT : L → L;
  LB_SETCURSEL : L → Z → L;
  LB_SETTOPINDEX : L → Z → L;
  lb_items_delete l i : (i < length (lb_items l))%nat →
    lb_items (LB_DELETESTRING l i) = take i (lb_items l) ++ drop (S i) (lb_items l);
  lb_items_insert l i t : 0 ∉ t → (i ≤ length (lb_items l))%nat →
    lb_items (LB_INSERTSTRING l i t) = take i (lb_items l) ++ t :: drop i (lb_items l);
  lb_items_add l t : 0 ∉ t → lb_items (LB_ADDSTRING l t) = lb_items l ++ [t];
  lb_items_reset l : lb_items (LB_RESETCONTENT l) = [];
  lb_items_select l i : lb_items (LB_SETCURSEL l i) = lb_items l;
  lb_items_top l i : lb_items (LB_SETTOPINDEX l i) = lb_items l;
  lb_current_select l i : 0 ≤ i < zlen (lb_items l) → lb_current (LB_SETCURSEL l i) = Some i;
  lb_current_top l i : lb_current (LB_SETTOPINDEX l i) = lb_current l
}.

(** [container]: the mirrored list with its identifier. *)
Record ListContainerPresenter (L : Type) := mkListPresenter {
  list_hwnd : option L;
  list_control_id : Z;
  list_proxy : bool;
  notify_list_selection_change : bool
}.
Arguments mkListPresenter {L}.
Arguments list_hwnd {L}.
Arguments list_control_id {L}.
Arguments list_proxy {L}.
Arguments notify_list_selection_change {L}.

Section lists.
  Context {cp : CodePages} {L : Type} {lc : ListControl L}.
  (** The text of a row: [None] if there is no row or no text. *)
  Context (primary_text : Z → option LocalizationFields).
  Implicit Types (p : ListContainerPresenter L) (container : option (Z * ListFields))
    (locale : option LocaleFields).

Definition kLbnSelchange : Z := 1.
Definition kLbnDblclk : Z := 2.

Definition OnCommand_list p container (command_id notification_code : Z) : bool * list Submitted :=
  match list_hwnd p with
  | None => (false, [])
  | Some l =>
      if (list_control_id p =? 0) || negb (command_id =? list_control_id p) then (false, [])
      else if notify_list_selection_change p && (notification_code =? kLbnSelchange) then
        match lb_current l with
        | None => (true, [])
        | Some sel => (true, SubmitListRowSelectionChangedFromUi (list_proxy p) (fst <$> container) sel)
        end
      else if negb (notification_code =? kLbnDblclk) then (false, [])
      else
        match lb_current l with
        | None => (true, [])
        | Some sel => (true, SubmitListRowActivatedFromUi (list_proxy p) (fst <$> container) sel)
        end
  end.

(** The texts that the list is to show. *)
Definition desired_texts (f : ListFields) (language_index : Z) : list wide :=
  omap (λ row, t ← row ≫= primary_text; Some (Utf8ToWide (ResolveLocalization (Some t) language_index)))
    (rows f).

(** The loop over the items that differ; [i]: the index of the first one of [desired]. *)
Fixpoint replace_items (i : nat) (current desired : list wide) (l : L) : L :=
  match current, desired with
  | c :: current, d :: desired =>
      let l := if bool_decide (c = d) then l else LB_INSERTSTRING (LB_DELETESTRING l i) i (c_str d) in
      replace_items (S i) current desired l
  | _, _ => l
  end.

Definition restore_selection (desired : list wide) (previous_sel previous_top : option Z) (l : L) : L :=
  let l := match previous_sel with
           | Some s => if (0 <=? s) && (s <? zlen desired) then LB_SETCURSEL l s else l
           | None => l
           end in
  match previous_top with
  | Some t => if 0 <=? t then LB_SETTOPINDEX l t else l
  | None => l
  end.

(** The row of the language, for a list that shows the languages. *)
Definition select_language p locale (desired : list wide) (l : L) : L :=
  match locale with
  | Some lo =>
      let i := language_index_ lo in
      if notify_list_selection_change p && (0 <=? i) && (i <? zlen desired)
      then LB_SETCURSEL l i else l
  | None => l
  end.

Definition SyncFromMirror_list p container locale : ListContainerPresenter L :=
  match list_hwnd p, container with
  | Some l, Some (_, f) =>
      let language_index := match locale with Some lo => language_index_ lo | None => 0 end in
      let desired := desired_texts f language_index in
      let current := lb_items l in
      let l :=
        if bool_decide (current = desired) then
          if bool_decide (lb_current l = Some language_index) then l
          else select_language p locale desired l
        else
          let previous_sel := lb_current l in
          let previous_top := lb_top l in
          if (length current =? length desired)%nat then
            restore_selection desired previous_sel previous_top (replace_items 0 current desired l)
          else
            let l := foldl (λ l t, LB_ADDSTRING l (c_str t)) (LB_RESETCONTENT l) desired in
            select_language p locale desired (restore_selection desired previous_sel previous_top l) in
      mkListPresenter (Some l) (list_control_id p) (list_proxy p) (notify_list_selection_change p)
  | _, _ => p
  end.

Definition OnLoad_list p (desktop : bool) container locale (create : option L)
    : ListContainerPresenter L :=
  if negb desktop || negb (bool_decide (is_Some container)) then p
  else
    let p := mkListPresenter create (list_control_id p) (list_proxy p) (notify_list_selection_change p) in
    match create with Some _ => SyncFromMirror_list p container locale | None => p end.

Definition OnModelChanged_list p container locale := SyncFromMirror_list p container locale.
Definition OnUnload_list p : ListContainerPresenter L :=
  mkListPresenter None (list_control_id p) (list_proxy p) (notify_list_selection_change p).
End lists.

(** ** Buttons, labels and images *)

(** The text and whether the control is enabled, of a button that has been created. *)
Record ButtonControl := mkButtonControl { button_text : wide; button_enabled : bool }.

Section others.
  Context {cp : CodePages}.

(** [caption]: the localized text, where the pointer is set; [locale]: [None] also when there
    is no presenter of the window. *)
Definition caption_of (caption : option LocalizationFields) (locale : option LocaleFields) : option wide :=
  match caption, locale with
  | Some t, Some l => Some (Utf8ToWide (ResolveLocalization (Some t) (language_index_ l)))
  | _, _ => None
  end.

Definition SyncFromMirror_button (h : option ButtonControl)
    (button : option (ButtonFields * option LocalizationFields)) (locale : option LocaleFields)
    : option ButtonControl :=
  match h, button with
  | Some b, Some (f, caption) =>
      Some (mkButtonControl (default (button_text b) (c_str <$> caption_of caption locale)) (enabled_ f))
  | _, _ => h
  end.

(** [created]: [CreateWindowExW] succeeds. *)
Definition OnLoad_button (h : option ButtonControl) (desktop created : bool) (id : Z)
    (button : option (ButtonFields * option LocalizationFields)) (locale : option LocaleFields)
    : option ButtonControl :=
  match button with
  | Some (f, caption) =>
      if negb desktop || (id =? 0) then h
      else if negb created then None
      else SyncFromMirror_button (Some (mkButtonControl (default [] (c_str <$> caption_of caption locale)) true))
             button locale
  | None => h
  end.

(** [label]: the text of the mirrored label.  [OnLoad] looks whether it is set, [SyncFromMirror]
    does not: the outer [None] is a null pointer that is dereferenced. *)
Definition OnLoad_label (h : option wide) (desktop created : bool)
    (label : option (option LocalizationFields)) (locale : option LocaleFields) : option wide :=
  match label with
  | Some text =>
      if negb desktop then h
      else if negb created then None else Some (default [] (c_str <$> caption_of text locale))
  | None => h
  end.

Definition SyncFromMirror_label (h : option wide) (label : option (option LocalizationFields))
    (locale : option LocaleFields) : option (option wide) :=
  match h, label, locale with
  | Some _, Some text, Some l =>
      text ← text;
      Some (Some (c_str (Utf8ToWide (ResolveLocalization (Some text) (language_index_ l)))))
  | _, _, _ => Some h
  end.

(** Whether [PaintToHdc] draws an image: its size and the number of its bytes; the product is
    computed in 64 bits. *)
Definition paints (image : option (Z * Z * Z)) : bool :=
  match image with
  | Some (width, height, count) =>
      negb ((width =? 0) || (height =? 0) || (count =? 0)) && (u64 (u64 (width * height) * 4) <=? count)
  | None => false
  end.
End others.
