(* ===== verification/UnicodeTexts.v ===== *)
(** * UTF-16 and UTF-8

    The texts of Windows are lists of UTF-16 units, those of the model are UTF-8.  What the two
    functions of the system promise of them ([UnicodePages]), for the code page CP_UTF8 and
    without flags: a pair of surrogates is one code point, a surrogate that stands alone becomes
    the replacement character, and text without lone surrogates comes back.  From this, prefixes
    of any text grow with their units, also where a prefix cuts a pair.  [Utf] is an
    implementation of the two functions that has these properties. *)
From S2P Require Import Prelude WinPresenters.

Definition high_surrogate (u : Z) : bool := (0xD800 <=? u) && (u <=? 0xDBFF).
Definition low_surrogate (u : Z) : bool := (0xDC00 <=? u) && (u <=? 0xDFFF).
Definition pair_of (u v : Z) : Z := 0x10000 + (u - 0xD800) * 1024 + (v - 0xDC00).
Definition replacement : Z := 0xFFFD.

Fixpoint code_points (w : wide) : list Z :=
  match w with
  | [] => []
  | u :: w' =>
      if high_surrogate u then
        match w' with
        | v :: w'' => if low_surrogate v then pair_of u v :: code_points w''
                      else replacement :: code_points w'
        | [] => [replacement]
        end
      else (if low_surrogate u then replacement else u) :: code_points w'
  end.

(** No surrogate stands alone. *)
Fixpoint well_formed (w : wide) : bool :=
  match w with
  | [] => true
  | u :: w' =>
      if high_surrogate u then
        match w' with v :: w'' => low_surrogate v && well_formed w'' | [] => false end
      else negb (low_surrogate u) && well_formed w'
  end.

Definition is_units (w : wide) : Prop := Forall (λ u, 0 ≤ u < 65536) w.

Definition utf8_bytes (c : Z) : bytes :=
  if c <? 0x80 then [c]
  else if c <? 0x800 then [192 + c / 64; 128 + c mod 64]
  else if c <? 0x10000 then [224 + c / 4096; 128 + c / 64 mod 64; 128 + c mod 64]
  else [240 + c / 262144; 128 + c / 4096 mod 64; 128 + c / 64 mod 64; 128 + c mod 64].

Definition utf8 (w : wide) : bytes := concat (utf8_bytes <$> code_points w).

Class UnicodePages (cp : CodePages) : Prop := {
  to_multi_byte w : is_units w → w ≠ [] → WideCharToMultiByte w = Some (string_of_bytes (utf8 w));
  to_wide_char w : is_units w → w ≠ [] → well_formed w = true →
    MultiByteToWideChar (string_of_bytes (utf8 w)) = Some w
}.

(** ** Induction over the units that make a code point *)

Lemma wide_ind (P : wide → Prop) :
  P [] → (∀ u, P [u]) →
  (∀ u v w, high_surrogate u && low_surrogate v = true → P w → P (u :: v :: w)) →
  (∀ u v w, high_surrogate u && low_surrogate v = false → P (v :: w) → P (u :: v :: w)) →
  ∀ w, P w.
Proof.
  intros H0 H1 H2 H3 w. remember (length w) as n eqn:Hn. revert w Hn.
  induction n as [n IH] using lt_wf_ind. intros [|u [|v w]] ->; [done|apply H1|].
  destruct (high_surrogate u && low_surrogate v) eqn:E.
  - apply H2, (IH (length w)); [done|simpl; lia|done].
  - apply H3, (IH (length (v :: w))); [done|simpl; lia|done].
Qed.

Lemma low_not_high u : low_surrogate u = true → high_surrogate u = false.
Proof. unfold low_surrogate, high_surrogate. rewrite andb_true_iff, !Z.leb_le. lia. Qed.

Lemma code_points_pair u v w :
  high_surrogate u && low_surrogate v = true →
  code_points (u :: v :: w) = pair_of u v :: code_points w.
Proof. intros [Hu Hv]%andb_prop. cbn [code_points]. by rewrite Hu, Hv. Qed.

(** The code point of a unit that is not half of a pair. *)
Definition single (u : Z) : Z :=
  if high_surrogate u || low_surrogate u then replacement else u.

Lemma code_points_one u : code_points [u] = [single u].
Proof. unfold single. cbn. destruct (high_surrogate u); [done|]. by destruct (low_surrogate u). Qed.

Lemma code_points_single u v w :
  high_surrogate u && low_surrogate v = false →
  code_points (u :: v :: w) = single u :: code_points (v :: w).
Proof.
  intros E. unfold single. cbn [code_points]. destruct (high_surrogate u); [|by destruct (low_surrogate u)].
  cbn [andb] in E. by rewrite E.
Qed.

(** ** Sizes *)

Definition points_size (l : list Z) : Z := foldr (λ c n, zlen (utf8_bytes c) + n) 0 l.

Lemma utf8_size_points w : zlen (utf8 w) = points_size (code_points w).
Proof.
  unfold utf8. induction (code_points w) as [|c l IH]; [done|].
  cbn [fmap list_fmap concat points_size foldr]. rewrite zlen_app, IH. done.
Qed.

Lemma utf8_bytes_size c : 1 ≤ zlen (utf8_bytes c) ≤ 4.
Proof. unfold utf8_bytes, zlen. repeat case_match; simpl; lia. Qed.

Lemma single_size u : 0 ≤ u < 65536 → 1 ≤ zlen (utf8_bytes (single u)) ≤ 3.
Proof.
  intros Hu. unfold single. destruct (_ || _); [by vm_compute|].
  unfold utf8_bytes, zlen. repeat case_match; breflect; simpl; lia.
Qed.

Lemma pair_size u v :
  high_surrogate u && low_surrogate v = true → zlen (utf8_bytes (pair_of u v)) = 4.
Proof.
  unfold high_surrogate, low_surrogate, pair_of. intros H. breflect.
  unfold utf8_bytes. repeat (case_match; breflect; [lia|]). done.
Qed.

(** One more unit makes the text longer, also when it completes a pair. *)
Lemma utf8_grows w u :
  is_units (w ++ [u]) → zlen (utf8 w) < zlen (utf8 (w ++ [u])).
Proof.
  rewrite !utf8_size_points. revert w. refine (wide_ind _ _ _ _ _).
  - intros Hu. apply Forall_app in Hu as [_ Hu]. apply Forall_inv in Hu.
    cbn [app]. rewrite code_points_one. cbn [points_size foldr].
    pose proof (single_size u Hu). simpl. lia.
  - intros v Hu. cbn [app] in *. inversion Hu as [|? ? Hv Hu']. subst. apply Forall_inv in Hu'.
    rewrite code_points_one. pose proof (single_size v Hv). pose proof (single_size u Hu').
    destruct (high_surrogate v && low_surrogate u) eqn:E.
    + rewrite code_points_pair by done. cbn [points_size foldr code_points].
      rewrite (pair_size _ _ E). lia.
    + rewrite code_points_single, code_points_one by done. cbn [points_size foldr]. lia.
  - intros v v' w E IH Hu. cbn [app] in *. rewrite !code_points_pair by done.
    cbn [points_size foldr]. apply Forall_cons_1 in Hu as [_ Hu].
    apply Forall_cons_1 in Hu as [_ Hu]. specialize (IH Hu). unfold points_size in IH. lia.
  - intros v v' w E IH Hu. cbn [app] in *. rewrite !code_points_single by done.
    cbn [points_size foldr]. apply Forall_cons_1 in Hu as [_ Hu]. specialize (IH Hu).
    unfold points_size in IH. cbn [app] in IH. lia.
Qed.

Lemma pair_range u v :
  high_surrogate u && low_surrogate v = true → 0x10000 ≤ pair_of u v < 0x110000.
Proof. unfold high_surrogate, low_surrogate, pair_of. intros H. breflect. lia. Qed.

Lemma single_range u : 0 ≤ u < 65536 → 0 ≤ single u < 0x110000.
Proof. unfold single, replacement. intros Hu. destruct (_ || _); lia. Qed.

Lemma code_points_range w : is_units w → Forall (λ c, 0 ≤ c < 0x110000) (code_points w).
Proof.
  revert w. refine (wide_ind _ _ _ _ _); [done| | |].
  - intros u Hu. rewrite code_points_one. constructor; [|done].
    apply single_range. by apply Forall_inv in Hu.
  - intros u v w E IH Hu. rewrite code_points_pair by done. apply Forall_cons_1 in Hu as [_ Hu].
    apply Forall_cons_1 in Hu as [_ Hu]. constructor; [|by apply IH].
    pose proof (pair_range u v E). lia.
  - intros u v w E IH Hu. rewrite code_points_single by done. apply Forall_cons_1 in Hu as [H1 Hu].
    constructor; [by apply single_range|by apply IH].
Qed.

Lemma utf8_bytes_are_bytes c : 0 ≤ c < 0x110000 → is_bytes (utf8_bytes c).
Proof.
  intros Hc. unfold utf8_bytes. repeat (case_match; breflect);
    repeat constructor; Z.to_euclidean_division_equations; lia.
Qed.

Lemma utf8_is_bytes w : is_units w → is_bytes (utf8 w).
Proof.
  intros Hw. apply code_points_range in Hw. unfold utf8.
  induction Hw as [|c l Hc _ IH]; [constructor|]. cbn [fmap list_fmap concat].
  apply Forall_app. split; [by apply utf8_bytes_are_bytes|done].
Qed.

(** ** What the presenters rely on *)
Section pages.
  Context {cp : CodePages} {up : UnicodePages cp}.

Lemma length_string_bytes s : String.length s = length (String.list_ascii_of_string s).
Proof. induction s as [|a s IH]; [done|]. cbn. by f_equal. Qed.

Lemma utf8_size_of w : is_units w → utf8_size w = zlen (utf8 w).
Proof.
  intros Hw. unfold utf8_size, WideToUtf8. destruct w as [|u w]; [done|].
  rewrite to_multi_byte by done. cbn [default]. unfold zlen.
  rewrite <-(bytes_of_string_of_bytes (utf8 (u :: w))) at 2 by by apply utf8_is_bytes.
  unfold bytes_of_string. rewrite length_fmap. f_equal.
  apply length_string_bytes.
Qed.

(** A longer prefix has more bytes. *)
Lemma prefixes_grow w i j :
  is_units w → (i < j ≤ length w)%nat → utf8_size (take i w) < utf8_size (take j w).
Proof.
  intros Hw [Hij Hj]. assert (∀ n, is_units (take n w)) as Hn by (intros n; by apply Forall_take).
  rewrite !utf8_size_of by done. induction j as [|j IH]; [lia|].
  destruct (lookup_lt_is_Some_2 w j) as [u Hu]; [lia|].
  pose proof (utf8_grows (take j w) u) as Hg. rewrite <-(take_S_r _ _ _ Hu) in Hg.
  specialize (Hg (Hn _)). destruct (decide (i = j)) as [->|Hne]; [done|].
  specialize (IH ltac:(lia) ltac:(lia)). lia.
Qed.

(** A text without lone surrogates comes back. *)
Lemma wide_comes_back w : is_units w → well_formed w = true → Utf8ToWide (WideToUtf8 w) = w.
Proof.
  intros Hw Hwf. destruct (decide (w = [])) as [->|Hne]; [done|].
  assert (WideToUtf8 w = string_of_bytes (utf8 w)) as ->.
  { unfold WideToUtf8. rewrite (to_multi_byte w Hw Hne). by destruct w. }
  unfold Utf8ToWide. rewrite (to_wide_char w Hw Hne Hwf). destruct (String.eqb_spec (string_of_bytes (utf8 w)) "") as [E|_]; [|done].
  exfalso. apply (f_equal bytes_of_string) in E.
  rewrite bytes_of_string_of_bytes in E by by apply utf8_is_bytes.
  assert (zlen (utf8 (take 0 w)) < zlen (utf8 w)) as Hs.
  { pose proof (prefixes_grow w 0 (length w) Hw ltac:(destruct w; [done|simpl; lia])) as H.
    rewrite firstn_all, !utf8_size_of in H by (done || by apply Forall_take). exact H. }
  rewrite E in Hs. by vm_compute in Hs.
Qed.
End pages.

(** ** An implementation *)
Module Utf.

Definition utf16_units (c : Z) : wide :=
  if c <? 0x10000 then [c] else [0xD800 + (c - 0x10000) / 1024; 0xDC00 + (c - 0x10000) mod 1024].

(** The first byte says how many follow. *)
Fixpoint decode_utf8 (bs : bytes) : wide :=
  match bs with
  | [] => []
  | b :: bs =>
      if b <? 0x80 then b :: decode_utf8 bs
      else match bs with
        | [] => [replacement]
        | b1 :: bs =>
            if b <? 224 then utf16_units ((b - 192) * 64 + (b1 - 128)) ++ decode_utf8 bs
            else match bs with
              | [] => [replacement]
              | b2 :: bs =>
                  if b <? 240
                  then utf16_units ((b - 224) * 4096 + (b1 - 128) * 64 + (b2 - 128)) ++ decode_utf8 bs
                  else match bs with
                    | [] => [replacement]
                    | b3 :: bs =>
                        utf16_units ((b - 240) * 262144 + (b1 - 128) * 4096 + (b2 - 128) * 64 +
                                     (b3 - 128)) ++ decode_utf8 bs
                    end
              end
        end
  end.

#[export] Instance utf_pages : CodePages := {|
  MultiByteToWideChar s := Some (decode_utf8 (bytes_of_string s));
  WideCharToMultiByte w := Some (string_of_bytes (utf8 w))
|}.

Lemma decode_utf8_bytes c rest :
  0 ≤ c < 0x110000 → decode_utf8 (utf8_bytes c ++ rest) = utf16_units c ++ decode_utf8 rest.
Proof.
  intros Hc. unfold utf8_bytes.
  destruct (Z.ltb_spec c 128) as [H1|H1].
  { cbn [app decode_utf8]. rewrite (proj2 (Z.ltb_lt c 128)) by done.
    unfold utf16_units. by rewrite (proj2 (Z.ltb_lt c _)) by lia. }
  destruct (Z.ltb_spec c 2048) as [H2|H2].
  { cbn [app decode_utf8].
    rewrite (proj2 (Z.ltb_ge _ 128)), (proj2 (Z.ltb_lt _ 224))
      by (Z.to_euclidean_division_equations; lia).
    f_equal. f_equal. Z.to_euclidean_division_equations; lia. }
  destruct (Z.ltb_spec c 65536) as [H3|H3]; cbn [app decode_utf8].
  - rewrite (proj2 (Z.ltb_ge _ 128)), (proj2 (Z.ltb_ge _ 224)), (proj2 (Z.ltb_lt _ 240))
      by (Z.to_euclidean_division_equations; lia).
    f_equal. f_equal. Z.to_euclidean_division_equations; lia.
  - rewrite (proj2 (Z.ltb_ge _ 128)), (proj2 (Z.ltb_ge _ 224)), (proj2 (Z.ltb_ge _ 240))
      by (Z.to_euclidean_division_equations; lia).
    f_equal. f_equal. Z.to_euclidean_division_equations; lia.
Qed.

Lemma utf16_pair u v :
  high_surrogate u && low_surrogate v = true → utf16_units (pair_of u v) = [u; v].
Proof.
  intros E. pose proof (pair_range u v E) as Hr. unfold utf16_units.
  rewrite (proj2 (Z.ltb_ge _ _)) by lia. unfold high_surrogate, low_surrogate in E. breflect.
  unfold pair_of. repeat f_equal; Z.to_euclidean_division_equations; lia.
Qed.

Lemma decode_points w :
  is_units w → well_formed w = true → concat (utf16_units <$> code_points w) = w.
Proof.
  revert w. refine (wide_ind _ _ _ _ _); [done| | |].
  - intros u Hu. apply Forall_inv in Hu. cbn [well_formed code_points].
    destruct (high_surrogate u) eqn:Eh; [done|]. destruct (low_surrogate u) eqn:El; [done|].
    intros _. cbn. unfold utf16_units. by rewrite (proj2 (Z.ltb_lt u _)) by lia.
  - intros u v w E IH Hu Hw. rewrite code_points_pair by done. cbn [fmap list_fmap concat].
    rewrite utf16_pair by done. cbn [app]. do 2 f_equal. apply IH.
    + by do 2 apply Forall_cons_1 in Hu as [_ Hu].
    + cbn [well_formed] in Hw. apply andb_prop in E as [Eh El]. by rewrite Eh, El in Hw.
  - intros u v w E IH Hu Hw. rewrite code_points_single by done. cbn [fmap list_fmap concat].
    apply Forall_cons_1 in Hu as [H1 Hu].
    assert (high_surrogate u = false ∧ low_surrogate u = false ∧ well_formed (v :: w) = true)
      as (Eh & El & Hw').
    { cbn [well_formed] in Hw |- *. destruct (high_surrogate u).
      - cbn [andb] in E. by rewrite E in Hw.
      - by apply andb_prop in Hw as [?%negb_true_iff Hw]. }
    rewrite IH by done. unfold single. rewrite Eh, El. cbn [orb].
    unfold utf16_units. by rewrite (proj2 (Z.ltb_lt u _)) by lia.
Qed.

#[export] Instance utf_unicode : UnicodePages utf_pages.
Proof.
  split; [done|]. intros w Hw _ Hwf. cbn [MultiByteToWideChar utf_pages].
  rewrite bytes_of_string_of_bytes by by apply utf8_is_bytes. f_equal.
  rewrite <-(decode_points w Hw Hwf) at 2. unfold utf8.
  pose proof (code_points_range w Hw) as Hr.
  induction Hr as [|c l Hc _ IH]; [done|]. cbn [fmap list_fmap concat].
  by rewrite decode_utf8_bytes, IH.
Qed.

(** A letter of each size, the last one a pair of surrogates. *)
Example utf_example :
  WideToUtf8 [97; 228; 8364; 55357; 56832] =
    string_of_bytes [97; 195; 164; 226; 130; 172; 240; 159; 152; 128] ∧
  Utf8ToWide (WideToUtf8 [97; 228; 8364; 55357; 56832]) = [97; 228; 8364; 55357; 56832].
Proof. vm_compute. split; reflexivity. Qed.
End Utf.
