(* ===== verification/WinPresentersTheory.v ===== *)
(** * Theorems on the presenters of Windows

    On WinPresenters.v: what the user types comes back from the model as it was left, with the
    caret; a window that is moved is submitted once, and a frame that the model asks for is set
    without being submitted; a list shows the rows of the mirror with the selection kept. *)
From S2P Require Import Prelude SharedEvent Node NodeTheory NodeBudget UiObjects UiObjectsTheory.
From S2P Require Import WinPresenters UnicodeTexts.

(** ** Carets *)

Lemma HIWORD_EM_GETSEL s c :
  0 ≤ s → 0 ≤ c → HIWORD (EM_GETSEL (s, c)) = if (65535 <? s) || (65535 <? c) then 65535 else c.
Proof.
  intros Hs Hc. unfold HIWORD, EM_GETSEL. simpl. destruct (_ || _) eqn:Hb; [done|].
  apply orb_false_iff in Hb as [H1 H2]. apply Z.ltb_ge in H1, H2.
  rewrite Z.shiftr_lor, Z.shiftr_shiftl_l by lia. replace (16 - 16) with 0 by done.
  rewrite Z.shiftl_0_r, (Z.shiftr_div_pow2 s) by lia. rewrite (Z.div_small s) by lia.
  rewrite Z.lor_0_r. change 65535 with (Z.ones 16). rewrite Z.land_ones by lia.
  apply Z.mod_small. lia.
Qed.

Lemma c_str_id w : 0 ∉ w → c_str w = w.
Proof.
  induction w as [|u w IH]; intros Hw; [done|]. apply not_elem_of_cons in Hw as [Hu Hw].
  cbn. rewrite (proj2 (Z.eqb_neq _ _)) by done. by rewrite IH.
Qed.

Lemma c_str_no_nul w : 0 ∉ c_str w.
Proof.
  induction w as [|u w IH]; [by apply not_elem_of_nil|]. cbn.
  destruct (Z.eqb_spec u 0); [by apply not_elem_of_nil|]. by apply not_elem_of_cons.
Qed.

Section texts.
  Context {cp : CodePages} {up : UnicodePages cp}.

Lemma utf8_size_nonneg w : 0 ≤ utf8_size w.
Proof. unfold utf8_size. lia. Qed.

(** The caret of a text comes back from its offset in the bytes. *)
Lemma caret_roundtrip w c :
  is_units w → 0 ≤ c ≤ zlen w → WideCaretFromUtf8Offset w (Utf8OffsetFromWideCaret w c) = c.
Proof.
  intros Hw Hc. unfold zlen in Hc. unfold Utf8OffsetFromWideCaret.
  destruct (Z.leb_spec c 0) as [H0|H0]; [unfold WideCaretFromUtf8Offset; simpl; lia|].
  rewrite Nat.min_l by lia. set (k := Z.to_nat c) in *.
  assert (Hk : (0 < k ≤ length w)%nat) by lia.
  pose proof (prefixes_grow w 0%nat k Hw Hk) as Hpos. pose proof (utf8_size_nonneg (take 0 w)).
  unfold WideCaretFromUtf8Offset. rewrite (proj2 (Z.eqb_neq _ _)) by lia.
  assert (Hf : list_find (λ i, utf8_size (take k w) ≤ utf8_size (take (S i) w)) (seq 0 (length w)) =
    Some ((k - 1)%nat, (k - 1)%nat)).
  { apply list_find_Some. split; [|split].
    - rewrite lookup_seq. split; [done|lia].
    - by replace (S (k - 1)) with k by lia.
    - intros j y Hy Hj. apply lookup_seq in Hy as [-> Hy]. simpl.
      pose proof (prefixes_grow w (S j) k Hw ltac:(lia)). lia. }
  rewrite Hf. lia.
Qed.
End texts.

(** ** Edit boxes *)

Section edit_box.
  Context {cp : CodePages} {up : UnicodePages cp} {E : Type} {ec : EditControl E}.
  Implicit Types (p : EditBoxPresenter E).

(** A text that the two encodings agree on, and that does not end early in a control. *)
Definition representable (text : string) : Prop :=
  WideToUtf8 (Utf8ToWide text) = text ∧ 0 ∉ Utf8ToWide text.

(** What the presenter shows is what the mirror has. *)
Definition shows_mirror p (n : UiEditBox) : Prop :=
  ∃ e, edit_hwnd p = Some e ∧ WideToUtf8 (GetWindowText e) = text_ (fields n) ∧
    mirror_text_applied_ p = true ∧ last_applied_generation_ p = Generation n.

Lemma SyncFromMirror_edit_synced p id n :
  shows_mirror p n → SyncFromMirror_edit p (Some (id, n)) = (p, []).
Proof.
  intros (e & He & Ht & Ha & Hg). unfold SyncFromMirror_edit. rewrite He, Ht, Ha, Hg.
  by rewrite String.eqb_refl, Z.eqb_refl.
Qed.

(** Nothing is submitted while the text of the mirror is set. *)
Lemma edit_changed_applying p edit_box : applying_mirror_text_ p = true → edit_changed p edit_box = [].
Proof.
  intros Ha. unfold edit_changed, ReadFromNativeAndSubmit. rewrite Ha.
  destruct (OnCommand_EditBox _ _ _); [|done]. by destruct (edit_hwnd p).
Qed.

Lemma SyncFromMirror_edit_submits p edit_box : (SyncFromMirror_edit p edit_box).2 = [].
Proof.
  unfold SyncFromMirror_edit. destruct (edit_hwnd p); [|done]. destruct edit_box as [[id n]|]; [|done].
  destruct (negb _); [done|]. simpl. by apply edit_changed_applying.
Qed.

(** An edit box is brought to the mirror without an echo: whatever it showed, it shows the
    text of the mirror afterwards, nothing is submitted to the model, and doing it again
    changes nothing. *)
Theorem edit_box_follows_mirror p id n e :
  edit_hwnd p = Some e → representable (text_ (fields n)) → applying_mirror_text_ p = false →
  let p' := (SyncFromMirror_edit p (Some (id, n))).1 in
  (SyncFromMirror_edit p (Some (id, n))).2 = [] ∧ shows_mirror p' n ∧
  applying_mirror_text_ p' = false ∧ SyncFromMirror_edit p' (Some (id, n)) = (p', []).
Proof.
  intros He [Hr Hnul] Ha. cbv zeta. split; [apply SyncFromMirror_edit_submits|].
  assert (Hs : shows_mirror (SyncFromMirror_edit p (Some (id, n))).1 n ∧
    applying_mirror_text_ (SyncFromMirror_edit p (Some (id, n))).1 = false).
  { unfold SyncFromMirror_edit. rewrite He. destruct (negb (_ || _ || _)) eqn:Hu; simpl.
    - apply negb_true_iff in Hu. rewrite !orb_false_iff, !negb_false_iff in Hu.
      destruct Hu as [[Hap Ht] Hg]. apply String.eqb_eq in Ht. apply Z.eqb_eq in Hg.
      split; [|done]. by exists e.
    - split; [|done]. eexists. split; [done|].
      rewrite GetWindowText_sel, GetWindowText_set by apply c_str_no_nul.
      rewrite c_str_id by done. by split_and!. }
  destruct Hs as [Hs Hap]. split; [done|]. split; [done|]. by apply SyncFromMirror_edit_synced.
Qed.

(** C36. What the user types comes back as it was left, whatever the text and the caret: the
    text is submitted to the model once, with the caret, or with the place after the unit 65535
    when the caret is further, as 16 bits do not tell it; the model's edit box takes both; and
    when the presenter is brought to the mirror of that, whatever its generation, it submits
    nothing, and the control has the text, with the caret where the user left it, or at that
    place.  The text has no lone surrogate and no unit 0. *)
Theorem typing_comes_back p id t c model e k clock :
  edit_hwnd p = Some e → applying_mirror_text_ p = false → edit_proxy p = true → control_id p ≠ 0 →
  is_units t → well_formed t = true → 0 ∉ t → 0 ≤ c ≤ zlen t →
  0 ≤ k → Budget (k + 1 + 1) model → (∀ i, clock_within (k + 1 + 1) (clock i)) →
  let reported := if 65535 <? c then 65535 else c in
  let '(p1, calls) := type_edit p t c (Some (id, model)) in
  calls = [SubmitText id (WideToUtf8 t) (Utf8OffsetFromWideCaret t reported)] ∧
  ∃ m, UiObjects.SubmitTextFromUi model (WideToUtf8 t) (Utf8OffsetFromWideCaret t reported) clock =
         Some m ∧
  ∀ mirror, fields mirror = fields m →
  let '(p2, calls2) := SyncFromMirror_edit p1 (Some (id, mirror)) in
  calls2 = [] ∧
  ∃ e2 x, edit_hwnd p2 = Some e2 ∧ GetWindowText e2 = t ∧ edit_selection e2 = (x, x) ∧
    (x = c ∨ x = reported).
Proof.
  intros He Ha Hp Hid Hunits Hwf Hnul Hc Hk Hb Hclock reported. unfold type_edit. rewrite He.
  set (e1 := SetSelection (SetWindowText e t) c c).
  assert (Ht1 : GetWindowText e1 = t)
    by (unfold e1; by rewrite GetWindowText_sel, GetWindowText_set).
  assert (Hs1 : edit_selection e1 = (c, c))
    by (unfold e1; apply edit_selection_set; by rewrite GetWindowText_set).
  assert (Hrep : 0 ≤ reported ≤ zlen t)
    by (unfold reported; destruct (Z.ltb_spec 65535 c); lia).
  split.
  - unfold edit_changed, OnCommand_EditBox. rewrite Z.eqb_refl, (proj2 (Z.eqb_neq _ _)) by done.
    unfold ReadFromNativeAndSubmit. cbn [edit_hwnd with_edit applying_mirror_text_ edit_proxy].
    rewrite Ha, Hp, Ht1, Hs1, HIWORD_EM_GETSEL by lia. unfold reported. by destruct (65535 <? c).
  - destruct (SubmitTextFromUi_spec k model (WideToUtf8 t) (Utf8OffsetFromWideCaret t reported)
      clock Hk Hb Hclock) as (m & Hm & _ & Hf & _).
    exists m. split; [done|]. intros mirror Hmir. rewrite Hf in Hmir.
    destruct (SyncFromMirror_edit _ _) as [p2 calls2] eqn:Hsync.
    pose proof (SyncFromMirror_edit_submits (with_edit p (Some e1)) (Some (id, mirror))) as Hsub.
    rewrite Hsync in Hsub. split; [done|]. clear Hsub.
    unfold SyncFromMirror_edit in Hsync. cbn [edit_hwnd with_edit] in Hsync. rewrite Hmir in Hsync.
    cbn [text_ caret_utf8_offset_] in Hsync.
    destruct (negb _) in Hsync; injection Hsync as <- _.
    + exists e1, c. split_and!; [done..|by left].
    + cbn [edit_hwnd with_edit with_applied with_applying_text].
      rewrite wide_comes_back, caret_roundtrip, c_str_id by done.
      eexists _, reported. split; [done|].
      rewrite GetWindowText_sel, GetWindowText_set by done. split; [done|].
      split; [|by right]. apply edit_selection_set. by rewrite GetWindowText_set.
Qed.
End edit_box.

(** ** Desktop windows *)

Section desktop.
  Context {cp : CodePages} {E L W : Type} {ec : EditControl E} {nw : NativeWindow W}.
  Implicit Types (p : DesktopWindowPresenter W).

Abbreviation Message := (WindowMessage E L).

Lemma FramesEqual_spec a b : FramesEqual a b = true ↔ a = b.
Proof.
  unfold FramesEqual. rewrite !andb_true_iff, !Z.eqb_eq. destruct a, b. simpl.
  split; [intros [[[-> ->] ->] ->]; done|by intros [= -> -> -> ->]].
Qed.

(** A frame that the model asks for is set and not submitted back: when the window is there
    and is not being moved, it has the frame of the mirror afterwards, provided that the
    system grants it, and no call is made, although setting the frame notifies the window. *)
Theorem requested_frame_is_not_echoed host p id f w :
  hwnd_ p = Some w → interactive_move_active_ p = false → applying_native_frame_ p = false →
  ReadModelFrameFromHwnd (set_frame w (mirror_frame f)) = mirror_frame f →
  ∃ p', ApplyRequestedFrameFromMirror (E := E) (L := L) host p (Some (id, f)) = Some (p', []) ∧
    ReadNativeClientFrame p' = mirror_frame f ∧
    interactive_move_active_ p' = false ∧ applying_native_frame_ p' = false ∧
    ApplyRequestedFrameFromMirror (E := E) (L := L) host p' (Some (id, f)) = Some (p', []).
Proof.
  intros Hw Hi Ha Hgrant.
  assert (Hsettled : ∀ q v, hwnd_ q = Some v → ReadModelFrameFromHwnd v = mirror_frame f →
    ApplyRequestedFrameFromMirror (E := E) (L := L) host q (Some (id, f)) = Some (q, [])).
  { intros q v Hv Hf. unfold ApplyRequestedFrameFromMirror, ReadNativeClientFrame. rewrite Hv, Hf.
    rewrite (proj2 (FramesEqual_spec _ _)) by done. by destruct (interactive_move_active_ q). }
  unfold ApplyRequestedFrameFromMirror at 1. rewrite Hi, Hw. cbn [orb negb bool_decide].
  rewrite !bool_decide_true by done. simpl.
  destruct (FramesEqual _ _) eqn:Heq.
  - apply FramesEqual_spec in Heq. exists p. unfold ReadNativeClientFrame in *. rewrite Hw in *.
    split_and!; try done. by apply (Hsettled p w).
  - rewrite Hw. simpl. eexists. split; [reflexivity|]. unfold ReadNativeClientFrame. simpl.
    split_and!; try done. by eapply Hsettled.
Qed.

(** The user moves the window: the system sends a message for every place. *)
Fixpoint move_through host p (desktop : option (Z * WindowFields)) (ws : list W)
    : option (DesktopWindowPresenter W * list Submitted) :=
  match ws with
  | [] => Some (p, [])
  | w :: ws =>
      '(p, _, calls) ← WndProc host (with_hwnd p (Some w)) desktop (WM_WINDOWPOSCHANGED : Message);
      '(p, calls') ← move_through host p desktop ws;
      Some (p, calls ++ calls')
  end.

(** From pressing the button to releasing it. *)
Definition user_moves host p (desktop : option (Z * WindowFields)) (ws : list W)
    : option (DesktopWindowPresenter W * list Submitted) :=
  '(p, _, calls1) ← WndProc host p desktop (WM_ENTERSIZEMOVE : Message);
  '(p, calls2) ← move_through host p desktop ws;
  '(p, _, calls3) ← WndProc host p desktop (WM_EXITSIZEMOVE : Message);
  Some (p, calls1 ++ calls2 ++ calls3).

Lemma move_through_quiet host p desktop ws :
  interactive_move_active_ p = true →
  ∃ q, move_through host p desktop ws = Some (q, []) ∧ interactive_move_active_ q = true ∧
    applying_native_frame_ q = applying_native_frame_ p ∧ desktop_proxy q = desktop_proxy p ∧
    hwnd_ q = (match ws !! (length ws - 1)%nat with Some w => Some w | None => hwnd_ p end).
Proof.
  revert p. induction ws as [|w ws IH]; intros p Hi; [by exists p|].
  cbn [move_through]. simpl. rewrite Hi.
  replace (if applying_native_frame_ p then [] else []) with (@nil Submitted)
    by by destruct (applying_native_frame_ p). simpl.
  destruct (IH (with_hwnd p (Some w)) Hi) as (q & -> & H1 & H2 & H3 & H4). simpl in H2, H3.
  exists q. split; [done|]. split_and!; try done. rewrite H4. simpl.
  destruct ws as [|v ws]; [done|]. simpl. rewrite Nat.sub_0_r.
  by destruct (lookup_lt_is_Some_2 (v :: ws) (length ws)) as [x ->]; [simpl; lia|].
Qed.

(** C37. Moving a window settles in one exchange: while the user moves it nothing is submitted,
    and when it is released its frame is submitted once; the model takes that frame; and when
    the presenter is brought to the mirror of the model, nothing is moved or submitted. *)
Theorem user_move_settles host p id ws w model k now :
  applying_native_frame_ p = false → desktop_proxy p = true →
  0 ≤ k → Budget (k + 1) model → clock_within (k + 1) now →
  let fr := ReadModelFrameFromHwnd w in
  ∃ p', user_moves host p (Some (id, fields model)) (ws ++ [w]) =
    Some (p', [SubmitFrame id (frame_x fr) (frame_y fr) (client_width fr) (client_height fr)]) ∧
  ∃ m, UiObjects.SubmitFrameFromNative model (frame_x fr) (frame_y fr) (client_width fr)
         (client_height fr) now = Some m ∧
    mirror_frame (fields m) = fr ∧
    ApplyRequestedFrameFromMirror (E := E) (L := L) host p' (Some (id, fields m)) = Some (p', []).
Proof.
  intros Ha Hp Hk Hb Hclock fr. unfold user_moves. simpl.
  destruct (move_through_quiet host (with_interactive p true) (Some (id, fields model)) (ws ++ [w]) eq_refl)
    as (q & Hq & Hqi & Hqa & Hqp & Hqw). rewrite Hq. simpl in *. rewrite Hqa, Ha.
  rewrite length_app, lookup_app_r in Hqw by (simpl; lia).
  replace (length ws + length [w] - 1 - length ws)%nat with 0%nat in Hqw by (simpl; lia).
  simpl in Hqw.
  assert (Hh : HandleNativeFrameChanged (with_interactive q false) (Some (id, fields model)) =
    [SubmitFrame id (frame_x fr) (frame_y fr) (client_width fr) (client_height fr)]).
  { unfold HandleNativeFrameChanged, ReadNativeClientFrame. simpl. by rewrite Hqa, Ha, Hqw, Hqp, Hp. }
  rewrite Hh. eexists. split; [done|].
  destruct (window_call_refines k model
    (FromNative (frame_x fr, frame_y fr, client_width fr, client_height fr)) now Hk Hb Hclock)
    as (m & Hm & _ & Habs).
  cbn [window_call] in Hm.
  destruct (UiObjects.SubmitFrameFromNative _ _ _ _ _ _) as [m'|] eqn:Hs; [|done]. simpl in Hm.
  injection Hm as ->. exists m. split; [done|].
  assert (Hf : frame_of (fields m) = (frame_x fr, frame_y fr, client_width fr, client_height fr)).
  { change (frame_of (fields m)) with (frame (abstraction m)). rewrite Habs. cbn [abstract_call snd].
    by destruct (decide _). }
  assert (Hfr : mirror_frame (fields m) = fr).
  { unfold frame_of in Hf. unfold mirror_frame. injection Hf as H1 H2 H3 H4. rewrite H1, H2, H3, H4. reflexivity. }
  split; [done|]. unfold ApplyRequestedFrameFromMirror, ReadNativeClientFrame. simpl.
  rewrite Hqw, Hfr. fold fr. simpl. by rewrite (proj2 (FramesEqual_spec fr fr) eq_refl).
Qed.
End desktop.

(** ** Lists *)

Section lists.
  Context {cp : CodePages} {L : Type} {lc : ListControl L}.
  Context (primary_text : Z → option LocalizationFields).
  Implicit Types (p : ListContainerPresenter L) (locale : option LocaleFields).

Lemma replace_items_result pre current desired : ∀ l i,
  Forall (λ t, 0 ∉ t) desired →
  lb_items l = pre ++ current → i = length pre → length current = length desired →
  lb_items (replace_items i current desired l) = pre ++ desired.
Proof.
  revert pre desired. induction current as [|c current IH]; intros pre [|d desired] l i Hnul Hl -> Hlen;
    try done; cbn [replace_items].
  apply Forall_cons_1 in Hnul as [Hd Hnul]. rewrite c_str_id by done.
  injection Hlen as Hlen. case_bool_decide as Hcd.
  - subst d. rewrite (IH (pre ++ [c]) desired); [by rewrite <-app_assoc|done| | |done].
    + by rewrite <-app_assoc.
    + rewrite length_app. simpl. lia.
  - assert (Hdel : lb_items (LB_DELETESTRING l (length pre)) = pre ++ current).
    { rewrite lb_items_delete by (rewrite Hl, length_app; simpl; lia).
      rewrite Hl, take_app_length, drop_app_ge by lia.
      by replace (S (length pre) - length pre)%nat with 1%nat by lia. }
    assert (Hins : lb_items (LB_INSERTSTRING (LB_DELETESTRING l (length pre)) (length pre) d) =
      pre ++ d :: current).
    { rewrite lb_items_insert by (done || rewrite Hdel, length_app; lia).
      by rewrite Hdel, take_app_length, drop_app_length. }
    rewrite (IH (pre ++ [d]) desired); [by rewrite <-app_assoc|done| | |done].
    + by rewrite Hins, <-app_assoc.
    + rewrite length_app. simpl. lia.
Qed.

Lemma add_items_result desired : ∀ l, Forall (λ t, 0 ∉ t) desired →
  lb_items (foldl (λ l t, LB_ADDSTRING l (c_str t)) l desired) = lb_items l ++ desired.
Proof.
  induction desired as [|d desired IH]; intros l Hnul; cbn [foldl]; [by rewrite app_nil_r|].
  apply Forall_cons_1 in Hnul as [Hd Hnul].
  by rewrite IH, c_str_id, lb_items_add, <-app_assoc.
Qed.

Lemma restore_selection_items desired s t l : lb_items (restore_selection desired s t l) = lb_items l.
Proof.
  unfold restore_selection.
  destruct t as [t|]; [destruct (0 <=? t); rewrite ?lb_items_top|];
    (destruct s as [s|]; [destruct (_ && _); by rewrite ?lb_items_select|done]).
Qed.

Lemma restore_selection_current desired s t l :
  lb_items l = desired → 0 ≤ s < zlen desired →
  lb_current (restore_selection desired (Some s) t l) = Some s.
Proof.
  intros Hl Hs. unfold restore_selection.
  rewrite (proj2 (Z.leb_le _ _)), (proj2 (Z.ltb_lt _ _)) by lia. simpl.
  assert (Hc : lb_current (LB_SETCURSEL l s) = Some s) by (apply lb_current_select; by rewrite Hl).
  destruct t as [t|]; [|done]. destruct (0 <=? t); [by rewrite lb_current_top|done].
Qed.

Lemma select_language_items p locale desired l :
  lb_items (select_language p locale desired l) = lb_items l.
Proof.
  unfold select_language. destruct locale; [|done]. destruct (_ && _); by rewrite ?lb_items_select.
Qed.

Definition texts_of (f : ListFields) locale : list wide :=
  desired_texts primary_text f (match locale with Some lo => language_index_ lo | None => 0 end).

(** A list is brought to the mirror on every path, whether nothing has changed, only texts have,
    or the number of rows: it shows the texts of the rows that have one, in their order.  The
    selected index stays while there is a row for it, unless the list is that of the
    languages, which has the language's row selected when the rows have been built again. *)
Theorem list_follows_mirror p l id f locale :
  list_hwnd p = Some l →
  let desired := texts_of f locale in Forall (λ t, 0 ∉ t) desired →
  ∃ l', list_hwnd (SyncFromMirror_list primary_text p (Some (id, f)) locale) = Some l' ∧
    lb_items l' = desired ∧
    (∀ s, lb_current l = Some s → 0 ≤ s < zlen desired → notify_list_selection_change p = false →
       lb_current l' = Some s) ∧
    (∀ lo, locale = Some lo → notify_list_selection_change p = true →
       length (lb_items l) ≠ length desired → 0 ≤ language_index_ lo < zlen desired →
       lb_current l' = Some (language_index_ lo)).
Proof.
  intros Hl desired Hnul. unfold SyncFromMirror_list. rewrite Hl. cbv zeta.
  fold (texts_of f locale). fold desired. eexists. split; [reflexivity|].
  assert (Hsel : ∀ x, notify_list_selection_change p = false → select_language p locale desired x = x)
    by (intros x Hn; unfold select_language; rewrite Hn; by destruct locale).
  case_bool_decide as Heq.
  { split_and!.
    - case_bool_decide; [done|]. by rewrite select_language_items.
    - intros s Hs _ Hn. case_bool_decide; [done|]. by rewrite Hsel.
    - intros lo -> _ Hne. by rewrite Heq in Hne. }
  destruct (length (lb_items l) =? length desired)%nat eqn:Hlen.
  - apply Nat.eqb_eq in Hlen.
    assert (Hr : lb_items (replace_items 0 (lb_items l) desired l) = desired)
      by (by apply (replace_items_result [] (lb_items l) desired)).
    split_and!.
    + by rewrite restore_selection_items.
    + intros s Hs Hb _. rewrite Hs. by apply restore_selection_current.
    + by intros lo _ _ Hne.
  - assert (Hr : lb_items (foldl (λ l t, LB_ADDSTRING l (c_str t)) (LB_RESETCONTENT l) desired) = desired)
      by (by rewrite add_items_result, lb_items_reset).
    split_and!.
    + by rewrite select_language_items, restore_selection_items.
    + intros s Hs Hb Hn. rewrite Hsel, Hs by done. by apply restore_selection_current.
    + intros lo -> Hn _ Hb. unfold select_language. rewrite Hn.
      rewrite (proj2 (Z.leb_le _ _)), (proj2 (Z.ltb_lt _ _)) by lia. simpl.
      apply lb_current_select. by rewrite restore_selection_items, Hr.
Qed.
End lists.
