(* ===== verification/WinPresentersExamples.v ===== *)
(** * Controls of Windows, step by step

    Controls that keep a text, a selection and items; the witnesses of the theorems of
    WinPresentersTheory.v; and runs that show what the presenters do not handle. *)
From S2P Require Import Prelude SharedEvent NativeBytes Node NodeBudget UiObjects UiObjectsTheory.
From S2P Require Import WinPresenters UnicodeTexts WinPresentersTheory.
Import Utf.

(** ** A window system *)

Record Edit := mkEdit { e_text : wide; e_sel : Z * Z; e_read_only : bool }.
#[local] Instance edits : EditControl Edit.
Proof.
  refine {| GetWindowText := e_text; edit_selection := e_sel;
            SetWindowText e t := mkEdit t (0, 0) (e_read_only e);
            SetSelection e a b := mkEdit (e_text e) (a, b) (e_read_only e);
            SetReadOnly e := mkEdit (e_text e) (e_sel e) true |}; done.
Defined.

Record ListBox := mkListBox { l_items : list wide; l_current : option Z; l_top : option Z }.
#[local] Instance list_boxes : ListControl ListBox.
Proof.
  refine {| lb_items := l_items; lb_current := l_current; lb_top := l_top;
            LB_DELETESTRING l i := mkListBox (take i (l_items l) ++ drop (S i) (l_items l)) None (l_top l);
            LB_INSERTSTRING l i t :=
              mkListBox (take i (l_items l) ++ t :: drop i (l_items l)) (l_current l) (l_top l);
            LB_ADDSTRING l t := mkListBox (l_items l ++ [t]) (l_current l) (l_top l);
            LB_RESETCONTENT l := mkListBox [] None None;
            LB_SETCURSEL l i := mkListBox (l_items l) (Some i) (l_top l);
            LB_SETTOPINDEX l i := mkListBox (l_items l) (l_current l) (Some i) |}; done.
Defined.

(** The borders take 8 at each side and 30 at the top. *)
Record Window := mkWin { w_rect : Rect; w_title : wide }.
#[local] Instance windows : NativeWindow Window := {|
  GetWindowRect := w_rect;
  GetClientRect w := mkRect 0 0 (right (w_rect w) - left (w_rect w) - 16)
                       (bottom (w_rect w) - top (w_rect w) - 38);
  SetWindowPos w x y cx cy := mkWin (mkRect x y (x + cx) (y + cy)) (w_title w);
  SetWindowTitle w t := mkWin (w_rect w) t;
  AdjustWindowRectEx r := mkRect (left r - 8) (top r - 30) (right r + 8) (bottom r + 8)
|}.

(** ** Edit boxes *)

Definition edit_node (text : string) (caret generation : Z) : UiEditBox :=
  set_generation (new_node 7 None (mkEditBox text caret false)) generation.
Definition edit_presenter : EditBoxPresenter Edit :=
  mkEditPresenter (Some (mkEdit [] (0, 0) false)) 101 true false false 0.
Definition edit_model : UiEditBox := fresh 7 (mkEditBox "" 0 false).
Definition the_clock (i : nat) : Readings := λ _, 1000.

Lemma edit_box_follows_mirror_witness :
  let p' := (SyncFromMirror_edit edit_presenter (Some (7, edit_node "hi" 1 3))).1 in
  (SyncFromMirror_edit edit_presenter (Some (7, edit_node "hi" 1 3))).2 = [] ∧
  shows_mirror p' (edit_node "hi" 1 3) ∧ applying_mirror_text_ p' = false ∧
  SyncFromMirror_edit p' (Some (7, edit_node "hi" 1 3)) = (p', []).
Proof.
  apply (edit_box_follows_mirror edit_presenter 7 (edit_node "hi" 1 3) (mkEdit [] (0, 0) false));
    [reflexivity| |reflexivity].
  split; [vm_compute; reflexivity|]. apply (bool_decide_unpack (_ ∉ _)). vm_compute. exact I.
Defined.

(** A text with letters of two and four bytes, the caret after the last but one. *)
Definition greeting : wide := [104; 228; 55357; 56832; 33].

Lemma typing_comes_back_witness :
  let reported := if 65535 <? 4 then 65535 else 4 in
  let '(p1, calls) := type_edit edit_presenter greeting 4 (Some (7, edit_model)) in
  calls = [SubmitText 7 (WideToUtf8 greeting) (Utf8OffsetFromWideCaret greeting reported)] ∧
  ∃ m, UiObjects.SubmitTextFromUi edit_model (WideToUtf8 greeting)
         (Utf8OffsetFromWideCaret greeting reported) the_clock = Some m ∧
  ∀ mirror, fields mirror = fields m →
  let '(p2, calls2) := SyncFromMirror_edit p1 (Some (7, mirror)) in
  calls2 = [] ∧
  ∃ e2 x, edit_hwnd p2 = Some e2 ∧ GetWindowText e2 = greeting ∧ edit_selection e2 = (x, x) ∧
    (x = 4 ∨ x = reported).
Proof.
  apply (typing_comes_back edit_presenter 7 greeting 4 edit_model (mkEdit [] (0, 0) false) 0 the_clock);
    try (vm_compute; (reflexivity || (split; discriminate) || discriminate)).
  - apply (bool_decide_unpack (is_units greeting)). vm_compute. exact I.
  - apply (bool_decide_unpack (0 ∉ greeting)). vm_compute. exact I.
  - apply fresh_budget. vm_compute. reflexivity.
  - intros i j. vm_compute. split; reflexivity.
Defined.

Example greeting_submitted :
  (type_edit edit_presenter greeting 4 (Some (7, edit_model))).2 =
    [SubmitText 7 (string_of_bytes [104; 195; 164; 240; 159; 152; 128; 33]) 7].
Proof. vm_compute. reflexivity. Qed.

(** A text with a unit 0 ends there in the control, and is set again at each update. *)
Example text_with_nul :
  let w := [97; 0; 98] in
  match SyncFromMirror_edit edit_presenter (Some (7, edit_node (string_of_bytes w) 3 1)) with
  | (p, _) => GetWindowText <$> edit_hwnd p
  end = Some [97].
Proof. vm_compute. reflexivity. Qed.

(** The publication of a text is applied after the user has typed on: what was typed is gone from
    the control until the next publication. *)
Example typed_text_is_overwritten :
  let p := (SyncFromMirror_edit edit_presenter (Some (7, edit_node "" 0 1))).1 in
  let '(p, calls) := type_edit p (bytes_of_string "a") 1 (Some (7, edit_node "" 0 1)) in
  let '(p, calls') := type_edit p (bytes_of_string "ab") 2 (Some (7, edit_node "" 0 1)) in
  let p := (SyncFromMirror_edit p (Some (7, edit_node "a" 1 2))).1 in
  let '(_, calls'') := type_edit p (bytes_of_string "ac") 2 (Some (7, edit_node "a" 1 2)) in
  (GetWindowText <$> edit_hwnd p) = Some (bytes_of_string "a") ∧
  calls ++ calls' ++ calls'' = [SubmitText 7 "a" 1; SubmitText 7 "ab" 2; SubmitText 7 "ac" 2].
Proof. vm_compute. done. Qed.

(** [EM_GETSEL] gives 16 bits: a caret after the unit 65535 is submitted as 65535. *)
Example long_text_caret : HIWORD (EM_GETSEL (70000, 70000)) = 65535.
Proof. vm_compute. reflexivity. Qed.

(** ** Windows *)

Definition the_window : Window := mkWin (mkRect 100 100 916 738) [].
Definition window_presenter : DesktopWindowPresenter Window :=
  mkDesktopPresenter (Some the_window) true false false.
Definition moved (x : Z) : Window := mkWin (mkRect x 50 (x + 816) 688) [].
Definition window_model : UiDesktopWindow := fresh 9 default_window.

Lemma requested_frame_is_not_echoed_witness :
  let f := mkWindow 10 20 640 480 false in
  ∃ p', ApplyRequestedFrameFromMirror (E := Edit) (L := ListBox) None window_presenter (Some (9, f)) =
      Some (p', []) ∧
    ReadNativeClientFrame p' = mirror_frame f ∧
    interactive_move_active_ p' = false ∧ applying_native_frame_ p' = false ∧
    ApplyRequestedFrameFromMirror (E := Edit) (L := ListBox) None p' (Some (9, f)) = Some (p', []).
Proof.
  intros f. apply (requested_frame_is_not_echoed None window_presenter 9 f the_window);
    vm_compute; reflexivity.
Defined.

Lemma user_move_settles_witness :
  let fr := ReadModelFrameFromHwnd (moved 300) in
  ∃ p', user_moves (E := Edit) (L := ListBox) None window_presenter (Some (9, fields window_model))
          ([moved 110; moved 200] ++ [moved 300]) =
    Some (p', [SubmitFrame 9 (frame_x fr) (frame_y fr) (client_width fr) (client_height fr)]) ∧
  ∃ m, UiObjects.SubmitFrameFromNative window_model (frame_x fr) (frame_y fr) (client_width fr)
         (client_height fr) (the_clock 0) = Some m ∧
    mirror_frame (fields m) = fr ∧
    ApplyRequestedFrameFromMirror (E := Edit) (L := ListBox) None p' (Some (9, fields m)) = Some (p', []).
Proof.
  apply (user_move_settles None window_presenter 9 [moved 110; moved 200] (moved 300) window_model 0);
    try (vm_compute; (reflexivity || discriminate)).
  - apply fresh_budget. vm_compute. reflexivity.
  - intros j. vm_compute. split; reflexivity.
Defined.

(** ** Lists *)

Definition row_texts (id : Z) : option LocalizationFields :=
  if id =? 3 then None
  else Some (mkLocalization [Some (10 * id); Some (10 * id + 1)]
               {[10 := "one"; 11 := "eins"; 20 := "two"; 21 := "zwei"]}).
Definition the_list : ListFields := mkList [Some 1; Some 3; None; Some 2].
Definition list_presenter (items : list string) : ListContainerPresenter ListBox :=
  mkListPresenter (Some (mkListBox (bytes_of_string <$> items) (Some 1) (Some 0))) 5 true false.

Lemma list_follows_mirror_witness :
  let desired := texts_of row_texts the_list (Some (mkLocale 1)) in
  desired = [bytes_of_string "eins"; bytes_of_string "zwei"] ∧
  ∃ l', list_hwnd (SyncFromMirror_list row_texts (list_presenter ["one"; "two"]) (Some (6, the_list))
                     (Some (mkLocale 1))) = Some l' ∧
    lb_items l' = desired ∧
    (∀ s, lb_current (mkListBox (bytes_of_string <$> ["one"; "two"]) (Some 1) (Some 0)) = Some s →
       0 ≤ s < zlen desired → false = false → lb_current l' = Some s) ∧
    (∀ lo, Some (mkLocale 1) = Some lo → false = true →
       length (lb_items (mkListBox (bytes_of_string <$> ["one"; "two"]) (Some 1) (Some 0))) ≠
         length desired → 0 ≤ language_index_ lo < zlen desired →
       lb_current l' = Some (language_index_ lo)).
Proof.
  split; [vm_compute; reflexivity|].
  apply (list_follows_mirror row_texts (list_presenter ["one"; "two"])
    (mkListBox (bytes_of_string <$> ["one"; "two"]) (Some 1) (Some 0)) 6 the_list (Some (mkLocale 1))); [reflexivity|].
  apply (bool_decide_unpack (Forall _ _)). vm_compute. exact I.
Defined.

(** A label whose text is not set is created without a caption, and its next update reads through
    a null pointer. *)
Example label_without_text :
  OnLoad_label None true true (Some None) (Some (mkLocale 0)) = Some [] ∧
  SyncFromMirror_label (Some []) (Some None) (Some (mkLocale 0)) = None.
Proof. done. Qed.
