(* ===== verification/MonitorLog.v ===== *)
(** * The log of the presence monitor

    Models [JsonlLog] of examples/aether_presence_monitor/main.cpp: each entry is a line with a
    JSON object.  The reader of such a line, a part of the grammar of JSON, is the
    specification. *)
From Stdlib Require Import Ascii.
From stdpp Require Import pretty.
From S2P Require Import Prelude.

Local Open Scope string_scope.
Abbreviation char := Ascii.ascii.

Definition quote : char := Ascii.ascii_of_nat 34.
Definition backslash : char := Ascii.ascii_of_nat 92.
Definition newline : char := Ascii.ascii_of_nat 10.

Fixpoint Escape (s : string) : string :=
  match s with
  | EmptyString => EmptyString
  | String c s =>
      if Ascii.eqb c backslash || Ascii.eqb c quote
      then String backslash (String c (Escape s)) else String c (Escape s)
  end.

Definition is_digit (c : char) : bool :=
  let n := Ascii.N_of_ascii c in (48 <=? n)%N && (n <=? 57)%N.

Fixpoint all_chars (f : char → bool) (s : string) : bool :=
  match s with EmptyString => true | String c s => f c && all_chars f s end.

(** Starts with a digit, and has no character other than digits and [-]. *)
Definition looks_numeric (v : string) : bool :=
  match v with
  | EmptyString => false
  | String c _ => is_digit c && all_chars (λ c, is_digit c || Ascii.eqb c "-"%char) v
  end.

Definition quoted (s : string) : string := String quote (s ++ String quote EmptyString).

Definition write_value (v : string) : string :=
  if String.eqb v "true" || String.eqb v "false" then v
  else if looks_numeric v then v else quoted (Escape v).

(** [qpc], [frequency]: [MonotonicClock]. *)
Definition Write_line (qpc frequency : Z) (event label : string) (fields : list (string * string))
    : string :=
  let line := "{" ++ quoted "event" ++ ":" ++ quoted (Escape event) ++ "," ++ quoted "qpc" ++ ":" ++
    pretty qpc ++ "," ++ quoted "qpc_frequency" ++ ":" ++ pretty frequency ++ "," ++
    quoted "label" ++ ":" ++ quoted (Escape label) in
  let line := foldl (λ line '(key, value),
    line ++ "," ++ quoted (Escape key) ++ ":" ++ write_value value) line fields in
  line ++ "}" ++ String newline EmptyString.

(** ** Reading a line *)

Inductive Json := JString (s : string) | JToken (s : string).

(** A character that JSON has in a string as it is. *)
Definition plain (c : char) : bool := (32 <=? Ascii.N_of_ascii c)%N.

(** After the opening quote: the text, and what follows the closing quote. *)
Fixpoint read_chars (s : string) : option (string * string) :=
  match s with
  | EmptyString => None
  | String c s =>
      if Ascii.eqb c quote then Some ("", s)
      else if Ascii.eqb c backslash then
        match s with
        | EmptyString => None
        | String d s =>
            if Ascii.eqb d quote || Ascii.eqb d backslash
            then '(t, r) ← read_chars s; Some (String d t, r) else None
        end
      else if plain c then '(t, r) ← read_chars s; Some (String c t, r) else None
  end.

Definition read_char (c : char) (s : string) : option string :=
  match s with String d s => if Ascii.eqb c d then Some s else None | EmptyString => None end.

Definition read_string (s : string) : option (string * string) := s ← read_char quote s; read_chars s.

(** A natural number: without a leading zero. *)
Definition json_number (t : string) : bool :=
  match t with
  | EmptyString => false
  | String c t' => all_chars is_digit t && (String.eqb t' "" || negb (Ascii.eqb c "0"%char))
  end.

Definition ends_token (c : char) : bool := Ascii.eqb c ","%char || Ascii.eqb c "}"%char.
Fixpoint read_token (s : string) : string * string :=
  match s with
  | EmptyString => ("", "")
  | String c r => if ends_token c then ("", s) else let '(t, r) := read_token r in (String c t, r)
  end.

Definition read_value (s : string) : option (Json * string) :=
  match read_string s with
  | Some (t, r) => Some (JString t, r)
  | None =>
      let '(t, r) := read_token s in
      if String.eqb t "true" || String.eqb t "false" || json_number t then Some (JToken t, r) else None
  end.

Definition read_member (s : string) : option (string * Json * string) :=
  '(k, s) ← read_string s; s ← read_char ":"%char s; '(v, s) ← read_value s; Some (k, v, s).

(** After a member: the end of the object and of the line, or the next member. *)
Fixpoint read_members (fuel : nat) (s : string) : option (list (string * Json)) :=
  match fuel with
  | O => None
  | S fuel =>
      '(m, s) ← read_member s;
      match read_char ","%char s with
      | Some s => ms ← read_members fuel s; Some (m :: ms)
      | None => s ← read_char "}"%char s; s ← read_char newline s;
                if String.eqb s "" then Some [m] else None
      end
  end.

Definition read_line (s : string) : option (list (string * Json)) :=
  s ← read_char "{"%char s; read_members (S (String.length s)) s.

(** ** Theorems *)

Local Arguments String.append !_ _ /.

Definition plain_text (s : string) : bool := all_chars plain s.

(** What the line has for a value. *)
Definition json_of (v : string) : Json :=
  if String.eqb v "true" || String.eqb v "false" || looks_numeric v then JToken v else JString v.

Definition field_ok (f : string * string) : Prop :=
  plain_text f.1 = true ∧ plain_text f.2 = true ∧ (looks_numeric f.2 = true → json_number f.2 = true).

Lemma append_assoc (a b c : string) : (a ++ b) ++ c = a ++ (b ++ c).
Proof. induction a as [|x a IH]; [done|]. simpl. by rewrite IH. Qed.

Lemma read_chars_escape s r :
  plain_text s = true → read_chars (Escape s ++ String quote r) = Some (s, r).
Proof.
  induction s as [|c s IH]; [done|]. simpl. intros [Hc Hs]%andb_prop.
  destruct (Ascii.eqb c backslash || Ascii.eqb c quote) eqn:He; simpl.
  - rewrite orb_comm in He. rewrite He, (IH Hs). done.
  - apply orb_false_iff in He as [-> ->]. by rewrite Hc, (IH Hs).
Qed.

Lemma read_string_quoted s r :
  plain_text s = true → read_string (quoted (Escape s) ++ r) = Some (s, r).
Proof.
  intros Hs. unfold read_string, quoted. simpl. rewrite append_assoc. by apply read_chars_escape.
Qed.

(** Tokens have none of the characters that end one. *)
Lemma read_token_all (f : char → bool) t r c :
  (∀ c, f c = true → ends_token c = false) → all_chars f t = true → ends_token c = true →
  read_token (t ++ String c r) = (t, String c r).
Proof.
  intros Hf Ht Hc. induction t as [|x t IH]; simpl in *; [by rewrite Hc|].
  apply andb_prop in Ht as [Hx Ht]. by rewrite (Hf x Hx), (IH Ht).
Qed.

Lemma is_digit_token c : is_digit c = true → ends_token c = false.
Proof.
  unfold is_digit, ends_token. destruct (Ascii.eqb_spec c ","%char) as [->|_]; [done|].
  by destruct (Ascii.eqb_spec c "}"%char) as [->|_].
Qed.

Definition token (t : string) : bool := String.eqb t "true" || String.eqb t "false" || json_number t.

Lemma read_value_token t c r :
  token t = true → ends_token c = true → read_value (t ++ String c r) = Some (JToken t, String c r).
Proof.
  intros Ht Hc. unfold read_value.
  assert (Hs : read_string (t ++ String c r) = None ∧ read_token (t ++ String c r) = (t, String c r)).
  { unfold token in Ht. destruct (String.eqb_spec t "true") as [->|_].
    { split; [done|]. simpl. by rewrite Hc. }
    destruct (String.eqb_spec t "false") as [->|_].
    { split; [done|]. simpl. by rewrite Hc. }
    simpl in Ht. unfold json_number in Ht. destruct t as [|x t]; [done|].
    apply andb_prop in Ht as [Ht _]. split.
    - cbn [all_chars] in Ht. apply andb_prop in Ht as [Hx _].
      unfold read_string, read_char. cbn [String.append].
      destruct (Ascii.eqb quote x) eqn:E; [|done]. by apply Ascii.eqb_eq in E as <-.
    - by apply (read_token_all is_digit _ _ _ is_digit_token). }
  destruct Hs as [-> ->]. fold (token t). by rewrite Ht.
Qed.

Lemma read_value_written v c r :
  plain_text v = true → (looks_numeric v = true → json_number v = true) → ends_token c = true →
  read_value (write_value v ++ String c r) = Some (json_of v, String c r).
Proof.
  intros Hp Hn Hc. unfold write_value, json_of.
  destruct (String.eqb v "true" || String.eqb v "false") eqn:Hb; simpl.
  { apply read_value_token; [|done]. unfold token. by rewrite Hb. }
  destruct (looks_numeric v) eqn:Hl.
  { apply read_value_token; [|done]. unfold token. by rewrite (Hn eq_refl), orb_true_r. }
  unfold read_value. by rewrite read_string_quoted.
Qed.

(** Members, as they are written. *)
Definition member_text (k v : string) : string := quoted (Escape k) ++ ":" ++ v.

Lemma read_member_written k (v : string) j c r :
  plain_text k = true → read_value (v ++ String c r) = Some (j, String c r) →
  read_member (member_text k v ++ String c r) = Some (k, j, String c r).
Proof.
  intros Hk Hv. unfold read_member, member_text. rewrite !append_assoc, read_string_quoted by done.
  cbn [mbind option_bind]. unfold read_char. cbn [String.append Ascii.eqb Bool.eqb]. simpl. by rewrite Hv.
Qed.

(** Members that are each followed by what ends a token. *)
Fixpoint members_text (l : list (string * string)) : string :=
  match l with
  | [] => ""
  | [(k, t)] => member_text k t
  | (k, t) :: l => member_text k t ++ "," ++ members_text l
  end.

Definition member_ok (m : string * string) (j : Json) : Prop :=
  plain_text m.1 = true ∧
  ∀ c r, ends_token c = true → read_value (m.2 ++ String c r) = Some (j, String c r).

Lemma read_members_written ms : ∀ js fuel,
  Forall2 member_ok ms js → ms ≠ [] → (length ms ≤ fuel)%nat →
  read_members fuel (members_text ms ++ "}" ++ String newline "") = Some (zip ms.*1 js).
Proof.
  induction ms as [|[k t] ms IH]; intros js fuel Hok Hne Hf; [done|].
  inversion Hok as [|? j ? js' [Hk Ht] Hrest]; subst. destruct fuel as [|fuel]; [simpl in Hf; lia|].
  simpl in Hk, Ht, Hf. destruct ms as [|m ms].
  - inversion Hrest; subst. cbn [members_text read_members].
    change ("}" ++ String newline "") with (String "}"%char (String newline "")).
    rewrite (read_member_written k t j) by auto. reflexivity.
  - change (members_text ((k, t) :: m :: ms)) with (member_text k t ++ "," ++ members_text (m :: ms)).
    cbn [read_members]. rewrite !append_assoc.
    change ("," ++ members_text (m :: ms) ++ "}" ++ String newline "")
      with (String ","%char (members_text (m :: ms) ++ "}" ++ String newline "")).
    rewrite (read_member_written k t j) by auto. cbn [mbind option_bind].
    change (read_char ","%char (String ","%char (members_text (m :: ms) ++ "}" ++ String newline "")))
      with (Some (members_text (m :: ms) ++ "}" ++ String newline "")).
    cbv iota beta.
    rewrite (IH js' fuel Hrest) by (done || lia). done.
Qed.

(** Numbers, as [std::to_string] writes them. *)
Lemma pretty_N_char_digit x : is_digit (pretty_N_char x) = true.
Proof. unfold pretty_N_char. by repeat case_match. Qed.

Lemma pretty_N_go_number x : ∀ s, (0 < x)%N → all_chars is_digit s = true →
  ∃ c t, pretty_N_go x s = String c t ∧ all_chars is_digit (String c t) = true ∧ c ≠ "0"%char.
Proof.
  induction (N.lt_wf_0 x) as [x _ IH]; intros s Hx Hs. rewrite pretty_N_go_step by done.
  assert (Hs' : all_chars is_digit (String (pretty_N_char (x `mod` 10)) s) = true)
    by (cbn [all_chars]; by rewrite pretty_N_char_digit).
  destruct (decide (x < 10)%N) as [Hlt|Hge].
  - rewrite N.div_small, pretty_N_go_0 by done. eexists _, _. split; [done|]. split; [done|].
    rewrite N.mod_small by done.
    assert (x = 1 ∨ x = 2 ∨ x = 3 ∨ x = 4 ∨ x = 5 ∨ x = 6 ∨ x = 7 ∨ x = 8 ∨ x = 9)%N as H by lia.
    by repeat (destruct H as [->|H]; [done|]); subst.
  - apply IH; [by apply N.div_lt|apply N.div_str_pos; lia|done].
Qed.

Lemma json_number_pretty (z : Z) : (0 ≤ z)%Z → json_number (pretty z) = true.
Proof.
  intros Hz. destruct z as [|p|p]; [done| |lia].
  change (pretty (Zpos p)) with (pretty (Npos p)). unfold pretty, pretty_N. rewrite decide_False by done.
  destruct (pretty_N_go_number (Npos p) "") as (c & t & -> & Hd & Hc); [lia|done|].
  unfold json_number. rewrite Hd. destruct (Ascii.eqb_spec c "0"%char); [done|]. by rewrite orb_true_r.
Qed.

Definition header (qpc frequency : Z) (event label : string) : list (string * string) :=
  [("event", quoted (Escape event)); ("qpc", pretty qpc); ("qpc_frequency", pretty frequency);
   ("label", quoted (Escape label))].

Lemma members_text_app l m k t :
  members_text ((l ++ [m]) ++ [(k, t)])%list = members_text (l ++ [m])%list ++ "," ++ member_text k t.
Proof.
  induction l as [|[k' t'] l IH]; [by destruct m|].
  assert (H : ∀ x : list (string * string), members_text ((k', t') :: (l ++ [m]) ++ x)%list =
    member_text k' t' ++ "," ++ members_text ((l ++ [m]) ++ x)%list).
  { intros x. by destruct l. }
  cbn [app]. rewrite H, IH. specialize (H []). rewrite !app_nil_r in H. rewrite H. by rewrite !append_assoc.
Qed.

Lemma Write_line_members qpc frequency event label fields :
  Write_line qpc frequency event label fields =
  "{" ++ members_text (header qpc frequency event label ++ ((λ f, (f.1, write_value f.2)) <$> fields))%list
      ++ "}" ++ String newline "".
Proof.
  unfold Write_line.
  transitivity (("{" ++ members_text (header qpc frequency event label ++
    ((λ f, (f.1, write_value f.2)) <$> fields))%list) ++ "}" ++ String newline ""); [|done].
  apply (f_equal (λ x, x ++ "}" ++ String newline "")).
  assert (H : ∀ l m fs, foldl (λ line '(key, value),
      line ++ "," ++ quoted (Escape key) ++ ":" ++ write_value value) ("{" ++ members_text (l ++ [m])%list) fs =
    "{" ++ members_text ((l ++ [m]) ++ ((λ f : string * string, (f.1, write_value f.2)) <$> fs))%list).
  { intros l m fs. revert l m. induction fs as [|[k v] fs IH]; intros l m.
    { cbn. by rewrite app_nil_r. }
    cbn [foldl fmap list_fmap fst snd]. specialize (IH (l ++ [m])%list (k, write_value v)).
    rewrite <-(app_assoc (l ++ [m])%list) in IH. cbn [app] in IH. rewrite <-IH.
    rewrite members_text_app. unfold member_text. by rewrite !append_assoc. }
  change (header qpc frequency event label) with
    ([("event", quoted (Escape event)); ("qpc", pretty qpc); ("qpc_frequency", pretty frequency)] ++
     [("label", quoted (Escape label))])%list.
  rewrite <-H. apply (f_equal (λ x, foldl _ x fields)).
  cbn [members_text app]. unfold member_text, quoted. cbn [Escape]. simpl. by rewrite ?append_assoc.
Qed.

Lemma member_ok_quoted k s : plain_text k = true → plain_text s = true →
  member_ok (k, quoted (Escape s)) (JString s).
Proof. intros Hk Hs. split; [done|]. intros c r _. unfold read_value. cbn [snd]. by rewrite read_string_quoted. Qed.

Lemma member_ok_number k (z : Z) : plain_text k = true → (0 ≤ z)%Z →
  member_ok (k, pretty z) (JToken (pretty z)).
Proof.
  intros Hk Hz. split; [done|]. intros c r Hc. apply read_value_token; [|done].
  unfold token. by rewrite json_number_pretty, orb_true_r.
Qed.

Lemma length_append (a b : string) : String.length (a ++ b) = (String.length a + String.length b)%nat.
Proof. induction a as [|c a IH]; [done|]. simpl. by rewrite IH. Qed.

Lemma members_text_length ms : (length ms ≤ String.length (members_text ms))%nat.
Proof.
  induction ms as [|[k t] ms IH]; [done|]. destruct ms as [|m ms].
  - unfold members_text, member_text, quoted. simpl. lia.
  - change (members_text ((k, t) :: m :: ms)) with (member_text k t ++ "," ++ members_text (m :: ms)).
    rewrite !length_append. cbn [String.length length] in *. lia.
Qed.

(** A line of the log is read back: for texts without control characters and values that
    are numbers if they look like it, a reader of JSON finds one object with the event, the
    counter, the label and the fields in their order, each as it was given, and nothing after
    the end of the line. *)
Theorem line_reads_back (qpc frequency : Z) event label fields :
  (0 ≤ qpc)%Z → (0 ≤ frequency)%Z → plain_text event = true → plain_text label = true →
  Forall field_ok fields →
  read_line (Write_line qpc frequency event label fields) =
    Some ([("event", JString event); ("qpc", JToken (pretty qpc));
           ("qpc_frequency", JToken (pretty frequency)); ("label", JString label)] ++
          ((λ f, (f.1, json_of f.2)) <$> fields))%list.
Proof.
  intros Hq Hf He Hl Hfields. rewrite Write_line_members.
  set (ms := (header qpc frequency event label ++ _)%list).
  set (js := ([JString event; JToken (pretty qpc); JToken (pretty frequency); JString label] ++
              ((λ f : string * string, json_of f.2) <$> fields))%list).
  assert (Hok : Forall2 member_ok ms js).
  { apply Forall2_app.
    - apply Forall2_cons_2; [by apply member_ok_quoted|]. apply Forall2_cons_2; [by apply member_ok_number|].
      apply Forall2_cons_2; [by apply member_ok_number|]. apply Forall2_cons_2; [by apply member_ok_quoted|done].
    - apply Forall2_fmap, Forall_Forall2_diag. eapply list.Forall_impl; [exact Hfields|].
      intros [k v] (Hk & Hv & Hn). split; [done|]. intros c r Hc. by apply read_value_written. }
  change (read_line ("{" ++ members_text ms ++ "}" ++ String newline ""))
    with (read_members (S (String.length (members_text ms ++ "}" ++ String newline "")))
            (members_text ms ++ "}" ++ String newline "")).
  rewrite (read_members_written ms js); [|done|done|].
  - f_equal. unfold ms, js. cbn [header app fmap list_fmap fst zip zip_with]. repeat f_equal.
    clear. induction fields as [|[k v] fields IH]; [done|]. cbn. by f_equal.
  - rewrite !length_append. pose proof (members_text_length ms). lia.
Qed.

Module Examples.
Definition a_result : list (string * string) :=
  [("success", "true"); ("state", "On\line"); ("query_id", "17"); ("next_deadline_delta_ms", "-1")].

(** The age that is not known, -1, is a text in the log; ages that are known are numbers. *)
Lemma line_reads_back_witness :
  read_line (Write_line 1000 10 "REMOTE_QUERY_RESULT" "A" a_result) =
    Some [("event", JString "REMOTE_QUERY_RESULT"); ("qpc", JToken "1000");
          ("qpc_frequency", JToken "10"); ("label", JString "A"); ("success", JToken "true");
          ("state", JString "On\line"); ("query_id", JToken "17");
          ("next_deadline_delta_ms", JString "-1")].
Proof.
  rewrite (line_reads_back 1000 10 "REMOTE_QUERY_RESULT" "A" a_result); try reflexivity; try lia.
  repeat (constructor; [repeat split; discriminate || reflexivity|]). constructor.
Defined.

(** A uid of digits and dashes is written as a bare token, which is not JSON. *)
Example uid_of_digits :
  read_line (Write_line 1000 10 "AETHER_UID_READY" "A" [("uid", "12345678-0000-4970-8700-000000000000")]) = None.
Proof. vm_compute. reflexivity. Qed.

(** So is a line break in a text: it ends the line. *)
Example label_with_line_break :
  read_line (Write_line 1000 10 "APP_STARTED" (String newline "A") []) = None.
Proof. vm_compute. reflexivity. Qed.
End Examples.
