(* ===== verification/PresenceMonitor.v ===== *)
(** * The presence monitor

    Models examples/aether_presence_monitor/main.cpp: a window that shows whether this client is
    online, by polling the connectivity policy of the network client, and whether another one
    is, by queries.  The network client is not part of the repository: its readings and
    the results of its actions are inputs of the handlers, and calls of it are effects, in the
    order in which they are made.  The lines of the log are those of MonitorLog.v, with the label of the
    command line. *)
From stdpp Require Import pretty.
From S2P Require Import Prelude WinPresenters.

(** ** The command line *)

Record Args := mkArgs {
  register_only : bool; monitor : bool; remote_queries_enabled : bool;
  state_dir : string; id_out : string; peer_id : string; label : string;
  log_path : string; client_name : string;
  window_x : Z; window_y : Z; ping_ms : Z; window_ms : Z; query_period_ms : Z; auto_exit_sec : Z
}.
Definition new_args : Args := mkArgs false false true "" "" "" "" "" "" 100 100 1000 1000 1000 0.

(** What is set by an option with a text, and by one with a number. *)
Inductive TextOption := StateDirOption | IdOut | PeerId | LabelOption | LogOption | ClientName.
Inductive NumberOption := WindowX | WindowY | PingMs | WindowMs | QueryPeriodMs | AutoExitSec.

Definition set_text (o : TextOption) (v : string) (a : Args) : Args :=
  let sel p old := if (p : bool) then v else old in
  mkArgs (register_only a) (monitor a) (remote_queries_enabled a)
    (sel (match o with StateDirOption => true | _ => false end) (state_dir a))
    (sel (match o with IdOut => true | _ => false end) (id_out a))
    (sel (match o with PeerId => true | _ => false end) (peer_id a))
    (sel (match o with LabelOption => true | _ => false end) (label a))
    (sel (match o with LogOption => true | _ => false end) (log_path a))
    (sel (match o with ClientName => true | _ => false end) (client_name a))
    (window_x a) (window_y a) (ping_ms a) (window_ms a) (query_period_ms a) (auto_exit_sec a).

Definition set_number (o : NumberOption) (v : Z) (a : Args) : Args :=
  let sel p old := if (p : bool) then v else old in
  mkArgs (register_only a) (monitor a) (remote_queries_enabled a) (state_dir a) (id_out a) (peer_id a)
    (label a) (log_path a) (client_name a)
    (sel (match o with WindowX => true | _ => false end) (window_x a))
    (sel (match o with WindowY => true | _ => false end) (window_y a))
    (sel (match o with PingMs => true | _ => false end) (ping_ms a))
    (sel (match o with WindowMs => true | _ => false end) (window_ms a))
    (sel (match o with QueryPeriodMs => true | _ => false end) (query_period_ms a))
    (sel (match o with AutoExitSec => true | _ => false end) (auto_exit_sec a)).

Definition set_flags (r m q : bool) (a : Args) : Args :=
  mkArgs r m q (state_dir a) (id_out a) (peer_id a) (label a) (log_path a) (client_name a)
    (window_x a) (window_y a) (ping_ms a) (window_ms a) (query_period_ms a) (auto_exit_sec a).

Inductive OptionKind :=
| Flag (f : Args → Args)
| Text (o : TextOption)
| Number (o : NumberOption)
| NoOption.

Definition units (s : string) : wide := bytes_of_string s.

Definition option_of (key : wide) : OptionKind :=
  let named s := bool_decide (key = units s) in
  if named "--register-only" then Flag (λ a, set_flags true (monitor a) (remote_queries_enabled a) a)
  else if named "--monitor" then Flag (λ a, set_flags (register_only a) true (remote_queries_enabled a) a)
  else if named "--state-dir" then Text StateDirOption
  else if named "--id-out" then Text IdOut
  else if named "--peer-id" then Text PeerId
  else if named "--label" then Text LabelOption
  else if named "--log" then Text LogOption
  else if named "--client-name" then Text ClientName
  else if named "--window-x" then Number WindowX
  else if named "--window-y" then Number WindowY
  else if named "--ping-ms" then Number PingMs
  else if named "--window-ms" then Number WindowMs
  else if named "--query-period-ms" then Number QueryPeriodMs
  else if named "--no-remote-queries" then Flag (λ a, set_flags (register_only a) (monitor a) false a)
  else if named "--auto-exit-sec" then Number AutoExitSec
  else NoOption.

Section command_line.
Context {cp : CodePages} (wtoi : wide → Z).

(** [next()] at the end of the arguments is an empty text. *)
Fixpoint parse_options (args : list wide) (a : Args) : Args :=
  match args with
  | [] => a
  | key :: args =>
      match option_of key with
      | Flag f => parse_options args (f a)
      | Text o => match args with
                  | [] => set_text o (WideToUtf8 []) a
                  | v :: args => parse_options args (set_text o (WideToUtf8 v) a)
                  end
      | Number o => match args with
                    | [] => set_number o (wtoi []) a
                    | v :: args => parse_options args (set_number o (wtoi v) a)
                    end
      | NoOption => parse_options args a
      end
  end.

(** [argv] without the name of the program. *)
Definition ParseArgs (argv : list wide) : Args :=
  let a := parse_options argv new_args in
  if String.eqb (client_name a) "" && negb (String.eqb (label a) "")
  then set_text ClientName ("presence-monitor-" +:+ label a) a else a.
End command_line.

(** ** What the network client reports *)

(** [LocalPresenceDiag]; 0 is a time point that is not set. *)
Record Diag := mkDiag {
  has_schedule : bool; any_online : bool; server_id : Z; last_pong : Z; offline_deadline : Z
}.

Inductive PeerPresenceState := kOnline | kOffline | kUnknown.
#[export] Instance PeerPresenceState_eq_dec : EqDecision PeerPresenceState.
Proof. solve_decision. Defined.

(** [ae::Result<PeerPresence, int>]: an error, or the state with the samples of the action:
    whether the server is online, and [next_ping_delta_ms]. *)
Definition QueryResult : Type := Z + PeerPresenceState * list (bool * Z).

Definition PresenceStateName (s : PeerPresenceState) : string :=
  match s with kOnline => "Online" | kOffline => "Offline" | kUnknown => "Unknown" end.
Definition RemoteOnlineFromPresence (s : PeerPresenceState) : bool := bool_decide (s = kOnline).
Definition LocalReadyForRemoteQuery (d : Diag) : bool := any_online d.

Definition LocalReason (d : Diag) : string :=
  if negb (has_schedule d) then "NO_CONFIRMED_SCHEDULE"
  else if any_online d then "CONFIRMED_SCHEDULE_ONLINE" else "OFFLINE_DETECTION_TIMEOUT".
Definition UserPresenceText (known online : bool) : string :=
  if negb known then "..." else if online then "ONLINE" else "OFFLINE".
Definition LocalUserStatusText (d : Diag) : string :=
  if negb (has_schedule d) then "..." else UserPresenceText true (any_online d).

(** ** The state *)

Inductive Effect :=
| Write (event : string) (fields : list (string * string))
| Console (text : string) (query_id : option Z)
| SelectClient (name : string)
| ApplyRxTimings (ping_ms window_ms : Z)
| QueryPeerPresence (query_id : Z)
| SetLocalText (text : string)
| SetRemoteText (text : string)
| WriteId (uid : string)
| SaveAether
| ExitApp (code : Z)
| DestroyWindow
| PostQuitMessage
| MessageBox (text : string).

Record LocalState := mkLocal {
  local_online : option bool; local_reason : string; local_last_transition_qpc : Z;
  local_offline_transitions : Z; local_online_transitions : Z
}.
Record RemoteState := mkRemote {
  remote_result_online : option bool; remote_display_online : option bool;
  remote_last_transition_qpc : Z; remote_offline_transitions : Z; remote_online_transitions : Z
}.
Record Metrics := mkMetrics { started : Z; completed : Z; errors : Z; watchdog_stuck : Z }.
(** Times are in nanoseconds of the steady clock; 0 is a time that is not set. *)
Record QueryState := mkQueries {
  remote_inflight : bool; active_underlying_query_count : Z; max_active_underlying_queries : Z;
  next_remote_query_id : Z; active_remote_query_id : Z; remote_watchdog_logged : bool;
  remote_query_metrics : Metrics; remote_last_error : string; remote_last_state : string;
  remote_query_started : Z; remote_last_completed : Z; remote_last_successful_query : Z;
  remote_last_online_age_ms : option Z; remote_next_deadline_delta_ms : option Z;
  next_remote_query_at : Z
}.
(** [client]: [session.client] is set. *)
Record MonitorState := mkMonitor {
  args : Args; client : bool; window : bool;
  local : LocalState; remote : RemoteState; queries : QueryState; trace : list Effect
}.

Definition new_local : LocalState := mkLocal None "" 0 0 0.
Definition new_remote : RemoteState := mkRemote None None 0 0 0.
Definition new_queries : QueryState :=
  mkQueries false 0 0 0 0 false (mkMetrics 0 0 0 0) "" "" 0 0 0 None None 0.

Definition set_local (s : MonitorState) l : MonitorState :=
  mkMonitor (args s) (client s) (window s) l (remote s) (queries s) (trace s).
Definition set_remote (s : MonitorState) r : MonitorState :=
  mkMonitor (args s) (client s) (window s) (local s) r (queries s) (trace s).
Definition set_queries (s : MonitorState) q : MonitorState :=
  mkMonitor (args s) (client s) (window s) (local s) (remote s) q (trace s).
Definition set_window (s : MonitorState) b : MonitorState :=
  mkMonitor (args s) (client s) b (local s) (remote s) (queries s) (trace s).
Definition emit (e : Effect) (s : MonitorState) : MonitorState :=
  mkMonitor (args s) (client s) (window s) (local s) (remote s) (queries s) (trace s ++ [e]).

Definition bool_text (b : bool) : string := if b then "true" else "false".
Definition optional_text (v : option Z) : string := match v with Some z => pretty z | None => "-1" end.
Definition kMs : Z := 1000000.
Definition kRemoteQueryTimeout : Z := 15000 * kMs.

Section monitor.
(** [kAetherShaFull]; [to_ms]: [duration_cast] of the client's durations to milliseconds. *)
Context (sha : string) (to_ms : Z → Z).
Implicit Types (s : MonitorState) (d : Diag).

Definition RemoteUserStatusText s : string :=
  match remote_display_online (remote s) with None => "..." | Some b => UserPresenceText true b end.

(** [policy]: the diagnosis of the connectivity policy; [None]: it is not valid. *)
Definition RefreshUi (policy : option Diag) s : MonitorState :=
  if negb (window s) || negb (client s) then s
  else match policy with
       | None => s
       | Some d => emit (SetRemoteText (RemoteUserStatusText s)) (emit (SetLocalText (LocalUserStatusText d)) s)
       end.

Definition WriteRemoteQueryMetrics (event : string) s : MonitorState :=
  let q := queries s in let m := remote_query_metrics q in
  emit (Write event
    [("aether_sha", sha); ("query_started", pretty (started m)); ("query_completed", pretty (completed m));
     ("query_errors", pretty (errors m)); ("query_watchdog_stuck", pretty (watchdog_stuck m));
     ("max_active_underlying_queries", pretty (max_active_underlying_queries q));
     ("active_underlying_query_count", pretty (active_underlying_query_count q))]) s.

Definition with_metrics q m : QueryState :=
  mkQueries (remote_inflight q) (active_underlying_query_count q) (max_active_underlying_queries q)
    (next_remote_query_id q) (active_remote_query_id q) (remote_watchdog_logged q) m
    (remote_last_error q) (remote_last_state q) (remote_query_started q) (remote_last_completed q)
    (remote_last_successful_query q) (remote_last_online_age_ms q) (remote_next_deadline_delta_ms q)
    (next_remote_query_at q).

(** ** Remote queries *)

(** [now]: when the query starts. *)
Definition StartRemoteQuery (now : Z) s : MonitorState :=
  let q := queries s in
  if negb (remote_queries_enabled (args s)) || negb (client s) || String.eqb (peer_id (args s)) "" then s
  else if 0 <? active_underlying_query_count q then s
  else
    let query_id := u32 (next_remote_query_id q + 1) in
    let count := u32 (active_underlying_query_count q + 1) in
    let m := remote_query_metrics q in
    let q := mkQueries true count
      (if max_active_underlying_queries q <? count then count else max_active_underlying_queries q)
      query_id query_id false (mkMetrics (u32 (started m + 1)) (completed m) (errors m) (watchdog_stuck m))
      "" (remote_last_state q) now (remote_last_completed q) (remote_last_successful_query q)
      (remote_last_online_age_ms q) (remote_next_deadline_delta_ms q) (next_remote_query_at q) in
    let s := emit (Console "REMOTE_QUERY_START" (Some query_id)) (set_queries s q) in
    let s := emit (Write "REMOTE_QUERY_SEND"
      [("peer_uid", peer_id (args s)); ("aether_sha", sha); ("query_id", pretty query_id)]) s in
    emit (QueryPeerPresence query_id) s.

(** What [MaybeStartRemoteQuery] reads: the policy, the clock at its tests, the clock at the start. *)
Record Readings3 := mkReadings { at_policy : option Diag; at_test : Z; at_start : Z }.

Definition MaybeStartRemoteQuery (i : Readings3) s : MonitorState :=
  if negb (remote_queries_enabled (args s)) then s
  else if negb (client s) then s
  else match at_policy i with
  | None => s
  | Some d =>
      let q := queries s in
      if negb (LocalReadyForRemoteQuery d) then s
      else if 0 <? active_underlying_query_count q then
        if negb (remote_query_started q =? 0) &&
           (kRemoteQueryTimeout <? at_test i - remote_query_started q) && negb (remote_watchdog_logged q)
        then
          let m := remote_query_metrics q in
          let q := with_metrics q (mkMetrics (started m) (completed m) (errors m) (u32 (watchdog_stuck m + 1))) in
          let q := mkQueries (remote_inflight q) (active_underlying_query_count q)
            (max_active_underlying_queries q) (next_remote_query_id q) (active_remote_query_id q) true
            (remote_query_metrics q) (remote_last_error q) (remote_last_state q) (remote_query_started q)
            (remote_last_completed q) (remote_last_successful_query q) (remote_last_online_age_ms q)
            (remote_next_deadline_delta_ms q) (next_remote_query_at q) in
          let s := emit (Console "REMOTE_QUERY_STUCK" (Some (active_remote_query_id q))) (set_queries s q) in
          emit (Write "REMOTE_QUERY_STUCK"
            [("aether_sha", sha); ("query_id", pretty (active_remote_query_id q));
             ("peer_uid", peer_id (args s))]) s
        else s
      else if bool_decide (is_Some (remote_display_online (remote s))) &&
              negb (next_remote_query_at q =? 0) && (at_test i <? next_remote_query_at q) then s
      else StartRemoteQuery (at_start i) s
  end.

(** With the identifier of the active query. *)
Definition FinishRemoteQuery (query_id : Z) q : QueryState :=
  if negb (query_id =? active_remote_query_id q) then q
  else
    let count := if 0 <? active_underlying_query_count q
                 then active_underlying_query_count q - 1 else active_underlying_query_count q in
    mkQueries (0 <? count) count (max_active_underlying_queries q) (next_remote_query_id q)
      (active_remote_query_id q) false (remote_query_metrics q) (remote_last_error q)
      (remote_last_state q) (remote_query_started q) (remote_last_completed q)
      (remote_last_successful_query q) (remote_last_online_age_ms q) (remote_next_deadline_delta_ms q)
      (next_remote_query_at q).

Definition UpdateRemoteResult (qpc : Z) (online : bool) s : MonitorState :=
  let r := remote s in
  let s :=
    if bool_decide (remote_result_online r = Some online) then s
    else
      let r := match remote_result_online r with
               | None => r
               | Some _ =>
                   if online
                   then mkRemote (remote_result_online r) (remote_display_online r) qpc
                          (remote_offline_transitions r) (u32 (remote_online_transitions r + 1))
                   else mkRemote (remote_result_online r) (remote_display_online r) qpc
                          (u32 (remote_offline_transitions r + 1)) (remote_online_transitions r)
               end in
      emit (Write "REMOTE_STATE"
        [("aether_sha", sha); ("online", bool_text online); ("peer_uid", peer_id (args s))]) (set_remote s r) in
  let r := remote s in
  set_remote s (mkRemote (Some online) (Some online) (remote_last_transition_qpc r)
                  (remote_offline_transitions r) (remote_online_transitions r)).

(** The first sample of a server that is online. *)
Definition first_delta (samples : list (bool * Z)) : option Z := snd <$> head (filter (λ x, x.1 = true) samples).

(** A result that is delivered: the query, the result, and the readings of the handler. *)
Record Delivery := mkDelivery {
  of_query : Z; result : QueryResult; done_at : Z; done_qpc : Z; done_policy : option Diag
}.

(** The handler of [result_event]. *)
Definition on_result (r : Delivery) s : MonitorState :=
  if negb (of_query r =? active_remote_query_id (queries s)) then s
  else
    let q := FinishRemoteQuery (of_query r) (queries s) in
    let duration_ms := Z.quot (done_at r - remote_query_started q) kMs in
    let next_at := done_at r + query_period_ms (args s) * kMs in
    let m := remote_query_metrics q in
    let common := [("peer_uid", peer_id (args s)); ("query_id", pretty (of_query r));
                   ("query_duration_ms", pretty duration_ms)] in
    let s :=
      match result r with
      | inr (presence, samples) =>
          let name := PresenceStateName presence in
          let delta := first_delta samples in
          let s := set_queries s
            (mkQueries (remote_inflight q) (active_underlying_query_count q) (max_active_underlying_queries q)
               (next_remote_query_id q) (active_remote_query_id q) (remote_watchdog_logged q)
               (mkMetrics (started m) (u32 (completed m + 1)) (errors m) (watchdog_stuck m))
               "" name (remote_query_started q) (done_at r) (done_at r) None delta next_at) in
          let online := RemoteOnlineFromPresence presence in
          let s := emit (Console ("REMOTE_QUERY_COMPLETE state=" +:+ name) (Some (of_query r))) s in
          let s := emit (Write "REMOTE_QUERY_RESULT"
            ([("aether_sha", sha); ("success", "true"); ("state", name)] ++ common ++
             [("remote_state", name);
              ("remote_last_online_age_ms", optional_text (remote_last_online_age_ms (queries s)));
              ("next_deadline_delta_ms", optional_text delta)])%list) s in
          let s := UpdateRemoteResult (done_qpc r) online s in
          emit (Console (if online then "REMOTE_GUI_STATUS ONLINE" else "REMOTE_GUI_STATUS OFFLINE") None) s
      | inl error =>
          let text := pretty error in
          let s := set_queries s
            (mkQueries (remote_inflight q) (active_underlying_query_count q) (max_active_underlying_queries q)
               (next_remote_query_id q) (active_remote_query_id q) (remote_watchdog_logged q)
               (mkMetrics (started m) (completed m) (u32 (errors m + 1)) (watchdog_stuck m))
               text (remote_last_state q) (remote_query_started q) (done_at r)
               (remote_last_successful_query q) (remote_last_online_age_ms q)
               (remote_next_deadline_delta_ms q) next_at) in
          let s := emit (Console ("REMOTE_QUERY_ERROR error=" +:+ text) (Some (of_query r))) s in
          emit (Write "REMOTE_QUERY_RESULT"
            ([("aether_sha", sha); ("success", "false"); ("error", text)] ++ common)%list) s
      end in
    RefreshUi (done_policy r) s.

(** ** The local state *)

(** [now]: the client's clock, for the ages in the log. *)
Definition UpdateLocalOnline (d : Diag) (qpc now : Z) (i : Readings3) s : MonitorState :=
  let l := local s in
  let was_ready := bool_decide (local_online l = Some true) in
  let online := any_online d in
  let reason := LocalReason d in
  let start s := if negb was_ready && LocalReadyForRemoteQuery d then MaybeStartRemoteQuery i s else s in
  if bool_decide (local_online l = Some online) then
    start (set_local s (mkLocal (local_online l) reason (local_last_transition_qpc l)
                          (local_offline_transitions l) (local_online_transitions l)))
  else
    let l :=
      match local_online l with
      | None => l
      | Some _ =>
          if online
          then mkLocal (local_online l) (local_reason l) qpc (local_offline_transitions l)
                 (u32 (local_online_transitions l + 1))
          else mkLocal (local_online l) (local_reason l) qpc (u32 (local_offline_transitions l + 1))
                 (local_online_transitions l)
      end in
    let s := set_local s (mkLocal (Some online) reason (local_last_transition_qpc l)
                            (local_offline_transitions l) (local_online_transitions l)) in
    let pong_age := if last_pong d =? 0 then -1 else to_ms (now - last_pong d) in
    let deadline := if offline_deadline d =? 0 then -1 else to_ms (offline_deadline d - now) in
    start (emit (Write "LOCAL_STATE"
      [("aether_sha", sha); ("online", bool_text online); ("reason", reason);
       ("has_schedule", bool_text (has_schedule d)); ("server_id", pretty (server_id d));
       ("last_pong_age_ms", pretty pong_age); ("offline_deadline_delta_ms", pretty deadline)]) s).

Record Poll := mkPoll { poll_policy : option Diag; poll_qpc : Z; poll_now : Z; poll_start : Readings3 }.

Definition PollLocal (p : Poll) s : MonitorState :=
  if negb (client s) then s
  else match poll_policy p with
       | None => s
       | Some d => UpdateLocalOnline d (poll_qpc p) (poll_now p) (poll_start p) s
       end.

(** One turn of the pump: whether the application has ended, the results that its update
    delivers, and the readings after it. *)
Record Turn := mkTurn { exited : bool; deliveries : list Delivery; poll : Poll; at_end : Readings3 }.

Definition PumpAether (t : Turn) s : MonitorState :=
  if exited t then s
  else
    let s := foldl (λ s r, on_result r s) s (deliveries t) in
    let s := PollLocal (poll t) s in
    MaybeStartRemoteQuery (at_end t) s.

(** ** Messages of the window *)

Inductive Message :=
| WM_CREATE (policy : option Diag)
| PumpTimer (t : Turn)
| RefreshTimer (policy : option Diag)
| AutoExitTimer
| WM_DESTROY
| OtherMessage.

Definition OnDestroy s : MonitorState :=
  let s := WriteRemoteQueryMetrics "APP_STOPPED" s in
  let s := emit (Write "APP_STOPPED" [("exit_code", "0")]) s in
  emit PostQuitMessage (emit SaveAether s).

(** [DestroyWindow] sends [WM_DESTROY]. *)
Definition MonitorWndProc (m : Message) s : MonitorState :=
  match m with
  | WM_CREATE policy => RefreshUi policy (set_window s true)
  | PumpTimer t => PumpAether t s
  | RefreshTimer policy => RefreshUi policy s
  | AutoExitTimer =>
      let s := WriteRemoteQueryMetrics "AUTO_EXIT" s in
      let s := emit (Write "AUTO_EXIT"
        [("aether_sha", sha); ("auto_exit_sec", pretty (auto_exit_sec (args s)))]) s in
      OnDestroy (emit DestroyWindow s)
  | WM_DESTROY => OnDestroy s
  | OtherMessage => s
  end.

(** Messages until the window is gone. *)
Definition ends (m : Message) : bool :=
  match m with AutoExitTimer | WM_DESTROY => true | _ => false end.
Fixpoint message_loop (ms : list Message) s : MonitorState :=
  match ms with
  | [] => s
  | m :: ms => if ends m then MonitorWndProc m s else message_loop ms (MonitorWndProc m s)
  end.

(** ** Starting *)

(** [selected]: the result of selecting the client, with its uid; [None]: the application
    ended without one.  [policy]: the client has a connectivity policy. *)
Definition BootstrapClient (a : Args) (selected : option (Z + string)) (policy : bool)
    : bool * option string * list Effect :=
  match selected with
  | None => (false, None, [SelectClient (client_name a)])
  | Some (inl error) =>
      (false, None, [SelectClient (client_name a);
                     Write "SELECT_CLIENT_FAILED" [("error", pretty error)]; ExitApp 1])
  | Some (inr uid) =>
      (true, Some uid,
       [SelectClient (client_name a)] ++
       (if policy then [ApplyRxTimings (ping_ms a) (window_ms a)] else []) ++
       [SaveAether; Write "AETHER_UID_READY" [("uid", uid)]])%list
  end.

Definition RunRegisterOnly (a : Args) (selected : option (Z + string)) (policy : bool)
    : Z * list Effect :=
  if String.eqb (state_dir a) "" || String.eqb (id_out a) ""
  then (2, [MessageBox "Missing --state-dir or --id-out"])
  else
    let first := Write "APP_STARTED" [("mode", "register-only")] in
    match BootstrapClient a selected policy with
    | (true, Some uid, effects) =>
        (0, [first] ++ effects ++ [WriteId uid; SaveAether; Write "APP_STOPPED" [("exit_code", "0")]])%list
    | (_, _, effects) => (3, [first] ++ effects ++ [Write "APP_STOPPED" [("exit_code", "3")]])%list
    end.

(** [created]: the window is created; [ms]: its messages, [WM_CREATE] first. *)
Definition RunMonitor (a : Args) (selected : option (Z + string)) (policy created : bool)
    (ms : list Message) : Z * list Effect :=
  if String.eqb (state_dir a) "" || String.eqb (peer_id a) "" || String.eqb (label a) "" ||
     String.eqb (log_path a) ""
  then (2, [MessageBox "Missing --state-dir, --peer-id, --label, or --log"])
  else
    let first := Write "APP_STARTED"
      [("mode", "monitor"); ("aether_sha", sha); ("ping_ms", pretty (ping_ms a));
       ("window_ms", pretty (window_ms a)); ("query_period_ms", pretty (query_period_ms a));
       ("remote_queries", bool_text (remote_queries_enabled a))] in
    match BootstrapClient a selected policy with
    | (true, _, effects) =>
        if created
        then (0, trace (message_loop ms
               (mkMonitor a true false new_local new_remote new_queries ([first] ++ effects)%list)))
        else (4, [first] ++ effects ++ [Write "APP_STOPPED" [("exit_code", "4")]])%list
    | (false, _, effects) => (3, [first] ++ effects ++ [Write "APP_STOPPED" [("exit_code", "3")]])%list
    end.

Definition wWinMain_monitor (a : Args) (selected : option (Z + string)) (policy created : bool)
    (ms : list Message) : Z * list Effect :=
  if register_only a then RunRegisterOnly a selected policy
  else if monitor a then RunMonitor a selected policy created ms
  else (1, [MessageBox "Usage"]).
End monitor.
