(* ===== verification/PresenceMonitorTheory.v ===== *)
(** * What the presence monitor shows and asks

    The log of a run is the history of the states that were observed, without repetitions; the
    window shows the last result; and queries are made one at a time. *)
From stdpp Require Import pretty.
From S2P Require Import Prelude WinPresenters PresenceMonitor.

(** ** Histories without repetitions *)

Fixpoint changes (prev : option bool) (l : list bool) : list bool :=
  match l with
  | [] => []
  | b :: l => if bool_decide (prev = Some b) then changes prev l else b :: changes (Some b) l
  end.

Definition last_of (prev : option bool) (l : list bool) : option bool :=
  match list.last l with Some b => Some b | None => prev end.

Lemma last_of_cons prev b l : last_of prev (b :: l) = last_of (Some b) l.
Proof. unfold last_of. by destruct l as [|c l]; [|rewrite last_cons; destruct (list.last (c :: l)) eqn:E]. Qed.

Lemma changes_snoc prev l b :
  changes prev (l ++ [b]) =
  changes prev l ++ (if bool_decide (last_of prev l = Some b) then [] else [b]).
Proof.
  revert prev. induction l as [|c l IH]; intros prev.
  { simpl. unfold last_of. simpl. by case_bool_decide. }
  cbn [app changes]. rewrite last_of_cons. case_bool_decide as Hc.
  - subst prev. by rewrite IH.
  - by rewrite IH.
Qed.

Lemma changes_nil l : changes None l = [] ↔ list.last l = None.
Proof. destruct l as [|b l]; [done|]. simpl. split; [done|]. intros H%last_None. done. Qed.

(** How often the state has become [b]: the first observation is not counted. *)
Definition became (b : bool) (l : list bool) : Z := zlen (filter (λ x, x = b) (tail (changes None l))).

Lemma became_snoc b l c :
  became b (l ++ [c]) =
  became b l + (if bool_decide (b = c ∧ list.last l = Some (negb c)) then 1 else 0).
Proof.
  unfold became. rewrite changes_snoc. unfold last_of.
  destruct (list.last l) as [d|] eqn:Hl.
  - assert (Hne : changes None l ≠ []) by (rewrite changes_nil; congruence).
    destruct (changes None l) as [|x ch]; [done|]. cbn [app tail]. rewrite list.filter_app, zlen_app.
    f_equal. destruct b, c, d; reflexivity.
  - apply changes_nil in Hl. rewrite Hl. simpl. destruct b, c; unfold zlen; simpl; lia.
Qed.

(** ** A state that follows its observations *)

(** [current], the counters and the log, after the observations [l]. *)
Record tracks (l : list bool) (current : option bool) (offline online : Z) (logged : list string) : Prop := {
  tracks_current : current = list.last l;
  tracks_offline : offline = u32 (became false l);
  tracks_online : online = u32 (became true l);
  tracks_logged : logged = bool_text <$> changes None l
}.

Lemma tracks_start : tracks [] None 0 0 [].
Proof. by split. Qed.

Lemma u32_succ z : u32 (u32 z + 1) = u32 (z + 1).
Proof. unfold u32. by rewrite Z.add_mod_idemp_l. Qed.

Lemma tracks_same l current offline online logged b :
  tracks l current offline online logged → current = Some b →
  tracks (l ++ [b]) (Some b) offline online logged.
Proof.
  intros [Hc Ho Hn Hl] ->. symmetry in Hc. split.
  - by rewrite last_snoc.
  - rewrite became_snoc, bool_decide_false, Z.add_0_r; [done|]. intros [_ ?]. by destruct b; simplify_eq.
  - rewrite became_snoc, bool_decide_false, Z.add_0_r; [done|]. intros [_ ?]. by destruct b; simplify_eq.
  - rewrite changes_snoc. unfold last_of. rewrite Hc, bool_decide_true by done. by rewrite app_nil_r.
Qed.

Lemma tracks_first l offline online logged b :
  tracks l None offline online logged →
  tracks (l ++ [b]) (Some b) offline online (logged ++ [bool_text b]).
Proof.
  intros [Hc Ho Hn Hl]. symmetry in Hc. split.
  - by rewrite last_snoc.
  - rewrite became_snoc, bool_decide_false, Z.add_0_r; [done|]. intros [_ ?]. congruence.
  - rewrite became_snoc, bool_decide_false, Z.add_0_r; [done|]. intros [_ ?]. congruence.
  - rewrite changes_snoc. unfold last_of. rewrite Hc, bool_decide_false by done. by rewrite fmap_app, Hl.
Qed.

Lemma tracks_change l offline online logged b :
  tracks l (Some (negb b)) offline online logged →
  tracks (l ++ [b]) (Some b) (if b then offline else u32 (offline + 1))
    (if b then u32 (online + 1) else online) (logged ++ [bool_text b]).
Proof.
  intros [Hc Ho Hn Hl]. symmetry in Hc. split.
  - by rewrite last_snoc.
  - rewrite became_snoc, Hc. subst offline. destruct b; simpl; rewrite ?Z.add_0_r, ?u32_succ; done.
  - rewrite became_snoc, Hc. subst online. destruct b; simpl; rewrite ?Z.add_0_r, ?u32_succ; done.
  - rewrite changes_snoc. unfold last_of. rewrite Hc, bool_decide_false by by destruct b.
    by rewrite fmap_app, Hl.
Qed.

(** ** Reading the log *)

Definition field (key : string) (fields : list (string * string)) : option string :=
  snd <$> head (filter (λ f, f.1 = key) fields).
Definition entry (event : string) (e : Effect) : option (list (string * string)) :=
  match e with Write ev fields => if String.eqb ev event then Some fields else None | _ => None end.
Definition entries (event : string) (t : list Effect) : list (list (string * string)) := omap (entry event) t.

Definition local_history (t : list Effect) : list string :=
  omap (field "online") (entries "LOCAL_STATE" t).
Definition remote_history (t : list Effect) : list string :=
  omap (field "online") (entries "REMOTE_STATE" t).
(** Results that have a state. *)
Definition remote_results (t : list Effect) : list bool :=
  (λ name, bool_decide (name = "Online")) <$> omap (field "state") (entries "REMOTE_QUERY_RESULT" t).

(** The queries of a trace: the identifier of the last one, and whether it is unanswered;
    [None]: a query is made while another is unanswered, with an identifier that is not the
    next one, or a result is recorded of another than the last one. *)
Definition ask (a : option (Z * bool)) (e : Effect) : option (Z * bool) :=
  '(n, under_way) ← a;
  match e with
  | QueryPeerPresence id => if negb under_way && (id =? u32 (n + 1)) then Some (id, true) else None
  | _ => match entry "REMOTE_QUERY_RESULT" e with
         | Some fields => if bool_decide (field "query_id" fields = Some (pretty n))
                          then Some (n, false) else None
         | None => Some (n, under_way)
         end
  end.
Definition asked (t : list Effect) : option (Z * bool) := foldl ask (Some (0, false)) t.

Lemma entries_app event t t' : entries event (t ++ t') = entries event t ++ entries event t'.
Proof. apply omap_app. Qed.
Lemma local_history_app t t' : local_history (t ++ t') = local_history t ++ local_history t'.
Proof. unfold local_history. by rewrite entries_app, omap_app. Qed.
Lemma remote_history_app t t' : remote_history (t ++ t') = remote_history t ++ remote_history t'.
Proof. unfold remote_history. by rewrite entries_app, omap_app. Qed.
Lemma remote_results_app t t' : remote_results (t ++ t') = remote_results t ++ remote_results t'.
Proof. unfold remote_results. by rewrite entries_app, omap_app, fmap_app. Qed.
Lemma asked_app t t' : asked (t ++ t') = foldl ask (asked t) t'.
Proof. apply foldl_app. Qed.

Local Arguments local_history : simpl never.
Local Arguments remote_history : simpl never.
Local Arguments remote_results : simpl never.
Local Arguments asked : simpl never.

(** ** The invariant *)

Section invariant.
Context (sha : string) (to_ms : Z → Z).
Implicit Types (s : MonitorState).

(** [obs]: the local states that were polled. *)
Record follows (obs : list bool) (s : MonitorState) : Prop := {
  follows_local : tracks obs (local_online (local s)) (local_offline_transitions (local s))
                    (local_online_transitions (local s)) (local_history (trace s));
  follows_remote : tracks (remote_results (trace s)) (remote_result_online (remote s))
                     (remote_offline_transitions (remote s)) (remote_online_transitions (remote s))
                     (remote_history (trace s));
  follows_display : remote_display_online (remote s) = remote_result_online (remote s)
}.

Record asks_ok (s : MonitorState) : Prop := {
  asks_trace : asked (trace s) = Some (next_remote_query_id (queries s), remote_inflight (queries s));
  asks_active : active_remote_query_id (queries s) = next_remote_query_id (queries s);
  asks_count : active_underlying_query_count (queries s) = (if remote_inflight (queries s) then 1 else 0);
  asks_max : 0 ≤ max_active_underlying_queries (queries s) ≤ 1;
  asks_started : started (remote_query_metrics (queries s)) = next_remote_query_id (queries s);
  asks_client : client s = true
}.

Definition monitor_ok (obs : list bool) (s : MonitorState) : Prop := follows obs s ∧ asks_ok s.

(** Effects that say nothing of the states, and those that say nothing of the queries either. *)
Definition silent (e : Effect) : Prop :=
  entry "LOCAL_STATE" e = None ∧ entry "REMOTE_STATE" e = None ∧ entry "REMOTE_QUERY_RESULT" e = None.
Definition neutral (e : Effect) : Prop := silent e ∧ ∀ id, e ≠ QueryPeerPresence id.

Lemma trace_silent t e : silent e →
  local_history (t ++ [e]) = local_history t ∧ remote_history (t ++ [e]) = remote_history t ∧
  remote_results (t ++ [e]) = remote_results t.
Proof.
  intros (Hl & Hr & Hq). rewrite local_history_app, remote_history_app, remote_results_app.
  unfold local_history at 2, remote_history at 2, remote_results at 2, entries.
  cbn [omap list_omap]. rewrite Hl, Hr, Hq. cbn. by rewrite !app_nil_r.
Qed.

Lemma asked_neutral t e : neutral e → asked (t ++ [e]) = asked t.
Proof.
  intros [(_ & _ & Hr) Hq]. rewrite asked_app. cbn [foldl]. unfold ask. rewrite Hr.
  destruct (asked t) as [[n b]|]; [|done]. cbn. destruct e; try done. exfalso. eapply Hq; reflexivity.
Qed.

Lemma monitor_ok_emit obs e s : neutral e → monitor_ok obs s → monitor_ok obs (emit e s).
Proof.
  intros Hn [[H1 H2 H3] [H4 H5 H6 H7 H8 H9]]. destruct (trace_silent (trace s) e (proj1 Hn)) as (El & Er & Es).
  split; [split|split]; cbn; rewrite ?El, ?Er, ?Es, ?asked_neutral by done; done.
Qed.

Lemma neutral_write event fields :
  event ≠ "LOCAL_STATE" → event ≠ "REMOTE_STATE" → event ≠ "REMOTE_QUERY_RESULT" →
  neutral (Write event fields).
Proof.
  intros H1 H2 H3. unfold neutral, silent, entry. apply String.eqb_neq in H1, H2, H3. by rewrite H1, H2, H3.
Qed.

Lemma monitor_ok_queries obs s q :
  next_remote_query_id q = next_remote_query_id (queries s) →
  remote_inflight q = remote_inflight (queries s) →
  active_remote_query_id q = active_remote_query_id (queries s) →
  active_underlying_query_count q = active_underlying_query_count (queries s) →
  max_active_underlying_queries q = max_active_underlying_queries (queries s) →
  started (remote_query_metrics q) = started (remote_query_metrics (queries s)) →
  monitor_ok obs s → monitor_ok obs (set_queries s q).
Proof.
  intros E1 E2 E3 E4 E5 E6 [[H1 H2 H3] [H4 H5 H6 H7 H8 H9]].
  split; [done|split]; cbn; rewrite ?E1, ?E2, ?E3, ?E4, ?E5, ?E6; done.
Qed.

Ltac emits := repeat (apply monitor_ok_emit; [by first [apply neutral_write|done]|]).

Lemma RefreshUi_ok obs policy s : monitor_ok obs s → monitor_ok obs (RefreshUi policy s).
Proof.
  intros H. unfold RefreshUi. destruct (_ || _); [done|]. destruct policy; [|done]. by emits.
Qed.

Lemma StartRemoteQuery_ok obs now s : monitor_ok obs s → monitor_ok obs (StartRemoteQuery sha now s).
Proof.
  intros H. unfold StartRemoteQuery. destruct (_ || _); [done|]. destruct (0 <? _) eqn:Hc; [done|].
  set (id := u32 (next_remote_query_id (queries s) + 1)). cbn zeta.
  assert (HX : monitor_ok obs (emit (Write "REMOTE_QUERY_SEND"
    [("peer_uid", peer_id (args s)); ("aether_sha", sha); ("query_id", pretty id)])
    (emit (Console "REMOTE_QUERY_START" (Some id)) s))) by by emits.
  clear H. destruct HX as [[H1 H2 H3] [H4 H5 H6 H7 H8 H9]]. cbn in *.
  rewrite H6 in *. destruct (remote_inflight (queries s)) eqn:Hi; [done|]. cbn.
  match type of H4 with asked ?t = _ =>
    destruct (trace_silent t (QueryPeerPresence id)) as (El & Er & Es); [done|] end.
  split; [split|split]; cbn; rewrite ?El, ?Er, ?Es; try done.
  - rewrite asked_app, H4. cbn. fold id. by rewrite Z.eqb_refl.
  - change (u32 (0 + 1)) with 1. destruct (_ <? 1); lia.
  - by rewrite H8.
Qed.

Lemma MaybeStartRemoteQuery_ok obs i s :
  monitor_ok obs s → monitor_ok obs (MaybeStartRemoteQuery sha i s).
Proof.
  intros H. unfold MaybeStartRemoteQuery. destruct (remote_queries_enabled _); [|done].
  destruct (client s); [|done]. destruct (at_policy i) as [d|]; [|done]. cbn [negb].
  destruct (LocalReadyForRemoteQuery d); [|done]. cbn [negb]. destruct (0 <? _).
  - destruct (_ && _ && _); [|done]. emits. by apply monitor_ok_queries.
  - destruct (_ && _ && _); [done|]. by apply StartRemoteQuery_ok.
Qed.

(** ** Results *)

Lemma FinishRemoteQuery_ok s :
  asks_ok s →
  let q := FinishRemoteQuery (active_remote_query_id (queries s)) (queries s) in
  remote_inflight q = false ∧ active_underlying_query_count q = 0 ∧
  next_remote_query_id q = next_remote_query_id (queries s) ∧
  active_remote_query_id q = active_remote_query_id (queries s) ∧
  max_active_underlying_queries q = max_active_underlying_queries (queries s) ∧
  remote_query_metrics q = remote_query_metrics (queries s).
Proof.
  intros [_ _ Hc _ _ _]. unfold FinishRemoteQuery. rewrite Z.eqb_refl, Hc. cbn [negb].
  by destruct (remote_inflight (queries s)).
Qed.

(** Recording a result of the last query: [b] is its state, if it has one. *)
Definition state_text (fields : list (string * string)) : list bool :=
  match field "state" fields with Some name => [bool_decide (name = "Online")] | None => [] end.

Lemma trace_result t fields n under_way :
  asked t = Some (n, under_way) → field "query_id" fields = Some (pretty n) →
  let e := Write "REMOTE_QUERY_RESULT" fields in
  local_history (t ++ [e]) = local_history t ∧ remote_history (t ++ [e]) = remote_history t ∧
  remote_results (t ++ [e]) = remote_results t ++ state_text fields ∧
  asked (t ++ [e]) = Some (n, false).
Proof.
  intros Ha Hq e. rewrite local_history_app, remote_history_app, remote_results_app, asked_app, Ha.
  unfold local_history at 2, remote_history at 2, remote_results at 2, entries, state_text.
  cbn. rewrite Hq, bool_decide_true by done. rewrite !app_nil_r. by destruct (field "state" fields).
Qed.

(** The remote state takes an observation: what [UpdateRemoteResult] needs and leaves. *)
Lemma UpdateRemoteResult_tracks qpc b s l :
  remote_display_online (remote s) = remote_result_online (remote s) →
  tracks l (remote_result_online (remote s)) (remote_offline_transitions (remote s))
    (remote_online_transitions (remote s)) (remote_history (trace s)) →
  let s' := UpdateRemoteResult sha qpc b s in
  tracks (l ++ [b]) (remote_result_online (remote s')) (remote_offline_transitions (remote s'))
    (remote_online_transitions (remote s')) (remote_history (trace s')) ∧
  remote_display_online (remote s') = remote_result_online (remote s') ∧
  local s' = local s ∧ queries s' = queries s ∧
  local_history (trace s') = local_history (trace s) ∧
  remote_results (trace s') = remote_results (trace s) ∧
  asked (trace s') = asked (trace s) ∧ client s' = client s.
Proof.
  intros Hd Ht. unfold UpdateRemoteResult. case_bool_decide as Hb; cbn.
  { split; [|done]. rewrite Hb in Ht. by apply (tracks_same l (Some b)). }
  set (e := Write "REMOTE_STATE" _).
  assert (E : remote_history (trace s ++ [e]) = remote_history (trace s) ++ [bool_text b] ∧
    local_history (trace s ++ [e]) = local_history (trace s) ∧
    remote_results (trace s ++ [e]) = remote_results (trace s) ∧
    asked (trace s ++ [e]) = asked (trace s)).
  { rewrite remote_history_app, local_history_app, remote_results_app, asked_app. unfold e. cbn.
    rewrite !app_nil_r. split_and!; [done..|]. by destruct (asked (trace s)) as [[? ?]|]. }
  destruct E as (-> & -> & -> & ->). split; [|done].
  destruct (remote_result_online (remote s)) as [c|] eqn:Hr.
  - assert (c = negb b) as -> by (destruct b, c; naive_solver). apply tracks_change in Ht. by destruct b.
  - by apply tracks_first.
Qed.

Lemma asks_ok_finished s q :
  let f := FinishRemoteQuery (active_remote_query_id (queries s)) (queries s) in
  asks_ok s → asked (trace s) = Some (next_remote_query_id (queries s), false) →
  remote_inflight q = remote_inflight f → active_underlying_query_count q = active_underlying_query_count f →
  next_remote_query_id q = next_remote_query_id f → active_remote_query_id q = active_remote_query_id f →
  max_active_underlying_queries q = max_active_underlying_queries f →
  started (remote_query_metrics q) = started (remote_query_metrics f) →
  asks_ok (set_queries s q).
Proof.
  intros f Hok Ha E1 E2 E3 E4 E5 E6. destruct (FinishRemoteQuery_ok s Hok) as (F1 & F2 & F3 & F4 & F5 & F6).
  fold f in F1, F2, F3, F4, F5, F6. destruct Hok as [H4 H5 H6 H7 H8 H9].
  split; cbn; rewrite ?E1, ?E2, ?E3, ?E4, ?E5, ?E6, ?F1, ?F2, ?F3, ?F4, ?F5, ?F6; done.
Qed.

Lemma on_result_ok obs r s : monitor_ok obs s → monitor_ok obs (on_result sha r s).
Proof.
  intros H. unfold on_result. destruct (of_query r =? _) eqn:Hid; [|done].
  apply Z.eqb_eq in Hid. rewrite Hid. cbn [negb]. cbv zeta. apply RefreshUi_ok.
  destruct H as [Hf Ha]. destruct (FinishRemoteQuery_ok s Ha) as (F1 & F2 & F3 & F4 & F5 & F6).
  set (q := FinishRemoteQuery _ _) in *. destruct Hf as [H1 H2 H3]. destruct Ha as [H4 H5 H6 H7 H8 H9].
  destruct (result r) as [error|[presence samples]].
  - set (c := Console _ _). set (fields := (_ ++ _)%list).
    destruct (trace_silent (trace s) c) as (El & Er & Es); [done|].
    assert (Ec : asked (trace s ++ [c]) = asked (trace s)) by by apply asked_neutral.
    rewrite H4 in Ec. destruct (trace_result _ fields _ _ Ec) as (El' & Er' & Es' & Ea');
      [unfold fields; rewrite H5; reflexivity|].
    change (state_text fields) with (@nil bool) in Es'. rewrite app_nil_r in Es'. clearbody fields c.
    split; [split|split]; cbn; rewrite ?El', ?Er', ?Es', ?Ea', ?El, ?Er, ?Es, ?F1, ?F2, ?F3, ?F4, ?F5, ?F6; done.
  - set (c := Console ("REMOTE_QUERY_COMPLETE state=" +:+ _) _). set (fields := (_ ++ _)%list).
    destruct (trace_silent (trace s) c) as (El & Er & Es); [done|].
    assert (Ec : asked (trace s ++ [c]) = asked (trace s)) by by apply asked_neutral.
    rewrite H4 in Ec. destruct (trace_result _ fields _ _ Ec) as (El' & Er' & Es' & Ea');
      [unfold fields; rewrite H5; reflexivity|].
    assert (Est : state_text fields = [RemoteOnlineFromPresence presence]) by by destruct presence.
    rewrite Est in Es'. clearbody fields c. apply monitor_ok_emit; [done|].
    set (s1 := emit _ _).
    destruct (UpdateRemoteResult_tracks (done_qpc r) (RemoteOnlineFromPresence presence) s1
      (remote_results (trace s)) H3) as (T1 & T2 & T3 & T4 & T5 & T6 & T7 & T8).
    { cbn. by rewrite Er', Er. }
    split; [split|split]; rewrite ?T3, ?T4, ?T5, ?T6, ?T7, ?T8; try done;
      cbn; rewrite ?El', ?Er', ?Es', ?Ea', ?El, ?Er, ?Es, ?F1, ?F2, ?F3, ?F4, ?F5, ?F6; done.
Qed.

(** ** The local state *)

Lemma monitor_ok_args obs s w : monitor_ok obs s → monitor_ok obs (set_window s w).
Proof. by intros [[H1 H2 H3] [H4 H5 H6 H7 H8 H9]]. Qed.

Lemma UpdateLocalOnline_ok obs d qpc now i s :
  monitor_ok obs s → monitor_ok (obs ++ [any_online d]) (UpdateLocalOnline sha to_ms d qpc now i s).
Proof.
  intros [[H1 H2 H3] Ha]. unfold UpdateLocalOnline. cbv zeta.
  assert (Hstart : ∀ b s', monitor_ok (obs ++ [any_online d]) s' →
    monitor_ok (obs ++ [any_online d])
      (if b && LocalReadyForRemoteQuery d then MaybeStartRemoteQuery sha i s' else s')).
  { intros b s' Hs'. destruct (_ && _); [by apply MaybeStartRemoteQuery_ok|done]. }
  case_bool_decide as Hb; apply Hstart.
  - destruct Ha as [H4 H5 H6 H7 H8 H9]. split; [split|split]; cbn; try done.
    rewrite Hb. by eapply tracks_same.
  - set (e := Write "LOCAL_STATE" _).
    assert (E : local_history (trace s ++ [e]) = local_history (trace s) ++ [bool_text (any_online d)] ∧
      remote_history (trace s ++ [e]) = remote_history (trace s) ∧
      remote_results (trace s ++ [e]) = remote_results (trace s) ∧
      asked (trace s ++ [e]) = asked (trace s)).
    { rewrite remote_history_app, local_history_app, remote_results_app, asked_app. unfold e. cbn.
      rewrite !app_nil_r. split_and!; [done..|]. by destruct (asked (trace s)) as [[? ?]|]. }
    destruct E as (El & Er & Es & Ea). destruct Ha as [H4 H5 H6 H7 H8 H9].
    split; [split|split]; cbn; rewrite ?El, ?Er, ?Es, ?Ea; try done.
    destruct (local_online (local s)) as [c|] eqn:Hl.
    + assert (c = negb (any_online d)) as -> by (destruct (any_online d), c; done || by destruct Hb).
      apply tracks_change in H1. by destruct (any_online d).
    + by apply tracks_first.
Qed.

(** ** Runs *)

(** The state that a poll sees. *)
Definition polled (p : Poll) : list bool :=
  match poll_policy p with Some d => [any_online d] | None => [] end.
Definition observed (m : Message) : list bool :=
  match m with PumpTimer t => if exited t then [] else polled (poll t) | _ => [] end.
(** Up to the message that ends the loop. *)
Fixpoint observations (ms : list Message) : list bool :=
  match ms with
  | [] => []
  | m :: ms => if ends m then [] else observed m ++ observations ms
  end.

Lemma OnDestroy_ok obs s : monitor_ok obs s → monitor_ok obs (OnDestroy sha s).
Proof. intros H. unfold OnDestroy, WriteRemoteQueryMetrics. by emits. Qed.

Lemma PumpAether_ok obs t s :
  monitor_ok obs s → monitor_ok (obs ++ observed (PumpTimer t)) (PumpAether sha to_ms t s).
Proof.
  intros H. unfold PumpAether. cbn [observed]. destruct (exited t); [by rewrite app_nil_r|]. cbv zeta.
  apply MaybeStartRemoteQuery_ok.
  assert (Hr : monitor_ok obs (foldl (λ s r, on_result sha r s) s (deliveries t))).
  { revert s H. induction (deliveries t) as [|r rs IH]; intros s H; [done|]. by apply IH, on_result_ok. }
  unfold PollLocal, polled. rewrite (asks_client _ (proj2 Hr)). cbn [negb].
  destruct (poll_policy (poll t)) as [d|]; [by apply UpdateLocalOnline_ok|by rewrite app_nil_r].
Qed.

Lemma WndProc_ok obs m s : monitor_ok obs s → monitor_ok (obs ++ observed m) (MonitorWndProc sha to_ms m s).
Proof.
  intros H. destruct m as [p|t|p| | |]; cbn [observed MonitorWndProc]; rewrite ?app_nil_r; try done.
  - by apply RefreshUi_ok, monitor_ok_args.
  - by apply PumpAether_ok.
  - by apply RefreshUi_ok.
  - apply OnDestroy_ok. unfold WriteRemoteQueryMetrics. by emits.
  - by apply OnDestroy_ok.
Qed.

Lemma message_loop_ok ms : ∀ obs s,
  monitor_ok obs s → monitor_ok (obs ++ observations ms) (message_loop sha to_ms ms s).
Proof.
  induction ms as [|m ms IH]; intros obs s H; cbn [observations message_loop]; [by rewrite app_nil_r|].
  pose proof (WndProc_ok obs m s H) as Hm. destruct (ends m) eqn:He.
  - rewrite app_nil_r. destruct m; try done; cbn [observed] in Hm; by rewrite app_nil_r in Hm.
  - rewrite app_assoc. by apply IH.
Qed.

(** The monitor when its window is made. *)
Definition started_monitor (a : Args) (uid : string) (policy : bool) : MonitorState :=
  mkMonitor a true false new_local new_remote new_queries
    ([Write "APP_STARTED"
      [("mode", "monitor"); ("aether_sha", sha); ("ping_ms", pretty (ping_ms a));
       ("window_ms", pretty (window_ms a)); ("query_period_ms", pretty (query_period_ms a));
       ("remote_queries", bool_text (remote_queries_enabled a))]] ++
     (BootstrapClient a (Some (inr uid)) policy).2).

Lemma started_monitor_ok a uid policy : monitor_ok [] (started_monitor a uid policy).
Proof. destruct policy; (split; [split; (apply tracks_start || done)|by split; [..|]]). Qed.

Definition runs_monitor (a : Args) : Prop :=
  state_dir a ≠ "" ∧ peer_id a ≠ "" ∧ label a ≠ "" ∧ log_path a ≠ "".

Lemma RunMonitor_runs a uid policy ms :
  runs_monitor a →
  RunMonitor sha to_ms a (Some (inr uid)) policy true ms =
    (0, trace (message_loop sha to_ms ms (started_monitor a uid policy))).
Proof.
  intros (H1%String.eqb_neq & H2%String.eqb_neq & H3%String.eqb_neq & H4%String.eqb_neq).
  unfold RunMonitor. by rewrite H1, H2, H3, H4.
Qed.

(** C40. The monitor asks one query at a time, and records the history of what it observes.  In
    every run, whatever the readings and the results and in whatever order they arrive: a
    query is only made when the one before has been answered, with the next identifier, and a
    result is only recorded for the last query; the local states in the log are the states that
    were polled, the remote ones those of the results that are in the log, without
    repetitions. *)
Theorem monitor_records_history a uid policy ms :
  runs_monitor a →
  let t := (RunMonitor sha to_ms a (Some (inr uid)) policy true ms).2 in
  is_Some (asked t) ∧
  local_history t = bool_text <$> changes None (observations ms) ∧
  remote_history t = bool_text <$> changes None (remote_results t).
Proof.
  intros Ha. rewrite (RunMonitor_runs a uid policy ms Ha). cbn [snd].
  destruct (message_loop_ok ms [] _ (started_monitor_ok a uid policy)) as [[H1 H2 _] [H4 _ _ _ _ _]].
  split; [by rewrite H4|]. split; [apply (tracks_logged _ _ _ _ _ H1)|apply (tracks_logged _ _ _ _ _ H2)].
Qed.

(** What the monitor keeps is what it has seen: at every time of a run the local state is that
    of the last poll and the remote state, which the window shows, that of the last result
    that was recorded; each counter is how often that state was entered after the first
    observation (in 32 bits); at most one query is under way, and the number of queries that is
    kept is the identifier of the last. *)
Theorem monitor_keeps_last a uid policy ms :
  let s := message_loop sha to_ms ms (started_monitor a uid policy) in
  local_online (local s) = list.last (observations ms) ∧
  local_offline_transitions (local s) = u32 (became false (observations ms)) ∧
  local_online_transitions (local s) = u32 (became true (observations ms)) ∧
  remote_display_online (remote s) = list.last (remote_results (trace s)) ∧
  remote_offline_transitions (remote s) = u32 (became false (remote_results (trace s))) ∧
  remote_online_transitions (remote s) = u32 (became true (remote_results (trace s))) ∧
  active_underlying_query_count (queries s) = (if remote_inflight (queries s) then 1 else 0) ∧
  max_active_underlying_queries (queries s) ≤ 1 ∧
  asked (trace s) = Some (started (remote_query_metrics (queries s)), remote_inflight (queries s)).
Proof.
  intros s. destruct (message_loop_ok ms [] _ (started_monitor_ok a uid policy))
    as [[[L1 L2 L3 _] [R1 R2 R3 _] D] [H4 H5 H6 H7 H8 _]]. fold s in L1, L2, L3, R1, R2, R3, D, H4, H5, H6, H7, H8.
  rewrite D, H8. split_and!; try done. lia.
Qed.

(** When a query is made: exactly when queries are enabled, the client is locally online, the
    peer is known, no query is unanswered and, once a state is shown, the time after the last
    result has passed.  Otherwise nothing changes, but for one warning about a query that has
    been unanswered for too long. *)
Definition asks_now (i : Readings3) s : Prop :=
  remote_queries_enabled (args s) = true ∧ peer_id (args s) ≠ "" ∧
  (∃ d, at_policy i = Some d ∧ any_online d = true) ∧ remote_inflight (queries s) = false ∧
  (remote_display_online (remote s) = None ∨ next_remote_query_at (queries s) = 0 ∨
   next_remote_query_at (queries s) ≤ at_test i).

Theorem MaybeStartRemoteQuery_spec i s :
  asks_ok s →
  let s' := MaybeStartRemoteQuery sha i s in
  let id := u32 (next_remote_query_id (queries s) + 1) in
  (asks_now i s ∧ remote_inflight (queries s') = true ∧ remote_query_started (queries s') = at_start i ∧
   trace s' = trace s ++ [Console "REMOTE_QUERY_START" (Some id);
     Write "REMOTE_QUERY_SEND" [("peer_uid", peer_id (args s)); ("aether_sha", sha); ("query_id", pretty id)];
     QueryPeerPresence id]) ∨
  (¬ asks_now i s ∧
   (s' = s ∨
    (remote_watchdog_logged (queries s) = false ∧ remote_watchdog_logged (queries s') = true ∧
     remote_inflight (queries s) = true ∧ remote_inflight (queries s') = true ∧
     kRemoteQueryTimeout < at_test i - remote_query_started (queries s)))).
Proof.
  intros [_ _ Hc _ _ Hcl]. cbv zeta. unfold MaybeStartRemoteQuery, asks_now. rewrite Hcl, Hc. cbn [negb].
  destruct (remote_queries_enabled (args s)) eqn:Hen; cbn [negb];
    [|right; split; [by intros [? _]|by left]].
  destruct (at_policy i) as [d|]; [|right; split; [by intros (_ & _ & (d & ? & _) & _)|by left]].
  unfold LocalReadyForRemoteQuery.
  destruct (any_online d) eqn:Hd; cbn [negb];
    [|right; split; [intros (_ & _ & (d' & [= <-] & ?) & _); congruence|by left]].
  destruct (remote_inflight (queries s)) eqn:Hi; cbn [Z.ltb Z.compare].
  { right. split; [by intros (_ & _ & _ & ? & _)|]. destruct (_ && _ && _) eqn:Hw; [right|by left].
    apply andb_prop in Hw as [[_ Ht%Z.ltb_lt]%andb_prop Hl%negb_true_iff]. by split_and!. }
  destruct (_ && _ && _) eqn:Hp.
  - right. split; [|by left]. apply andb_prop in Hp as [[Hs%bool_decide_eq_true Hn%negb_true_iff]%andb_prop Ht%Z.ltb_lt].
    apply Z.eqb_neq in Hn. intros (_ & _ & _ & _ & [H|[H|H]]); [by destruct Hs; congruence|done|lia].
  - unfold StartRemoteQuery. rewrite Hen, Hcl, Hc. cbn [negb orb].
    destruct (String.eqb_spec (peer_id (args s)) "") as [He|He]; [right; split; [by intros (_ & ? & _)|by left]|].
    left. cbn. rewrite <-!app_assoc. split; [|done]. split_and!; [done|done|by exists d|done|].
    rewrite !andb_false_iff, bool_decide_eq_false, negb_false_iff, Z.eqb_eq, Z.ltb_ge in Hp.
    destruct Hp as [[Hp|Hp]|Hp]; [left|by right; left|by right; right].
    destruct (remote_display_online (remote s)); [|done]. by destruct Hp.
Qed.
End invariant.

(** ** Examples *)
Module Examples.
Definition the_args : Args :=
  mkArgs false true true "state" "" "3ac9" "A" "a.jsonl" "presence-monitor-A" 100 100 1000 1000 1000 0.
Definition online_diag : Diag := mkDiag true true 7 5 9.
Definition offline_diag : Diag := mkDiag true false 7 5 9.
(** The readings of a turn, at a time in milliseconds. *)
Definition reads (d : Diag) (ms : Z) : Readings3 := mkReadings (Some d) (ms * kMs) (ms * kMs).
Definition turn (d : Diag) (ms : Z) (rs : list Delivery) : Message :=
  PumpTimer (mkTurn false rs (mkPoll (Some d) ms ms (reads d ms)) (reads d ms)).
Definition answers (id : Z) (r : QueryResult) (ms : Z) : Delivery :=
  mkDelivery id r (ms * kMs) ms (Some online_diag).

(** The client comes online, the peer is online, then the client is offline, then the peer is. *)
Definition a_run : list Message :=
  [WM_CREATE (Some offline_diag); turn offline_diag 30 []; turn online_diag 60 [];
   turn online_diag 90 [answers 1 (inr (kOnline, [(false, 3); (true, 40)])) 80];
   turn offline_diag 1200 []; turn online_diag 1300 [];
   turn online_diag 1400 [answers 1 (inl 5) 1390; answers 2 (inr (kUnknown, [])) 1395];
   WM_DESTROY; turn offline_diag 1500 []].

Definition the_trace : list Effect := (RunMonitor "abc" id the_args (Some (inr "uid")) true true a_run).2.

Lemma monitor_records_history_witness :
  is_Some (asked the_trace) ∧
  local_history the_trace = ["false"; "true"; "false"; "true"] ∧
  remote_history the_trace = ["true"; "false"].
Proof.
  destruct (monitor_records_history "abc" id the_args "uid" true a_run) as (Ha & Hl & Hr).
  - repeat split; discriminate.
  - split; [exact Ha|]. split; [exact Hl|exact Hr].
Defined.

(** A query that is never answered: no other is made, and one warning is written. *)
Definition unanswered : list Message :=
  turn online_diag 60 [] :: ((λ k, turn online_diag (k * 10000) []) <$> [1; 2; 3; 4; 5]).
Example stuck_query :
  let t := (RunMonitor "abc" id the_args (Some (inr "uid")) true true unanswered).2 in
  asked t = Some (1, true) ∧ length (entries "REMOTE_QUERY_STUCK" t) = 1%nat.
Proof. vm_compute. done. Qed.

(** Until a first result has a state, the time between queries is not kept. *)
Example errors_are_asked_again_at_once :
  asked (RunMonitor "abc" id the_args (Some (inr "uid")) true true
    [turn online_diag 60 []; turn online_diag 90 [answers 1 (inl 5) 80];
     turn online_diag 120 [answers 2 (inl 5) 110]]).2 = Some (3, true).
Proof. vm_compute. reflexivity. Qed.

(** The age of the last contact is never set: every result is logged without it. *)
Example age_is_never_known :
  omap (field "remote_last_online_age_ms") (entries "REMOTE_QUERY_RESULT" the_trace) = ["-1"; "-1"].
Proof. vm_compute. reflexivity. Qed.

Lemma asks_ok_started : asks_ok (started_monitor "abc" the_args "uid" true).
Proof. apply started_monitor_ok. Qed.

Lemma MaybeStartRemoteQuery_spec_witness :
  remote_inflight (queries (MaybeStartRemoteQuery "abc" (reads online_diag 60)
    (started_monitor "abc" the_args "uid" true))) = true.
Proof.
  destruct (MaybeStartRemoteQuery_spec "abc" (reads online_diag 60) _ asks_ok_started)
    as [(_ & H & _)|[Hn _]]; [exact H|].
  exfalso. apply Hn. split; [reflexivity|]. split; [discriminate|].
  split; [by exists online_diag|]. split; [reflexivity|by left].
Defined.
End Examples.
