(* ===== verification/Surfaces.v ===== *)
(** * The surfaces model

    Models include/apptraverse/surfaces/surfaces_model.h and src/surfaces/surfaces_model.cpp:
    the list of surfaces with the current page and the order of the windows, the surfaces,
    their events, and the commands that the user interface posts to the model's thread.  A
    pointer to a surface is the identifier of the object; dereferencing one that is not in
    the Domain ends the process ([None]). *)
From S2P Require Import Prelude Aether SharedEvent Node.

(** [static_cast<std::int32_t>] *)
Definition i32 (z : Z) : Z := (z + 2147483648) mod 4294967296 - 2147483648.

(** ** Surfaces *)

(** [chrome]: the identifiers of the window, the buttons and the language switch. *)
Record SurfaceFields := mkSurface {
  number : Z;
  desktop_x : Z; desktop_y : Z; desktop_width : Z; desktop_height : Z;
  presentation_width : Z; presentation_height : Z;
  parent : option Z;
  chrome : list (option Z)
}.

Inductive SurfaceEvent :=
| SurfaceBoundsChangedEvent (x y width height : Z)
| SurfacePresentationSizeChangedEvent (width height : Z).

Definition Apply_Surface (f : SurfaceFields) (e : SurfaceEvent) : SurfaceFields :=
  match f with
  | mkSurface n x y w h pw ph p c =>
      match e with
      | SurfaceBoundsChangedEvent x' y' w' h' => mkSurface n x' y' w' h' pw ph p c
      | SurfacePresentationSizeChangedEvent w' h' => mkSurface n x y w h w' h' p c
      end
  end.

#[export] Instance Surface_kind : NodeKind SurfaceFields SurfaceEvent := {|
  CanApplyTo _ _ := true;
  ApplyTo f e := Some (Apply_Surface f e, true);
  MatchesSharedMetadata _ _ _ := true;
  SaveLoad f := f;
  CarryLocal _ loaded := loaded
|}.

(** The overflow of a signed addition is not defined: [None]. *)
Definition i32_add (a b : Z) : option Z :=
  if bool_decide (-2147483648 ≤ a + b < 2147483648) then Some (a + b) else None.

Definition kWidth : Z := 360.
Definition kHeight : Z := 240.
Definition kBaseX : Z := 120.
Definition kBaseY : Z := 120.
Definition kCascade : Z := 36.

Definition AssignInitialDesktopBounds (f : SurfaceFields) : option SurfaceFields :=
  let offset := i32 (u32 ((if 0 <? number f then number f - 1 else 0) * kCascade)) in
  x ← i32_add kBaseX offset;
  y ← i32_add kBaseY offset;
  Some (mkSurface (number f) x y kWidth kHeight kWidth kHeight (parent f) (chrome f)).

(** ** The list of surfaces *)

Record SurfacesFields := mkSurfaces {
  surfaces : list Z;
  mobile_current : option Z;
  desktop_z_order : list Z
}.

Inductive SurfacesEvent :=
| AddSurfaceEvent (surface : Z)
| RemoveSurfaceEvent (surface : Z)
| SetCurrentSurfaceEvent (surface : Z)
| SetDesktopZOrderEvent (ordered : list Z).

(** [v.erase(std::find(v, id))] *)
Fixpoint erase_first (id : Z) (l : list Z) : list Z :=
  match l with
  | [] => []
  | x :: l => if x =? id then l else x :: erase_first id l
  end.

Definition Apply_Surfaces (f : SurfacesFields) (e : SurfacesEvent) : option SurfacesFields :=
  match e with
  | AddSurfaceEvent s =>
      Some (mkSurfaces (surfaces f ++ [s]) (mobile_current f) (desktop_z_order f ++ [s]))
  | RemoveSurfaceEvent s =>
      assert! bool_decide (s ∈ surfaces f) ;;
      Some (mkSurfaces (erase_first s (surfaces f))
              (if bool_decide (mobile_current f = Some s) then None else mobile_current f)
              (filter (λ x, x ≠ s) (desktop_z_order f)))
  | SetCurrentSurfaceEvent s => Some (mkSurfaces (surfaces f) (Some s) (desktop_z_order f))
  | SetDesktopZOrderEvent l => Some (mkSurfaces (surfaces f) (mobile_current f) l)
  end.

(** Version 0 has no order of the windows; version 1 is loaded as it was saved. *)
Definition Load_v0 (surfaces : list Z) (current : option Z) : SurfacesFields :=
  mkSurfaces surfaces current [].

#[export] Instance Surfaces_kind : NodeKind SurfacesFields SurfacesEvent := {|
  CanApplyTo _ _ := true;
  ApplyTo f e := f ← Apply_Surfaces f e; Some (f, true);
  MatchesSharedMetadata _ _ _ := true;
  SaveLoad f := f;
  CarryLocal _ loaded := loaded
|}.

(** ** Commands *)

Abbreviation SurfaceNode := (Node SurfaceFields SurfaceEvent).
Abbreviation SurfacesNode := (Node SurfacesFields SurfacesEvent).

(** [objects]: the surfaces of the Domain, the removed ones that history refers to included.
    [has_application]: the Domain finds the Application. *)
Record SurfacesModel := mkModel {
  list_node : SurfacesNode;
  objects : gmap Z SurfaceNode;
  has_application : bool
}.

Section commands.
  Implicit Types (m : SurfacesModel).

Definition with_list m n := mkModel n (objects m) (has_application m).
Definition with_object m id n := mkModel (list_node m) (<[id := n]> (objects m)) (has_application m).

Abbreviation live m := (surfaces (fields (list_node m))).

(** [parent.Commit(event)] *)
Definition commit_list m (e : SurfacesEvent) (reading : Readings) : option SurfacesModel :=
  n ← Commit (list_node m) (mkEventPtr true (Some e) (domain (list_node m))) reading;
  Some (with_list m n).

Definition commit_object m (id : Z) (e : SurfaceEvent) (reading : Readings)
    : option SurfacesModel :=
  n ← objects m !! id;
  n ← Commit n (mkEventPtr true (Some e) (domain n)) reading;
  Some (with_object m id n).

(** The number after the highest one, from [next]. *)
Fixpoint next_number m (l : list Z) (next : Z) : option Z :=
  match l with
  | [] => Some next
  | id :: l =>
      n ← objects m !! id;
      next_number m l (if next <=? number (fields n) then u32 (number (fields n) + 1) else next)
  end.

(** [self]: the surface whose button was used.  [new_id], [base_id]: the identifiers of the
    new surface and of its base; [presenters]: those that [AttachPlatformSurfacePresenters]
    of the platform makes. *)
Definition AddSurface m (self new_id base_id : Z) (presenters : list (option Z))
    (reading : Readings) : option SurfacesModel :=
  s ← objects m !! self;
  assert! bool_decide (parent (fields s) = Some (obj_id (list_node m))) ;;
  next ← next_number m (live m) 1;
  f ← AssignInitialDesktopBounds (mkSurface next 0 0 0 0 0 0 None []);
  assert! has_application m ;;
  let f := mkSurface (number f) (desktop_x f) (desktop_y f) (desktop_width f)
             (desktop_height f) (presentation_width f) (presentation_height f)
             (parent (fields s)) presenters in
  sibling ← InitializeRuntimeNodeFrom (new_node new_id (domain (list_node m)) f) base_id
              (materialized_change_fn_ s);
  commit_list (with_object m new_id sibling) (AddSurfaceEvent new_id) reading.

Definition Remove m (self : Z) (reading : Readings) : option SurfacesModel :=
  s ← objects m !! self;
  assert! bool_decide (parent (fields s) = Some (obj_id (list_node m))) ;;
  if negb (bool_decide (self ∈ live m)) then Some m
  else commit_list m (RemoveSurfaceEvent self) reading.

Definition MakeCurrent m (self : Z) (reading : Readings) : option SurfacesModel :=
  s ← objects m !! self;
  assert! bool_decide (parent (fields s) = Some (obj_id (list_node m))) ;;
  if bool_decide (mobile_current (fields (list_node m)) = Some self) then Some m
  else if negb (bool_decide (self ∈ live m)) then Some m
  else commit_list m (SetCurrentSurfaceEvent self) reading.

Definition SetDesktopBounds m (self x y width height : Z) (reading : Readings)
    : option SurfacesModel :=
  s ← objects m !! self;
  let f := fields s in
  if (desktop_x f =? x) && (desktop_y f =? y) && (desktop_width f =? width) &&
     (desktop_height f =? height) then Some m
  else commit_object m self (SurfaceBoundsChangedEvent x y width height) reading.

Definition SetPresentationSize m (self width height : Z) (reading : Readings)
    : option SurfacesModel :=
  s ← objects m !! self;
  let f := fields s in
  if (presentation_width f =? width) && (presentation_height f =? height) then Some m
  else commit_object m self (SurfacePresentationSizeChangedEvent width height) reading.

(** *** The order of the windows *)

(** The first loop: the live surfaces of the identifiers, each once.  [seen]: the
    identifiers that came before. *)
Fixpoint resolve (live : list Z) (ids : list Z) (seen : gset Z) : list Z :=
  match ids with
  | [] => []
  | id :: ids =>
      if bool_decide (id ∈ seen) then resolve live ids seen
      else
        let seen := {[id]} ∪ seen in
        if bool_decide (id ∈ live) then id :: resolve live ids seen
        else resolve live ids seen
  end.

(** The second loop: the live surfaces that were not named, at the end. *)
Definition append_missing (live resolved : list Z) : list Z :=
  foldl (λ acc id, if bool_decide (id ∈ acc) then acc else acc ++ [id]) resolved live.

Definition resolved_order (live ids : list Z) : list Z :=
  append_missing live (resolve live ids ∅).

Definition SetDesktopZOrderFromObjIds m (ids : list Z) (reading : Readings)
    : option SurfacesModel :=
  let resolved := resolved_order (live m) ids in
  if bool_decide (desktop_z_order (fields (list_node m)) = resolved) then Some m
  else commit_list m (SetDesktopZOrderEvent resolved) reading.
End commands.

(** ** The presenter's side *)

(** [SurfacePresenter::IsWide] *)
Definition IsWide (f : SurfaceFields) : bool := presentation_height f <=? presentation_width f.

(** ** Commands through the proxy *)

(** What the presenters post: [ModelObjectProxy::Invoke] of a method of a surface, or of the
    list of surfaces.  The identifiers that the Domain gives to new objects are part of the
    command. *)
Inductive Command :=
| AddClick (self new_id base_id : Z) (presenters : list (option Z))
| RemoveClick (self : Z)
| PageShown (self : Z)
| BoundsChanged (self x y width height : Z)
| PresentationSizeChanged (self width height : Z)
| DesktopZOrder (ordered_obj_ids : list Z).

(** The work on the model's thread; a surface that the Domain does not find ends the
    process, as it does in the methods. *)
Definition Invoke (m : SurfacesModel) (c : Command) (reading : Readings) : option SurfacesModel :=
  match c with
  | AddClick self new_id base_id presenters => AddSurface m self new_id base_id presenters reading
  | RemoveClick self => Remove m self reading
  | PageShown self => MakeCurrent m self reading
  | BoundsChanged self x y width height => SetDesktopBounds m self x y width height reading
  | PresentationSizeChanged self width height => SetPresentationSize m self width height reading
  | DesktopZOrder ids => SetDesktopZOrderFromObjIds m ids reading
  end.

Definition Invoke_all (m : SurfacesModel) (commands : list (Command * Readings))
    : option SurfacesModel :=
  foldl (λ m c, m ← m; Invoke m c.1 c.2) (Some m) commands.
