(* ===== verification/SurfacesTheory.v ===== *)
(** * What holds of the surfaces

    Commands that refer to surfaces of the Domain, removed ones included, complete whatever
    they are and keep the list of surfaces well formed; the order of the windows that the
    user interface reports is completed to one of exactly the live surfaces; a new surface has
    a number of its own. *)
From S2P Require Import Prelude Aether SharedEvent Node NodeTheory NodeBudget Surfaces.

#[export] Instance Surface_equiv : Equiv SurfaceFields := (=).
#[export] Instance Surface_laws : NodeLaws SurfaceFields SurfaceEvent.
Proof. split; [apply eq_equivalence|by intros f g e ->| |done|done]. intros f g e ->. by constructor. Qed.
#[export] Instance Surfaces_equiv : Equiv SurfacesFields := (=).
#[export] Instance Surfaces_laws : NodeLaws SurfacesFields SurfacesEvent.
Proof.
  split; [apply eq_equivalence|by intros f g e ->| |done|done].
  intros f g e ->. by destruct (ApplyTo g e); constructor.
Qed.

(** ** The order of the windows *)

Lemma erase_first_spec id (l : list Z) : NoDup l → erase_first id l = filter (λ x, x ≠ id) l.
Proof.
  induction 1 as [|x l Hx Hl IH]; [done|]. cbn [erase_first].
  destruct (Z.eqb_spec x id) as [->|Hne].
  - rewrite filter_cons_False by naive_solver. symmetry. apply filter_all.
    intros y Hy ->. done.
  - by rewrite filter_cons_True, IH.
Qed.

Section order.
  Implicit Types (live ids l acc : list Z) (seen : gset Z).

Lemma elem_of_resolve live ids seen x :
  x ∈ resolve live ids seen ↔ x ∈ ids ∧ x ∈ live ∧ x ∉ seen.
Proof.
  revert seen. induction ids as [|id ids IH]; intros seen; cbn [resolve]; [set_solver|].
  destruct (bool_decide (id ∈ seen)) eqn:Es; breflect; [rewrite IH; set_solver|].
  destruct (bool_decide (id ∈ live)) eqn:El; breflect; rewrite ?elem_of_cons, IH, ?elem_of_cons.
  - destruct (decide (x = id)) as [->|]; set_solver.
  - destruct (decide (x = id)) as [->|]; set_solver.
Qed.

Lemma resolve_NoDup live ids seen : NoDup (resolve live ids seen).
Proof.
  revert seen. induction ids as [|id ids IH]; intros seen; cbn [resolve]; [constructor|].
  destruct (bool_decide (id ∈ seen)); [done|].
  destruct (bool_decide (id ∈ live)); [|done]. constructor; [|done].
  rewrite elem_of_resolve. set_solver.
Qed.

(** The identifiers of a list without repetitions are only filtered. *)
Lemma resolve_filter live ids seen :
  NoDup ids → (∀ x, x ∈ ids → x ∉ seen) → resolve live ids seen = filter (.∈ live) ids.
Proof.
  intros Hids. revert seen. induction Hids as [|id ids Hid Hids IH]; intros seen Hseen; [done|].
  cbn [resolve]. rewrite bool_decide_eq_false_2 by (apply Hseen; set_solver).
  rewrite (IH ({[id]} ∪ seen)) by set_solver.
  destruct (bool_decide (id ∈ live)) eqn:El; breflect.
  - by rewrite filter_cons_True.
  - by rewrite filter_cons_False.
Qed.

Lemma append_missing_spec live acc :
  NoDup live → append_missing live acc = acc ++ filter (.∉ acc) live.
Proof.
  intros Hl. unfold append_missing. revert acc.
  induction Hl as [|x live Hx Hl IH]; intros acc; cbn [foldl]; [by rewrite app_nil_r|].
  destruct (bool_decide (x ∈ acc)) eqn:Ex; breflect; rewrite IH.
  - by rewrite filter_cons_False by naive_solver.
  - rewrite filter_cons_True by done. rewrite <-app_assoc. do 2 f_equal. cbn. f_equal.
    apply filter_congr. intros y Hy. set_solver.
Qed.

Lemma resolved_order_eq live ids :
  NoDup live →
  resolved_order live ids =
    resolve live ids ∅ ++ filter (.∉ resolve live ids ∅) live.
Proof. apply append_missing_spec. Qed.

Lemma resolved_order_Permutation live ids :
  NoDup live → Permutation (resolved_order live ids) live.
Proof.
  intros Hl. rewrite resolved_order_eq by done. apply NoDup_Permutation; [|done|].
  - apply list.NoDup_app. split; [apply resolve_NoDup|]. split; [|by apply list.NoDup_filter].
    intros x Hx. rewrite list_elem_of_filter. tauto.
  - intros x. rewrite elem_of_app, list_elem_of_filter, elem_of_resolve.
    destruct (decide (x ∈ ids)); set_solver.
Qed.

(** The first occurrences of a list. *)
Fixpoint nub (l : list Z) : list Z :=
  match l with
  | [] => []
  | x :: l => x :: filter (λ y, y ≠ x) (nub l)
  end.

Lemma resolve_nub live ids seen :
  resolve live ids seen = filter (λ x, x ∈ live ∧ x ∉ seen) (nub ids).
Proof.
  revert seen. induction ids as [|id ids IH]; intros seen; [done|]. cbn [resolve nub].
  assert (∀ P `{!∀ x, Decision (P x)}, (∀ x, P x → x ≠ id) →
    filter P (filter (λ y, y ≠ id) (nub ids)) = filter P (nub ids)) as Hf.
  { intros P ? HP. rewrite list_filter_filter. apply filter_congr. naive_solver. }
  destruct (bool_decide (id ∈ seen)) eqn:Es; breflect.
  { rewrite filter_cons_False by tauto. rewrite Hf, IH; [done|]. intros x [_ Hx] ->. done. }
  destruct (bool_decide (id ∈ live)) eqn:El; breflect.
  - rewrite filter_cons_True by done. f_equal. rewrite IH, list_filter_filter.
    apply filter_congr. set_solver.
  - rewrite filter_cons_False by tauto. rewrite Hf, IH; [|naive_solver].
    apply filter_congr. intros x _. set_solver.
Qed.

(** Named surfaces first, in the order of their first mention, then the others. *)
Definition completed_order live ids : list Z :=
  filter (.∈ live) (nub ids) ++ filter (.∉ ids) live.

Lemma resolved_order_completed live ids :
  NoDup live → resolved_order live ids = completed_order live ids.
Proof.
  intros Hl. rewrite resolved_order_eq by done. unfold completed_order. f_equal.
  - rewrite resolve_nub. apply filter_congr. set_solver.
  - apply filter_congr. intros x Hx. rewrite elem_of_resolve. set_solver.
Qed.

(** An order of the live surfaces is resolved to itself. *)
Lemma resolved_order_id live ids :
  NoDup live → Permutation ids live → resolved_order live ids = ids.
Proof.
  intros Hl Hp. assert (NoDup ids) as Hids by (by rewrite Hp).
  rewrite resolved_order_eq by done.
  rewrite resolve_filter, (filter_all _ ids); [|by intros x; rewrite Hp|done|set_solver].
  rewrite filter_none; [by rewrite app_nil_r|]. intros x. rewrite Hp. tauto.
Qed.
End order.

(** ** Well-formed lists of surfaces *)

(** The highest number whose place on the screen has representable coordinates. *)
Definition kMaxNumber : Z := 59652321.

Abbreviation live m := (surfaces (fields (list_node m))).
Abbreviation z_order m := (desktop_z_order (fields (list_node m))).

(** [k] more commands: every node has the budget, and the numbers have room. *)
Record surface_ok (k list_id : Z) (n : SurfaceNode) : Prop := {
  surface_budget : Budget k n;
  surface_parent : parent (fields n) = Some list_id;
  surface_number : 0 ≤ number (fields n) ∧ number (fields n) + k ≤ kMaxNumber
}.

Record surfaces_ok (k : Z) (m : SurfacesModel) : Prop := {
  list_budget : Budget k (list_node m);
  live_NoDup : NoDup (live m);
  z_order_NoDup : NoDup (z_order m);
  z_order_live : ∀ x, x ∈ z_order m → x ∈ live m;
  current_live : ∀ x, mobile_current (fields (list_node m)) = Some x → x ∈ live m;
  live_objects : ∀ x, x ∈ live m → is_Some (objects m !! x);
  objects_ok : ∀ x n, objects m !! x = Some n → surface_ok k (obj_id (list_node m)) n;
  numbers_differ : ∀ x y a b, x ∈ live m → y ∈ live m → objects m !! x = Some a →
    objects m !! y = Some b → number (fields a) = number (fields b) → x = y;
  has_app : has_application m = true
}.

Section commands.
  Implicit Types (m : SurfacesModel) (k : Z) (now : Readings).

Lemma surface_ok_weaken k k' i n : k' ≤ k → surface_ok k i n → surface_ok k' i n.
Proof. intros Hk [Hb Hp Hn]. split; [by apply (Budget_weaken k)|done|lia]. Qed.

Lemma surfaces_ok_weaken k k' m : k' ≤ k → surfaces_ok k m → surfaces_ok k' m.
Proof.
  intros Hk [Hb ????? Ho ??]. split; try done; [by apply (Budget_weaken k)|].
  intros x n Hx. eapply surface_ok_weaken; [done|]. by eapply Ho.
Qed.

(** A commit on the list. *)
Lemma commit_list_some k m e now f :
  0 ≤ k → clock_within (k + 1) now → Budget (k + 1) (list_node m) →
  Apply_Surfaces (fields (list_node m)) e = Some f →
  ∃ n, commit_list m e now = Some (with_list m n) ∧ fields n = f ∧
    obj_id n = obj_id (list_node m) ∧ Budget k n.
Proof.
  intros Hk Hnow Hb Hf.
  destruct (Commit_Budget k (list_node m) e now f true) as (n & r & Hn & Hbn & Hfn & Hi & _);
    [done..|cbn; by rewrite Hf|].
  exists n. unfold commit_list. fold (created (list_node m) e). by rewrite Hn.
Qed.

(** One that adds no surface. *)
Lemma commit_list_ok k m e now f :
  0 ≤ k → clock_within (k + 1) now → surfaces_ok (k + 1) m →
  Apply_Surfaces (fields (list_node m)) e = Some f →
  NoDup (surfaces f) → NoDup (desktop_z_order f) →
  (∀ x, x ∈ desktop_z_order f → x ∈ surfaces f) →
  (∀ x, mobile_current f = Some x → x ∈ surfaces f) → surfaces f ⊆ live m →
  ∃ m', commit_list m e now = Some m' ∧ surfaces_ok k m' ∧ fields (list_node m') = f ∧
    objects m' = objects m.
Proof.
  intros Hk Hnow [Hb _ _ _ _ Hl Ho Hd Ha] Hf H1 H2 H3 H4 Hsub.
  destruct (commit_list_some k m e now f) as (n & Hn & <- & Hi & Hbn); [done..|].
  eexists. split; [done|]. split; [|done]. split; cbn; auto.
  - intros x y Hx. rewrite Hi. eapply surface_ok_weaken; [|by eapply Ho]. lia.
  - intros x y a b Hx Hy. apply Hd; auto.
Qed.

(** A change of a surface that keeps its number. *)
Lemma commit_object_ok k m id n e now :
  0 ≤ k → clock_within (k + 1) now → surfaces_ok (k + 1) m → objects m !! id = Some n →
  ∃ m' n', commit_object m id e now = Some m' ∧ surfaces_ok k m' ∧
    list_node m' = list_node m ∧ objects m' = <[id := n']> (objects m) ∧
    fields n' = Apply_Surface (fields n) e.
Proof.
  intros Hk Hnow Hok Hid. pose proof (objects_ok _ _ Hok id n Hid) as [Hb Hp Hnum].
  destruct (Commit_Budget k n e now (Apply_Surface (fields n) e) true)
    as (n' & r & Hn & Hbn & Hfn & Hi & _); [done..|].
  unfold commit_object. rewrite Hid. cbn [mbind option_bind]. fold (created n e). rewrite Hn.
  eexists _, n'. split; [reflexivity|]. split; [|done].
  assert (number (fields n') = number (fields n) ∧ parent (fields n') = parent (fields n)) as [Hn1 Hn2].
  { rewrite Hfn. by destruct (fields n), e. }
  destruct Hok as [Hbl ????? Ho Hd ?].
  split; cbn; try done; [apply (Budget_weaken (k + 1)); [lia|done]|..].
  - intros x Hx. destruct (decide (x = id)) as [->|]; simplify_map_eq; [done|auto].
  - intros x y Hx. apply lookup_insert_Some in Hx as [[<- <-]|[_ Hx]].
    + split; [done|by rewrite Hn2|rewrite Hn1; lia].
    + eapply surface_ok_weaken; [|by eapply Ho]. lia.
  - intros x y a b Hx Hy Ha Hb'. apply lookup_insert_Some in Ha as [[<- <-]|[_ Ha]];
      apply lookup_insert_Some in Hb' as [[<- <-]|[_ Hb']]; rewrite ?Hn1; eauto.
Qed.

(** *** The operations *)

Lemma next_number_spec k m l next :
  (∀ x, x ∈ l → ∃ n, objects m !! x = Some n ∧ 0 ≤ number (fields n) ∧
    number (fields n) + (k + 1) ≤ kMaxNumber) →
  0 ≤ k → 1 ≤ next → next + k ≤ kMaxNumber →
  ∃ v, next_number m l next = Some v ∧ next ≤ v ∧ v + k ≤ kMaxNumber ∧
    ∀ x n, x ∈ l → objects m !! x = Some n → number (fields n) < v.
Proof.
  intros Hl Hk. revert next. induction l as [|x l IH]; intros next H1 H2; cbn [next_number].
  { exists next. split; [done|]. split; [lia|]. split; [done|]. set_solver. }
  destruct (Hl x) as (n & Hn & Hpos & Hmax); [set_solver|]. rewrite Hn. cbn [mbind option_bind].
  set (next' := if next <=? _ then _ else _).
  assert (next ≤ next' ∧ number (fields n) < next' ∧ next' + k ≤ kMaxNumber) as (H3 & H4 & H5).
  { unfold next'. destruct (next <=? number (fields n)) eqn:E; breflect; [|lia].
    rewrite u32_small by (unfold is_u32, kMaxNumber in *; lia). lia. }
  destruct (IH ltac:(set_solver) next') as (v & Hv & Hle & Hvm & Hall); [lia|done|].
  exists v. split; [done|]. split; [lia|]. split; [done|].
  intros y ny Hy Hly. apply elem_of_cons in Hy as [->|Hy]; [|eauto].
  simplify_eq. lia.
Qed.

(** The place of a window with a number in range. *)
Lemma AssignInitialDesktopBounds_spec f :
  1 ≤ number f ≤ kMaxNumber →
  AssignInitialDesktopBounds f =
    Some (mkSurface (number f) (120 + 36 * (number f - 1)) (120 + 36 * (number f - 1))
            360 240 360 240 (parent f) (chrome f)).
Proof.
  unfold kMaxNumber. intros Hf. unfold AssignInitialDesktopBounds.
  rewrite (proj2 (Z.ltb_lt _ _)) by lia.
  assert (i32 (u32 ((number f - 1) * kCascade)) = 36 * (number f - 1)) as ->.
  { unfold kCascade. rewrite u32_small by (unfold is_u32; lia). unfold i32.
    rewrite Z.mod_small; lia. }
  unfold i32_add, kBaseX, kBaseY. rewrite bool_decide_eq_true_2 by lia. cbn [mbind option_bind].
  done.
Qed.

Lemma AddSurface_ok k m self new_id base_id presenters now :
  0 ≤ k → clock_within (k + 1) now → surfaces_ok (k + 1) m →
  is_Some (objects m !! self) → objects m !! new_id = None → base_id ≠ new_id →
  ∃ m' n, AddSurface m self new_id base_id presenters now = Some m' ∧ surfaces_ok k m' ∧
    live m' = live m ++ [new_id] ∧ z_order m' = z_order m ++ [new_id] ∧
    mobile_current (fields (list_node m')) = mobile_current (fields (list_node m)) ∧
    objects m' = <[new_id := n]> (objects m) ∧
    (∀ x a, x ∈ live m → objects m !! x = Some a → number (fields a) < number (fields n)) ∧
    desktop_x (fields n) = 120 + 36 * (number (fields n) - 1) ∧
    desktop_y (fields n) = 120 + 36 * (number (fields n) - 1) ∧
    (∀ s, objects m !! self = Some s → materialized_change_fn_ n = materialized_change_fn_ s).
Proof.
  intros Hk Hnow Hok [s Hs] Hnew Hbase. unfold AddSurface. rewrite Hs. cbn [mbind option_bind].
  pose proof (objects_ok _ _ Hok self s Hs) as [_ Hp Hnum].
  rewrite Hp, bool_decide_eq_true_2 by done.
  destruct (next_number_spec k m (live m) 1) as (v & -> & Hv1 & Hvk & Hlt); [|lia..|].
  { intros x Hx. destruct (live_objects _ _ Hok x Hx) as [n Hn].
    exists n. by destruct (objects_ok _ _ Hok x n Hn) as [_ _ []]. }
  cbn [mbind option_bind]. rewrite AssignInitialDesktopBounds_spec by (cbn; lia).
  cbn [mbind option_bind number parent chrome desktop_x desktop_y desktop_width desktop_height
    presentation_width presentation_height].
  rewrite (has_app _ _ Hok).
  destruct (list_budget _ _ Hok) as [_ _ _ [d Hd] _]. rewrite Hd.
  unfold InitializeRuntimeNodeFrom.
  destruct (InitializeRuntimeNode_Budget (Ev := SurfaceEvent) (k + 1) new_id base_id d
    (mkSurface v (120 + 36 * (v - 1)) (120 + 36 * (v - 1)) 360 240 360 240 (Some (obj_id (list_node m))) presenters))
    as (n & -> & Hfn & _ & _ & Hbn); [unfold kMaxNumber, kSizeMax in *; lia|done|done|].
  cbn [mbind option_bind]. set (n' := set_notifier n _). set (m1 := with_object m new_id n').
  assert (fields n' = fields n) as Hfn' by done.
  assert (Budget (k + 1) n') as Hbn' by (by destruct Hbn as [[] ????]).
  assert (new_id ∉ live m) as Hnl.
  { intros Hin. destruct (live_objects _ _ Hok _ Hin). congruence. }
  assert (number (fields n') = v) as Hv by (by rewrite Hfn', Hfn).
  destruct (commit_list_some k m1 (AddSurfaceEvent new_id) now _ Hk Hnow (list_budget _ _ Hok)
    eq_refl) as (ln & -> & Hfl & Hil & Hbl).
  eexists _, n'. split; [reflexivity|]. cbn [list_node with_list]. rewrite Hfl.
  split; [|rewrite Hfn', Hfn; cbn; repeat split; [done|congruence]].
  destruct Hok as [_ Hnd Hzn Hzl Hcl Hlo Hob Hdi Happ].
  split; cbn [list_node with_list objects has_application with_object m1]; rewrite ?Hfl; cbn; auto.
  - apply list.NoDup_app. split; [done|]. split; [|apply list.NoDup_singleton]. set_solver.
  - apply list.NoDup_app. split; [done|]. split; [|apply list.NoDup_singleton]. set_solver.
  - set_solver.
  - set_solver.
  - intros x Hx. destruct (decide (x = new_id)) as [->|]; simplify_map_eq; [done|]. set_solver.
  - intros x y Hx. rewrite Hil. apply lookup_insert_Some in Hx as [[<- <-]|[_ Hx]].
    + split; [apply (Budget_weaken (k + 1)); [lia|done]|by rewrite Hfn', Hfn|rewrite Hv; lia].
    + eapply surface_ok_weaken; [|by eapply Hob]. lia.
  - intros x y a b Hx Hy Ha Hb. apply lookup_insert_Some in Ha as [[<- <-]|[Hxn Ha]];
      apply lookup_insert_Some in Hb as [[<- <-]|[Hyn Hb]]; rewrite ?Hv; [done|..];
      [intros Hab; assert (y ∈ live m) as Hl by set_solver; specialize (Hlt y b Hl Hb); lia
      |intros Hab; assert (x ∈ live m) as Hl by set_solver; specialize (Hlt x a Hl Ha); lia
      |apply Hdi; set_solver].
Qed.

Lemma Remove_ok k m self now :
  0 ≤ k → clock_within (k + 1) now → surfaces_ok (k + 1) m → is_Some (objects m !! self) →
  ∃ m', Remove m self now = Some m' ∧ surfaces_ok k m' ∧
    live m' = filter (λ x, x ≠ self) (live m) ∧ objects m' = objects m.
Proof.
  intros Hk Hnow Hok [s Hs]. unfold Remove. rewrite Hs. cbn [mbind option_bind].
  destruct (objects_ok _ _ Hok self s Hs) as [_ Hp _].
  rewrite Hp, bool_decide_eq_true_2 by done.
  destruct (bool_decide (self ∈ live m)) eqn:El; breflect; cbn [negb].
  - destruct (commit_list_ok k m (RemoveSurfaceEvent self) now
      (mkSurfaces (filter (λ x, x ≠ self) (live m))
         (if bool_decide (mobile_current (fields (list_node m)) = Some self) then None
          else mobile_current (fields (list_node m)))
         (filter (λ x, x ≠ self) (z_order m)))) as (m' & Hm & Hok' & Hf & Ho); try done.
    + cbn [Apply_Surfaces]. rewrite bool_decide_eq_true_2 by done.
      by rewrite erase_first_spec by apply (live_NoDup _ _ Hok).
    + apply list.NoDup_filter, (live_NoDup _ _ Hok).
    + apply list.NoDup_filter, (z_order_NoDup _ _ Hok).
    + intros x. cbn. rewrite !list_elem_of_filter. pose proof (z_order_live _ _ Hok x). tauto.
    + intros x. cbn. rewrite list_elem_of_filter.
      destruct (bool_decide _) eqn:Ec; [done|]; breflect.
      intros Hx. split; [congruence|]. by apply (current_live _ _ Hok).
    + intros x. cbn. rewrite list_elem_of_filter. tauto.
    + exists m'. split; [done|]. split; [done|]. by rewrite Hf.
  - exists m. split; [done|]. split; [apply (surfaces_ok_weaken (k + 1)); [lia|done]|].
    split; [|done]. symmetry. apply filter_all. congruence.
Qed.

Lemma MakeCurrent_ok k m self now :
  0 ≤ k → clock_within (k + 1) now → surfaces_ok (k + 1) m → is_Some (objects m !! self) →
  ∃ m', MakeCurrent m self now = Some m' ∧ surfaces_ok k m' ∧ objects m' = objects m ∧
    live m' = live m ∧ (self ∈ live m → mobile_current (fields (list_node m')) = Some self).
Proof.
  intros Hk Hnow Hok [s Hs]. unfold MakeCurrent. rewrite Hs. cbn [mbind option_bind].
  destruct (objects_ok _ _ Hok self s Hs) as [_ Hp _].
  rewrite Hp, bool_decide_eq_true_2 by done.
  assert (surfaces_ok k m) by (apply (surfaces_ok_weaken (k + 1)); [lia|done]).
  destruct (bool_decide (mobile_current _ = _)) eqn:Ec; breflect; [by exists m|].
  destruct (bool_decide (self ∈ live m)) eqn:El; breflect; cbn [negb]; [|by exists m].
  destruct (commit_list_ok k m (SetCurrentSurfaceEvent self) now
    (mkSurfaces (live m) (Some self) (z_order m))) as (m' & Hm & Hok' & Hf & Ho); try done.
  - apply (live_NoDup _ _ Hok).
  - apply (z_order_NoDup _ _ Hok).
  - apply (z_order_live _ _ Hok).
  - by intros x [= ->].
  - exists m'. split; [done|]. split; [done|]. split; [done|]. by rewrite Hf.
Qed.

Lemma SetDesktopZOrder_ok k m ids now :
  0 ≤ k → clock_within (k + 1) now → surfaces_ok (k + 1) m →
  ∃ m', SetDesktopZOrderFromObjIds m ids now = Some m' ∧ surfaces_ok k m' ∧
    objects m' = objects m ∧ live m' = live m ∧ z_order m' = resolved_order (live m) ids.
Proof.
  intros Hk Hnow Hok. unfold SetDesktopZOrderFromObjIds.
  assert (surfaces_ok k m) by (apply (surfaces_ok_weaken (k + 1)); [lia|done]).
  pose proof (live_NoDup _ _ Hok) as Hl.
  pose proof (resolved_order_Permutation (live m) ids Hl) as Hp.
  destruct (bool_decide _) eqn:Ez; breflect; [by exists m|].
  destruct (commit_list_ok k m (SetDesktopZOrderEvent (resolved_order (live m) ids)) now
    (mkSurfaces (live m) (mobile_current (fields (list_node m))) (resolved_order (live m) ids)))
    as (m' & Hm & Hok' & Hf & Ho); cbn; try done.
  - by rewrite Hp.
  - intros x. by rewrite Hp.
  - apply (current_live _ _ Hok).
  - exists m'. split; [done|]. split; [done|]. split; [done|]. by rewrite Hf.
Qed.
End commands.

(** ** Sequences of commands *)

(** The surface that a command names is an object of the Domain, live or not; the identifiers
    that the Domain gives are new. *)
Definition command_ok (known : gset Z) (c : Command) : Prop :=
  match c with
  | AddClick self new_id base_id _ => self ∈ known ∧ new_id ∉ known ∧ base_id ≠ new_id
  | RemoveClick self | PageShown self | BoundsChanged self _ _ _ _
  | PresentationSizeChanged self _ _ => self ∈ known
  | DesktopZOrder _ => True
  end.

Definition known_after (known : gset Z) (c : Command) : gset Z :=
  match c with AddClick _ new_id _ _ => {[new_id]} ∪ known | _ => known end.

Fixpoint commands_ok (k : Z) (known : gset Z) (cs : list (Command * Readings)) : Prop :=
  match cs with
  | [] => True
  | (c, now) :: cs =>
      command_ok known c ∧ clock_within k now ∧ commands_ok k (known_after known c) cs
  end.

Section runs.
  Implicit Types (m : SurfacesModel) (k : Z) (now : Readings) (cs : list (Command * Readings)).

Lemma Invoke_ok k m c now :
  0 ≤ k → clock_within (k + 1) now → surfaces_ok (k + 1) m → command_ok (dom (objects m)) c →
  ∃ m', Invoke m c now = Some m' ∧ surfaces_ok k m' ∧
    dom (objects m') = known_after (dom (objects m)) c.
Proof.
  intros Hk Hnow Hok Hc.
  assert (surfaces_ok k m) by (apply (surfaces_ok_weaken (k + 1)); [lia|done]).
  assert (∀ id e, id ∈ dom (objects m) → ∃ m', commit_object m id e now = Some m' ∧
    surfaces_ok k m' ∧ dom (objects m') = dom (objects m)) as Hcommit.
  { intros id e Hid. pose proof Hid as [n Hn]%elem_of_dom.
    destruct (commit_object_ok k m id n e now Hk Hnow Hok Hn) as (m' & n' & Hm & Hok' & _ & Ho & _).
    exists m'. split; [done|]. split; [done|]. rewrite Ho. set_solver. }
  destruct c as [self new_id base_id ps|self|self|self x y w h|self w h|ids]; cbn in Hc |- *.
  - destruct Hc as (Hself & Hnew & Hbase).
    destruct (AddSurface_ok k m self new_id base_id ps now)
      as (m' & n & Hm & Hok' & _ & _ & _ & Ho & _); try done.
    { by apply elem_of_dom. } { by apply not_elem_of_dom. }
    exists m'. split; [done|]. split; [done|]. rewrite Ho. set_solver.
  - destruct (Remove_ok k m self now) as (m' & ? & ? & _ & Ho); try done; [by apply elem_of_dom|].
    exists m'. by rewrite Ho.
  - destruct (MakeCurrent_ok k m self now) as (m' & ? & ? & Ho & _); try done; [by apply elem_of_dom|].
    exists m'. by rewrite Ho.
  - unfold SetDesktopBounds. pose proof Hc as [n Hn]%elem_of_dom. rewrite Hn.
    cbn [mbind option_bind]. case_if_dec; [by exists m|auto].
  - unfold SetPresentationSize. pose proof Hc as [n Hn]%elem_of_dom. rewrite Hn.
    cbn [mbind option_bind]. case_if_dec; [by exists m|auto].
  - destruct (SetDesktopZOrder_ok k m ids now) as (m' & ? & ? & Ho & _); try done.
    exists m'. by rewrite Ho.
Qed.

Lemma Invoke_all_cons m c now cs :
  Invoke_all m ((c, now) :: cs) = (m ← Invoke m c now; Invoke_all m cs).
Proof.
  unfold Invoke_all. cbn. destruct (Invoke m c now); [done|]. induction cs; [done|]. done.
Qed.

Lemma commands_ok_weaken k k' known cs : k' ≤ k → commands_ok k known cs → commands_ok k' known cs.
Proof.
  intros Hk. revert known. induction cs as [|[c now] cs IH]; intros known; cbn; [done|].
  intros (? & ? & ?). split; [done|]. split; [by eapply clock_within_weaken|auto].
Qed.

(** C34. Any sequence of what the presenters post (additions and removals by live or removed
    surfaces, pages shown, bounds and sizes, orders of windows that name anything) is executed
    without a failed assertion and keeps the surfaces well formed: the list and the order of
    the windows have no repetition, the order and the current page are live surfaces, every
    live surface is an object of the Domain, and the numbers of live surfaces differ. *)
Theorem commands_keep_surfaces_ok k m cs :
  0 ≤ k → surfaces_ok (k + zlen cs) m → commands_ok (k + zlen cs) (dom (objects m)) cs →
  ∃ m', Invoke_all m cs = Some m' ∧ surfaces_ok k m'.
Proof.
  intros Hk. revert m. induction cs as [|[c now] cs IH]; intros m.
  { intros Hok _. exists m. by rewrite zlen_nil, Z.add_0_r in Hok. }
  rewrite zlen_cons, Invoke_all_cons. intros Hok (Hc & Hnow & Hcs).
  pose proof (zlen_nonneg cs).
  replace (k + (1 + zlen cs)) with (k + zlen cs + 1) in * by lia.
  destruct (Invoke_ok (k + zlen cs) m c now ltac:(lia) Hnow Hok Hc) as (m' & -> & Hok' & Hd).
  cbn [mbind option_bind]. apply IH; [done|]. rewrite Hd.
  eapply commands_ok_weaken; [|done]. lia.
Qed.

(** Whatever the user interface reports as the order of the windows (identifiers that
    are repeated, of removed surfaces, of no surface, or not all of the live ones), the
    order becomes one of exactly the live surfaces: those that are named, in the order of
    their first mention, then the others in the order of the list; reporting it again, or
    reporting the result, changes nothing. *)
Theorem SetDesktopZOrder_completes k m ids now :
  0 ≤ k → clock_within (k + 1) now → surfaces_ok (k + 1) m →
  ∃ m', SetDesktopZOrderFromObjIds m ids now = Some m' ∧ live m' = live m ∧
    z_order m' = completed_order (live m) ids ∧ Permutation (z_order m') (live m) ∧
    (∀ now', SetDesktopZOrderFromObjIds m' ids now' = Some m') ∧
    (∀ now', SetDesktopZOrderFromObjIds m' (z_order m') now' = Some m').
Proof.
  intros Hk Hnow Hok. pose proof (live_NoDup _ _ Hok) as Hl.
  destruct (SetDesktopZOrder_ok k m ids now Hk Hnow Hok) as (m' & Hm & _ & _ & Hlive & Hz).
  pose proof (resolved_order_Permutation (live m) ids Hl) as Hp.
  exists m'. split; [done|]. split; [done|]. split; [by rewrite Hz, resolved_order_completed|].
  split; [by rewrite Hz|]. unfold SetDesktopZOrderFromObjIds.
  split; intros now'; rewrite Hlive.
  - by rewrite Hz, bool_decide_eq_true_2.
  - by rewrite resolved_order_id, bool_decide_eq_true_2 by (rewrite ?Hz; done).
Qed.
End runs.

(** ** A run *)
Module Examples.

Definition app_list : SurfacesNode := fresh 10 (mkSurfaces [20] None [20]).
Definition first_surface : SurfaceNode :=
  fresh 20 (mkSurface 1 120 120 360 240 360 240 (Some 10) [Some 30; Some 31; Some 32; Some 33]).
Definition one_surface : SurfacesModel := mkModel app_list {[20 := first_surface]} true.

Definition the_time : Readings := λ _, 1000.

Lemma the_time_within k : k < 1000000 → clock_within k the_time.
Proof. intros Hk i. unfold the_time, kMaxUint64. lia. Qed.

Lemma one_surface_ok k : 0 ≤ k < 1000000 → surfaces_ok k one_surface.
Proof.
  intros Hk. assert (k < kSizeMax) by (unfold kSizeMax; lia).
  split; cbn; [by apply fresh_budget|apply list.NoDup_singleton|apply list.NoDup_singleton|done|done| | | |done].
  - intros x ->%list_elem_of_singleton. by rewrite lookup_singleton.
  - intros x n [<- <-]%lookup_singleton_Some.
    split; [by apply fresh_budget|done|cbn; unfold kMaxNumber; lia].
  - set_solver.
Qed.

Definition session : list (Command * Readings) :=
  [(AddClick 20 40 41 [], the_time); (AddClick 40 50 51 [], the_time); (PageShown 40, the_time);
   (DesktopZOrder [50; 7; 50; 20], the_time); (RemoveClick 40, the_time);
   (RemoveClick 40, the_time); (PageShown 40, the_time); (AddClick 40 60 61 [], the_time)].

Example session_result :
  (m ← Invoke_all one_surface session;
   Some (fields (list_node m), (λ id, number ∘ fields <$> objects m !! id) <$> [20; 40; 50; 60])) =
  Some (mkSurfaces [20; 50; 60] None [50; 20; 60], [Some 1; Some 2; Some 3; Some 4]).
Proof. vm_compute. reflexivity. Qed.

Lemma commands_keep_surfaces_ok_witness :
  ∃ m', Invoke_all one_surface session = Some m' ∧ surfaces_ok 0 m'.
Proof.
  apply (commands_keep_surfaces_ok 0 one_surface session); [lia|by apply one_surface_ok|].
  cbn -[the_time]. repeat split; try (apply the_time_within; done); set_solver.
Defined.

Lemma SetDesktopZOrder_completes_witness :
  ∃ m', SetDesktopZOrderFromObjIds one_surface [7; 7] the_time = Some m' ∧
    live m' = live one_surface ∧ z_order m' = completed_order (live one_surface) [7; 7] ∧
    Permutation (z_order m') (live one_surface) ∧
    (∀ now', SetDesktopZOrderFromObjIds m' [7; 7] now' = Some m') ∧
    (∀ now', SetDesktopZOrderFromObjIds m' (z_order m') now' = Some m').
Proof.
  apply (SetDesktopZOrder_completes 0); [lia|by apply the_time_within|by apply one_surface_ok].
Defined.
End Examples.
