(* ===== verification/SizeQueue.v ===== *)
(** * The queue of presentation sizes

    Models src/surfaces/surfaces_presentation_size_queue.cpp: sizes that the user interface
    reports are kept per surface, the latest one, and a single task of the model's thread
    drains them.  A step of the machine is what runs under the mutex of the queue, a call of
    [post_] or of the Domain, so that every interleaving of the two threads is a sequence of
    actions. *)
From S2P Require Import Prelude.

(** ** State *)

Definition Size : Type := Z * Z.

(** Where the drain task is.  [keys]: the surfaces of the pass that are left. *)
Inductive Drain :=
| NoDrain
| SnapshotKeys
| NextKey (keys : list Z) (need_again : bool)
| FindObject (key : Z) (size : Size) (keys : list Z) (need_again : bool)
| ReadAgain (key : Z) (size : Size) (keys : list Z) (need_again : bool)
| SetSize (key : Z) (size : Size) (keys : list Z) (need_again : bool)
| CheckSlot (key : Z) (size : Size) (keys : list Z) (need_again : bool)
| EnsureAgain
| PostAgain.

(** [to_ensure], [to_post]: the calls of [Post] that are before the lock of
    [EnsureDrainScheduled], and between it and [post_].  [posted]: the tasks in the queue of
    the model's thread.  [sizes]: the surfaces of the Domain with their presentation size;
    [reported]: what was last reported. *)
Record State := mkState {
  post_bound : bool;
  drain_scheduled : bool;
  slots : gmap Z Size;
  to_ensure : nat;
  to_post : nat;
  posted : nat;
  drain : Drain;
  sizes : gmap Z Size;
  reported : gmap Z Size
}.

Definition new_queue (objects : gmap Z Size) : State :=
  mkState false false ∅ 0 0 0 NoDrain objects ∅.

Definition with_slots (s : State) l :=
  mkState (post_bound s) (drain_scheduled s) l (to_ensure s) (to_post s) (posted s) (drain s)
    (sizes s) (reported s).
Definition with_drain (s : State) d :=
  mkState (post_bound s) (drain_scheduled s) (slots s) (to_ensure s) (to_post s) (posted s) d
    (sizes s) (reported s).
Definition with_sizes (s : State) z :=
  mkState (post_bound s) (drain_scheduled s) (slots s) (to_ensure s) (to_post s) (posted s)
    (drain s) z (reported s).

(** ** The user interface's thread *)

Definition BindPostWork (s : State) : State :=
  mkState true (drain_scheduled s) (slots s) (to_ensure s) (to_post s) (posted s) (drain s)
    (sizes s) (reported s).

(** The first block of [Post]; the call goes on to [EnsureDrainScheduled]. *)
Definition Post (s : State) (key : Z) (size : Size) : option State :=
  assert! post_bound s ;;
  Some (mkState (post_bound s) (drain_scheduled s) (<[key := size]> (slots s))
          (S (to_ensure s)) (to_post s) (posted s) (drain s) (sizes s)
          (<[key := size]> (reported s))).

(** The first block of [EnsureDrainScheduled]: whether the caller goes on to [post_]. *)
Definition schedule (s : State) : option (State * bool) :=
  assert! post_bound s ;;
  if drain_scheduled s then Some (s, false)
  else Some (mkState (post_bound s) true (slots s) (to_ensure s) (to_post s) (posted s)
               (drain s) (sizes s) (reported s), true).

Definition Ensure (s : State) : option State :=
  match to_ensure s with
  | O => None
  | S n =>
      p ← schedule s;
      let s := p.1 in
      Some (mkState (post_bound s) (drain_scheduled s) (slots s) n
              (if p.2 : bool then S (to_post s) else to_post s) (posted s) (drain s) (sizes s)
              (reported s))
  end.

(** [post_(task)] of a call of [Post]. *)
Definition PostTask (s : State) : option State :=
  match to_post s with
  | O => None
  | S n => Some (mkState (post_bound s) (drain_scheduled s) (slots s) (to_ensure s) n
                   (S (posted s)) (drain s) (sizes s) (reported s))
  end.

(** ** The model's thread *)

(** The thread takes a task: its first block. *)
Definition TakeTask (s : State) : option State :=
  match drain s, posted s with
  | NoDrain, S n => Some (mkState (post_bound s) false (slots s) (to_ensure s) (to_post s) n
                            SnapshotKeys (sizes s) (reported s))
  | _, _ => None
  end.

(** The next step of a task.  [order]: the order in which the hash table gives the keys. *)
Definition DrainStep (order : list Z → list Z) (s : State) : option State :=
  match drain s with
  | NoDrain => None
  | SnapshotKeys => Some (with_drain s (NextKey (order (map_to_list (slots s)).*1) false))
  | NextKey [] need => Some (with_drain s (if need then EnsureAgain else NoDrain))
  | NextKey (k :: keys) need =>
      match slots s !! k with
      | None => Some (with_drain s (NextKey keys need))
      | Some size => Some (with_drain s (FindObject k size keys need))
      end
  | FindObject k size keys need =>
      match sizes s !! k with
      | None => Some (with_drain (with_slots s (delete k (slots s))) (NextKey keys need))
      | Some _ => Some (with_drain s (ReadAgain k size keys need))
      end
  | ReadAgain k size keys need =>
      match slots s !! k with
      | None => Some (with_drain s (NextKey keys need))
      | Some size' =>
          let size := if bool_decide (size' ≠ size) then size' else size in
          Some (with_drain s (SetSize k size keys need))
      end
  | SetSize k size keys need =>
      Some (with_drain (with_sizes s (<[k := size]> (sizes s))) (CheckSlot k size keys need))
  | CheckSlot k size keys need =>
      match slots s !! k with
      | None => Some (with_drain s (NextKey keys need))
      | Some size' =>
          if bool_decide (size' = size)
          then Some (with_drain (with_slots s (delete k (slots s))) (NextKey keys need))
          else Some (with_drain s (NextKey keys true))
      end
  | EnsureAgain =>
      p ← schedule s;
      Some (with_drain p.1 (if p.2 : bool then PostAgain else NoDrain))
  | PostAgain =>
      Some (mkState (post_bound s) (drain_scheduled s) (slots s) (to_ensure s) (to_post s)
              (S (posted s)) NoDrain (sizes s) (reported s))
  end.

(** Other work of the model's thread: a new surface, which has not been reported. *)
Definition NewSurface (s : State) (key : Z) (size : Size) : option State :=
  match drain s with
  | NoDrain =>
      if bool_decide (sizes s !! key = None ∧ reported s !! key = None)
      then Some (with_sizes s (<[key := size]> (sizes s))) else None
  | _ => None
  end.

(** ** Interleavings *)

Inductive Action :=
| Report (key : Z) (size : Size)
| RunEnsure
| RunPost
| RunTake
| RunDrain (order : list Z → list Z)
| RunOther (key : Z) (size : Size).

(** [None]: the thread is not at this step, or an assertion fails. *)
Definition step (s : State) (a : Action) : option State :=
  match a with
  | Report key size => Post s key size
  | RunEnsure => Ensure s
  | RunPost => PostTask s
  | RunTake => TakeTask s
  | RunDrain order => DrainStep order s
  | RunOther key size => NewSurface s key size
  end.

Definition run (s : State) (actions : list Action) : option State :=
  foldl (λ s a, s ← s; step s a) (Some s) actions.

Definition PendingSurfaceCountForTest (s : State) : Z := Z.of_nat (size (slots s)).

(** ** The proxies *)

(** The counters of the queue, and what each proxy is bound to: the queue itself, as there is
    one queue. *)
Record Proxies := mkProxies { proxy_refs : gmap Z Z; bound : gset Z }.

Definition BindProxy (p : Proxies) (proxy : Z) : Proxies :=
  mkProxies (<[proxy := default 0 (proxy_refs p !! proxy) + 1]> (proxy_refs p))
    ({[proxy]} ∪ bound p).

Definition UnbindProxy (p : Proxies) (proxy : Z) : Proxies :=
  match proxy_refs p !! proxy with
  | None => p
  | Some n =>
      mkProxies (if n - 1 =? 0 then delete proxy (proxy_refs p)
                 else <[proxy := n - 1]> (proxy_refs p))
        (bound p ∖ {[proxy]})
  end.

(** [PostSurfacePresentationSize]: through the queue when the proxy is bound, otherwise as a
    call of the surface's method. *)
Inductive Route := ThroughQueue | DirectInvoke.
Definition PostSurfacePresentationSize (p : Proxies) (proxy : Z) : Route :=
  if bool_decide (proxy ∈ bound p) then ThroughQueue else DirectInvoke.
