(* ===== verification/SizeQueueTheory.v ===== *)
(** * What holds of the queue of presentation sizes

    Under every interleaving at most one task is queued and no report is lost: when the
    threads have nothing left to do, the queue is empty and every surface has the size that
    was reported last.  Without further reports they get there in a bounded number of steps. *)
From S2P Require Import Prelude SizeQueue.

(** The hash table lists each key once, in any order. *)
Definition action_ok (a : Action) : Prop :=
  match a with RunDrain order => ∀ l, Permutation (order l) l | _ => True end.

(** A step of the threads that is no report and no other work. *)
Definition internal (a : Action) : Prop :=
  match a with Report _ _ | RunOther _ _ => False | _ => True end.

Definition Quiescent (s : State) : Prop :=
  to_ensure s = 0%nat ∧ to_post s = 0%nat ∧ posted s = 0%nat ∧ drain s = NoDrain.

(** What the drain task will look at again. *)
Definition covers (d : Drain) (k : Z) : Prop :=
  match d with
  | NoDrain => False
  | SnapshotKeys | EnsureAgain | PostAgain => True
  | NextKey keys need => need = true ∨ k ∈ keys
  | FindObject k' _ keys need | ReadAgain k' _ keys need
  | SetSize k' _ keys need | CheckSlot k' _ keys need => need = true ∨ k = k' ∨ k ∈ keys
  end.

(** The surface that the drain task is at has a slot; after [SetPresentationSize] it has the
    size that was set. *)
Definition at_key (s : State) : Prop :=
  match drain s with
  | FindObject k _ _ _ | ReadAgain k _ _ _ | SetSize k _ _ _ => is_Some (slots s !! k)
  | CheckSlot k z _ _ => is_Some (slots s !! k) ∧ sizes s !! k = Some z
  | _ => True
  end.

Definition tasks (s : State) : nat :=
  to_post s + posted s + match drain s with PostAgain => 1 | _ => 0 end.

Record queue_inv (s : State) : Prop := {
  inv_bound : post_bound s = true;
  inv_tasks : tasks s = if drain_scheduled s then 1%nat else 0%nat;
  inv_slots : ∀ k v, slots s !! k = Some v → reported s !! k = Some v;
  inv_applied : ∀ k v z, reported s !! k = Some v → slots s !! k = None →
    sizes s !! k = Some z → z = v;
  inv_covered : ∀ k, is_Some (slots s !! k) →
    drain_scheduled s = true ∨ (0 < to_ensure s)%nat ∨ covers (drain s) k;
  inv_at_key : at_key s
}.

Section queue.
  Implicit Types (s : State) (a : Action) (k : Z).

Lemma new_queue_inv objects : queue_inv (BindPostWork (new_queue objects)).
Proof. split; cbn; try done. intros k [v Hv]. by rewrite lookup_empty in Hv. Qed.

(** A step of the drain task that only changes where it is. *)
Lemma with_drain_inv s d :
  queue_inv s → tasks (with_drain s d) = tasks s →
  (∀ k, is_Some (slots s !! k) → covers (drain s) k → covers d k) →
  at_key (with_drain s d) → queue_inv (with_drain s d).
Proof.
  intros [Hb Ht Hs Ha Hc _] Ht' Hcov Hat. split; try done; [by rewrite Ht', Ht|].
  intros k Hk. cbn. destruct (Hc k Hk) as [?|[?|?]]; auto.
Qed.

(** One that also removes the slot of a surface that is done, or is no object. *)
Lemma erase_slot_inv s k keys need :
  queue_inv s → tasks (with_drain s (NextKey keys need)) = tasks s →
  (∀ k', is_Some (slots s !! k') → covers (drain s) k' → k' = k ∨ covers (NextKey keys need) k') →
  (∀ v z, slots s !! k = Some v → sizes s !! k = Some z → z = v) →
  queue_inv (with_drain (with_slots s (delete k (slots s))) (NextKey keys need)).
Proof.
  intros [Hb Ht Hs Ha Hc _] Ht' Hcov Hz. split; cbn; try done.
  - unfold tasks in *. cbn in *. lia.
  - intros k' v. rewrite lookup_delete_Some. naive_solver.
  - intros k' v z Hr Hd Hsz. destruct (slots s !! k') as [w|] eqn:Ek'; [|eauto].
    apply lookup_delete_None in Hd as [->|Hd]; [|congruence].
    pose proof (Hs _ _ Ek'). simplify_eq. eauto.
  - intros k' [v [Hne Hk']%lookup_delete_Some].
    destruct (Hc k' (mk_is_Some _ _ Hk')) as [?|[?|Hcv]]; [auto..|].
    destruct (Hcov k' (mk_is_Some _ _ Hk') Hcv); [congruence|auto].
Qed.

Lemma DrainStep_inv s order s' :
  queue_inv s → (∀ l, Permutation (order l) l) → DrainStep order s = Some s' → queue_inv s'.
Proof.
  intros Hi Ho Hstep. pose proof (inv_at_key _ Hi) as Hat. unfold DrainStep, at_key in *.
  destruct (drain s) as [| |keys need|k z keys need|k z keys need|k z keys need|k z keys need| |] eqn:Ed;
    try done.
  - simplify_eq. apply with_drain_inv; [done|unfold tasks; by rewrite Ed| |done].
    intros k [v Hv] _. right. rewrite Ho. apply list_elem_of_fmap. exists (k, v).
    split; [done|]. by apply elem_of_map_to_list.
  - destruct keys as [|k keys].
    { simplify_eq. apply with_drain_inv; [done|unfold tasks; rewrite Ed; by destruct need| |by destruct need].
      rewrite Ed. intros k _ [->|Hk]; [done|set_solver]. }
    destruct (slots s !! k) eqn:Ek; simplify_eq;
      (apply with_drain_inv; [done|unfold tasks; by rewrite Ed| |]); rewrite ?Ed; cbn.
    + intros k' _. rewrite elem_of_cons. tauto.
    + by rewrite Ek.
    + intros k' [v Hv] [->|[->|Hin]%elem_of_cons]; [auto|congruence|auto].
    + done.
  - destruct (sizes s !! k) eqn:Ez; simplify_eq.
    + apply with_drain_inv; [done|unfold tasks; by rewrite Ed|by rewrite Ed|done].
    + apply erase_slot_inv; [done|unfold tasks; by rewrite Ed|rewrite Ed; cbn; tauto|congruence].
  - destruct Hat as [v Hv]. rewrite Hv in Hstep. simplify_eq.
    apply with_drain_inv; [done|unfold tasks; by rewrite Ed|by rewrite Ed|].
    unfold at_key. cbn. by rewrite Hv.
  - simplify_eq. destruct Hi as [Hb Ht Hs Ha Hc _]. split; cbn; try done.
    + rewrite <-Ht. unfold tasks. by rewrite Ed.
    + intros k' v z' Hr Hn Hz. destruct (decide (k' = k)) as [->|Hne].
      * destruct Hat. congruence.
      * rewrite lookup_insert_ne in Hz by done. eauto.
    + intros k' Hk'. specialize (Hc k' Hk'). by rewrite Ed in Hc.
    + split; [done|]. apply lookup_insert_eq.
  - destruct Hat as [[v Hv] Hz]. rewrite Hv in Hstep.
    destruct (bool_decide (v = z)) eqn:Evz; breflect; simplify_eq.
    + apply erase_slot_inv; [done|unfold tasks; by rewrite Ed|rewrite Ed; cbn; tauto|congruence].
    + apply with_drain_inv; [done|unfold tasks; by rewrite Ed|by left|done].
  - unfold schedule in Hstep. rewrite (inv_bound _ Hi) in Hstep.
    destruct Hi as [Hb Ht Hs Ha Hc _]. unfold tasks in Ht. rewrite Ed in Ht.
    destruct (drain_scheduled s) eqn:Es; cbn in Hstep; simplify_eq; split; cbn; try done; auto.
    + unfold tasks. cbn. rewrite ?Es. lia.
    + unfold tasks. cbn. lia.
  - simplify_eq. destruct Hi as [Hb Ht Hs Ha Hc _]. unfold tasks in Ht. rewrite Ed in Ht.
    destruct (drain_scheduled s) eqn:Es; [|lia]. split; cbn; try done; auto.
    unfold tasks. cbn. rewrite ?Es. lia.
Qed.

Lemma Post_inv s k v s' : queue_inv s → Post s k v = Some s' → queue_inv s'.
Proof.
  intros [Hb Ht Hs Ha Hc Hat]. unfold Post. rewrite Hb. intros [= <-].
  split; cbn; try done.
  - intros k' w. rewrite !lookup_insert_Some. naive_solver.
  - intros k' w z Hr Hn Hz. apply lookup_insert_None in Hn as [Hn Hne].
    rewrite lookup_insert_ne in Hr by done. eauto.
  - intros k' _. right. left. lia.
  - unfold at_key in *. cbn. destruct (drain s); try done; rewrite lookup_insert_is_Some'; naive_solver.
Qed.

Lemma Ensure_inv s s' : queue_inv s → Ensure s = Some s' → queue_inv s'.
Proof.
  intros [Hb Ht Hs Ha Hc Hat]. unfold Ensure, schedule. destruct (to_ensure s) as [|n] eqn:En; [done|].
  rewrite Hb. unfold tasks in Ht. destruct (drain_scheduled s) eqn:Es; cbn; intros [= <-];
    split; cbn; try done; auto.
  all: unfold tasks; cbn; rewrite ?Es; destruct (drain s); lia.
Qed.

Lemma step_inv s a s' : queue_inv s → action_ok a → step s a = Some s' → queue_inv s'.
Proof.
  intros Hi Ha. destruct a as [k z| | | |order|k z]; cbn.
  - by apply Post_inv.
  - by apply Ensure_inv.
  - unfold PostTask. destruct Hi as [Hb Ht Hs Hap Hc Hat]. unfold tasks in Ht.
    destruct (to_post s) as [|n] eqn:Ep; [done|]. intros [= <-]. split; cbn; try done.
    rewrite <-Ht. unfold tasks. cbn. lia.
  - unfold TakeTask. destruct Hi as [Hb Ht Hs Hap Hc Hat]. unfold tasks in Ht.
    destruct (drain s) eqn:Ed; try done. destruct (posted s) as [|n] eqn:Ep; [done|].
    intros [= <-]. split; cbn; try done; [|auto].
    unfold tasks. cbn. destruct (drain_scheduled s); lia.
  - intros Hstep. by eapply DrainStep_inv.
  - unfold NewSurface. destruct Hi as [Hb Ht Hs Hap Hc Hat]. destruct (drain s) eqn:Ed; try done.
    destruct (bool_decide _) eqn:En; breflect; [|done]. destruct En as [Hn1 Hn2]. intros [= <-].
    split; cbn; try done.
    + intros k' v z' Hr Hn [[<- <-]|[_ Hz]]%lookup_insert_Some; [congruence|eauto].
    + intros k' Hk'. rewrite Ed. auto.
    + unfold at_key. cbn. by rewrite Ed.
Qed.

Lemma run_cons s a l : run s (a :: l) = (s ← step s a; run s l).
Proof.
  unfold run. cbn. destruct (step s a); [done|]. induction l; [done|]. done.
Qed.

Lemma run_inv s actions s' :
  queue_inv s → Forall action_ok actions → run s actions = Some s' → queue_inv s'.
Proof.
  revert s. induction actions as [|a l IH]; intros s Hi Hok; [by intros [= <-]|].
  inversion Hok; subst. rewrite run_cons. destruct (step s a) as [s1|] eqn:Es; [|done].
  apply IH; [by eapply step_inv|done].
Qed.

(** ** Progress *)

(** How many steps are left without further reports.  A pass takes five steps for each
    surface; [again]: what follows when the drain has to be scheduled again. *)
Definition again s : nat := 5 * size (slots s) + 5.

Definition mismatch s k (z : Size) : bool :=
  negb (bool_decide (slots s !! k = Some z)).

Definition left_of_pass s : nat :=
  let q (b : bool) := if b then again s else 0%nat in
  match drain s with
  | NoDrain => 0
  | SnapshotKeys => 5 * size (slots s) + 2
  | NextKey keys need => 5 * length keys + 1 + q need
  | FindObject _ _ keys need => 5 * length keys + 5 + q need
  | ReadAgain _ _ keys need => 5 * length keys + 4 + q need
  | SetSize k z keys need => 5 * length keys + 3 + q (need || mismatch s k z)
  | CheckSlot k z keys need => 5 * length keys + 2 + q (need || mismatch s k z)
  | EnsureAgain => again s
  | PostAgain => again s - 1
  end.

Definition remaining s : nat :=
  left_of_pass s + to_ensure s * again s + to_post s * (again s - 1) + posted s * (again s - 2).

Lemma delete_size s k : is_Some (slots s !! k) → (size (delete k (slots s)) < size (slots s))%nat.
Proof.
  intros Hk. pose proof (map_size_delete_Some k (slots s) Hk).
  assert (size (slots s) ≠ 0%nat); [|lia].
  intros H0%map_size_empty_iff. rewrite H0 in Hk. by destruct Hk.
Qed.

(** With the same reports and tasks, fewer steps are left when fewer are left of the pass. *)
Lemma remaining_lt s s' :
  to_ensure s' = to_ensure s → to_post s' = to_post s → posted s' = posted s →
  (size (slots s') ≤ size (slots s))%nat → (left_of_pass s' < left_of_pass s)%nat →
  (remaining s' < remaining s)%nat.
Proof. unfold remaining, again. intros -> -> -> Hsz Hl. nia. Qed.

Lemma left_of_pass_same s s' :
  slots s' = slots s → drain s' = drain s → left_of_pass s' = left_of_pass s.
Proof. unfold left_of_pass, again, mismatch. by intros -> ->. Qed.

Lemma DrainStep_decreases s order s' :
  queue_inv s → (∀ l, Permutation (order l) l) → DrainStep order s = Some s' →
  (remaining s' < remaining s)%nat.
Proof.
  intros Hi Ho. pose proof (inv_at_key _ Hi) as Hat. pose proof (inv_bound _ Hi) as Hb.
  unfold DrainStep, at_key in *.
  destruct (drain s) as [| |keys need|k z keys need|k z keys need|k z keys need|k z keys need| |] eqn:Ed;
    try done.
  - intros [= <-]. apply remaining_lt; cbn; try done. unfold left_of_pass. rewrite Ed. cbn.
    rewrite Ho, length_fmap. rewrite length_map_to_list. lia.
  - destruct keys as [|k keys].
    { intros [= <-]. apply remaining_lt; cbn; try done. unfold left_of_pass, again. rewrite Ed.
      cbn. destruct need; cbn; lia. }
    destruct (slots s !! k) eqn:Ek; intros [= <-]; (apply remaining_lt; cbn; [done..|]);
      unfold left_of_pass, again; rewrite Ed; cbn; destruct need; lia.
  - destruct (sizes s !! k) eqn:Ez; intros [= <-]; (apply remaining_lt; cbn; [done..| |]).
    + done.
    + unfold left_of_pass, again. rewrite Ed. cbn. destruct need; lia.
    + pose proof (delete_size s k Hat). lia.
    + pose proof (delete_size s k Hat). unfold left_of_pass, again. rewrite Ed. cbn. destruct need; lia.
  - destruct Hat as [v Hv]. rewrite Hv. intros [= <-]. apply remaining_lt; cbn; try done.
    unfold left_of_pass, again, mismatch. rewrite Ed. cbn. rewrite Hv.
    destruct (bool_decide (v ≠ z)) eqn:Evz; breflect.
    + rewrite bool_decide_eq_true_2 by done. cbn. destruct need; cbn; lia.
    + rewrite bool_decide_eq_true_2 by (f_equal; by apply dec_stable). cbn. destruct need; cbn; lia.
  - intros [= <-]. apply remaining_lt; cbn; try done.
    unfold left_of_pass, again, mismatch. rewrite Ed. cbn.
    destruct (need || _); lia.
  - destruct Hat as [[v Hv] Hz]. rewrite Hv.
    destruct (bool_decide (v = z)) eqn:Evz; breflect; intros [= <-];
      (apply remaining_lt; cbn; [done..| |]).
    + pose proof (delete_size s k (mk_is_Some _ _ Hv)). lia.
    + pose proof (delete_size s k (mk_is_Some _ _ Hv)). unfold left_of_pass, again, mismatch.
      rewrite Ed. cbn. rewrite Hv. destruct need; cbn; [lia|case_if_dec; lia].
    + done.
    + unfold left_of_pass, again, mismatch. rewrite Ed. cbn. rewrite Hv.
      rewrite (bool_decide_eq_false_2 (Some v = Some z)) by congruence. rewrite orb_true_r. cbn. lia.
  - unfold schedule. rewrite Hb. destruct (drain_scheduled s); intros [= <-];
      (apply remaining_lt; cbn; [done..|]); unfold left_of_pass, again; rewrite Ed; cbn; lia.
  - intros [= <-]. unfold remaining, left_of_pass, again. rewrite Ed. cbn. nia.
Qed.

Lemma step_decreases s a s' :
  queue_inv s → action_ok a → internal a → step s a = Some s' → (remaining s' < remaining s)%nat.
Proof.
  intros Hi Hok Ha. pose proof (inv_bound _ Hi) as Hb.
  destruct a as [k z| | | |order|k z]; try done; cbn [step].
  - unfold Ensure, schedule. destruct (to_ensure s) as [|n] eqn:En; [done|]. rewrite Hb.
    destruct (drain_scheduled s); intros [= <-]; unfold remaining; rewrite En;
      rewrite (left_of_pass_same s) by done; unfold again; cbn; nia.
  - unfold PostTask. destruct (to_post s) as [|n] eqn:En; [done|]. intros [= <-].
    unfold remaining. rewrite En, (left_of_pass_same s) by done. unfold again. cbn. nia.
  - unfold TakeTask. destruct (drain s) eqn:Ed; try done. destruct (posted s) as [|n] eqn:En; [done|].
    intros [= <-]. unfold remaining, left_of_pass, again. rewrite En, Ed. cbn. nia.
  - intros Hs. by eapply DrainStep_decreases.
Qed.

Lemma DrainStep_enabled s order :
  post_bound s = true → drain s ≠ NoDrain → is_Some (DrainStep order s).
Proof.
  intros Hb Hd. unfold DrainStep, schedule. rewrite Hb.
  destruct (drain s) as [| |[|k keys]|k ???|k ???| |k ???| |] eqn:Ed; [done|..];
    repeat case_match; simplify_eq; eauto.
Qed.

(** A state with something left to do has a step. *)
Lemma step_enabled s :
  queue_inv s → Quiescent s ∨ ∃ a, internal a ∧ action_ok a ∧ is_Some (step s a).
Proof.
  intros Hi. assert (drain s = NoDrain ∨ drain s ≠ NoDrain) as [Ed|Hd] by (destruct (drain s); auto).
  2: { right. exists (RunDrain id). split; [done|]. split; [by intros l|].
       apply DrainStep_enabled; [apply (inv_bound _ Hi)|done]. }
  destruct (to_ensure s) eqn:E1.
  2: { right. exists RunEnsure. do 2 (split; [done|]). cbn. unfold Ensure, schedule.
       rewrite E1, (inv_bound _ Hi). destruct (drain_scheduled s); by eexists. }
  destruct (to_post s) eqn:E2.
  2: { right. exists RunPost. do 2 (split; [done|]). cbn. unfold PostTask. rewrite E2. by eexists. }
  destruct (posted s) eqn:E3; [by left|].
  right. exists RunTake. do 2 (split; [done|]). cbn. unfold TakeTask. rewrite Ed, E3. by eexists.
Qed.

(** ** The theorems *)

(** C35. Whatever the interleaving of reports, of the drain task and of new surfaces, at most
    one drain task is queued or about to be, every slot holds the latest report of its
    surface, and when neither thread has anything left to do no slot is left and
    every surface has the presentation size that was reported for it last. *)
Theorem no_report_is_lost objects actions s :
  Forall action_ok actions → run (BindPostWork (new_queue objects)) actions = Some s →
  (to_post s + posted s ≤ 1)%nat ∧
  (∀ k v, slots s !! k = Some v → reported s !! k = Some v) ∧
  (Quiescent s → PendingSurfaceCountForTest s = 0 ∧
    ∀ k v z, reported s !! k = Some v → sizes s !! k = Some z → z = v).
Proof.
  intros Hok Hrun. apply run_inv in Hrun as Hi; [|apply new_queue_inv|done].
  destruct Hi as [Hb Ht Hs Ha Hc Hat]. split; [|split; [done|]].
  - unfold tasks in Ht. destruct (drain_scheduled s), (drain s); lia.
  - intros (H1 & H2 & H3 & H4). unfold tasks in Ht. rewrite H2, H3, H4 in Ht.
    destruct (drain_scheduled s); [done|].
    assert (∀ k, slots s !! k = None) as Hn.
    { intros k. apply eq_None_not_Some. intros [?|[?|Hcov]]%Hc; [done|lia|]. by rewrite H4 in Hcov. }
    split; [|eauto]. unfold PendingSurfaceCountForTest.
    rewrite (map_eq (slots s) ∅), map_size_empty; [done|]. intros k. by rewrite Hn, lookup_empty.
Qed.

(** From any state the queue can reach, without further reports the threads take at most
    [remaining] more steps, in any order, and as long as there is something left to
    do one of them has a step: they come to rest. *)
Theorem queue_comes_to_rest objects actions s steps s' :
  Forall action_ok actions → run (BindPostWork (new_queue objects)) actions = Some s →
  Forall (λ a, internal a ∧ action_ok a) steps → run s steps = Some s' →
  (length steps ≤ remaining s)%nat ∧
  (Quiescent s' ∨ ∃ a, internal a ∧ action_ok a ∧ is_Some (step s' a)).
Proof.
  intros Hok Hrun Hint. apply run_inv in Hrun as Hi; [|apply new_queue_inv|done]. clear Hok Hrun.
  revert s Hi. induction Hint as [|a l [Ha Hok] Hl IH]; intros s Hi.
  { intros [= <-]. split; [cbn; lia|by apply step_enabled]. }
  rewrite run_cons. destruct (step s a) as [s1|] eqn:Es; [|done]. cbn [mbind option_bind]. intros Hr.
  pose proof (step_decreases s a s1 Hi Hok Ha Es).
  destruct (IH s1) as [Hlen Hq]; [by eapply step_inv|done|]. split; [cbn; lia|done].
Qed.
End queue.

(** The counters have no effect: the first unbinding makes the proxy leave the queue, whatever
    the number of bindings. *)
Lemma UnbindProxy_first p proxy :
  PostSurfacePresentationSize (UnbindProxy (BindProxy (BindProxy p proxy) proxy) proxy) proxy =
  DirectInvoke.
Proof.
  unfold PostSurfacePresentationSize, UnbindProxy. cbn. rewrite !lookup_insert_eq. cbn.
  case_bool_decide as H; [|done]. set_solver.
Qed.

Module Examples.

(** Two surfaces, 1 and 2.  A size of 1 is reported while the task is between the second reading of
    the slot and its check; one of surface 7 is reported, which is no object. *)
Definition interleaving : list Action :=
  [Report 1 (10, 10); RunEnsure; Report 7 (1, 1); RunPost; RunEnsure; RunTake; RunDrain id;
   RunDrain id; RunDrain id; RunDrain id; RunDrain id; RunDrain id; Report 1 (20, 20);
   RunDrain id; RunDrain id].

Definition to_the_end : list Action :=
  [RunEnsure; RunPost; RunDrain id; RunDrain id; RunTake] ++ replicate 7 (RunDrain id).

Definition two_surfaces : gmap Z Size := {[1 := (5, 5); 2 := (6, 6)]}.

Definition start : State := BindPostWork (new_queue two_surfaces).

(** Between, and at the end: the slots, the task and the sizes. *)
Definition look (s : State) := (map_to_list (slots s), drain s, sizes s !! 1, sizes s !! 2).

Example in_between :
  look <$> run start interleaving =
  Some ([(1, (20, 20))], NextKey [] true, Some (10, 10), Some (6, 6)).
Proof. vm_compute. reflexivity. Qed.

Example at_rest :
  look <$> run start (interleaving ++ to_the_end) = Some ([], NoDrain, Some (20, 20), Some (6, 6)).
Proof. vm_compute. reflexivity. Qed.

Lemma id_permutes : ∀ l : list Z, Permutation (id l) l.
Proof. done. Qed.

Definition from_some {A} (o : option A) (d : A) : A := match o with Some x => x | None => d end.
Definition middle : State := from_some (run start interleaving) start.
Definition rest : State := from_some (run start (interleaving ++ to_the_end)) start.

Lemma no_report_is_lost_witness :
  (to_post rest + posted rest ≤ 1)%nat ∧
  (∀ k v, slots rest !! k = Some v → reported rest !! k = Some v) ∧
  (Quiescent rest → PendingSurfaceCountForTest rest = 0 ∧
    ∀ k v z, reported rest !! k = Some v → sizes rest !! k = Some z → z = v).
Proof.
  apply (no_report_is_lost two_surfaces (interleaving ++ to_the_end)).
  - repeat (constructor; [first [exact I | exact id_permutes]|]). constructor.
  - vm_compute. reflexivity.
Defined.

Lemma queue_comes_to_rest_witness :
  (length to_the_end ≤ remaining middle)%nat ∧
  (Quiescent rest ∨ ∃ a, internal a ∧ action_ok a ∧ is_Some (step rest a)).
Proof.
  apply (queue_comes_to_rest two_surfaces interleaving middle to_the_end rest).
  - repeat (constructor; [first [exact I | exact id_permutes]|]). constructor.
  - vm_compute. reflexivity.
  - repeat (constructor; [first [split; [exact I|exact I] | split; [exact I|exact id_permutes]]|]).
    constructor.
  - vm_compute. reflexivity.
Defined.
End Examples.
