(* ===== verification/SurfacesSession.v ===== *)
(** * The session of the surfaces demo

    Models [SurfacesModelSession] of examples/surfaces_demo/common/surfaces_lifecycle.cpp: the
    model's thread executes the work that the user interface posts, publishes the nodes that
    have changed while no publication is unread, and saves the application when it is stopped.
    The threads are machines whose steps are the critical sections; what is changed without
    the lock, the model and the set of changed nodes, belongs to the model's thread.

    The application itself is a parameter here: what a work item does to it and which nodes it
    notifies of, which objects are reachable, and what is a node.  SurfacesPublication.v runs
    the session with the model of Surfaces.v. *)
From S2P Require Import Prelude SharedEvent Node NodeTheory.
Import PendingDirtyNodes.

Section session.
Context {Work App : Type}.
Context (execute : Work → App → App * list Z).
(** The identifiers of [CollectLiveReachableObjects], and [Domain::Find] with [as<Node>]. *)
Context (live : App → gset Z) (is_node : App → Z → bool).
(** Whether the save has a failure. *)
Context (save_fails : App → bool).

Inductive Place :=
| Publish_initial
| Waiting
| Executing (work : Work) (draining : bool)
| Test
| Publishing (live_ids : gset Z)
| Serialized (live_ids : gset Z) (id : Z)
| Clear_and_save
| Exited (exit_code : Z).

(** What is published: the whole application, or a node; each with the application that it is
    written from. *)
Inductive Publication :=
| Initial (a : App)
| Incremental (id : Z) (a : App).

(** [busy]: [is_publication_busy] of the channel.  [accepted], [executed], [publications] and
    [saved] record what happened. *)
Record Session := mkSession {
  stop : bool; pending_work : list Work; busy : bool;
  place : Place; application : App; pending_dirty : t;
  accepted : list Work; executed : list Work;
  publications : list Publication; saved : option App
}.

Definition new_session (a : App) : Session :=
  mkSession false [] false Publish_initial a init [] [] [] None.

Definition at_place (s : Session) (p : Place) : Session :=
  mkSession (stop s) (pending_work s) (busy s) p (application s) (pending_dirty s)
    (accepted s) (executed s) (publications s) (saved s).
Definition with_work (s : Session) (l : list Work) : Session :=
  mkSession (stop s) l (busy s) (place s) (application s) (pending_dirty s)
    (accepted s) (executed s) (publications s) (saved s).
Definition with_dirty (s : Session) (d : t) : Session :=
  mkSession (stop s) (pending_work s) (busy s) (place s) (application s) d
    (accepted s) (executed s) (publications s) (saved s).
(** [NotePublished] and [PublishProducer]. *)
Definition publish (s : Session) (p : Publication) : Session :=
  mkSession (stop s) (pending_work s) true (place s) (application s) (pending_dirty s)
    (accepted s) (executed s) (publications s ++ [p]) (saved s).

(** ** The other threads *)

Definition RequestStop (s : Session) : Session :=
  mkSession true (pending_work s) (busy s) (place s) (application s) (pending_dirty s)
    (accepted s) (executed s) (publications s) (saved s).

Definition Post (w : Work) (s : Session) : Session :=
  if stop s then s
  else mkSession (stop s) (pending_work s ++ [w]) (busy s) (place s) (application s) (pending_dirty s)
         (accepted s ++ [w]) (executed s) (publications s) (saved s).

(** The user interface has taken the publication ([TakePublishedCopy]). *)
Definition Take (s : Session) : Session :=
  mkSession (stop s) (pending_work s) false (place s) (application s) (pending_dirty s)
    (accepted s) (executed s) (publications s) (saved s).

(** ** The model's thread: [Run] *)

(** The wait and the choice after it; [None]: the condition of the wait does not hold. *)
Definition wait_for_work (s : Session) : option Session :=
  if stop s then
    match pending_work s with
    | [] => Some (at_place s Clear_and_save)
    | w :: rest => Some (at_place (with_work s rest) (Executing w true))
    end
  else match pending_work s with
       | w :: rest => Some (at_place (with_work s rest) (Executing w false))
       | [] => if negb (empty (pending_dirty s)) && negb (busy s)
               then Some (at_place s Test) else None
       end.

Definition execute_work (w : Work) (draining : bool) (s : Session) : Session :=
  let '(a, notified) := execute w (application s) in
  mkSession (stop s) (pending_work s) (busy s) (if draining then Waiting else Test) a
    (foldl Note (pending_dirty s) notified) (accepted s) (executed s ++ [w]) (publications s) (saved s).

(** One turn of the loop that publishes. *)
Definition publish_next (live_ids : gset Z) (s : Session) : Session :=
  if stop s || busy s || empty (pending_dirty s) then at_place s Waiting
  else match PopFront (pending_dirty s) with
       | None => s
       | Some (id, d) =>
           let s := with_dirty s d in
           if negb (bool_decide (id ∈ live_ids)) then at_place s (Publishing live_ids)
           else if negb (is_node (application s) id) then at_place s (Publishing live_ids)
           else at_place s (Serialized live_ids id)
       end.

Definition thread_step (s : Session) : option Session :=
  match place s with
  | Publish_initial => Some (at_place (publish s (Initial (application s))) Waiting)
  | Waiting => wait_for_work s
  | Executing w draining => Some (execute_work w draining s)
  | Test => Some (at_place s (if stop s || empty (pending_dirty s) || busy s then Waiting
                              else Publishing (live (application s))))
  | Publishing live_ids => Some (publish_next live_ids s)
  | Serialized live_ids id =>
      Some (at_place (publish s (Incremental id (application s))) (Publishing live_ids))
  | Clear_and_save =>
      let s := mkSession (stop s) (pending_work s) (busy s) (place s) (application s) (pending_dirty s)
                 (accepted s) (executed s) (publications s) (Some (application s)) in
      Some (at_place s (Exited (if save_fails (application s) then 1 else 0)))
  | Exited _ => None
  end.

Inductive Action :=
| DoPost (w : Work)
| DoStop
| DoTake
| DoThread.

Definition act (s : Session) (x : Action) : Session :=
  match x with
  | DoPost w => Post w s
  | DoStop => RequestStop s
  | DoTake => Take s
  | DoThread => default s (thread_step s)
  end.
Definition acts (s : Session) (l : list Action) : Session := foldl act s l.

(** ** What the session promises: the work in the order of the posts *)

Definition after (a : App) (l : list Work) : App := foldl (λ a w, (execute w a).1) a l.
(** The nodes that the last work of a list notifies of. *)
Definition notified_by (a : App) (l : list Work) (w : Work) : list Z := (execute w (after a l)).2.

Lemma after_snoc a l w : after a (l ++ [w]) = (execute w (after a l)).1.
Proof. unfold after. by rewrite foldl_app. Qed.

(** ** Invariants *)

Definition in_hand (p : Place) : list Work := match p with Executing w _ => [w] | _ => [] end.

(** Past the loop. *)
Definition finishing (p : Place) : bool := match p with Clear_and_save | Exited _ => true | _ => false end.

Record session_ok (a : App) (s : Session) : Prop := {
  ok_order : accepted s = executed s ++ in_hand (place s) ++ pending_work s;
  ok_application : application s = after a (executed s);
  ok_dirty : PendingDirty.ok (pending_dirty s);
  ok_serialized : ∀ l id, place s = Serialized l id → busy s = false;
  ok_finishing : finishing (place s) = true → stop s = true ∧ pending_work s = [];
  ok_draining : ∀ w, place s = Executing w true → stop s = true;
  ok_saved : ∀ code, place s = Exited code →
    saved s = Some (application s) ∧ code = if save_fails (application s) then 1 else 0
}.

Lemma Note_all_ok d ids : PendingDirty.ok d → PendingDirty.ok (foldl Note d ids).
Proof.
  revert d. induction ids as [|id ids IH]; intros d Hd; [done|].
  apply IH. by apply (PendingDirty.exec_ok d (PendingDirty.ONote id)).
Qed.

Lemma PopFront_ok d id d' : PendingDirty.ok d → PopFront d = Some (id, d') → PendingDirty.ok d'.
Proof.
  intros Hd Hp. apply (PendingDirty.exec_ok d PendingDirty.OPop); [done|]. simpl. by rewrite Hp.
Qed.

Lemma new_session_ok a : session_ok a (new_session a).
Proof. split; try done. split; [constructor|done]. Qed.

Local Ltac close_field := try done; intros; try simplify_eq; try done.

Lemma session_thread_step_ok a s s' : session_ok a s → thread_step s = Some s' → session_ok a s'.
Proof.
  intros [Ho Ha Hd Hs Hf Hw He] Hstep. unfold thread_step in Hstep.
  destruct (place s) as [| |w draining| |l|l id| |code] eqn:Hp; simplify_eq/=.
  - split; try done; cbn; by rewrite ?Hp in *.
  - unfold wait_for_work in Hstep.
    destruct (stop s) eqn:Hst, (pending_work s) as [|w rest] eqn:Hpw; simplify_eq/=.
    + split; cbn; rewrite ?Ho, ?Hpw, ?Hst; close_field.
    + split; cbn; rewrite ?Ho, ?Hpw, ?Hst; close_field.
    + destruct (_ && _); [|done]. simplify_eq. split; cbn; rewrite ?Ho, ?Hpw, ?Hst; close_field.
    + split; cbn; rewrite ?Ho, ?Hpw, ?Hst; close_field.
  - unfold execute_work. destruct (execute w (application s)) as [a' notified] eqn:Hx.
    split; cbn; try (by destruct draining); try by apply Note_all_ok.
    + destruct draining; by rewrite Ho, <-?app_assoc.
    + by rewrite after_snoc, <-Ha, Hx.
  - destruct (_ || _ || _); (split; cbn; try done; by rewrite ?Hp in *).
  - unfold publish_next. destruct (stop s || busy s || empty _) eqn:Hc.
    { split; cbn; try done. }
    apply orb_false_iff in Hc as [[Hst Hb]%orb_false_iff Hempty].
    destruct (PopFront (pending_dirty s)) as [[id d]|] eqn:Hpop; [|by split; rewrite ?Hp].
    pose proof (PopFront_ok _ _ _ Hd Hpop).
    destruct (negb (bool_decide _)); [by split|]. destruct (negb (is_node _ _)); by split.
  - by split.
  - split; cbn; try done. intros code [= <-]. done.
Qed.

Lemma session_act_ok a s x : session_ok a s → session_ok a (act s x).
Proof.
  intros Hok. destruct x as [w| | |]; cbn [act].
  - unfold Post. destruct (stop s) eqn:Hst; [done|]. destruct Hok as [Ho Ha Hd Hs Hf Hw He].
    split; cbn; try done.
    + by rewrite Ho, <-!app_assoc.
    + intros [Hstop _]%Hf. congruence.
    + intros w' Hstop%Hw. congruence.
  - destruct Hok as [Ho Ha Hd Hs Hf Hw He]. split; cbn; try done. intros H. by destruct (Hf H).
  - destruct Hok as [Ho Ha Hd Hs Hf Hw He]. by split.
  - destruct (thread_step s) as [s'|] eqn:Hst; [|done]. by apply (session_thread_step_ok a s).
Qed.

Lemma session_acts_ok a l : ∀ s, session_ok a s → session_ok a (acts s l).
Proof. induction l as [|x l IH]; intros s Hs; [done|]. by apply IH, session_act_ok. Qed.
(** ** What the runs keep *)

(** When the thread has ended, all the work that was accepted has been executed, in the order
    of the posts, and the application that is saved is the one that they make; the exit code
    is 1 exactly when the save failed. *)
Theorem session_saves_accepted_work a l code :
  place (acts (new_session a) l) = Exited code →
  let s := acts (new_session a) l in
  executed s = accepted s ∧ pending_work s = [] ∧ saved s = Some (after a (accepted s)) ∧
  code = if save_fails (after a (accepted s)) then 1 else 0.
Proof.
  intros Hp s. change (place s = Exited code) in Hp.
  destruct (session_acts_ok a l _ (new_session_ok a) : session_ok a s) as [Ho Ha _ _ Hf _ He].
  destruct (He code Hp) as [Hs Hc]. rewrite Hp in *. destruct (Hf eq_refl) as [_ Hpw].
  assert (Hx : executed s = accepted s) by (by rewrite Ho, Hpw, app_nil_r).
  rewrite <-Hx, Hpw, <-Ha. done.
Qed.

(** The steps that the thread needs until it has ended. *)
Definition remaining (s : Session) : nat :=
  match place s with
  | Exited _ => 0
  | Clear_and_save => 1
  | Waiting => 2 + 2 * length (pending_work s)
  | Executing _ draining => (if draining then 3 else 4) + 2 * length (pending_work s)
  | Publish_initial | Test | Publishing _ => 3 + 2 * length (pending_work s)
  | Serialized _ _ => 4 + 2 * length (pending_work s)
  end.

Lemma thread_step_remaining s :
  stop s = true →
  match thread_step s with
  | Some s' => stop s' = true ∧ (remaining s' < remaining s)%nat
  | None => ∃ code, place s = Exited code
  end.
Proof.
  intros Hs. unfold thread_step, remaining.
  destruct (place s) as [| |w draining| |l|l id| |code] eqn:Hp; cbn.
  - split; [done|lia].
  - unfold wait_for_work. rewrite Hs. destruct (pending_work s); cbn; (split; [done|lia]).
  - unfold execute_work. destruct (execute w _), draining; cbn; (split; [done|lia]).
  - rewrite Hs. cbn. split; [done|lia].
  - unfold publish_next. rewrite Hs. cbn. split; [done|lia].
  - split; [done|lia].
  - split; [done|lia].
  - by exists code.
Qed.

Fixpoint turns (l : list Action) : nat :=
  match l with
  | [] => 0
  | DoThread :: l => S (turns l)
  | _ :: l => turns l
  end.

(** The others cannot hold the thread up once the stop is set: no work is accepted. *)
Lemma act_remaining s x :
  stop s = true → stop (act s x) = true ∧
    (remaining (act s x) ≤ remaining s - match x with DoThread => 1 | _ => 0 end)%nat.
Proof.
  intros Hs. destruct x as [w| | |]; cbn [act].
  - unfold Post. rewrite Hs. split; [done|lia].
  - split; [done|unfold remaining; cbn; lia].
  - split; [done|unfold remaining; cbn; lia].
  - pose proof (thread_step_remaining s Hs) as H. destruct (thread_step s) as [s'|]; cbn.
    + destruct H as [H1 H2]. split; [done|lia].
    + destruct H as [code Hc]. split; [done|]. unfold remaining. rewrite Hc. lia.
Qed.

Lemma acts_remaining l : ∀ s,
  stop s = true → (remaining (acts s l) ≤ remaining s - turns l)%nat.
Proof.
  induction l as [|x l IH]; intros s Hs; [cbn; lia|].
  destruct (act_remaining s x Hs) as [Hs' Hr]. specialize (IH _ Hs').
  change (acts s (x :: l)) with (acts (act s x) l).
  destruct x; cbn [turns]; lia.
Qed.

Lemma remaining_zero s : remaining s = 0%nat → ∃ code, place s = Exited code.
Proof. unfold remaining. destruct (place s) as [| |w []| | | | |code]; intros; try lia. by exists code. Qed.

(** The thread ends: once the stop has been requested, as many of its turns as [remaining]
    says are enough, whatever the other threads do in between. *)
Theorem session_ends s l :
  (remaining s ≤ turns l)%nat → ∃ code, place (acts (RequestStop s) l) = Exited code.
Proof.
  intros Hl. apply remaining_zero.
  pose proof (acts_remaining l (RequestStop s) eq_refl) as H.
  change (remaining (RequestStop s)) with (remaining s) in H. lia.
Qed.

(** ** The publications *)

Lemma Note_all_elem d ids i :
  PendingDirty.ok d → i ∈ ordered d ∨ i ∈ ids → i ∈ ordered (foldl Note d ids).
Proof.
  revert d. induction ids as [|j ids IH]; intros d Hd Hin; [destruct Hin; [done|set_solver]|].
  cbn. apply IH; [by apply (PendingDirty.exec_ok d (PendingDirty.ONote j))|].
  destruct Hd as [_ Hm]. unfold Note. case_decide as Hi; cbn; set_solver.
Qed.

(** A publication is written only while the last one has been read: from the choice of the
    node to the publication, the channel is free. *)
Theorem one_publication_at_a_time a l live_ids id :
  place (acts (new_session a) l) = Serialized live_ids id → busy (acts (new_session a) l) = false.
Proof. apply (ok_serialized a), session_acts_ok, new_session_ok. Qed.
End session.

(** ** Two nodes that hold a number *)
Module Examples.
Definition execute (w : Z * Z) (a : Z * Z) : (Z * Z) * list Z :=
  if w.1 =? 1 then ((w.2, a.2), if a.1 =? w.2 then [] else [1])
  else ((a.1, w.2), if a.2 =? w.2 then [] else [2]).
Definition live (_ : Z * Z) : gset Z := {[1; 2]}.
Definition is_node (_ : Z * Z) (id : Z) : bool := (id =? 1) || (id =? 2).
Definition save_fails (a : Z * Z) : bool := a.1 <? 0.
#[local] Abbreviation run := (acts execute live is_node save_fails (new_session (0, 0))).
#[local] Abbreviation T := DoThread.

(** Two works wait for the stop, a third one comes after it and is not accepted. *)
Definition stopped : list (Action (Work := Z * Z)) :=
  [T; DoPost (1, 5); T; T; DoPost (2, 7); DoPost (1, 6); DoStop; DoPost (1, 9); T; T; T; T; T; T; T].

Lemma session_saves_accepted_work_witness :
  place (run stopped) = Exited 0 ∧ executed (run stopped) = [(1, 5); (2, 7); (1, 6)] ∧
  executed (run stopped) = accepted (run stopped) ∧ saved (run stopped) = Some (6, 7).
Proof.
  assert (Hp : place (run stopped) = Exited 0) by (by vm_compute).
  destruct (session_saves_accepted_work execute live is_node save_fails (0, 0) stopped 0 Hp)
    as (Hx & _ & Hs & _).
  split; [exact Hp|]. split; [by vm_compute|]. split; [exact Hx|].
  etrans; [exact Hs|]. by vm_compute.
Defined.

(** With the publication unread, the thread waits with a node that has changed. *)
Example held_back :
  let s := run [T; DoPost (1, 5); T; T; T] in
  wait_for_work s = None ∧ busy s = true ∧ ordered (pending_dirty s) = [1].
Proof. vm_compute. done. Qed.

Lemma session_ends_witness :
  remaining (run [T; DoPost (1, 5); T; T; DoPost (2, 7)]) = 5%nat ∧
  ∃ code, place (acts execute live is_node save_fails
    (RequestStop (run [T; DoPost (1, 5); T; T; DoPost (2, 7)])) [T; DoPost (2, 1); T; T; T; T]) = Exited code.
Proof.
  split; [by vm_compute|].
  apply (session_ends execute live is_node save_fails). vm_compute. lia.
Defined.

Lemma one_publication_at_a_time_witness :
  let l := [T; DoPost (1, 5); T; T; DoTake; T; T] in
  busy (run l) = false ∧ length (publications (run l)) = 1%nat.
Proof.
  intros l.
  assert (Hp : place (run l) = Serialized {[1; 2]} 1) by (by vm_compute).
  split; [exact (one_publication_at_a_time execute live is_node save_fails (0, 0) l _ _ Hp)|by vm_compute].
Defined.
End Examples.
