(* ===== verification/SurfacesPublication.v ===== *)
(** * The surfaces in their session

    The thread of SurfacesSession.v with the model of Surfaces.v: a work item is a command that
    a presenter posts, the nodes it notifies of are those whose notifier it calls, and what is
    published are the list of surfaces and the surfaces.  That nothing is lost on the way: when
    the session is at rest and has been read, the user interface has been given every surface
    as it is, the added ones too. *)
From S2P Require Import Prelude Aether SharedEvent Node NodeTheory NodeBudget Surfaces SurfacesTheory SurfacesSession.
Import PendingDirtyNodes.

(** ** What a commit notifies of *)

Section notes.
  Context {F Ev : Type} `{!NodeKind F Ev}.
  Implicit Types (n m : Node F Ev).

(** Every event of the class notes the change, as it does when its handler ends with
    [NoteMaterializedChange]. *)
Context (Hnoted : ∀ (f : F) (e : Ev) f' b, ApplyTo f e = Some (f', b) → b = true).

(** The node calls its notifier with [ctx]. *)
Definition bound_to (ctx : Z) n : Prop :=
  suppress_materialized_change_ n = false ∧ materialized_change_fn_ n = Some ctx.

(** From [n] to [m] the notifier is called, unless the fields are the same. *)
Definition notes (ctx : Z) n m : Prop :=
  obj_id m = obj_id n ∧ bound_to ctx m ∧
  ∃ es, notified m = notified n ++ es ∧ Forall (λ e, e.1 = ctx) es ∧ (es = [] → fields m = fields n).

Lemma notes_trans ctx n1 n2 n3 : notes ctx n1 n2 → notes ctx n2 n3 → notes ctx n1 n3.
Proof.
  intros (H1 & _ & es1 & E1 & F1 & G1) (H2 & B2 & es2 & E2 & F2 & G2).
  split; [congruence|]. split; [done|]. exists (es1 ++ es2). rewrite E2, E1, app_assoc.
  split; [done|]. split; [by apply Forall_app|].
  intros [-> ->]%app_eq_nil. by rewrite G2, G1.
Qed.

Lemma notes_same ctx n m :
  bound_to ctx n → obj_id m = obj_id n → fields m = fields n →
  suppress_materialized_change_ m = suppress_materialized_change_ n →
  materialized_change_fn_ m = materialized_change_fn_ n → notified m = notified n → notes ctx n m.
Proof.
  intros [B1 B2] H1 H2 H3 H4 H5. split; [done|]. split; [split; congruence|].
  exists []. rewrite app_nil_r. by split.
Qed.

(** An event is applied with a call, so that not nothing was noted. *)
Lemma ApplyEvent_notes ctx n e m :
  bound_to ctx n → ApplyEvent n e = Some m →
  obj_id m = obj_id n ∧ bound_to ctx m ∧ ∃ g, notified m = notified n ++ [(ctx, g)].
Proof.
  intros [B1 B2] H. unfold ApplyEvent in H. destruct (ApplyTo _ _) as [[f b]|] eqn:E; [|done].
  cbn [mbind option_bind] in H. rewrite (Hnoted _ _ _ _ E) in H. injection H as <-.
  unfold NoteMaterializedChange. cbn. rewrite B1. cbn. rewrite B2. by split_and!; [..|eexists].
Qed.

Lemma EnsureLoop_notes ctx todo : ∀ n ok m,
  bound_to ctx n → EnsureLoop todo n = Some (ok, m) →
  obj_id m = obj_id n ∧ bound_to ctx m ∧ ∃ es, notified m = notified n ++ es ∧
    Forall (λ e, e.1 = ctx) es ∧ (es = [] → fields m = fields n ∧ (ok = true → todo = [])).
Proof.
  induction todo as [|r todo IH]; intros n ok m Hb H; cbn [EnsureLoop] in H.
  { injection H as <- <-. split_and!; try done; try apply Hb. exists []. by rewrite app_nil_r. }
  assert (Some (false, n) = Some (ok, m) → obj_id m = obj_id n ∧ bound_to ctx m ∧
    ∃ es, notified m = notified n ++ es ∧ Forall (λ e, e.1 = ctx) es ∧
      (es = [] → fields m = fields n ∧ (ok = true → r :: todo = []))) as Hstop.
  { intros [= <- <-]. split_and!; try done; try apply Hb. exists []. by rewrite app_nil_r. }
  destruct (negb (ev_is_valid _)); [by apply Hstop|].
  destruct (ev_object _) as [e|]; [|by apply Hstop].
  destruct (negb (CanApplyTo _ _)); [by apply Hstop|].
  destruct (ApplyEvent n e) as [n1|] eqn:E; [|done]. cbn [mbind option_bind] in H.
  destruct (ApplyEvent_notes ctx n e n1 Hb E) as (Hi & Hb1 & g & Hn).
  destruct (IH (set_applied n1 _) ok m Hb1 H) as (Hi' & Hb' & es & Hn' & Hes & _). cbn in Hi', Hn'.
  split; [congruence|]. split; [done|]. exists ((ctx, g) :: es). rewrite Hn', Hn, <-app_assoc.
  split; [done|]. split; [by constructor|done].
Qed.

Lemma insert_at_nonempty {A} i (x : A) l : insert_at i x l ≠ [].
Proof. unfold insert_at. by destruct (take i l). Qed.

Lemma InsertEvent_notes ctx n r now m :
  bound_to ctx n → InsertEvent n r now = Some m → notes ctx n m.
Proof.
  intros Hb H. unfold InsertEvent, expect in H.
  destruct (TryInsertEvent n r now) as [[ok m']|] eqn:E; [|done]. cbn [mbind option_bind] in H.
  destruct ok; [|done]. injection H as ->. unfold TryInsertEvent in E.
  destruct (negb (insert_admissible n r)); [done|].
  set (r' := if retained_since_us r =? 0 then _ else _) in E.
  destruct (HasSharedIdentity r' && _); [done|]. cbv zeta in E.
  set (n1 := set_journal n _) in E.
  assert (bound_to ctx n1) as Hb1 by done.
  destruct (_ =? length (journal n))%nat.
  - set (n2 := if applied_journal_size_ n1 =? kJournalFullyMaterialized then _ else n1) in E.
    assert (notes ctx n n2) as H2.
    { unfold n2. by destruct (applied_journal_size_ n1 =? _); apply notes_same. }
    assert (bound_to ctx n2) as Hb2 by apply H2.
    destruct (TryEnsureCurrentGeneration n2) as [[ok m1]|] eqn:Et; [|done].
    cbn [mbind option_bind] in E. destruct (negb ok); [done|]. injection E as <-.
    apply (notes_trans _ _ _ _ H2). unfold TryEnsureCurrentGeneration in Et.
    destruct (applied_journal_size_ n2 =? _); [injection Et as _ <-; by apply notes_same|].
    destruct (EnsureLoop_notes ctx _ n2 ok m1 Hb2 Et) as (Hi & Hbm & es & Hn & Hes & Hf).
    split; [done|]. split; [done|]. exists es. split_and!; [done..|]. intros He. by apply Hf.
  - unfold TryRebuildFromBaseAndReplay, TryReplayJournal, TryEnsureCurrentGeneration in E.
    destruct (base n1) as [b|]; [|done]. cbn [mbind option_bind] in E.
    set (n2 := set_applied _ 0) in E. cbn [applied_journal_size_ n2 set_applied] in E.
    assert (bound_to ctx n2) as Hb2 by done. rewrite drop_0 in E.
    change (0 =? kJournalFullyMaterialized) with false in E. cbv iota in E.
    destruct (EnsureLoop_notes ctx _ n2 true m Hb2 E) as (Hi & Hbm & es & Hn & Hes & Hf).
    split; [done|]. split; [done|]. exists es. split_and!; [done..|]. intros He.
    destruct (Hf He) as [_ Hj]. specialize (Hj eq_refl). by apply insert_at_nonempty in Hj.
Qed.

Lemma Commit_notes ctx n e now m : bound_to ctx n → Commit n e now = Some m → notes ctx n m.
Proof.
  intros Hb H. unfold Commit in H. destruct (ev_is_valid e); [|done].
  destruct (ev_object e) as [ev|]; [|done]. destruct (CanApplyTo _ _); [|done].
  by eapply InsertEvent_notes.
Qed.
End notes.

(** ** The application *)

Lemma Surface_noted (f : SurfaceFields) (e : SurfaceEvent) f' b : ApplyTo f e = Some (f', b) → b = true.
Proof. by intros [= _ <-]. Qed.
Lemma Surfaces_noted (f : SurfacesFields) (e : SurfacesEvent) f' b : ApplyTo f e = Some (f', b) → b = true.
Proof. cbn. destruct (Apply_Surfaces f e); [|done]. by intros [= _ <-]. Qed.

#[export] Instance SurfaceFields_eq_dec : EqDecision SurfaceFields.
Proof. solve_decision. Defined.
#[export] Instance SurfacesFields_eq_dec : EqDecision SurfacesFields.
Proof. solve_decision. Defined.

Section application.
(** [ctx]: the address of the set of changed nodes of the session.  [others]: what else
    [CollectLiveReachableObjects] finds from the Application; [also_holds]: what else the
    publication of a node has, as its whole graph is saved. *)
Context (ctx : Z) (others : SurfacesModel → gset Z) (also_holds : SurfacesModel → Z → Z → bool).
Context (save_fails : SurfacesModel → bool).
Implicit Types (m : SurfacesModel) (c : Command) (now : Readings) (id : Z).

Abbreviation list_id m := (obj_id (list_node m)).
Abbreviation surfaces_of m := (surfaces (fields (list_node m))).

(** [BindReachableNodesMaterializedChangeNotifier]: the list and all its surfaces, the removed
    ones of the history included. *)
Definition bind m : SurfacesModel :=
  mkModel (BindMaterializedChangeNotifier (list_node m) ctx)
    ((λ n, BindMaterializedChangeNotifier n ctx) <$> objects m) (has_application m).

(** [PendingDirtyNodesNotify] has been called with the session's set. *)
Definition calls (before after : list (Z * Z)) : bool :=
  existsb (λ e, e.1 =? ctx) (drop (length before) after).

Definition calls_of m id : list (Z * Z) :=
  match objects m !! id with Some n => notified n | None => [] end.

(** The nodes that a work has notified of. *)
Definition notified_nodes m m' : list Z :=
  (if calls (notified (list_node m)) (notified (list_node m')) then [list_id m'] else []) ++
  filter (λ id, calls (calls_of m id) (calls_of m' id) = true) (map_to_list (objects m')).*1.

(** A command that fails an assertion ends the process; what the session is then does not
    matter. *)
Definition execute (w : Command * Readings) m : SurfacesModel * list Z :=
  match Invoke m w.1 w.2 with
  | Some m' => (m', notified_nodes m m')
  | None => (m, [])
  end.

Definition live_ids m : gset Z := {[list_id m]} ∪ list_to_set (surfaces_of m) ∪ others m.
Definition is_node m id : bool := (id =? list_id m) || bool_decide (is_Some (objects m !! id)).

(** The list and the surfaces that are in it. *)
Definition part_of m id : Prop := id = list_id m ∨ id ∈ surfaces_of m.

(** What is shown of them. *)
Definition content m id : SurfacesFields + option SurfaceFields :=
  if decide (id = list_id m) then inl (fields (list_node m))
  else inr (fields <$> objects m !! id).

(** The publication of the node [n] has the object [id]. *)
Definition holds m (n id : Z) : bool :=
  (n =? id) || ((n =? list_id m) && bool_decide (id ∈ surfaces_of m)) || also_holds m n id.

(** ** What a command notifies of *)

Definition all_bound m : Prop :=
  bound_to ctx (list_node m) ∧ ∀ id n, objects m !! id = Some n → bound_to ctx n.

Definition model_notes m m' : Prop :=
  notes ctx (list_node m) (list_node m') ∧
  (∀ id n, objects m !! id = Some n → ∃ n', objects m' !! id = Some n' ∧ notes ctx n n') ∧
  all_bound m'.

Lemma notes_refl {F Ev} (n : Node F Ev) : bound_to ctx n → notes ctx n n.
Proof. intros Hb. by apply notes_same. Qed.

Lemma model_notes_refl m : all_bound m → model_notes m m.
Proof.
  intros Hb. split; [by apply notes_refl, Hb|]. split; [|done].
  intros id n Hn. exists n. split; [done|]. by apply notes_refl, (proj2 Hb id).
Qed.

Lemma commit_list_notes m e now m' :
  all_bound m → commit_list m e now = Some m' → model_notes m m'.
Proof.
  intros Hb H. unfold commit_list in H. destruct (Commit _ _ _) as [n|] eqn:E; [|done].
  cbn [mbind option_bind] in H. injection H as <-.
  apply (Commit_notes Surfaces_noted ctx) in E; [|apply Hb].
  split; [done|]. split; [|split; [apply E|apply Hb]].
  intros id o Ho. exists o. split; [done|]. by apply notes_refl, (proj2 Hb id).
Qed.

Lemma commit_object_notes m i e now m' :
  all_bound m → commit_object m i e now = Some m' → model_notes m m'.
Proof.
  intros Hb H. unfold commit_object in H. destruct (objects m !! i) as [o|] eqn:Ho; [|done].
  cbn [mbind option_bind] in H. destruct (Commit _ _ _) as [n|] eqn:E; [|done].
  cbn [mbind option_bind] in H. injection H as <-.
  apply (Commit_notes Surface_noted ctx) in E; [|by apply (proj2 Hb i)].
  split; [by apply notes_refl, Hb|]. split; [|split; [apply Hb|]]; cbn.
  - intros id x Hx. destruct (decide (id = i)) as [->|Hne].
    + rewrite lookup_insert_eq. exists n. split; [done|]. congruence.
    + rewrite lookup_insert_ne by done. exists x. split; [done|]. by apply notes_refl, (proj2 Hb id).
  - intros id x [[<- <-]|[_ Hx]]%lookup_insert_Some; [apply E|by apply (proj2 Hb id)].
Qed.

Lemma InitializeRuntimeNodeFrom_bound {F Ev} `{!NodeKind F Ev} id dom (f : F) base_id n :
  InitializeRuntimeNodeFrom (Ev := Ev) (new_node id dom f) base_id (Some ctx) = Some n →
  bound_to ctx n.
Proof.
  unfold InitializeRuntimeNodeFrom, InitializeRuntimeNode, CaptureBaseState. cbn.
  repeat (case_match; [|done]; cbn [mbind option_bind]). by intros [= <-].
Qed.

Lemma AddSurface_notes m self new_id base_id presenters now m' :
  all_bound m → objects m !! new_id = None →
  AddSurface m self new_id base_id presenters now = Some m' → model_notes m m'.
Proof.
  intros Hb Hnew H. unfold AddSurface in H. destruct (objects m !! self) as [s|] eqn:Hs; [|done].
  cbn [mbind option_bind] in H. destruct (bool_decide _); [|done].
  destruct (next_number _ _ _); [|done]. cbn [mbind option_bind] in H.
  destruct (AssignInitialDesktopBounds _); [|done]. cbn [mbind option_bind] in H.
  destruct (has_application m); [|done].
  destruct (proj2 Hb self s Hs) as [_ Hfn]. rewrite Hfn in H.
  destruct (InitializeRuntimeNodeFrom _ _ _) as [sibling|] eqn:Ei; [|done].
  apply InitializeRuntimeNodeFrom_bound in Ei. cbn [mbind option_bind] in H.
  assert (all_bound (with_object m new_id sibling)) as Hb1.
  { split; [apply Hb|]. cbn. intros id x [[<- <-]|[_ Hx]]%lookup_insert_Some; [done|].
    by apply (proj2 Hb id). }
  destruct (commit_list_notes _ _ _ _ Hb1 H) as (Hl & Ho & Hb'). split; [done|]. split; [|done].
  intros id n Hn. apply Ho. cbn. rewrite lookup_insert_ne by congruence. done.
Qed.

Lemma Invoke_notes m c now m' :
  all_bound m → command_ok (dom (objects m)) c → Invoke m c now = Some m' → model_notes m m'.
Proof.
  intros Hb Hc H. destruct c as [self new_id base_id ps|self|self|self x y w h|self w h|ids];
    cbn [Invoke command_ok] in *.
  - destruct Hc as (_ & Hnew & _). apply not_elem_of_dom in Hnew. by eapply AddSurface_notes.
  - unfold Remove in H. destruct (objects m !! self); [|done]. cbn [mbind option_bind] in H.
    destruct (bool_decide _); [|done]. destruct (negb _); [injection H as <-; by apply model_notes_refl|].
    by eapply commit_list_notes.
  - unfold MakeCurrent in H. destruct (objects m !! self); [|done]. cbn [mbind option_bind] in H.
    destruct (bool_decide _); [|done].
    destruct (bool_decide _); [injection H as <-; by apply model_notes_refl|].
    destruct (negb _); [injection H as <-; by apply model_notes_refl|].
    by eapply commit_list_notes.
  - unfold SetDesktopBounds in H. destruct (objects m !! self); [|done]. cbn [mbind option_bind] in H.
    destruct (_ && _); [injection H as <-; by apply model_notes_refl|]. by eapply commit_object_notes.
  - unfold SetPresentationSize in H. destruct (objects m !! self); [|done]. cbn [mbind option_bind] in H.
    destruct (_ && _); [injection H as <-; by apply model_notes_refl|]. by eapply commit_object_notes.
  - unfold SetDesktopZOrderFromObjIds in H.
    destruct (bool_decide _); [injection H as <-; by apply model_notes_refl|]. by eapply commit_list_notes.
Qed.

Lemma notes_calls {F Ev} (n n' : Node F Ev) :
  notes ctx n n' → fields n' ≠ fields n → calls (notified n) (notified n') = true.
Proof.
  intros (_ & _ & es & E & Hes & Hf) Hne. unfold calls. rewrite E, drop_app_length.
  destruct es as [|e es]; [by destruct Hne; apply Hf|]. cbn. apply Forall_inv in Hes.
  by rewrite Hes, Z.eqb_refl.
Qed.

(** What is shown of a part changes only with a notification. *)
Lemma content_notified m m' id :
  model_notes m m' → (id = list_id m ∨ is_Some (objects m !! id)) → content m' id ≠ content m id →
  id ∈ notified_nodes m m'.
Proof.
  intros (Hl & Ho & _) Hid Hne. unfold notified_nodes, content in *.
  assert (list_id m' = list_id m) as El by apply Hl. rewrite El in *.
  destruct (decide (id = list_id m)) as [->|Hlid].
  - rewrite (notes_calls _ _ Hl) by congruence. set_solver.
  - destruct Hid as [|[n Hn]]; [done|]. destruct (Ho id n Hn) as (n' & Hn' & Hnotes).
    rewrite Hn, Hn' in Hne. apply elem_of_app. right. apply list_elem_of_filter. split.
    + unfold calls_of. rewrite Hn, Hn'. apply notes_calls; [done|]. cbn in Hne. congruence.
    + apply list_elem_of_fmap. exists (id, n'). split; [done|]. by apply elem_of_map_to_list.
Qed.

(** ** A run of works *)

Abbreviation Work := (Command * Readings)%type.
Abbreviation after_works := (after execute).

Record works_ok (m0 : SurfacesModel) (ws : list Work) m : Prop := {
  works_invoked : Invoke_all m0 ws = Some m;
  works_list : list_id m = list_id m0;
  works_bound : all_bound m;
  works_surfaces : ∃ k, 0 ≤ k ∧ surfaces_ok k m
}.

Lemma run_works_ok k m0 ws :
  0 ≤ k → surfaces_ok (k + zlen ws) m0 → commands_ok (k + zlen ws) (dom (objects m0)) ws →
  all_bound m0 → ∀ p, p `prefix_of` ws →
  works_ok m0 p (after_works m0 p) ∧
  ∀ w, p ++ [w] `prefix_of` ws →
    ∃ m', Invoke (after_works m0 p) w.1 w.2 = Some m' ∧ model_notes (after_works m0 p) m'.
Proof.
  intros Hk. revert m0. induction ws as [|[c now] ws IH]; intros m0 Hok Hws Hb p Hp.
  { apply prefix_nil_inv in Hp as ->. split; [|intros w [? [=]]%prefix_app_inv || idtac].
    - split; [done|done|done|]. exists k. by rewrite zlen_nil, Z.add_0_r in Hok.
    - intros w [l Hl]. discriminate Hl. }
  rewrite zlen_cons in Hok, Hws. pose proof (zlen_nonneg ws).
  replace (k + (1 + zlen ws)) with (k + zlen ws + 1) in * by lia.
  destruct Hws as (Hc & Hnow & Hws).
  destruct (Invoke_ok (k + zlen ws) m0 c now ltac:(lia) Hnow Hok Hc) as (m1 & Hm1 & Hok1 & Hd1).
  pose proof (Invoke_notes m0 c now m1 Hb Hc Hm1) as Hn1.
  destruct p as [|w p].
  - split.
    + split; [done|done|done|]. exists (k + zlen ws + 1). split; [lia|done].
    + intros w Hw. apply prefix_cons_inv_1 in Hw as ->. cbn. by exists m1.
  - apply prefix_cons_inv_1 in Hp as Hw. apply prefix_cons_inv_2 in Hp. subst w.
    assert (after_works m0 ((c, now) :: p) = after_works m1 p) as ->.
    { unfold after. cbn [foldl]. unfold execute at 2. cbn [fst snd]. by rewrite Hm1. }
    rewrite <-Hd1 in Hws. assert (commands_ok (k + zlen ws) (dom (objects m1)) ws) as Hws1.
    { eapply commands_ok_weaken; [|exact Hws]. lia. }
    destruct (IH m1 Hok1 Hws1 (proj2 (proj2 Hn1)) p Hp) as [[W1 W2 W3 W4] Hnext].
    split.
    + split; [|by rewrite W2; apply Hn1|done|done]. rewrite Invoke_all_cons. cbn [fst snd] in *.
      by rewrite Hm1.
    + intros w Hw. apply Hnext. cbn [app] in Hw. by apply prefix_cons_inv_2 in Hw.
Qed.

(** ** The session *)

Abbreviation Run := (Session (Work := Work) (App := SurfacesModel)).
Abbreviation act_ := (act execute live_ids is_node save_fails).
Abbreviation acts_ := (acts execute live_ids is_node save_fails).

(** The works that the user interface posts. *)
Fixpoint posted (l : list Action) : list Work :=
  match l with
  | [] => []
  | DoPost w :: l => w :: posted l
  | _ :: l => posted l
  end.

(** What the user interface has last been given of a node: the application that the last
    publication with the node was written from. *)
Definition shown_by id (shown : option SurfacesModel) (p : Publication) : option SurfacesModel :=
  match p with
  | Initial a => Some a
  | Incremental n a => if holds a n id then Some a else shown
  end.
Definition last_shown id (pubs : list Publication) : option SurfacesModel :=
  foldl (shown_by id) None pubs.

Definition up_to_date (s : Run) id : Prop :=
  ∃ a, last_shown id (publications s) = Some a ∧ content a id = content (application s) id.

(** A publication with the node will be written. *)
Definition on_its_way (s : Run) id : Prop :=
  place s = Publish_initial ∨
  ∃ n, (n = id ∨ n = list_id (application s) ∧ id ∈ surfaces_of (application s)) ∧
    (n ∈ ordered (pending_dirty s) ∨ ∃ l, place s = Serialized l n).

Record shown_ok (s : Run) : Prop := {
  shown_live : ∀ l, (place s = Publishing l ∨ ∃ n, place s = Serialized l n) → l = live_ids (application s);
  shown_parts : ∀ id, part_of (application s) id → on_its_way s id ∨ up_to_date s id
}.

(** Nothing that is looked at has changed. *)
Lemma shown_ok_same s s' :
  place s' = place s → application s' = application s → pending_dirty s' = pending_dirty s →
  publications s' = publications s → shown_ok s → shown_ok s'.
Proof.
  intros H1 H2 H3 H4 [Hl Hp]. split; unfold on_its_way, up_to_date in *; by rewrite H1, H2, ?H3, ?H4.
Qed.

(** The thread goes on to a place where nothing is being written. *)
Lemma shown_ok_place s s' :
  (∀ l n, place s ≠ Serialized l n) → place s ≠ Publish_initial →
  (∀ l n, place s' ≠ Serialized l n) → (∀ l, place s' = Publishing l → l = live_ids (application s)) →
  application s' = application s → pending_dirty s' = pending_dirty s →
  publications s' = publications s → shown_ok s → shown_ok s'.
Proof.
  intros Hs Hi Hs' Hl' H2 H3 H4 [Hl Hp]. split.
  - rewrite H2. intros l [H|[n H]]; [by apply Hl'|by destruct (Hs' l n)].
  - intros id. unfold on_its_way, up_to_date in *. rewrite H2, H3, H4. intros [H|H]%Hp; [|by right].
    left. right. destruct H as [?|(n & Hn & [Hd|[l ?]])]; [done| |by destruct (Hs l n)].
    exists n. split; [done|by left].
Qed.

(** A command is executed: what it has changed is on its way. *)
Lemma shown_ok_execute s w draining m' :
  place s = Executing w draining → PendingDirty.ok (pending_dirty s) →
  Invoke (application s) w.1 w.2 = Some m' → model_notes (application s) m' →
  (∀ id, id ∈ surfaces_of (application s) → is_Some (objects (application s) !! id)) →
  shown_ok s → shown_ok (execute_work execute w draining s).
Proof.
  intros Hpl Hd Hm Hn Hnodes [_ Hp]. unfold execute_work, execute. rewrite Hm.
  split; cbn [place application]; [by destruct draining; intros l [H|[? H]]|].
  assert (list_id m' = list_id (application s)) as El by apply Hn.
  assert (∀ n id, (n = id ∨ n = list_id m' ∧ id ∈ surfaces_of m') →
    n ∈ ordered (pending_dirty s) ∨ n ∈ notified_nodes (application s) m' →
    ∀ pl ex, on_its_way (mkSession (stop s) (pending_work s) (busy s) pl m'
      (foldl Note (pending_dirty s) (notified_nodes (application s) m')) (accepted s) ex
      (publications s) (saved s)) id) as Hway.
  { intros n id Hid Hin pl ex. right. exists n. split; [done|]. left. by apply Note_all_elem. }
  intros id Hid.
  destruct (decide (part_of (application s) id)) as [Hold|Hnew].
  - destruct (decide (content m' id = content (application s) id)) as [Hc|Hc].
    + destruct (Hp id Hold) as [[Hi|(n & Hn' & [Hin|[l Hs]])]|(a & Ha & Hca)]; [congruence| |congruence|].
      * left. destruct Hn' as [->|[-> _]]; [by eapply Hway; [left|left]|].
        eapply (Hway (list_id (application s))); [|by left].
        destruct Hid as [->|Hid]; [by left|by right].
      * right. exists a. split; [done|]. cbn. congruence.
    + left. eapply (Hway id); [by left|right]. apply content_notified; [done| |done].
      destruct Hold as [|Hold]; [by left|right; auto].
  - destruct Hid as [->|Hid]; [by destruct Hnew; left|].
    left. eapply (Hway (list_id (application s))); [by right|right].
    apply content_notified; [done|by left|]. unfold content. rewrite El, !decide_True by done.
    intros [= E]. destruct Hnew. right. by rewrite <-E.
Qed.

(** The publication of the node [n] is made. *)
Lemma shown_ok_publish s l n :
  place s = Serialized l n → shown_ok s →
  shown_ok (at_place (publish s (Incremental n (application s))) (Publishing l)).
Proof.
  intros Hpl [Hl Hp]. split; cbn [at_place publish place application].
  { intros l' [[= <-]|[? [=]]]. apply Hl. right. by exists n. }
  assert (∀ id, holds (application s) n id = true →
    up_to_date (at_place (publish s (Incremental n (application s))) (Publishing l)) id) as Hholds.
  { intros id H. exists (application s). unfold last_shown. cbn. rewrite foldl_snoc. cbn.
    by rewrite H. }
  intros id Hid. destruct (holds (application s) n id) eqn:Eh; [right; by apply Hholds|].
  destruct (Hp id Hid) as [[Hi|(k & Hk & [Hin|[l' Hs]])]|(a & Ha & Hca)]; [congruence| | |].
  - left. right. exists k. split; [done|by left].
  - rewrite Hpl in Hs. injection Hs as _ ->. exfalso. apply not_true_iff_false in Eh.
    apply Eh. unfold holds. destruct Hk as [->|[-> Hk]]; [by rewrite Z.eqb_refl|].
    rewrite Z.eqb_refl, (bool_decide_eq_true_2 _ Hk). by rewrite orb_true_r.
  - right. exists a. split; [|done]. unfold last_shown in *. cbn. rewrite foldl_snoc. cbn.
    by rewrite Eh.
Qed.

(** The next node is chosen; one that is dropped is no part of the list. *)
Lemma shown_ok_next s l :
  place s = Publishing l →
  (∀ id, id ∈ surfaces_of (application s) → is_Some (objects (application s) !! id)) →
  shown_ok s → shown_ok (publish_next is_node l s).
Proof.
  intros Hpl Hnodes Hok. pose proof Hok as [Hl Hp]. specialize (Hl l (or_introl Hpl)) as ->.
  unfold publish_next. destruct (stop s || busy s || empty _).
  { by apply (shown_ok_place s); rewrite ?Hpl; cbn; intros; simplify_eq. }
  unfold PopFront. destruct (ordered (pending_dirty s)) as [|n rest] eqn:Eo; [done|].
  set (a := application s) in *.
  assert (∀ id, part_of a id → id ∈ live_ids a ∧ is_node a id = true) as Hpart.
  { intros id [->|Hid]; unfold live_ids, is_node; (split; [set_solver|]).
    - by rewrite Z.eqb_refl.
    - rewrite (bool_decide_eq_true_2 _ (Hnodes id Hid)). apply orb_true_r. }
  assert (∀ s', place s' = Publishing (live_ids a) ∨ place s' = Serialized (live_ids a) n →
    application s' = a → publications s' = publications s → ordered (pending_dirty s') = rest →
    (n ∉ live_ids a ∨ is_node a n = false ∨ place s' = Serialized (live_ids a) n) → shown_ok s') as Hgo.
  { intros s' H1 H2 H3 H4 H5. split.
    - rewrite H2. intros l' [H|[k H]]; destruct H1; congruence.
    - unfold on_its_way, up_to_date. rewrite H2, H3, H4. intros id Hid.
      destruct (Hp id Hid) as [[Hi|(k & Hk & [Hin|[l' Hs]])]|H]; [congruence| |congruence|by right].
      left. right. exists k. split; [done|]. rewrite Eo in Hin.
      apply elem_of_cons in Hin as [->|Hin]; [|by left]. right. exists (live_ids a).
      assert (part_of a n) as Hn by (destruct Hk as [->|[-> _]]; [done|by left]).
      destruct (Hpart n Hn). destruct H5 as [?|[?|?]]; [done|congruence|done]. }
  destruct (bool_decide (n ∈ live_ids a)) eqn:Elive; breflect; cbn [negb];
    [|apply Hgo; cbn; auto].
  cbn [with_dirty application]. fold a. destruct (is_node a n) eqn:En; cbn [negb]; apply Hgo; cbn; auto.
Qed.

Lemma shown_ok_thread s s' :
  thread_step execute live_ids is_node save_fails s = Some s' → PendingDirty.ok (pending_dirty s) →
  (∀ id, id ∈ surfaces_of (application s) → is_Some (objects (application s) !! id)) →
  (∀ w draining, place s = Executing w draining →
    ∃ m', Invoke (application s) w.1 w.2 = Some m' ∧ model_notes (application s) m') →
  shown_ok s → shown_ok s'.
Proof.
  intros H Hd Hnodes Hex Hok. unfold thread_step in H.
  destruct (place s) as [| |w draining| |l|l id| |code] eqn:Hpl; try injection H as <-.
  - split; cbn; [intros l [[=]|[? [=]]]|]. intros id _. right. exists (application s).
    split; [|done]. unfold last_shown. cbn. by rewrite foldl_snoc.
  - unfold wait_for_work in H.
    destruct (stop s), (pending_work s); [| |destruct (_ && _); [|done]|];
      injection H as <-; by apply (shown_ok_place s); rewrite ?Hpl; cbn; intros; simplify_eq.
  - destruct (Hex w draining eq_refl) as (m' & Hm & Hn). by apply (shown_ok_execute s w draining m').
  - by apply (shown_ok_place s); rewrite ?Hpl; cbn; intros; try case_match; simplify_eq.
  - by apply shown_ok_next.
  - by apply shown_ok_publish.
  - by apply (shown_ok_place s); rewrite ?Hpl; cbn; intros; simplify_eq.
  - done.
Qed.


(** ** Runs *)

Lemma acts_snoc (s : Run) l x : acts_ s (l ++ [x]) = act_ (acts_ s l) x.
Proof. apply foldl_snoc. Qed.

Lemma posted_app l1 l2 : posted (l1 ++ l2) = posted l1 ++ posted l2.
Proof. induction l1 as [|[] l1 IH]; cbn; by rewrite ?IH. Qed.

Lemma accepted_thread s s' :
  thread_step execute live_ids is_node save_fails s = Some s' → accepted s' = accepted s.
Proof.
  unfold thread_step, wait_for_work, publish_next, execute_work. intros H.
  repeat case_match; by simplify_eq.
Qed.

(** Work is accepted in the order of the posts, until the stop. *)
Lemma accepted_works_posted a l :
  accepted (acts_ (new_session a) l) `prefix_of` posted l ∧
  (stop (acts_ (new_session a) l) = false → accepted (acts_ (new_session a) l) = posted l).
Proof.
  induction l as [|x l [IH1 IH2]] using rev_ind; [done|]. rewrite acts_snoc, posted_app.
  set (s := acts_ _ l) in *. destruct x as [w| | |]; cbn [act posted]; rewrite ?app_nil_r; try done.
  - unfold Post. destruct (stop s) eqn:Es; [split; [by apply prefix_app_r|congruence]|].
    cbn. by rewrite IH2.
  - destruct (thread_step _ _ _ _ s) as [s'|] eqn:Et; [|done]. cbn.
    rewrite (accepted_thread _ _ Et). split; [done|]. intros H. apply IH2.
    destruct (stop s) eqn:Es; [|done]. pose proof (thread_step_remaining execute live_ids is_node save_fails s Es) as Hr.
    rewrite Et in Hr. destruct Hr. congruence.
Qed.

Section run.
Context (k : Z) (m0 : SurfacesModel) (ws : list Work).
Hypothesis Hk : 0 ≤ k.
Hypothesis Hok : surfaces_ok (k + zlen ws) m0.
Hypothesis Hws : commands_ok (k + zlen ws) (dom (objects m0)) ws.
Hypothesis Hbound : all_bound m0.

Lemma run_shown_ok l : posted l `prefix_of` ws → shown_ok (acts_ (new_session m0) l).
Proof.
  induction l as [|x l IH] using rev_ind; intros Hl.
  { split; [intros l [H|[? H]]; discriminate H|]. intros id _. left. by left. }
  rewrite posted_app in Hl. assert (posted l `prefix_of` ws) as Hl1 by by eapply prefix_app_l.
  specialize (IH Hl1). rewrite acts_snoc. set (s := acts_ _ l) in *.
  destruct x as [w| | |]; cbn [act]; try by eapply shown_ok_same; [..|exact IH].
  { unfold Post. destruct (stop s); [done|]. by eapply shown_ok_same; [..|exact IH]. }
  destruct (thread_step _ _ _ _ s) as [s'|] eqn:Et; [|done]. cbn.
  assert (session_ok execute save_fails m0 s) as Hs by apply session_acts_ok, new_session_ok.
  destruct (accepted_works_posted m0 l) as [Hacc _]. fold s in Hacc.
  assert (∀ p, p `prefix_of` accepted s → p `prefix_of` ws) as Hpre by (intros p Hp; by transitivity (accepted s); [|transitivity (posted l)]).
  rewrite (ok_order _ _ _ _ Hs) in Hpre.
  destruct (run_works_ok k m0 ws Hk Hok Hws Hbound (executed s)) as [Hw Hnext].
  { apply Hpre. by apply prefix_app_r. }
  rewrite <-(ok_application _ _ _ _ Hs) in Hw, Hnext. destruct Hw as [_ _ _ (k' & _ & Hsurf)].
  eapply shown_ok_thread; [done|apply (ok_dirty _ _ _ _ Hs)|apply (live_objects _ _ Hsurf)| |done].
  intros w draining Hpl. apply Hnext, Hpre. rewrite Hpl, app_assoc. by apply prefix_app_r.
Qed.
End run.

(** ** A model that is bound *)

Lemma bind_surfaces_ok k m : surfaces_ok k m → surfaces_ok k (bind m).
Proof.
  intros [Hb H1 H2 H3 H4 H5 H6 H7 H8].
  split; cbn; try done.
  - by destruct Hb as [[] ????].
  - intros x Hx. rewrite lookup_fmap. by apply fmap_is_Some, H5.
  - intros x n. rewrite lookup_fmap. intros (o & Ho & ->)%fmap_Some.
    destruct (H6 x o Ho) as [Hbo ? ?]. split; [by destruct Hbo as [[] ????]|done..].
  - intros x y a b Hx Hy. rewrite !lookup_fmap. intros (o & Ho & ->)%fmap_Some (o' & Ho' & ->)%fmap_Some.
    exact (H7 x y o o' Hx Hy Ho Ho').
Qed.

(** Nothing suppresses the calls, as in a model that has been loaded. *)
Definition unsuppressed m : Prop :=
  suppress_materialized_change_ (list_node m) = false ∧
  ∀ id n, objects m !! id = Some n → suppress_materialized_change_ n = false.

Lemma bind_all_bound m : unsuppressed m → all_bound (bind m).
Proof.
  intros [H1 H2]. split; [by split|]. cbn. intros id n. rewrite lookup_fmap.
  intros (o & Ho & ->)%fmap_Some. split; [exact (H2 id o Ho)|done].
Qed.

(** C31. The session of the surfaces and its model, whatever the user interface posts
    (surfaces added or removed, pages shown, windows moved, resized and reordered) and however
    the posts, the readings of the publications, a request to stop and the model's thread are
    interleaved: when the thread waits with no work, nothing that has changed and the last
    publication read, the application is what all the commands that were posted, in their order,
    make of it, and the last publication that the user interface was given with the list, and
    with each surface that is in the list, shows it as it is: no command changes a node without
    notifying the session of it, and no notification is lost. *)
Theorem publications_catch_up k m l :
  0 ≤ k → surfaces_ok (k + zlen (posted l)) m →
  commands_ok (k + zlen (posted l)) (dom (objects m)) (posted l) → unsuppressed m →
  let s := acts_ (new_session (bind m)) l in
  place s = Waiting → wait_for_work s = None → busy s = false →
  Invoke_all (bind m) (posted l) = Some (application s) ∧
  ∀ id, part_of (application s) id →
    ∃ a, last_shown id (publications s) = Some a ∧ content a id = content (application s) id.
Proof.
  intros Hk Hok Hws Hun s Hpl Hwait Hbusy.
  apply bind_surfaces_ok in Hok. apply bind_all_bound in Hun.
  assert (dom (objects (bind m)) = dom (objects m)) as Hdom by apply dom_fmap_L.
  rewrite <-Hdom in Hws.
  assert (stop s = false ∧ pending_work s = [] ∧ ordered (pending_dirty s) = []) as (Hstop & Hpw & Hd).
  { unfold wait_for_work in Hwait. destruct (stop s), (pending_work s); try done.
    rewrite Hbusy, andb_true_r in Hwait. unfold empty in Hwait.
    destruct (bool_decide _) eqn:E; [|done]. by apply bool_decide_eq_true in E. }
  assert (session_ok execute save_fails (bind m) s) as Hs by apply session_acts_ok, new_session_ok.
  destruct (accepted_works_posted (bind m) l) as [_ Hacc]. fold s in Hacc. specialize (Hacc Hstop).
  pose proof (ok_order _ _ _ _ Hs) as Ho. rewrite Hpl, Hpw, app_nil_r in Ho.
  destruct (run_works_ok k (bind m) (posted l) Hk Hok Hws Hun (accepted s)) as [[Hinv _ _ _] _].
  { by rewrite Hacc. }
  rewrite Hacc in Ho. rewrite Hacc, Ho, <-(ok_application _ _ _ _ Hs), <-Ho in Hinv. split; [done|].
  intros id Hid. destruct (run_shown_ok k (bind m) (posted l) Hk Hok Hws Hun l) as [_ Hp]; [done|].
  fold s in Hp. destruct (Hp id Hid) as [[Hi|(n & _ & [Hin|[l' Hi]])]|H]; [congruence| |congruence|done].
  rewrite Hd in Hin. by apply elem_of_nil in Hin.
Qed.
End application.

(** ** A run *)
Module Examples.
Import SurfacesTheory.Examples.

#[local] Abbreviation run :=
  (acts (execute 99) (live_ids (λ _, ∅)) is_node (λ _, false) (new_session (bind 99 one_surface))).
#[local] Abbreviation T := DoThread.

(** A surface is added, moved and shown before the first publication is read; the first one is
    removed after it. *)
Definition clicks : list (Action (Work := Command * Readings)) :=
  [T; DoPost (AddClick 20 40 41 [], the_time); DoPost (BoundsChanged 40 10 20 300 200, the_time);
   T; T; T; T; T; DoPost (PageShown 40, the_time); T; T; DoTake; T; T; T; T; DoTake; T; T; T; T;
   DoPost (RemoveClick 20, the_time); T; T; T; DoTake; T; T; T; T; T; DoTake; T].

(** Both nodes changed while the publication was unread. *)
Example changed_while_unread :
  let s := run (take 8 clicks) in
  ordered (pending_dirty s) = [10; 40] ∧ busy s = true ∧ length (publications s) = 1%nat.
Proof. vm_compute. done. Qed.

Example published :
  let s := run clicks in
  map (λ p, match p with Initial _ => 0 | Incremental n _ => n end) (publications s) = [0; 10; 40; 10] ∧
  fields (list_node (application s)) = mkSurfaces [40] (Some 40) [40].
Proof. vm_compute. done. Qed.

Lemma publications_catch_up_witness :
  Invoke_all (bind 99 one_surface) (posted clicks) = Some (application (run clicks)) ∧
  part_of (application (run clicks)) 40 ∧
  ∀ id, part_of (application (run clicks)) id →
    ∃ a, last_shown (λ _ _ _, false) id (publications (run clicks)) = Some a ∧
      content a id = content (application (run clicks)) id.
Proof.
  destruct (publications_catch_up 99 (λ _, ∅) (λ _ _ _, false) (λ _, false) 0 one_surface clicks)
    as [H1 H2].
  - lia.
  - by apply one_surface_ok.
  - cbn -[the_time]. repeat split; try (apply the_time_within; done); set_solver.
  - split; [done|]. intros id n H. cbn in H. by apply lookup_singleton_Some in H as [_ <-].
  - by vm_compute.
  - by vm_compute.
  - by vm_compute.
  - split; [exact H1|]. split; [|exact H2]. right. vm_compute. apply list_elem_of_singleton. done.
Defined.
End Examples.
