(* ===== verification/MainWindow.v ===== *)
(** * The main window demo

    Models examples/main_window_runtime_demo/: the window of the model
    (common/main_window_model.h and .cpp), the session of the model's thread
    (common/main_window_lifecycle.cpp), the presenter of the native window
    (windows/win_presenters.cpp) and the messages of the application (windows/win_app.cpp).

    The system is two threads, the native window and the queue of the messages between them.
    The window of the model is a [Node]; a publication carries the window as the encodings of
    Publication.v restore it, and the channel, which holds one unread publication here, is the
    list of the unread ones.  The process that ends in an assertion is [None]. *)
From S2P Require Import Prelude Aether SharedEvent Node.

(** ** The window of the model *)

(** The outer rectangle of a window. *)
Record Rect := mkRect { left : Z; top : Z; width : Z; height : Z }.

#[export] Instance Rect_eq_dec : EqDecision Rect.
Proof. solve_decision. Defined.

Record MainWindow := mkMainWindow { geometry : Rect; presenter : option Z }.

Record WindowChangedEvent := mkWindowChangedEvent { event_geometry : Rect }.

(** [MainWindow::Apply] *)
Definition Apply_MainWindow (f : MainWindow) (e : WindowChangedEvent) : MainWindow :=
  mkMainWindow (event_geometry e) (presenter f).

#[export] Instance MainWindow_kind : NodeKind MainWindow WindowChangedEvent := {|
  CanApplyTo _ _ := true;
  ApplyTo f e := Some (Apply_MainWindow f e, true);
  MatchesSharedMetadata _ _ _ := true;
  SaveLoad f := f;
  CarryLocal _ loaded := loaded
|}.

Abbreviation WindowNode := (Node MainWindow WindowChangedEvent).

(** ** The session *)

Record WindowChangedCommand := mkCommand { sequence : Z; command_geometry : Rect }.

(** The initial publication of the application, or an incremental one of the window, with the
    sequence of the command that it acknowledges. *)
Inductive Publication :=
| Initial (f : MainWindow)
| Incremental (processed_sequence : Z) (f : MainWindow).

Inductive PublicationKind := InitialKind | IncrementalKind.

(** Where the model's thread is. *)
Inductive Place :=
| Publish_initial
| Notify (kind : PublicationKind)
| Waiting
| Applying (command : WindowChangedCommand)
| Publishing (processed_sequence : Z)
| Saving
| Exited.

(** The presenter on the user interface's thread with its native window.
    [set_window_pos]: how often the program has moved the native window. *)
Record Presenter := mkPresenter {
  last_submitted_window_change_sequence : Z;
  last_acknowledged_window_change_sequence : Z;
  hwnd : Rect;
  set_window_pos : nat
}.

(** [ui]: the mirror of the window and its presenter; [None]: the window "Loading" is up.
    [posted]: the messages in the queue of the user interface's thread. *)
Record ModelSession := mkSession {
  stop : bool;
  pending_window_change : option WindowChangedCommand;
  unread : list Publication;
  place : Place;
  window : WindowNode;
  posted : list PublicationKind;
  ui : option (MainWindow * Presenter);
  saved : option WindowNode
}.

Section setters.
  Implicit Types s : ModelSession.

Definition at_place s p : ModelSession :=
  mkSession (stop s) (pending_window_change s) (unread s) p (window s) (posted s) (ui s) (saved s).
Definition set_pending s c : ModelSession :=
  mkSession (stop s) c (unread s) (place s) (window s) (posted s) (ui s) (saved s).
Definition set_unread s l : ModelSession :=
  mkSession (stop s) (pending_window_change s) l (place s) (window s) (posted s) (ui s) (saved s).
Definition set_window s n : ModelSession :=
  mkSession (stop s) (pending_window_change s) (unread s) (place s) n (posted s) (ui s) (saved s).
Definition set_posted s l : ModelSession :=
  mkSession (stop s) (pending_window_change s) (unread s) (place s) (window s) l (ui s) (saved s).
Definition set_ui s u : ModelSession :=
  mkSession (stop s) (pending_window_change s) (unread s) (place s) (window s) (posted s) u (saved s).
Definition set_saved s n : ModelSession :=
  mkSession (stop s) (pending_window_change s) (unread s) (place s) (window s) (posted s) (ui s) n.
End setters.

Definition RequestStop (s : ModelSession) : ModelSession :=
  mkSession true (pending_window_change s) (unread s) (place s) (window s) (posted s) (ui s) (saved s).

(** A newer command replaces an older one. *)
Definition SubmitWindowChanged (s : ModelSession) (c : WindowChangedCommand) : ModelSession :=
  set_pending s (Some c).

(** The start of [Run]: the window is loaded, and keeps no history. *)
Definition start_session (loaded : WindowNode) : ModelSession :=
  mkSession false None [] Publish_initial
    (SetJournalRetentionPolicy loaded (JournalRetentionPolicy.mk 0 None)) [] None None.

(** ** The model's thread *)

Definition wait_for_command (s : ModelSession) : ModelSession :=
  if stop s then at_place s Saving
  else match pending_window_change s, unread s with
       | Some command, [] => at_place (set_pending s None) (Applying command)
       | _, _ => s
       end.

Definition apply_command (command : WindowChangedCommand) (now : Readings) (s : ModelSession)
    : option ModelSession :=
  let n := window s in
  n ← (if bool_decide (geometry (fields n) = command_geometry command) then Some n
       else Commit n (created n (mkWindowChangedEvent (command_geometry command))) now);
  Some (at_place (set_window s n) (Publishing (sequence command))).

Definition PublishWindowChange (processed_sequence : Z) (s : ModelSession) : ModelSession :=
  set_unread s (unread s ++ [Incremental processed_sequence (fields (window s))]).

(** [on_published]: the message that is posted to the application. *)
Definition on_published (kind : PublicationKind) (s : ModelSession) : ModelSession :=
  set_posted s (posted s ++ [kind]).

Definition save (now : Readings) (s : ModelSession) : option ModelSession :=
  n ← CompactJournal (window s) (now 0%nat);
  Some (at_place (set_saved (set_window s n) (Some n)) Exited).

Definition thread_step (now : Readings) (s : ModelSession) : option ModelSession :=
  match place s with
  | Publish_initial =>
      Some (at_place (set_unread s (unread s ++ [Initial (fields (window s))])) (Notify InitialKind))
  | Notify kind => Some (at_place (on_published kind s) Waiting)
  | Waiting => Some (wait_for_command s)
  | Applying command => apply_command command now s
  | Publishing processed_sequence =>
      Some (at_place (PublishWindowChange processed_sequence s) (Notify IncrementalKind))
  | Saving => save now s
  | Exited => Some s
  end.

(** ** The native window *)

Definition WindowChangePublicationIsCurrent (p : Presenter) : bool :=
  last_submitted_window_change_sequence p <=? last_acknowledged_window_change_sequence p.

(** The window is at [r], by the user or by the program: WM_WINDOWPOSCHANGED of [WndProc],
    which submits the rectangle with the next sequence. *)
Definition WindowPosChanged (r : Rect) (f : MainWindow) (p : Presenter) (s : ModelSession)
    : ModelSession :=
  let n := u64 (last_submitted_window_change_sequence p + 1) in
  let p := mkPresenter n (last_acknowledged_window_change_sequence p) r (set_window_pos p) in
  SubmitWindowChanged (set_ui s (Some (f, p))) (mkCommand n r).

(** [native r]: the rectangle that the window gets when it is asked to have [r]. *)
Definition OnModelChanged (native : Rect → Rect) (f : MainWindow) (p : Presenter)
    (s : ModelSession) : ModelSession :=
  if negb (WindowChangePublicationIsCurrent p) then set_ui s (Some (f, p))
  else if bool_decide (hwnd p = geometry f) then set_ui s (Some (f, p))
  else
    let p := mkPresenter (last_submitted_window_change_sequence p)
               (last_acknowledged_window_change_sequence p) (hwnd p) (S (set_window_pos p)) in
    WindowPosChanged (native (geometry f)) f p s.

(** ** The messages of the application *)

(** [OnInitialPublished]: the presenter's [OnLoad] makes the native window; nothing is
    submitted before the presenter is attached to it. *)
Definition OnInitialPublished (native : Rect → Rect) (s : ModelSession) : option ModelSession :=
  match unread s with
  | Initial f :: rest =>
      Some (set_ui (set_unread s rest) (Some (f, mkPresenter 0 0 (native (geometry f)) 0)))
  | _ => None
  end.

(** [OnIncrementalPublished] with [ApplyMainWindowIncremental]. *)
Definition OnIncrementalPublished (native : Rect → Rect) (s : ModelSession)
    : option ModelSession :=
  match unread s, ui s with
  | Incremental processed_sequence f :: rest, Some (_, p) =>
      let p := mkPresenter (last_submitted_window_change_sequence p) processed_sequence (hwnd p)
                 (set_window_pos p) in
      Some (OnModelChanged native f p (set_unread s rest))
  | _, _ => None
  end.

Definition Handle (native : Rect → Rect) (s : ModelSession) : option ModelSession :=
  match posted s with
  | [] => Some s
  | InitialKind :: rest => OnInitialPublished native (set_posted s rest)
  | IncrementalKind :: rest => OnIncrementalPublished native (set_posted s rest)
  end.

(** What the threads do, in the order in which they do it.  [UserMoves r]: the user moves or
    sizes the window; [DoStop]: the window is closed, or the session is asked from outside. *)
Inductive Action :=
| UserMoves (r : Rect)
| DoMessage
| DoStop
| DoThread (now : Readings).

Definition act (native : Rect → Rect) (s : ModelSession) (x : Action) : option ModelSession :=
  match x with
  | UserMoves r =>
      match ui s with
      | Some (f, p) => Some (WindowPosChanged r f p s)
      | None => Some s
      end
  | DoMessage => Handle native s
  | DoStop => Some (RequestStop s)
  | DoThread now => thread_step now s
  end.

Definition acts (native : Rect → Rect) (s : ModelSession) (l : list Action) : option ModelSession :=
  foldl (λ s x, s ← s; act native s x) (Some s) l.
