(* ===== verification/MainWindowTheory.v ===== *)
(** * What holds of the main window demo

    Under every interleaving of the user, the application's messages and the model's thread:
    nothing fails, the publications that come back never move the native window, and once the
    user rests the model, the mirror and the native window agree. *)
From Stdlib Require Import Sorting.Sorted.
From stdpp Require Import sorting.
From S2P Require Import Prelude Aether SharedEvent Node NodeTheory NodeBudget MainWindow.

#[export] Instance MainWindow_equiv : Equiv MainWindow := (=).
#[export] Instance MainWindow_laws : NodeLaws MainWindow WindowChangedEvent.
Proof. split; [apply eq_equivalence|by intros f g e ->| |done|done]. intros f g e ->. by constructor. Qed.

(** ** The window of the model *)

(** The window can take [k] more commands and the save. *)
Record window_ok (k : Z) (n : WindowNode) : Prop := {
  win_budget : Budget k n;
  win_policy : journal_retention_policy_ n = JournalRetentionPolicy.mk 0 None;
  win_blocked : journal_compaction_blocked_ n = false;
  win_base : ∃ b, base n = Some b ∧ base_id b ≠ obj_id n
}.

Lemma window_ok_weaken k k' n : k' ≤ k → window_ok k n → window_ok k' n.
Proof. intros Hk [Hb Hp Hbl Hba]. split; [by apply (Budget_weaken k)|done..]. Qed.

Lemma commit_window_ok k n r now :
  0 ≤ k → window_ok (k + 1) n → clock_within (k + 1) now →
  ∃ m, Commit n (created n (mkWindowChangedEvent r)) now = Some m ∧ window_ok k m ∧
    fields m = mkMainWindow r (presenter (fields n)).
Proof.
  intros Hk [Hb Hp Hbl Hba] Hnow.
  destruct (Commit_Budget k n (mkWindowChangedEvent r) now (mkMainWindow r (presenter (fields n))) true)
    as (m & rec & Hm & Hbm & Hf & _); [done..|].
  exists m. split; [done|]. split; [|done].
  apply Commit_exact in Hm as (Hs & _); [|by apply (Budget_ready (k + 1)); [lia|]|
    by apply (clock_within_ok (k + 1)); [lia|]].
  split; [done|by rewrite (sf_policy _ _ Hs)|by rewrite (sf_blocked _ _ Hs)|].
  rewrite (sf_base _ _ Hs), (sf_obj_id _ _ Hs). exact Hba.
Qed.

Lemma collapsible_none size now (j : list (EventRecord WindowChangedEvent)) i :
  Z.of_nat i + zlen j ≤ size →
  collapsible_from (JournalRetentionPolicy.mk 0 None) size now j i = (i + length j)%nat.
Proof.
  revert i. induction j as [|r j IH]; intros i Hi; cbn [collapsible_from length]; [lia|].
  unfold zlen in *. cbn [length] in Hi.
  unfold retained_by. cbn. destruct (Z.leb_spec (size - Z.of_nat i) 0); [lia|]. cbn.
  rewrite IH; lia.
Qed.

(** The save keeps the window and drops its history. *)
Lemma compact_window k n now :
  window_ok k n → ∃ m, CompactJournal n now = Some m ∧ journal m = [] ∧ fields m = fields n.
Proof.
  intros [[Hc _ _ Hd _] Hp Hbl (b & Hb & Hid)]. unfold CompactJournal, CollapsiblePrefixCount.
  rewrite Hbl, Hp. cbn [orb]. case_bool_decide as Hj; [by exists n|].
  rewrite collapsible_none by (cbn; lia). cbn [Nat.add].
  destruct (Nat.eqb_spec (length (journal n)) 0) as [Hz|Hz]; [by exists n; apply nil_length_inv in Hz|].
  rewrite drop_all, bool_decide_eq_true_2 by done.
  rewrite (CaptureBaseState_Some _ b); [|done|done| |done|done].
  - by eexists.
  - destruct Hc as [Hl _ _]. unfold base_is_loaded in Hl. by rewrite Hb in Hl.
Qed.

(** ** Where the publications are *)

Definition idle (p : Place) : Prop := p = Waiting ∨ p = Saving ∨ p = Exited.

(** The places of the two threads, the channel and the messages: [w] is the window of the
    model, [u] what the user interface has. *)
Inductive phase (w : MainWindow) :
    Place → list Publication → list PublicationKind → option (MainWindow * Presenter) → Prop :=
| ph_start : phase w Publish_initial [] [] None
| ph_initial : phase w (Notify InitialKind) [Initial w] [] None
| ph_loading p : idle p → phase w p [Initial w] [InitialKind] None
| ph_idle p pr : idle p → phase w p [] [] (Some (w, pr))
| ph_applying c f pr : phase w (Applying c) [] [] (Some (f, pr))
| ph_publishing q f pr : phase w (Publishing q) [] [] (Some (f, pr))
| ph_notify q f pr : phase w (Notify IncrementalKind) [Incremental q w] [] (Some (f, pr))
| ph_unread p q f pr : idle p → phase w p [Incremental q w] [IncrementalKind] (Some (f, pr)).

(** ** The commands under way

    From the oldest to the newest: the one that the user interface has seen acknowledged, the
    publication that is unread, the one at the model's thread, and the one that waits; each
    with the rectangle that it carries. *)
Definition seen (u : option (MainWindow * Presenter)) : list (Z * Rect) :=
  match u with
  | Some (f, p) =>
      let q := last_acknowledged_window_change_sequence p in
      if q =? 0 then [] else [(q, geometry f)]
  | None => []
  end.
Definition published (u : Publication) : list (Z * Rect) :=
  match u with Incremental q f => [(q, geometry f)] | Initial _ => [] end.
Definition in_hand (w : MainWindow) (p : Place) : list (Z * Rect) :=
  match p with
  | Applying c => [(sequence c, command_geometry c)]
  | Publishing q => [(q, geometry w)]
  | _ => []
  end.
Definition waiting (c : option WindowChangedCommand) : list (Z * Rect) :=
  match c with Some c => [(sequence c, command_geometry c)] | None => [] end.
Definition before_model (s : ModelSession) : list (Z * Rect) :=
  seen (ui s) ++ concat (published <$> unread s) ++ in_hand (fields (window s)) (place s).
Definition carried (s : ModelSession) : list (Z * Rect) :=
  before_model s ++ waiting (pending_window_change s).

Definition submitted (s : ModelSession) : Z :=
  match ui s with Some (_, p) => last_submitted_window_change_sequence p | None => 0 end.

(** The sequences increase, and what carries the last one carries the rectangle of the native
    window. *)
Record commands_ok (l : list (Z * Rect)) (u : option (MainWindow * Presenter)) (last : Z) : Prop := {
  com_sorted : StronglySorted Z.lt (fst <$> l);
  com_bounds : ∀ q r, (q, r) ∈ l → 0 < q ≤ last;
  com_last : 0 < last → ∃ r, (last, r) ∈ l;
  com_hwnd : ∀ r, (last, r) ∈ l → ∃ f p, u = Some (f, p) ∧ r = hwnd p
}.

Record system_ok (k : Z) (s : ModelSession) : Prop := {
  sys_phase : phase (fields (window s)) (place s) (unread s) (posted s) (ui s);
  sys_commands : commands_ok (carried s) (ui s) (submitted s);
  sys_submitted : 0 ≤ submitted s ∧ submitted s + k < 18446744073709551616;
  sys_unmoved : ∀ f p, ui s = Some (f, p) → set_window_pos p = 0%nat;
  sys_window : place s ≠ Exited → window_ok k (window s);
  sys_stop : place s = Saving ∨ place s = Exited → stop s = true;
  sys_saved : place s = Exited → saved s = Some (window s) ∧ journal (window s) = []
}.

Lemma commands_drop x l u last :
  commands_ok (x :: l) u last → l ≠ [] → commands_ok l u last.
Proof.
  intros [Hs Hb Hl Hh] Hne. split.
  - by inversion Hs.
  - intros q r Hin. apply (Hb q r). by right.
  - intros H0. destruct (Hl H0) as [r [Hr|Hr]%elem_of_cons]; [|by exists r].
    exfalso. destruct l as [|[q r'] l]; [done|]. subst x.
    apply StronglySorted_inv in Hs as [_ Hs]. inversion Hs as [|?? Hq _]. cbn in Hq.
    destruct (Hb q r') as [_ ?]; [by right; left|]. lia.
  - intros r Hin. apply Hh. by right.
Qed.

(** The user moves the window: the command that waits is replaced by one that is newer than
    all the others. *)
Lemma commands_submit s f p r :
  ui s = Some (f, p) → commands_ok (carried s) (ui s) (submitted s) → 0 ≤ submitted s →
  let p' := mkPresenter (submitted s + 1) (last_acknowledged_window_change_sequence p) r (set_window_pos p) in
  commands_ok (before_model s ++ [(submitted s + 1, r)]) (Some (f, p')) (submitted s + 1).
Proof.
  intros Hu [Hs Hb Hl Hh] H0 p'.
  assert (Hpre : ∀ q r', (q, r') ∈ before_model s → 0 < q ≤ submitted s).
  { intros q r' Hin. apply (Hb q r'). apply elem_of_app. by left. }
  split.
  - rewrite fmap_app. apply StronglySorted_app. split; [|split].
    + intros x1 x2 Hx1 Hx2. cbn in Hx2. apply list_elem_of_singleton in Hx2 as ->.
      apply list_elem_of_fmap in Hx1 as ([q r'] & -> & Hin). specialize (Hpre q r' Hin). cbn. lia.
    + unfold carried in Hs. rewrite fmap_app in Hs. by apply StronglySorted_app in Hs as (_ & Hs & _).
    + cbn. repeat constructor.
  - intros q r' [Hin|Hin]%elem_of_app; [specialize (Hpre q r' Hin); lia|].
    apply list_elem_of_singleton in Hin. simplify_eq. lia.
  - intros _. exists r. apply elem_of_app. right. by left.
  - intros r' [Hin|Hin]%elem_of_app; [specialize (Hpre _ r' Hin); lia|].
    apply list_elem_of_singleton in Hin. simplify_eq. by exists f, p'.
Qed.

(** ** The steps *)

Section steps.
Context (native : Rect → Rect).
Implicit Types s : ModelSession.

Lemma system_ok_weaken k s : system_ok (k + 1) s → system_ok k s.
Proof.
  intros [Hp Hc Hs Hu Hw He Hv]. split; try done; try (by intros [?|?]); [lia|].
  intros H. apply (window_ok_weaken (k + 1)); [lia|auto].
Qed.

(** What is under way is the same, in other places. *)
Local Ltac same_commands H :=
  revert H; unfold carried, before_model, submitted; cbn;
  rewrite ?app_nil_r, <-?app_assoc; cbn; rewrite ?app_nil_r; done.

(** The save needs no budget, a command needs one commit. *)
Lemma window_thread_step_ok k s now :
  0 ≤ k → system_ok (k + 1) s → clock_within (k + 1) now →
  ∃ s', thread_step now s = Some s' ∧ system_ok k s'.
Proof.
  intros Hk Hok Hnow. pose proof (system_ok_weaken k s Hok) as Hweak.
  pose proof (sys_window _ _ Hok) as Hwin. destruct Hweak as [Hp Hc Hs Hu Hw He Hv].
  destruct s as [st pend unr pl win post u sv].
  cbn [MainWindow.place MainWindow.window MainWindow.unread MainWindow.posted MainWindow.ui
       MainWindow.saved] in *.
  unfold thread_step. cbn [MainWindow.place].
  destruct pl as [|kind| |c|q| |].
  - inversion Hp; subst; [|by destruct H as [|[]]..].
    eexists. split; [reflexivity|]. split; try done; try (by intros [?|?]); [constructor|by intros _; apply Hw].
  - inversion Hp; subst; try by destruct H as [|[]].
    + eexists. split; [reflexivity|]. split; try done; try (by intros [?|?]); [by constructor; left|by intros _; apply Hw].
    + eexists. split; [reflexivity|]. split; try done; try (by intros [?|?]); [by constructor; left|by intros _; apply Hw].
  - eexists. split; [reflexivity|]. unfold wait_for_command.
    cbn [MainWindow.stop pending_window_change MainWindow.unread].
    destruct st.
    { split; try done; try (by intros [?|?]); [|by intros _; apply Hw]. inversion Hp; subst; constructor; right; by left. }
    destruct pend as [c|]; [|by split]. destruct unr as [|u0 unr]; [|by split].
    inversion Hp; subst.
    split; try done; try (by intros [?|?]); [apply ph_applying|same_commands Hc|by intros _; apply Hw].
  - inversion Hp; subst; try by destruct H as [|[]].
    unfold apply_command. cbn [MainWindow.window].
    case_bool_decide as Hg; cbn [mbind option_bind].
    + eexists. split; [reflexivity|]. split; try done; try (by intros [?|?]); [apply ph_publishing| |by intros _; apply Hw].
      revert Hc. unfold carried, before_model. cbn. by rewrite Hg.
    + destruct (commit_window_ok k win (command_geometry c) now) as (m & Hm & Hmok & Hf);
        [done|by apply Hwin|done|].
      rewrite Hm. cbn [mbind option_bind]. eexists. split; [reflexivity|].
      split; try done; try (by intros [?|?]); [apply ph_publishing|]. revert Hc. unfold carried, before_model. cbn. by rewrite Hf.
  - inversion Hp; subst; try by destruct H as [|[]].
    eexists. split; [reflexivity|]. split; try done; try (by intros [?|?]); [apply ph_notify|by intros _; apply Hw].
  - destruct (compact_window (k + 1) win (now 0%nat)) as (m & Hm & Hj & Hf); [by apply Hwin|].
    unfold save. cbn [MainWindow.window]. rewrite Hm. cbn [mbind option_bind].
    eexists. split; [reflexivity|]. split; try done; try (by intros [?|?]); cbn.
    + rewrite Hf. inversion Hp; subst; constructor; by right; right.
    + intros _. apply He. by left.
  - eexists. split; [reflexivity|]. by split.
Qed.

Lemma user_moves_ok k s f p r :
  0 ≤ k → system_ok (k + 1) s → ui s = Some (f, p) → system_ok k (WindowPosChanged r f p s).
Proof.
  intros Hk Hok Hu. pose proof (sys_submitted _ _ Hok) as Hsub.
  pose proof (sys_commands _ _ Hok) as Hcom.
  pose proof (system_ok_weaken k s Hok) as [Hp _ _ Hun Hw He Hv].
  assert (Hlast : last_submitted_window_change_sequence p = submitted s) by (by unfold submitted; rewrite Hu).
  pose proof (commands_submit s f p r Hu Hcom ltac:(lia)) as Hnew.
  destruct s as [st pend unr pl win post u sv]. cbn in Hu. subst u.
  unfold WindowPosChanged. rewrite Hlast, u64_small by (unfold is_u64; lia).
  split; cbn; try done.
  - cbn in Hp. inversion Hp; subst; by constructor.
  - cbn in Hsub, Hlast. lia.
  - intros f' p' [= <- <-]. cbn. by apply (Hun f p).
Qed.

(** The presenter after the acknowledgement of [q]. *)
Definition acknowledged (q : Z) (p : Presenter) : Presenter :=
  mkPresenter (last_submitted_window_change_sequence p) q (hwnd p) (set_window_pos p).

(** What comes back either is older than what the user has done since, or is where the window
    is: the native window stays where it is. *)
Lemma model_changed_stays f f' p q rest s :
  commands_ok ((q, geometry f) :: rest) (Some (f', p)) (last_submitted_window_change_sequence p) →
  OnModelChanged native f (acknowledged q p) s = set_ui s (Some (f, acknowledged q p)).
Proof.
  intros [_ Hb _ Hh]. unfold OnModelChanged, WindowChangePublicationIsCurrent. cbn.
  destruct (Z.leb_spec (last_submitted_window_change_sequence p) q) as [Hq|]; cbn; [|done].
  destruct (Hb q (geometry f)) as [_ Hle]; [by left|].
  assert (last_submitted_window_change_sequence p = q) as Heq by lia. rewrite Heq in Hh.
  destruct (Hh (geometry f)) as (? & ? & [= <- <-] & Hr); [by left|].
  by rewrite bool_decide_eq_true_2.
Qed.

(** Where the native window is, once there is one. *)
Definition native_window s : option Rect := (λ u, hwnd u.2) <$> ui s.

Lemma thread_keeps_ui now s s' : thread_step now s = Some s' → ui s' = ui s.
Proof.
  unfold thread_step, wait_for_command, apply_command, save. intros Hs.
  destruct (place s); simplify_eq/=; try done.
  - destruct (stop s), (pending_window_change s), (unread s); done.
  - by destruct (if bool_decide _ then _ else _); simplify_eq/=.
  - by destruct (CompactJournal _ _); simplify_eq/=.
Qed.

Lemma message_ok k s :
  0 ≤ k → system_ok (k + 1) s →
  ∃ s', Handle native s = Some s' ∧ system_ok k s' ∧ stop s' = stop s ∧
    pending_window_change s' = pending_window_change s ∧ place s' = place s ∧
    posted s' = tail (posted s) ∧
    (∀ r, native_window s = Some r → native_window s' = Some r).
Proof.
  intros Hk Hok. pose proof (system_ok_weaken k s Hok) as Hweak.
  pose proof Hweak as [Hp Hc Hs Hu Hw He Hv].
  destruct s as [st pend unr pl win post u sv]. unfold Handle. cbn in Hp |- *.
  inversion Hp; subst; try by exists (mkSession st pend [] pl win [] None sv).
  all: try by (eexists; split; [reflexivity|]).
  - (* the initial publication *)
    eexists. split; [reflexivity|]. split; [|done]. destruct Hc as [Hso Hb Hl Hh]. split; cbn in *; try done.
    + by constructor.
    + split; [done| |done|]; cbn in *; intros * Hin; apply Hb in Hin; lia.
    + by intros ? ? [= <- <-].
  - (* an incremental one *)
    pose proof (com_bounds _ _ _ Hc) as Hb.
    assert (Hq : 0 < q).
    { destruct (Hb q (geometry (fields win))); [|lia]. unfold carried, before_model. cbn. apply elem_of_app. left. apply elem_of_app. right. by left. }
    assert (Hc' : commands_ok ((q, geometry (fields win)) :: waiting pend) (Some (f, pr))
              (last_submitted_window_change_sequence pr)).
    { revert Hc. unfold carried, before_model. destruct H as [->|[->| ->]]; cbn;
      destruct (last_acknowledged_window_change_sequence pr =? 0); cbn; try done; intros Hc; by apply commands_drop in Hc. }
    unfold OnIncrementalPublished. cbn. eexists. split; [reflexivity|].
    change (mkPresenter _ q _ _) with (acknowledged q pr).
    rewrite (model_changed_stays _ _ _ _ _ _ Hc'). split; [|done].
    split; cbn in *; try done.
    + by constructor.
    + unfold carried, before_model. cbn. destruct (Z.eqb_spec q 0); [lia|].
      destruct H as [->|[->| ->]]; cbn; (destruct Hc' as [H1 H2 H3 H4]; split; try done;
        intros r Hin; destruct (H4 r Hin) as (? & ? & [= <- <-] & ->); by exists (fields win), (acknowledged q pr)).
    + intros ? ? [= <- <-]. cbn. by apply (Hu f pr).
Qed.

(** Every action completes, as long as neither the commits of the window nor the sequences
    are exhausted: [k] counts the actions to come. *)
Definition clocks_within (k : Z) (l : list Action) : Prop :=
  ∀ now, DoThread now ∈ l → clock_within k now.

Lemma window_act_ok k s x :
  0 ≤ k → system_ok (k + 1) s → clocks_within (k + 1) [x] →
  ∃ s', act native s x = Some s' ∧ system_ok k s'.
Proof.
  intros Hk Hok Hx. destruct x as [r| | |now]; cbn [act].
  - destruct (ui s) as [[f p]|] eqn:Hu; (eexists; split; [reflexivity|]).
    + by apply user_moves_ok.
    + by apply system_ok_weaken.
  - destruct (message_ok k s Hk Hok) as (s' & Hs' & Hok' & _). by exists s'.
  - eexists. split; [reflexivity|]. by apply system_ok_weaken in Hok as [? ? ? ? ? ? ?].
  - apply window_thread_step_ok; [done..|]. apply Hx. by left.
Qed.

Lemma window_acts_ok k l : ∀ s,
  0 ≤ k → system_ok (k + zlen l) s → clocks_within (k + zlen l) l →
  ∃ s', acts native s l = Some s' ∧ system_ok k s'.
Proof.
  unfold acts. induction l as [|x l IH]; intros s Hk Hok Hl.
  { exists s. split; [done|]. by rewrite Z.add_0_r in Hok. }
  change (zlen (x :: l)) with (zlen ([x] ++ l)) in Hok, Hl. rewrite zlen_app in Hok, Hl.
  change (zlen [x]) with 1 in Hok, Hl. pose proof (zlen_nonneg l).
  replace (k + (1 + zlen l)) with (k + zlen l + 1) in Hok, Hl by lia.
  destruct (window_act_ok (k + zlen l) s x) as (s1 & Hs1 & Hok1); [lia|done| |].
  { intros now Hin. apply Hl. set_solver. }
  cbn [foldl mbind option_bind]. rewrite Hs1. apply IH; [done..|].
  intros now Hin. apply (clock_within_weaken (k + zlen l + 1)); [lia|]. apply Hl. by right.
Qed.
(** ** The system at rest *)

(** What is left to do until the system rests. *)
Definition to_do s : nat :=
  (match pending_window_change s with Some _ => 6 | None => 0 end) +
  (match place s with
   | Publish_initial => 9 | Notify _ => 2 | Applying _ => 4 | Publishing _ => 3 | _ => 0
   end) + length (posted s).

Lemma thread_to_do k now s s' :
  stop s = false → system_ok k s → thread_step now s = Some s' →
  stop s' = false ∧ (length (posted s) ≤ length (posted s'))%nat ∧ (to_do s' ≤ to_do s)%nat ∧
  (posted s = [] → to_do s' ≤ pred (to_do s))%nat.
Proof.
  intros Hst Hok Hs. pose proof (sys_phase _ _ Hok) as Hp. pose proof (sys_stop _ _ Hok) as Hend.
  destruct s as [st pend unr pl win post u sv]. cbn in Hst, Hp, Hend. subst st.
  unfold thread_step in Hs. cbn in Hs. unfold to_do.
  destruct pl as [|kind| |c|q| |]; try (by exfalso; assert (false = true) by auto);
    try (simplify_eq/=; rewrite ?length_app; cbn; split; [done|lia]).
  - simplify_eq. unfold wait_for_command. cbn. inversion Hp; subst; cbn; destruct pend; cbn; (split; [done|]; lia || naive_solver lia).
  - unfold apply_command in Hs. cbn in Hs. destruct (if bool_decide _ then _ else _); simplify_eq/=.
    split; [done|lia].
Qed.

(** A turn of each thread. *)
Definition turn (now : Readings) : list Action := [DoThread now; DoMessage].

Lemma turn_settles k now s :
  0 ≤ k → stop s = false → system_ok (k + 2) s → clock_within (k + 2) now →
  ∃ s', acts native s (turn now) = Some s' ∧ system_ok k s' ∧ stop s' = false ∧
    (to_do s' ≤ pred (to_do s))%nat ∧
    (∀ r, native_window s = Some r → native_window s' = Some r).
Proof.
  intros Hk Hst Hok Hnow. replace (k + 2) with (k + 1 + 1) in Hok, Hnow by lia.
  destruct (window_thread_step_ok (k + 1) s now) as (s1 & Hs1 & Hok1); [lia|done..|].
  destruct (message_ok k s1 Hk Hok1) as (s2 & Hs2 & Hok2 & Hst2 & Hpend & Hplace & Hpost & Hwnd).
  destruct (thread_to_do (k + 1 + 1) now s s1 Hst Hok Hs1) as (Hst1 & Hlen & Hle & Hlt).
  exists s2. unfold acts, turn. cbn. rewrite Hs1. cbn. split; [done|]. split; [done|].
  split; [congruence|]. split.
  2: { intros r Hr. apply Hwnd. unfold native_window in *. by rewrite (thread_keeps_ui _ _ _ Hs1). }
  revert Hle Hlt Hlen. unfold to_do at 1 3 5. rewrite Hpend, Hplace, Hpost.
  unfold to_do. destruct (posted s), (posted s1); cbn; intros; first [lia|auto].
Qed.

Lemma turns_settle now n : ∀ k s,
  0 ≤ k → stop s = false → system_ok (k + 2 * Z.of_nat n) s → clock_within (k + 2 * Z.of_nat n) now →
  ∃ s', acts native s (concat (replicate n (turn now))) = Some s' ∧ system_ok k s' ∧
    stop s' = false ∧ (to_do s' ≤ to_do s - n)%nat ∧
    (∀ r, native_window s = Some r → native_window s' = Some r).
Proof.
  induction n as [|n IH]; intros k s Hk Hst Hok Hnow.
  - exists s. rewrite Z.add_0_r in Hok. split; [done|]. split; [done|]. split; [done|]. split; [lia|done].
  - destruct (turn_settles (k + 2 * Z.of_nat n) now s) as (s1 & Hs1 & Hok1 & Hst1 & H1 & Hw1);
      [lia|done|by replace (k + 2 * Z.of_nat n + 2) with (k + 2 * Z.of_nat (S n)) by lia|
       apply (clock_within_weaken (k + 2 * Z.of_nat (S n))); [lia|done]|].
    destruct (IH k s1) as (s2 & Hs2 & Hok2 & Hst2 & H2 & Hw2);
      [done..|apply (clock_within_weaken (k + 2 * Z.of_nat (S n))); [lia|done]|].
    exists s2. split; [|split; [done|split; [done|split; [lia|auto]]]].
    cbn [replicate concat]. unfold acts in *. rewrite foldl_app, Hs1. exact Hs2.
Qed.

Lemma to_do_bound k s : system_ok k s → (to_do s ≤ 10)%nat.
Proof.
  intros Hok. pose proof (sys_phase _ _ Hok) as Hp. pose proof (sys_commands _ _ Hok) as Hc.
  destruct s as [st pend unr pl win post u sv]. cbn in Hp. unfold to_do.
  inversion Hp; subst; try destruct H as [->|[->| ->]]; cbn; try (destruct pend; lia).
  destruct pend as [c|]; [|lia]. destruct (com_bounds _ _ _ Hc (sequence c) (command_geometry c)); cbn in *; [by left|lia].
Qed.

(** At rest, all that the user has done is where it should be. *)
Lemma rest_agrees k s :
  system_ok k s → stop s = false → to_do s = 0%nat →
  ∃ f p, ui s = Some (f, p) ∧ f = fields (window s) ∧ unread s = [] ∧ pending_window_change s = None ∧
    (0 < last_submitted_window_change_sequence p →
     hwnd p = geometry f ∧
     last_acknowledged_window_change_sequence p = last_submitted_window_change_sequence p).
Proof.
  intros Hok Hst Hz. pose proof (sys_phase _ _ Hok) as Hp. pose proof (sys_commands _ _ Hok) as Hc.
  destruct s as [st pend unr pl win post u sv]. cbn in Hp. unfold to_do in Hz. cbn in Hz.
  destruct pend; [lia|]. inversion Hp; subst; cbn in Hz; try lia.
  exists (fields win), pr. do 4 (split; [done|]). intros Hpos.
  destruct Hc as [_ _ Hl Hh]. cbn in Hl. destruct (Hl Hpos) as [r Hr]. pose proof Hr as Hin.
  destruct (Hh r Hr) as (? & ? & [= <- <-] & Hwnd).
  unfold carried, before_model in Hin. cbn in Hin.
  assert (Hlist : (last_submitted_window_change_sequence pr, r) ∈ seen (Some (fields win, pr))).
  { revert Hin. destruct H as [->|[->| ->]]; cbn; by rewrite !app_nil_r. }
  cbn in Hlist. destruct (Z.eqb_spec (last_acknowledged_window_change_sequence pr) 0); [set_solver|].
  apply list_elem_of_singleton in Hlist as [= <- ->]. done.
Qed.

(** ** What the demo promises *)

(** The window that is loaded has commits left. *)
Lemma start_ok k (loaded : WindowNode) :
  k < 18446744073709551616 → Budget k loaded → journal_compaction_blocked_ loaded = false →
  (∃ b, base loaded = Some b ∧ base_id b ≠ obj_id loaded) → system_ok k (start_session loaded).
Proof.
  intros Hk Hb Hbl Hba. split; cbn; try done; [constructor| |intros _|by intros [|]].
  - split; cbn; [constructor|set_solver|lia|set_solver].
  - split; [|done..]. destruct Hb as [[H1 H2 H3] H4 H5 H6 H7]. by repeat split.
Qed.

Section promises.
Context (loaded : WindowNode).
Context (unblocked : journal_compaction_blocked_ loaded = false).
Context (own_base : ∃ b, base loaded = Some b ∧ base_id b ≠ obj_id loaded).

(** Whatever the user, the messages and the model's thread do and in whatever order, the
    process does not fail and the program never moves the native window: a publication that is
    older than what the user has done since is not followed, and one that is current finds the
    window where it says. *)
Theorem publications_never_move_window l
    (Hk : zlen l < 18446744073709551616) (Hb : Budget (zlen l) loaded)
    (Hl : clocks_within (zlen l) l) :
  ∃ s, acts native (start_session loaded) l = Some s ∧
    ∀ f p, ui s = Some (f, p) → set_window_pos p = 0%nat.
Proof.
  destruct (window_acts_ok 0 l (start_session loaded)) as (s & Hs & Hok); [done| |done|].
  { by apply start_ok. }
  exists s. split; [done|]. apply (sys_unmoved _ _ Hok).
Qed.

(** C16. No move of the user is lost: at any time before the stop, ten more turns of the two
    threads leave the native window where the user has left it, and the window of the model and
    its mirror agree with it, with every submitted rectangle acknowledged; if the user has
    moved the window at all. *)
Theorem moves_reach_the_model l s now
    (Hs : acts native (start_session loaded) l = Some s) (Hstop : stop s = false)
    (Hk : zlen l + 20 < 18446744073709551616) (Hb : Budget (zlen l + 20) loaded)
    (Hl : clocks_within (zlen l + 20) l) (Hnow : clock_within 20 now) :
  ∃ s' f p, acts native s (concat (replicate 10 (turn now))) = Some s' ∧ ui s' = Some (f, p) ∧
    (∀ r, native_window s = Some r → hwnd p = r) ∧
    f = fields (window s') ∧ unread s' = [] ∧ pending_window_change s' = None ∧
    (0 < last_submitted_window_change_sequence p →
     hwnd p = geometry f ∧
     last_acknowledged_window_change_sequence p = last_submitted_window_change_sequence p).
Proof.
  destruct (window_acts_ok 20 l (start_session loaded)) as (s0 & Hs0 & Hok); [done| | |].
  { apply start_ok; [lia|by rewrite Z.add_comm|done|done]. }
  { by rewrite Z.add_comm. }
  rewrite Hs in Hs0. injection Hs0 as <-.
  destruct (turns_settle now 10 0 s) as (s' & Hs' & Hok' & Hst' & Hz & Hw); [done..|].
  pose proof (to_do_bound _ _ Hok). pose proof (rest_agrees 0 s' Hok' Hst' ltac:(lia)) as (f & p & Hu & H').
  exists s', f, p. split; [done|]. split; [done|]. split; [|done].
  intros r Hr. apply Hw in Hr. unfold native_window in Hr. rewrite Hu in Hr. by injection Hr.
Qed.

(** What is saved has no history, and is the window that the user interface shows once it has
    read what was published. *)
Theorem saved_window_is_shown l s
    (Hs : acts native (start_session loaded) l = Some s) (Hend : place s = Exited)
    (Hk : zlen l < 18446744073709551616) (Hb : Budget (zlen l) loaded)
    (Hl : clocks_within (zlen l) l) :
  ∃ n, saved s = Some n ∧ journal n = [] ∧
    (unread s = [] → ∃ f p, ui s = Some (f, p) ∧ fields n = f).
Proof.
  destruct (window_acts_ok 0 l (start_session loaded)) as (s0 & Hs0 & Hok); [done|by apply start_ok|done|].
  rewrite Hs in Hs0. injection Hs0 as <-. destruct (sys_saved _ _ Hok Hend) as [Hv Hj].
  exists (window s). split; [done|]. split; [done|]. intros Hu.
  pose proof (sys_phase _ _ Hok) as Hp. rewrite Hend, Hu in Hp. inversion Hp; subst. by exists (fields (window s)), pr.
Qed.
End promises.
End steps.

(** ** A window that the user moves *)
Module Examples.
Definition loaded : WindowNode :=
  NodeBudget.fresh 7 (mkMainWindow (mkRect 100 100 640 480) (Some 9)).
#[local] Abbreviation T := (DoThread (λ _, 50)).
#[local] Abbreviation run := (acts id (start_session loaded)).
Definition home : list Action := [T; T; DoMessage].
Definition here : Rect := mkRect 10 20 640 480.
Definition there : Rect := mkRect 30 40 800 480.

Lemma loaded_budget k : k < kSizeMax → Budget k loaded.
Proof. apply fresh_budget. Qed.
Lemma loaded_base : ∃ b, base loaded = Some b ∧ base_id b ≠ obj_id loaded.
Proof. by eexists. Qed.
Definition at_fifty (x : Action) : Prop :=
  match x with DoThread now => ∀ i, now i = 50 | _ => True end.
Lemma clocks_fifty k l : k < 1000 → Forall at_fifty l → clocks_within k l.
Proof.
  intros Hk Hl now Hin i. rewrite list.Forall_forall in Hl. rewrite (Hl _ Hin i). unfold kMaxUint64. lia.
Qed.

(** The publication of the first move arrives after the second one. *)
Definition dragged : list Action :=
  home ++ [UserMoves here; T; T; UserMoves there; T; T; DoMessage].

Lemma publications_never_move_window_witness :
  ∃ s, run dragged = Some s ∧
    (∀ f p, ui s = Some (f, p) → set_window_pos p = 0%nat) ∧
    (λ u, (geometry u.1, hwnd u.2)) <$> ui s = Some (here, there).
Proof.
  destruct (publications_never_move_window id loaded eq_refl loaded_base dragged) as (s & Hs & Hm).
  - done.
  - by apply loaded_budget.
  - apply clocks_fifty; [done|]. by repeat constructor.
  - exists s. split; [done|]. split; [done|].
    assert (Hr : (s0 ← run dragged; (λ u, (geometry u.1, hwnd u.2)) <$> ui s0) = Some (here, there))
      by (by vm_compute).
    rewrite Hs in Hr. exact Hr.
Defined.

Definition turns10 : list Action := concat (replicate 10 (turn (λ _, 50))).

Lemma dragged_runs : ∃ s, run dragged = Some s ∧ false = stop s.
Proof. apply (fmap_Some_1 stop (run dragged) false). vm_compute. reflexivity. Qed.

Lemma run_app {A} (view : ModelSession → A) (l1 l2 : list Action) s s' v :
  run l1 = Some s → acts id s l2 = Some s' → view <$> run (l1 ++ l2) = Some v → view s' = v.
Proof.
  unfold acts. rewrite foldl_app. intros -> -> [= ->]. done.
Qed.

Lemma dragged_settles s s' :
  run dragged = Some s → acts id s turns10 = Some s' →
  (λ u, (geometry u.1, last_submitted_window_change_sequence u.2)) <$> ui s' = Some (there, 2).
Proof.
  intros Hs Hs'. apply (run_app (λ s, (λ u, (geometry u.1, last_submitted_window_change_sequence u.2)) <$> ui s)
    _ _ s s' _ Hs Hs'). vm_compute. reflexivity.
Qed.

Lemma moves_reach_the_model_witness :
  ∃ s s' f p, run dragged = Some s ∧ acts id s turns10 = Some s' ∧ ui s' = Some (f, p) ∧
    geometry f = there ∧ hwnd p = there ∧ geometry (fields (window s')) = there.
Proof.
  destruct dragged_runs as (s & Hs & Hstop).
  destruct (moves_reach_the_model id loaded eq_refl loaded_base dragged s (λ _, 50))
    as (s' & f & p & Hs' & Hu & _ & Hf & _ & _ & Hp); [exact Hs|by rewrite <-Hstop|done|by apply loaded_budget| | |].
  - apply clocks_fifty; [done|]. by repeat constructor.
  - intros i. unfold kMaxUint64. lia.
  - pose proof (dragged_settles s s' Hs Hs') as Hr. rewrite Hu in Hr. injection Hr as Hg Hn.
    destruct Hp as [Hw _]; [by rewrite Hn|].
    exists s, s', f, p. rewrite Hw, <-Hf. done.
Defined.

(** The stop is before the command that waits: the last move is not saved. *)
Definition closed : list Action :=
  home ++ [UserMoves here; T; T; T; T; DoMessage; UserMoves there; DoStop; T; T].

Lemma closed_runs : ∃ s, run closed = Some s ∧ place s = Exited ∧ unread s = [] ∧
  (λ u, geometry u.1) <$> ui s = Some here.
Proof.
  destruct (fmap_Some_1 (λ s, (place s, unread s, (λ u, geometry u.1) <$> ui s)) (run closed)
              (Exited, [], Some here)) as (s & Hs & Hr); [vm_compute; reflexivity|].
  exists s. split; [exact Hs|]. by injection Hr as -> -> ->.
Qed.

Lemma saved_window_is_shown_witness :
  ∃ s n, run closed = Some s ∧ saved s = Some n ∧ journal n = [] ∧ geometry (fields n) = here.
Proof.
  destruct closed_runs as (s & Hs & Hend & Hu & Hg).
  destruct (saved_window_is_shown id loaded eq_refl loaded_base closed s Hs Hend)
    as (n & Hn & Hj & Hf); [done|by apply loaded_budget|apply clocks_fifty; [done|by repeat constructor]|].
  destruct (Hf Hu) as (f & p & Hui & Hfn). exists s, n.
  split; [done|]. split; [done|]. split; [done|]. rewrite Hui in Hg. injection Hg as Hg. by rewrite Hfn.
Defined.
End Examples.
