(* ===== verification/ChatTransport.v ===== *)
(** * The transport of the chat demo

    Models examples/chat_demo/aether/aether_stream_frame.h and .cpp, the frames the demo
    exchanges over a stream of the network, and aether_byte_transport.h and .cpp, which
    hands received packets to the model's thread. *)
From S2P Require Import Prelude NativeBytes.

(** ** Frames *)

Inductive AetherFrameKind := kApplication | kHeartbeatPing | kHeartbeatPong | kControl.

#[export] Instance AetherFrameKind_eq_dec : EqDecision AetherFrameKind.
Proof. solve_decision. Defined.

Definition kind_value (k : AetherFrameKind) : Z :=
  match k with kApplication => 1 | kHeartbeatPing => 2 | kHeartbeatPong => 3 | kControl => 4 end.

Definition kAetherStreamHeaderSize : Z := 10.
Definition kMaxApplicationPayloadSize : Z := 16 * 1024 * 1024.
Definition kHeartbeatPayloadSize : Z := 8.
Definition kMaxControlPayloadSize : Z := 1024.

(** The byte of [z] at a shift. *)
Definition byte_at (z shift : Z) : Z := Z.land (Z.shiftr z shift) 255.

Definition EncodeAetherFrame (kind : AetherFrameKind) (payload : bytes) : bytes :=
  let size := u32 (zlen payload) in
  [65; 84; 82; 78; 1; kind_value kind;
   byte_at size 0; byte_at size 8; byte_at size 16; byte_at size 24] ++ payload.

Definition kind_of (raw_kind : Z) : option AetherFrameKind :=
  if raw_kind =? kind_value kApplication then Some kApplication
  else if raw_kind =? kind_value kHeartbeatPing then Some kHeartbeatPing
  else if raw_kind =? kind_value kHeartbeatPong then Some kHeartbeatPong
  else if raw_kind =? kind_value kControl then Some kControl
  else None.

(** The sizes a kind can have. *)
Definition payload_size_ok (kind : AetherFrameKind) (payload_size : Z) : bool :=
  match kind with
  | kApplication => negb (kMaxApplicationPayloadSize <? payload_size)
  | kControl => negb ((payload_size =? 0) || (kMaxControlPayloadSize <? payload_size))
  | kHeartbeatPing | kHeartbeatPong => payload_size =? kHeartbeatPayloadSize
  end.

Definition DecodeAetherFrame (b : bytes) : option (AetherFrameKind * bytes) :=
  let at_ i := nth i b 0 in
  if zlen b <? kAetherStreamHeaderSize then None
  else if negb ((at_ 0%nat =? 65) && (at_ 1%nat =? 84) && (at_ 2%nat =? 82) && (at_ 3%nat =? 78))
  then None
  else if negb (at_ 4%nat =? 1) then None
  else
    kind ← kind_of (at_ 5%nat);
    let payload_size :=
      Z.lor (Z.lor (Z.lor (at_ 6%nat) (Z.shiftl (at_ 7%nat) 8)) (Z.shiftl (at_ 8%nat) 16))
        (Z.shiftl (at_ 9%nat) 24) in
    if negb (zlen b =? kAetherStreamHeaderSize + payload_size) then None
    else if payload_size_ok kind payload_size then Some (kind, drop 10 b) else None.

Definition EncodeHeartbeatNonce (nonce : Z) : bytes :=
  (λ i, byte_at nonce (8 * Z.of_nat i)) <$> seq 0 8.

Definition DecodeHeartbeatNonce (payload : bytes) : Z :=
  if zlen payload <? kHeartbeatPayloadSize then 0
  else foldl (λ nonce i, Z.lor nonce (Z.shiftl (nth i payload 0) (8 * Z.of_nat i))) 0 (seq 0 8).

(** ** AetherByteTransport *)
Module AetherByteTransport.
Section transport.
(** [R]: a receiver, the context and the function that are bound. *)
Context {R : Type}.

(** [ReceiveBinding]: [None] when the transport has been destroyed, and the weak pointers to
    it are dead; else the bound receiver.  [tasks]: what was dispatched to the model's thread
    and has not run; [arrived], [received]: what happened. *)
Record State := mkState {
  receive_binding_ : option (option R);
  tasks : list (string * bytes);
  arrived : list (string * bytes);
  received : list (R * (string * bytes))
}.

Definition new_transport : State := mkState (Some None) [] [] [].

(** The frame callback of the endpoint, which can still come after the destructor has
    reset it.  [accepted]: the dispatch takes the task. *)
Definition on_frame (accepted : bool) (frame : string * bytes) (s : State) : State :=
  let arrived := arrived s ++ [frame] in
  match receive_binding_ s with
  | None => mkState None (tasks s) arrived (received s)
  | Some r => mkState (Some r) (if accepted then tasks s ++ [frame] else tasks s) arrived
                (received s)
  end.

(** The model's thread runs the oldest task. *)
Definition run_task (s : State) : State :=
  match tasks s with
  | [] => s
  | frame :: rest =>
      mkState (receive_binding_ s) rest (arrived s)
        (match receive_binding_ s with
         | Some (Some r) => received s ++ [(r, frame)]
         | _ => received s
         end)
  end.

Definition BindReceive (r : R) (s : State) : State :=
  match receive_binding_ s with
  | None => s
  | Some _ => mkState (Some (Some r)) (tasks s) (arrived s) (received s)
  end.

Definition ClearReceive (s : State) : State :=
  match receive_binding_ s with
  | None => s
  | Some _ => mkState (Some None) (tasks s) (arrived s) (received s)
  end.

(** The destructor. *)
Definition Destroy (s : State) : State := mkState None (tasks s) (arrived s) (received s).

Inductive Action :=
| Frame (accepted : bool) (frame : string * bytes)
| RunTask
| Bind (r : R)
| Clear
| Destruct.

Definition act (s : State) (a : Action) : State :=
  match a with
  | Frame accepted frame => on_frame accepted frame s
  | RunTask => run_task s
  | Bind r => BindReceive r s
  | Clear => ClearReceive s
  | Destruct => Destroy s
  end.
Definition acts (s : State) (l : list Action) : State := foldl act s l.
End transport.
Arguments State : clear implicits.
Arguments Action : clear implicits.
End AetherByteTransport.

(** ** Theorems on frames *)

Lemma size_bytes z :
  [byte_at z 0; byte_at z 8; byte_at z 16; byte_at z 24] = u32_bytes z.
Proof.
  unfold u32_bytes, byte_at, native_bytes. rewrite !Z.shiftr_shiftr by lia. done.
Qed.

Lemma size_value a b c d :
  Z.lor (Z.lor (Z.lor a (Z.shiftl b 8)) (Z.shiftl c 16)) (Z.shiftl d 24) =
    native_value [a; b; c; d].
Proof.
  cbn [native_value]. rewrite Z.shiftl_0_l, Z.lor_0_r.
  rewrite !Z.shiftl_lor, !Z.shiftl_shiftl by lia. by rewrite !Z.lor_assoc.
Qed.

Lemma kind_of_value k raw : kind_of raw = Some k ↔ raw = kind_value k.
Proof.
  unfold kind_of. split.
  - destruct (Z.eqb_spec raw (kind_value kApplication)) as [->|]; [by intros [= <-]|].
    destruct (Z.eqb_spec raw (kind_value kHeartbeatPing)) as [->|]; [by intros [= <-]|].
    destruct (Z.eqb_spec raw (kind_value kHeartbeatPong)) as [->|]; [by intros [= <-]|].
    destruct (Z.eqb_spec raw (kind_value kControl)) as [->|]; [by intros [= <-]|done].
  - intros ->. by destruct k.
Qed.

Lemma payload_size_ok_u32 k n : payload_size_ok k n = true → n < 4294967296.
Proof.
  destruct k; cbn; unfold kMaxApplicationPayloadSize, kMaxControlPayloadSize,
    kHeartbeatPayloadSize; intros H; breflect; lia.
Qed.

Lemma EncodeAetherFrame_bytes kind payload :
  EncodeAetherFrame kind payload =
    [65; 84; 82; 78; 1; kind_value kind] ++ u32_bytes (u32 (zlen payload)) ++ payload.
Proof. unfold EncodeAetherFrame. by rewrite <-size_bytes. Qed.

(** At least ten bytes are a header and the rest. *)
Lemma header_of (b : bytes) :
  10 ≤ zlen b → ∃ x0 x1 x2 x3 x4 x5 x6 x7 x8 x9 rest,
    b = [x0; x1; x2; x3; x4; x5] ++ [x6; x7; x8; x9] ++ rest.
Proof.
  intros H. do 10 (destruct b as [|? b]; [by unfold zlen in H; cbn in H; lia|]).
  by eexists _, _, _, _, _, _, _, _, _, _, b.
Qed.

Lemma Decode_header kind raw (size payload : bytes) :
  length size = 4%nat → is_bytes size →
  DecodeAetherFrame ([65; 84; 82; 78; 1; raw] ++ size ++ payload) = Some kind ↔
  kind.2 = payload ∧ kind_of raw = Some kind.1 ∧ size = u32_bytes (zlen payload) ∧
  payload_size_ok kind.1 (zlen payload) = true.
Proof.
  intros Hlen Hs. destruct size as [|a [|b [|c [|d [|]]]]]; try done.
  unfold DecodeAetherFrame. cbn [app nth skipn]. rewrite drop_0, size_value.
  destruct (Z.ltb_spec (zlen (65 :: 84 :: 82 :: 78 :: 1 :: raw :: a :: b :: c :: d :: payload))
    kAetherStreamHeaderSize) as [H|_].
  { unfold kAetherStreamHeaderSize in H. rewrite !zlen_cons in H. pose proof (zlen_nonneg payload). lia. }
  cbn [Z.eqb Pos.eqb andb negb]. destruct kind as [kind p]. cbn [fst snd].
  pose proof (native_value_range _ Hs) as Hr. change (2 ^ (8 * zlen [a; b; c; d])) with (2 ^ 32) in Hr.
  assert (zlen (65 :: 84 :: 82 :: 78 :: 1 :: raw :: a :: b :: c :: d :: payload) =
    kAetherStreamHeaderSize + zlen payload) as ->.
  { unfold kAetherStreamHeaderSize. rewrite !zlen_cons. lia. }
  destruct (kind_of raw) as [k|] eqn:Ek; cbn [mbind option_bind]; [|naive_solver].
  destruct (Z.eqb_spec (kAetherStreamHeaderSize + zlen payload)
    (kAetherStreamHeaderSize + native_value [a; b; c; d])) as [E|E]; cbn [negb].
  - assert (native_value [a; b; c; d] = zlen payload) as Ev by lia. rewrite Ev.
    assert ([a; b; c; d] = u32_bytes (zlen payload)) as Es.
    { rewrite <-Ev. symmetry. by apply (native_bytes_value [a; b; c; d]). }
    destruct (payload_size_ok k (zlen payload)) eqn:Eo; [|split; [done|intros (_ & [= ->] & _ & ?); congruence]].
    split; [intros [= -> ->]; done|]. intros (-> & [= ->] & _ & _). done.
  - split; [done|]. intros (-> & _ & Es & Ho). exfalso. apply E. f_equal. rewrite Es.
    pose proof (zlen_nonneg payload). apply payload_size_ok_u32 in Ho.
    by rewrite u32_value_bytes.
Qed.

(** The frame decoder accepts exactly the encodings of frames whose payload has a size
    that the kind allows, and gives the frame back. *)
Theorem DecodeAetherFrame_iff b kind payload (Hb : is_bytes b) :
  DecodeAetherFrame b = Some (kind, payload) ↔
  b = EncodeAetherFrame kind payload ∧ payload_size_ok kind (zlen payload) = true.
Proof.
  rewrite EncodeAetherFrame_bytes. split.
  - intros H. destruct (decide (10 ≤ zlen b)) as [Hlen|Hlen].
    2:{ unfold DecodeAetherFrame in H. destruct (Z.ltb_spec (zlen b) kAetherStreamHeaderSize);
        [done|]. by unfold kAetherStreamHeaderSize in *. }
    destruct (header_of b Hlen) as (x0 & x1 & x2 & x3 & x4 & x5 & x6 & x7 & x8 & x9 & rest & ->).
    assert (x0 = 65 ∧ x1 = 84 ∧ x2 = 82 ∧ x3 = 78 ∧ x4 = 1) as (-> & -> & -> & -> & ->).
    { unfold DecodeAetherFrame in H. cbn [app nth] in H. destruct (_ <? _); [done|].
      destruct (negb (_ && _)) eqn:E1 in H; [done|]. destruct (negb (x4 =? 1)) eqn:E2 in H; [done|].
      breflect. lia. }
    apply list.Forall_app in Hb as [_ Hb]. apply list.Forall_app in Hb as [Hs _].
    apply Decode_header in H as (Hp & Hk & Hsz & Ho); [|done|done]. cbn [fst snd] in *.
    subst rest. apply kind_of_value in Hk as ->. rewrite Hsz, u32_small; [done|].
    pose proof (zlen_nonneg payload). apply payload_size_ok_u32 in Ho. done.
  - intros [-> Ho]. pose proof (zlen_nonneg payload). pose proof (payload_size_ok_u32 _ _ Ho).
    rewrite u32_small by done. apply Decode_header.
    + apply native_bytes_length.
    + apply native_bytes_range.
    + split; [done|]. split; [by apply kind_of_value|]. done.
Qed.

(** Nonces survive a heartbeat. *)
Lemma EncodeHeartbeatNonce_bytes nonce : EncodeHeartbeatNonce nonce = u64_bytes nonce.
Proof.
  unfold EncodeHeartbeatNonce, u64_bytes, byte_at, native_bytes. cbn [seq fmap list_fmap].
  rewrite !Z.shiftr_shiftr by lia. done.
Qed.

Lemma DecodeHeartbeatNonce_roundtrip nonce :
  is_u64 nonce → DecodeHeartbeatNonce (EncodeHeartbeatNonce nonce) = nonce.
Proof.
  intros Hn. rewrite EncodeHeartbeatNonce_bytes. rewrite <-(u64_value_bytes nonce Hn) at 2.
  pose proof (native_bytes_length 8 nonce) as Hl. fold (u64_bytes nonce) in Hl.
  destruct (u64_bytes nonce) as [|a [|b [|c [|d [|e [|f [|g [|h [|]]]]]]]]]; try done.
  unfold DecodeHeartbeatNonce. cbn [seq foldl nth zlen length native_value].
  change (zlen [a; b; c; d; e; f; g; h] <? kHeartbeatPayloadSize) with false. cbn iota.
  rewrite Z.shiftl_0_l, !Z.lor_0_r, Z.lor_0_l. cbn [Z.of_nat Z.mul Pos.of_succ_nat Pos.succ Pos.mul].
  rewrite Z.shiftl_0_r, !Z.shiftl_lor, !Z.shiftl_shiftl by lia. by rewrite !Z.lor_assoc.
Qed.

(** ** Theorems on the transport *)

Section delivery.
Import AetherByteTransport.
Context {R : Type}.
Implicit Types (s : State R) (l : list (Action R)).

Lemma act_keeps_order s a :
  (received s).*2 ++ tasks s `sublist_of` arrived s →
  (received (act s a)).*2 ++ tasks (act s a) `sublist_of` arrived (act s a).
Proof.
  intros H. destruct a as [accepted frame| |r| |]; cbn [act].
  - unfold on_frame. destruct (receive_binding_ s) as [r|]; cbn [received tasks arrived].
    + destruct accepted.
      * rewrite app_assoc. by apply sublist_app.
      * by apply sublist_inserts_r.
    + by apply sublist_inserts_r.
  - unfold run_task. destruct (tasks s) as [|frame rest] eqn:Et; [by rewrite Et|].
    cbn [received tasks arrived].
    destruct (receive_binding_ s) as [[r|]|].
    + by rewrite fmap_app, <-app_assoc.
    + etrans; [|exact H]. apply sublist_app; [done|by apply sublist_cons].
    + etrans; [|exact H]. apply sublist_app; [done|by apply sublist_cons].
  - unfold BindReceive. by destruct (receive_binding_ s).
  - unfold ClearReceive. by destruct (receive_binding_ s).
  - done.
Qed.

(** Whatever the interleaving of packets from the network, tasks of the model's thread and
    changes of the receiver, packets reach the receiver in the order they arrived, none
    twice; and once the transport is destroyed nothing is received any more, neither
    from packets that still arrive nor from tasks that are waiting. *)
Theorem transport_delivers_in_order l :
  let s := acts new_transport l in
  (received s).*2 ++ tasks s `sublist_of` arrived s ∧
  (receive_binding_ s = None → ∀ l', received (acts s l') = received s).
Proof.
  cbv zeta. split.
  - assert (∀ s, (received s).*2 ++ tasks s `sublist_of` arrived s →
      (received (acts s l)).*2 ++ tasks (acts s l) `sublist_of` arrived (acts s l)) as H.
    { induction l as [|a l IH]; intros s Hs; [done|]. cbn [acts foldl]. fold (acts (act s a) l).
      by apply IH, act_keeps_order. }
    by apply H.
  - generalize (acts new_transport l) as s. intros s Hn l'. revert s Hn.
    induction l' as [|a l' IH]; intros s Hn; [done|]. cbn [acts foldl]. fold (acts (act s a) l').
    assert (receive_binding_ (act s a) = None ∧ received (act s a) = received s) as [H1 H2].
    { destruct a; cbn [act]; unfold on_frame, run_task, BindReceive, ClearReceive; rewrite ?Hn;
        try done; by destruct (tasks s). }
    by rewrite IH.
Qed.
End delivery.

(** ** Examples *)
Module Examples.

Definition control_frame : bytes := [65; 84; 82; 78; 1; 4; 2; 0; 0; 0; 7; 255].

Lemma DecodeAetherFrame_iff_witness :
  is_bytes control_frame ∧ control_frame = EncodeAetherFrame kControl [7; 255] ∧
  DecodeAetherFrame control_frame = Some (kControl, [7; 255]).
Proof.
  assert (is_bytes control_frame) as Hb.
  { apply (bool_decide_unpack (is_bytes control_frame)). vm_compute. exact I. }
  split; [exact Hb|]. split; [vm_compute; exact eq_refl|].
  apply (DecodeAetherFrame_iff control_frame kControl [7; 255] Hb). split; vm_compute; exact eq_refl.
Defined.

(** A control frame without payload is refused. *)
Example empty_control : DecodeAetherFrame (EncodeAetherFrame kControl []) = None.
Proof. vm_compute. reflexivity. Qed.
End Examples.
