(* ===== verification/ChatModel.v ===== *)
(** * The model of the chat demo

    Models examples/chat_demo/common/chat_model.h and .cpp (the rooms, the entries of the
    workspace and the workspace, with their events) and chat_commands.h and .cpp (the
    commands on them).  A pointer to an object of the model is its identifier, and the
    model has the entries and rooms by identifier; a room is a shared node. *)
From Stdlib Require Import Floats.SpecFloat.
From S2P Require Import Prelude Aether SharedEvent Node LinkSync SharedNode.

(** ** Data *)

Inductive DemoRole := kUnconfigured | kHost | kClient.

#[export] Instance DemoRole_eq_dec : EqDecision DemoRole.
Proof. solve_decision. Defined.

Record MessageValue := mkMessage {
  message_id : SharedEventId;
  message_timestamp_us : Z;
  message_text : string
}.

#[export] Instance MessageValue_eq_dec : EqDecision MessageValue.
Proof. solve_decision. Defined.

Record ChatRoomFields := mkRoom { messages : list MessageValue }.

Inductive ChatRoomEvent := MessageAddedEvent (message : MessageValue).

(** [offset_from_message_top] is a double, which is compared as one. *)
Record ScrollAnchor := mkScroll {
  follow_tail : bool;
  first_visible_message : SharedEventId;
  offset_from_message_top : spec_float
}.

Definition ScrollAnchor_eqb (a b : ScrollAnchor) : bool :=
  Bool.eqb (follow_tail a) (follow_tail b) &&
  SharedEventId_eqb (first_visible_message a) (first_visible_message b) &&
  SFeqb (offset_from_message_top a) (offset_from_message_top b).

Definition default_scroll : ScrollAnchor := mkScroll true empty_identity (S754_zero false).

Record ChatEntryFields := mkEntry {
  peer_uid : string;
  display_name : string;
  peer_link : option Z;
  room : option Z;
  draft : string;
  scroll : ScrollAnchor
}.

Inductive ChatEntryEvent :=
| ChatBindingChangedEvent (peer_link room : option Z)
| DraftChangedEvent (text : string)
| ScrollChangedEvent (scroll : ScrollAnchor).

Record DesktopBounds := mkBounds {
  valid : bool; x : Z; y : Z; width : Z; height : Z; maximized : bool
}.

#[export] Instance DesktopBounds_eq_dec : EqDecision DesktopBounds.
Proof. solve_decision. Defined.

Record ChatWorkspaceFields := mkWorkspace {
  demo_role : DemoRole;
  host_uid_input : string;
  local_endpoint_uid : string;
  next_message_sequence : Z;
  chats : list (option Z);
  selected_chat_id : Z;
  desktop_bounds : DesktopBounds
}.

Inductive ChatWorkspaceEvent :=
| ChatEntryAddedEvent (entry : option Z)
| ChatSelectedEvent (entry_id : Z)
| LocalEndpointBoundEvent (endpoint_uid : string)
| MessageSequenceReservedEvent (reserved_sequence : Z)
| DesktopBoundsChangedEvent (bounds : DesktopBounds)
| DemoRoleConfiguredEvent (role : DemoRole)
| HostUidInputChangedEvent (text : string).

(** [EndpointUid link]: the virtual [EndpointUid] of the link object, which is set when the
    link is created. *)
Class ChatLinks := { EndpointUid : Z → string }.

(** ** CanApply and Apply *)

Definition CanApply_Room (f : ChatRoomFields) (e : ChatRoomEvent) : bool :=
  match e with
  | MessageAddedEvent m =>
      negb (String.eqb (origin_uid (message_id m)) "" || (origin_sequence (message_id m) =? 0) ||
            (message_timestamp_us m =? 0) || String.eqb (message_text m) "")
  end.

Definition Apply_Room (f : ChatRoomFields) (e : ChatRoomEvent) : ChatRoomFields :=
  match e with MessageAddedEvent m => mkRoom (messages f ++ [m]) end.

(** [MessageAddedEvent::MatchesSharedMetadata] *)
Definition Matches_Room (e : ChatRoomEvent) (i : SharedEventId) (o : SharedEventOrder) : bool :=
  match e with
  | MessageAddedEvent m =>
      SharedEventId_eqb (message_id m) i && (message_timestamp_us m =? timestamp_us o)
  end.

#[export] Instance Room_kind : NodeKind ChatRoomFields ChatRoomEvent := {|
  CanApplyTo := CanApply_Room;
  ApplyTo f e := Some (Apply_Room f e, true);
  MatchesSharedMetadata := Matches_Room;
  SaveLoad f := f;
  CarryLocal _ loaded := loaded
|}.

Abbreviation ChatRoom := (SharedNode ChatRoomFields ChatRoomEvent).

Definition CanApply_Entry `{ChatLinks} (f : ChatEntryFields) (e : ChatEntryEvent) : bool :=
  match e with
  | ChatBindingChangedEvent (Some link) (Some _) =>
      String.eqb (EndpointUid link) (peer_uid f)
  | ChatBindingChangedEvent _ _ => false
  | DraftChangedEvent _ | ScrollChangedEvent _ => true
  end.

Definition Apply_Entry (f : ChatEntryFields) (e : ChatEntryEvent) : ChatEntryFields :=
  match e with
  | ChatBindingChangedEvent link rm =>
      mkEntry (peer_uid f) (display_name f) link rm (draft f) (scroll f)
  | DraftChangedEvent text =>
      mkEntry (peer_uid f) (display_name f) (peer_link f) (room f) text (scroll f)
  | ScrollChangedEvent s =>
      mkEntry (peer_uid f) (display_name f) (peer_link f) (room f) (draft f) s
  end.

Section workspace.
  Context {ids : AetherIds}.

(** One of the valid pointers of the list is to the object. *)
Definition has_entry (l : list (option Z)) (id : Z) : bool :=
  existsb (λ e, bool_decide (e = Some id)) l.

Definition CanApply_Workspace (f : ChatWorkspaceFields) (e : ChatWorkspaceEvent) : bool :=
  match e with
  | ChatSelectedEvent id => ObjId_is_valid id && has_entry (chats f) id
  | DemoRoleConfiguredEvent role =>
      (bool_decide (role = kHost) || bool_decide (role = kClient)) &&
      bool_decide (demo_role f = kUnconfigured)
  | HostUidInputChangedEvent text =>
      bool_decide (demo_role f = kClient) && (Z.of_nat (String.length text) <=? 128)
  | MessageSequenceReservedEvent s =>
      (s =? next_message_sequence f) && negb (s =? 0) && negb (s =? kMaxUint64)
  | ChatEntryAddedEvent _ | LocalEndpointBoundEvent _ | DesktopBoundsChangedEvent _ => true
  end.

Definition Apply_Workspace (f : ChatWorkspaceFields) (e : ChatWorkspaceEvent)
    : ChatWorkspaceFields :=
  match f with
  | mkWorkspace role host local next cs sel bounds =>
      match e with
      | ChatEntryAddedEvent entry => mkWorkspace role host local next (cs ++ [entry]) sel bounds
      | ChatSelectedEvent id => mkWorkspace role host local next cs id bounds
      | DemoRoleConfiguredEvent r => mkWorkspace r host local next cs sel bounds
      | HostUidInputChangedEvent text => mkWorkspace role text local next cs sel bounds
      | LocalEndpointBoundEvent uid => mkWorkspace role host uid next cs sel bounds
      | MessageSequenceReservedEvent s =>
          mkWorkspace role host local (u64 (s + 1)) cs sel bounds
      | DesktopBoundsChangedEvent b => mkWorkspace role host local next cs sel b
      end
  end.

#[export] Instance Entry_kind `{ChatLinks} : NodeKind ChatEntryFields ChatEntryEvent := {|
  CanApplyTo := CanApply_Entry;
  ApplyTo f e := Some (Apply_Entry f e, true);
  MatchesSharedMetadata _ _ _ := true;
  SaveLoad f := f;
  CarryLocal _ loaded := loaded
|}.

#[export] Instance Workspace_kind : NodeKind ChatWorkspaceFields ChatWorkspaceEvent := {|
  CanApplyTo := CanApply_Workspace;
  ApplyTo f e := Some (Apply_Workspace f e, true);
  MatchesSharedMetadata _ _ _ := true;
  SaveLoad f := f;
  CarryLocal _ loaded := loaded
|}.
End workspace.

Abbreviation ChatEntry := (Node ChatEntryFields ChatEntryEvent).
Abbreviation ChatWorkspace := (Node ChatWorkspaceFields ChatWorkspaceEvent).

(** ** The objects that the commands work on

    [persisted]: the models that the persistence callback saw, oldest first.  [persists]:
    the caller has given a callback. *)
Record ChatModel := mkChat {
  workspace : ChatWorkspace;
  entries : gmap Z ChatEntry;
  rooms : gmap Z ChatRoom
}.
Record ChatState := mkState {
  model : ChatModel;
  persists : bool;
  persisted : list ChatModel
}.

Definition set_model (s : ChatState) (m : ChatModel) : ChatState :=
  mkState m (persists s) (persisted s).
Definition with_workspace (m : ChatModel) (w : ChatWorkspace) : ChatModel :=
  mkChat w (entries m) (rooms m).
Definition with_entry (m : ChatModel) (id : Z) (e : ChatEntry) : ChatModel :=
  mkChat (workspace m) (<[id := e]> (entries m)) (rooms m).
Definition with_room (m : ChatModel) (id : Z) (r : ChatRoom) : ChatModel :=
  mkChat (workspace m) (entries m) (<[id := r]> (rooms m)).

(** ** Commands

    [None] is a failed assertion.  [clock i]: the readings of the system clock in the
    [i]-th commit of the command. *)

(** [std::isspace] of the classic locale. *)
Definition isspace (c : Ascii.ascii) : bool :=
  let n := byte_of_ascii c in (n =? 32) || ((9 <=? n) && (n <=? 13)).

Fixpoint trim_left (l : list Ascii.ascii) : list Ascii.ascii :=
  match l with
  | [] => []
  | c :: rest => if isspace c then trim_left rest else l
  end.

Definition TrimAsciiWhitespace (sv : string) : string :=
  String.string_of_list_ascii
    (rev (trim_left (rev (trim_left (String.list_ascii_of_string sv))))).

Definition ConversationDisplayName (local_role : DemoRole) (uid : string) : string :=
  let suffix := if (8 <=? String.length uid)%nat then String.substring 0 8 uid else uid in
  match local_role with
  | kHost => if String.eqb suffix "" then "Client" else "Client " ++ suffix
  | _ => if String.eqb suffix "" then "Host" else "Host " ++ suffix
  end%string.

(** [ObjPtr]: a valid pointer to an object of a Domain. *)
Record ObjPtr := mkPtr { ptr_id : Z; ptr_domain : option Z }.

Section commands.
  Context {ids : AetherIds} {rep : Replica} {links : ChatLinks}.
  Implicit Types (s : ChatState) (m : ChatModel) (clock : nat → Readings).

Definition persist s : ChatState :=
  if persists s then mkState (model s) true (persisted s ++ [model s]) else s.

(** [workspace.Commit(event)], [entry.Commit(event)] *)
Definition commit_workspace s (e : ChatWorkspaceEvent) (now : Readings) : option ChatState :=
  let w := workspace (model s) in
  w ← Commit w (created w e) now;
  Some (set_model s (with_workspace (model s) w)).

Definition commit_entry s (id : Z) (e : ChatEntryEvent) (now : Readings) : option ChatState :=
  n ← entries (model s) !! id;
  n ← Commit n (created n e) now;
  Some (set_model s (with_entry (model s) id n)).

(** The end of the commands with one event. *)
Definition commit_workspace_and_persist s e now : option (bool * ChatState) :=
  s ← commit_workspace s e now; Some (true, persist s).
Definition commit_entry_and_persist s id e now : option (bool * ChatState) :=
  s ← commit_entry s id e now; Some (true, persist s).

Definition ConfigureDemoRole s (role : DemoRole) clock : option (bool * ChatState) :=
  let w := fields (workspace (model s)) in
  if bool_decide (role ≠ kHost ∧ role ≠ kClient) then Some (false, s)
  else if bool_decide (demo_role w = role) then Some (true, s)
  else if bool_decide (demo_role w ≠ kUnconfigured) then Some (false, s)
  else commit_workspace_and_persist s (DemoRoleConfiguredEvent role) (clock 0%nat).

Definition SetHostUidInput s (text : string) clock : option (bool * ChatState) :=
  let w := fields (workspace (model s)) in
  if bool_decide (demo_role w ≠ kClient) then Some (false, s)
  else if String.eqb (host_uid_input w) text then Some (true, s)
  else commit_workspace_and_persist s (HostUidInputChangedEvent text) (clock 0%nat).

(** The loop of [OpenOrSelectChat]: the entry of the peer.  Dereferencing a pointer to an
    object that is not there ends the process. *)
Fixpoint find_peer m (uid : string) (l : list (option Z)) : option (option Z) :=
  match l with
  | [] => Some None
  | None :: l => find_peer m uid l
  | Some id :: l =>
      e ← entries m !! id;
      if String.eqb (peer_uid (fields e)) uid then Some (Some id) else find_peer m uid l
  end.

(** [new_id], [base_id]: the identifiers that the new entry and its base get. *)
Definition OpenOrSelectChat s (uid : string) (new_id base_id : Z) clock
    : option (option Z * ChatState) :=
  let canonical_uid := TrimAsciiWhitespace uid in
  if String.eqb canonical_uid "" then Some (None, s)
  else
    let w := fields (workspace (model s)) in
    found ← find_peer (model s) canonical_uid (chats w);
    match found with
    | Some id =>
        if selected_chat_id w =? id then Some (Some id, s)
        else s ← commit_workspace s (ChatSelectedEvent id) (clock 0%nat);
             Some (Some id, persist s)
    | None =>
        entry ← InitializeRuntimeNode
          (new_node new_id (domain (workspace (model s)))
             (mkEntry canonical_uid (ConversationDisplayName (demo_role w) canonical_uid)
                None None "" default_scroll)) base_id;
        let s := set_model s (with_entry (model s) new_id entry) in
        s ← commit_workspace s (ChatEntryAddedEvent (Some new_id)) (clock 0%nat);
        s ← commit_workspace s (ChatSelectedEvent new_id) (clock 1%nat);
        Some (Some new_id, persist s)
    end.

Definition BindChat s (entry : Z) (link rm : option ObjPtr) clock : option (bool * ChatState) :=
  n ← entries (model s) !! entry;
  match link, rm with
  | Some link, Some rm =>
      let f := fields n in
      if bool_decide (ptr_domain link ≠ domain n ∨ ptr_domain rm ≠ domain n) then Some (false, s)
      else if negb (String.eqb (EndpointUid (ptr_id link)) (peer_uid f)) then Some (false, s)
      else if bool_decide (peer_link f = Some (ptr_id link) ∧ room f = Some (ptr_id rm))
      then Some (true, s)
      else if bool_decide (is_Some (peer_link f) ∧ peer_link f ≠ Some (ptr_id link))
      then Some (false, s)
      else if bool_decide (is_Some (room f) ∧ room f ≠ Some (ptr_id rm)) then Some (false, s)
      else commit_entry_and_persist s entry
             (ChatBindingChangedEvent (Some (ptr_id link)) (Some (ptr_id rm))) (clock 0%nat)
  | _, _ => Some (false, s)
  end.

Definition BindLocalEndpoint s (uid : string) clock : option (bool * ChatState) :=
  let w := fields (workspace (model s)) in
  if String.eqb uid "" then Some (false, s)
  else if String.eqb (local_endpoint_uid w) uid then Some (true, s)
  else if negb (String.eqb (local_endpoint_uid w) "") then Some (false, s)
  else commit_workspace_and_persist s (LocalEndpointBoundEvent uid) (clock 0%nat).

Definition SetDraft s (entry : Z) (text : string) clock : option (bool * ChatState) :=
  n ← entries (model s) !! entry;
  if String.eqb (draft (fields n)) text then Some (true, s)
  else commit_entry_and_persist s entry (DraftChangedEvent text) (clock 0%nat).

Definition SetScroll s (entry : Z) (anchor : ScrollAnchor) clock : option (bool * ChatState) :=
  n ← entries (model s) !! entry;
  if ScrollAnchor_eqb (scroll (fields n)) anchor then Some (true, s)
  else commit_entry_and_persist s entry (ScrollChangedEvent anchor) (clock 0%nat).

Definition SetDesktopBounds s (bounds : DesktopBounds) clock : option (bool * ChatState) :=
  if bool_decide (desktop_bounds (fields (workspace (model s))) = bounds) then Some (true, s)
  else commit_workspace_and_persist s (DesktopBoundsChangedEvent bounds) (clock 0%nat).

Definition SelectChat s (entry_id : Z) clock : option (bool * ChatState) :=
  let w := fields (workspace (model s)) in
  if negb (ObjId_is_valid entry_id) then Some (false, s)
  else if negb (has_entry (chats w) entry_id) then Some (false, s)
  else if selected_chat_id w =? entry_id then Some (true, s)
  else commit_workspace_and_persist s (ChatSelectedEvent entry_id) (clock 0%nat).

(** The search from the end for the last message of the local endpoint. *)
Definition last_own (uid : string) (l : list MessageValue) : option MessageValue :=
  find (λ v, String.eqb (origin_uid (message_id v)) uid) (rev l).

Definition effective_time (uid : string) (l : list MessageValue) (now_us : Z) : Z :=
  match last_own uid l with
  | Some v =>
      if now_us <=? message_timestamp_us v then u64 (message_timestamp_us v + 1) else now_us
  | None => now_us
  end.

(** [clock 0] to [clock 2]: the commits on the workspace, the room and the entry. *)
Definition SubmitDraft s (entry : Z) (now_us : Z) clock : option (SharedEventId * ChatState) :=
  let w := fields (workspace (model s)) in
  n ← entries (model s) !! entry;
  match room (fields n) with
  | None => Some (empty_identity, s)
  | Some room_id =>
      if String.eqb (local_endpoint_uid w) "" || String.eqb (draft (fields n)) "" ||
         (now_us =? 0) || (next_message_sequence w =? 0) ||
         (next_message_sequence w =? kMaxUint64)
      then Some (empty_identity, s)
      else
        r ← rooms (model s) !! room_id;
        let time_us :=
          effective_time (local_endpoint_uid w) (messages (node_app (fields r))) now_us in
        let identity := mkSharedEventId (local_endpoint_uid w) (next_message_sequence w) in
        s ← commit_workspace s (MessageSequenceReservedEvent (next_message_sequence w))
              (clock 0%nat);
        let s := persist s in
        let msg_val := mkMessage identity time_us (draft (fields n)) in
        r ← CommitShared r (created r (AppEvent (MessageAddedEvent msg_val))) identity
              (mkSharedEventOrder time_us) (clock 1%nat);
        let s := persist (set_model s (with_room (model s) room_id r)) in
        s ← commit_entry s entry (DraftChangedEvent "") (clock 2%nat);
        Some (identity, persist s)
  end.
End commands.
