(* ===== verification/ChatModelTheory.v ===== *)
(** * What the chat model guarantees

    The theory of ChatModel.v: messages are placed into the timeline of a room by their
    time, no command of the chat fails an assertion while its arguments are those that the
    application gives, the commands keep the invariant of the model ([chat_ok]), and the
    identities of messages are used once. *)
From Stdlib Require Import Sorting.Sorted.
From S2P Require Import Prelude Aether SharedEvent Node LinkSync NodeTheory SharedNode.
From S2P Require Import NodeBudget SharedNodeTheory ChatModel.

(** ** The timeline of a room *)

Definition record_message (r : EventRecord (SharedNodeEvent ChatRoomEvent))
    : option MessageValue :=
  match ev_object (event r) with
  | Some (AppEvent (MessageAddedEvent v)) => Some v
  | _ => None
  end.
Abbreviation journal_messages := (omap record_message).

Section room.
  Context {ids : AetherIds} {rep : Replica}.
  Implicit Types (f g : SharedFields ChatRoomFields) (v : MessageValue).
  Implicit Types (r : EventRecord (SharedNodeEvent ChatRoomEvent)) (n : ChatRoom).

Abbreviation timeline f := (messages (node_app f)).

Lemma step_messages f r g :
  step f r = Some g → timeline g = timeline f ++ journal_messages [r].
Proof.
  intros (e & b & He & Ha)%step_Shared. cbn [omap list_omap]. unfold record_message.
  rewrite He. destruct e as [id l a|id|id a|[v]]; cbn [Apply_Shared] in Ha;
    rewrite ?app_nil_r.
  - destruct (Apply_AddShare f id l a) as [h|] eqn:E; simplify_eq/=.
    by apply Apply_AddShare_inv in E as (? & _ & _ & _ & _ & -> & _).
  - destruct (Apply_RemoveShare f id) as [h|] eqn:E; simplify_eq/=.
    by apply Apply_RemoveShare_inv in E as (? & ? & _ & _ & _ & -> & _).
  - unfold Apply_ChangeShareAccess in Ha. by destruct (shares f !! _); simplify_eq/=.
  - by simplify_eq/=.
Qed.

Lemma replay_messages f j g :
  replay f j = Some g → timeline g = timeline f ++ journal_messages j.
Proof.
  revert f. induction j as [|r j IH]; intros f H; cbn [replay] in H.
  { simplify_eq. by rewrite app_nil_r. }
  destruct (step f r) as [h|] eqn:Hs; [|done].
  rewrite (IH h) by done. rewrite (step_messages f r h) by done.
  rewrite <-app_assoc. f_equal. cbn [omap list_omap]. by destruct (record_message r).
Qed.

(** A record of an acceptable message. *)
Definition message_record r v : Prop :=
  ev_is_valid (event r) = true ∧ ev_object (event r) = Some (AppEvent (MessageAddedEvent v)) ∧
  ∀ a, CanApply_Room a (MessageAddedEvent v) = true.

Lemma step_message f r v :
  message_record r v →
  step f r = Some (mkShared (shares f) (link_sync_states f)
    (mkRoom (timeline f ++ [v])) (ids_drawn f)).
Proof. intros (Hv & He & Hc). unfold step. rewrite Hv, He. cbn [mbind option_bind].
  change (CanApplyTo f _) with (CanApply_Room (node_app f) (MessageAddedEvent v)).
  by rewrite Hc. Qed.
End room.

(** What the topology of a room becomes does not depend on its messages: the relation that
    forgets them satisfies the laws, too. *)
Section forget.
  Context {ids : AetherIds} {rep : Replica}.

#[local] Instance any_room : Equiv ChatRoomFields := λ _ _, True.
#[local] Instance any_room_laws : NodeLaws ChatRoomFields ChatRoomEvent.
Proof.
  split; [split; by intros ?|done| |by intros ?|by intros ??].
  intros f g e _. by constructor.
Qed.

Lemma replay_insert_message (f : SharedFields ChatRoomFields) j1 r j2 v :
  message_record r v → is_Some (replay f (j1 ++ j2)) → is_Some (replay f (j1 ++ r :: j2)).
Proof.
  intros Hr. rewrite !replay_app. destruct (replay f j1) as [h|]; [|by intros [? ?]].
  cbn [mbind option_bind replay]. intros [g Hg]. rewrite (step_message h r v) by done.
  cbn [mbind option_bind].
  edestruct (replay_equiv_Some j2 h) as (g' & Hg' & _); [|exact Hg|by exists g'].
  by split.
Qed.
End forget.

#[export] Instance Room_equiv : Equiv ChatRoomFields := (=).
#[export] Instance Room_laws : NodeLaws ChatRoomFields ChatRoomEvent.
Proof.
  split; [apply eq_equivalence|done| |done|done]. intros f g e ->. by constructor.
Qed.

Section timeline.
  Context {ids : AetherIds} {rep : Replica}.
  Implicit Types (v : MessageValue) (l : list MessageValue).
  Implicit Types (r : EventRecord (SharedNodeEvent ChatRoomEvent)) (n : ChatRoom).

Definition room_messages n : list MessageValue := messages (node_app (fields n)).

Lemma consistent_messages n b :
  Consistent n → base n = Some b →
  room_messages n = messages (node_app (base_stored b)) ++ journal_messages (journal n).
Proof.
  intros [_ (f & Hf & _ & Heq) _] Hb. unfold base_replay in Hf. rewrite Hb in Hf.
  apply replay_messages in Hf. unfold room_messages. by rewrite <-Hf, Heq.
Qed.

(** The messages of the local endpoint. *)
Definition own (me : string) v : Prop := origin_uid (message_id v) = me.
#[export] Instance own_dec me v : Decision (own me v).
Proof. unfold own. apply _. Defined.

Definition times_sorted l : Prop :=
  StronglySorted (λ a b, message_timestamp_us a ≤ message_timestamp_us b) l.

(** The metadata of the records of messages is that of the messages. *)
Definition metadata_ok r : Prop :=
  ∀ v, record_message r = Some v → identity r = message_id v ∧ ts r = message_timestamp_us v.

Lemma elem_of_journal_messages v j :
  Forall metadata_ok j → v ∈ journal_messages j →
  ∃ r, r ∈ j ∧ identity r = message_id v ∧ ts r = message_timestamp_us v.
Proof.
  intros Hj (r & Hr & Hv)%list_elem_of_omap. exists r. split; [done|].
  rewrite list.Forall_forall in Hj. by apply Hj.
Qed.

Lemma journal_times_sorted j :
  Forall metadata_ok j → journal_sorted j → times_sorted (journal_messages j).
Proof.
  intros Hm. induction Hm as [|r j Hr Hm IH]; intros Hs; cbn [omap list_omap]; [constructor|].
  apply journal_sorted_cons in Hs as [Hle Hs]. destruct (record_message r) as [v|] eqn:Ev;
    [|by apply IH]. constructor; [by apply IH|]. apply list.Forall_forall. intros w Hw.
  destruct (elem_of_journal_messages w j Hm Hw) as (q & Hq & _ & <-).
  destruct (Hr v Ev) as [_ <-]. by apply Hle.
Qed.

Lemma last_own_snoc me l v :
  last_own me (l ++ [v]) = if decide (own me v) then Some v else last_own me l.
Proof.
  unfold last_own. rewrite rev_app_distr. cbn [rev app find].
  destruct (String.eqb_spec (origin_uid (message_id v)) me); by case_decide.
Qed.

(** The last own message is the latest one of a sorted end of the timeline. *)
Lemma last_own_latest me pre l v :
  times_sorted l → v ∈ l → own me v →
  ∃ w, last_own me (pre ++ l) = Some w ∧ message_timestamp_us v ≤ message_timestamp_us w.
Proof.
  induction l as [|a l IH] using rev_ind; intros Hs Hv Ho; [by apply elem_of_nil in Hv|].
  rewrite app_assoc, last_own_snoc.
  assert (times_sorted l ∧ ∀ u, u ∈ l → message_timestamp_us u ≤ message_timestamp_us a)
    as [Hl Ha].
  { clear -Hs. induction l as [|u l IH]; [split; [constructor|set_solver]|].
    apply StronglySorted_inv in Hs as [Hs Hu]. apply IH in Hs as [H1 H2].
    apply list.Forall_app in Hu as [Hu1 Hu2]. rewrite list.Forall_singleton in Hu2.
    split; [by constructor|]. set_solver. }
  case_decide as Hoa.
  - exists a. split; [done|].
    apply elem_of_app in Hv as [Hv|Hv%list_elem_of_singleton]; [by apply Ha|by subst].
  - apply elem_of_app in Hv as [Hv|Hv%list_elem_of_singleton]; [by apply IH|by subst].
Qed.

Lemma last_own_elem me l v : last_own me l = Some v → v ∈ l ∧ own me v.
Proof.
  unfold last_own. intros H. apply find_some in H as [Hin Ho].
  split; [by apply list_elem_of_In, in_rev|by apply String.eqb_eq].
Qed.
End timeline.

(** ** Messages inserted into a room *)
Section rooms.
  Context {ids : AetherIds} {rep : Replica}.
  Implicit Types (v : MessageValue) (n m : ChatRoom) (k : Z) (me : string).
  Implicit Types (r : EventRecord (SharedNodeEvent ChatRoomEvent)).

Abbreviation mts := message_timestamp_us.

Record room_ok me k n : Prop := {
  room_consistent : Consistent n;
  room_sorted : journal_sorted (journal n);
  room_size : zlen (journal n) + k < kSizeMax;
  room_domain : is_Some (domain n);
  room_metadata : Forall metadata_ok (journal n);
  room_own : Forall (λ v, own me v → 0 < mts v ∧ mts v + k < kMaxUint64) (room_messages n)
}.

Lemma room_ok_weaken me k k' n : k' ≤ k → room_ok me k n → room_ok me k' n.
Proof.
  intros Hk [Hc Hs Hz Hd Hm Ho]. split; [done|done|lia|done|done|].
  eapply list.Forall_impl; [exact Ho|]. cbn. intros v H Hv. specialize (H Hv). lia.
Qed.

Definition acceptable v : Prop := ∀ a, CanApply_Room a (MessageAddedEvent v) = true.

(** The event of a message and its record. *)
Definition message_event v : SharedNodeEvent ChatRoomEvent := AppEvent (MessageAddedEvent v).
Definition record_of n v (now : Z) : EventRecord (SharedNodeEvent ChatRoomEvent) :=
  mkEventRecord (created n (message_event v)) (message_id v) (mkSharedEventOrder (mts v)) now.

Lemma acceptable_id v : acceptable v → origin_uid (message_id v) ≠ ""%string ∧ mts v ≠ 0.
Proof. intros H. specialize (H (mkRoom [])). cbn in H. breflect. split; [|done]. by apply String.eqb_neq. Qed.

Lemma TryInsertShared_message n v (now : Readings) :
  acceptable v →
  TryInsertShared n (created n (message_event v)) (message_id v) (mkSharedEventOrder (mts v)) now =
    TryInsertEvent n (record_of n v (now 0%nat)) (now 1%nat).
Proof.
  intros Ha. apply acceptable_id in Ha as [Ho _]. unfold TryInsertShared. cbn.
  destruct (String.eqb_spec (origin_uid (message_id v)) ""); [done|].
  by rewrite SharedEventId_eqb_spec, bool_decide_eq_true_2, Z.eqb_refl.
Qed.

Lemma record_of_message n v now now' :
  acceptable v → message_record (stamped (record_of n v now) now') v.
Proof. intros Ha. unfold stamped. by case_match. Qed.

Lemma record_of_admissible me k n v now :
  room_ok me k n → acceptable v → insert_admissible n (record_of n v now) = true.
Proof.
  intros [[Hl _ _] _ _ [d Hd] _ _] Ha. apply acceptable_id in Ha as [_ Ht].
  unfold insert_admissible, base_is_valid. unfold base_is_loaded in *. cbn.
  rewrite Hd. destruct (base n); [|done]. rewrite Hl. cbn.
  rewrite !bool_decide_eq_false_2 by naive_solver. cbn. unfold ts. cbn.
  by destruct (Z.eqb_spec (mts v) 0).
Qed.

(** The message lands at its time: what follows it in the timeline is not earlier. *)
Lemma insert_message me k n v (now : Readings) :
  0 ≤ k → room_ok me (k + 1) n → acceptable v →
  (own me v → 0 < mts v ∧ mts v + k < kMaxUint64) →
  (∀ r, r ∈ journal n → identity r ≠ message_id v) →
  ∃ m l1 l2,
    TryInsertShared n (created n (message_event v)) (message_id v)
      (mkSharedEventOrder (mts v)) now = Some (true, m) ∧
    room_ok me k m ∧
    (∀ r, r ∈ journal m → r ∈ journal n ∨ identity r = message_id v) ∧
    room_messages n = l1 ++ l2 ∧ room_messages m = l1 ++ v :: l2 ∧
    (∀ u, u ∈ l2 → own me u →
       ∃ w, last_own me (room_messages n) = Some w ∧ mts v ≤ mts w).
Proof.
  intros Hk Hok Ha Hov Hfresh. rewrite TryInsertShared_message by done.
  set (r := record_of n v (now 0%nat)). set (r' := stamped r (now 1%nat)).
  pose proof (record_of_admissible me _ n v (now 0%nat) Hok Ha) as Hadm. fold r in Hadm.
  pose proof (record_of_message n v (now 0%nat) (now 1%nat) Ha) as Hrm. fold r r' in Hrm.
  destruct Hok as [Hc Hs Hz Hd Hm Ho].
  assert (is_duplicate n r = false) as Hdup.
  { unfold is_duplicate, identity_in_journal. apply andb_false_intro2, not_true_iff_false.
    intros (x & Hx & He)%existsb_exists. apply andb_prop in He as [_ He].
    rewrite SharedEventId_eqb_spec in He. apply bool_decide_eq_true in He.
    by apply (Hfresh x), He; apply list_elem_of_In. }
  assert (journal_fits n) as Hfit by (unfold journal_fits; lia).
  destruct (insert_journal_split r r' (journal n)) as (j1 & j2 & Hj & _ & Hins & H1 & H2);
    [done|apply ts_stamped|].
  assert (inserted_journal n r (now 1%nat) = j1 ++ r' :: j2) as Hij by done.
  pose proof Hc as [Hl (f & Hf & _) _]. unfold base_is_loaded in Hl.
  destruct (base n) as [b|] eqn:Eb; [|done].
  destruct (TryInsertEvent_succeeds n r (now 1%nat)) as [m Hins']; [done..| |].
  { rewrite Hij. unfold base_replay in *. rewrite Eb in *. cbn [mbind option_bind] in *.
    apply (replay_insert_message _ _ _ _ v); [done|]. by rewrite <-Hj, Hf. }
  pose proof Hins' as Hsame. apply TryInsertEvent_inv in Hsame as [Hfr Hcm]; [|done..].
  pose proof (sf_journal _ _ Hfr) as Hjm. cbn [journal set_journal] in Hjm.
  pose proof (sf_base _ _ Hfr) as Hbm. pose proof (sf_domain _ _ Hfr) as Hdm. cbn in Hbm, Hdm.
  rewrite Hij in Hjm. rewrite Eb in Hbm.
  pose proof (consistent_messages n b Hc Eb) as Hmn.
  pose proof (consistent_messages m b Hcm Hbm) as Hmm.
  rewrite Hj, omap_app, app_assoc in Hmn. rewrite Hjm, omap_app, app_assoc in Hmm.
  assert (record_message r' = Some v) as Hrv.
  { destruct Hrm as (_ & He & _). unfold record_message. by rewrite He. }
  cbn [omap list_omap] in Hmm. rewrite Hrv in Hmm.
  rewrite Hj in Hm, Hs. apply list.Forall_app in Hm as [Hm1 Hm2].
  eexists m, _, _. split; [exact Hins'|]. split; [|split; [|split; [exact Hmn|split; [exact Hmm|]]]].
  - split; [done| | |by rewrite Hdm| |].
    + rewrite Hjm. rewrite <-Hij. apply insert_journal_sorted; [by rewrite Hj|apply ts_stamped].
    + rewrite Hjm. rewrite Hj in Hz. rewrite !zlen_app, zlen_cons in *. lia.
    + rewrite Hjm. apply list.Forall_app. split; [done|]. constructor; [|done].
      intros u Hu. rewrite Hrv in Hu. simplify_eq. unfold r'.
      by rewrite identity_stamped, ts_stamped.
    + rewrite Hmn in Ho. rewrite Hmm. apply list.Forall_app in Ho as [Ho1 Ho2].
      assert (∀ l, Forall (λ v, own me v → 0 < mts v ∧ mts v + (k + 1) < kMaxUint64) l →
        Forall (λ v, own me v → 0 < mts v ∧ mts v + k < kMaxUint64) l) as Hw.
      { intros l Hl'. eapply list.Forall_impl; [exact Hl'|]. cbn. intros u H Hu.
        specialize (H Hu). lia. }
      apply list.Forall_app. split; [by apply Hw|]. constructor; [done|by apply Hw].
  - intros q Hq. rewrite Hjm in Hq. rewrite Hj.
    apply elem_of_app in Hq as [Hq|[->|Hq]%elem_of_cons]; [left; set_solver| |left; set_solver].
    right. unfold r'. by rewrite identity_stamped.
  - intros u Hu Hou. apply journal_sorted_app in Hs as (_ & Hs2 & _).
    destruct (last_own_latest me (messages (node_app (base_stored b)) ++ omap record_message j1)
      (omap record_message j2) u) as (w & Hw & Hle); [by apply journal_times_sorted|done|done|].
    exists w. rewrite Hmn. split; [done|].
    destruct (elem_of_journal_messages u j2 Hm2 Hu) as (q & Hq & _ & Hts).
    specialize (H2 q Hq). change (ts r) with (mts v) in H2. lia.
Qed.
End rooms.

(** ** The invariant of the model *)

#[export] Instance Entry_equiv : Equiv ChatEntryFields := (=).
#[export] Instance Entry_laws `{ChatLinks} : NodeLaws ChatEntryFields ChatEntryEvent.
Proof. split; [apply eq_equivalence|by intros f g e ->| |done|done]. intros f g e ->. by constructor. Qed.
#[export] Instance Workspace_equiv : Equiv ChatWorkspaceFields := (=).
#[export] Instance Workspace_laws `{AetherIds} : NodeLaws ChatWorkspaceFields ChatWorkspaceEvent.
Proof. split; [apply eq_equivalence|by intros f g e ->| |done|done]. intros f g e ->. by constructor. Qed.

Section chat.
  Context {ids : AetherIds} {rep : Replica} {links : ChatLinks} (me : string).
  Implicit Types (m : ChatModel) (s : ChatState) (k : Z) (clock : nat → Readings).

(** The peer of an entry of the workspace. *)
Definition chat_peer m (p : option Z) : option string :=
  id ← p; n ← entries m !! id; Some (peer_uid (fields n)).

(** What a workspace must be for the entries of the model. *)
Record workspace_ok m (f : ChatWorkspaceFields) : Prop := {
  ws_local : local_endpoint_uid f = ""%string ∨ local_endpoint_uid f = me;
  ws_sequence : 0 < next_message_sequence f ≤ kMaxUint64;
  ws_listed p : p ∈ chats f →
    is_Some (chat_peer m p) ∧ ∃ id, p = Some id ∧ ObjId_is_valid id = true;
  ws_peers : NoDup (chat_peer m <$> chats f);
  ws_selected : selected_chat_id f = ObjId_none ∨ Some (selected_chat_id f) ∈ chats f
}.

(** The identities of this endpoint in a room are below [next]. *)
Definition identities_below (next : Z) (n : ChatRoom) : Prop :=
  ∀ r, r ∈ journal n → origin_uid (identity r) = me → origin_sequence (identity r) < next.

Definition entry_bound m (f : ChatEntryFields) : Prop :=
  (∀ rm, room f = Some rm → is_Some (rooms m !! rm)) ∧
  (∀ l, peer_link f = Some l → EndpointUid l = peer_uid f) ∧
  (room f = None → peer_link f = None).

Record chat_ok k m : Prop := {
  chat_workspace : Budget k (workspace m);
  chat_fields : workspace_ok m (fields (workspace m));
  chat_entries : map_Forall (λ _ n, Budget k n ∧ entry_bound m (fields n)) (entries m);
  chat_rooms : map_Forall (λ _ n, room_ok me k n ∧
    identities_below (next_message_sequence (fields (workspace m))) n) (rooms m);
  chat_domains : map_Forall (λ _ n, domain n = domain (workspace m)) (entries m)
}.

Lemma chat_ok_weaken k k' m : k' ≤ k → chat_ok k m → chat_ok k' m.
Proof.
  intros Hk [Hw Hf He Hr Hd]. split; [by eapply Budget_weaken|done| | |done].
  - intros id n Hn. destruct (He id n Hn). split; [by eapply Budget_weaken|done].
  - intros id n Hn. destruct (Hr id n Hn). split; [by eapply room_ok_weaken|done].
Qed.

(** What a command never undoes: entries stay listed with their peer and their room, a role
    stays configured, rooms stay. *)
Definition workspace_extends (f g : ChatWorkspaceFields) : Prop :=
  (∃ l, chats g = chats f ++ l) ∧ (demo_role f ≠ kUnconfigured → demo_role g = demo_role f).

Definition entry_extends (f g : ChatEntryFields) : Prop :=
  peer_uid g = peer_uid f ∧ ∀ rm, room f = Some rm → room g = Some rm.

Record extends m m' : Prop := {
  ext_workspace : workspace_extends (fields (workspace m)) (fields (workspace m'));
  ext_entries id n : entries m !! id = Some n →
    ∃ n', entries m' !! id = Some n' ∧ entry_extends (fields n) (fields n');
  ext_rooms id : is_Some (rooms m !! id) → is_Some (rooms m' !! id)
}.

Lemma workspace_extends_refl f : workspace_extends f f.
Proof. split; [exists []; by rewrite app_nil_r|done]. Qed.

Lemma extends_refl m : extends m m.
Proof. split; [apply workspace_extends_refl| |done]. intros id n Hn. by exists n. Qed.

Lemma extends_trans m1 m2 m3 : extends m1 m2 → extends m2 m3 → extends m1 m3.
Proof.
  intros [[[l Hl] Hr] He Hm] [[[l' Hl'] Hr'] He' Hm']. split.
  - split; [exists (l ++ l'); by rewrite Hl', Hl, app_assoc|].
    intros H. rewrite <-(Hr H). apply Hr'. by rewrite Hr.
  - intros id n Hn. destruct (He id n Hn) as (n' & Hn' & H1 & H2).
    destruct (He' id n' Hn') as (n'' & Hn'' & H3 & H4). exists n''. split; [done|].
    split; [congruence|auto].
  - auto.
Qed.

Lemma extends_workspace m w :
  workspace_extends (fields (workspace m)) (fields w) → extends m (with_workspace m w).
Proof. intros H. split; [done| |done]. intros id n Hn. by exists n. Qed.

Lemma extends_entry m id n :
  (∀ n0, entries m !! id = Some n0 → entry_extends (fields n0) (fields n)) →
  extends m (with_entry m id n).
Proof.
  intros H. split; [apply workspace_extends_refl| |done]. intros i n0 Hn0. cbn.
  destruct (decide (i = id)) as [->|Hne].
  - exists n. split; [apply lookup_insert_eq|by apply H].
  - exists n0. by rewrite lookup_insert_ne.
Qed.

Lemma extends_room m id n : extends m (with_room m id n).
Proof.
  split; [apply workspace_extends_refl| |].
  - intros i n0 Hn0. by exists n0.
  - intros i [r Hr]. cbn. destruct (decide (i = id)) as [->|Hne].
    + rewrite lookup_insert_eq. by eexists.
    + rewrite lookup_insert_ne by done. by eexists.
Qed.

Lemma Apply_Workspace_extends f e :
  CanApply_Workspace f e = true → workspace_extends f (Apply_Workspace f e).
Proof.
  destruct f as [role host local next cs sel b], e as [entry|id|uid|q|b'|r|t]; cbn; intros H;
    try apply workspace_extends_refl; try (by split; [exists []; cbn; by rewrite app_nil_r|]).
  - split; [by exists [entry]|done].
  - apply andb_prop in H as [_ ->%bool_decide_eq_true].
    split; [exists []; cbn; by rewrite app_nil_r|done].
Qed.

(** The state after a command: the models that were persisted keep the invariant, too. *)
Definition result_ok k s s' : Prop :=
  persists s' = persists s ∧ chat_ok k (model s') ∧ extends (model s) (model s') ∧
  ∃ l, persisted s' = persisted s ++ l ∧ Forall (chat_ok k) l.

Lemma result_ok_refl k s : chat_ok k (model s) → result_ok k s s.
Proof.
  intros H. split; [done|]. split; [done|]. split; [apply extends_refl|].
  exists []. by rewrite app_nil_r.
Qed.

Lemma persist_ok k s s' : result_ok k s s' → result_ok k s (persist s').
Proof.
  intros (Hp & Hok & He & l & Hl & Hall). unfold persist.
  destruct (persists s') eqn:E; [|by split; [congruence|split; [done|split; [done|exists l]]]].
  split; [done|]. split; [done|]. split; [done|]. exists (l ++ [model s']). cbn.
  split; [by rewrite Hl, app_assoc|]. apply list.Forall_app. by split; [|constructor].
Qed.

(** Replacing the model of a state keeps what was persisted. *)
Lemma set_model_after k s s' m :
  result_ok k s s' → chat_ok k m → extends (model s') m → result_ok k s (set_model s' m).
Proof.
  intros (Hp & _ & He & Hl) Hm He'. split; [done|]. split; [done|].
  split; [by eapply extends_trans|done].
Qed.

Lemma set_model_ok k s m :
  chat_ok k m → extends (model s) m → result_ok k s (set_model s m).
Proof.
  intros H He. split; [done|]. split; [done|]. split; [done|]. exists []. cbn.
  by rewrite app_nil_r.
Qed.

(** *** Commits on the workspace *)

Lemma chat_ok_workspace k m w :
  chat_ok k m → Budget k w → domain w = domain (workspace m) → workspace_ok m (fields w) →
  next_message_sequence (fields (workspace m)) ≤ next_message_sequence (fields w) →
  chat_ok k (with_workspace m w).
Proof.
  intros [Hw Hf He Hr Hdom] Hb Hd Hok Hn. split; [done| |done| |].
  - by destruct Hok.
  - intros id n Hid. destruct (Hr id n Hid) as [H1 H2]. split; [done|].
    intros r Hin Ho. specialize (H2 r Hin Ho). cbn. lia.
  - intros id n Hid. rewrite (Hdom id n Hid). by symmetry.
Qed.

Lemma commit_workspace_ok k s e now :
  0 ≤ k → chat_ok (k + 1) (model s) → clock_within (k + 1) now →
  let f := fields (workspace (model s)) in
  CanApply_Workspace f e = true →
  workspace_ok (model s) (Apply_Workspace f e) →
  next_message_sequence f ≤ next_message_sequence (Apply_Workspace f e) →
  ∃ w, commit_workspace s e now = Some (set_model s (with_workspace (model s) w)) ∧
    fields w = Apply_Workspace f e ∧ extends (model s) (with_workspace (model s) w) ∧
    chat_ok k (with_workspace (model s) w).
Proof.
  intros Hk Hok Hnow f Hcan Hws Hn. unfold commit_workspace.
  destruct (Commit_Budget k (workspace (model s)) e now (Apply_Workspace f e) true)
    as (w & r & Hw & Hb & Hf & _ & Hd & _); [done|apply Hok|done|done|done|].
  rewrite Hw. exists w. split; [done|]. split; [done|].
  split; [by apply extends_workspace; rewrite Hf; apply Apply_Workspace_extends|].
  apply chat_ok_workspace; [by apply (chat_ok_weaken (k + 1)); [lia|]|done|done|by rewrite Hf|by rewrite Hf].
Qed.

(** *** Commits on an entry *)

Lemma chat_peer_with_entry m id n n0 p :
  entries m !! id = Some n0 → peer_uid (fields n) = peer_uid (fields n0) →
  chat_peer (with_entry m id n) p = chat_peer m p.
Proof.
  intros H0 Hp. destruct p as [i|]; [|done]. cbn. destruct (decide (i = id)) as [->|Hi].
  - rewrite lookup_insert_eq, H0. cbn. by rewrite Hp.
  - by rewrite lookup_insert_ne.
Qed.

Lemma chat_ok_entry k m id n n0 :
  chat_ok k m → entries m !! id = Some n0 → Budget k n → domain n = domain n0 →
  peer_uid (fields n) = peer_uid (fields n0) → entry_bound m (fields n) →
  chat_ok k (with_entry m id n).
Proof.
  intros [Hw [Hlo Hse Hli Hpe Hsel] He Hr Hdom] H0 Hb Hd Hp Hbd.
  assert (∀ p, chat_peer (with_entry m id n) p = chat_peer m p) as Hpeer.
  { intros p. by eapply chat_peer_with_entry. }
  split; [done| |by apply map_Forall_insert_2|done|apply map_Forall_insert_2; [|done]].
  2: { cbn. by rewrite Hd, (Hdom id n0 H0). }
  cbn. split; [done|done| | |done].
  - intros p Hin. rewrite Hpeer. by apply Hli.
  - rewrite (list_fmap_ext _ (chat_peer m)); [done|]. intros i p _. apply Hpeer.
Qed.

Lemma commit_entry_ok k s id n e now :
  0 ≤ k → chat_ok k (model s) → Budget (k + 1) n → clock_within (k + 1) now →
  entries (model s) !! id = Some n →
  CanApply_Entry (fields n) e = true → entry_bound (model s) (Apply_Entry (fields n) e) →
  entry_extends (fields n) (Apply_Entry (fields n) e) →
  ∃ n', commit_entry s id e now = Some (set_model s (with_entry (model s) id n')) ∧
    fields n' = Apply_Entry (fields n) e ∧ extends (model s) (with_entry (model s) id n') ∧
    chat_ok k (with_entry (model s) id n').
Proof.
  intros Hk Hok Hbn Hnow Hid Hcan Hbd Hext. unfold commit_entry. rewrite Hid. cbn [mbind option_bind].
  destruct (Commit_Budget k n e now (Apply_Entry (fields n) e) true)
    as (n' & r & Hn' & Hb & Hf & _ & Hd & _); [done..|].
  rewrite Hn'. exists n'. split; [done|]. split; [done|].
  split; [apply extends_entry; intros n0 Hn0; rewrite Hf; congruence|].
  apply (chat_ok_entry _ _ _ _ n); [done|done|done|done| |by rewrite Hf].
  rewrite Hf. by destruct e.
Qed.
End chat.

(** ** The commands *)
Section commands_ok.
  Context {ids : AetherIds} {rep : Replica} {links : ChatLinks} (me : string).
  Implicit Types (m : ChatModel) (s : ChatState) (k : Z) (clock : nat → Readings).

Abbreviation ws s := (fields (workspace (model s))).
Definition clock_ok k clock : Prop := ∀ i, clock_within k (clock i).

(** A command completes, and keeps the invariant with one commit less. *)
Definition completes {A} k s (c : option (A * ChatState)) : Prop :=
  ∃ a s', c = Some (a, s') ∧ result_ok me k s s'.

Lemma completes_refl {A} k s (a : A) :
  chat_ok me (k + 1) (model s) → completes k s (Some (a, s)).
Proof.
  intros H. exists a, s. split; [done|].
  by apply result_ok_refl, (chat_ok_weaken _ (k + 1)); [lia|].
Qed.

Lemma completes_workspace k s e now :
  0 ≤ k → chat_ok me (k + 1) (model s) → clock_within (k + 1) now →
  CanApply_Workspace (ws s) e = true →
  workspace_ok me (model s) (Apply_Workspace (ws s) e) →
  next_message_sequence (ws s) ≤ next_message_sequence (Apply_Workspace (ws s) e) →
  completes k s (commit_workspace_and_persist s e now).
Proof.
  intros Hk Hok Hnow Hcan Hws Hn. unfold commit_workspace_and_persist.
  destruct (commit_workspace_ok me k s e now) as (w & -> & _ & He & Hw); [done..|].
  eexists true, _. split; [reflexivity|]. by apply persist_ok, set_model_ok.
Qed.

Lemma completes_entry k s id n e now :
  0 ≤ k → chat_ok me (k + 1) (model s) → clock_within (k + 1) now →
  entries (model s) !! id = Some n → CanApply_Entry (fields n) e = true →
  entry_bound (model s) (Apply_Entry (fields n) e) →
  entry_extends (fields n) (Apply_Entry (fields n) e) →
  completes k s (commit_entry_and_persist s id e now).
Proof.
  intros Hk Hok Hnow Hid Hcan Hbd Hext. unfold commit_entry_and_persist.
  destruct (commit_entry_ok me k s id n e now) as (n' & -> & _ & He & Hn);
    [done|by apply (chat_ok_weaken _ (k + 1)); [lia|]|by apply (chat_entries _ _ _ Hok id n)|done..|].
  eexists true, _. split; [reflexivity|]. by apply persist_ok, set_model_ok.
Qed.

(** Changes of the workspace that leave the entries, the endpoint and the sequence. *)
Lemma workspace_ok_same m f g :
  workspace_ok me m f → local_endpoint_uid g = local_endpoint_uid f →
  next_message_sequence g = next_message_sequence f → chats g = chats f →
  selected_chat_id g = selected_chat_id f → workspace_ok me m g.
Proof. intros [Hl Hs Hli Hp Hsel] El En Ec Es. split; rewrite ?El, ?En, ?Ec, ?Es; done. Qed.

Section command.
  Variables (k : Z) (s : ChatState) (clock : nat → Readings).
  Hypotheses (Hk : 0 ≤ k) (Hok : chat_ok me (k + 1) (model s)) (Hclock : clock_ok (k + 1) clock).

Lemma workspace_is_ok : workspace_ok me (model s) (ws s).
Proof. apply Hok. Qed.

Lemma ConfigureDemoRole_completes role : completes k s (ConfigureDemoRole s role clock).
Proof.
  unfold ConfigureDemoRole. repeat case_bool_decide; try by apply completes_refl.
  apply completes_workspace; [done|done|apply Hclock| | |].
  - assert (demo_role (ws s) = kUnconfigured) as Hr by done.
    cbn. rewrite Hr. destruct role; [naive_solver|done|done].
  - eapply workspace_ok_same; [exact workspace_is_ok|..]; by destruct (ws s).
  - by destruct (ws s).
Qed.

(** The command does not check the size that the event requires. *)
Lemma SetHostUidInput_completes text :
  Z.of_nat (String.length text) ≤ 128 → completes k s (SetHostUidInput s text clock).
Proof.
  intros Hlen. unfold SetHostUidInput. case_bool_decide; [by apply completes_refl|].
  case_match; [by apply completes_refl|].
  apply completes_workspace; [done|done|apply Hclock| | |].
  - cbn. apply Z.leb_le in Hlen. rewrite Hlen.
    assert (demo_role (ws s) = kClient) as -> by done. done.
  - eapply workspace_ok_same; [exact workspace_is_ok|..]; by destruct (ws s).
  - by destruct (ws s).
Qed.

Lemma BindLocalEndpoint_completes : completes k s (BindLocalEndpoint s me clock).
Proof.
  unfold BindLocalEndpoint. repeat (case_match; [by apply completes_refl|]).
  apply completes_workspace; [done|done|apply Hclock|done| |by destruct (ws s)].
  destruct workspace_is_ok as [Hl Hs Hli Hp Hsel]. destruct (ws s). by split; [right|..].
Qed.

Lemma SetDesktopBounds_completes b : completes k s (SetDesktopBounds s b clock).
Proof.
  unfold SetDesktopBounds. case_bool_decide; [by apply completes_refl|].
  apply completes_workspace; [done|done|apply Hclock|done| |by destruct (ws s)].
  eapply workspace_ok_same; [exact workspace_is_ok|..]; by destruct (ws s).
Qed.

Lemma has_entry_spec l id : has_entry l id = true ↔ Some id ∈ l.
Proof.
  unfold has_entry. rewrite existsb_exists. split.
  - intros (p & Hp & ->%bool_decide_eq_true). by apply list_elem_of_In.
  - intros H. exists (Some id). split; [by apply list_elem_of_In|by apply bool_decide_eq_true_2].
Qed.

Lemma workspace_ok_select m f id :
  workspace_ok me m f → Some id ∈ chats f →
  workspace_ok me m (Apply_Workspace f (ChatSelectedEvent id)).
Proof. intros [Hl Hs Hli Hp Hsel] Hid. destruct f. split; try done. by right. Qed.

Lemma listed_valid m f id :
  workspace_ok me m f → Some id ∈ chats f → ObjId_is_valid id = true.
Proof. intros Hf Hin. by destruct (ws_listed _ _ _ Hf _ Hin) as (_ & ? & [= ->] & ?). Qed.

Lemma SelectChat_completes id : completes k s (SelectChat s id clock).
Proof.
  unfold SelectChat. destruct (ObjId_is_valid id) eqn:Hv; [|by apply completes_refl].
  destruct (has_entry (chats (ws s)) id) eqn:Hh; [|by apply completes_refl].
  cbn [negb]. case_match; [by apply completes_refl|].
  apply completes_workspace; [done|done|apply Hclock| | |by destruct (ws s)].
  - cbn. by rewrite Hv, Hh.
  - by apply workspace_ok_select, has_entry_spec; [apply workspace_is_ok|].
Qed.

Variables (id : Z) (n : ChatEntry).
Hypothesis (Hid : entries (model s) !! id = Some n).

Lemma entry_is_bound : entry_bound (model s) (fields n).
Proof. apply (chat_entries _ _ _ Hok id n Hid). Qed.

Lemma SetDraft_completes text : completes k s (SetDraft s id text clock).
Proof.
  unfold SetDraft. rewrite Hid. cbn [mbind option_bind].
  case_match; [by apply completes_refl|].
  apply (completes_entry _ _ _ n); [done|done|apply Hclock|done|done|apply entry_is_bound|done].
Qed.

Lemma SetScroll_completes anchor : completes k s (SetScroll s id anchor clock).
Proof.
  unfold SetScroll. rewrite Hid. cbn [mbind option_bind].
  case_match; [by apply completes_refl|].
  apply (completes_entry _ _ _ n); [done|done|apply Hclock|done|done|apply entry_is_bound|done].
Qed.

Lemma BindChat_completes link rm :
  (∀ p, rm = Some p → is_Some (rooms (model s) !! ptr_id p)) →
  completes k s (BindChat s id link rm clock).
Proof.
  intros Hrm. unfold BindChat. rewrite Hid. cbn [mbind option_bind].
  destruct link as [link|], rm as [rm|]; try by apply completes_refl.
  case_bool_decide; [by apply completes_refl|].
  destruct (String.eqb_spec (EndpointUid (ptr_id link)) (peer_uid (fields n))) as [He|];
    [|by apply completes_refl]. cbn [negb].
  repeat (case_bool_decide; [by apply completes_refl|]).
  apply (completes_entry _ _ _ n); [done|done|apply Hclock|done| | |].
  - cbn. by apply String.eqb_eq.
  - split_and!; cbn; [intros ? [= <-]; by apply Hrm|intros ? [= <-]; done|done].
  - split; [done|]. cbn. intros r Hr. rewrite Hr in *.
    destruct (decide (r = ptr_id rm)) as [->|Hne]; [done|]. exfalso. naive_solver.
Qed.
End command.
End commands_ok.

(** ** Opening a chat *)
Section open.
  Context {ids : AetherIds} {rep : Replica} {links : ChatLinks} (me : string).
  Implicit Types (m : ChatModel) (s : ChatState) (k : Z) (clock : nat → Readings).

Abbreviation ws s := (fields (workspace (model s))).

(** The loop finds the entry of the peer, when the workspace has one. *)
Lemma find_peer_spec m uid l :
  (∀ p, p ∈ l → is_Some (chat_peer m p)) →
  ∃ found, find_peer m uid l = Some found ∧
    match found with
    | Some id => Some id ∈ l ∧ chat_peer m (Some id) = Some uid
    | None => Some uid ∉ chat_peer m <$> l
    end.
Proof.
  induction l as [|p l IH]; intros Hl; [exists None; set_solver|].
  destruct IH as (found & Hf & Hspec); [set_solver|].
  destruct (Hl p ltac:(set_solver)) as [peer Hp]. destruct p as [id|]; [|done].
  cbn [find_peer]. cbn in Hp. destruct (entries m !! id) as [n|] eqn:En; [|done].
  cbn [mbind option_bind] in *. injection Hp as <-.
  destruct (String.eqb_spec (peer_uid (fields n)) uid) as [<-|Hne].
  - exists (Some id). split; [done|]. split; [by left|]. cbn. by rewrite En.
  - exists found. split; [done|]. destruct found; [set_solver|].
    rewrite fmap_cons. intros [He|]%elem_of_cons; [|done]. cbn in He. rewrite En in He. naive_solver.
Qed.

Definition new_entry s (uid : string) : ChatEntryFields :=
  mkEntry uid (ConversationDisplayName (demo_role (ws s)) uid) None None "" default_scroll.

(** A fresh entry that is not in the workspace yet. *)
Lemma chat_ok_fresh k m id n :
  chat_ok me k m → entries m !! id = None → Budget k n → domain n = domain (workspace m) →
  entry_bound m (fields n) →
  chat_ok me k (with_entry m id n) ∧
  ∀ p, p ≠ Some id → chat_peer (with_entry m id n) p = chat_peer m p.
Proof.
  intros [Hw [Hlo Hse Hli Hpe Hsel] He Hr Hdom] Hid Hb Hd Hbd.
  assert (∀ p, p ≠ Some id → chat_peer (with_entry m id n) p = chat_peer m p) as Hpeer.
  { intros [i|] Hp; [|done]. cbn. by rewrite lookup_insert_ne by congruence. }
  assert (∀ p, p ∈ chats (fields (workspace m)) → p ≠ Some id) as Hne.
  { intros p Hp ->. destruct (Hli _ Hp) as [[? Hc] _]. cbn in Hc. by rewrite Hid in Hc. }
  split; [|done]. split; [done| |by apply map_Forall_insert_2|done|by apply map_Forall_insert_2].
  cbn. split; [done|done| | |done].
  - intros p Hp. rewrite Hpeer by auto. by apply Hli.
  - rewrite (list_fmap_ext _ (chat_peer m)); [done|]. intros i p Hp.
    apply Hpeer, Hne. by eapply list_elem_of_lookup_2.
Qed.

Lemma workspace_ok_add m f id uid :
  workspace_ok me m f → ObjId_is_valid id = true → chat_peer m (Some id) = Some uid →
  Some uid ∉ chat_peer m <$> chats f →
  workspace_ok me m (Apply_Workspace f (ChatEntryAddedEvent (Some id))).
Proof.
  intros [Hlo Hse Hli Hpe Hsel] Hv Hp Hnew. destruct f as [role host local next cs sel bounds].
  cbn in *. split; cbn; [done|done| | |].
  - intros p [Hin|Hin%list_elem_of_singleton]%elem_of_app; [by apply Hli|subst p].
    split; [by exists uid|by exists id].
  - rewrite fmap_app. apply list.NoDup_app. split; [done|]. split; [|apply list.NoDup_singleton].
    intros q Hq Hq'%list_elem_of_singleton. subst q. apply Hnew. by rewrite <-Hp.
  - destruct Hsel; [by left|right; set_solver].
Qed.

Lemma model_persist s : model (persist s) = model s.
Proof. unfold persist. by case_match. Qed.

Lemma select_ok k s id now :
  0 ≤ k → chat_ok me (k + 1) (model s) → clock_within (k + 1) now → Some id ∈ chats (ws s) →
  ∃ w, commit_workspace s (ChatSelectedEvent id) now =
      Some (set_model s (with_workspace (model s) w)) ∧
    fields w = Apply_Workspace (ws s) (ChatSelectedEvent id) ∧
    extends (model s) (with_workspace (model s) w) ∧ chat_ok me k (with_workspace (model s) w).
Proof.
  intros Hk Hok Hnow Hin. pose proof (chat_fields _ _ _ Hok) as Hf.
  destruct (commit_workspace_ok me k s (ChatSelectedEvent id) now) as (w & Hw & Hwf & Hext & Hwok);
    [done|done|done| | |by destruct (ws s)|by exists w].
  - cbn. by rewrite (listed_valid me _ _ _ Hf Hin), (proj2 (has_entry_spec _ _) Hin).
  - by apply workspace_ok_select.
Qed.

(** The part of the command that makes a new entry. *)
Lemma open_new k s peer new_id base_id clock :
  0 ≤ k → chat_ok me (k + 2) (model s) → clock_ok (k + 2) clock →
  entries (model s) !! new_id = None → ObjId_is_valid new_id = true → base_id ≠ new_id →
  Some peer ∉ chat_peer (model s) <$> chats (ws s) →
  ∃ n s1 s2, InitializeRuntimeNode
      (new_node new_id (domain (workspace (model s))) (new_entry s peer)) base_id = Some n ∧
    fields n = new_entry s peer ∧
    commit_workspace (set_model s (with_entry (model s) new_id n))
      (ChatEntryAddedEvent (Some new_id)) (clock 0%nat) = Some s1 ∧
    commit_workspace s1 (ChatSelectedEvent new_id) (clock 1%nat) = Some s2 ∧
    result_ok me k s s2 ∧ entries (model s2) = <[new_id := n]> (entries (model s)) ∧
    rooms (model s2) = rooms (model s) ∧ selected_chat_id (ws s2) = new_id ∧
    chats (ws s2) = chats (ws s) ++ [Some new_id].
Proof.
  intros Hk Hok Hclock Hnew Hvalid Hbase Hpeer.
  destruct (budget_domain _ _ (chat_workspace _ _ _ Hok)) as [d Hd].
  destruct (InitializeRuntimeNode_Budget (k + 2) new_id base_id d (new_entry s peer))
    as (n & Hn & Hnf & Hnd & _ & Hnb); [|done|done|].
  { pose proof (budget_size _ _ (chat_workspace _ _ _ Hok)).
    pose proof (zlen_nonneg (journal (workspace (model s)))). lia. }
  destruct (chat_ok_fresh (k + 2) (model s) new_id n) as [Hok2 Hpeers]; [done|done|done|by rewrite Hd| |].
  { rewrite Hnf. by split. }
  set (s0 := set_model s (with_entry (model s) new_id n)).
  assert (chat_peer (model s0) (Some new_id) = Some peer) as Hpn.
  { cbn. rewrite lookup_insert_eq. cbn. by rewrite Hnf. }
  assert (chat_peer (model s0) <$> chats (ws s0) = chat_peer (model s) <$> chats (ws s)) as Hsame.
  { apply list_fmap_ext. intros i p Hp. apply Hpeers. intros ->.
    apply list_elem_of_lookup_2, (ws_listed _ _ _ (chat_fields _ _ _ Hok)) in Hp as [[? Hc] _].
    cbn in Hc. by rewrite Hnew in Hc. }
  rewrite <-Hsame in Hpeer. replace (k + 2) with (k + 1 + 1) in * by lia.
  destruct (commit_workspace_ok me (k + 1) s0 (ChatEntryAddedEvent (Some new_id)) (clock 0%nat))
    as (w1 & Hw1 & Hf1 & He1 & Hok3); [lia|done|apply Hclock|done| |by destruct (ws s0)|].
  { by apply (workspace_ok_add _ _ _ peer); [apply Hok2|..]. }
  set (s1 := set_model s0 (with_workspace (model s0) w1)) in *.
  destruct (select_ok k s1 new_id (clock 1%nat)) as (w2 & Hw2 & Hf2 & He2 & Hok4); [done|done| | |].
  { intros j. specialize (Hclock 1%nat j). lia. }
  { cbn. rewrite Hf1. cbn. destruct (ws s). cbn. set_solver. }
  exists n, s1, (set_model s1 (with_workspace (model s1) w2)). rewrite Hd.
  split; [done|]. split; [done|]. split; [done|]. split; [done|].
  split.
  { split; [done|]. split; [done|]. split; [|exists []; cbn; by rewrite app_nil_r].
    eapply extends_trans; [|exact He2]. eapply extends_trans; [|exact He1].
    apply extends_entry. intros n0 Hn0. congruence. }
  split; [done|]. split; [done|]. cbn. rewrite Hf2. cbn. rewrite Hf1. cbn. by destruct (ws s).
Qed.

(** What opening a chat leaves. *)
Lemma OpenOrSelectChat_selects k s uid new_id base_id clock
    (Hk : 0 ≤ k) (Hok : chat_ok me (k + 2) (model s)) (Hclock : clock_ok (k + 2) clock)
    (Huid : TrimAsciiWhitespace uid ≠ ""%string)
    (Hnew : entries (model s) !! new_id = None) (Hvalid : ObjId_is_valid new_id = true)
    (Hbase : base_id ≠ new_id) :
  let peer := TrimAsciiWhitespace uid in
  ∃ id s', OpenOrSelectChat s uid new_id base_id clock = Some (Some id, s') ∧
    result_ok me k s s' ∧ selected_chat_id (ws s') = id ∧
    chat_peer (model s') (Some id) = Some peer ∧ rooms (model s') = rooms (model s) ∧
    ((Some id ∈ chats (ws s) ∧ chats (ws s') = chats (ws s) ∧
      entries (model s') = entries (model s)) ∨
     (¬ (Some peer ∈ chat_peer (model s) <$> chats (ws s)) ∧ id = new_id ∧
      chats (ws s') = chats (ws s) ++ [Some new_id] ∧
      (∃ n, entries (model s') = <[new_id := n]> (entries (model s)) ∧
         fields n = new_entry s peer))).
Proof.
  intros peer. unfold OpenOrSelectChat. fold peer.
  destruct (String.eqb_spec peer "") as [|_]; [done|].
  destruct (find_peer_spec (model s) peer (chats (ws s))) as (found & -> & Hspec).
  { intros p Hp. by apply (ws_listed _ _ _ (chat_fields _ _ _ Hok)). }
  cbn [mbind option_bind]. destruct found as [id|].
  - destruct Hspec as [Hin Hpeer].
    destruct (Z.eqb_spec (selected_chat_id (ws s)) id) as [Hsel|Hsel].
    + exists id, s. split; [done|].
      split; [by apply result_ok_refl, (chat_ok_weaken _ (k + 2)); [lia|]|]. by auto 8.
    + destruct (select_ok k s id (clock 0%nat)) as (w & -> & Hw & Hext & Hwok);
        [done|by apply (chat_ok_weaken _ (k + 2)); [lia|]| |done|].
      { intros j. specialize (Hclock 0%nat j). lia. }
      cbn [mbind option_bind]. eexists id, _. split; [reflexivity|]. rewrite model_persist.
      split; [by apply persist_ok, set_model_ok|]. cbn. rewrite Hw.
      destruct (ws s). by auto 8.
  - destruct (open_new k s peer new_id base_id clock) as
      (n & s1 & s2 & Hn & Hnf & H1 & H2 & Hres & He & Hr & Hsel & Hc); [done..|].
    fold (new_entry s peer). rewrite Hn. cbn [mbind option_bind].
    rewrite H1. cbn [mbind option_bind]. rewrite H2. cbn [mbind option_bind].
    eexists new_id, _. split; [reflexivity|]. rewrite model_persist.
    split; [by apply persist_ok|]. split; [done|].
    split; [cbn; rewrite He, lookup_insert_eq; cbn; by rewrite Hnf|]. split; [done|].
    right. split; [done|]. split; [done|]. split; [done|]. by exists n.
Qed.

Lemma peer_entry_unique m f id id' peer :
  workspace_ok me m f → Some id ∈ chats f → Some id' ∈ chats f →
  chat_peer m (Some id) = Some peer → chat_peer m (Some id') = Some peer → id = id'.
Proof.
  intros Hf [i Hi]%list_elem_of_lookup [j Hj]%list_elem_of_lookup Hp Hp'.
  pose proof (ws_peers _ _ _ Hf) as Hnd.
  assert (i = j) as ->; [|congruence]. apply (list.NoDup_lookup (chat_peer m <$> chats f) i j (Some peer));
    [done| |]; rewrite list_lookup_fmap, ?Hi, ?Hj; cbn [fmap option_fmap option_map]; congruence.
Qed.

(** Opening a chat with a peer whose identifier is not blank always succeeds, and
    selects the entry of the peer: the one that the workspace has, without a change of any
    entry, or, when it has none, a new one with no room and an empty draft.  Opening a chat
    with the same peer again, however its identifier is surrounded by white space, gives
    the same entry and changes nothing at all. *)
Theorem OpenOrSelectChat_opens_once k s uid new_id base_id clock
    (Hk : 0 ≤ k) (Hok : chat_ok me (k + 2) (model s)) (Hclock : clock_ok (k + 2) clock)
    (Huid : TrimAsciiWhitespace uid ≠ ""%string)
    (Hnew : entries (model s) !! new_id = None) (Hvalid : ObjId_is_valid new_id = true)
    (Hbase : base_id ≠ new_id) :
  let peer := TrimAsciiWhitespace uid in
  ∃ id s', OpenOrSelectChat s uid new_id base_id clock = Some (Some id, s') ∧
    selected_chat_id (ws s') = id ∧ chat_peer (model s') (Some id) = Some peer ∧
    (entries (model s') = entries (model s) ∨
     ∃ n, entries (model s') = <[id := n]> (entries (model s)) ∧ fields n = new_entry s peer) ∧
    (∀ uid' new_id' base_id' clock', TrimAsciiWhitespace uid' = peer →
       OpenOrSelectChat s' uid' new_id' base_id' clock' = Some (Some id, s')).
Proof.
  intros peer. destruct (OpenOrSelectChat_selects k s uid new_id base_id clock) as
    (id & s' & Ho & (_ & Hok' & _ & _) & Hsel & Hpeer & _ & Hcase); [done..|].
  fold peer in Hpeer, Hcase. pose proof (chat_fields _ _ _ Hok') as Hf.
  assert (Some id ∈ chats (ws s')) as Hin.
  { destruct Hcase as [(H1 & -> & _)|(_ & -> & -> & _)]; [done|set_solver]. }
  exists id, s'. split; [done|]. split; [done|]. split; [done|]. split.
  { destruct Hcase as [(_ & _ & H)|(_ & -> & _ & H)]; auto. }
  intros uid' new_id' base_id' clock' He. unfold OpenOrSelectChat. rewrite He.
  destruct (String.eqb_spec peer ""); [done|].
  destruct (find_peer_spec (model s') peer (chats (ws s'))) as (found & -> & Hspec).
  { intros p Hp. by apply (ws_listed _ _ _ Hf). }
  cbn [mbind option_bind]. destruct found as [id'|].
  - destruct Hspec as [Hin' Hpeer'].
    rewrite (peer_entry_unique _ _ id' id peer Hf Hin' Hin Hpeer' Hpeer).
    by rewrite Hsel, Z.eqb_refl.
  - destruct Hspec. rewrite <-Hpeer. by apply list_elem_of_fmap_2.
Qed.
End open.

(** ** Sending a message *)
Section submit.
  Context {ids : AetherIds} {rep : Replica} {links : ChatLinks} (me : string).
  Implicit Types (m : ChatModel) (s : ChatState) (k : Z) (clock : nat → Readings).
  Implicit Types (v : MessageValue) (l : list MessageValue).

Abbreviation ws s := (fields (workspace (model s))).
Abbreviation mts := message_timestamp_us.

(** The time of a message is not before the clock, and after every own message that ends
    the timeline. *)
Lemma effective_time_spec k l now_us :
  0 ≤ k → 0 < now_us → now_us + k < kMaxUint64 →
  Forall (λ v, own me v → 0 < mts v ∧ mts v + (k + 1) < kMaxUint64) l →
  let t := effective_time me l now_us in
  now_us ≤ t ∧ t + k < kMaxUint64 ∧ (∀ w, last_own me l = Some w → mts w < t).
Proof.
  intros Hk Hpos Hnow Hl. cbv zeta. unfold effective_time.
  destruct (last_own me l) as [w|] eqn:E; [|by repeat split].
  apply last_own_elem in E as [Hin Ho]. rewrite list.Forall_forall in Hl.
  specialize (Hl w Hin Ho). unfold kMaxUint64 in *.
  destruct (Z.leb_spec now_us (mts w)).
  - rewrite u64_small by (unfold is_u64; lia). split; [lia|]. split; [lia|].
    intros ? [= <-]. lia.
  - split; [lia|]. split; [lia|]. by intros ? [= <-].
Qed.

Lemma filter_own_insert l1 l2 v :
  own me v → (∀ u, u ∈ l2 → ¬ own me u) →
  filter (own me) (l1 ++ v :: l2) = filter (own me) (l1 ++ l2) ++ [v].
Proof.
  intros Hv Hl. rewrite !list.filter_app, filter_cons_True by done.
  assert (filter (own me) l2 = []) as ->; [|by rewrite app_nil_r].
  destruct (filter (own me) l2) as [|u l] eqn:E; [done|].
  assert (u ∈ filter (own me) l2) as [Ho Hu]%list_elem_of_filter by (rewrite E; by left).
  by apply Hl in Hu.
Qed.

Lemma chat_ok_room k m id n n0 :
  chat_ok me k m → rooms m !! id = Some n0 → room_ok me k n →
  identities_below me (next_message_sequence (fields (workspace m))) n →
  chat_ok me k (with_room m id n).
Proof.
  intros [Hw [Hlo Hse Hli Hpe Hsel] He Hr Hdom] Hid Hok Hb. split; [done|done| | |done].
  - intros i e Hi. destruct (He i e Hi) as (H1 & H2 & H3). split; [done|]. split; [|done].
    intros rm Hrm. cbn. destruct (decide (rm = id)) as [->|Hne].
    + rewrite lookup_insert_eq. by eexists.
    + rewrite lookup_insert_ne by done. by apply H2.
  - by apply map_Forall_insert_2.
Qed.

(** The commit of the message on the room, after the reservation of its sequence. *)
Lemma commit_message k m rm r v (now : Readings) :
  0 ≤ k → chat_ok me k m → room_ok me (k + 1) r → rooms m !! rm = Some r →
  acceptable v → own me v →
  0 < mts v → mts v + k < kMaxUint64 →
  (∀ w, last_own me (room_messages r) = Some w → mts w < mts v) →
  identities_below me (origin_sequence (message_id v)) r →
  origin_sequence (message_id v) < next_message_sequence (fields (workspace m)) →
  ∃ r', CommitShared r (created r (message_event v)) (message_id v)
      (mkSharedEventOrder (mts v)) now = Some r' ∧
    chat_ok me k (with_room m rm r') ∧
    room_messages r' ≡ₚ v :: room_messages r ∧
    filter (own me) (room_messages r') = filter (own me) (room_messages r) ++ [v].
Proof.
  intros Hk Hok Hr Hrm Ha Hv Hpos Hb Hlast Hbelow Hseq.
  destruct (chat_rooms _ _ _ Hok rm r Hrm) as [_ Hids].
  destruct (insert_message me k r v now Hk Hr Ha) as
    (r' & l1 & l2 & Hins & Hr' & Hj & Hl & Hl' & Hord); [done| |].
  { intros q Hq Hid. assert (origin_uid (identity q) = me) as Ho by (rewrite Hid; exact Hv).
    specialize (Hbelow q Hq Ho). rewrite Hid in Hbelow. lia. }
  exists r'. unfold CommitShared. rewrite Hins. split; [done|]. split; [|split].
  - apply (chat_ok_room _ _ _ _ r); [done|done|done|].
    intros q Hq Ho. destruct (Hj q Hq) as [Hq'|Hid]; [by apply Hids|]. by rewrite Hid.
  - by rewrite Hl', Hl, <-Permutation_middle.
  - rewrite Hl', Hl. apply filter_own_insert; [done|]. intros u Hu Ho.
    destruct (Hord u Hu Ho) as (w & Hw & Hle). specialize (Hlast w Hw). lia.
Qed.

(** The reservation of the next sequence number. *)
Lemma reserve_ok k s now :
  0 ≤ k → chat_ok me (k + 1) (model s) → clock_within (k + 1) now →
  next_message_sequence (ws s) ≠ kMaxUint64 →
  ∃ w, commit_workspace s (MessageSequenceReservedEvent (next_message_sequence (ws s))) now =
      Some (set_model s (with_workspace (model s) w)) ∧
    extends (model s) (with_workspace (model s) w) ∧ chat_ok me k (with_workspace (model s) w) ∧
    next_message_sequence (fields w) = next_message_sequence (ws s) + 1.
Proof.
  intros Hk Hok Hnow Hmax. pose proof (chat_fields _ _ _ Hok) as Hws.
  pose proof (ws_sequence _ _ _ Hws) as Hs.
  assert (u64 (next_message_sequence (ws s) + 1) = next_message_sequence (ws s) + 1) as Hu.
  { apply u64_small. unfold is_u64, kMaxUint64 in *. lia. }
  destruct (commit_workspace_ok me k s (MessageSequenceReservedEvent (next_message_sequence (ws s)))
    now) as (w & Hc & Hw & Hext & Hok1); [done|done|done| | | |].
  - cbn. rewrite Z.eqb_refl. apply Z.eqb_neq in Hmax. rewrite Hmax.
    by destruct (Z.eqb_spec (next_message_sequence (ws s)) 0); [lia|].
  - destruct Hws as [Hl _ Hli Hpe Hsel]. destruct (ws s). split; cbn in *; try done.
    rewrite Hu. unfold kMaxUint64 in *. lia.
  - destruct (ws s). cbn in *. lia.
  - exists w. split; [done|]. split; [done|]. split; [done|]. rewrite Hw, <-Hu. by destruct (ws s).
Qed.

(** The guards of the command are passed. *)
Lemma SubmitDraft_unfold s entry n rm r now_us clock :
  entries (model s) !! entry = Some n → room (fields n) = Some rm →
  rooms (model s) !! rm = Some r → local_endpoint_uid (ws s) ≠ ""%string →
  draft (fields n) ≠ ""%string → 0 < now_us → 0 < next_message_sequence (ws s) →
  next_message_sequence (ws s) ≠ kMaxUint64 →
  let id := mkSharedEventId (local_endpoint_uid (ws s)) (next_message_sequence (ws s)) in
  let v := mkMessage id (effective_time (local_endpoint_uid (ws s)) (room_messages r) now_us)
             (draft (fields n)) in
  SubmitDraft s entry now_us clock =
    (s ← commit_workspace s (MessageSequenceReservedEvent (next_message_sequence (ws s)))
           (clock 0%nat);
     let s := persist s in
     r ← CommitShared r (created r (message_event v)) (message_id v) (mkSharedEventOrder (mts v))
           (clock 1%nat);
     let s := persist (set_model s (with_room (model s) rm r)) in
     s ← commit_entry s entry (DraftChangedEvent "") (clock 2%nat);
     Some (id, persist s)).
Proof.
  intros He Hrm Hr Hl%String.eqb_neq Hd%String.eqb_neq Hn Hs Hm%Z.eqb_neq. cbv zeta.
  unfold SubmitDraft. rewrite He. cbn [mbind option_bind].
  rewrite Hrm, Hl, Hd, Hm, (proj2 (Z.eqb_neq now_us 0)), (proj2 (Z.eqb_neq _ 0)) by lia.
  cbn [orb]. rewrite Hr. done.
Qed.

(** The models that sending goes through: the sequence reserved, the message in the room,
    the draft cleared. *)
Lemma SubmitDraft_models k s entry n rm r now_us clock :
  0 ≤ k → chat_ok me (k + 1) (model s) → clock_ok (k + 1) clock → me ≠ ""%string →
  local_endpoint_uid (ws s) = me → entries (model s) !! entry = Some n →
  room (fields n) = Some rm → rooms (model s) !! rm = Some r → draft (fields n) ≠ ""%string →
  0 < now_us → now_us + k < kMaxUint64 → next_message_sequence (ws s) ≠ kMaxUint64 →
  let id := mkSharedEventId me (next_message_sequence (ws s)) in
  ∃ w r' n' t, let m1 := with_workspace (model s) w in
    let m2 := with_room m1 rm r' in let m3 := with_entry m2 entry n' in
    SubmitDraft s entry now_us clock =
      Some (id, persist (set_model (persist (set_model (persist (set_model s m1)) m2)) m3)) ∧
    chat_ok me k m1 ∧ chat_ok me k m2 ∧ chat_ok me k m3 ∧
    extends (model s) m1 ∧ extends m1 m2 ∧ extends m2 m3 ∧
    next_message_sequence (fields w) = next_message_sequence (ws s) + 1 ∧
    fields n' = Apply_Entry (fields n) (DraftChangedEvent "") ∧ now_us ≤ t ∧
    room_messages r' ≡ₚ mkMessage id t (draft (fields n)) :: room_messages r ∧
    filter (own me) (room_messages r') =
      filter (own me) (room_messages r) ++ [mkMessage id t (draft (fields n))].
Proof.
  intros Hk Hok Hclock Hme Hlocal Hentry Hroom Hr Hdraft Hnow Hfar Hseq id.
  pose proof (ws_sequence _ _ _ (chat_fields _ _ _ Hok)) as Hs.
  rewrite (SubmitDraft_unfold s entry n rm r) by (rewrite ?Hlocal; done || lia).
  rewrite Hlocal. fold id. destruct (chat_rooms _ _ _ Hok rm r Hr) as [Hrok Hids].
  destruct (effective_time_spec k (room_messages r) now_us Hk Hnow Hfar (room_own _ _ _ Hrok))
    as (Ht1 & Ht2 & Ht3). set (t := effective_time me (room_messages r) now_us) in *.
  set (v := mkMessage id t (draft (fields n))).
  destruct (reserve_ok k s (clock 0%nat)) as (w & -> & He1 & Hok1 & Hw); [done|done|apply Hclock|done|].
  cbn [mbind option_bind]. set (m1 := with_workspace (model s) w) in *.
  assert (acceptable v) as Ha.
  { intros a. cbn. apply String.eqb_neq in Hme, Hdraft. rewrite Hme, Hdraft.
    rewrite !(proj2 (Z.eqb_neq _ 0)) by lia. done. }
  destruct (commit_message k m1 rm r v (clock 1%nat)) as (r' & -> & Hok2 & Hperm & Hown);
    [done|done|done|done|done|done|cbn; lia|done|done|done|cbn; lia|].
  cbn [mbind option_bind]. rewrite model_persist. cbn [model set_model].
  set (m2 := with_room m1 rm r') in *. set (s2 := persist (set_model _ m2)).
  assert (model s2 = m2) as Hm2 by apply model_persist.
  destruct (chat_entries _ _ _ Hok entry n Hentry) as [Hbn _].
  pose proof (chat_entries _ _ _ Hok2 entry n Hentry) as [_ Hbd]. rewrite <-Hm2 in Hok2, Hbd.
  destruct (commit_entry_ok me k s2 entry n (DraftChangedEvent "") (clock 2%nat))
    as (n' & -> & Hn' & He3 & Hok3);
    [done|done|done|apply Hclock|by rewrite Hm2|done|exact Hbd|done|].
  cbn [mbind option_bind]. rewrite Hm2 in *.
  exists w, r', n', t. cbv zeta. split; [reflexivity|].
  repeat (split; [first [done|apply extends_room]|]). done.
Qed.

(** C23. Sending the draft of an entry with a room completes, whatever the clock says: the
    sequence number of the message is reserved and persisted before any room has the
    message, and every model that is persisted from then on has it reserved, so that a
    restart never uses the identity again; the message enters the room after all earlier
    messages of this endpoint, at a time not before the clock; the draft is cleared last. *)
Theorem SubmitDraft_sends k s entry n rm r now_us clock
    (Hk : 0 ≤ k) (Hok : chat_ok me (k + 1) (model s)) (Hclock : clock_ok (k + 1) clock)
    (Hp : persists s = true) (Hme : me ≠ ""%string) (Hlocal : local_endpoint_uid (ws s) = me)
    (Hentry : entries (model s) !! entry = Some n) (Hroom : room (fields n) = Some rm)
    (Hr : rooms (model s) !! rm = Some r) (Hdraft : draft (fields n) ≠ ""%string)
    (Hnow : 0 < now_us) (Hfar : now_us + k < kMaxUint64)
    (Hseq : next_message_sequence (ws s) ≠ kMaxUint64) :
  let id := mkSharedEventId me (next_message_sequence (ws s)) in
  ∃ s' m1 m2 r' n' t, SubmitDraft s entry now_us clock = Some (id, s') ∧
    persisted s' = persisted s ++ [m1; m2; model s'] ∧
    Forall (λ m, chat_ok me k m ∧
      next_message_sequence (fields (workspace m)) = next_message_sequence (ws s) + 1)
      [m1; m2; model s'] ∧
    rooms m1 = rooms (model s) ∧ entries m1 = entries (model s) ∧
    rooms m2 = <[rm := r']> (rooms (model s)) ∧ entries m2 = entries (model s) ∧
    rooms (model s') = rooms m2 ∧ entries (model s') = <[entry := n']> (entries (model s)) ∧
    fields n' = Apply_Entry (fields n) (DraftChangedEvent "") ∧ now_us ≤ t ∧
    room_messages r' ≡ₚ mkMessage id t (draft (fields n)) :: room_messages r ∧
    filter (own me) (room_messages r') =
      filter (own me) (room_messages r) ++ [mkMessage id t (draft (fields n))].
Proof.
  intros id. destruct (SubmitDraft_models k s entry n rm r now_us clock) as
    (w & r' & n' & t & -> & Hok1 & Hok2 & Hok3 & _ & _ & _ & Hw & Hn' & Ht & Hperm & Hown);
    [done..|].
  unfold persist at 2 3. cbn [persists set_model]. rewrite Hp. cbn [persists set_model model].
  unfold persist. cbn [persists set_model model persisted].
  eexists _, _, _, r', n', t. split; [reflexivity|]. cbn [model persisted].
  split; [by rewrite <-!app_assoc|]. split; [by do 3 (constructor; [by split|])|].
  repeat (split; [done|]). done.
Qed.
End submit.

(** ** Runs of commands *)

(** What happens to the model: the commands, and messages that arrive from peers. *)
Inductive Command :=
| CConfigureDemoRole (role : DemoRole)
| CSetHostUidInput (text : string)
| COpenOrSelectChat (uid : string) (new_id base_id : Z)
| CBindChat (entry : Z) (link rm : option ObjPtr)
| CBindLocalEndpoint (uid : string)
| CSetDraft (entry : Z) (text : string)
| CSetScroll (entry : Z) (anchor : ScrollAnchor)
| CSetDesktopBounds (bounds : DesktopBounds)
| CSelectChat (entry_id : Z)
| CSubmitDraft (entry now_us : Z)
| CReceive (rm : Z) (v : MessageValue).

Section runs.
  Context {ids : AetherIds} {rep : Replica} {links : ChatLinks}.
  Implicit Types (m : ChatModel) (s : ChatState) (k : Z) (clock : nat → Readings).

Abbreviation ws s := (fields (workspace (model s))).

Definition receive s (rm : Z) (v : MessageValue) (now : Readings) : option (bool * ChatState) :=
  r ← rooms (model s) !! rm;
  '(ok, r) ← TryInsertShared r (created r (message_event v)) (message_id v)
                (mkSharedEventOrder (message_timestamp_us v)) now;
  Some (ok : bool, set_model s (with_room (model s) rm r)).

Definition execute s (c : Command) clock : option ChatState :=
  match c with
  | CConfigureDemoRole role => snd <$> ConfigureDemoRole s role clock
  | CSetHostUidInput text => snd <$> SetHostUidInput s text clock
  | COpenOrSelectChat uid new_id base_id => snd <$> OpenOrSelectChat s uid new_id base_id clock
  | CBindChat entry link rm => snd <$> BindChat s entry link rm clock
  | CBindLocalEndpoint uid => snd <$> BindLocalEndpoint s uid clock
  | CSetDraft entry text => snd <$> SetDraft s entry text clock
  | CSetScroll entry anchor => snd <$> SetScroll s entry anchor clock
  | CSetDesktopBounds bounds => snd <$> SetDesktopBounds s bounds clock
  | CSelectChat id => snd <$> SelectChat s id clock
  | CSubmitDraft entry now_us => snd <$> SubmitDraft s entry now_us clock
  | CReceive rm v => snd <$> receive s rm v (clock 0%nat)
  end.

(** What the application gives to the commands: a text of the size the model accepts,
    identifiers of a fresh object, objects that are there, the uid of this device, a clock
    in range, and messages of peers that a room accepts. *)
Definition command_ok (me : string) k m (c : Command) : Prop :=
  match c with
  | CSetHostUidInput text => Z.of_nat (String.length text) ≤ 128
  | COpenOrSelectChat _ new_id base_id =>
      entries m !! new_id = None ∧ ObjId_is_valid new_id = true ∧ base_id ≠ new_id
  | CBindChat entry _ rm =>
      is_Some (entries m !! entry) ∧ ∀ p, rm = Some p → is_Some (rooms m !! ptr_id p)
  | CBindLocalEndpoint uid => uid = me
  | CSetDraft entry _ | CSetScroll entry _ => is_Some (entries m !! entry)
  | CSubmitDraft entry now_us =>
      is_Some (entries m !! entry) ∧ 0 ≤ now_us ∧ now_us + k < kMaxUint64
  | CReceive rm v => is_Some (rooms m !! rm) ∧ acceptable v ∧ ¬ own me v
  | CConfigureDemoRole _ | CSetDesktopBounds _ | CSelectChat _ => True
  end.

Lemma completes_execute {A} me k s (c : option (A * ChatState)) :
  completes me k s c → ∃ s', snd <$> c = Some s' ∧ result_ok me k s s'.
Proof. intros (a & s' & -> & H). by exists s'. Qed.

Lemma SubmitDraft_completes me k s entry now_us clock :
  0 ≤ k → chat_ok me (k + 1) (model s) → clock_ok (k + 1) clock → me ≠ ""%string →
  is_Some (entries (model s) !! entry) → 0 ≤ now_us → now_us + k < kMaxUint64 →
  completes me k s (SubmitDraft s entry now_us clock).
Proof.
  intros Hk Hok Hclock Hme [n Hentry] Hpos Hfar.
  destruct (chat_entries _ _ _ Hok entry n Hentry) as [_ [Hb _]].
  destruct (ws_local _ _ _ (chat_fields _ _ _ Hok)) as [Hl|Hl];
    (destruct (room (fields n)) as [rm|] eqn:Hroom;
      [|unfold SubmitDraft; rewrite Hentry; cbn [mbind option_bind]; rewrite Hroom;
        by apply completes_refl]).
  { unfold SubmitDraft. rewrite Hentry. cbn [mbind option_bind]. rewrite Hroom, Hl.
    by apply completes_refl. }
  destruct (Hb rm eq_refl) as [r Hr].
  destruct (String.eqb (draft (fields n)) "" || (now_us =? 0) ||
    (next_message_sequence (ws s) =? kMaxUint64)) eqn:Hg.
  { unfold SubmitDraft. rewrite Hentry. cbn [mbind option_bind]. rewrite Hroom.
    match goal with |- completes _ _ _ (if ?g then _ else _) => assert (g = true) as -> end.
    { by destruct (String.eqb (draft _) ""), (now_us =? 0), (_ =? kMaxUint64);
        rewrite ?orb_true_r. }
    by apply completes_refl. }
  breflect. destruct (SubmitDraft_models me k s entry n rm r now_us clock) as
    (w & r' & n' & t & -> & Hok1 & Hok2 & Hok3 & He1 & He2 & He3 & _);
    [done|done|done|done|done|done|done|done|by apply String.eqb_neq|lia|done|done|].
  eexists _, _. split; [reflexivity|]. apply persist_ok, set_model_after; [|done|by rewrite model_persist].
  apply persist_ok, set_model_after; [|done|by rewrite model_persist].
  by apply persist_ok, set_model_ok.
Qed.

Lemma receive_completes me k s rm v now :
  0 ≤ k → chat_ok me (k + 1) (model s) → is_Some (rooms (model s) !! rm) → acceptable v →
  ¬ own me v → completes me k s (receive s rm v now).
Proof.
  intros Hk Hok [r Hr] Ha Hv. unfold receive. rewrite Hr. cbn [mbind option_bind].
  destruct (chat_rooms _ _ _ Hok rm r Hr) as [Hrok Hids].
  assert (chat_ok me k (model s)) as Hok0 by (by apply (chat_ok_weaken _ (k + 1)); [lia|]).
  assert (∃ ok r', TryInsertShared r (created r (message_event v)) (message_id v)
      (mkSharedEventOrder (message_timestamp_us v)) now = Some (ok, r') ∧ room_ok me k r' ∧
      identities_below me (next_message_sequence (ws s)) r') as (ok & r' & -> & Hr' & Hb').
  { destruct (decide (Exists (λ q, identity q = message_id v) (journal r))) as [Hd|Hd].
    - exists false, r. rewrite TryInsertShared_message by done.
      split; [|by split; [by apply (room_ok_weaken _ (k + 1)); [lia|]|]].
      apply TryInsertEvent_refused. right. apply acceptable_id in Ha as [Ho _].
      unfold is_duplicate, identity_in_journal, HasSharedIdentity. cbn.
      apply String.eqb_neq in Ho as Ho'. rewrite Ho'. cbn. apply existsb_exists.
      apply list.Exists_exists in Hd as (q & Hq & Hi). exists q.
      split; [by apply list_elem_of_In|]. rewrite SharedEventId_eqb_spec, Hi, Ho'. cbn.
      by apply bool_decide_eq_true_2.
    - destruct (insert_message me k r v now Hk Hrok Ha) as (r' & l1 & l2 & Hins & Hr' & Hj & _);
        [done| |].
      { intros q Hq Hi. apply Hd, list.Exists_exists. by exists q. }
      exists true, r'. split; [done|]. split; [done|]. intros q Hq Ho.
      destruct (Hj q Hq) as [Hq'|Hi]; [by apply Hids|]. destruct Hv. unfold own. by rewrite <-Hi. }
  cbn [mbind option_bind]. eexists _, _. split; [reflexivity|].
  apply set_model_ok; [by apply (chat_ok_room _ _ _ _ _ r)|apply extends_room].
Qed.

Lemma execute_ok me k s c clock :
  me ≠ ""%string → 0 ≤ k → chat_ok me (k + 2) (model s) → clock_ok (k + 2) clock →
  command_ok me k (model s) c → ∃ s', execute s c clock = Some s' ∧ result_ok me k s s'.
Proof.
  intros Hme Hk Hok2 Hc2 Hc.
  assert (chat_ok me (k + 1) (model s)) as Hok by (by apply (chat_ok_weaken _ (k + 2)); [lia|]).
  assert (clock_ok (k + 1) clock) as Hclock by (intros i j; specialize (Hc2 i j); lia).
  destruct c as [role|text|uid new_id base_id|entry link rm|uid|entry text|entry anchor|b|id
    |entry now_us|rm v]; cbn [execute command_ok] in *.
  - by apply completes_execute, ConfigureDemoRole_completes.
  - by apply completes_execute, SetHostUidInput_completes.
  - destruct Hc as (H1 & H2 & H3).
    destruct (decide (TrimAsciiWhitespace uid = ""%string)) as [He|He].
    + exists s. unfold OpenOrSelectChat. rewrite He. split; [done|].
      by apply result_ok_refl, (chat_ok_weaken _ (k + 2)); [lia|].
    + destruct (OpenOrSelectChat_selects me k s uid new_id base_id clock) as (id & s' & -> & Hr & _);
        [done..|]. by exists s'.
  - destruct Hc as [[n Hn] Hrm]. by eapply completes_execute, BindChat_completes.
  - subst uid. by apply completes_execute, BindLocalEndpoint_completes.
  - destruct Hc as [n Hn]. by eapply completes_execute, SetDraft_completes.
  - destruct Hc as [n Hn]. by eapply completes_execute, SetScroll_completes.
  - by apply completes_execute, SetDesktopBounds_completes.
  - by apply completes_execute, SelectChat_completes.
  - destruct Hc as (H1 & H2 & H3). by apply completes_execute, SubmitDraft_completes.
  - destruct Hc as (H1 & H2 & H3). by apply completes_execute, receive_completes.
Qed.

(** What the application gives to the commands whatever the user types: the text of the host
    input may have any size. *)
Definition command_given (me : string) k m (c : Command) : Prop :=
  match c with CSetHostUidInput _ => True | _ => command_ok me k m c end.

(** The one command whose assertion a user can make fail: a client's host input that has
    changed and is longer than the event accepts. *)
Definition host_uid_too_long s (c : Command) : Prop :=
  ∃ text, c = CSetHostUidInput text ∧ demo_role (ws s) = kClient ∧ host_uid_input (ws s) ≠ text ∧
    128 < Z.of_nat (String.length text).

Lemma execute_given me k s c clock :
  me ≠ ""%string → 0 ≤ k → chat_ok me (k + 2) (model s) → clock_ok (k + 2) clock →
  command_given me k (model s) c →
  (∃ s', execute s c clock = Some s' ∧ result_ok me k s s') ∨
  (host_uid_too_long s c ∧ execute s c clock = None).
Proof.
  intros Hme Hk Hok Hclock Hc. destruct c as [|text| | | | | | | | |];
    try (left; by apply execute_ok).
  destruct (Z.le_gt_cases (Z.of_nat (String.length text)) 128) as [Hle|Hgt].
  { left. by apply execute_ok. }
  cbn [execute]. unfold SetHostUidInput. case_bool_decide as Hrole.
  { left. exists s. split; [done|]. by apply result_ok_refl, (chat_ok_weaken _ (k + 2)); [lia|]. }
  assert (demo_role (ws s) = kClient) as Hclient by (by destruct (demo_role (ws s)); destruct Hrole).
  destruct (String.eqb_spec (host_uid_input (ws s)) text) as [Heq|Hne].
  { left. exists s. split; [done|]. by apply result_ok_refl, (chat_ok_weaken _ (k + 2)); [lia|]. }
  right. split; [by exists text|].
  unfold commit_workspace_and_persist, commit_workspace, Commit. cbn [ev_is_valid ev_object created].
  assert (CanApply_Workspace (ws s) (HostUidInputChangedEvent text) = false) as Hcan.
  { cbn. rewrite (proj2 (Z.leb_gt _ _)) by done. by rewrite andb_false_r || done. }
  change (CanApply_Workspace (ws s) (HostUidInputChangedEvent text)) with
    (CanApplyTo (ws s) (HostUidInputChangedEvent text)) in Hcan. by rewrite Hcan.
Qed.

(** One command after the other, each with the clock of its own. *)
Fixpoint execute_all s (l : list (Command * (nat → Readings))) : option ChatState :=
  match l with
  | [] => Some s
  | (c, clock) :: l => s ← execute s c clock; execute_all s l
  end.

(** The arguments fit the state that each command finds. *)
Fixpoint commands_given (me : string) s (l : list (Command * (nat → Readings))) : Prop :=
  match l with
  | [] => True
  | (c, clock) :: l =>
      clock_ok (2 * (zlen l + 1)) clock ∧ command_given me (2 * zlen l) (model s) c ∧
      ∀ s', execute s c clock = Some s' → commands_given me s' l
  end.

(** C24. Whatever commands and messages of peers follow each other, as long as neither the
    timestamps nor the sizes of the journals are exhausted, no assertion fails but one: that
    of a client's host input that is longer than 128 bytes, which no check keeps from the
    event.  The commands before it, or all of them, complete, and the model after them and
    each model that was persisted on the way, from which a restart goes on, keeps the
    invariant: one entry for each peer, the selection one of them, every node current, and
    no message of this endpoint numbered beyond the sequence.  What was there is never
    undone: entries stay with their peers and rooms, and the role. *)
Theorem execute_all_keeps_ok me s l
    (Hme : me ≠ ""%string) (Hok : chat_ok me (2 * zlen l) (model s))
    (Hl : commands_given me s l) :
  ∃ l1 l2 s', l = l1 ++ l2 ∧ execute_all s l1 = Some s' ∧
    chat_ok me 0 (model s') ∧ extends (model s) (model s') ∧
    (∃ saved, persisted s' = persisted s ++ saved ∧ Forall (chat_ok me 0) saved) ∧
    (l2 = [] ∨ ∃ c clock l3, l2 = (c, clock) :: l3 ∧ host_uid_too_long s' c ∧
       execute s' c clock = None).
Proof.
  revert s Hok Hl. induction l as [|[c clock] l IH]; intros s Hok Hl.
  { exists [], [], s. split_and!; [done..|apply extends_refl| |by left].
    exists []. by rewrite app_nil_r. }
  destruct Hl as (Hclock & Hc & Hl). rewrite zlen_cons in Hok. pose proof (zlen_nonneg l).
  destruct (execute_given me (2 * zlen l) s c clock) as
    [(s1 & H1 & _ & Hok1 & He1 & saved1 & Hl1 & Hall1)|[Hlong Hnone]];
    [done|lia|by replace (2 * zlen l + 2) with (2 * (1 + zlen l)) by lia
     |by replace (2 * zlen l + 2) with (2 * (zlen l + 1)) by lia|done| |].
  - destruct (IH s1 Hok1 (Hl s1 H1)) as
      (l1 & l2 & s' & -> & Hs' & Hok' & He2 & (saved2 & Hl2 & Hall2) & Hend).
    exists ((c, clock) :: l1), l2, s'. cbn [execute_all]. rewrite H1.
    split_and!; [done..|by eapply extends_trans| |done].
    exists (saved1 ++ saved2). split; [by rewrite Hl2, Hl1, app_assoc|]. apply list.Forall_app.
    split; [|done]. eapply list.Forall_impl; [exact Hall1|]. intros m Hm.
    eapply (chat_ok_weaken _ (2 * zlen (l1 ++ l2))), Hm. pose proof (zlen_nonneg (l1 ++ l2)). lia.
  - exists [], ((c, clock) :: l), s. split_and!; [done..| |apply extends_refl| |right].
    + eapply (chat_ok_weaken _ (2 * (1 + zlen l))), Hok. lia.
    + exists []. by rewrite app_nil_r.
    + by exists c, clock, l.
Qed.
End runs.
