(* ===== verification/ChatModelExamples.v ===== *)
(** * A chat, step by step

    A workspace with one entry bound to a room that has messages of both sides: the
    witnesses of the theorems on the chat model, and runs of commands by computation. *)
From S2P Require Import Prelude Aether SharedEvent Node LinkSync NodeTheory SharedNode.
From S2P Require Import NodeBudget SharedNodeTheory ChatModel ChatModelTheory.

#[local] Existing Instance Demo.ids.

Definition chat_generate (n : nat) : Z := 1000 + Z.of_nat n.
Lemma chat_generate_distinct (i j : nat) : i ≠ j → chat_generate i ≠ chat_generate j.
Proof. unfold chat_generate. lia. Qed.

#[local] Instance chat_replica : Replica := {|
  replica_domain := 1;
  GenerateUnique := chat_generate;
  GenerateUnique_distinct := chat_generate_distinct
|}.

(** Link 40 is that of the peer. *)
#[local] Instance chat_links : ChatLinks := {| EndpointUid id := if id =? 40 then "bob" else "" |}.

Definition from_alice : MessageValue := mkMessage (mkSharedEventId "alice" 1) 500 "hello".
Definition from_bob : MessageValue := mkMessage (mkSharedEventId "bob" 1) 2000 "hi".

Definition message_record_of (v : MessageValue) : EventRecord (SharedNodeEvent ChatRoomEvent) :=
  mkEventRecord (mkEventPtr true (Some (message_event v)) (Some 1)) (message_id v)
    (mkSharedEventOrder (message_timestamp_us v)) 1.

Definition room_fields (l : list MessageValue) : SharedFields ChatRoomFields :=
  mkShared [] [] (mkRoom l) 0.

Definition chat_room : ChatRoom :=
  mkNode 30 (Some 1) (Some (mkBase 31 true (room_fields [])))
    [message_record_of from_alice; message_record_of from_bob]
    (room_fields [from_alice; from_bob]) 1 kJournalFullyMaterialized
    JournalRetentionPolicy.default true false None [].

Definition bounds : DesktopBounds := mkBounds false 0 0 1000 700 false.

Definition bob : ChatEntryFields :=
  mkEntry "bob" "Client bob" (Some 40) (Some 30) "how are you?" default_scroll.

Definition chat_start : ChatModel :=
  mkChat (fresh 10 (mkWorkspace kHost "" "alice" 2 [Some 20] 20 bounds))
    {[20 := fresh 20 bob]} {[30 := chat_room]}.

Definition chat_state : ChatState := mkState chat_start true [].

Lemma chat_room_ok k : k < 1000000 → room_ok "alice" k chat_room.
Proof.
  intros Hk. split.
  - split; [done| |by left]. eexists. split; [vm_compute; reflexivity|by split].
  - repeat constructor; discriminate.
  - change (zlen (journal chat_room)) with 2. unfold kSizeMax. lia.
  - by eexists.
  - constructor; [by intros v [= <-]|]. constructor; [by intros v [= <-]|constructor].
  - constructor; [|constructor; [|constructor]]; cbn; unfold kMaxUint64; [lia|].
    by intros ?.
Qed.

Lemma chat_start_ok k : k < 1000000 → chat_ok "alice" k chat_start.
Proof.
  intros Hk. assert (k < kSizeMax) by (unfold kSizeMax; lia). split.
  - by apply fresh_budget.
  - split; cbn.
    + by right.
    + unfold kMaxUint64. lia.
    + intros p ->%list_elem_of_singleton. split; [by eexists|by exists 20].
    + apply list.NoDup_singleton.
    + right. by left.
  - apply map_Forall_singleton. split; [by apply fresh_budget|]. split_and!; cbn.
    + intros rm [= <-]. by eexists.
    + intros l [= <-]. reflexivity.
    + done.
  - apply map_Forall_singleton. split; [by apply chat_room_ok|]. intros r Hr.
    cbn in Hr. apply elem_of_cons in Hr as [->|Hr%list_elem_of_singleton]; [by cbn|by subst].
  - by apply map_Forall_singleton.
Qed.

Definition at_time (t : Z) : nat → Readings := λ _ _, t.
Lemma at_time_ok t k : 0 < t → t + k < kMaxUint64 → clock_ok k (at_time t).
Proof. by intros ?? i j. Qed.

(** Carol is new, Bob is there already. *)
Lemma OpenOrSelectChat_opens_once_witness :
  ∃ id s', OpenOrSelectChat chat_state " carol " 50 51 (at_time 1000) = Some (Some id, s') ∧
    OpenOrSelectChat s' "carol" 60 61 (at_time 7) = Some (Some id, s').
Proof.
  destruct (OpenOrSelectChat_opens_once "alice" 10 chat_state " carol " 50 51 (at_time 1000))
    as (id & s' & Hs' & _ & _ & _ & Hagain).
  - discriminate.
  - apply chat_start_ok. reflexivity.
  - apply at_time_ok; reflexivity.
  - vm_compute. discriminate.
  - vm_compute. reflexivity.
  - reflexivity.
  - discriminate.
  - exists id, s'. split; [exact Hs'|]. apply Hagain. vm_compute. reflexivity.
Defined.

(** The clock stands behind the last message of this endpoint. *)
Lemma SubmitDraft_sends_witness :
  ∃ s' r' t, SubmitDraft chat_state 20 300 (at_time 1000) = Some (mkSharedEventId "alice" 2, s') ∧
    rooms (model s') !! 30 = Some r' ∧ 300 ≤ t ∧
    filter (own "alice") (room_messages r') =
      [from_alice; mkMessage (mkSharedEventId "alice" 2) t "how are you?"].
Proof.
  destruct (SubmitDraft_sends "alice" 10 chat_state 20 (fresh 20 bob) 30 chat_room 300 (at_time 1000))
    as (s' & m1 & m2 & r' & n' & t & Hs' & _ & _ & _ & _ & Hm2 & _ & Hm3 & _ & _ & Ht & _ & Hown).
  - discriminate.
  - apply chat_start_ok. reflexivity.
  - apply at_time_ok; reflexivity.
  - reflexivity.
  - discriminate.
  - reflexivity.
  - reflexivity.
  - reflexivity.
  - reflexivity.
  - discriminate.
  - reflexivity.
  - reflexivity.
  - discriminate.
  - exists s', r', t. split; [exact Hs'|]. rewrite Hm3, Hm2.
    split; [apply (lookup_insert_eq (M := gmap Z))|]. split; [exact Ht|]. exact Hown.
Defined.

(** The message is one later than the last of Alice, and before that of Bob. *)
Example submitted_timeline :
  (λ r, room_messages r) <$> (('(_, s) ← SubmitDraft chat_state 20 300 (at_time 1000);
    rooms (model s) !! 30)) =
  Some [from_alice; mkMessage (mkSharedEventId "alice" 2) 501 "how are you?"; from_bob].
Proof. vm_compute. reflexivity. Qed.

(** A host input that is longer than the event accepts fails the assertion of the commit. *)
Example long_host_input :
  SetHostUidInput (set_model chat_state (with_workspace chat_start
    (fresh 10 (mkWorkspace kClient "" "alice" 2 [Some 20] 20 bounds))))
    (String.string_of_list_ascii (repeat Ascii.zero 129)) (at_time 1000) = None.
Proof. vm_compute. reflexivity. Qed.

Definition again : MessageValue := mkMessage (mkSharedEventId "bob" 2) 400 "fine".

Definition conversation : list (Command * (nat → Readings)) :=
  [(CSubmitDraft 20 300, at_time 1000); (CSetDraft 20 "bye", at_time 900);
   (CReceive 30 again, at_time 1000)].

Lemma conversation_ok : commands_given "alice" chat_state conversation.
Proof.
  cbn [commands_given conversation]. split; [by apply at_time_ok|]. split.
  { split; [by eexists|done]. }
  intros s1 H1. split; [by apply at_time_ok|]. vm_compute in H1. injection H1 as <-. split.
  { vm_compute. by eexists. }
  intros s2 H2. split; [by apply at_time_ok|]. vm_compute in H2. injection H2 as <-. split; [|done].
  split; [vm_compute; by eexists|]. split; [done|]. intros [=].
Qed.

Lemma execute_all_keeps_ok_witness :
  ∃ s', execute_all chat_state conversation = Some s' ∧ chat_ok "alice" 0 (model s').
Proof.
  destruct (execute_all_keeps_ok "alice" chat_state conversation)
    as (l1 & l2 & s' & El & Hs' & Hok & _ & _ & Hend).
  - discriminate.
  - apply chat_start_ok. reflexivity.
  - exact conversation_ok.
  - destruct Hend as [->|(c & clock & l3 & -> & (text & -> & _) & _)].
    + exists s'. rewrite El, app_nil_r. split; [exact Hs'|exact Hok].
    + exfalso. unfold conversation in El.
      do 3 (destruct l1 as [|? l1]; [discriminate El|]; injection El as _ El).
      destruct l1; discriminate El.
Defined.

(** The host input of [long_host_input] among other commands of a client: what comes before
    completes. *)
Definition client_state : ChatState :=
  set_model chat_state (with_workspace chat_start
    (fresh 10 (mkWorkspace kClient "" "alice" 2 [Some 20] 20 bounds))).
Example typed_too_long :
  let text := String.string_of_list_ascii (repeat Ascii.zero 129) in
  let l := [(CSetDraft 20 "hi", at_time 900); (CSetHostUidInput text, at_time 1000)] in
  bool_decide (is_Some (execute_all client_state (take 1 l))) = true ∧
  bool_decide (is_Some (execute_all client_state l)) = false.
Proof. vm_compute. split; reflexivity. Qed.
