(* ===== verification/ChatLaunch.v ===== *)
(** * The command line of the chat demo

    Models examples/chat_demo/common/chat_launch_options.h and .cpp, and how
    examples/chat_demo/windows/main.cpp and linux/main.cpp use the result: which command lines
    are accepted, with which options, and what is reported for the others. *)
From S2P Require Import Prelude NativeBytes ChatModel.

Record ChatLaunchOptions := mkOptions {
  role : DemoRole;
  state_dir : option string;
  host_uid_prefill : option string;
  show_help : bool
}.
Definition new_options : ChatLaunchOptions := mkOptions kUnconfigured None None false.

(** [ok] with an empty [error_message]: [inr]. *)
Definition ParseChatLaunchOptionsResult : Type := string + ChatLaunchOptions.

Local Open Scope string_scope.

Definition IsRetiredFlag (arg : string) : bool :=
  String.eqb arg "--peer-admin-id" || String.eqb arg "--peer-aether-uid" ||
  String.eqb arg "--peer-name" || String.eqb arg "--open-peer" || String.eqb arg "--admin-id".

(** What the loop has seen. *)
Record Seen := mkSeen { saw_host : bool; saw_client : bool; saw_state_dir : bool; saw_host_uid : bool }.
Definition nothing_seen : Seen := mkSeen false false false false.

(** The loop; an option with a value advances the index past it. *)
Fixpoint parse_args (args : list string) (s : Seen) (o : ChatLaunchOptions)
    : string + (Seen * ChatLaunchOptions) :=
  match args with
  | [] => inr (s, o)
  | arg :: args =>
      if String.eqb arg "--help" || String.eqb arg "-h" then
        parse_args args s (mkOptions (role o) (state_dir o) (host_uid_prefill o) true)
      else if String.eqb arg "--host" then
        parse_args args (mkSeen true (saw_client s) (saw_state_dir s) (saw_host_uid s)) o
      else if String.eqb arg "--client" then
        parse_args args (mkSeen (saw_host s) true (saw_state_dir s) (saw_host_uid s)) o
      else if String.eqb arg "--state-dir" then
        if saw_state_dir s then inl "Repeated option: --state-dir"
        else match args with
             | [] => inl "Missing value for --state-dir"
             | v :: args =>
                 parse_args args (mkSeen (saw_host s) (saw_client s) true (saw_host_uid s))
                   (mkOptions (role o) (Some v) (host_uid_prefill o) (show_help o))
             end
      else if String.eqb arg "--host-uid" then
        if saw_host_uid s then inl "Repeated option: --host-uid"
        else match args with
             | [] => inl "Missing value for --host-uid"
             | v :: args =>
                 parse_args args (mkSeen (saw_host s) (saw_client s) (saw_state_dir s) true)
                   (mkOptions (role o) (state_dir o) (Some v) (show_help o))
             end
      else if IsRetiredFlag arg then
        inl ("Unsupported option: " ++ arg ++ " (use --host/--client and --host-uid)")
      else inl ("Unknown option: " ++ arg)
  end.

(** The checks after the loop. *)
Definition check_options (s : Seen) (o : ChatLaunchOptions) : ParseChatLaunchOptionsResult :=
  if show_help o then inr o
  else if saw_host s && saw_client s then inl "Specify exactly one of --host or --client"
  else if negb (saw_host s) && negb (saw_client s) then inl "Specify --host or --client"
  else
    let r := if saw_host s then kHost else kClient in
    if bool_decide (is_Some (host_uid_prefill o)) && negb (bool_decide (r = kClient))
    then inl "--host-uid is allowed only with --client"
    else inr (mkOptions r (state_dir o) (host_uid_prefill o) (show_help o)).

Definition ParseChatLaunchOptions (args : list string) : ParseChatLaunchOptionsResult :=
  match parse_args args nothing_seen new_options with
  | inl e => inl e
  | inr (s, o) => check_options s o
  end.

(** [main]'s arguments: the name of the program is skipped, a null pointer is an empty text. *)
Definition ParseChatLaunchOptions_argv (argv : list (option string)) : ParseChatLaunchOptionsResult :=
  ParseChatLaunchOptions (default "" <$> tail argv).

(** ** The default directory *)

(** [root / name] for a relative name. *)
Definition ends_with_slash (s : string) : bool :=
  bool_decide (list.last (String.list_ascii_of_string s) = Some (Ascii.ascii_of_nat 47)).
Definition path_append (root name : string) : string :=
  if String.eqb root "" || ends_with_slash root then root ++ name else root ++ "/" ++ name.

(** [xdg], [home]: the variables of the environment; [cwd]: the current directory. *)
Definition DefaultChatExampleStateDir (xdg home : option string) (cwd : string) (r : DemoRole)
    : string :=
  let set v := match v with Some x => negb (String.eqb x "") | None => false end in
  let root :=
    if set xdg then default "" xdg
    else if set home then path_append (path_append (default "" home) ".local") "share"
    else cwd in
  path_append (path_append (path_append root "App Traverse") "ChatExample")
    (if bool_decide (r = kClient) then "client" else "host").

(** ** [--dump-parsed-launch] of the Windows program *)

(** The arguments without the flag and its value, and the value; [inl]: the value is missing. *)
Fixpoint ConsumeDumpParsedLaunchFlag (args : list string) : string + (list string * option string) :=
  match args with
  | [] => inr ([], None)
  | arg :: rest =>
      if negb (String.eqb arg "--dump-parsed-launch") then
        match ConsumeDumpParsedLaunchFlag rest with
        | inl e => inl e
        | inr (rest, p) => inr (arg :: rest, p)
        end
      else match rest with
           | [] => inl "Missing value for --dump-parsed-launch"
           | p :: rest => inr (rest, Some p)
           end
  end.

(** The text of the dump; [default_dir]: [DefaultChatExampleStateDir]. *)
Definition WriteParsedLaunchDump (default_dir : DemoRole → string) (o : ChatLaunchOptions) : string :=
  "role=" ++ (if bool_decide (role o = kHost) then "host" else "client") ++
  String (Ascii.ascii_of_nat 10)
    ("state_dir=" ++ default (default_dir (role o)) (state_dir o) ++ String (Ascii.ascii_of_nat 10) "").

(** What [wWinMain] does once the arguments are there; [built]: they ask for the build's
    information, with the exit code. *)
Inductive Launch :=
| ExitWith (code : Z)
| ArgumentError (error : string)
| ShowUsage
| Dump (path text : string)
| RunApp (o : ChatLaunchOptions).

Definition wWinMain (built : option Z) (default_dir : DemoRole → string) (args : list string)
    : Launch :=
  match built with
  | Some code => ExitWith code
  | None =>
      match ConsumeDumpParsedLaunchFlag args with
      | inl e => ArgumentError e
      | inr (args, dump) =>
          match ParseChatLaunchOptions args with
          | inl e => ArgumentError e
          | inr o =>
              if show_help o then ShowUsage
              else match dump with
                   | Some path => Dump path (WriteParsedLaunchDump default_dir o)
                   | None => RunApp o
                   end
          end
      end
  end.

(** [main] of the Linux program. *)
Definition linux_main (argv : list (option string)) : Launch :=
  match ParseChatLaunchOptions_argv argv with
  | inl e => ArgumentError e
  | inr o => if show_help o then ShowUsage else RunApp o
  end.

(** ** The language of command lines *)

Local Open Scope list_scope.

Inductive Item :=
| Help (short : bool)
| Host
| Client
| StateDir (path : string)
| HostUid (uid : string).

Definition words (i : Item) : list string :=
  match i with
  | Help short => [if short then "-h" else "--help"]
  | Host => ["--host"]
  | Client => ["--client"]
  | StateDir p => ["--state-dir"; p]
  | HostUid u => ["--host-uid"; u]
  end.
Definition command_line (l : list Item) : list string := l ≫= words.

Definition state_dirs (l : list Item) : list string :=
  omap (λ i, match i with StateDir p => Some p | _ => None end) l.
Definition host_uids (l : list Item) : list string :=
  omap (λ i, match i with HostUid u => Some u | _ => None end) l.
Definition asks_help (l : list Item) : bool :=
  existsb (λ i, match i with Help _ => true | _ => false end) l.
Definition names_host (l : list Item) : bool :=
  existsb (λ i, match i with Host => true | _ => false end) l.
Definition names_client (l : list Item) : bool :=
  existsb (λ i, match i with Client => true | _ => false end) l.

(** An option with a value is given once at most. *)
Definition well_formed (l : list Item) : Prop :=
  (length (state_dirs l) ≤ 1)%nat ∧ (length (host_uids l) ≤ 1)%nat.

(** Help may come with anything; otherwise there is one role, and a host's uid for a client. *)
Definition sensible (l : list Item) : Prop :=
  asks_help l = true ∨
  (asks_help l = false ∧ names_host l = negb (names_client l) ∧
   (host_uids l ≠ [] → names_client l = true)).

Definition meaning (l : list Item) : ChatLaunchOptions :=
  mkOptions
    (if asks_help l then kUnconfigured else if names_host l then kHost else kClient)
    (head (state_dirs l)) (head (host_uids l)) (asks_help l).

(** ** Theorems *)

Definition seen_of (l : list Item) : Seen :=
  mkSeen (names_host l) (names_client l)
    (bool_decide (state_dirs l ≠ [])) (bool_decide (host_uids l ≠ [])).
Definition options_of (l : list Item) : ChatLaunchOptions :=
  mkOptions kUnconfigured (head (state_dirs l)) (head (host_uids l)) (asks_help l).

Lemma existsb_snoc {A} (f : A → bool) l x : existsb f (l ++ [x]) = f x || existsb f l.
Proof. rewrite existsb_app. simpl. by rewrite orb_false_r, orb_comm. Qed.

Lemma head_app_ne {A} (k l : list A) : k ≠ [] → head (k ++ l) = head k.
Proof. by destruct k. Qed.

(** One item more, at the end of those that were read. *)
Lemma parse_args_item l i args :
  well_formed (l ++ [i]) →
  parse_args (words i ++ args) (seen_of l) (options_of l) =
  parse_args args (seen_of (l ++ [i])) (options_of (l ++ [i])).
Proof.
  intros [Hd Hu]. unfold seen_of, options_of, names_host, names_client, asks_help, state_dirs, host_uids in *.
  rewrite !existsb_snoc, !omap_app in *.
  destruct i as [[]| | |p|u]; simpl in *; rewrite ?app_nil_r in *; try done.
  - destruct (omap _ l) as [|x k] eqn:Hl in Hd |- *; simpl in *; [done|].
    exfalso. rewrite length_app in Hd. simpl in Hd. lia.
  - destruct (omap (λ i, match i with HostUid u => Some u | _ => None end) l) as [|x k] eqn:Hl;
      simpl in *; [done|]. exfalso. rewrite length_app in Hu. simpl in Hu. lia.
Qed.

Lemma well_formed_app k l : well_formed (k ++ l) → well_formed k.
Proof.
  unfold well_formed, state_dirs, host_uids. rewrite !omap_app, !length_app. lia.
Qed.

Lemma parse_args_items k l :
  well_formed (k ++ l) →
  parse_args (command_line l) (seen_of k) (options_of k) = inr (seen_of (k ++ l), options_of (k ++ l)).
Proof.
  revert k. induction l as [|i l IH]; intros k Hk.
  { simpl. by rewrite app_nil_r. }
  unfold command_line. cbn [mbind list_bind].
  assert (Hi : k ++ i :: l = (k ++ [i]) ++ l) by by rewrite <-app_assoc. rewrite Hi in *.
  rewrite parse_args_item by by eapply well_formed_app. by apply IH.
Qed.

Lemma state_dirs_cons i l : state_dirs (i :: l) = state_dirs [i] ++ state_dirs l.
Proof. apply (omap_app _ [i] l). Qed.
Lemma host_uids_cons i l : host_uids (i :: l) = host_uids [i] ++ host_uids l.
Proof. apply (omap_app _ [i] l). Qed.

(** What the loop accepts is a command line of items. *)
Lemma parse_args_inv args s o r :
  parse_args args s o = inr r →
  ∃ l, args = command_line l ∧
    (saw_state_dir s = true → state_dirs l = []) ∧ (saw_host_uid s = true → host_uids l = []) ∧
    well_formed l.
Proof.
  remember (length args) as n eqn:Hn. revert args s o Hn.
  induction (lt_wf n) as [n _ IH]. intros [|arg args] s o Hn.
  { intros _. exists []. split_and!; [done..|]. split; simpl; lia. }
  simpl in Hn |- *.
  assert (Hstep : ∀ i args' s' o', arg :: args = words i ++ args' →
    parse_args args' s' o' = inr r →
    (saw_state_dir s = true → state_dirs [i] = [] ∧ saw_state_dir s' = true) →
    (saw_host_uid s = true → host_uids [i] = [] ∧ saw_host_uid s' = true) →
    (state_dirs [i] ≠ [] → saw_state_dir s' = true) →
    (host_uids [i] ≠ [] → saw_host_uid s' = true) →
    ∃ l, arg :: args = command_line l ∧
      (saw_state_dir s = true → state_dirs l = []) ∧ (saw_host_uid s = true → host_uids l = []) ∧
      well_formed l).
  { intros i args' s' o' Hargs Hp Hd Hu Hd' Hu'.
    assert (Hlt : (length args' < n)%nat).
    { rewrite Hn. apply (f_equal length) in Hargs. simpl in Hargs. rewrite Hargs, length_app.
      destruct i; simpl; lia. }
    destruct (IH _ Hlt args' s' o' eq_refl Hp) as (l & -> & H1 & H2 & H3 & H4).
    exists (i :: l). rewrite Hargs. split; [done|]. unfold well_formed in *.
    rewrite (state_dirs_cons i l), (host_uids_cons i l), !length_app.
    split; [intros Hs; destruct (Hd Hs) as [-> H6]; by rewrite H1|].
    split; [intros Hs; destruct (Hu Hs) as [-> H6]; by rewrite H2|].
    assert (Hlen : (length (state_dirs [i]) ≤ 1 ∧ length (host_uids [i]) ≤ 1)%nat)
      by (destruct i; simpl; lia).
    split.
    - destruct (state_dirs [i]) as [|x k]; [simpl; lia|]. rewrite H1 by by apply Hd'. simpl in *. lia.
    - destruct (host_uids [i]) as [|x k]; [simpl; lia|]. rewrite H2 by by apply Hu'. simpl in *. lia. }
  destruct (String.eqb_spec arg "--help") as [->|_]; simpl.
  { intros Hp. by apply (Hstep (Help false) _ _ _ eq_refl Hp). }
  destruct (String.eqb_spec arg "-h") as [->|_].
  { intros Hp. by apply (Hstep (Help true) _ _ _ eq_refl Hp). }
  destruct (String.eqb_spec arg "--host") as [->|_].
  { intros Hp. by apply (Hstep Host _ _ _ eq_refl Hp). }
  destruct (String.eqb_spec arg "--client") as [->|_].
  { intros Hp. by apply (Hstep Client _ _ _ eq_refl Hp). }
  destruct (String.eqb_spec arg "--state-dir") as [->|_].
  { destruct (saw_state_dir s) eqn:Hs; [done|]. destruct args as [|v args]; [done|].
    intros Hp. by apply (Hstep (StateDir v) _ _ _ eq_refl Hp). }
  destruct (String.eqb_spec arg "--host-uid") as [->|_].
  { destruct (saw_host_uid s) eqn:Hs; [done|]. destruct args as [|v args]; [done|].
    intros Hp. by apply (Hstep (HostUid v) _ _ _ eq_refl Hp). }
  by destruct (IsRetiredFlag arg).
Qed.

Lemma check_options_iff l o :
  check_options (seen_of l) (options_of l) = inr o ↔ sensible l ∧ o = meaning l.
Proof.
  unfold check_options, sensible, meaning, seen_of, options_of. simpl.
  destruct (asks_help l); simpl.
  { split; [intros [= <-]|intros [_ ->]; done]. split; [by left|done]. }
  destruct (names_host l), (names_client l), (host_uids l) as [|u us]; simpl;
    (split; [intros H|intros [[H|(_ & H1 & H2)] Ho]]); simplify_eq; try done;
    try (by specialize (H2 ltac:(done))); split; try done; right; by split_and!.
Qed.

(** C33. The parser accepts exactly the language of command lines: a sequence of options, each
    with its value, in any order, where the directory and the uid are given once at most and,
    unless help is asked for, there is exactly one role and a uid only for a client; and the
    options are those that the command line gives. *)
Theorem ParseChatLaunchOptions_iff args o :
  ParseChatLaunchOptions args = inr o ↔
  ∃ l, args = command_line l ∧ well_formed l ∧ sensible l ∧ o = meaning l.
Proof.
  unfold ParseChatLaunchOptions. change nothing_seen with (seen_of []).
  change new_options with (options_of []). split.
  - destruct (parse_args _ _ _) as [e|r] eqn:Hp; [done|]. pose proof Hp as Hl.
    apply parse_args_inv in Hl as (l & -> & _ & _ & Hw).
    rewrite parse_args_items in Hp by done. injection Hp as <-. intros Hc.
    apply check_options_iff in Hc as [Hs ->]. by exists l.
  - intros (l & -> & Hw & Hs & ->). rewrite parse_args_items by done. by apply check_options_iff.
Qed.

(** What the program runs with: a role, and a uid only as a client. *)
Theorem launched_with_a_role built default_dir args o :
  wWinMain built default_dir args = RunApp o →
  role o ≠ kUnconfigured ∧ show_help o = false ∧ (is_Some (host_uid_prefill o) → role o = kClient).
Proof.
  unfold wWinMain. destruct built; [done|].
  destruct (ConsumeDumpParsedLaunchFlag args) as [e|[rest dump]]; [done|].
  unfold ParseChatLaunchOptions. destruct (parse_args _ _ _) as [e|[s o']]; [done|].
  unfold check_options. destruct (show_help o') eqn:Hh; [by rewrite Hh|].
  destruct (saw_host s), (saw_client s); simpl; try done;
    destruct (bool_decide _) eqn:Hu; simpl; rewrite ?Hh; try done;
    destruct dump; try done; intros [= <-]; simpl; split_and!; try done.
  intros H. by rewrite bool_decide_true in Hu.
Qed.

(** Removing the flag of the dump leaves the command line of the others. *)
Theorem ConsumeDumpParsedLaunchFlag_result pre path post :
  "--dump-parsed-launch" ∉ pre →
  ConsumeDumpParsedLaunchFlag (pre ++ "--dump-parsed-launch" :: path :: post) =
    inr (pre ++ post, Some path) ∧
  ConsumeDumpParsedLaunchFlag pre = inr (pre, None).
Proof.
  induction pre as [|arg pre IH]; [done|]. intros Hn. apply not_elem_of_cons in Hn as [Hne Hn].
  destruct (IH Hn) as [H1 H2]. cbn [app ConsumeDumpParsedLaunchFlag].
  destruct (String.eqb_spec arg "--dump-parsed-launch"); [congruence|]. simpl. by rewrite H1, H2.
Qed.

(** ** Command lines *)

Module Examples.
Example help_with_anything :
  ParseChatLaunchOptions ["--host"; "--client"; "-h"] = inr (mkOptions kUnconfigured None None true).
Proof. reflexivity. Qed.

(** The value of an option may look like an option. *)
Example value_like_an_option :
  ParseChatLaunchOptions ["--host"; "--state-dir"; "--client"] =
    inr (mkOptions kHost (Some "--client") None false).
Proof. reflexivity. Qed.

Example retired :
  ParseChatLaunchOptions ["--client"; "--open-peer"; "x"] =
    inl "Unsupported option: --open-peer (use --host/--client and --host-uid)".
Proof. reflexivity. Qed.

Example default_dirs :
  DefaultChatExampleStateDir (Some "") (Some "/home/me") "/tmp" kClient =
    "/home/me/.local/share/App Traverse/ChatExample/client" ∧
  DefaultChatExampleStateDir None None "/" kHost = "/App Traverse/ChatExample/host".
Proof. vm_compute. done. Qed.

Lemma launched_with_a_role_witness :
  let o := mkOptions kClient None (Some "u") false in
  role o ≠ kUnconfigured ∧ show_help o = false ∧ (is_Some (host_uid_prefill o) → role o = kClient).
Proof.
  intros o. apply (launched_with_a_role None (λ _, "") ["--client"; "--host-uid"; "u"] o).
  reflexivity.
Defined.

Lemma ConsumeDumpParsedLaunchFlag_result_witness :
  ConsumeDumpParsedLaunchFlag ["--host"; "--dump-parsed-launch"; "f"; "-h"] =
    inr (["--host"; "-h"], Some "f") ∧
  ConsumeDumpParsedLaunchFlag ["--host"] = inr (["--host"], None).
Proof.
  apply (ConsumeDumpParsedLaunchFlag_result ["--host"] "f" ["-h"]).
  apply (bool_decide_unpack (_ ∉ _)). vm_compute. exact I.
Defined.
End Examples.
