(* ===== verification/ChatJoin.v ===== *)
(** * Joining a host: messages and the record of an attempt

    Models examples/chat_demo/common/chat_bootstrap.h and .cpp (the control messages),
    chat_demo_runtime_state.h and .cpp (the node that records an attempt to join), and the
    identifiers of hosts of examples/chat_demo/runtime/chat_session.cpp.  What drives an
    attempt is in ChatSession.v. *)
From S2P Require Import Prelude Aether SharedEvent Node LinkSync ChatModel.

(** ** Control messages (chat_bootstrap.cpp) *)

Definition kMaxControlPayloadBytes : Z := 1024.

Inductive ChatBootstrapKind := kJoinRequest | kJoinAccepted | kJoinRejected.

#[export] Instance ChatBootstrapKind_eq_dec : EqDecision ChatBootstrapKind.
Proof. solve_decision. Defined.

Definition bootstrap_value (k : ChatBootstrapKind) : Z :=
  match k with kJoinRequest => 1 | kJoinAccepted => 2 | kJoinRejected => 3 end.

Record ChatBootstrapMessage := mkBootstrap {
  kind : ChatBootstrapKind;
  attempt_id : Z;
  room_id : Z;
  rejection_reason : string
}.

(** The binary archive of the object library: writing the four fields one after the other,
    and reading them back with what is left over. *)
Class BootstrapArchive := {
  archive_save : Z * Z * Z * string → option bytes;
  archive_load : bytes → option (Z * Z * Z * string * bytes)
}.

(** The uids of the network library: the text of the uid that a text denotes, when it is
    valid and the uid not empty.  The text of a uid has no white space around it. *)
Class AetherUids := {
  canonical_uid : string → option string;
  canonical_uid_trimmed (s u : string) : canonical_uid s = Some u → TrimAsciiWhitespace u = u
}.

Section bootstrap.
  Context {ids : AetherIds} {archive : BootstrapArchive}.

Definition EncodeChatBootstrap (message : ChatBootstrapMessage) : option bytes :=
  out ← archive_save (bootstrap_value (kind message), attempt_id message, room_id message,
          rejection_reason message);
  if negb (bool_decide (out = [])) && (zlen out <=? kMaxControlPayloadBytes)
  then Some out else None.

Definition kind_of_value (k : Z) : option ChatBootstrapKind :=
  if k =? bootstrap_value kJoinRequest then Some kJoinRequest
  else if k =? bootstrap_value kJoinAccepted then Some kJoinAccepted
  else if k =? bootstrap_value kJoinRejected then Some kJoinRejected
  else None.

Definition DecodeChatBootstrap (b : bytes) : option ChatBootstrapMessage :=
  if bool_decide (b = []) || (kMaxControlPayloadBytes <? zlen b) then None
  else
    '(k, attempt, rm, reason, extra) ← archive_load b;
    if negb (bool_decide (extra = [])) then None
    else
      k ← kind_of_value k;
      if (if decide (k = kJoinRejected) then String.eqb reason "" else negb (String.eqb reason ""))
      then None
      else if bool_decide (k = kJoinAccepted) && negb (ObjId_is_valid rm) then None
      else if negb (ObjId_is_valid attempt) then None
      else Some (mkBootstrap k attempt rm reason).
End bootstrap.

(** ** The record of an attempt (chat_demo_runtime_state.cpp) *)

Inductive ChatJoinPhase := kIdle | kJoining | kAccepted | kJoined | kFailed.

#[export] Instance ChatJoinPhase_eq_dec : EqDecision ChatJoinPhase.
Proof. solve_decision. Defined.

Record ChatDemoRuntimeFields := mkRuntimeState {
  join_phase : ChatJoinPhase;
  join_attempt_id : Z;
  expected_host_uid : string;
  accepted_room_id : Z;
  bound_room_id : Z;
  join_entry_id : Z;
  last_error : string;
  copy_request_id : Z;
  copy_uid : string;
  copy_pending : bool
}.

(** [obj_id]: the identifier of the event object. *)
Inductive ChatDemoRuntimeEvent :=
| JoinHostRequestedEvent (obj_id entry_id : Z) (host_uid : string)
| JoinHostAcceptedEvent (attempt_id : Z) (source_uid : string) (room_id : Z)
| JoinHostCompletedEvent (attempt_id room_id : Z)
| JoinHostFailedEvent (attempt_id : Z) (reason : string)
| CopyHostUidRequestedEvent (obj_id : Z) (uid : string)
| CopyHostUidCompletedEvent (request_id : Z) (ok : bool) (detail : string).

Section runtime_state.
  Context {ids : AetherIds}.
  Implicit Types f : ChatDemoRuntimeFields.

Definition new_runtime_state : ChatDemoRuntimeFields :=
  mkRuntimeState kIdle ObjId_none "" ObjId_none ObjId_none ObjId_none "" ObjId_none "" false.

Definition CanApply_Join f (e : ChatDemoRuntimeEvent) : bool :=
  match e with
  | JoinHostRequestedEvent _ entry host => ObjId_is_valid entry && negb (String.eqb host "")
  | JoinHostAcceptedEvent attempt source rm =>
      bool_decide (join_phase f = kJoining) && (attempt =? join_attempt_id f) &&
      ObjId_is_valid rm && String.eqb source (expected_host_uid f)
  | JoinHostCompletedEvent attempt rm =>
      if negb (ObjId_is_valid attempt) || negb (ObjId_is_valid rm) then false
      else if bool_decide (join_phase f = kJoined) && (accepted_room_id f =? rm) &&
              (join_attempt_id f =? attempt) then true
      else if negb (bool_decide (join_phase f = kAccepted)) then false
      else if negb (attempt =? join_attempt_id f) then false
      else negb (negb (ObjId_is_valid (accepted_room_id f)) || negb (rm =? accepted_room_id f))
  | JoinHostFailedEvent attempt reason =>
      if String.eqb reason "" then false
      else if bool_decide (join_phase f = kJoining) || bool_decide (join_phase f = kAccepted)
      then
        if negb (ObjId_is_valid attempt) then false
        else negb (ObjId_is_valid (join_attempt_id f) && negb (attempt =? join_attempt_id f))
      else bool_decide (join_phase f = kIdle) || bool_decide (join_phase f = kFailed)
  | CopyHostUidRequestedEvent _ _ | CopyHostUidCompletedEvent _ _ _ => true
  end.

Definition Apply_Join f (e : ChatDemoRuntimeEvent) : ChatDemoRuntimeFields :=
  match f with
  | mkRuntimeState phase attempt host accepted bound entry error request uid pending =>
      match e with
      | JoinHostRequestedEvent id new_entry new_host =>
          mkRuntimeState kJoining id new_host ObjId_none ObjId_none new_entry "" request uid
            pending
      | JoinHostAcceptedEvent _ _ rm =>
          mkRuntimeState kAccepted attempt host rm bound entry "" request uid pending
      | JoinHostCompletedEvent _ rm =>
          mkRuntimeState kJoined attempt host rm rm entry "" request uid pending
      | JoinHostFailedEvent a reason =>
          mkRuntimeState kFailed (if ObjId_is_valid a then a else attempt) host accepted bound
            entry reason request uid pending
      | CopyHostUidRequestedEvent id u =>
          mkRuntimeState phase attempt host accepted bound entry error id u true
      | CopyHostUidCompletedEvent r _ _ =>
          mkRuntimeState phase attempt host accepted bound entry error request uid
            (if r =? request then false else pending)
      end
  end.

#[export] Instance Join_kind : NodeKind ChatDemoRuntimeFields ChatDemoRuntimeEvent := {|
  CanApplyTo := CanApply_Join;
  ApplyTo f e := Some (Apply_Join f e, true);
  MatchesSharedMetadata _ _ _ := true;
  SaveLoad f := f;
  CarryLocal _ loaded := loaded
|}.
End runtime_state.

Abbreviation ChatDemoRuntimeState := (Node ChatDemoRuntimeFields ChatDemoRuntimeEvent).

(** ** Identifiers of hosts *)

Definition IsAsciiHex (c : Ascii.ascii) : bool :=
  let n := byte_of_ascii c in
  ((48 <=? n) && (n <=? 57)) || ((97 <=? n) && (n <=? 102)) || ((65 <=? n) && (n <=? 70)).

(** The loop over the characters, from index [i]: [None] when it returns. *)
Fixpoint uid_shape (l : list Ascii.ascii) (i : nat) (all_zero : bool) : option bool :=
  match l with
  | [] => Some all_zero
  | c :: l =>
      if bool_decide (i ∈ [8; 13; 18; 23]%nat)
      then if byte_of_ascii c =? 45 then uid_shape l (S i) all_zero else None
      else if negb (IsAsciiHex c) then None
      else uid_shape l (S i) (if byte_of_ascii c =? 48 then all_zero else false)
  end.

(** [Some] is [true] with the canonical text. *)
Definition TryCanonicalizeAetherUid `{AetherUids} (raw : string) : option string :=
  let trimmed := TrimAsciiWhitespace raw in
  if negb (Z.of_nat (String.length trimmed) =? 36) then None
  else
    all_zero ← uid_shape (String.list_ascii_of_string trimmed) 0 true;
    if (all_zero : bool) then None
    else
      out ← canonical_uid trimmed;
      if String.eqb out "" then None else Some out.

(** [canonical_source]: the source, canonical when it can be. *)
Definition canonical_source `{AetherUids} (source : string) : string :=
  default source (TryCanonicalizeAetherUid source).
