(* ===== verification/ChatSession.v ===== *)
(** * The session of the chat demo: joining and accepting

    From examples/chat_demo/runtime/chat_session.cpp, the closures that the model's thread
    runs: the client's [begin_join] with the scheduler of its requests, the host's
    [host_accept_client], [handle_control] of both, the import of a room, and the callbacks
    of the endpoint.  A closure takes the variables it captures as the [Worker]. *)
From S2P Require Import Prelude Aether SharedEvent Node LinkSync SharedNode ChatModel ChatJoin.

(** ** The worker

    [endpoint], [sync_runtime]: they are there ([nullptr] otherwise); [registered]: the nodes
    that the synchronization runtime finds.  The workspace and the runtime state are there as
    long as the worker.
    [waiting]: [waiting_entry_by_endpoint].  Times are nanoseconds of the steady clock; zero
    is a time that was not set.  [effects]: what the worker asked of the endpoint and of the
    synchronization runtime, oldest first; a control message has the model that was persisted
    last before it was sent. *)
Inductive Effect :=
| OpenPeer (uid : string)
| SendControl (uid : string) (b : bytes) (durable : option ChatModel)
| ExpectInitialNodeFromEndpoint (uid : string) (node_id : Z)
| ForgetInitialNodeFromEndpoint (uid : string)
| RegisterNode (node_id : Z)
| SyncInitialState (node_id share_id : Z).

Record Worker := mkWorker {
  chat : ChatState;
  runtime : ChatDemoRuntimeState;
  my_uid : string;
  aether_ready : bool;
  identity_conflict : bool;
  endpoint : bool;
  sync_runtime : bool;
  registered : gset Z;
  waiting : gmap string Z;
  join_sched_attempt_id : Z;
  join_frozen_bytes : bytes;
  join_attempt_start : Z;
  join_last_send : option Z;
  publication_dirty : bool;
  effects : list Effect
}.

Section setters.
Implicit Types w : Worker.

Definition set_chat w c := mkWorker c (runtime w) (my_uid w) (aether_ready w)
  (identity_conflict w) (endpoint w) (sync_runtime w) (registered w) (waiting w) (join_sched_attempt_id w)
  (join_frozen_bytes w) (join_attempt_start w) (join_last_send w) (publication_dirty w) (effects w).
Definition set_runtime w r := mkWorker (chat w) r (my_uid w) (aether_ready w)
  (identity_conflict w) (endpoint w) (sync_runtime w) (registered w) (waiting w) (join_sched_attempt_id w)
  (join_frozen_bytes w) (join_attempt_start w) (join_last_send w) (publication_dirty w) (effects w).
Definition set_waiting w m := mkWorker (chat w) (runtime w) (my_uid w) (aether_ready w)
  (identity_conflict w) (endpoint w) (sync_runtime w) (registered w) m (join_sched_attempt_id w)
  (join_frozen_bytes w) (join_attempt_start w) (join_last_send w) (publication_dirty w) (effects w).
Definition set_sched w id b start last := mkWorker (chat w) (runtime w) (my_uid w) (aether_ready w)
  (identity_conflict w) (endpoint w) (sync_runtime w) (registered w) (waiting w) id b start last
  (publication_dirty w) (effects w).
Definition set_dirty w := mkWorker (chat w) (runtime w) (my_uid w) (aether_ready w)
  (identity_conflict w) (endpoint w) (sync_runtime w) (registered w) (waiting w) (join_sched_attempt_id w)
  (join_frozen_bytes w) (join_attempt_start w) (join_last_send w) true (effects w).
Definition emit w l := mkWorker (chat w) (runtime w) (my_uid w) (aether_ready w)
  (identity_conflict w) (endpoint w) (sync_runtime w) (registered w) (waiting w) (join_sched_attempt_id w)
  (join_frozen_bytes w) (join_attempt_start w) (join_last_send w) (publication_dirty w)
  (effects w ++ l).
Definition set_uid w uid conflict := mkWorker (chat w) (runtime w) uid (aether_ready w)
  conflict (endpoint w) (sync_runtime w) (registered w) (waiting w) (join_sched_attempt_id w)
  (join_frozen_bytes w) (join_attempt_start w) (join_last_send w) (publication_dirty w) (effects w).
Definition set_registered w sync r := mkWorker (chat w) (runtime w) (my_uid w) (aether_ready w)
  (identity_conflict w) (endpoint w) sync r (waiting w) (join_sched_attempt_id w)
  (join_frozen_bytes w) (join_attempt_start w) (join_last_send w) (publication_dirty w) (effects w).
Definition set_ready w := mkWorker (chat w) (runtime w) (my_uid w) true
  (identity_conflict w) (endpoint w) (sync_runtime w) (registered w) (waiting w)
  (join_sched_attempt_id w) (join_frozen_bytes w) (join_attempt_start w) (join_last_send w)
  (publication_dirty w) (effects w).
Definition set_network w := mkWorker (chat w) (runtime w) (my_uid w) false
  (identity_conflict w) true false ∅ (waiting w)
  (join_sched_attempt_id w) (join_frozen_bytes w) (join_attempt_start w) (join_last_send w)
  (publication_dirty w) (effects w).
End setters.

Definition kSecond : Z := 1000000000.
Definition kJoinRetryInterval : Z := 1 * kSecond.
Definition kJoinAttemptDeadline : Z := 30 * kSecond.

Section session.
  Context {ids : AetherIds} {rep : Replica} {links : ChatLinks}.
  Context {archive : BootstrapArchive} {uids : AetherUids}.
  Implicit Types (w : Worker) (now : Z) (clock : nat → Readings).

Abbreviation demo_role_of w := (demo_role (fields (workspace (model (chat w))))).
Abbreviation rt w := (fields (runtime w)).

Definition FindEntryById (m : ChatModel) (id : Z) : option ChatEntry :=
  if has_entry (chats (fields (workspace m))) id then entries m !! id else None.

(** The model that a restart would find. *)
Definition durable w : option ChatModel := list.last (persisted (chat w)).

(** [runtime->Commit(event)], and the commit of an event that the state accepts. *)
Definition commit_runtime w (e : ChatDemoRuntimeEvent) (reading : Readings) : option Worker :=
  n ← Commit (runtime w) (created (runtime w) e) reading; Some (set_runtime w n).
Definition commit_runtime_if w e reading : option Worker :=
  if CanApply_Join (rt w) e then commit_runtime w e reading else Some w.

Definition forget w (uid : string) : Worker :=
  if sync_runtime w then emit w [ForgetInitialNodeFromEndpoint uid] else w.
Definition expect_room w (uid : string) (rm : Z) : Worker :=
  if sync_runtime w then emit w [ExpectInitialNodeFromEndpoint uid rm] else w.

Definition clear_join_scheduler w : Worker := set_sched w ObjId_none [] 0 None.

(** The request of an attempt, with the room that its entry has. *)
Definition join_request w : ChatBootstrapMessage :=
  mkBootstrap kJoinRequest (join_attempt_id (rt w))
    (default ObjId_none
      (e ← FindEntryById (model (chat w)) (join_entry_id (rt w)); room (fields e))) "".

Definition joining (p : ChatJoinPhase) : bool :=
  bool_decide (p = kJoining) || bool_decide (p = kAccepted).

Definition arm_join_scheduler w now : Worker :=
  if negb (bool_decide (demo_role_of w = kClient)) then clear_join_scheduler w
  else if negb (joining (join_phase (rt w))) then clear_join_scheduler w
  else if negb (ObjId_is_valid (join_attempt_id (rt w))) ||
          String.eqb (expected_host_uid (rt w)) "" then clear_join_scheduler w
  else if (join_sched_attempt_id w =? join_attempt_id (rt w)) &&
          negb (bool_decide (join_frozen_bytes w = [])) then w
  else
    match EncodeChatBootstrap (join_request w) with
    | None => clear_join_scheduler w
    | Some b => set_sched w (join_attempt_id (rt w)) b now None
    end.

Definition send_request w now : Worker :=
  let host := expected_host_uid (rt w) in
  let w := emit w [OpenPeer host; SendControl host (join_frozen_bytes w) (durable w)] in
  set_sched w (join_sched_attempt_id w) (join_frozen_bytes w) (join_attempt_start w) (Some now).

Definition drive_join_send w now (reading : Readings) : option Worker :=
  if negb (endpoint w) || negb (bool_decide (demo_role_of w = kClient)) then Some w
  else if negb (joining (join_phase (rt w))) then Some (clear_join_scheduler w)
  else if negb (ObjId_is_valid (join_sched_attempt_id w)) ||
          bool_decide (join_frozen_bytes w = []) ||
          negb (join_sched_attempt_id w =? join_attempt_id (rt w)) then Some w
  else if negb (aether_ready w) || String.eqb (my_uid w) "" then Some w
  else if kJoinAttemptDeadline <=? now - join_attempt_start w then
    w ← commit_runtime_if w (JoinHostFailedEvent (join_attempt_id (rt w))
          (if decide (join_phase (rt w) = kAccepted) then "Room sync timed out"
           else "Host response timed out")) reading;
    let w := forget w (expected_host_uid (rt w)) in
    let w := set_waiting w (delete (expected_host_uid (rt w)) (waiting w)) in
    Some (clear_join_scheduler w)
  else
    match join_last_send w with
    | Some last => if now - last <? kJoinRetryInterval then Some w else Some (send_request w now)
    | None => Some (send_request w now)
    end.

(** The message is of the host and the attempt that the client waits for. *)
Definition expected w (source : string) (msg : ChatBootstrapMessage) : bool :=
  String.eqb (canonical_source source) (expected_host_uid (rt w)) &&
  (attempt_id msg =? join_attempt_id (rt w)).

Definition handle_rejected w (source : string) (msg : ChatBootstrapMessage) (reading : Readings)
    : option Worker :=
  if negb (expected w source msg) then Some w
  else
    let fail := JoinHostFailedEvent (attempt_id msg)
      (if String.eqb (rejection_reason msg) "" then "Join rejected" else rejection_reason msg) in
    if negb (CanApply_Join (rt w) fail) then Some w
    else
      w ← commit_runtime w fail reading;
      let w := forget w source in
      let w := set_waiting w (delete source (waiting w)) in
      Some (set_dirty (clear_join_scheduler w)).

(** An acceptance in the phase [kJoining]. *)
Definition handle_first_accept w (source : string) (msg : ChatBootstrapMessage) clock
    : option Worker :=
  let ev := JoinHostAcceptedEvent (attempt_id msg) (canonical_source source) (room_id msg) in
  if negb (CanApply_Join (rt w) ev) then Some w
  else
    w ← commit_runtime w ev (clock 0%nat);
    let bound := e ← FindEntryById (model (chat w)) (join_entry_id (rt w)); room (fields e) in
    if bool_decide (bound = Some (room_id msg)) then
      let done := JoinHostCompletedEvent (attempt_id msg) (room_id msg) in
      if CanApply_Join (rt w) done then
        w ← commit_runtime w done (clock 1%nat); Some (set_dirty (clear_join_scheduler w))
      else Some (set_dirty w)
    else
      let w := set_waiting w (<[source := join_entry_id (rt w)]> (waiting w)) in
      Some (set_dirty (expect_room w source (room_id msg))).

Definition handle_accepted w (source : string) (msg : ChatBootstrapMessage) clock
    : option Worker :=
  if negb (expected w source msg) || negb (ObjId_is_valid (room_id msg)) then Some w
  else if bool_decide (join_phase (rt w) = kJoined) && (bound_room_id (rt w) =? room_id msg) &&
          (join_attempt_id (rt w) =? attempt_id msg) then Some w
  else if bool_decide (join_phase (rt w) = kAccepted) &&
          (accepted_room_id (rt w) =? room_id msg) &&
          (join_attempt_id (rt w) =? attempt_id msg) then
    let w := expect_room w source (room_id msg) in
    Some (set_waiting w (<[source := join_entry_id (rt w)]> (waiting w)))
  else if bool_decide (join_phase (rt w) = kAccepted) &&
          ObjId_is_valid (accepted_room_id (rt w)) &&
          negb (accepted_room_id (rt w) =? room_id msg) then
    let fail := JoinHostFailedEvent (attempt_id msg)
      "Join conflict: host offered a different room" in
    if CanApply_Join (rt w) fail then
      w ← commit_runtime w fail (clock 0%nat); Some (set_dirty (clear_join_scheduler w))
    else Some w
  else if negb (bool_decide (join_phase (rt w) = kJoining)) then Some w
  else handle_first_accept w source msg clock.

(** *** The host *)

Definition persist_workspace w : Worker := set_chat w (persist (chat w)).

Definition send_control w (uid : string) (msg : ChatBootstrapMessage) : Worker :=
  match EncodeChatBootstrap msg with
  | Some b => if endpoint w then emit w [OpenPeer uid; SendControl uid b (durable w)] else w
  | None => w
  end.

Definition send_join_rejected w (client : string) (attempt : Z) (reason : string) : Worker :=
  if negb (endpoint w) || String.eqb client "" then w
  else send_control w client (mkBootstrap kJoinRejected attempt ObjId_none reason).

Definition ensure_registered w (rm : Z) : Worker :=
  if decide (rm ∈ registered w) then w
  else emit (set_registered w (sync_runtime w) ({[rm]} ∪ registered w)) [RegisterNode rm].

(** The relationship of the peer: the first whose Link has the uid. *)
Definition remote_share (f : SharedFields ChatRoomFields) (uid : string) : option Share :=
  find (λ s, match link s with Some l => String.eqb (EndpointUid l) uid | None => false end)
    (shares f).

Definition send_accepted w (client : string) (attempt rm : Z) : Worker :=
  send_control w client (mkBootstrap kJoinAccepted attempt rm "").

(** The client has an entry with a room. *)
Definition accept_existing w (client : string) (req : ChatBootstrapMessage) (rm : Z)
    : option Worker :=
  if ObjId_is_valid (room_id req) && negb (room_id req =? rm)
  then Some (send_join_rejected w client (attempt_id req)
               "Join conflict: saved room does not match host room")
  else
    let w := ensure_registered (send_accepted (persist_workspace w) client (attempt_id req) rm) rm in
    n ← rooms (model (chat w)) !! rm;
    let share_id := default ObjId_none (share_id <$> remote_share (fields n) client) in
    let incomplete :=
      if ObjId_is_valid share_id then
        match link_sync_states (fields n) !! FindLinkSyncIndexForShare (fields n) share_id with
        | Some (Some state) =>
            negb (initial_sync_phase (fields state) =? InitialSyncPhase.Complete)
        | _ => false
        end
      else false in
    Some (set_dirty (if incomplete : bool then emit w [SyncInitialState rm share_id] else w)).

(** The identifiers that the objects of a new room get. *)
Record RoomIds := mkRoomIds {
  new_entry_id : Z; new_entry_base : Z; new_room_id : Z; new_room_base : Z;
  local_link : Z; remote_link : Z; local_share : Z; remote_share_id : Z
}.

(** A room with the two links, the host's and the client's. *)
Definition create_room (dom : option Z) (i : RoomIds) clock : option ChatRoom :=
  n ← InitializeRuntimeNode
        (new_node (new_room_id i) dom (mkShared [] [] (mkRoom []) 0)) (new_room_base i);
  n ← AddShare (SetJournalCompactionBlocked n true) (Some (local_link i)) ShareAccess.ReadWrite
        (local_share i) (clock 0%nat);
  AddShare n (Some (remote_link i)) ShareAccess.ReadWrite (remote_share_id i) (clock 1%nat).

Definition accept_new w (client : string) (req : ChatBootstrapMessage) (i : RoomIds)
    clock1 clock2 clock3 : option Worker :=
  '(entry, c) ← OpenOrSelectChat (chat w) client (new_entry_id i) (new_entry_base i) clock1;
  let w := set_chat w c in
  match entry with
  | None => Some w
  | Some entry_id =>
      let dom := domain (workspace (model (chat w))) in
      n ← create_room dom i clock2;
      let rm := new_room_id i in
      let w := set_chat w (set_model (chat w) (with_room (model (chat w)) rm n)) in
      '(bound, c) ← BindChat (chat w) entry_id (Some (mkPtr (remote_link i) dom))
                      (Some (mkPtr rm dom)) clock3;
      let w := set_chat w c in
      if negb bound then Some w
      else
        let w := send_accepted (persist_workspace w) client (attempt_id req) rm in
        let w := ensure_registered w rm in
        let share_id := default ObjId_none (share_id <$> remote_share (fields n) client) in
        let w := if ObjId_is_valid share_id then emit w [SyncInitialState rm share_id] else w in
        Some (set_dirty w)
  end.

Definition host_accept_client w (client : string) (req : ChatBootstrapMessage) (i : RoomIds)
    clock1 clock2 clock3 : option Worker :=
  if negb (bool_decide (demo_role_of w = kHost)) then Some w
  else if negb (aether_ready w) || String.eqb (my_uid w) "" || negb (sync_runtime w) then Some w
  else if String.eqb client "" || String.eqb client (my_uid w) then Some w
  else
    existing ← find_peer (model (chat w)) client (chats (fields (workspace (model (chat w)))));
    let rm := id ← existing; e ← entries (model (chat w)) !! id; room (fields e) in
    match rm with
    | Some rm => accept_existing w client req rm
    | None => accept_new w client req i clock1 clock2 clock3
    end.

(** *** Control messages *)

Definition handle_control w (source : string) (b : bytes) (i : RoomIds) clock1 clock2 clock3
    : option Worker :=
  if identity_conflict w then Some w
  else
    match DecodeChatBootstrap b with
    | None => Some w
    | Some msg =>
        if bool_decide (demo_role_of w = kHost) && bool_decide (kind msg = kJoinRequest)
        then w ← host_accept_client w source msg i clock1 clock2 clock3; Some (set_dirty w)
        else if negb (bool_decide (demo_role_of w = kClient)) then Some w
        else
          match kind msg with
          | kJoinRejected => handle_rejected w source msg (clock1 0%nat)
          | kJoinAccepted => handle_accepted w source msg clock1
          | kJoinRequest => Some w
          end
    end.

(** [begin_join].  [req_id], [new_id], [base_id]: the identifiers of the request, and of the
    entry that is made for a new host and its base. *)
Definition begin_join w (req_id new_id base_id : Z) now clock (reading : Readings)
    : option Worker :=
  if negb (bool_decide (demo_role_of w = kClient)) then Some w
  else
    let input := host_uid_input (fields (workspace (model (chat w)))) in
    '(_, c) ← SetHostUidInput (chat w) input clock;
    let w := set_chat w c in
    let canonical :=
      u ← TryCanonicalizeAetherUid (host_uid_input (fields (workspace (model (chat w)))));
      if negb (String.eqb (my_uid w) "") && String.eqb u (my_uid w) then None else Some u in
    match canonical with
    | None =>
        w ← commit_runtime_if w
              (JoinHostFailedEvent (join_attempt_id (rt w)) "Invalid Host UID") reading;
        Some (set_dirty (clear_join_scheduler w))
    | Some host =>
        '(entry, c) ← OpenOrSelectChat (chat w) host new_id base_id clock;
        let w := set_chat w c in
        match entry with
        | None => Some w
        | Some entry_id =>
            if joining (join_phase (rt w)) && String.eqb (expected_host_uid (rt w)) host
            then Some (arm_join_scheduler w now)
            else
              let w :=
                if joining (join_phase (rt w)) && negb (String.eqb (expected_host_uid (rt w)) "") &&
                   negb (String.eqb (expected_host_uid (rt w)) host)
                then
                  let w := forget w (expected_host_uid (rt w)) in
                  clear_join_scheduler
                    (set_waiting w (delete (expected_host_uid (rt w)) (waiting w)))
                else w in
              let req := JoinHostRequestedEvent req_id entry_id host in
              if negb (CanApply_Join (rt w) req) then Some w
              else
                w ← commit_runtime w req reading;
                Some (set_dirty (arm_join_scheduler w now))
        end
    end.

(** *** The import of the room *)

(** The attempt is over, with the room bound. *)
Definition imported w (source : string) : Worker :=
  let w := set_waiting w (delete source (waiting w)) in
  set_dirty (set_sched w ObjId_none [] (join_attempt_start w) None).

(** The callback for a node that arrived as expected.  [is_room]: its class is that of rooms;
    the result is whether the import is accepted. *)
Definition on_imported w (source : string) (rm : Z) (is_room : bool) clock (reading : Readings)
    : option (bool * Worker) :=
  if negb (bool_decide (join_phase (rt w) = kAccepted)) then Some (false, w)
  else if negb (String.eqb source (expected_host_uid (rt w))) then Some (false, w)
  else if negb is_room then Some (false, w)
  else if negb (ObjId_is_valid (accepted_room_id (rt w))) ||
          negb (rm =? accepted_room_id (rt w)) then Some (false, w)
  else
    n ← rooms (model (chat w)) !! rm;
    let w := set_chat w (set_model (chat w)
               (with_room (model (chat w)) rm (SetJournalCompactionBlocked n true))) in
    match waiting w !! source with
    | None => Some (false, w)
    | Some entry_id =>
        if negb (entry_id =? join_entry_id (rt w)) then Some (false, w)
        else
          match FindEntryById (model (chat w)) entry_id with
          | None => Some (false, w)
          | Some e =>
              if bool_decide (is_Some (room (fields e)) ∧ room (fields e) ≠ Some rm)
              then Some (false, w)
              else
                match s ← remote_share (fields n) source; link s with
                | None => Some (false, w)
                | Some remote =>
                    let done := JoinHostCompletedEvent (join_attempt_id (rt w)) rm in
                    if bool_decide (room (fields e) = Some rm) then
                      w ← commit_runtime_if w done reading;
                      Some (true, imported w source)
                    else
                      '(bound, c) ← BindChat (chat w) entry_id (Some (mkPtr remote (domain n)))
                                      (Some (mkPtr rm (domain n))) clock;
                      let w := set_chat w c in
                      if negb bound then Some (false, w)
                      else
                        w ← commit_runtime_if (persist_workspace w) done reading;
                        Some (true, imported w source)
                end
          end
    end.

(** *** The callbacks of the endpoint

    [stale]: the endpoint is one that a retry has replaced. *)

Definition on_uid w (stale : bool) (uid : string) clock : option Worker :=
  if stale then Some w
  else
    let w := set_uid w uid (identity_conflict w) in
    let local := local_endpoint_uid (fields (workspace (model (chat w)))) in
    if negb (String.eqb local "") && negb (String.eqb local uid)
    then Some (set_dirty (set_uid w uid true))
    else
      '(bound, c) ← BindLocalEndpoint (chat w) uid clock;
      let w := set_chat w c in
      if negb bound then Some (set_dirty (set_uid w uid true)) else Some (set_dirty w).

(** The rooms of the entries are registered, and the peers of bound entries opened. *)
Definition entry_at w (p : option Z) : option ChatEntry :=
  id ← p; entries (model (chat w)) !! id.
Definition register_rooms w : Worker :=
  foldl (λ w p, match e ← entry_at w p; room (fields e) with
                | Some rm => ensure_registered w rm
                | None => w
                end) w (chats (fields (workspace (model (chat w))))).
Definition open_peers w : Worker :=
  foldl (λ w p, match e ← entry_at w p; peer_link (fields e) with
                | Some l => if String.eqb (EndpointUid l) "" then w
                            else emit w [OpenPeer (EndpointUid l)]
                | None => w
                end) w (chats (fields (workspace (model (chat w))))).

Definition expect_again w : Worker :=
  if bool_decide (join_phase (rt w) = kAccepted) && ObjId_is_valid (accepted_room_id (rt w)) &&
     negb (String.eqb (expected_host_uid (rt w)) "")
  then
    let w := set_waiting w (<[expected_host_uid (rt w) := join_entry_id (rt w)]> (waiting w)) in
    emit w [ExpectInitialNodeFromEndpoint (expected_host_uid (rt w)) (accepted_room_id (rt w))]
  else w.

(** The request of an attempt that was armed without a network, or for another one. *)
Definition rearm w now : Worker :=
  if negb (join_sched_attempt_id w =? join_attempt_id (rt w)) ||
     bool_decide (join_frozen_bytes w = [])
  then
    match EncodeChatBootstrap (join_request w) with
    | Some b => set_sched w (join_attempt_id (rt w)) b
                  (if join_attempt_start w =? 0 then now else join_attempt_start w) None
    | None => w
    end
  else w.

Definition on_ready w (stale : bool) now : Worker :=
  if stale || identity_conflict w then w
  else
    let w := set_registered (set_ready w) true ∅ in
    let w := open_peers (expect_again (register_rooms w)) in
    let w :=
      if bool_decide (demo_role_of w = kClient) && joining (join_phase (rt w)) then
        let w := rearm w now in
        if negb (bool_decide (join_frozen_bytes w = [])) && endpoint w then send_request w now
        else w
      else w in
    set_dirty w.

(** *** Other closures on the record of attempts and on the endpoint *)

(** [on_copy_host_uid_]; the result tells whether a copy was asked for. *)
Definition copy_host_uid w (req_id : Z) (reading : Readings) : option (bool * Worker) :=
  let uid := local_endpoint_uid (fields (workspace (model (chat w)))) in
  if negb (bool_decide (demo_role_of w = kHost)) || String.eqb uid "" then Some (false, w)
  else
    w ← commit_runtime w (CopyHostUidRequestedEvent req_id uid) reading;
    Some (true, set_dirty w).

(** [on_retry_connection_], once the guards have passed: everything of the old network goes,
    and [start_network] makes a new endpoint. *)
Definition restart_network w : Worker := set_network w.
End session.
