(* ===== verification/ChatJoinTheory.v ===== *)
(** * What the control messages of a join guarantee

    The theory of ChatJoin.v: what the application relies on of the binary archive, the
    round trip of control messages, and the laws of the record of an attempt. *)
From S2P Require Import Prelude Aether SharedEvent Node LinkSync NodeTheory ChatModel ChatJoin.

(** The archive writes a byte, the 32 bits of each identifier and a text: what it has
    written is read back with nothing left, and a request without a text fits into a
    control message. *)
Class BootstrapArchiveLaws `{BootstrapArchive} : Prop := {
  archive_load_save k a r s b : is_u8 k →
    archive_save (k, a, r, s) = Some b → archive_load b = Some (k, u32 a, u32 r, s, []);
  archive_save_request a r :
    ∃ b, archive_save (bootstrap_value kJoinRequest, a, r, ""%string) = Some b ∧
      b ≠ [] ∧ zlen b ≤ kMaxControlPayloadBytes
}.

Section codec.
  Context {ids : AetherIds} `{BootstrapArchiveLaws}.
  Implicit Types (msg : ChatBootstrapMessage) (b : bytes).

(** The messages that the receiver accepts. *)
Definition bootstrap_ok msg : bool :=
  ObjId_is_valid (attempt_id msg) &&
  match kind msg with
  | kJoinRequest => String.eqb (rejection_reason msg) ""
  | kJoinAccepted => String.eqb (rejection_reason msg) "" && ObjId_is_valid (room_id msg)
  | kJoinRejected => negb (String.eqb (rejection_reason msg) "")
  end.

Lemma bootstrap_value_u8 k : is_u8 (bootstrap_value k).
Proof. by destruct k. Qed.

Lemma kind_of_value_spec k c : kind_of_value k = Some c ↔ k = bootstrap_value c.
Proof.
  unfold kind_of_value. split.
  - repeat (case_match; breflect; [intros [= <-]; done|]). done.
  - intros ->. by destruct c.
Qed.

Lemma EncodeChatBootstrap_inv msg b :
  EncodeChatBootstrap msg = Some b →
  archive_save (bootstrap_value (kind msg), attempt_id msg, room_id msg,
    rejection_reason msg) = Some b ∧ b ≠ [] ∧ zlen b ≤ kMaxControlPayloadBytes.
Proof.
  unfold EncodeChatBootstrap. destruct (archive_save _) as [out|]; [|done].
  cbn [mbind option_bind]. case_match eqn:E; [|done]. intros [= <-].
  apply andb_prop in E as [E1%negb_true_iff%bool_decide_eq_false E2%Z.leb_le]. done.
Qed.

Lemma EncodeChatBootstrap_request a r :
  ∃ b, EncodeChatBootstrap (mkBootstrap kJoinRequest a r "") = Some b ∧ b ≠ [].
Proof.
  destruct (archive_save_request a r) as (b & Hb & Hne & Hsz). exists b.
  unfold EncodeChatBootstrap. cbn [kind attempt_id room_id rejection_reason].
  rewrite Hb. cbn [mbind option_bind]. rewrite bool_decide_eq_false_2 by done.
  apply Z.leb_le in Hsz. by rewrite Hsz.
Qed.

Lemma DecodeChatBootstrap_ok msg b :
  DecodeChatBootstrap b = Some msg → bootstrap_ok msg = true.
Proof.
  unfold DecodeChatBootstrap. case_match; [done|].
  destruct (archive_load b) as [[[[[k a] r] s] extra]|]; [|done]. cbn [mbind option_bind].
  case_match; [done|]. destruct (kind_of_value k) as [c|]; [|done]. cbn [mbind option_bind].
  intros Hc. unfold bootstrap_ok.
  destruct c, (String.eqb s "") eqn:Es, (ObjId_is_valid r) eqn:Er, (ObjId_is_valid a) eqn:Ea;
    simplify_eq/=; by rewrite ?Es, ?Er, ?Ea.
Qed.

(** A control message that was encoded is decoded to itself, when it is one that a
    session sends: the identifier of the attempt valid, an acceptance with a valid room, and
    a reason exactly with a rejection.  Every other message is refused by the receiver,
    whatever was encoded, and nothing else is ever decoded from any bytes. *)
Theorem DecodeChatBootstrap_encoded msg b
    (Ha : is_u32 (attempt_id msg)) (Hr : is_u32 (room_id msg))
    (Hb : EncodeChatBootstrap msg = Some b) :
  DecodeChatBootstrap b = (if bootstrap_ok msg then Some msg else None) ∧
  ∀ b' msg', DecodeChatBootstrap b' = Some msg' → bootstrap_ok msg' = true.
Proof.
  split; [|intros b' msg'; apply DecodeChatBootstrap_ok].
  destruct (EncodeChatBootstrap_inv msg b Hb) as (Hs & Hne & Hsz).
  apply archive_load_save in Hs; [|apply bootstrap_value_u8].
  unfold DecodeChatBootstrap. rewrite bool_decide_eq_false_2 by done.
  destruct (Z.ltb_spec kMaxControlPayloadBytes (zlen b)); [lia|]. cbn [orb].
  rewrite Hs, !u32_small by done. cbn [mbind option_bind].
  rewrite bool_decide_eq_true_2 by done. cbn [negb].
  rewrite (proj2 (kind_of_value_spec _ (kind msg)) eq_refl). cbn [mbind option_bind].
  unfold bootstrap_ok. destruct msg as [k a r s].
  cbn [attempt_id kind room_id rejection_reason].
  destruct k, (String.eqb s ""), (ObjId_is_valid a), (ObjId_is_valid r); reflexivity.
Qed.
End codec.

(** ** The identifiers of hosts *)

Lemma TryCanonicalizeAetherUid_trimmed `{AetherUids} s u :
  TryCanonicalizeAetherUid s = Some u → TrimAsciiWhitespace u = u ∧ u ≠ ""%string.
Proof.
  unfold TryCanonicalizeAetherUid. case_match; [done|].
  destruct (uid_shape _ _ _) as [[|]|]; [done| |done]. cbn [mbind option_bind].
  destruct (canonical_uid _) as [out|] eqn:E; [|done]. cbn [mbind option_bind].
  destruct (String.eqb_spec out ""); [done|]. intros [= <-].
  split; [by eapply canonical_uid_trimmed|done].
Qed.

(** ** The record of an attempt *)

#[export] Instance Join_equiv : Equiv ChatDemoRuntimeFields := (=).
#[export] Instance Join_laws `{AetherIds} :
  NodeLaws ChatDemoRuntimeFields ChatDemoRuntimeEvent.
Proof.
  split; [apply eq_equivalence|by intros f g e ->| |done|done]. intros f g e ->.
  by constructor.
Qed.
