(* ===== verification/ChatRoomTheory.v ===== *)
(** * Rooms that a session makes and binds

    A new room with its two links (ChatSession.v, [create_room]) is a room that the model may
    have, and what binding an entry to a room leaves. *)
From S2P Require Import Prelude Aether SharedEvent Node LinkSync NodeTheory SharedNode.
From S2P Require Import NodeBudget SharedNodeTheory ChatModel ChatModelTheory ChatJoin ChatSession.

Section rooms.
  Context {ids : AetherIds} {rep : Replica} (me : string).
  Implicit Types (n m : ChatRoom) (k : Z).

(** A relationship with a link that the room does not have yet. *)
Lemma AddShare_fresh k n lnk acc id now :
  0 ≤ k → Budget (k + 1) n → clock_within (k + 1) now → ObjId_is_valid id = true →
  (∀ s, s ∈ shares (fields n) → link s ≠ Some lnk ∧ share_id s ≠ id) →
  ∃ m r, AddShare n (Some lnk) acc id now = Some m ∧ Budget k m ∧
    shares (fields m) = shares (fields n) ++ [mkShare id (Some lnk) acc] ∧
    node_app (fields m) = node_app (fields n) ∧ domain m = domain n ∧
    journal m = journal n ++ [r] ∧ record_message r = None ∧ identity r = empty_identity.
Proof.
  intros Hk Hb Hnow Hv Hfresh.
  assert (FindShareIndex (fields n) lnk = length (shares (fields n))) as Hi.
  { apply find_index_all_false. intros s Hs. destruct (Hfresh s Hs).
    by apply bool_decide_eq_false_2. }
  assert (FindShareIndexForShare (fields n) id = length (shares (fields n))) as Hi'.
  { apply find_index_all_false. intros s Hs. destruct (Hfresh s Hs). by apply Z.eqb_neq. }
  assert (∃ g, Apply_AddShare (fields n) id (Some lnk) acc = Some g ∧
    shares g = shares (fields n) ++ [mkShare id (Some lnk) acc] ∧
    node_app g = node_app (fields n)) as (g & Hg & Hs & Ha).
  { unfold Apply_AddShare. cbn [mbind option_bind]. rewrite Hv, Hi', Nat.eqb_refl, Hi, Nat.eqb_refl.
    case_match; [|by eexists].
    destruct (create_link_sync_spec id (Some lnk) (ids_drawn (fields n))) as (st & Hst & _).
    cbn [set_shares ids_drawn]. rewrite Hst. by eexists. }
  unfold AddShare. cbn [mbind option_bind]. rewrite Hi, Nat.ltb_irrefl.
  destruct (Commit_Budget k n (AddShareEvent id (Some lnk) acc) now g true)
    as (m & r & Hm & Hbm & Hf & _ & Hd & Hj & He & Hid); [done..| |].
  { change (Apply_Shared (fields n) (AddShareEvent id (Some lnk) acc) = Some (g, true)).
    unfold Apply_Shared. by rewrite Hg. }
  exists m, r. rewrite Hf. split_and!; try done. unfold record_message. by rewrite He.
Qed.

Definition room_ids_ok (i : RoomIds) : Prop :=
  new_room_base i ≠ new_room_id i ∧ local_link i ≠ remote_link i ∧
  ObjId_is_valid (local_share i) = true ∧ ObjId_is_valid (remote_share_id i) = true ∧
  local_share i ≠ remote_share_id i.

(** The new room is current, empty, and has the two relationships. *)
Lemma create_room_ok k d i clock :
  0 ≤ k → k + 2 < kSizeMax → clock_ok (k + 2) clock → room_ids_ok i → me ≠ ""%string →
  ∃ n, create_room (Some d) i clock = Some n ∧ room_ok me k n ∧ domain n = Some d ∧
    (∀ next, identities_below me next n) ∧
    shares (fields n) = [mkShare (local_share i) (Some (local_link i)) ShareAccess.ReadWrite;
                         mkShare (remote_share_id i) (Some (remote_link i)) ShareAccess.ReadWrite].
Proof.
  intros Hk Hsz Hclock (Hb & Hl & Hv1 & Hv2 & Hs) Hme. unfold create_room.
  destruct (InitializeRuntimeNode_Budget (k + 1 + 1) (new_room_id i) (new_room_base i) d
    (mkShared [] [] (mkRoom []) 0)) as (n & -> & Hf & Hd & Hj & Hn); [lia|done|done|].
  cbn [mbind option_bind]. set (n0 := SetJournalCompactionBlocked n true).
  assert (Budget (k + 1 + 1) n0) as Hb0 by (by destruct Hn as [[] ????]).
  change (fields n) with (fields n0) in Hf. change (domain n) with (domain n0) in Hd.
  change (journal n) with (journal n0) in Hj. clearbody n0.
  destruct (AddShare_fresh (k + 1) n0 (local_link i) ShareAccess.ReadWrite (local_share i) (clock 0%nat))
    as (n1 & r1 & -> & Hb1 & Hs1 & Ha1 & Hd1 & Hj1 & Hr1 & Hi1); [lia|done| |done|rewrite Hf; set_solver|].
  { intros j. specialize (Hclock 0%nat j). lia. }
  cbn [mbind option_bind].
  destruct (AddShare_fresh k n1 (remote_link i) ShareAccess.ReadWrite (remote_share_id i) (clock 1%nat))
    as (n2 & r2 & -> & Hb2 & Hs2 & Ha2 & Hd2 & Hj2 & Hr2 & Hi2); [lia|done| |done| |].
  { intros j. specialize (Hclock 1%nat j). lia. }
  { rewrite Hs1, Hf. intros s ->%list_elem_of_singleton. cbn. split; [naive_solver|done]. }
  exists n2. split; [done|]. rewrite Hj1, Hj in Hj2. rewrite Hf in *.
  assert (∀ r, r ∈ journal n2 → record_message r = None ∧ identity r = empty_identity) as Hall.
  { rewrite Hj2. intros r Hr. apply elem_of_cons in Hr as [->|Hr%list_elem_of_singleton]; [done|by subst]. }
  split; [|split; [by rewrite Hd2, Hd1|split]].
  - destruct Hb2 as [Hc Hsorted Hz Hdom Hts]. split; try done.
    + apply list.Forall_forall. intros r Hr v Hrv. destruct (Hall r Hr) as [Hnone _]. congruence.
    + unfold room_messages. rewrite Ha2, Ha1. constructor.
  - intros next r Hr Ho. destruct (Hall r Hr) as [_ Hi]. rewrite Hi in Ho. by destruct Hme.
  - by rewrite Hs2, Hs1.
Qed.

(** What a room is does not depend on whether its journal may be compacted. *)
Lemma room_ok_blocked k n b : room_ok me k n → room_ok me k (SetJournalCompactionBlocked n b).
Proof. by intros [[] ?????]; split. Qed.
End rooms.

Section binding.
  Context {ids : AetherIds} {rep : Replica} {links : ChatLinks} (me : string).
  Implicit Types (m : ChatModel) (s : ChatState) (k : Z) (clock : nat → Readings).

(** A room that the model did not have. *)
Lemma chat_ok_new_room k m id n :
  chat_ok me k m → room_ok me k n →
  identities_below me (next_message_sequence (fields (workspace m))) n →
  chat_ok me k (with_room m id n).
Proof.
  intros [Hw [Hlo Hse Hli Hpe Hsel] He Hr Hdom] Hok Hb. split; [done|done| | |done].
  - intros i e Hi. destruct (He i e Hi) as (H1 & H2 & H3). split; [done|]. split; [|done].
    intros rm Hrm. cbn. destruct (decide (rm = id)) as [->|Hne].
    + rewrite lookup_insert_eq. by eexists.
    + rewrite lookup_insert_ne by done. by apply H2.
  - by apply map_Forall_insert_2.
Qed.

(** Binding is refused, or the entry has the room, and is one of the peer of the link. *)
Lemma BindChat_spec k s id n l rm clock :
  0 ≤ k → chat_ok me (k + 1) (model s) → clock_ok (k + 1) clock →
  entries (model s) !! id = Some n → is_Some (rooms (model s) !! ptr_id rm) →
  ∃ b s', BindChat s id (Some l) (Some rm) clock = Some (b, s') ∧ result_ok me k s s' ∧
    chats (fields (workspace (model s'))) = chats (fields (workspace (model s))) ∧
    rooms (model s') = rooms (model s) ∧
    (b = true → ∃ n', entries (model s') !! id = Some n' ∧
       room (fields n') = Some (ptr_id rm) ∧ peer_uid (fields n') = EndpointUid (ptr_id l)) ∧
    (ptr_domain l = domain n → ptr_domain rm = domain n →
     EndpointUid (ptr_id l) = peer_uid (fields n) → room (fields n) = None → b = true).
Proof.
  intros Hk Hok Hclock Hid Hrm.
  destruct (chat_entries _ _ _ Hok id n Hid) as (Hbn & Hroom & Hlink & Hboth).
  assert (result_ok me k s s) as Hrefl by (by apply result_ok_refl, (chat_ok_weaken _ (k + 1)); [lia|]).
  unfold BindChat. rewrite Hid. cbn [mbind option_bind].
  case_bool_decide as Hdom.
  { exists false, s. split_and!; [done..|by intros|]. intros H1 H2 _ _. naive_solver. }
  destruct (String.eqb_spec (EndpointUid (ptr_id l)) (peer_uid (fields n))) as [He|He]; cbn [negb].
  2: { exists false, s. by split_and!. }
  case_bool_decide as Hsame.
  { destruct Hsame as [H1 H2]. exists true, s. split_and!; [done..|intros _; by exists n|done]. }
  case_bool_decide as Hl.
  { exists false, s. split_and!; [done..|]. intros _ _ _ Hnone. rewrite (Hboth Hnone) in Hl.
    by destruct Hl as [[??] ?]. }
  case_bool_decide as Hr.
  { exists false, s. split_and!; [done..|]. intros _ _ _ Hnone. rewrite Hnone in Hr.
    by destruct Hr as [[??] ?]. }
  unfold commit_entry_and_persist.
  destruct (commit_entry_ok me k s id n
    (ChatBindingChangedEvent (Some (ptr_id l)) (Some (ptr_id rm))) (clock 0%nat))
    as (n' & -> & Hf & Hext & Hok'); [done|by apply (chat_ok_weaken _ (k + 1)); [lia|]|done|
      apply Hclock|done|by apply String.eqb_eq| | |].
  { split_and!; cbn; [by intros ? [= <-]|by intros ? [= <-]|done]. }
  { split; [done|]. cbn. intros r Hr'. rewrite Hr' in *.
    destruct (decide (r = ptr_id rm)) as [->|Hne]; [done|]. exfalso. naive_solver. }
  cbn [mbind option_bind]. eexists true, _. split; [reflexivity|].
  split; [by apply persist_ok, set_model_ok|]. rewrite !model_persist. cbn.
  split; [done|]. split; [done|]. split; [|done]. intros _. exists n'.
  rewrite lookup_insert_eq, Hf. by split_and!.
Qed.
End binding.
