(* ===== verification/ChatSessionTheory.v ===== *)
(** * What the session of the chat demo guarantees

    The theory of ChatSession.v: whatever the user, the peers and the network do, no
    closure of the model's thread fails, an attempt to join moves as the protocol of
    [Moves] allows, and a host announces only rooms that are on disk. *)
From S2P Require Import Prelude Aether SharedEvent Node LinkSync NodeTheory SharedNode.
From S2P Require Import NodeBudget SharedNodeTheory ChatModel ChatModelTheory ChatJoin ChatJoinTheory.
From S2P Require Import ChatSession ChatRoomTheory.

(** ** The inputs of the model's thread

    What the closures run for: commands of the user on the model and events of peers
    ([IChat], [ICopy], [IJoinHost], [IRetry]), the clock ([IDrive]), control messages, rooms
    that the synchronization runtime changed or brought ([IRoom], [IImported]), and the
    callbacks of the endpoint. *)
Inductive Input :=
| IChat (c : Command) (clock : nat → Readings)
| ICopy (req_id : Z) (reading : Readings)
| IJoinHost (req_id new_id base_id now : Z) (clock : nat → Readings) (reading : Readings)
| IDrive (now : Z) (reading : Readings)
| IControl (source : string) (b : bytes) (i : RoomIds) (clock1 clock2 clock3 : nat → Readings)
| IRoom (rm : Z) (n : ChatRoom)
| IImported (source : string) (rm : Z) (is_room : bool) (clock : nat → Readings)
    (reading : Readings)
| IUid (stale : bool) (uid : string) (clock : nat → Readings)
| IReady (stale : bool) (now : Z)
| IRetry.

(** ** The protocol of an attempt

    [start]: when the time of the attempt began. *)
Inductive Attempt :=
| Idle
| Joining (attempt : Z) (host : string) (start : Z)
| Accepted (attempt : Z) (host : string) (rm : Z) (start : Z)
| Joined (attempt : Z) (host : string) (rm : Z)
| Failed.

(** An attempt that is under way, with its host. *)
Definition under_way (x : Attempt) : option (Z * string * Z) :=
  match x with
  | Joining a h t | Accepted a h _ t => Some (a, h, t)
  | Idle | Joined _ _ _ | Failed => None
  end.

Section protocol.
  Context {ids : AetherIds} {archive : BootstrapArchive} {uids : AetherUids}.

(** The input is a control message of the host for the attempt. *)
Definition control_for (i : Input) (a : Z) (h : string) (msg : ChatBootstrapMessage) : Prop :=
  ∃ source b j c1 c2 c3, i = IControl source b j c1 c2 c3 ∧
    DecodeChatBootstrap b = Some msg ∧ attempt_id msg = a ∧ canonical_source source = h.

Inductive Moves (i : Input) : Attempt → Attempt → Prop :=
| moves_stay x : Moves i x x
| moves_begin x a h now new base clock reading :
    i = IJoinHost a new base now clock reading →
    (∀ a' h' t, under_way x = Some (a', h', t) → h' ≠ h) →
    Moves i x (Joining a h now)
| moves_invalid x a now new base clock reading :
    i = IJoinHost a new base now clock reading →
    (∀ a h rm, x ≠ Joined a h rm) →
    Moves i x Failed
| moves_accepted a h t msg :
    control_for i a h msg → kind msg = kJoinAccepted → ObjId_is_valid (room_id msg) = true →
    Moves i (Joining a h t) (Accepted a h (room_id msg) t)
| moves_again a h t msg :
    control_for i a h msg → kind msg = kJoinAccepted → ObjId_is_valid (room_id msg) = true →
    Moves i (Joining a h t) (Joined a h (room_id msg))
| moves_rejected x a h t msg :
    under_way x = Some (a, h, t) → control_for i a h msg → kind msg = kJoinRejected →
    Moves i x Failed
| moves_conflict a h rm t msg :
    control_for i a h msg → kind msg = kJoinAccepted → room_id msg ≠ rm →
    Moves i (Accepted a h rm t) Failed
| moves_timeout x a h t now reading :
    i = IDrive now reading → under_way x = Some (a, h, t) → t + kJoinAttemptDeadline ≤ now →
    Moves i x Failed
| moves_imported a h rm t is_room clock reading :
    i = IImported h rm is_room clock reading →
    Moves i (Accepted a h rm t) (Joined a h rm).
End protocol.

(** ** The invariant of a worker *)
Section worker.
  Context {ids : AetherIds} {rep : Replica} {links : ChatLinks}.
  Context {archive : BootstrapArchive} {laws : BootstrapArchiveLaws} {uids : AetherUids}.
  Context (me : string).
  Implicit Types (w : Worker) (m : ChatModel) (f : ChatDemoRuntimeFields) (k : Z).

Abbreviation rt w := (fields (runtime w)).
Abbreviation ws w := (fields (workspace (model (chat w)))).

Definition attempt_of w : Attempt :=
  match join_phase (rt w) with
  | kIdle => Idle
  | kJoining => Joining (join_attempt_id (rt w)) (expected_host_uid (rt w)) (join_attempt_start w)
  | kAccepted => Accepted (join_attempt_id (rt w)) (expected_host_uid (rt w))
                   (accepted_room_id (rt w)) (join_attempt_start w)
  | kJoined => Joined (join_attempt_id (rt w)) (expected_host_uid (rt w))
                 (accepted_room_id (rt w))
  | kFailed => Failed
  end.

(** The room of the entry of a peer. *)
Definition offers m (uid : string) (rm : Z) : Prop :=
  ∃ id n, Some id ∈ chats (fields (workspace m)) ∧ entries m !! id = Some n ∧
    peer_uid (fields n) = uid ∧ room (fields n) = Some rm ∧ is_Some (rooms m !! rm).

(** A control message is a request, a rejection, or the acceptance of a client whose entry
    has the room in the model that was on disk when the message was sent. *)
Definition effect_ok (e : Effect) : Prop :=
  match e with
  | SendControl uid b saved =>
      ∃ msg, EncodeChatBootstrap msg = Some b ∧
        (kind msg = kJoinAccepted → ∃ m, saved = Some m ∧ offers m uid (room_id msg))
  | _ => True
  end.

(** What the record of attempts says of the model: an attempt is one of a client, for the
    entry of its host; a joined room is the one of the entry. *)
Record record_ok m f : Prop := {
  ro_idle : join_phase f = kIdle → ObjId_is_valid (join_attempt_id f) = false;
  ro_client : join_phase f ≠ kIdle → demo_role (fields (workspace m)) = kClient;
  ro_entry : joining (join_phase f) = true ∨ join_phase f = kJoined →
    ObjId_is_valid (join_attempt_id f) = true ∧ expected_host_uid f ≠ ""%string ∧
    Some (join_entry_id f) ∈ chats (fields (workspace m)) ∧
    chat_peer m (Some (join_entry_id f)) = Some (expected_host_uid f);
  ro_room : join_phase f = kAccepted ∨ join_phase f = kJoined →
    ObjId_is_valid (accepted_room_id f) = true;
  ro_joined : join_phase f = kJoined → bound_room_id f = accepted_room_id f ∧
    ∃ n, entries m !! join_entry_id f = Some n ∧ room (fields n) = Some (accepted_room_id f)
}.

(** The scheduler has the request of the attempt that is under way, and no other. *)
Definition armed w : Prop :=
  if joining (join_phase (rt w))
  then join_sched_attempt_id w = join_attempt_id (rt w) ∧ join_frozen_bytes w ≠ []
  else join_frozen_bytes w = [].

Record base_ok k w : Prop := {
  bo_runtime : Budget k (runtime w);
  bo_chat : chat_ok me k (model (chat w));
  bo_persists : persists (chat w) = true;
  bo_record : record_ok (model (chat w)) (rt w);
  bo_frozen : join_frozen_bytes w = [] ∨ ∃ msg, kind msg = kJoinRequest ∧
    EncodeChatBootstrap msg = Some (join_frozen_bytes w);
  bo_sent : Forall effect_ok (effects w)
}.

Definition worker_ok k w : Prop := base_ok k w ∧ armed w.

Lemma base_ok_weaken k k' w : k' ≤ k → base_ok k w → base_ok k' w.
Proof.
  intros Hk []. split; [by eapply Budget_weaken|by eapply chat_ok_weaken|done..].
Qed.

Lemma worker_ok_weaken k k' w : k' ≤ k → worker_ok k w → worker_ok k' w.
Proof. intros Hk [H ?]. split; [by eapply base_ok_weaken|done]. Qed.

(** Variables that are not part of the invariant. *)
Lemma base_ok_same k w w' :
  base_ok k w → runtime w' = runtime w → chat w' = chat w →
  join_frozen_bytes w' = join_frozen_bytes w ∨ join_frozen_bytes w' = [] →
  effects w' = effects w → base_ok k w'.
Proof.
  intros [Hr Hc Hp Ho Hf Hs] E1 E2 E3 E4. split; rewrite ?E1, ?E2, ?E4; try done.
  destruct E3 as [->| ->]; [done|by left].
Qed.

Lemma base_ok_emit k w l : base_ok k w → Forall effect_ok l → base_ok k (emit w l).
Proof. intros [] Hl. split; try done. cbn. by apply list.Forall_app. Qed.

Lemma base_ok_waiting k w l : base_ok k w → base_ok k (set_waiting w l).
Proof. intros H. eapply base_ok_same; [exact H|done..|by left|done]. Qed.
Lemma base_ok_dirty k w : base_ok k w → base_ok k (set_dirty w).
Proof. intros H. eapply base_ok_same; [exact H|done..|by left|done]. Qed.
Lemma base_ok_clear k w : base_ok k w → base_ok k (clear_join_scheduler w).
Proof. intros H. eapply base_ok_same; [exact H|done..|by right|done]. Qed.
Lemma base_ok_forget k w uid : base_ok k w → base_ok k (forget w uid).
Proof. intros H. unfold forget. case_match; [|done]. apply base_ok_emit; [done|by constructor]. Qed.
Lemma base_ok_expect k w uid rm : base_ok k w → base_ok k (expect_room w uid rm).
Proof. intros H. unfold expect_room. case_match; [|done]. apply base_ok_emit; [done|by constructor]. Qed.

(** *** The model changes *)

Lemma extends_listed m m' id : extends m m' →
  Some id ∈ chats (fields (workspace m)) → Some id ∈ chats (fields (workspace m')).
Proof. intros [[[l ->] _] _ _] H. set_solver. Qed.

Lemma extends_peer m m' p uid : extends m m' →
  chat_peer m p = Some uid → chat_peer m' p = Some uid.
Proof.
  intros He. destruct p as [id|]; [|done]. cbn. destruct (entries m !! id) as [n|] eqn:E; [|done].
  destruct (ext_entries _ _ He id n E) as (n' & -> & Hp & _). cbn.
  by rewrite Hp.
Qed.

Lemma record_ok_extends m m' f : extends m m' → record_ok m f → record_ok m' f.
Proof.
  intros He [Hidle Hc Hent Hrm Hj]. split; [done| | |done|].
  - intros Hp. specialize (Hc Hp). destruct (ext_workspace _ _ He) as [_ H].
    rewrite <-Hc. apply H. by rewrite Hc.
  - intros Hp. destruct (Hent Hp) as (H1 & H2 & H3 & H4). split_and!; [done|done| |].
    + by eapply extends_listed.
    + by eapply extends_peer.
  - intros Hp. destruct (Hj Hp) as [Hb (n & Hn & Hr)]. split; [done|].
    destruct (ext_entries _ _ He _ _ Hn) as (n' & Hn' & _ & H). exists n'. auto.
Qed.

Lemma base_ok_chat k k' w c :
  0 ≤ k → k ≤ k' → base_ok k' w → result_ok me k (chat w) c → base_ok k (set_chat w c).
Proof.
  intros Hk Hle [Hr Hc Hp Ho Hf Hs] (Hps & Hok & He & _). split; cbn; try done.
  - by eapply Budget_weaken.
  - by rewrite Hps.
  - by eapply record_ok_extends.
Qed.

Lemma armed_chat w c : armed w → armed (set_chat w c).
Proof. done. Qed.

(** *** The record of attempts changes *)

Lemma commit_runtime_ok k w e reading :
  0 ≤ k → base_ok (k + 1) w → clock_within (k + 1) reading → CanApply_Join (rt w) e = true →
  record_ok (model (chat w)) (Apply_Join (rt w) e) →
  ∃ n, commit_runtime w e reading = Some (set_runtime w n) ∧
    fields n = Apply_Join (rt w) e ∧ base_ok k (set_runtime w n).
Proof.
  intros Hk [Hr Hc Hp Ho Hf Hs] Hclock Hcan Hrec. unfold commit_runtime.
  destruct (Commit_Budget k (runtime w) e reading (Apply_Join (rt w) e) true)
    as (n & r & Hn & Hb & Hnf & _); [done..|].
  rewrite Hn. exists n. split; [done|]. split; [done|]. split; cbn; rewrite ?Hnf; try done.
  by eapply chat_ok_weaken, Hc; lia.
Qed.
(** *** What a closure must do *)

Definition ok (i : Input) k w (o : option Worker) : Prop :=
  ∃ w', o = Some w' ∧ worker_ok k w' ∧ Moves i (attempt_of w) (attempt_of w').

Lemma attempt_of_same w w' :
  rt w' = rt w →
  (joining (join_phase (rt w)) = true → join_attempt_start w' = join_attempt_start w) →
  attempt_of w' = attempt_of w.
Proof. intros E Hs. unfold attempt_of. rewrite E. destruct (join_phase (rt w)); by rewrite ?Hs. Qed.

Lemma ok_stay i k w w' :
  worker_ok k w' → rt w' = rt w →
  (joining (join_phase (rt w)) = true → join_attempt_start w' = join_attempt_start w) →
  ok i k w (Some w').
Proof.
  intros Hw E Hs. exists w'. split; [done|]. split; [done|].
  rewrite (attempt_of_same w w') by done. constructor.
Qed.

Lemma ok_refl i k k' w : k ≤ k' → worker_ok k' w → ok i k w (Some w).
Proof. intros Hk H. apply ok_stay; [by eapply worker_ok_weaken|done..]. Qed.

Lemma ok_failed i k w w' :
  base_ok k w' → join_phase (rt w') = kFailed → join_frozen_bytes w' = [] →
  Moves i (attempt_of w) Failed → ok i k w (Some w').
Proof.
  intros Hb Hp Hz Hm. exists w'. split; [done|]. split; [split; [done|]|].
  - unfold armed. by rewrite Hp.
  - unfold attempt_of at 2. by rewrite Hp.
Qed.

Lemma record_ok_failed m f a reason :
  demo_role (fields (workspace m)) = kClient →
  record_ok m (Apply_Join f (JoinHostFailedEvent a reason)).
Proof. intros Hc. destruct f. split; cbn; [done|done|by intros [?|?]|by intros [?|?]|done]. Qed.

Lemma record_ok_completed m f a rm :
  record_ok m f → CanApply_Join f (JoinHostCompletedEvent a rm) = true →
  (∃ n, entries m !! join_entry_id f = Some n ∧ room (fields n) = Some rm) →
  record_ok m (Apply_Join f (JoinHostCompletedEvent a rm)).
Proof.
  intros [_ Hc Hent Hrm Hj] Hcan Hn.
  assert (ObjId_is_valid rm = true ∧ (join_phase f = kAccepted ∨ join_phase f = kJoined))
    as [Hv Hp].
  { cbn in Hcan. destruct (ObjId_is_valid a), (ObjId_is_valid rm); try done. split; [done|].
    destruct (join_phase f); cbn in Hcan; try done; auto. }
  destruct f. cbn in *. split; cbn; [done|intros _; apply Hc; by destruct Hp as [->| ->]| |done|done].
  intros _. apply Hent. destruct Hp as [->| ->]; [by left|by right].
Qed.

Lemma FindEntryById_spec k m id :
  chat_ok me k m → Some id ∈ chats (fields (workspace m)) →
  FindEntryById m id = entries m !! id.
Proof. intros Hm Hin. unfold FindEntryById. by rewrite (proj2 (has_entry_spec _ _) Hin). Qed.

(** An attempt fails, and what belongs to it is forgotten. *)
Lemma commit_failed k w a reason reading :
  0 ≤ k → base_ok (k + 1) w → clock_within (k + 1) reading → demo_role (ws w) = kClient →
  CanApply_Join (rt w) (JoinHostFailedEvent a reason) = true →
  ∃ n, commit_runtime w (JoinHostFailedEvent a reason) reading = Some (set_runtime w n) ∧
    join_phase (fields n) = kFailed ∧ base_ok k (set_runtime w n).
Proof.
  intros Hk Hb Hclock Hc Hcan.
  destruct (commit_runtime_ok k w _ reading Hk Hb Hclock Hcan) as (n & Hn & Hf & Hb');
    [by apply record_ok_failed|].
  exists n. split; [done|]. split; [|done]. rewrite Hf. by destruct (rt w).
Qed.

Lemma joining_spec p : joining p = true ↔ p = kJoining ∨ p = kAccepted.
Proof. destruct p; unfold joining; cbn; naive_solver. Qed.

Lemma attempt_under_way w :
  joining (join_phase (rt w)) = true →
  under_way (attempt_of w) =
    Some (join_attempt_id (rt w), expected_host_uid (rt w), join_attempt_start w).
Proof. intros [H|H]%joining_spec; unfold attempt_of; by rewrite H. Qed.

Lemma CanApply_failed f a reason :
  joining (join_phase f) = true → ObjId_is_valid a = true → a = join_attempt_id f →
  reason ≠ ""%string → CanApply_Join f (JoinHostFailedEvent a reason) = true.
Proof.
  intros Hj Hv -> Hr. cbn [CanApply_Join]. apply String.eqb_neq in Hr as ->.
  fold (joining (join_phase f)). rewrite Hj, Hv, Z.eqb_refl. done.
Qed.

Lemma base_ok_send_request k w now :
  base_ok k w → join_frozen_bytes w ≠ [] → base_ok k (send_request w now).
Proof.
  intros H Hf. pose proof (bo_frozen _ _ H) as [?|(msg & Hm & Hb)]; [done|].
  eapply base_ok_same; [apply (base_ok_emit k w); [exact H|]|try reflexivity..].
  - constructor; [done|]. constructor; [|constructor]. exists msg. split; [exact Hb|].
    by rewrite Hm.
  - by left.
Qed.

(** *** The clock *)

Lemma drive_join_send_ok k w now reading :
  0 ≤ k → worker_ok (k + 1) w → clock_within (k + 1) reading →
  ok (IDrive now reading) k w (drive_join_send w now reading).
Proof.
  intros Hk Hw Hclock. pose proof Hw as [Hb Ha].
  assert (base_ok k w) as Hb0 by (by eapply base_ok_weaken, Hb; lia).
  unfold drive_join_send.
  destruct (negb (endpoint w) || negb (bool_decide (demo_role (ws w) = kClient))) eqn:E1;
    [by eapply ok_refl, Hw; lia|].
  apply orb_false_elim in E1 as [_ Hrole%negb_false_iff%bool_decide_eq_true].
  destruct (joining (join_phase (rt w))) eqn:Hj; cbn [negb].
  2: { apply ok_stay; [|done|by rewrite Hj]. split.
       - by apply base_ok_clear.
       - unfold armed. cbn. by rewrite Hj. }
  unfold armed in Ha. rewrite Hj in Ha. destruct Ha as [Hid Hne]. rewrite Hid.
  destruct (ro_entry _ _ (bo_record _ _ Hb) (or_introl Hj)) as (Hv & Hh & _).
  rewrite Hv, Z.eqb_refl, bool_decide_eq_false_2 by done. cbn [negb orb].
  case_match; [by eapply ok_refl, Hw; lia|]. clear H.
  destruct (Z.leb_spec kJoinAttemptDeadline (now - join_attempt_start w)) as [Hd|Hd].
  - unfold commit_runtime_if. rewrite CanApply_failed; [|done|done|done|by case_match].
    set (reason := if decide _ then _ else _).
    destruct (commit_failed k w (join_attempt_id (rt w)) reason reading) as (n & -> & Hp & Hb');
      [done..|by apply CanApply_failed; [..|subst reason; case_match]|].
    cbn [mbind option_bind]. apply ok_failed.
    + by apply base_ok_clear, base_ok_waiting, base_ok_forget.
    + unfold forget. by case_match.
    + done.
    + eapply moves_timeout; [done|by apply attempt_under_way|lia].
  - assert (ok (IDrive now reading) k w (Some (send_request w now))) as Hsend.
    { apply ok_stay; [|done|done]. split; [by apply base_ok_send_request|apply Hw]. }
    case_match; [|done]. case_match; [|done]. by eapply ok_refl, Hw; lia.
Qed.
(** *** Control messages to a client *)

Lemma expected_spec w source msg :
  expected w source msg = true ↔
  canonical_source source = expected_host_uid (rt w) ∧ attempt_id msg = join_attempt_id (rt w).
Proof.
  unfold expected. rewrite andb_true_iff, String.eqb_eq, Z.eqb_eq. done.
Qed.

Section control.
Variables (k : Z) (w : Worker) (i : Input) (source : string) (msg : ChatBootstrapMessage).
Hypotheses (Hk : 0 ≤ k) (Hw : worker_ok (k + 2) w) (Hclient : demo_role (ws w) = kClient).
Hypothesis (Hi : expected w source msg = true →
  control_for i (join_attempt_id (rt w)) (expected_host_uid (rt w)) msg).

Lemma handle_rejected_ok reading :
  clock_within (k + 2) reading → kind msg = kJoinRejected →
  ok i k w (handle_rejected w source msg reading).
Proof.
  intros Hclock Hkind. unfold handle_rejected.
  destruct (expected w source msg) eqn:E; cbn [negb]; [|by eapply ok_refl, Hw; lia].
  specialize (Hi eq_refl). apply expected_spec in E as [Es Ea].
  set (reason := if String.eqb (rejection_reason msg) "" then _ else _).
  destruct (CanApply_Join (rt w) (JoinHostFailedEvent (attempt_id msg) reason)) eqn:Hcan;
    cbn [negb]; [|by eapply ok_refl, Hw; lia].
  destruct (commit_failed k w (attempt_id msg) reason reading) as (n & -> & Hp & Hb');
    [done|by eapply base_ok_weaken, Hw; lia|intros j; specialize (Hclock j); lia|done|done|].
  cbn [mbind option_bind]. apply ok_failed.
  { by apply base_ok_dirty, base_ok_clear, base_ok_waiting, base_ok_forget. }
  { unfold forget. by case_match. }
  { done. }
  destruct (joining (join_phase (rt w))) eqn:Hj.
  { eapply moves_rejected; [by apply attempt_under_way|exact Hi|done]. }
  destruct Hi as (src & b & j & c1 & c2 & c3 & _ & Hdec & _).
  apply DecodeChatBootstrap_ok in Hdec. unfold bootstrap_ok in Hdec.
  apply andb_prop in Hdec as [Hv _]. rewrite Ea in Hv.
  pose proof (ro_idle _ _ (bo_record _ _ (proj1 Hw))) as Hidle. unfold attempt_of.
  cbn in Hcan. case_match; [done|]. destruct (join_phase (rt w)); try done.
  - by rewrite Hidle in Hv.
  - constructor.
Qed.

Lemma handle_first_accept_ok clock :
  clock_ok (k + 2) clock → kind msg = kJoinAccepted → join_phase (rt w) = kJoining →
  expected w source msg = true → ObjId_is_valid (room_id msg) = true →
  ok i k w (handle_first_accept w source msg clock).
Proof.
  intros Hclock Hkind Hph E Hroom. unfold handle_first_accept. specialize (Hi E).
  apply expected_spec in E as [Es Ea]. pose proof Hw as [Hb Ha].
  destruct (CanApply_Join (rt w) _) eqn:Hcan; cbn [negb]; [|by eapply ok_refl, Hw; lia].
  assert (joining (join_phase (rt w)) = true) as Hj by (by rewrite Hph).
  destruct (ro_entry _ _ (bo_record _ _ Hb) (or_introl Hj)) as (Hv & Hh & Hin & Hpeer).
  replace (k + 2) with (k + 1 + 1) in * by lia.
  set (ev := JoinHostAcceptedEvent _ _ _) in *.
  assert (record_ok (model (chat w)) (Apply_Join (rt w) ev)) as Hrec.
  { pose proof (ro_client _ _ (bo_record _ _ Hb)) as Hc. rewrite Hph in Hc.
    destruct (rt w). cbn in *. split; cbn; [done|auto|by intros _|done|done]. }
  destruct (commit_runtime_ok (k + 1) w ev (clock 0%nat)) as (n & -> & Hn & Hb1);
    [lia|done|apply Hclock|done|done|].
  cbn [mbind option_bind].
  assert (join_phase (fields n) = kAccepted ∧ join_attempt_id (fields n) = join_attempt_id (rt w) ∧
    expected_host_uid (fields n) = expected_host_uid (rt w) ∧
    accepted_room_id (fields n) = room_id msg ∧ join_entry_id (fields n) = join_entry_id (rt w))
    as (Np & Na & Nh & Nr & Ne) by (rewrite Hn; by destruct (rt w)).
  set (w1 := set_runtime w n) in *.
  assert (armed w1) as Ha1.
  { unfold armed in *. rewrite Hph in Ha. cbn in *. rewrite Np, Na. apply Ha. }
  assert (∀ w', base_ok k w' → rt w' = rt w1 → armed w' →
    join_attempt_start w' = join_attempt_start w → ok i k w (Some w')) as Haccept.
  { intros w' Hb' Er Ha' Et. exists w'. split; [done|]. split; [done|].
    unfold attempt_of. rewrite Hph, Er, Et. cbn [runtime set_runtime w1]. rewrite Np, Na, Nh, Nr.
    by constructor. }
  assert (base_ok k w1) as Hb1' by (by eapply base_ok_weaken, Hb1; lia).
  case_bool_decide as Hbound.
  2: { apply Haccept; [by apply base_ok_dirty, base_ok_expect, base_ok_waiting|..];
         unfold expect_room; by case_match. }
  set (done' := JoinHostCompletedEvent _ _).
  destruct (CanApply_Join (rt w1) done') eqn:Hcan2.
  2: { by apply Haccept; [apply base_ok_dirty|..]. }
  assert (record_ok (model (chat w1)) (Apply_Join (rt w1) done')) as Hrec2.
  { apply record_ok_completed; [apply Hb1|done|]. cbn. cbn in Hbound. rewrite Ne in *.
    rewrite (FindEntryById_spec _ _ _ (bo_chat _ _ Hb) Hin) in Hbound.
    destruct (entries _ !! _) as [en|]; [|done]. by exists en. }
  destruct (commit_runtime_ok k w1 done' (clock 1%nat)) as (n2 & -> & Hn2 & Hb2);
    [done|done|intros j; specialize (Hclock 1%nat j); lia|done|done|].
  cbn [mbind option_bind]. eexists. split; [reflexivity|]. split; [split|].
  - by apply base_ok_dirty, base_ok_clear.
  - unfold armed. cbn. rewrite Hn2. cbn. by destruct (fields n).
  - unfold attempt_of. rewrite Hph. cbn. rewrite Hn2. cbn.
    destruct (fields n). cbn in *. rewrite Na, Nh. by constructor.
Qed.

Lemma handle_accepted_ok clock :
  clock_ok (k + 2) clock → kind msg = kJoinAccepted →
  ok i k w (handle_accepted w source msg clock).
Proof.
  intros Hclock Hkind. pose proof (handle_first_accept_ok clock Hclock Hkind) as Hfirst.
  unfold handle_accepted. pose proof Hw as [Hb Ha].
  assert (base_ok k w) as Hb0 by (by eapply base_ok_weaken, Hb; lia).
  destruct (expected w source msg) eqn:E; cbn [negb orb]; [|by eapply ok_refl, Hw; lia].
  destruct (ObjId_is_valid (room_id msg)) eqn:Hv; cbn [negb]; [|by eapply ok_refl, Hw; lia].
  case_match; [by eapply ok_refl, Hw; lia|]. clear H.
  destruct (bool_decide (join_phase (rt w) = kAccepted)) eqn:Hph; cbn [andb].
  - apply bool_decide_eq_true in Hph.
    destruct ((accepted_room_id (rt w) =? room_id msg) && _) eqn:Hsame.
    { apply ok_stay; [split; [by apply base_ok_waiting, base_ok_expect|]| |];
        unfold expect_room; by case_match. }
    destruct (ObjId_is_valid _ && _) eqn:Hconf.
    + set (reason := "Join conflict: host offered a different room"%string).
      destruct (CanApply_Join (rt w) _) eqn:Hcan; [|by eapply ok_refl, Hw; lia].
      destruct (commit_failed k w (attempt_id msg) reason (clock 0%nat)) as (n & -> & Hp & Hb');
        [done|by eapply base_ok_weaken, Hb; lia|intros j; specialize (Hclock 0%nat j); lia|done|done|].
      cbn [mbind option_bind]. apply ok_failed; [by apply base_ok_dirty, base_ok_clear|done|done|].
      unfold attempt_of. rewrite Hph. apply andb_prop in Hconf as [_ Hne%negb_true_iff%Z.eqb_neq].
      by eapply moves_conflict; [apply Hi|done|].
    + rewrite Hph. by eapply ok_refl, Hw; lia.
  - destruct (bool_decide (join_phase (rt w) = kJoining)) eqn:Hph'; cbn [negb];
      [|by eapply ok_refl, Hw; lia].
    apply bool_decide_eq_true in Hph'. by apply Hfirst.
Qed.
End control.
(** *** The user joins a host *)

Lemma arm_join_scheduler_ok k w now :
  base_ok k w → joining (join_phase (rt w)) = true →
  (join_frozen_bytes w ≠ [] → armed w) →
  worker_ok k (arm_join_scheduler w now) ∧
  rt (arm_join_scheduler w now) = rt w ∧
  join_attempt_start (arm_join_scheduler w now) =
    (if bool_decide (join_frozen_bytes w = []) then now else join_attempt_start w).
Proof.
  intros Hb Hj Ha. unfold arm_join_scheduler.
  destruct (ro_entry _ _ (bo_record _ _ Hb) (or_introl Hj)) as (Hv & Hh & _).
  assert (demo_role (ws w) = kClient) as Hc.
  { apply (ro_client _ _ (bo_record _ _ Hb)). by apply joining_spec in Hj as [-> | ->]. }
  rewrite (bool_decide_eq_true_2 _ Hc), Hj, Hv. apply String.eqb_neq in Hh as ->.
  cbn [negb orb]. case_bool_decide as Hf; cbn [negb].
  - rewrite andb_false_r. destruct (EncodeChatBootstrap_request (join_attempt_id (rt w))
      (room_id (join_request w))) as (b & He & Hne).
    change (EncodeChatBootstrap (join_request w) = Some b) in He. rewrite He.
    split; [|done]. split; [|unfold armed; cbn; by rewrite Hj].
    destruct Hb as [H1 H2 H3 H4 H5 H6]. split; try done. right. by exists (join_request w).
  - specialize (Ha Hf). pose proof Ha as Ha'. unfold armed in Ha'. rewrite Hj in Ha'.
    destruct Ha' as [-> _]. by rewrite Z.eqb_refl.
Qed.

Lemma commit_requested k w req entry host reading :
  0 ≤ k → base_ok (k + 1) w → clock_within (k + 1) reading → demo_role (ws w) = kClient →
  ObjId_is_valid req = true → host ≠ ""%string → Some entry ∈ chats (ws w) →
  chat_peer (model (chat w)) (Some entry) = Some host →
  let e := JoinHostRequestedEvent req entry host in
  CanApply_Join (rt w) e = true ∧
  ∃ n, commit_runtime w e reading = Some (set_runtime w n) ∧ base_ok k (set_runtime w n) ∧
    join_phase (fields n) = kJoining ∧ join_attempt_id (fields n) = req ∧
    expected_host_uid (fields n) = host.
Proof.
  intros Hk Hb Hclock Hc Hv Hh Hin Hpeer e.
  assert (CanApply_Join (rt w) e = true) as Hcan.
  { cbn. destruct (ws_listed _ _ _ (chat_fields _ _ _ (bo_chat _ _ Hb)) _ Hin)
      as (_ & ? & [= <-] & ->). by apply String.eqb_neq in Hh as ->. }
  split; [done|].
  destruct (commit_runtime_ok k w e reading Hk Hb Hclock Hcan) as (n & Hn & Hf & Hb').
  { destruct (rt w). split; cbn; [done|done|by intros _|by intros [?|?]|done]. }
  exists n. split; [done|]. split; [done|]. rewrite Hf. by destruct (rt w).
Qed.

Definition join_ok k w (req_id new_id base_id : Z) clock reading : Prop :=
  clock_ok (k + 3) clock ∧ clock_within (k + 3) reading ∧ ObjId_is_valid req_id = true ∧
  entries (model (chat w)) !! new_id = None ∧ ObjId_is_valid new_id = true ∧ base_id ≠ new_id.

(** The part after the entry of the host has been found or made. *)
Lemma begin_attempt k w w1 req new_id base_id now clock reading entry host :
  0 ≤ k → worker_ok (k + 1) w → rt w1 = rt w → join_attempt_start w1 = join_attempt_start w →
  armed w1 → base_ok (k + 1) w1 → clock_within (k + 1) reading →
  demo_role (ws w1) = kClient →
  ObjId_is_valid req = true → host ≠ ""%string → Some entry ∈ chats (ws w1) →
  chat_peer (model (chat w1)) (Some entry) = Some host →
  ok (IJoinHost req new_id base_id now clock reading) k w
    (if joining (join_phase (rt w1)) && String.eqb (expected_host_uid (rt w1)) host
     then Some (arm_join_scheduler w1 now)
     else
       let w2 :=
         if joining (join_phase (rt w1)) && negb (String.eqb (expected_host_uid (rt w1)) "") &&
            negb (String.eqb (expected_host_uid (rt w1)) host)
         then
           let w := forget w1 (expected_host_uid (rt w1)) in
           clear_join_scheduler
             (set_waiting w (delete (expected_host_uid (rt w)) (waiting w)))
         else w1 in
       let e := JoinHostRequestedEvent req entry host in
       if negb (CanApply_Join (rt w2) e) then Some w2
       else
         w ← commit_runtime w2 e reading;
         Some (set_dirty (arm_join_scheduler w now))).
Proof.
  intros Hk Hw Hrt Hst Ha Hb Hclock Hc Hv Hh Hin Hpeer.
  destruct (joining (join_phase (rt w1)) && String.eqb (expected_host_uid (rt w1)) host) eqn:E.
  { apply andb_prop in E as [Hj _].
    destruct (arm_join_scheduler_ok k w1 now) as (Hw' & E1 & E2);
      [by eapply base_ok_weaken, Hb; lia|done|done|].
    apply ok_stay; [done|congruence|]. intros _. rewrite E2.
    unfold armed in Ha. rewrite Hj in Ha. destruct Ha as [_ Hne].
    by rewrite bool_decide_eq_false_2. }
  set (w2 := if _ && _ && _ then _ else w1).
  assert (rt w2 = rt w1 ∧ chat w2 = chat w1 ∧ base_ok (k + 1) w2 ∧ join_frozen_bytes w2 = [])
    as (R2 & C2 & B2 & F2).
  { subst w2. destruct (joining (join_phase (rt w1))) eqn:Hj; cbn [andb] in *.
    - destruct (ro_entry _ _ (bo_record _ _ Hb) (or_introl Hj)) as (_ & Hne & _).
      apply String.eqb_neq in Hne. rewrite Hne, E. cbn.
      split; [unfold forget; by case_match|]. split; [unfold forget; by case_match|].
      split; [by apply base_ok_clear, base_ok_waiting, base_ok_forget|done].
    - unfold armed in Ha. rewrite Hj in Ha. done. }
  clearbody w2. cbv zeta.
  destruct (commit_requested k w2 req entry host reading) as (-> & n & -> & Hb3 & P3 & A3 & H3);
    [done|done|done|by rewrite ?C2..|]. cbn [negb mbind option_bind].
  destruct (arm_join_scheduler_ok k (set_runtime w2 n) now) as (Hw' & E1 & E2);
    [done|cbn; by rewrite P3|done|].
  eexists. split; [reflexivity|]. split; [split; [by apply base_ok_dirty, Hw'|apply Hw']|].
  cbn in E1, E2. rewrite bool_decide_eq_true_2 in E2 by done.
  unfold attempt_of at 2. cbn [runtime set_dirty join_attempt_start].
  rewrite E1, E2, P3, A3, H3. eapply moves_begin; [done|].
  intros a h t Hx. unfold attempt_of in Hx. rewrite <-Hrt in Hx.
  destruct (join_phase (rt w1)); cbn in Hx; simplify_eq; cbn in E; by apply String.eqb_neq in E.
Qed.

Lemma begin_join_ok k w req new_id base_id now clock reading :
  0 ≤ k → worker_ok (k + 3) w → join_ok k w req new_id base_id clock reading →
  ok (IJoinHost req new_id base_id now clock reading) k w
    (begin_join w req new_id base_id now clock reading).
Proof.
  intros Hk Hw (Hclock & Hread & Hreq & Hnew & Hvalid & Hbase). pose proof Hw as [Hb Ha].
  unfold begin_join. case_bool_decide as Hc; cbn [negb]; [|by eapply ok_refl, Hw; lia].
  unfold SetHostUidInput. rewrite bool_decide_eq_false_2 by naive_solver.
  rewrite String.eqb_refl. cbn [mbind option_bind].
  set (w0 := set_chat w (chat w)). change (model (chat w0)) with (model (chat w)).
  change (my_uid w0) with (my_uid w). change (rt w0) with (rt w).
  assert (base_ok (k + 1) w0) as Hb0.
  { eapply base_ok_same; [by eapply base_ok_weaken, Hb; lia|done..|by left|done]. }
  destruct (TryCanonicalizeAetherUid _ ≫= _) as [host|] eqn:Hcanon.
  - destruct (TryCanonicalizeAetherUid _) as [u|] eqn:Hu; [|done]. cbn [mbind option_bind] in Hcanon.
    case_match; [done|]. injection Hcanon as ->.
    apply TryCanonicalizeAetherUid_trimmed in Hu as [Htrim Hne].
    replace (k + 3) with (k + 1 + 2) in * by lia.
    destruct (OpenOrSelectChat_selects me (k + 1) (chat w) host new_id base_id clock)
      as (id & c & Ho & Hres & Hsel & Hpeer & _ & Hcase);
      [lia|apply Hb|done|by rewrite Htrim|done..|].
    cbn [chat w0 set_chat]. rewrite Ho. cbn [mbind option_bind].
    apply begin_attempt; [done|by eapply worker_ok_weaken, Hw; lia|done|done|done| | | |done|done| |].
    + apply (base_ok_chat (k + 1) (k + 1 + 2)); [lia..| |done].
      eapply base_ok_same; [exact Hb|done..|by left|done].
    + intros j. specialize (Hread j). lia.
    + destruct Hres as (_ & _ & He & _). destruct (ext_workspace _ _ He) as [_ Hrole].
      cbn. rewrite <-Hc. apply Hrole. by rewrite Hc.
    + cbn. destruct Hcase as [(Hin & Hch & _)|(_ & -> & -> & _)]; [by rewrite Hch|set_solver].
    + change (chat_peer (model c) (Some id) = Some host). by rewrite Hpeer, Htrim.
  - unfold commit_runtime_if. change (rt w) with (rt w0).
    destruct (CanApply_Join (rt w0) _) eqn:Hcan; change (rt w0) with (rt w) in *.
    + destruct (commit_failed k w0 (join_attempt_id (rt w)) "Invalid Host UID" reading)
        as (n & Hn & Hp & Hb'); [done|done|intros j; specialize (Hread j); lia|done|done|].
      rewrite Hn. cbn [mbind option_bind].
      apply ok_failed; [by apply base_ok_dirty, base_ok_clear|done|done|].
      eapply moves_invalid; [done|]. intros a h rm. unfold attempt_of. cbn in Hcan.
      destruct (join_phase (rt w)); try done.
    + cbn [mbind option_bind].
      assert (joining (join_phase (rt w)) = false) as Hj.
      { destruct (joining (join_phase (rt w))) eqn:Hj; [|done].
        destruct (ro_entry _ _ (bo_record _ _ Hb) (or_introl Hj)) as (Hv & _).
        by rewrite CanApply_failed in Hcan. }
      apply ok_stay; [|done|by rewrite Hj]. split; [|unfold armed; cbn; by rewrite Hj].
      apply base_ok_dirty, base_ok_clear. by eapply base_ok_weaken, Hb0; lia.
Qed.
(** *** The host *)

(** The attempts are left alone. *)
Definition quiet w w' : Prop :=
  runtime w' = runtime w ∧ join_sched_attempt_id w' = join_sched_attempt_id w ∧
  join_frozen_bytes w' = join_frozen_bytes w ∧ join_attempt_start w' = join_attempt_start w.

Lemma quiet_trans w1 w2 w3 : quiet w1 w2 → quiet w2 w3 → quiet w1 w3.
Proof. intros (A1 & A2 & A3 & A4) (B1 & B2 & B3 & B4). split_and!; by etrans. Qed.

Lemma ok_quiet i k w w' : base_ok k w' → quiet w w' → armed w → ok i k w (Some w').
Proof.
  intros Hb (E1 & E2 & E3 & E4) Ha. apply ok_stay; [split; [done|]|by rewrite E1|done].
  unfold armed in *. by rewrite E1, E2, E3.
Qed.

Lemma quiet_ensure w rm : quiet w (ensure_registered w rm).
Proof. unfold ensure_registered. by case_match. Qed.
Lemma quiet_send w uid msg : quiet w (send_control w uid msg).
Proof. unfold send_control. repeat case_match; done. Qed.
Lemma base_ok_ensure k w rm : base_ok k w → base_ok k (ensure_registered w rm).
Proof.
  intros H. unfold ensure_registered. case_match; [done|].
  apply base_ok_emit; [|by constructor]. eapply base_ok_same; [exact H|done..|by left|done].
Qed.
Lemma base_ok_send k w uid msg :
  base_ok k w →
  (kind msg = kJoinAccepted → ∃ m, durable w = Some m ∧ offers m uid (room_id msg)) →
  base_ok k (send_control w uid msg).
Proof.
  intros H Hm. unfold send_control. destruct (EncodeChatBootstrap msg) as [b|] eqn:E; [|done].
  case_match; [|done]. apply base_ok_emit; [done|]. constructor; [done|].
  constructor; [|constructor]. by exists msg.
Qed.

(** Saving the workspace makes its model the durable one. *)
Lemma base_ok_persist k w :
  0 ≤ k → base_ok k w →
  base_ok k (persist_workspace w) ∧ quiet w (persist_workspace w) ∧
  durable (persist_workspace w) = Some (model (chat w)) ∧
  model (chat (persist_workspace w)) = model (chat w).
Proof.
  intros Hk H. split; [|split; [done|]].
  - apply (base_ok_chat k k); [done|done|done|]. apply persist_ok, result_ok_refl, H.
  - unfold durable, persist_workspace, persist. cbn. rewrite (bo_persists _ _ H). cbn.
    by rewrite last_snoc.
Qed.

Lemma sync_effect (b : bool) w e k :
  base_ok k w → effect_ok e → let w' := if b then emit w [e] else w in base_ok k w' ∧ quiet w w'.
Proof. intros H He. destruct b; [|done]. split; [by apply base_ok_emit; [|constructor]|done]. Qed.

Section accept.
Variables (k : Z) (w : Worker) (inp : Input) (client : string) (req : ChatBootstrapMessage).
Hypotheses (Hk : 0 ≤ k) (Ha : armed w).

Lemma accept_existing_ok id n rm :
  base_ok k w → Some id ∈ chats (ws w) → entries (model (chat w)) !! id = Some n →
  peer_uid (fields n) = client → room (fields n) = Some rm →
  ok inp k w (accept_existing w client req rm).
Proof.
  intros Hb Hin Hid Hpeer Hroom.
  destruct (chat_entries _ _ _ (bo_chat _ _ Hb) id n Hid) as (_ & Hrm & _).
  destruct (Hrm rm Hroom) as [r Hr]. unfold accept_existing. case_match.
  { unfold send_join_rejected. case_match; [by eapply ok_refl; [|split]|].
    apply ok_quiet; [by apply base_ok_send|apply quiet_send|done]. }
  destruct (base_ok_persist k w Hk Hb) as (Hb1 & Hq1 & Hd1 & Hm1).
  set (w1 := persist_workspace w) in *. clearbody w1.
  set (w2 := send_accepted w1 client (attempt_id req) rm).
  assert (base_ok k w2) as Hb2.
  { apply base_ok_send; [done|]. intros _. exists (model (chat w)). split; [done|].
    exists id, n. by split_and!; [..|eexists]. }
  set (w3 := ensure_registered w2 rm).
  assert (base_ok k w3) as Hb3 by (by apply base_ok_ensure).
  assert (model (chat w3) = model (chat w)) as Hm3.
  { rewrite <-Hm1. unfold w3, w2, ensure_registered, send_accepted, send_control.
    repeat case_match; done. }
  assert (quiet w w3) as Hq3.
  { eapply quiet_trans; [exact Hq1|]. eapply quiet_trans; [apply quiet_send|].
    apply quiet_ensure. }
  clearbody w3. rewrite Hm3, Hr. cbn [mbind option_bind].
  destruct (sync_effect (if ObjId_is_valid (default ObjId_none (share_id <$> remote_share (fields r) client)) then
        match link_sync_states (fields r) !!
          FindLinkSyncIndexForShare (fields r)
            (default ObjId_none (share_id <$> remote_share (fields r) client)) with
        | Some (Some state) =>
            negb (initial_sync_phase (fields state) =? InitialSyncPhase.Complete)
        | _ => false
        end
      else false) w3
    (SyncInitialState rm (default ObjId_none (share_id <$> remote_share (fields r) client))) k Hb3 I)
    as [Hb4 Hq4].
  apply ok_quiet; [by apply base_ok_dirty|by eapply quiet_trans|done].
Qed.

(** What object creation and the clock give to the acceptance of a new client. *)
Definition accept_ok (i : RoomIds) clock1 clock2 clock3 : Prop :=
  clock_ok (k + 3) clock1 ∧ clock_ok (k + 3) clock2 ∧ clock_ok (k + 3) clock3 ∧
  room_ids_ok i ∧ EndpointUid (remote_link i) = client ∧
  entries (model (chat w)) !! new_entry_id i = None ∧
  ObjId_is_valid (new_entry_id i) = true ∧ new_entry_base i ≠ new_entry_id i.

(** The end of the acceptance, once the entry is bound. *)
Lemma accept_bound_ok w1 n rm id e :
  base_ok k w1 → quiet w w1 → Some id ∈ chats (ws w1) →
  entries (model (chat w1)) !! id = Some e → peer_uid (fields e) = client →
  room (fields e) = Some rm → is_Some (rooms (model (chat w1)) !! rm) →
  ok inp k w
    (let w2 := send_accepted (persist_workspace w1) client (attempt_id req) rm in
     let w3 := ensure_registered w2 rm in
     let share_id := default ObjId_none (share_id <$> remote_share (fields (n : ChatRoom)) client) in
     let w4 := if ObjId_is_valid share_id then emit w3 [SyncInitialState rm share_id] else w3 in
     Some (set_dirty w4)).
Proof.
  intros Hb Hq Hin Hid Hpeer Hroom Hr. cbv zeta.
  destruct (base_ok_persist k w1 Hk Hb) as (Hb1 & Hq1 & Hd1 & _).
  set (w2 := send_accepted _ client (attempt_id req) rm).
  assert (base_ok k w2) as Hb2.
  { apply base_ok_send; [done|]. intros _. exists (model (chat w1)). split; [done|].
    by exists id, e. }
  assert (quiet w (ensure_registered w2 rm)) as Hq3.
  { eapply quiet_trans; [exact Hq|]. eapply quiet_trans; [exact Hq1|].
    eapply quiet_trans; [apply quiet_send|]. apply quiet_ensure. }
  edestruct (sync_effect (ObjId_is_valid (default ObjId_none (share_id <$> remote_share (fields n) client)))
    (ensure_registered w2 rm) (SyncInitialState rm
      (default ObjId_none (share_id <$> remote_share (fields n) client))) k) as [Hb4 Hq4];
    [by apply base_ok_ensure|done|].
  apply ok_quiet; [by apply base_ok_dirty|by eapply quiet_trans|done].
Qed.

Lemma accept_new_ok i clock1 clock2 clock3 :
  base_ok (k + 3) w → me ≠ ""%string → client ≠ ""%string → TrimAsciiWhitespace client ≠ ""%string →
  accept_ok i clock1 clock2 clock3 →
  ok inp k w (accept_new w client req i clock1 clock2 clock3).
Proof.
  intros Hb Hme Hcl Htrim (Hc1 & Hc2 & Hc3 & Hids & Hend & Hnew & Hvalid & Hbase).
  unfold accept_new. replace (k + 3) with (k + 1 + 2) in * by lia.
  destruct (OpenOrSelectChat_selects me (k + 1) (chat w) client (new_entry_id i)
    (new_entry_base i) clock1)
    as (id & c & -> & Hres & _ & Hpeer & _ & Hcase); [lia|apply Hb|done|done|done|done|done|].
  cbn [mbind option_bind].
  assert (base_ok (k + 1) (set_chat w c)) as Hb1.
  { by apply (base_ok_chat (k + 1) (k + 1 + 2)); [lia..| |]. }
  assert (Some id ∈ chats (fields (workspace (model c)))) as Hin.
  { destruct Hcase as [(Hin & -> & _)|(_ & -> & -> & _)]; [done|set_solver]. }
  destruct (budget_domain _ _ (chat_workspace _ _ _ (bo_chat _ _ Hb1))) as [d Hd].
  pose proof (budget_size _ _ (chat_workspace _ _ _ (bo_chat _ _ Hb))) as Hsz.
  pose proof (zlen_nonneg (journal (workspace (model (chat w))))) as Hz.
  destruct (create_room_ok me (k + 1) d i clock2) as (n & Hn & Hrok & Hnd & Hbelow & Hsh);
    [lia|lia| |done|done|].
  { intros a b. specialize (Hc2 a b). lia. }
  change (domain (workspace (model (chat (set_chat w c)))) = Some d) in Hd.
  rewrite Hd, Hn. cbn [mbind option_bind].
  set (rm := new_room_id i). set (w1 := set_chat w c) in *.
  set (c2 := set_model (chat w1) (with_room (model (chat w1)) rm n)).
  assert (result_ok me (k + 1) (chat w1) c2) as Hres2.
  { apply set_model_ok; [|apply extends_room]. apply chat_ok_new_room; [apply Hb1|done|].
    apply Hbelow. }
  assert (base_ok (k + 1) (set_chat w1 c2)) as Hb2.
  { by apply (base_ok_chat (k + 1) (k + 1)); [lia..| |]. }
  cbn in Hpeer. destruct (entries (model c) !! id) as [e|] eqn:He; [|done].
  destruct (BindChat_spec me k c2 id e (mkPtr (remote_link i) (Some d)) (mkPtr rm (Some d)) clock3)
    as (b & c3 & Hbind & Hres3 & Hch & Hrooms & Hbound & _);
    [done|apply Hb2|intros a j; specialize (Hc3 a j); lia|done| |].
  { cbn. rewrite lookup_insert_eq. by eexists. }
  change (chat (set_chat w1 c2)) with c2. rewrite Hbind. cbn [mbind option_bind].
  assert (base_ok k (set_chat (set_chat w1 c2) c3)) as Hb3.
  { apply (base_ok_chat k (k + 1)); [lia..| |]; done. }
  destruct b; cbn [negb]; [|by apply ok_quiet].
  destruct (Hbound eq_refl) as (e' & He' & Hroom & Hpeer').
  eapply (accept_bound_ok _ n rm id e'); try done.
  - cbn. rewrite Hch. cbn. done.
  - by rewrite Hpeer'.
  - cbn. rewrite Hrooms. cbn. rewrite lookup_insert_eq. by eexists.
Qed.

Lemma host_accept_client_ok i clock1 clock2 clock3 :
  base_ok (k + 3) w → me ≠ ""%string → TrimAsciiWhitespace client ≠ ""%string →
  accept_ok i clock1 clock2 clock3 →
  ok inp k w (host_accept_client w client req i clock1 clock2 clock3).
Proof.
  intros Hb Hme Htrim Hacc.
  assert (ok inp k w (Some w)) as Hrefl.
  { eapply (ok_refl _ _ (k + 3)); [lia|by split]. }
  unfold host_accept_client. case_match; [done|]. case_match; [done|].
  destruct (String.eqb client "" || String.eqb client (my_uid w)) eqn:E; [done|].
  apply orb_false_elim in E as [Hcl%String.eqb_neq _].
  pose proof (chat_fields _ _ _ (bo_chat _ _ Hb)) as Hws.
  destruct (find_peer_spec (model (chat w)) client (chats (ws w))) as (found & -> & Hspec).
  { intros p Hp. by apply (ws_listed _ _ _ Hws). }
  cbn [mbind option_bind].
  destruct found as [id|]; cbn [mbind option_bind]; [|by apply accept_new_ok].
  destruct Hspec as [Hin Hpeer]. cbn in Hpeer.
  destruct (entries (model (chat w)) !! id) as [n|] eqn:Hid; [|done].
  cbn [mbind option_bind]. cbn in Hpeer. injection Hpeer as Hpeer.
  destruct (room (fields n)) as [rm|] eqn:Hroom; [|by apply accept_new_ok].
  eapply accept_existing_ok; try done. by eapply base_ok_weaken, Hb; lia.
Qed.
End accept.
(** *** Control messages *)

Lemma handle_control_ok k w source b i clock1 clock2 clock3 :
  0 ≤ k → worker_ok (k + 3) w → me ≠ ""%string → TrimAsciiWhitespace source ≠ ""%string →
  accept_ok k w source i clock1 clock2 clock3 →
  ok (IControl source b i clock1 clock2 clock3) k w
    (handle_control w source b i clock1 clock2 clock3).
Proof.
  intros Hk Hw Hme Htrim Hacc.
  assert (worker_ok (k + 2) w) as Hw2 by (by eapply worker_ok_weaken, Hw; lia).
  assert (clock_ok (k + 2) clock1) as Hclock.
  { intros x j. destruct Hacc as [H _]. specialize (H x j). lia. }
  unfold handle_control. case_match; [by eapply ok_refl, Hw; lia|].
  destruct (DecodeChatBootstrap b) as [msg|] eqn:Hdec; [|by eapply ok_refl, Hw; lia].
  case_match.
  - destruct (host_accept_client_ok k w (IControl source b i clock1 clock2 clock3) source msg
      Hk (proj2 Hw) i clock1 clock2 clock3) as (w' & -> & [Hb' Ha'] & Hm); [apply Hw|done..|].
    cbn [mbind option_bind]. exists (set_dirty w'). split; [done|].
    split; [split; [by apply base_ok_dirty|done]|done].
  - destruct (bool_decide (demo_role (ws w) = kClient)) eqn:Hc; cbn [negb];
      [|by eapply ok_refl, Hw; lia]. apply bool_decide_eq_true in Hc.
    assert (expected w source msg = true → control_for (IControl source b i clock1 clock2 clock3)
      (join_attempt_id (rt w)) (expected_host_uid (rt w)) msg) as Hi.
    { intros [Es Ea]%expected_spec. by exists source, b, i, clock1, clock2, clock3. }
    destruct (kind msg) eqn:Hkind.
    + by eapply ok_refl, Hw; lia.
    + by apply handle_accepted_ok.
    + by apply handle_rejected_ok.
Qed.

(** *** A room arrives *)

Lemma remote_share_spec (f : SharedFields ChatRoomFields) uid s :
  remote_share f uid = Some s → ∃ l, link s = Some l ∧ EndpointUid l = uid.
Proof.
  unfold remote_share. intros [_ H]%find_some. destruct (link s) as [l|]; [|done].
  exists l. split; [done|]. by apply String.eqb_eq.
Qed.

(** The attempt is over with the room of its entry. *)
Lemma imported_joined k w w1 inp reading source rm is_room clock :
  0 ≤ k → base_ok (k + 1) w1 → rt w1 = rt w → clock_within (k + 1) reading →
  inp = IImported (expected_host_uid (rt w)) rm is_room clock reading →
  join_phase (rt w) = kAccepted → rm = accepted_room_id (rt w) →
  (∃ n, entries (model (chat w1)) !! join_entry_id (rt w1) = Some n ∧
     room (fields n) = Some rm) →
  ∃ n, commit_runtime_if w1 (JoinHostCompletedEvent (join_attempt_id (rt w1)) rm) reading =
      Some (set_runtime w1 n) ∧
    let w' := imported (set_runtime w1 n) source in
    worker_ok k w' ∧ Moves inp (attempt_of w) (attempt_of w').
Proof.
  intros Hk Hb Hrt Hclock Hinp Hph Hrm Hn.
  assert (joining (join_phase (rt w1)) = true) as Hj by (by rewrite Hrt, Hph).
  destruct (ro_entry _ _ (bo_record _ _ Hb) (or_introl Hj)) as (Hv & _).
  pose proof (ro_room _ _ (bo_record _ _ Hb)) as Hroom. rewrite Hrt in Hroom.
  specialize (Hroom (or_introl Hph)). rewrite <-Hrm in Hroom.
  assert (CanApply_Join (rt w1) (JoinHostCompletedEvent (join_attempt_id (rt w1)) rm) = true)
    as Hcan.
  { cbn. rewrite Hv, Hroom, Hrt, Hph, <-Hrm, Hroom, !Z.eqb_refl. done. }
  unfold commit_runtime_if. rewrite Hcan.
  destruct (commit_runtime_ok k w1 _ reading Hk Hb Hclock Hcan) as (n & -> & Hf & Hb');
    [by apply record_ok_completed; [apply Hb|..]|].
  exists n. split; [done|]. cbv zeta. split; [split|].
  - apply base_ok_dirty. eapply base_ok_same; [exact Hb'|done..|by right|done].
  - unfold armed. cbn. rewrite Hf. by destruct (rt w1).
  - unfold attempt_of. rewrite Hph. cbn. rewrite Hf, Hrt. destruct (rt w) eqn:E. cbn in *.
    subst rm. by eapply moves_imported.
Qed.

(** What the synchronization runtime gives to the callback. *)
Definition imported_ok k w (rm : Z) (is_room : bool) clock reading : Prop :=
  clock_ok (k + 3) clock ∧ clock_within (k + 3) reading ∧
  (is_room = true → is_Some (rooms (model (chat w)) !! rm)).

Lemma on_imported_ok k w source rm is_room clock reading :
  0 ≤ k → worker_ok (k + 3) w → imported_ok k w rm is_room clock reading →
  ok (IImported source rm is_room clock reading) k w
    (snd <$> on_imported w source rm is_room clock reading).
Proof.
  intros Hk Hw (Hclock & Hread & Hr). pose proof Hw as [Hb Ha].
  assert (ok (IImported source rm is_room clock reading) k w (Some w)) as Hrefl
    by (by eapply ok_refl, Hw; lia).
  unfold on_imported. case_bool_decide as Hph; cbn [negb]; [|done].
  destruct (String.eqb_spec source (expected_host_uid (rt w))) as [->|]; cbn [negb]; [|done].
  destruct is_room; cbn [negb]; [|done]. case_match eqn:Eg; [done|].
  apply orb_false_elim in Eg as [_ Hrm%negb_false_iff%Z.eqb_eq].
  destruct (Hr eq_refl) as [n Hn]. rewrite Hn. cbn [mbind option_bind].
  set (w0 := set_chat w _).
  assert (base_ok (k + 1 + 1) w0) as Hb0.
  { destruct (chat_rooms _ _ _ (bo_chat _ _ Hb) rm n Hn) as [Hrok Hids].
    apply (base_ok_chat (k + 1 + 1) (k + 3)); [lia..|done|].
    apply set_model_ok; [|apply extends_room].
    apply (chat_ok_room _ _ _ _ _ n); [by eapply chat_ok_weaken, Hb; lia|done| |done].
    by eapply room_ok_blocked, room_ok_weaken, Hrok; lia. }
  assert (rt w0 = rt w ∧ quiet w w0) as [Hrt0 Hq0] by done.
  assert (ok (IImported (expected_host_uid (rt w)) rm true clock reading) k w (Some w0)) as Hw0.
  { apply ok_quiet; [by eapply base_ok_weaken, Hb0; lia|done|done]. }
  assert (rooms (model (chat w0)) !! rm = Some (SetJournalCompactionBlocked n true)) as Hrw.
  { cbn. apply lookup_insert_eq. }
  clearbody w0. destruct (waiting w0 !! _) as [entry|]; [|done].
  destruct (Z.eqb_spec entry (join_entry_id (rt w0))) as [->|]; cbn [negb]; [|done].
  assert (joining (join_phase (rt w0)) = true) as Hj by (by rewrite Hrt0, Hph).
  destruct (ro_entry _ _ (bo_record _ _ Hb0) (or_introl Hj)) as (_ & _ & Hin & _).
  rewrite (FindEntryById_spec _ _ _ (bo_chat _ _ Hb0) Hin).
  destruct (entries (model (chat w0)) !! join_entry_id (rt w0)) as [e|] eqn:He; [|done].
  case_bool_decide as Hother; [done|].
  destruct (s ← remote_share (fields n) _; link s) as [remote|] eqn:Hrem; [|done].
  case_bool_decide as Hroom.
  - destruct (imported_joined k w w0 (IImported (expected_host_uid (rt w)) rm true clock reading)
      reading (expected_host_uid (rt w)) rm true clock) as (n' & -> & Hok & Hm);
      [done|by eapply base_ok_weaken, Hb0; lia|done|intros j; specialize (Hread j); lia|done..
      |by exists e|].
    cbn [mbind option_bind fmap option_fmap option_map]. by eexists.
  - destruct (BindChat_spec me (k + 1) (chat w0) (join_entry_id (rt w0)) e
      (mkPtr remote (domain n)) (mkPtr rm (domain n)) clock)
      as (b & c & -> & Hres & Hch & Hrooms & Hbound & _);
      [lia|apply Hb0|intros a j; specialize (Hclock a j); lia|done|by eexists|].
    cbn [mbind option_bind].
    assert (base_ok (k + 1) (set_chat w0 c)) as Hb1.
    { by apply (base_ok_chat (k + 1) (k + 1 + 1)); [lia..| |]. }
    destruct b; cbn [negb].
    2: { by apply ok_quiet; [eapply base_ok_weaken, Hb1; lia|..]. }
    destruct (base_ok_persist (k + 1) (set_chat w0 c)) as (Hb2 & Hq2 & _ & Hm2); [lia|done|].
    set (w2 := persist_workspace (set_chat w0 c)) in *.
    destruct (imported_joined k w w2 (IImported (expected_host_uid (rt w)) rm true clock reading)
      reading (expected_host_uid (rt w)) rm true clock) as (n' & Hn' & Hok & Hm);
      [done|done|done|intros j; specialize (Hread j); lia|done..| |].
    { rewrite Hm2. destruct (Hbound eq_refl) as (e' & He' & Hroom' & _). by exists e'. }
    change (join_attempt_id (rt w0)) with (join_attempt_id (rt w2)).
    rewrite Hn'. cbn [mbind option_bind fmap option_fmap option_map]. by eexists.
Qed.
End worker.
