(* ===== verification/ChatSessionRuns.v ===== *)
(** * Runs of a session

    The closures of ChatSession.v one after the other, in any order that the user, the peers
    and the network give ([Input] of ChatSessionTheory.v): every run completes, follows the
    protocol of [Moves], and keeps the invariant of the worker; with it, what a joined room
    is, when an attempt ends, and what a host has announced. *)
From S2P Require Import Prelude Aether SharedEvent Node LinkSync NodeTheory SharedNode.
From S2P Require Import NodeBudget SharedNodeTheory ChatModel ChatModelTheory ChatJoin ChatJoinTheory.
From S2P Require Import ChatSession ChatRoomTheory ChatSessionTheory.

Section runs.
  Context {ids : AetherIds} {rep : Replica} {links : ChatLinks}.
  Context {archive : BootstrapArchive} {uids : AetherUids}.
  Implicit Types (w : Worker) (k : Z) (i : Input).

(** The closure of an input.  The room of [IRoom] is what the synchronization runtime has
    made of it. *)
Definition session_step w i : option Worker :=
  match i with
  | IChat c clock => set_chat w <$> execute (chat w) c clock
  | ICopy req_id reading => snd <$> copy_host_uid w req_id reading
  | IJoinHost req new base now clock reading => begin_join w req new base now clock reading
  | IDrive now reading => drive_join_send w now reading
  | IControl source b i c1 c2 c3 => handle_control w source b i c1 c2 c3
  | IRoom rm n => Some (set_chat w (set_model (chat w) (with_room (model (chat w)) rm n)))
  | IImported source rm is_room clock reading =>
      snd <$> on_imported w source rm is_room clock reading
  | IUid stale uid clock => on_uid w stale uid clock
  | IReady stale now => Some (on_ready w stale now)
  | IRetry => Some (restart_network w)
  end.

Fixpoint session_run w (l : list Input) : option Worker :=
  match l with
  | [] => Some w
  | i :: l => w ← session_step w i; session_run w l
  end.

Context {laws : BootstrapArchiveLaws} (me : string).
Abbreviation rt w := (fields (runtime w)).
Abbreviation ws w := (fields (workspace (model (chat w)))).

(** What the surroundings give to an input: arguments as the commands of the chat need them,
    fresh and valid identifiers, clocks in range, rooms as the synchronization runtime keeps
    them, and the uid of this device. *)
Definition input_ok k w i : Prop :=
  match i with
  | IChat c clock => clock_ok (k + 2) clock ∧ command_ok me k (model (chat w)) c
  | ICopy _ reading => clock_within (k + 1) reading
  | IJoinHost req new base _ clock reading => join_ok k w req new base clock reading
  | IDrive _ reading => clock_within (k + 1) reading
  | IControl source _ i c1 c2 c3 =>
      TrimAsciiWhitespace source ≠ ""%string ∧ accept_ok k w source i c1 c2 c3
  | IRoom rm n => room_ok me k n ∧ identities_below me (next_message_sequence (ws w)) n
  | IImported _ rm is_room clock reading => imported_ok k w rm is_room clock reading
  | IUid _ uid clock =>
      clock_ok (k + 1) clock ∧ (uid = me ∨ local_endpoint_uid (ws w) ≠ ""%string)
  | IReady _ _ | IRetry => True
  end.

Lemma on_uid_ok k w stale uid clock :
  0 ≤ k → worker_ok me (k + 1) w → input_ok k w (IUid stale uid clock) →
  ok me (IUid stale uid clock) k w (on_uid w stale uid clock).
Proof.
  intros Hk Hw [Hclock Huid]. pose proof Hw as [Hb Ha]. unfold on_uid.
  destruct stale; [by eapply ok_refl, Hw; lia|].
  assert (∀ b, base_ok me (k + 1) (set_uid w uid b)) as Hb1.
  { intros b. eapply base_ok_same; [exact Hb|done..|by left|done]. }
  cbn [set_uid chat]. case_match eqn:Eg.
  { apply ok_quiet; [|done|done]. eapply base_ok_dirty, base_ok_weaken, Hb1. lia. }
  assert (uid = me) as ->.
  { destruct Huid as [|Hne]; [done|].
    destruct (ws_local _ _ _ (chat_fields _ _ _ (bo_chat _ _ _ Hb))) as [Hl|Hl]; [done|].
    apply String.eqb_neq in Hne. rewrite Hne, Hl in Eg. cbn in Eg.
    by apply negb_false_iff, String.eqb_eq in Eg. }
  destruct (BindLocalEndpoint_completes me k (chat w) clock Hk (bo_chat _ _ _ Hb) Hclock)
    as (b & c & -> & Hres). cbn [mbind option_bind].
  assert (∀ b', base_ok me k (set_chat (set_uid w me b') c)) as Hb2.
  { intros b'. apply (base_ok_chat me k (k + 1)); [done|lia|apply Hb1|done]. }
  destruct b; cbn [negb]; apply ok_quiet; try done; apply base_ok_dirty; [apply Hb2|].
  eapply base_ok_same; [apply (Hb2 true)|done..|by left|done].
Qed.

(** *** The network is ready *)

Lemma fold_quiet {A} (g : Worker → A → Worker) k l w :
  (∀ w a, base_ok me k w → base_ok me k (g w a) ∧ quiet w (g w a) ∧ chat (g w a) = chat w) →
  base_ok me k w →
  base_ok me k (foldl g w l) ∧ quiet w (foldl g w l) ∧ chat (foldl g w l) = chat w.
Proof.
  intros Hg. revert w. induction l as [|a l IH]; intros w Hb; [done|].
  destruct (Hg w a Hb) as (H1 & H2 & H3). destruct (IH _ H1) as (H4 & H5 & H6).
  split; [done|]. split; [by eapply quiet_trans|]. cbn. by rewrite H6.
Qed.

Lemma on_ready_ok k w stale now :
  0 ≤ k → worker_ok me k w → ok me (IReady stale now) k w (Some (on_ready w stale now)).
Proof.
  intros Hk [Hb Ha]. unfold on_ready. case_match; [by eapply (ok_refl _ _ k k)|].
  set (w1 := set_registered (set_ready w) true ∅).
  assert (base_ok me k w1) as Hb1.
  { eapply base_ok_same; [exact Hb|done..|by left|done]. }
  destruct (fold_quiet (λ w p, match e ← entry_at w p; room (fields e) with
      | Some rm => ensure_registered w rm | None => w end) k (chats (ws w1)) w1)
    as (Hb2 & Hq2 & _); [|done|].
  { intros v p Hv. destruct (entry_at v p ≫= _); [|done].
    split; [by apply base_ok_ensure|]. split; [apply quiet_ensure|].
    unfold ensure_registered. by case_match. }
  fold (register_rooms w1) in Hb2, Hq2. set (w2 := register_rooms w1) in *.
  assert (base_ok me k (expect_again w2) ∧ quiet w2 (expect_again w2)) as [Hb3 Hq3].
  { unfold expect_again. case_match; [|done]. split; [|done].
    apply base_ok_emit; [by apply base_ok_waiting|by constructor]. }
  set (w3 := expect_again w2) in *.
  destruct (fold_quiet (λ w p, match e ← entry_at w p; peer_link (fields e) with
      | Some l => if String.eqb (EndpointUid l) "" then w else emit w [OpenPeer (EndpointUid l)]
      | None => w end) k (chats (ws w3)) w3) as (Hb4 & Hq4 & _); [|done|].
  { intros v p Hv. destruct (entry_at v p ≫= _); [|done]. case_match; [done|].
    split; [by apply base_ok_emit; [|constructor]|done]. }
  fold (open_peers w3) in Hb4, Hq4. set (w4 := open_peers w3) in *.
  assert (quiet w w4) as Hq.
  { eapply quiet_trans; [|exact Hq4]. eapply quiet_trans; [|exact Hq3].
    by eapply quiet_trans; [|exact Hq2]. }
  clearbody w4. clear Hb1 Hb2 Hb3 Hq2 Hq3 Hq4 w1 w2 w3.
  assert (armed w4) as Ha4.
  { destruct Hq as (E1 & E2 & E3 & _). unfold armed in *. by rewrite E1, E2, E3. }
  case_match eqn:Ej.
  2: { apply ok_quiet; [by apply base_ok_dirty|done|done]. }
  apply andb_prop in Ej as [_ Hj]. unfold armed in Ha4. rewrite Hj in Ha4.
  destruct Ha4 as [Hid Hne].
  assert (rearm w4 now = w4) as ->.
  { unfold rearm. by rewrite Hid, Z.eqb_refl, bool_decide_eq_false_2. }
  case_match; [|by apply ok_quiet; [apply base_ok_dirty|..]].
  apply ok_quiet; [by apply base_ok_dirty, base_ok_send_request| |done].
  by eapply quiet_trans; [exact Hq|].
Qed.

(** *** Every input *)

Lemma copy_host_uid_ok k w req_id reading :
  0 ≤ k → worker_ok me (k + 1) w → clock_within (k + 1) reading →
  ok me (ICopy req_id reading) k w (snd <$> copy_host_uid w req_id reading).
Proof.
  intros Hk Hw Hclock. pose proof Hw as [Hb Ha]. unfold copy_host_uid.
  case_match; [by eapply ok_refl, Hw; lia|].
  destruct (commit_runtime_ok me k w (CopyHostUidRequestedEvent req_id
      (local_endpoint_uid (ws w))) reading) as (n & -> & Hf & Hb'); [done..| |].
  { pose proof (bo_record _ _ _ Hb) as Hrec. by destruct (rt w), Hrec; split. }
  cbn [mbind option_bind fmap option_fmap option_map].
  eexists. split; [reflexivity|]. split; [split; [by apply base_ok_dirty|]|].
  - unfold armed in *. cbn. rewrite Hf. by destruct (rt w).
  - assert (attempt_of (set_dirty (set_runtime w n)) = attempt_of w) as Hat.
    { unfold attempt_of. cbn. rewrite Hf. by destruct (rt w). }
    cbn [snd]. rewrite Hat. constructor.
Qed.

Lemma session_step_ok k w i :
  me ≠ ""%string → 0 ≤ k → worker_ok me (k + 3) w → input_ok k w i →
  ok me i k w (session_step w i).
Proof.
  intros Hme Hk Hw Hi. pose proof Hw as [Hb Ha].
  assert (worker_ok me (k + 1) w) as Hw1 by (by eapply worker_ok_weaken, Hw; lia).
  destruct i as [c clock|req reading|req new base now clock reading|now reading
    |source b i c1 c2 c3|rm n|source rm is_room clock reading|stale uid clock|stale now|];
    cbn [session_step input_ok] in *.
  - destruct Hi as [Hclock Hc].
    destruct (execute_ok me k (chat w) c clock) as (c' & -> & Hres);
      [done|done|eapply chat_ok_weaken, Hb; lia|done|done|].
    apply ok_quiet; [|done|done]. by apply (base_ok_chat me k (k + 3)); [lia..| |].
  - by apply copy_host_uid_ok.
  - by apply begin_join_ok.
  - by apply drive_join_send_ok.
  - destruct Hi as [Htrim Hacc]. by apply handle_control_ok.
  - destruct Hi as [Hrok Hids]. apply ok_quiet; [|done|done].
    apply (base_ok_chat me k (k + 3)); [lia..|done|]. apply set_model_ok; [|apply extends_room].
    by apply chat_ok_new_room; [eapply chat_ok_weaken, Hb; lia|..].
  - by apply on_imported_ok.
  - by apply on_uid_ok.
  - by apply on_ready_ok; [|eapply worker_ok_weaken, Hw; lia].
  - apply ok_quiet; [|done|done]. eapply base_ok_same; [eapply base_ok_weaken, Hb; lia|done..|by left|done].
Qed.

(** ** Runs *)

Fixpoint inputs_ok w (l : list Input) : Prop :=
  match l with
  | [] => True
  | i :: l =>
      input_ok (3 * zlen l) w i ∧ ∀ w', session_step w i = Some w' → inputs_ok w' l
  end.

Inductive MovesAll : list Input → Attempt → Attempt → Prop :=
| moves_nil x : MovesAll [] x x
| moves_cons i l x y z : Moves i x y → MovesAll l y z → MovesAll (i :: l) x z.

(** The first part of a run, with what the rest needs. *)
Lemma session_run_prefix w l1 l2 :
  me ≠ ""%string → worker_ok me (3 * zlen (l1 ++ l2)) w → inputs_ok w (l1 ++ l2) →
  ∃ w', session_run w l1 = Some w' ∧ worker_ok me (3 * zlen l2) w' ∧ inputs_ok w' l2 ∧
    MovesAll l1 (attempt_of w) (attempt_of w').
Proof.
  intros Hme. revert w. induction l1 as [|i l1 IH]; intros w Hw Hl.
  { exists w. by split_and!; [..|constructor]. }
  destruct Hl as [Hi Hl]. cbn [app] in Hw. rewrite zlen_cons in Hw.
  pose proof (zlen_nonneg (l1 ++ l2)).
  destruct (session_step_ok (3 * zlen (l1 ++ l2)) w i) as (w1 & H1 & Hw1 & Hm);
    [done|lia|by replace (_ + 3) with (3 * (1 + zlen (l1 ++ l2))) by lia|done|].
  destruct (IH w1 Hw1 (Hl w1 H1)) as (w' & Hr & Hw' & Hl' & Hms).
  exists w'. cbn [session_run]. rewrite H1. split_and!; try done. by econstructor.
Qed.

Lemma session_run_app w l1 l2 w1 :
  session_run w l1 = Some w1 → session_run w (l1 ++ l2) = session_run w1 l2.
Proof.
  revert w. induction l1 as [|i l1 IH]; intros w H; cbn [session_run app] in *; [by simplify_eq|].
  destruct (session_step w i); [|done]. by apply IH.
Qed.

(** The same with a host input of any size, which the user may type. *)
Definition input_given k w i : Prop :=
  match i with
  | IChat c clock => clock_ok (k + 2) clock ∧ command_given me k (model (chat w)) c
  | _ => input_ok k w i
  end.
Fixpoint inputs_given w (l : list Input) : Prop :=
  match l with
  | [] => True
  | i :: l =>
      input_given (3 * zlen l) w i ∧ ∀ w', session_step w i = Some w' → inputs_given w' l
  end.

Lemma inputs_ok_given w l : inputs_ok w l → inputs_given w l.
Proof.
  revert w. induction l as [|i l IH]; intros w H; [done|]. destruct H as [Hi Hl].
  split; [|intros w' Hw'; by apply IH, Hl].
  destruct i as [c clock| | | | | | | | |]; try done.
  destruct Hi as [Hclock Hc]. split; [done|]. by destruct c.
Qed.

(** The input types a host uid that is longer than the event accepts. *)
Definition types_too_long w i : Prop :=
  ∃ c clock, i = IChat c clock ∧ host_uid_too_long (chat w) c.

Lemma session_step_given k w i :
  me ≠ ""%string → 0 ≤ k → worker_ok me (k + 3) w → input_given k w i →
  ok me i k w (session_step w i) ∨ (types_too_long w i ∧ session_step w i = None).
Proof.
  intros Hme Hk Hw Hi. destruct i as [c clock| | | | | | | | |];
    try (left; by apply session_step_ok).
  destruct Hi as [Hclock Hc]. pose proof Hw as [Hb Ha].
  destruct (execute_given me k (chat w) c clock) as [(c' & Hc' & Hres)|[Hlong Hnone]];
    [done|done|eapply chat_ok_weaken, Hb; lia|done|done| |].
  - left. cbn [session_step]. rewrite Hc'.
    apply ok_quiet; [|done|done]. by apply (base_ok_chat me k (k + 3)); [lia..| |].
  - right. split; [by exists c, clock|]. cbn [session_step]. by rewrite Hnone.
Qed.

(** C25. Whatever the user, the peers and the network make a session do, and in whatever
    order, no closure of the model's thread fails but one: a host uid that the user has typed
    longer than 128 bytes fails the assertion of its commit.  All closures, or those before
    that one, complete; the model, what is on disk and the scheduler keep their invariant, and
    the attempt to join moves only as the protocol allows, from the request over the
    acceptance of its host to the bound room, or to a failure that has one of its four
    reasons. *)
Theorem session_run_follows_protocol w l
    (Hme : me ≠ ""%string) (Hw : worker_ok me (3 * zlen l) w) (Hl : inputs_given w l) :
  ∃ l1 l2 w', l = l1 ++ l2 ∧ session_run w l1 = Some w' ∧ worker_ok me 0 w' ∧
    MovesAll l1 (attempt_of w) (attempt_of w') ∧
    (l2 = [] ∨ ∃ i l3, l2 = i :: l3 ∧ types_too_long w' i ∧ session_step w' i = None).
Proof.
  revert w Hw Hl. induction l as [|i l IH]; intros w Hw Hl.
  { exists [], [], w. split_and!; [done..|constructor|by left]. }
  destruct Hl as [Hi Hl]. rewrite zlen_cons in Hw. pose proof (zlen_nonneg l).
  destruct (session_step_given (3 * zlen l) w i) as [(w1 & H1 & Hw1 & Hm)|[Hlong Hnone]];
    [done|lia|by replace (_ + 3) with (3 * (1 + zlen l)) by lia|done| |].
  - destruct (IH w1 Hw1 (Hl w1 H1)) as (l1 & l2 & w' & -> & Hr & Hw' & Hms & Hend).
    exists (i :: l1), l2, w'. cbn [session_run]. rewrite H1. split_and!; [done..| |done].
    by econstructor.
  - exists [], (i :: l), w. split_and!; [done..| |constructor|right; by exists i, l].
    eapply worker_ok_weaken, Hw. lia.
Qed.

(** *** A joined room is the one that the host has offered *)

(** The attempt was begun, and its host has accepted it with the room. *)
Definition offered (l : list Input) (a : Z) (h : string) (rm : Z) : Prop :=
  ∃ i msg, i ∈ l ∧ control_for i a h msg ∧ kind msg = kJoinAccepted ∧ room_id msg = rm.
Definition begun (l : list Input) (a : Z) : Prop :=
  ∃ new base now clock reading, IJoinHost a new base now clock reading ∈ l.

Definition provenance (l : list Input) (x : Attempt) : Prop :=
  match x with
  | Idle | Failed => True
  | Joining a h _ => begun l a
  | Accepted a h rm _ | Joined a h rm => begun l a ∧ offered l a h rm
  end.

Lemma provenance_moves l i x y : Moves i x y → i ∈ l → provenance l x → provenance l y.
Proof.
  intros Hm Hi. destruct Hm as [x|x a h now new base clock reading ->|x a now new base clock
    reading ->|a h t msg Hc Hk Hv|a h t msg Hc Hk Hv|x a h t msg Hu Hc Hk|a h rm t msg Hc Hk Hr
    |x a h t now reading -> Hu|a h rm t is_room clock reading ->]; cbn; try done.
  - intros _. by exists new, base, now, clock, reading.
  - intros Hb. split; [done|]. by exists i, msg.
  - intros Hb. split; [done|]. by exists i, msg.
Qed.

Lemma provenance_run l l' x y :
  MovesAll l' x y → (∀ i, i ∈ l' → i ∈ l) → provenance l x → provenance l y.
Proof.
  induction 1 as [|i l' x y z Hm _ IH]; intros Hl Hx; [done|].
  apply IH; [set_solver|]. by eapply provenance_moves, Hx; [exact Hm|apply Hl; left].
Qed.

(** C26. A client never takes part in a room that its host did not offer.  When a run that
    began without an attempt ends with a joined room, the user has asked for the attempt,
    and a control message whose source is, in canonical form, the host of the attempt has
    accepted this very attempt with this very room; the room is bound in the runtime state,
    and it is the room of the entry that the workspace has for the host. *)
Theorem joined_room_was_offered w l
    (Hme : me ≠ ""%string) (Hw : worker_ok me (3 * zlen l) w) (Hl : inputs_ok w l)
    (Hidle : attempt_of w = Idle) :
  ∃ w', session_run w l = Some w' ∧ ∀ a h rm, attempt_of w' = Joined a h rm →
    begun l a ∧ offered l a h rm ∧ bound_room_id (rt w') = rm ∧
    ∃ n, Some (join_entry_id (rt w')) ∈ chats (ws w') ∧
      entries (model (chat w')) !! join_entry_id (rt w') = Some n ∧
      peer_uid (fields n) = h ∧ room (fields n) = Some rm.
Proof.
  destruct (session_run_prefix w l []) as (w' & Hr & [Hb _] & _ & Hm);
    [done|by rewrite app_nil_r..|].
  exists w'. split; [done|]. intros a h rm Hj.
  assert (provenance l (attempt_of w')) as Hp.
  { eapply provenance_run; [exact Hm|done|]. by rewrite Hidle. }
  rewrite Hj in Hp. destruct Hp as [Hbegun Hoff]. split; [done|]. split; [done|].
  pose proof (bo_record _ _ _ Hb) as Hrec. unfold attempt_of in Hj.
  destruct (join_phase (rt w')) eqn:Hph; try done. injection Hj as Ha Hh Hrm.
  destruct (ro_joined _ _ Hrec Hph) as [Hbound (n & Hn & Hroom)].
  destruct (ro_entry _ _ Hrec (or_intror Hph)) as (_ & _ & Hin & Hpeer).
  split; [congruence|]. exists n. split; [done|]. split; [done|]. cbn in Hpeer.
  rewrite Hn in Hpeer. split; [|congruence]. injection Hpeer as Hpeer. congruence.
Qed.

(** *** An attempt ends *)

Lemma drive_join_send_ends k w now reading a h t :
  0 ≤ k → worker_ok me (k + 1) w → clock_within (k + 1) reading →
  endpoint w = true → aether_ready w = true → my_uid w ≠ ""%string →
  under_way (attempt_of w) = Some (a, h, t) → t + kJoinAttemptDeadline ≤ now →
  ∃ w', drive_join_send w now reading = Some w' ∧ attempt_of w' = Failed.
Proof.
  intros Hk [Hb Ha] Hclock He Hr Hu Hway Hd. unfold drive_join_send.
  assert (joining (join_phase (rt w)) = true ∧ join_attempt_start w = t) as [Hj <-].
  { unfold attempt_of in Hway. by destruct (join_phase (rt w)); simplify_eq/=. }
  assert (demo_role (ws w) = kClient) as Hc.
  { apply (ro_client _ _ (bo_record _ _ _ Hb)). by apply joining_spec in Hj as [-> | ->]. }
  unfold armed in Ha. rewrite Hj in Ha. destruct Ha as [Hid Hne].
  destruct (ro_entry _ _ (bo_record _ _ _ Hb) (or_introl Hj)) as (Hv & _).
  rewrite He, (bool_decide_eq_true_2 _ Hc), Hj, Hid, Hv, Z.eqb_refl, Hr.
  rewrite bool_decide_eq_false_2 by done. apply String.eqb_neq in Hu as ->. cbn [negb orb].
  destruct (Z.leb_spec kJoinAttemptDeadline (now - join_attempt_start w)); [|lia].
  unfold commit_runtime_if. rewrite CanApply_failed; [|done|done|done|by case_match].
  set (reason := if decide _ then _ else _).
  destruct (commit_failed me k w (join_attempt_id (rt w)) reason reading) as (n & -> & Hp & _);
    [done..|by apply CanApply_failed; [..|subst reason; case_match]|].
  cbn [mbind option_bind]. eexists. split; [reflexivity|].
  unfold attempt_of. replace (join_phase _) with kFailed; [done|].
  unfold forget. by case_match.
Qed.

(** The start of an attempt does not move. *)
Definition since (a t : Z) (x : Attempt) : Prop :=
  ∀ h t', under_way x = Some (a, h, t') → t' = t.

Lemma since_moves a t i x y :
  Moves i x y → (∀ new base now clock reading, i ≠ IJoinHost a new base now clock reading) →
  since a t x → since a t y.
Proof.
  intros Hm Hi Hx h t' Hy. destruct Hm; simplify_eq/=; try (by eapply Hx).
  by edestruct Hi.
Qed.

Lemma since_run a t l x y :
  MovesAll l x y → ¬ begun l a → since a t x → since a t y.
Proof.
  induction 1 as [|i l x y z Hm _ IH]; intros Hl Hx; [done|].
  apply IH; [intros (new & base & now & clock & reading & H); apply Hl;
    exists new, base, now, clock, reading; by right|].
  eapply since_moves, Hx; [exact Hm|]. intros new base now clock reading ->. apply Hl.
  exists new, base, now, clock, reading. by left.
Qed.

Lemma moves_drive now reading x y : Moves (IDrive now reading) x y → y = x ∨ y = Failed.
Proof.
  intros Hm. inversion Hm; simplify_eq; auto;
    match goal with H : control_for _ _ _ _ |- _ => by destruct H as (?&?&?&?&?&?&?&_) end.
Qed.

(** C27. An attempt never outlives its thirty seconds.  Whatever has happened since it began
    - repeated acceptances, other attempts, retries of the network, a late or missing room -
    once the scheduler runs with a network that is ready, thirty seconds after the attempt
    began or later, the attempt is not under way any more. *)
Theorem attempt_ends_by_deadline w l now reading a h t
    (Hme : me ≠ ""%string)
    (Hw : worker_ok me (3 * zlen (l ++ [IDrive now reading])) w)
    (Hl : inputs_ok w (l ++ [IDrive now reading]))
    (Hway : under_way (attempt_of w) = Some (a, h, t))
    (Hfresh : ¬ begun l a) (Hd : t + kJoinAttemptDeadline ≤ now)
    (Hready : ∀ w1, session_run w l = Some w1 →
       endpoint w1 = true ∧ aether_ready w1 = true ∧ my_uid w1 ≠ ""%string) :
  ∃ w', session_run w (l ++ [IDrive now reading]) = Some w' ∧
    ∀ h' t', under_way (attempt_of w') ≠ Some (a, h', t').
Proof.
  destruct (session_run_prefix w l [IDrive now reading]) as (w1 & Hr & Hw1 & Hl1 & Hm); [done..|].
  rewrite (session_run_app w l _ w1) by done. cbn [session_run session_step].
  change (worker_ok me (2 + 1) w1) in Hw1 || change (worker_ok me 3 w1) in Hw1.
  destruct Hl1 as [Hi _]. cbn [input_ok] in Hi. change (3 * zlen []) with 0 in Hi.
  destruct (Hready w1 Hr) as (He & Ha & Hu).
  assert (since a t (attempt_of w1)) as Hs.
  { eapply since_run; [exact Hm|done|]. intros h' t' H. congruence. }
  assert (worker_ok me (0 + 1) w1) as Hw0 by (by eapply worker_ok_weaken, Hw1).
  destruct (drive_join_send_ok me 0 w1 now reading) as (w' & Hw' & _ & Hmove); [done..|].
  rewrite Hw'. exists w'. split; [done|]. intros h' t' Hx.
  assert (under_way (attempt_of w1) = Some (a, h', t')) as Hx1.
  { by apply moves_drive in Hmove as [E|E]; rewrite E in Hx. }
  pose proof (Hs h' t' Hx1) as ->.
  destruct (drive_join_send_ends 0 w1 now reading a h' t) as (w2 & Hw2 & Hf); [done..|].
  rewrite Hw' in Hw2. injection Hw2 as <-. by rewrite Hf in Hx.
Qed.

(** *** What a host announces *)

Lemma decoded_kind msg msg' b :
  EncodeChatBootstrap msg = Some b → DecodeChatBootstrap b = Some msg' →
  kind msg' = kind msg ∧ room_id msg' = u32 (room_id msg).
Proof.
  intros He Hd. destruct (EncodeChatBootstrap_inv msg b He) as (Hs & _ & _).
  apply archive_load_save in Hs; [|apply bootstrap_value_u8]. unfold DecodeChatBootstrap in Hd.
  case_match; [done|]. rewrite Hs in Hd. cbn [mbind option_bind] in Hd.
  rewrite bool_decide_eq_true_2 in Hd by done. cbn [negb] in Hd.
  rewrite (proj2 (kind_of_value_spec _ (kind msg)) eq_refl) in Hd. cbn [mbind option_bind] in Hd.
  repeat (case_match; [done|]). by injection Hd as <-.
Qed.

(** A host announces a room only after the room is safe.  In every run that began
    before anything was sent, whenever a control message that its receiver understands as an
    acceptance has been sent to a client, the model that was on disk at that moment already
    had the entry of that client, bound to the announced room, and the room itself: a crash
    right after the announcement loses neither. *)
Theorem host_announces_durable_rooms w l
    (Hme : me ≠ ""%string) (Hw : worker_ok me (3 * zlen l) w) (Hl : inputs_ok w l) :
  ∃ w', session_run w l = Some w' ∧ ∀ uid b saved msg,
    SendControl uid b saved ∈ effects w' →
    DecodeChatBootstrap b = Some msg → kind msg = kJoinAccepted →
    ∃ m rm, saved = Some m ∧ room_id msg = u32 rm ∧ offers m uid rm.
Proof.
  destruct (session_run_prefix w l []) as (w' & Hr & [Hb _] & _ & _);
    [done|by rewrite app_nil_r..|].
  exists w'. split; [done|]. intros uid b saved msg Hin Hdec Hkind.
  pose proof (bo_sent _ _ _ Hb) as Hs. rewrite list.Forall_forall in Hs.
  destruct (Hs _ Hin) as (msg0 & Henc & Hacc).
  destruct (decoded_kind msg0 msg b Henc Hdec) as [Hk Hrm].
  destruct Hacc as (m & Hsaved & Hoff); [congruence|]. by exists m, (room_id msg0).
Qed.
End runs.
