(* ===== verification/ChatSessionExamples.v ===== *)
(** * Joining a host, step by step

    A client and a host of the chat demo: the witnesses of the theorems on control messages
    and on runs of a session. *)
From S2P Require Import Prelude Aether SharedEvent Node LinkSync NodeTheory SharedNode.
From S2P Require Import NodeBudget SharedNodeTheory ChatModel ChatModelTheory ChatModelExamples.
From S2P Require Import ChatJoin ChatJoinTheory ChatSession ChatRoomTheory ChatSessionTheory.
From S2P Require Import ChatSessionRuns.

#[local] Existing Instance Demo.ids.
#[local] Existing Instance chat_replica.

(** ** The surroundings *)

(** Identifiers little-endian, the text without its length. *)
Definition le32 (z : Z) : bytes := [z mod 256; z / 256 mod 256; z / 65536 mod 256; z / 16777216].
Definition unle32 (b0 b1 b2 b3 : Z) : Z := b0 + 256 * b1 + 65536 * b2 + 16777216 * b3.

Lemma unle32_le32 z :
  unle32 (z mod 256) (z / 256 mod 256) (z / 65536 mod 256) (z / 16777216) = z.
Proof. unfold unle32. Z.to_euclidean_division_equations. lia. Qed.

#[local] Instance demo_archive : BootstrapArchive := {|
  archive_save '(k, a, r, s) :=
    Some (k :: le32 (u32 a) ++ le32 (u32 r) ++ bytes_of_string s);
  archive_load b :=
    match b with
    | k :: a0 :: a1 :: a2 :: a3 :: r0 :: r1 :: r2 :: r3 :: s =>
        Some (k, unle32 a0 a1 a2 a3, unle32 r0 r1 r2 r3, string_of_bytes s, [])
    | _ => None
    end
|}.

#[local] Instance demo_archive_laws : BootstrapArchiveLaws.
Proof.
  split.
  - intros k a r s b _ [= <-]. cbn. by rewrite !unle32_le32, string_of_bytes_of_string.
  - intros a r. eexists. split; [reflexivity|]. split; [done|]. unfold kMaxControlPayloadBytes.
    by rewrite zlen_cons, !zlen_app.
Qed.

(** Every text in the shape of a uid is the uid that it shows. *)
#[local] Instance demo_uids : AetherUids.
Proof.
  refine {| canonical_uid s := if String.eqb (TrimAsciiWhitespace s) s then Some s else None |}.
  intros s u. destruct (String.eqb_spec (TrimAsciiWhitespace s) s); [|done]. by intros [= <-].
Defined.

Definition host_uid : string := "0000000a-0000-0000-0000-000000000001".
Definition client_uid : string := "0000000b-0000-0000-0000-000000000002".

(** Link 40 is that of the host in the room that it offers; links 41 and 42 are those of a
    new room of the host. *)
#[local] Instance session_links : ChatLinks := {|
  EndpointUid id := if id =? 40 then host_uid else if id =? 41 then host_uid
                    else if id =? 42 then client_uid else ""%string
|}.

(** ** Control messages *)

Definition an_acceptance : ChatBootstrapMessage := mkBootstrap kJoinAccepted 7 30 "".
Definition acceptance_bytes : bytes := [2; 7; 0; 0; 0; 30; 0; 0; 0].

Lemma DecodeChatBootstrap_encoded_witness :
  EncodeChatBootstrap an_acceptance = Some acceptance_bytes ∧
  DecodeChatBootstrap acceptance_bytes = Some an_acceptance.
Proof.
  split; [reflexivity|].
  destruct (DecodeChatBootstrap_encoded an_acceptance acceptance_bytes) as [H _].
  - unfold is_u32. cbn. lia.
  - unfold is_u32. cbn. lia.
  - reflexivity.
  - rewrite H. reflexivity.
Defined.

(** ** A session *)

Definition session_model (role : DemoRole) (input : string) : ChatModel :=
  mkChat (fresh 10 (mkWorkspace role input "" 1 [] 0 bounds)) ∅ ∅.

Definition session_start (role : DemoRole) (input : string) : Worker :=
  mkWorker (mkState (session_model role input) true []) (fresh 90 new_runtime_state)
    "" false false true false ∅ ∅ 0 [] 0 None false [].

Lemma session_start_ok me k role input :
  k < 1000000 → worker_ok me k (session_start role input).
Proof.
  intros Hk. assert (k < kSizeMax) by (unfold kSizeMax; lia). split; [|done]. split.
  - by apply fresh_budget.
  - split; cbn.
    + by apply fresh_budget.
    + split; cbn; [by left|unfold kMaxUint64; lia|by intros p ?%elem_of_nil|constructor|by left].
    + by intros i n [=].
    + by intros i n [=].
    + by intros i n [=].
  - done.
  - split; cbn; [done|done|by intros [?|?]|by intros [?|?]|done].
  - by left.
  - constructor.
Qed.

Definition reading_at (t : Z) : Readings := λ _, t.

(** The room that the host sends. *)
Definition offered_room : ChatRoom :=
  fresh 30 (mkShared [mkShare 61 (Some 40) ShareAccess.ReadWrite] [] (mkRoom []) 0).

Lemma offered_room_ok me k : k < 1000000 → room_ok me k offered_room.
Proof.
  intros Hk. assert (k < kSizeMax) as Hs by (unfold kSizeMax; lia).
  destruct (fresh_budget (Ev := SharedNodeEvent ChatRoomEvent) k 30 (fields offered_room) Hs)
    as [Hc Ho Hz Hd Ht]. split; try done; constructor.
Qed.

Definition no_ids : RoomIds := mkRoomIds 80 81 82 83 41 40 84 85.
Definition c0 : nat → Readings := at_time 1000.
Definition r0 : Readings := reading_at 1000.

(** The client joins, the host accepts, and the room arrives. *)
Definition joining_run : list Input :=
  [IUid false client_uid c0; IReady false 5; IJoinHost 7 50 51 10 c0 r0;
   IControl host_uid acceptance_bytes no_ids c0 c0 c0; IRoom 30 offered_room;
   IImported host_uid 30 true c0 r0].

Lemma reading_ok k : k < 1000000 → clock_within k r0.
Proof. intros Hk j. unfold r0, reading_at, kMaxUint64. lia. Qed.
Lemma clock_c0_ok k : k < 1000000 → clock_ok k c0.
Proof. intros Hk. apply at_time_ok; unfold kMaxUint64; lia. Qed.

(** The next state by computation. *)
Lemma inputs_ok_cons me w i l :
  input_ok me (3 * zlen l) w i → is_Some (session_step w i) →
  inputs_ok me (default w (session_step w i)) l → inputs_ok me w (i :: l).
Proof.
  intros Hi [w' Hw] Hl. split; [done|]. intros w'' Hw''. rewrite Hw in Hl.
  by simplify_eq/=.
Qed.

Definition client_start : Worker := session_start kClient host_uid.

Lemma joining_run_ok : inputs_ok client_uid client_start joining_run.
Proof.
  apply inputs_ok_cons; [split; [by apply clock_c0_ok|by left]|by eexists|].
  apply inputs_ok_cons; [done|by eexists|].
  apply inputs_ok_cons; [|vm_compute; by eexists|].
  { split_and!; [by apply clock_c0_ok|by apply reading_ok|done|vm_compute; done|done|done]. }
  apply inputs_ok_cons; [|vm_compute; by eexists|].
  { split; [vm_compute; discriminate|].
    split_and!; try (by apply clock_c0_ok); try done; try (vm_compute; done).
    }
  apply inputs_ok_cons; [|vm_compute; by eexists|].
  { split; [by apply offered_room_ok|]. intros r Hr. by apply elem_of_nil in Hr. }
  apply inputs_ok_cons; [|vm_compute; by eexists|done].
  split_and!; [by apply clock_c0_ok|by apply reading_ok|]. intros _. vm_compute. by eexists.
Qed.

Lemma joined_room_was_offered_witness :
  ∃ w', session_run client_start joining_run = Some w' ∧
    attempt_of w' = Joined 7 host_uid 30 ∧ offered joining_run 7 host_uid 30 ∧
    bound_room_id (fields (runtime w')) = 30.
Proof.
  destruct (joined_room_was_offered client_uid client_start joining_run) as (w' & Hw' & H).
  - discriminate.
  - apply session_start_ok. reflexivity.
  - exact joining_run_ok.
  - reflexivity.
  - exists w'. split; [exact Hw'|].
    assert (attempt_of w' = Joined 7 host_uid 30) as Hj.
    { clear H. vm_compute in Hw'. injection Hw' as <-. vm_compute. reflexivity. }
    destruct (H _ _ _ Hj) as (_ & Ho & Hb & _). split; [exact Hj|]. split; [exact Ho|exact Hb].
Defined.

(** Before the attempt the user types a host uid of 129 bytes, which ends the run there. *)
Definition long_text : string := String.string_of_list_ascii (repeat Ascii.zero 129).
Definition typing_run : list Input :=
  [IUid false client_uid c0; IReady false 5; IChat (CSetHostUidInput long_text) c0; IRetry].

Lemma inputs_given_cons me w i l :
  input_given me (3 * zlen l) w i → is_Some (session_step w i) →
  inputs_given me (default w (session_step w i)) l → inputs_given me w (i :: l).
Proof.
  intros Hi [w' Hw] Hl. split; [done|]. intros w'' Hw''. rewrite Hw in Hl.
  by simplify_eq/=.
Qed.

Lemma typing_run_given : inputs_given client_uid client_start typing_run.
Proof.
  apply inputs_given_cons; [split; [by apply clock_c0_ok|by left]|by eexists|].
  apply inputs_given_cons; [done|by eexists|].
  split; [split; [by apply clock_c0_ok|done]|].
  intros w' Hw'. exfalso. apply (f_equal (λ o, bool_decide (is_Some o))) in Hw'.
  vm_compute in Hw'. discriminate Hw'.
Qed.

Example typing_run_ends :
  bool_decide (is_Some (session_run client_start (take 2 typing_run))) = true ∧
  bool_decide (is_Some (session_run client_start (take 3 typing_run))) = false.
Proof. vm_compute. split; reflexivity. Qed.

(** The run of a join has no text that is too long, so it completes. *)
Lemma session_run_follows_protocol_witness :
  ∃ w', session_run client_start joining_run = Some w' ∧
    MovesAll joining_run Idle (Joined 7 host_uid 30).
Proof.
  destruct (session_run_follows_protocol client_uid client_start joining_run)
    as (l1 & l2 & w' & El & Hw' & _ & H & Hend).
  - discriminate.
  - apply session_start_ok. reflexivity.
  - exact (inputs_ok_given _ _ _ joining_run_ok).
  - assert (l2 = []) as ->.
    { destruct Hend as [->|(i & l3 & -> & (c & clock & -> & _) & _)]; [reflexivity|].
      exfalso. unfold joining_run in El.
      do 6 (destruct l1 as [|? l1]; [discriminate El|]; injection El as _ El).
      destruct l1; discriminate El. }
    rewrite app_nil_r in El. subst l1. exists w'. split; [exact Hw'|].
    assert (attempt_of w' = Joined 7 host_uid 30) as Hj.
    { clear H. vm_compute in Hw'. injection Hw' as <-. vm_compute. reflexivity. }
    rewrite <-Hj. exact H.
Defined.

(** ** An attempt without an answer *)

Definition late : Z := 31 * kSecond.

(** The user has joined, and the network is ready; the host never answers. *)
Definition waiting_start : Worker :=
  default client_start (session_run client_start
    [IUid false client_uid c0; IReady false 5; IJoinHost 7 50 51 10 c0 r0]).

Definition waiting_run : list Input := [IDrive 20 r0; IDrive (2 * kSecond) r0].

Lemma waiting_start_ok : worker_ok client_uid 30 waiting_start.
Proof.
  destruct (session_run_prefix client_uid client_start
    [IUid false client_uid c0; IReady false 5; IJoinHost 7 50 51 10 c0 r0]
    (repeat (IReady true 0) 10)) as (w' & Hr & Hw & _).
  - discriminate.
  - apply session_start_ok. reflexivity.
  - cbn [app]. apply inputs_ok_cons; [split; [by apply clock_c0_ok|by left]|by eexists|].
    apply inputs_ok_cons; [done|by eexists|].
    apply inputs_ok_cons; [|vm_compute; by eexists|].
    { split_and!; [by apply clock_c0_ok|by apply reading_ok|done|vm_compute; done|done|done]. }
    cbn [repeat]. do 10 (apply inputs_ok_cons; [done|by eexists|]). done.
  - unfold waiting_start. rewrite Hr. exact Hw.
Qed.

Lemma attempt_ends_by_deadline_witness :
  ∃ w', session_run waiting_start (waiting_run ++ [IDrive late r0]) = Some w' ∧
    ∀ h t, under_way (attempt_of w') ≠ Some (7, h, t).
Proof.
  apply (attempt_ends_by_deadline client_uid waiting_start waiting_run late r0 7 host_uid 10).
  - discriminate.
  - apply (worker_ok_weaken client_uid 30); [vm_compute; discriminate|exact waiting_start_ok].
  - cbn [app waiting_run]. do 3 (apply inputs_ok_cons; [by apply reading_ok|vm_compute; by eexists|]).
    exact I.
  - vm_compute. reflexivity.
  - intros (new & base & now & clock & reading & H). unfold waiting_run in H.
    apply elem_of_cons in H as [H|H]; [discriminate|]. apply list_elem_of_singleton in H. discriminate.
  - vm_compute. discriminate.
  - intros w1 H1. vm_compute in H1. injection H1 as <-. vm_compute. repeat split. discriminate.
Defined.

(** ** The host *)

Definition host_start : Worker := session_start kHost "".

Definition request_bytes : bytes := [1; 7; 0; 0; 0; 0; 0; 0; 0].

(** The host accepts the client, who asks again. *)
Definition host_ids : RoomIds := mkRoomIds 50 51 30 31 41 42 61 62.
Definition again_ids : RoomIds := mkRoomIds 80 81 82 83 41 42 84 85.
Definition hosting_run : list Input :=
  [IUid false host_uid c0; IReady false 5;
   IControl client_uid request_bytes host_ids c0 c0 c0;
   IControl client_uid request_bytes again_ids c0 c0 c0].

Lemma hosting_run_ok : inputs_ok host_uid host_start hosting_run.
Proof.
  apply inputs_ok_cons; [split; [by apply clock_c0_ok|by left]|by eexists|].
  apply inputs_ok_cons; [done|by eexists|].
  do 2 (apply inputs_ok_cons; [|vm_compute; by eexists|];
    [split; [vm_compute; discriminate|];
     split_and!; try (by apply clock_c0_ok); try done; try (vm_compute; done)|]).
  done.
Qed.

(** The room of the entry is announced twice. *)
Lemma host_announces_durable_rooms_witness :
  ∃ w', session_run host_start hosting_run = Some w' ∧
    (∃ saved, SendControl client_uid acceptance_bytes saved ∈ effects w') ∧
    ∀ saved, SendControl client_uid acceptance_bytes saved ∈ effects w' →
      ∃ m rm, saved = Some m ∧ 30 = u32 rm ∧ offers m client_uid rm.
Proof.
  destruct (host_announces_durable_rooms host_uid host_start hosting_run) as (w' & Hw' & H).
  - discriminate.
  - apply session_start_ok. reflexivity.
  - exact hosting_run_ok.
  - exists w'. split; [exact Hw'|]. split.
    + clear H. vm_compute in Hw'. injection Hw' as <-. eexists.
      cbn [effects]. right. left.
    + intros saved Hs. exact (H _ _ _ an_acceptance Hs eq_refl eq_refl).
Defined.

(** What the host has sent: the acceptance, then the room; and once more when it was asked
    again. *)
Example hosting_effects :
  omap (λ e, match e with SendControl uid b _ => Some (uid, b) | _ => None end)
    (effects (default host_start (session_run host_start hosting_run))) =
  [(client_uid, acceptance_bytes); (client_uid, acceptance_bytes)].
Proof. vm_compute. reflexivity. Qed.

(** The room has the links of both sides, and the entry is bound to the one of the client. *)
Example hosting_entry :
  (λ e, (peer_uid (fields e), peer_link (fields e), room (fields e))) <$>
    entries (model (chat (default host_start (session_run host_start hosting_run)))) !! 50 =
  Some (client_uid, Some 42, Some 30).
Proof. vm_compute. reflexivity. Qed.
