(* ===== verification/ChatQueue.v ===== *)
(** * The work queue and the thread of a chat session

    From examples/chat_demo/runtime/chat_session.cpp: the queue of work under [queue_mu_], the
    requests of other threads, and [ThreadMain] up to the end of the thread, on its regular
    path and on the one after an exception. *)
From S2P Require Import Prelude.

Section queue.
Context {Work : Type}.

(** Where the session's thread is.  [Loop]: at the wait of the main loop; [Running]: before a
    piece of work of the batch it took; [Tail]: at the rest of an iteration; [StopEndpoint],
    [Draining final], [DrainRunning final]: shutting down, where [final] is the drain after
    internal deliveries are refused; [Refuse]: before they are; [Persist]; [Catch], [Discard]:
    the handler of an exception; [Finalize], [Finished]: [finalize_worker]. *)
Inductive Place :=
| NoThread
| Loop
| Running (batch : list Work)
| Tail
| StopEndpoint
| Draining (final : bool)
| DrainRunning (final : bool) (batch : list Work)
| Refuse
| Persist
| Catch
| Discard
| Finalize
| Finished.

(** [finished_] is the place [Finished].  [asking]: calls of [Checkpoint] between their test and
    the enqueueing; [answered]: those that returned [true].  [accepted], [executed],
    [discarded]: what happened. *)
Record Session := mkSession {
  started_ : bool;
  stop_requested_ : bool;
  accepting_user_commands_ : bool;
  accepting_internal_delivery_ : bool;
  work_queue_ : list Work;
  place : Place;
  failed : bool;
  asking : list Work;
  answered : list Work;
  accepted : list Work;
  executed : list Work;
  discarded : list Work
}.

Definition new_session : Session :=
  mkSession false false false false [] NoThread false [] [] [] [] [].

Implicit Types s : Session.

Definition set_place s p :=
  mkSession (started_ s) (stop_requested_ s) (accepting_user_commands_ s)
    (accepting_internal_delivery_ s) (work_queue_ s) p (failed s) (asking s) (answered s)
    (accepted s) (executed s) (discarded s).
Definition set_asking s l :=
  mkSession (started_ s) (stop_requested_ s) (accepting_user_commands_ s)
    (accepting_internal_delivery_ s) (work_queue_ s) (place s) (failed s) l (answered s)
    (accepted s) (executed s) (discarded s).

(** ** Other threads *)

(** Whether it was started.  [Join] is called before a session is started again. *)
Definition Start s : bool * Session :=
  if started_ s then (false, s)
  else (true, mkSession true false true true (work_queue_ s) Loop false (asking s) (answered s)
                (accepted s) (executed s) (discarded s)).

Definition RequestStop s : Session :=
  if negb (started_ s) || stop_requested_ s then s
  else mkSession (started_ s) true false (accepting_internal_delivery_ s) (work_queue_ s)
         (place s) (failed s) (asking s) (answered s) (accepted s) (executed s) (discarded s).

Definition push s (w : Work) : Session :=
  mkSession (started_ s) (stop_requested_ s) (accepting_user_commands_ s)
    (accepting_internal_delivery_ s) (work_queue_ s ++ [w]) (place s) (failed s) (asking s)
    (answered s) (accepted s ++ [w]) (executed s) (discarded s).

Definition EnqueueUserModelWork s (w : Work) : Session :=
  if negb (accepting_user_commands_ s) then s else push s w.

Definition EnqueueInternalModelWork s (w : Work) : Session :=
  if negb (accepting_internal_delivery_ s) then s else push s w.

(** [Checkpoint] tests in one critical section and enqueues in another. *)
Definition CheckpointTest s (request_id : Z) (w : Work) : bool * Session :=
  if request_id =? 0 then (false, s)
  else if negb (accepting_user_commands_ s) then (false, s)
  else (true, set_asking s (asking s ++ [w])).

Definition CheckpointEnqueue s : option Session :=
  match asking s with
  | [] => None
  | w :: l =>
      let s := EnqueueUserModelWork (set_asking s l) w in
      Some (mkSession (started_ s) (stop_requested_ s) (accepting_user_commands_ s)
              (accepting_internal_delivery_ s) (work_queue_ s) (place s) (failed s) (asking s)
              (answered s ++ [w]) (accepted s) (executed s) (discarded s))
  end.

(** ** The session's thread *)

Definition take_all s (p : list Work → Place) : Session :=
  mkSession (started_ s) (stop_requested_ s) (accepting_user_commands_ s)
    (accepting_internal_delivery_ s) [] (p (work_queue_ s)) (failed s) (asking s) (answered s)
    (accepted s) (executed s) (discarded s).

Definition execute s (w : Work) (p : Place) : Session :=
  mkSession (started_ s) (stop_requested_ s) (accepting_user_commands_ s)
    (accepting_internal_delivery_ s) (work_queue_ s) p (failed s) (asking s) (answered s)
    (accepted s) (executed s ++ [w]) (discarded s).

(** An exception unwinds to the handler; the rest of the batch goes with it. *)
Definition throw s (lost : list Work) : Session :=
  mkSession (started_ s) (stop_requested_ s) (accepting_user_commands_ s)
    (accepting_internal_delivery_ s) (work_queue_ s) Catch true (asking s) (answered s)
    (accepted s) (executed s) (discarded s ++ lost).

(** One step; [throws]: the step ends in an exception, where it may.  A piece of work that
    throws counts as executed. *)
Definition thread_step (throws : bool) s : option Session :=
  match place s with
  | NoThread | Finished => None
  | Loop =>
      if stop_requested_ s && bool_decide (length (work_queue_ s) = 0%nat)
      then Some (set_place s StopEndpoint)
      else Some (take_all s Running)
  | Running [] => Some (set_place s Tail)
  | Running (w :: l) =>
      let s := execute s w (Running l) in Some (if throws then throw s l else s)
  | Tail => Some (if throws then throw s [] else set_place s Loop)
  | StopEndpoint => Some (set_place s (Draining false))
  | Draining final =>
      if bool_decide (length (work_queue_ s) = 0%nat)
      then Some (set_place s (if final then Persist else Refuse))
      else Some (take_all s (DrainRunning final))
  | DrainRunning final [] => Some (set_place s (Draining final))
  | DrainRunning final (w :: l) =>
      let s := execute s w (DrainRunning final l) in Some (if throws then throw s l else s)
  | Refuse =>
      Some (mkSession (started_ s) (stop_requested_ s) (accepting_user_commands_ s) false
              (work_queue_ s) (Draining true) (failed s) (asking s) (answered s) (accepted s)
              (executed s) (discarded s))
  | Persist => Some (if throws then throw s [] else set_place s Finalize)
  | Catch => Some (set_place s Discard)
  | Discard =>
      Some (mkSession (started_ s) (stop_requested_ s) false false [] Finalize (failed s)
              (asking s) (answered s) (accepted s) (executed s) (discarded s ++ work_queue_ s))
  | Finalize =>
      Some (mkSession false (stop_requested_ s) (accepting_user_commands_ s)
              (accepting_internal_delivery_ s) (work_queue_ s) Finished (failed s) (asking s)
              (answered s) (accepted s) (executed s) (discarded s))
  end.

(** ** Interleavings *)

Inductive Action :=
| UserWork (w : Work)
| InternalWork (w : Work)
| AskCheckpoint (request_id : Z) (w : Work)
| EnqueueCheckpoint
| Stop
| Thread (throws : bool).

Definition act s (a : Action) : Session :=
  match a with
  | UserWork w => EnqueueUserModelWork s w
  | InternalWork w => EnqueueInternalModelWork s w
  | AskCheckpoint id w => (CheckpointTest s id w).2
  | EnqueueCheckpoint => default s (CheckpointEnqueue s)
  | Stop => RequestStop s
  | Thread throws => default s (thread_step throws s)
  end.

Definition acts s (l : list Action) : Session := foldl act s l.

(** ** What holds of it *)

(** The work of the batch at hand. *)
Definition in_hand s : list Work :=
  match place s with Running l | DrainRunning _ l => l | _ => [] end.

(** After the queue was found empty for the last time nothing is accepted any more. *)
Definition closed s : Prop :=
  match place s with
  | Persist => accepting_internal_delivery_ s = false ∧ work_queue_ s = []
  | Finalize | Finished =>
      accepting_user_commands_ s = false ∧ accepting_internal_delivery_ s = false ∧
      work_queue_ s = []
  | Draining true | DrainRunning true _ => accepting_internal_delivery_ s = false
  | _ => True
  end.

Definition stopping s : Prop :=
  match place s with
  | StopEndpoint | Draining _ | DrainRunning _ _ | Refuse | Persist => stop_requested_ s = true
  | _ => True
  end.

Definition failure_ok s : Prop :=
  match place s with
  | Catch | Discard => failed s = true
  | Finalize | Finished => True
  | _ => failed s = false
  end.

Record session_inv s : Prop := {
  inv_work : accepted s = executed s ++ discarded s ++ in_hand s ++ work_queue_ s;
  inv_discarded : failed s = false → discarded s = [];
  inv_failure : failure_ok s;
  inv_closed : closed s;
  inv_stopping : stopping s;
  inv_user : stop_requested_ s = true → accepting_user_commands_ s = false
}.

Lemma push_inv s w :
  session_inv s → accepting_user_commands_ s = true ∨ accepting_internal_delivery_ s = true →
  (accepting_internal_delivery_ s = false → place s ≠ Persist) →
  session_inv (push s w).
Proof.
  intros [Hw Hd Hf Hc Hs Hu] Hacc Hp. split; try done.
  - cbn. rewrite Hw, <-!app_assoc. done.
  - unfold closed, push in *. cbn in *. destruct (place s); try done.
    + destruct Hc. by destruct Hp.
    + destruct Hc as (? & ? & ?). destruct Hacc; congruence.
    + destruct Hc as (? & ? & ?). destruct Hacc; congruence.
Qed.

Lemma user_inv s w : session_inv s → session_inv (EnqueueUserModelWork s w).
Proof.
  intros Hi. unfold EnqueueUserModelWork. destruct (accepting_user_commands_ s) eqn:E; [|done].
  apply push_inv; [done|auto|]. intros _ Hp. pose proof (inv_stopping _ Hi) as Hs.
  unfold stopping in Hs. rewrite Hp in Hs. by rewrite (inv_user _ Hi Hs) in E.
Qed.

Lemma set_asking_inv s l : session_inv s → session_inv (set_asking s l).
Proof. by intros []. Qed.

(** The parts of [session_inv] after a step. *)
Ltac step_inv Hw Hd Hf Ep :=
  split; unfold failure_ok, closed, stopping, in_hand in *; cbn; rewrite ?Ep in *; try done;
  try naive_solver; try (intros; congruence);
  rewrite Hw; try rewrite (Hd Hf); cbn; rewrite <-?app_assoc, ?app_nil_r; try done.

Lemma thread_step_inv s throws s' :
  session_inv s → thread_step throws s = Some s' → session_inv s'.
Proof.
  intros [Hw Hd Hf Hc Hs Hu]. unfold thread_step.
  destruct (place s) as [| |[|w l]| | |final|final [|w l]| | | | | |] eqn:Ep; try done.
  - destruct (stop_requested_ s) eqn:Es; cbn; [destruct (bool_decide _) eqn:Hq|]; intros [= <-].
    all: step_inv Hw Hd Hf Ep.
  - intros [= <-]. step_inv Hw Hd Hf Ep.
  - destruct throws; intros [= <-]; step_inv Hw Hd Hf Ep.
  - destruct throws; intros [= <-]; step_inv Hw Hd Hf Ep.
  - intros [= <-]. step_inv Hw Hd Hf Ep.
  - destruct (bool_decide _) eqn:Hq; breflect; [apply nil_length_inv in Hq|]; destruct final;
      intros [= <-]; step_inv Hw Hd Hf Ep.
  - intros [= <-]. destruct final; step_inv Hw Hd Hf Ep.
  - destruct throws, final; intros [= <-]; step_inv Hw Hd Hf Ep.
  - intros [= <-]. step_inv Hw Hd Hf Ep.
  - destruct throws; intros [= <-]; step_inv Hw Hd Hf Ep.
  - intros [= <-]. step_inv Hw Hd Hf Ep.
  - intros [= <-]. step_inv Hw Hd Hf Ep.
  - intros [= <-]. step_inv Hw Hd Hf Ep.
Qed.

Lemma act_inv s a : session_inv s → session_inv (act s a).
Proof.
  intros Hi. destruct a as [w|w|id w| | |throws]; cbn.
  - by apply user_inv.
  - unfold EnqueueInternalModelWork. destruct (accepting_internal_delivery_ s) eqn:E; [|done].
    apply push_inv; [done|auto|congruence].
  - unfold CheckpointTest. do 2 (destruct (_ : bool); [done|]). by apply set_asking_inv.
  - unfold CheckpointEnqueue. destruct (asking s) as [|w l]; [done|]. cbn.
    by destruct (user_inv _ w (set_asking_inv s l Hi)).
  - unfold RequestStop. destruct (_ || _); [done|]. destruct Hi as [Hw Hd Hf Hc Hs Hu].
    split; try done; unfold closed, stopping in *; cbn in *;
      destruct (place s) as [| | | | |[]|[]| | | | | |]; naive_solver.
  - destruct (thread_step throws s) as [s'|] eqn:Hstep; [|done]. by eapply thread_step_inv.
Qed.

Lemma acts_inv s l : session_inv s → session_inv (acts s l).
Proof.
  revert s. induction l as [|a l IH]; intros s Hi; [done|]. by apply IH, act_inv.
Qed.

Lemma Start_inv : session_inv (Start new_session).2.
Proof. by split. Qed.

(** ** The end of the thread *)

(** How many steps are left once a stop was requested and nothing more is accepted. *)
Definition steps_left s : nat :=
  let L := length (work_queue_ s) in
  match place s with
  | NoThread | Finished => 0
  | Finalize => 1
  | Discard => 2
  | Catch => 3
  | Persist => 4
  | Draining true => 5 + 3 * L
  | DrainRunning true l => length l + 6 + 3 * L
  | Refuse => 6 + 3 * L
  | Draining false => 7 + 3 * L
  | DrainRunning false l => length l + 8 + 3 * L
  | StopEndpoint => 8 + 3 * L
  | Loop => 9 + 4 * L
  | Tail => 10 + 4 * L
  | Running l => length l + 11 + 4 * L
  end.

Lemma thread_step_progress s throws s' :
  stop_requested_ s = true → thread_step throws s = Some s' →
  (steps_left s' < steps_left s)%nat ∧ stop_requested_ s' = true.
Proof.
  intros Hs. unfold thread_step, steps_left.
  destruct (place s) as [| |[|w l]| | |final|final [|w l]| | | | | |] eqn:Ep; try done;
    rewrite ?Hs; cbn.
  - destruct (work_queue_ s) as [|w q] eqn:Eq; intros [= <-]; cbn; rewrite ?Eq; cbn; split; (lia || done).
  - intros [= <-]. cbn. split; [lia|done].
  - destruct throws; intros [= <-]; cbn; split; (lia || done).
  - destruct throws; intros [= <-]; cbn; split; (lia || done).
  - intros [= <-]. cbn. split; [lia|done].
  - destruct (work_queue_ s) as [|w q] eqn:Eq; destruct final; intros [= <-]; cbn;
      rewrite ?Eq; cbn; split; (lia || done).
  - intros [= <-]. destruct final; cbn; split; (lia || done).
  - destruct throws, final; intros [= <-]; cbn; split; (lia || done).
  - intros [= <-]. cbn. split; [lia|done].
  - destruct throws; intros [= <-]; cbn; split; (lia || done).
  - intros [= <-]. cbn. split; [lia|done].
  - intros [= <-]. cbn. split; [lia|done].
  - intros [= <-]. cbn. split; [lia|done].
Qed.

Lemma thread_step_enabled s throws :
  place s ≠ NoThread → place s ≠ Finished → is_Some (thread_step throws s).
Proof.
  intros H1 H2. unfold thread_step.
  destruct (place s) as [| |[|w l]| | |final|final [|w l]| | | | | |]; try done;
    repeat case_match; eauto.
Qed.

Lemma act_thread_place s throws :
  place s ≠ NoThread → place (act s (Thread throws)) ≠ NoThread.
Proof.
  intros Hp. cbn. unfold thread_step.
  destruct (place s) as [| |[|w l]| | |final|final [|w l]| | | | | |] eqn:Ep; try done; cbn;
    repeat case_match; cbn; congruence.
Qed.

Lemma thread_step_none s throws :
  place s ≠ NoThread → thread_step throws s = None → place s = Finished.
Proof.
  intros Hp Hn. destruct (place s) eqn:Ep; try done;
    destruct (thread_step_enabled s throws); congruence.
Qed.

Lemma stays_finished s (throws : list bool) :
  place s = Finished → place (acts s (Thread <$> throws)) = Finished.
Proof.
  intros Hf. induction throws as [|t throws IH]; [done|]. cbn. unfold thread_step.
  by rewrite Hf.
Qed.

(** Whatever the interleaving of user commands, deliveries of the network, checkpoints,
    the request to stop and the steps of the session's thread: work is executed in the
    order in which it was accepted and never twice; what was accepted and is not executed is
    in the batch at hand or in the queue, or was discarded after an exception; a
    thread that finished without an exception has executed all of it; and after a request to
    stop no command of the user is accepted, after the end nothing at all. *)
Theorem accepted_work_is_executed l :
  let s := acts (Start new_session).2 l in
  accepted s = executed s ++ discarded s ++ in_hand s ++ work_queue_ s ∧
  (failed s = false → discarded s = []) ∧
  (place s = Finished → work_queue_ s = [] ∧ (failed s = false → executed s = accepted s)) ∧
  (stop_requested_ s = true → ∀ w, EnqueueUserModelWork s w = s) ∧
  (place s = Finished → ∀ w, EnqueueUserModelWork s w = s ∧ EnqueueInternalModelWork s w = s).
Proof.
  intros s. destruct (acts_inv _ l Start_inv) as [Hw Hd Hf Hc Hs Hu]. fold s in Hw, Hd, Hf, Hc, Hs, Hu.
  split; [done|]. split; [done|]. split; [|split].
  - intros Hp. unfold closed in Hc. rewrite Hp in Hc. destruct Hc as (_ & _ & Hq). split; [done|].
    intros Hok. rewrite Hw, Hq, (Hd Hok). unfold in_hand. by rewrite Hp, app_nil_r.
  - intros Hst w. unfold EnqueueUserModelWork. by rewrite (Hu Hst).
  - intros Hp w. unfold closed in Hc. rewrite Hp in Hc. destruct Hc as (H1 & H2 & _).
    unfold EnqueueUserModelWork, EnqueueInternalModelWork. by rewrite H1, H2.
Qed.

(** Once a stop was requested and nothing more is accepted the thread finishes: as many
    of its steps as [steps_left] lead to the end, whichever of them end in an exception. *)
Theorem session_finishes l throws :
  let s := acts (Start new_session).2 l in
  stop_requested_ s = true → (steps_left s ≤ length throws)%nat →
  place (acts s (Thread <$> throws)) = Finished.
Proof.
  intros s. assert (place s ≠ NoThread) as Hp.
  { unfold s. assert (∀ q, place q ≠ NoThread → place (acts q l) ≠ NoThread) as H; [|by apply H].
    induction l as [|a m IH]; [done|]. intros q Hq. apply IH.
    destruct a as [w|w|id w| | |t]; cbn; [..|by apply act_thread_place].
    - unfold EnqueueUserModelWork. by destruct (negb _).
    - unfold EnqueueInternalModelWork. by destruct (negb _).
    - unfold CheckpointTest. by do 2 (destruct (_ : bool); [done|]).
    - unfold CheckpointEnqueue, EnqueueUserModelWork. destruct (asking q); [done|]. cbn. by destruct (negb _).
    - unfold RequestStop. by destruct (_ || _). }
  clearbody s. revert s Hp. induction throws as [|t throws IH]; intros s Hp Hs Hle.
  { cbn in *. unfold steps_left in Hle. destruct (place s) as [| |[]| | |[]|[] []| | | | | |]; try done; cbn in Hle; lia. }
  cbn [fmap list_fmap acts foldl]. fold (acts (act s (Thread t)) (Thread <$> throws)).
  pose proof (act_thread_place s t Hp) as Hp'. cbn [act] in Hp' |- *.
  destruct (thread_step t s) as [s'|] eqn:Et; cbn [default] in *.
  - destruct (thread_step_progress s t s' Hs Et) as [Hlt Hs']. apply IH; [done..|].
    unfold id. cbn [length] in Hle. lia.
  - apply stays_finished. destruct (thread_step_none s t Hp Et). done.
Qed.

(** [Checkpoint] may return [true] for a checkpoint that is never made: the request to stop
    comes between its test and the enqueueing. *)
Lemma Checkpoint_answers_too_early (w : Work) :
  let s := acts (Start new_session).2 [AskCheckpoint 1 w; Stop; EnqueueCheckpoint] in
  answered s = [w] ∧ accepted s = [].
Proof. done. Qed.
End queue.

Module Examples.
(** Two commands, a delivery while the thread is shutting down, and a command that is too late. *)
Definition actions : list (Action (Work := Z)) :=
  [UserWork 1; AskCheckpoint 7 2; EnqueueCheckpoint; Thread false; Thread false; Stop; UserWork 3;
   Thread false; Thread false; Thread false; InternalWork 4].

Definition session : Session := acts (Start new_session).2 actions.

Example queue_result :
  (place session, executed session, work_queue_ session) = (Loop, [1; 2], [4]).
Proof. vm_compute. reflexivity. Qed.

Lemma session_finishes_witness :
  place (acts session (Thread <$> replicate 13 false)) = Finished.
Proof.
  apply (session_finishes actions (replicate 13 false)); vm_compute; [reflexivity|].
  repeat constructor.
Defined.
End Examples.
