(* ===== verification/ChatOutput.v ===== *)
(** * What a chat session gives to its user interface

    From examples/chat_demo/runtime/chat_session.h and chat_session.cpp: the runtime status
    with its serial number, the publications with their metadata, and [TryTakeUiUpdate], which
    the thread of the user interface calls.  The bytes of publications go through the
    channel of PublicationChannel.v; as all of its users hold [publication_mu_], its programs
    run without interference here. *)
From S2P Require Import Prelude Aether SharedEvent PublicationChannel ChatModel ChatJoin.

(** ** The runtime status *)

Inductive SessionLifecycleState := kStarting | kReady | kFailed | kStopped.
Inductive LocalConnectivityState := kUnknown | kOffline | kOnline.
Inductive PeerPresence := PresenceUnknown | PresenceConnecting | PresenceOnline | PresenceOffline.
Inductive RoomBootstrapState := BootstrapNotStarted | BootstrapPending | BootstrapComplete.
Inductive MessageDeliveryState := DeliveryNone | DeliveryQueued | DeliverySending | DeliveryDelivered.
#[export] Instance SessionLifecycleState_eq_dec : EqDecision SessionLifecycleState.
Proof. solve_decision. Defined.
#[export] Instance PeerPresence_eq_dec : EqDecision PeerPresence.
Proof. solve_decision. Defined.
#[export] Instance RoomBootstrapState_eq_dec : EqDecision RoomBootstrapState.
Proof. solve_decision. Defined.
#[export] Instance MessageDeliveryState_eq_dec : EqDecision MessageDeliveryState.
Proof. solve_decision. Defined.

Definition LocalConnectivityFromDiag (has_schedule any_online : bool) : LocalConnectivityState :=
  if negb has_schedule then kUnknown else if any_online then kOnline else kOffline.

Inductive DraftCommandKind := kEdit | kSend.
Inductive DraftCommandOutcome := kCommandAccepted | kCommandRejected.

Record DraftCommandResult := mkResult {
  result_entry : Z;
  result_kind : DraftCommandKind;
  revision : Z;
  outcome : DraftCommandOutcome;
  failure_reason : string;
  accepted_send_id : SharedEventId
}.

Record CopyHostUidEffect := mkCopy { request_id : Z; uid_text : string }.

Record ChatRuntimeStatus := mkStatus {
  status_role : DemoRole;
  status_local_uid : string;
  status_host_input : string;
  status_phase : ChatJoinPhase;
  join_status_text : string;
  lifecycle_state : SessionLifecycleState;
  local_connectivity : LocalConnectivityState;
  remote_presence : gmap string PeerPresence;
  room_bootstrap_by_peer_uid : gmap string RoomBootstrapState;
  delivery_by_event_id : gmap SharedEventId MessageDeliveryState;
  error_text : string;
  completed_checkpoint_id : Z;
  latest_edit_result_by_entry : gmap Z DraftCommandResult;
  latest_send_result_by_entry : gmap Z DraftCommandResult;
  pending_copy : option CopyHostUidEffect
}.

Definition new_status : ChatRuntimeStatus :=
  mkStatus kUnconfigured "" "" kIdle "" kStarting kUnknown ∅ ∅ ∅ "" 0 ∅ ∅ None.

(** The mutators of the session: each assigns the members it names. *)
Section mutators.
  Implicit Types s : ChatRuntimeStatus.

Definition with_copy s c := mkStatus (status_role s) (status_local_uid s) (status_host_input s)
  (status_phase s) (join_status_text s) (lifecycle_state s) (local_connectivity s)
  (remote_presence s) (room_bootstrap_by_peer_uid s) (delivery_by_event_id s) (error_text s)
  (completed_checkpoint_id s) (latest_edit_result_by_entry s) (latest_send_result_by_entry s) c.
Definition with_error s e := mkStatus (status_role s) (status_local_uid s) (status_host_input s)
  (status_phase s) (join_status_text s) (lifecycle_state s) (local_connectivity s)
  (remote_presence s) (room_bootstrap_by_peer_uid s) (delivery_by_event_id s) e
  (completed_checkpoint_id s) (latest_edit_result_by_entry s) (latest_send_result_by_entry s)
  (pending_copy s).
Definition with_lifecycle s l := mkStatus (status_role s) (status_local_uid s)
  (status_host_input s) (status_phase s) (join_status_text s) l (local_connectivity s)
  (remote_presence s) (room_bootstrap_by_peer_uid s) (delivery_by_event_id s) (error_text s)
  (completed_checkpoint_id s) (latest_edit_result_by_entry s) (latest_send_result_by_entry s)
  (pending_copy s).
Definition with_connectivity s c := mkStatus (status_role s) (status_local_uid s)
  (status_host_input s) (status_phase s) (join_status_text s) (lifecycle_state s) c
  (remote_presence s) (room_bootstrap_by_peer_uid s) (delivery_by_event_id s) (error_text s)
  (completed_checkpoint_id s) (latest_edit_result_by_entry s) (latest_send_result_by_entry s)
  (pending_copy s).
Definition with_presence s p := mkStatus (status_role s) (status_local_uid s)
  (status_host_input s) (status_phase s) (join_status_text s) (lifecycle_state s)
  (local_connectivity s) p (room_bootstrap_by_peer_uid s) (delivery_by_event_id s)
  (error_text s) (completed_checkpoint_id s) (latest_edit_result_by_entry s)
  (latest_send_result_by_entry s) (pending_copy s).
Definition with_sync s b d := mkStatus (status_role s) (status_local_uid s)
  (status_host_input s) (status_phase s) (join_status_text s) (lifecycle_state s)
  (local_connectivity s) (remote_presence s) b d (error_text s) (completed_checkpoint_id s)
  (latest_edit_result_by_entry s) (latest_send_result_by_entry s) (pending_copy s).
Definition with_checkpoint s c := mkStatus (status_role s) (status_local_uid s)
  (status_host_input s) (status_phase s) (join_status_text s) (lifecycle_state s)
  (local_connectivity s) (remote_presence s) (room_bootstrap_by_peer_uid s)
  (delivery_by_event_id s) (error_text s) c (latest_edit_result_by_entry s)
  (latest_send_result_by_entry s) (pending_copy s).
Definition with_results s e d := mkStatus (status_role s) (status_local_uid s)
  (status_host_input s) (status_phase s) (join_status_text s) (lifecycle_state s)
  (local_connectivity s) (remote_presence s) (room_bootstrap_by_peer_uid s)
  (delivery_by_event_id s) (error_text s) (completed_checkpoint_id s) e d (pending_copy s).
Definition with_join s role uid host phase text error := mkStatus role uid host phase text
  (lifecycle_state s) (local_connectivity s) (remote_presence s) (room_bootstrap_by_peer_uid s)
  (delivery_by_event_id s) error (completed_checkpoint_id s) (latest_edit_result_by_entry s)
  (latest_send_result_by_entry s) (pending_copy s).
End mutators.

(** ** Publications *)

Inductive ChatPublicationKind := kInitial | kStructural.

Record PendingPublicationMetadata := mkMetadata {
  meta_kind : ChatPublicationKind;
  meta_serial : Z;
  edit_revisions_by_entry : gmap Z Z;
  meta_selected_chat_ack : option Z
}.

Record ChatUiUpdate := mkUpdate {
  publication : option (bytes * PendingPublicationMetadata);
  runtime_status : ChatRuntimeStatus;
  update_copy : option CopyHostUidEffect
}.

(** The number of slots of the session's channel. *)
Definition kSlots : nat := 3.

Record Output := mkOutput {
  channel_ : PublicationChannel;
  pending_publication_metadata_ : option PendingPublicationMetadata;
  next_publication_serial_ : Z;
  status_ : ChatRuntimeStatus;
  status_serial_ : Z;
  last_delivered_status_serial_ : Z
}.

Definition new_output : Output := mkOutput (new_channel kSlots) None 1 new_status 0 0.

Section output.
  Implicit Types o : Output.

Definition UpdateStatus o (mutator : ChatRuntimeStatus → ChatRuntimeStatus) : Output :=
  mkOutput (channel_ o) (pending_publication_metadata_ o) (next_publication_serial_ o)
    (mutator (status_ o)) (u64 (status_serial_ o + 1)) (last_delivered_status_serial_ o).

(** [chunks]: what the serialization of the workspace writes to the slot. *)
Definition publish_now_unlocked o (is_initial : bool) (chunks : list bytes)
    (processed_edit_revisions : gmap Z Z) (pending_select_ack : option Z) : option Output :=
  '(c, busy) ← run (channel_ o) is_publication_busy;
  assert! negb busy ;;
  '(c, _) ← run c (publish kSlots chunks);
  Some (mkOutput c
          (Some (mkMetadata (if is_initial then kInitial else kStructural)
                   (next_publication_serial_ o) processed_edit_revisions pending_select_ack))
          (u64 (next_publication_serial_ o + 1)) (status_ o) (status_serial_ o)
          (last_delivered_status_serial_ o)).

(** Whether it was published; otherwise [publication_dirty] is set. *)
Definition publish_now o is_initial chunks revisions ack : option (bool * Output) :=
  '(c, busy) ← run (channel_ o) is_publication_busy;
  if busy : bool then Some (false, o)
  else o ← publish_now_unlocked o is_initial chunks revisions ack; Some (true, o).

(** The status with its copy effect, which is taken out. *)
Definition take_status o : ChatRuntimeStatus * option CopyHostUidEffect * Output :=
  (status_ o, pending_copy (status_ o),
   mkOutput (channel_ o) (pending_publication_metadata_ o) (next_publication_serial_ o)
     (with_copy (status_ o) None) (status_serial_ o) (status_serial_ o)).

Definition TryTakeUiUpdate o : option (option ChatUiUpdate * Output) :=
  '(c, unread) ← run (channel_ o) has_unread_published;
  '(pub, o) ←
    (if unread : bool then
       '(c, copy) ← run c TakePublishedCopy;
       meta ← pending_publication_metadata_ o;
       Some (Some (default [] copy, meta),
             mkOutput c None (next_publication_serial_ o) (status_ o) (status_serial_ o)
               (last_delivered_status_serial_ o))
     else Some (None, o));
  if negb (status_serial_ o =? last_delivered_status_serial_ o) ||
     bool_decide (is_Some pub)
  then let '(s, copy, o) := take_status o in Some (Some (mkUpdate pub s copy), o)
  else Some (None, o).
End output.

(** ** Interleavings *)

(** The session's thread updates the status and publishes; the user interface takes. *)
Inductive OutputAction :=
| Update (mutator : ChatRuntimeStatus → ChatRuntimeStatus)
| Publish (is_initial : bool) (chunks : list bytes) (revisions : gmap Z Z) (ack : option Z)
| TakeUpdate.

(** [sent]: what was published, with its metadata; [updates]: what was taken. *)
Record Run := mkRun {
  output : Output;
  sent : list (bytes * PendingPublicationMetadata);
  updates : list ChatUiUpdate
}.

Definition act (r : Run) (a : OutputAction) : option Run :=
  match a with
  | Update f => Some (mkRun (UpdateStatus (output r) f) (sent r) (updates r))
  | Publish initial chunks revisions ack =>
      '(done, o) ← publish_now (output r) initial chunks revisions ack;
      Some (mkRun o
              (if done : bool then
                 sent r ++ option_list ((λ m, (concat chunks, m)) <$> pending_publication_metadata_ o)
               else sent r)
              (updates r))
  | TakeUpdate =>
      '(u, o) ← TryTakeUiUpdate (output r);
      Some (mkRun o (sent r) (updates r ++ option_list u))
  end.

Definition acts (r : Run) (l : list OutputAction) : option Run :=
  foldl (λ r a, r ← r; act r a) (Some r) l.
