(* ===== verification/ChatOutputTheory.v ===== *)
(** * The user interface of a chat session misses nothing

    Whatever the interleaving of status updates, publications and takes, no assertion fails,
    publications are taken once, in order and with their own metadata, and a take
    leaves nothing that the user interface has not seen. *)
From S2P Require Import Prelude Aether SharedEvent PublicationChannel ChatModel ChatJoin ChatOutput.

(** ** The channel under its mutex *)

(** No slot is with the consumer between two calls. *)
Record idle (c : PublicationChannel) : Prop := {
  idle_slots : length (buffers_ c) = kSlots;
  idle_ui : in_ui_ c = -1;
  idle_published : published_ c = -1 ∨ 0 ≤ published_ c
}.

Lemma new_channel_idle : idle (new_channel kSlots).
Proof. split; [done|done|by left]. Qed.

Lemma run_bind {A B} (p : prog A) (f : A → prog B) c :
  run c (prog_bind p f) = '(c, a) ← run c p; run c (f a).
Proof.
  revert c. induction p as [a|r k IH|r e d k IH|r v k IH|k IH|i k IH|i g k IH|i k IH|k IH|b k IH];
    intros c; cbn; auto.
  - by destruct (_ =? _).
  - by destruct b.
Qed.

Lemma run_write_all c i chunks b :
  buffers_ c !! Z.to_nat i = Some b →
  ∃ c', run c (write_all i chunks) = Some (c', ()) ∧
    buffers_ c' !! Z.to_nat i = Some (b ++ concat chunks) ∧
    length (buffers_ c') = length (buffers_ c) ∧
    published_ c' = published_ c ∧ in_ui_ c' = in_ui_ c ∧ producer_ c' = producer_ c.
Proof.
  revert c b. induction chunks as [|d ds IH]; intros c b Hb; cbn.
  { exists c. by rewrite app_nil_r. }
  destruct (IH (set_buffers c (alter (λ sink, ByteSink.write sink d) (Z.to_nat i) (buffers_ c)))
    (b ++ d)) as (c' & -> & Hbuf & Hlen & Hp & Hu & Hpr).
  { cbn. rewrite list_lookup_alter_eq, Hb. done. }
  exists c'. split; [done|]. rewrite Hbuf, Hlen. cbn. by rewrite length_alter, <-app_assoc.
Qed.

(** A free channel takes a publication into a slot. *)
Lemma run_publish c chunks :
  idle c → published_ c = -1 →
  ∃ c', run c (publish kSlots chunks) = Some (c', ()) ∧ idle c' ∧ 0 ≤ published_ c' ∧
    slot c' (published_ c') = concat chunks.
Proof.
  intros [Hs Hu _] Hp. unfold publish. rewrite run_bind. unfold AcquireProducer. cbn [run index].
  rewrite Hp, Hu. change (list_find _ _) with (Some (0%nat, 0)). cbn [run mbind option_bind].
  rewrite run_bind.
  set (c1 := set_buffers _ _).
  assert (buffers_ c1 !! Z.to_nat 0 = Some []) as Hb.
  { destruct c as [[|b0 l] ????]; cbn in *; [done|]. done. }
  destruct (run_write_all c1 0 chunks [] Hb) as (c2 & -> & Hb2 & Hlen & Hp2 & Hu2 & Hpr2).
  cbn [mbind option_bind]. unfold NotePublished, PublishProducer. cbn.
  rewrite Hp2, Hpr2. cbn. rewrite Hp. cbn. eexists. split; [reflexivity|].
  split; [split; cbn|split; [cbn; lia|]].
  - rewrite Hlen. cbn. by rewrite length_alter.
  - by rewrite Hu2.
  - by right.
  - unfold slot. cbn. change 0%nat with (Z.to_nat 0). by rewrite Hb2.
Qed.

(** An unread publication is taken, and the channel is free. *)
Lemma run_take c :
  idle c → 0 ≤ published_ c →
  ∃ c', run c TakePublishedCopy = Some (c', Some (slot c (published_ c))) ∧ idle c' ∧
    published_ c' = -1.
Proof.
  intros [Hs Hu _] Hp. unfold TakePublishedCopy. rewrite run_bind. unfold TakePublished.
  cbn [run index]. rewrite (proj2 (Z.ltb_ge _ _)) by done. cbn [run index]. rewrite Hu. cbn.
  rewrite Z.eqb_refl. cbn. eexists. split; [reflexivity|]. split; [|done]. split; cbn; auto.
Qed.

Lemma run_busy c : idle c → run c is_publication_busy = Some (c, 0 <=? published_ c).
Proof.
  intros [_ Hu Hp]. unfold is_publication_busy. cbn.
  destruct (0 <=? published_ c); [done|]. cbn. by rewrite Hu.
Qed.

(** ** The invariant *)

Definition unread o : list (bytes * PendingPublicationMetadata) :=
  option_list ((λ m, (slot (channel_ o) (published_ (channel_ o)), m)) <$>
    pending_publication_metadata_ o).

(** What the user interface saw last of the status. *)
Definition seen (l : list ChatUiUpdate) : ChatRuntimeStatus :=
  match list.last l with Some u => runtime_status u | None => new_status end.

Definition serials (l : list (bytes * PendingPublicationMetadata)) : list Z :=
  (meta_serial ∘ snd) <$> l.

Definition same_but_copy (s t : ChatRuntimeStatus) : Prop := with_copy s None = with_copy t None.

(** [n]: a bound on the updates and publications so far. *)
Record run_inv (n : Z) (r : Run) : Prop := {
  run_idle : idle (channel_ (output r));
  run_metadata : 0 ≤ published_ (channel_ (output r)) ↔
    is_Some (pending_publication_metadata_ (output r));
  run_sent : sent r = omap publication (updates r) ++ unread (output r);
  run_serials : serials (sent r) = seqZ 1 (zlen (sent r));
  run_next : next_publication_serial_ (output r) = 1 + zlen (sent r);
  run_status_serial : 0 ≤ last_delivered_status_serial_ (output r) ≤ status_serial_ (output r);
  run_bound : status_serial_ (output r) ≤ n ∧ zlen (sent r) ≤ n;
  run_seen : status_serial_ (output r) = last_delivered_status_serial_ (output r) →
    same_but_copy (seen (updates r)) (status_ (output r)) ∧ pending_copy (status_ (output r)) = None
}.

Definition start : Run := mkRun new_output [] [].

Lemma start_inv : run_inv 0 start.
Proof.
  split; try done; [apply new_channel_idle|]. cbn. split; [lia|by intros []].
Qed.

Section steps.
  Implicit Types (n : Z) (r : Run) (o : Output).

Lemma Update_inv n r f :
  n + 1 < kMaxUint64 → 0 ≤ n → run_inv n r →
  ∃ r', act r (Update f) = Some r' ∧ run_inv (n + 1) r'.
Proof.
  intros Hn H0 [Hi Hm Hs Hse Hnx Hss Hb Hsn]. eexists. split; [reflexivity|].
  split; cbn; try done; unfold kMaxUint64 in *; rewrite ?u64_small by (unfold is_u64; lia); try lia.
Qed.

Lemma publish_inv n r initial chunks revisions ack :
  n + 1 < kMaxUint64 → 0 ≤ n → run_inv n r →
  ∃ r', act r (Publish initial chunks revisions ack) = Some r' ∧ run_inv (n + 1) r'.
Proof.
  intros Hn H0 [Hi Hm Hs Hse Hnx Hss Hb Hsn]. unfold kMaxUint64 in *. cbn [act]. unfold publish_now.
  rewrite run_busy by done. cbn [mbind option_bind].
  destruct (0 <=? published_ (channel_ (output r))) eqn:Ep; breflect.
  { eexists. split; [reflexivity|]. split; cbn; try done. lia. }
  assert (published_ (channel_ (output r)) = -1) as Hp by (destruct Hi as [_ _ []]; lia).
  assert (pending_publication_metadata_ (output r) = None) as Hnone.
  { apply eq_None_not_Some. rewrite <-Hm. lia. }
  unfold publish_now_unlocked. rewrite run_busy by done. cbn [mbind option_bind].
  rewrite (proj2 (Z.leb_gt _ _)) by lia. cbn [negb].
  destruct (run_publish (channel_ (output r)) chunks Hi Hp) as (c' & -> & Hi' & Hp' & Hslot).
  cbn [mbind option_bind]. eexists. split; [reflexivity|].
  assert (unread (output r) = []) as Hu by (unfold unread; by rewrite Hnone).
  pose proof (zlen_nonneg (sent r)).
  split; cbn; rewrite ?zlen_app; change (zlen [_]) with 1; try done.
  - rewrite Hs, Hu, app_nil_r. unfold unread. cbn. by rewrite Hslot.
  - unfold serials. rewrite fmap_app. cbn. fold (serials (sent r)). rewrite Hse, Hnx.
    rewrite seqZ_app by lia. f_equal. 
  - rewrite Hnx, u64_small by (unfold is_u64; lia). lia.
  - lia.
Qed.

Lemma take_inv n r :
  run_inv n r →
  ∃ r', act r TakeUpdate = Some r' ∧ run_inv n r' ∧ sent r' = sent r ∧ unread (output r') = [] ∧
    status_serial_ (output r') = last_delivered_status_serial_ (output r').
Proof.
  intros [Hi Hm Hs Hse Hnx Hss Hb Hsn]. cbn [act]. unfold TryTakeUiUpdate, has_unread_published.
  cbn [run index mbind option_bind].
  destruct (0 <=? published_ (channel_ (output r))) eqn:Ep; breflect.
  - destruct (proj1 Hm Ep) as [m Hmeta].
    destruct (run_take (channel_ (output r)) Hi Ep) as (c' & -> & Hi' & Hp').
    cbn [mbind option_bind]. rewrite Hmeta. cbn [mbind option_bind default id].
    rewrite (bool_decide_eq_true_2 (is_Some (Some _))) by eauto. rewrite orb_true_r. cbn.
    eexists. split; [reflexivity|]. split; [|done].
    assert (sent r = omap publication (updates r) ++ [(slot (channel_ (output r)) (published_ (channel_ (output r))), m)])
      as Hs' by (rewrite Hs; unfold unread; by rewrite Hmeta).
    split; cbn; try done.
    + rewrite Hp'. split; [lia|by intros []].
    + rewrite omap_app, Hs'. cbn. by rewrite app_nil_r.
    + lia.
    + intros _. split; [|by destruct (status_ (output r))]. unfold seen. by rewrite last_snoc.
  - assert (pending_publication_metadata_ (output r) = None) as Hnone.
    { apply eq_None_not_Some. rewrite <-Hm. lia. }
    cbn [mbind option_bind]. rewrite (bool_decide_eq_false_2 (is_Some None)) by (by intros []).
    rewrite orb_false_r.
    destruct (Z.eqb_spec (status_serial_ (output r)) (last_delivered_status_serial_ (output r))) as [Es|Es];
      cbn; (eexists; split; [reflexivity|]).
    + split; [|split; [done|split; [unfold unread; cbn; by rewrite Hnone|done]]].
      split; cbn; try done; by rewrite app_nil_r.
    + split; [|split; [done|split; [unfold unread; cbn; by rewrite Hnone|done]]].
      split; cbn; try done; [|lia|].
      * rewrite omap_app. cbn. by rewrite app_nil_r.
      * intros _. split; [|by destruct (status_ (output r))]. unfold seen. by rewrite last_snoc.
Qed.
End steps.

Lemma output_act_ok n r a :
  n + 1 < kMaxUint64 → 0 ≤ n → run_inv n r → ∃ r', act r a = Some r' ∧ run_inv (n + 1) r'.
Proof.
  intros Hn H0 Hr. destruct a as [f|initial chunks revisions ack|].
  - by apply Update_inv.
  - by apply publish_inv.
  - destruct (take_inv n r Hr) as (r' & Hr' & [Hi Hm Hs Hse Hnx Hss Hb Hsn] & _).
    exists r'. split; [done|]. split; try done. lia.
Qed.

Lemma acts_cons r a l : acts r (a :: l) = (r ← act r a; acts r l).
Proof. unfold acts. cbn. destruct (act r a); [done|]. induction l; [done|]. done. Qed.

Lemma output_acts_ok n r l :
  n + zlen l < kMaxUint64 → 0 ≤ n → run_inv n r → ∃ r', acts r l = Some r' ∧ run_inv (n + zlen l) r'.
Proof.
  revert n r. induction l as [|a l IH]; intros n r Hn H0 Hr.
  { exists r. by rewrite zlen_nil, Z.add_0_r. }
  rewrite zlen_cons in *. pose proof (zlen_nonneg l).
  destruct (output_act_ok n r a) as (r1 & Hr1 & Hi1); [lia|done..|].
  destruct (IH (n + 1) r1) as (r2 & Hr2 & Hi2); [lia|lia|done|].
  exists r2. rewrite acts_cons, Hr1. split; [done|]. by replace (n + (1 + zlen l)) with (n + 1 + zlen l) by lia.
Qed.

(** C38. Whatever the interleaving of the session's updates of the status, its publications and
    the takes of the user interface (fewer than 2^64 of them), no assertion fails; the
    publications have the serial numbers 1, 2, 3, ... and were taken once each, in order, with
    the metadata they were published with, but for at most one that waits; and another take
    hands over the waiting publication and the current status, after which there is nothing to
    take and the request to copy the identifier, if there was one, has been handed over. *)
Theorem user_interface_misses_nothing l :
  zlen l < kMaxUint64 →
  ∃ r waiting r', acts start l = Some r ∧
    sent r = omap publication (updates r) ++ waiting ∧ (length waiting ≤ 1)%nat ∧
    serials (sent r) = seqZ 1 (zlen (sent r)) ∧
    act r TakeUpdate = Some r' ∧
    sent r' = sent r ∧ sent r = omap publication (updates r') ∧
    same_but_copy (seen (updates r')) (status_ (output r')) ∧
    pending_copy (status_ (output r')) = None ∧
    act r' TakeUpdate = Some r'.
Proof.
  intros Hl. destruct (output_acts_ok 0 start l Hl ltac:(lia) start_inv) as (r & Hr & Hi).
  rewrite Z.add_0_l in Hi. destruct (take_inv _ r Hi) as (r' & Hr' & Hi' & Hsent & Hun & Hser).
  exists r, (unread (output r)), r'. split; [done|]. split; [apply (run_sent _ _ Hi)|].
  split. { unfold unread. destruct (pending_publication_metadata_ (output r)); cbn; lia. }
  split; [apply (run_serials _ _ Hi)|]. split; [done|]. split; [done|].
  split. { rewrite <-Hsent, (run_sent _ _ Hi'), Hun, app_nil_r. done. }
  destruct (run_seen _ _ Hi' Hser) as [Hseen Hcopy]. split; [done|]. split; [done|].
  assert (pending_publication_metadata_ (output r') = None) as Hnone.
  { unfold unread in Hun. by destruct (pending_publication_metadata_ (output r')). }
  assert (published_ (channel_ (output r')) < 0) as Hp.
  { apply Z.nle_gt. rewrite (run_metadata _ _ Hi'), Hnone. by intros []. }
  cbn [act]. unfold TryTakeUiUpdate, has_unread_published. cbn [run index mbind option_bind].
  rewrite (proj2 (Z.leb_gt _ _)) by lia. cbn [mbind option_bind].
  rewrite Hser, Z.eqb_refl, (bool_decide_eq_false_2 (is_Some None)) by (by intros []). cbn.
  rewrite app_nil_r. by destruct r'.
Qed.

Module Examples.
Definition actions : list OutputAction :=
  [Publish true [[1]; [2]] ∅ None; Update (λ s, with_copy s (Some (mkCopy 5 "uid"))); TakeUpdate;
   Publish false [[3]] {[7 := 2]} (Some 7); Publish false [[4]] ∅ None; Update (λ s, with_error s "e")].

Example actions_result :
  (λ r, (omap publication (updates r), update_copy <$> updates r, zlen (sent r))) <$>
    acts start actions =
  Some ([([1; 2], mkMetadata kInitial 1 ∅ None)], [Some (mkCopy 5 "uid")], 2).
Proof. vm_compute. reflexivity. Qed.

Lemma user_interface_misses_nothing_witness :
  ∃ r waiting r', acts start actions = Some r ∧
    sent r = omap publication (updates r) ++ waiting ∧ (length waiting ≤ 1)%nat ∧
    serials (sent r) = seqZ 1 (zlen (sent r)) ∧
    act r TakeUpdate = Some r' ∧
    sent r' = sent r ∧ sent r = omap publication (updates r') ∧
    same_but_copy (seen (updates r')) (status_ (output r')) ∧
    pending_copy (status_ (output r')) = None ∧
    act r' TakeUpdate = Some r'.
Proof. apply user_interface_misses_nothing. vm_compute. reflexivity. Defined.
End Examples.
