(* ===== verification/ChatLoop.v ===== *)
(** * The session of the chat demo: commands, status and the main loop

    From examples/chat_demo/runtime/chat_session.cpp: what the session's thread does with the
    commands of the user interface and the other callbacks of the endpoint, how it projects
    the model into the runtime status, drives the synchronization of the rooms, and publishes.
    Joining is in ChatSession.v, the status and the publications are in ChatOutput.v. *)
From S2P Require Import Prelude Aether SharedEvent Node LinkSync SharedNode ChatModel ChatJoin.
From S2P Require Import ChatSession ChatOutput.

(** [last_*]: the values of the last projection of the record of attempts.
    [retries]: [retry_states] of the main loop, the time of the last attempt. *)
Record Session := mkSession {
  worker : Worker;
  out : Output;
  processed_edit_revisions : gmap Z Z;
  pending_select_ack : option Z;
  presence_map : gmap string PeerPresence;
  network_epoch : Z;
  network_retry_in_progress : bool;
  last_projected : Z * Z * ChatJoinPhase * string * string * string;
  retries : gmap string Z
}.

Section setters.
Implicit Types s : Session.

Definition set_worker s w := mkSession w (out s) (processed_edit_revisions s)
  (pending_select_ack s) (presence_map s) (network_epoch s) (network_retry_in_progress s)
  (last_projected s) (retries s).
Definition set_out s o := mkSession (worker s) o (processed_edit_revisions s)
  (pending_select_ack s) (presence_map s) (network_epoch s) (network_retry_in_progress s)
  (last_projected s) (retries s).
Definition set_revision s entry r := mkSession (worker s) (out s)
  (<[entry := r]> (processed_edit_revisions s)) (pending_select_ack s) (presence_map s)
  (network_epoch s) (network_retry_in_progress s) (last_projected s) (retries s).
Definition set_ack s a := mkSession (worker s) (out s) (processed_edit_revisions s) a
  (presence_map s) (network_epoch s) (network_retry_in_progress s) (last_projected s) (retries s).
Definition set_presence s p := mkSession (worker s) (out s) (processed_edit_revisions s)
  (pending_select_ack s) p (network_epoch s) (network_retry_in_progress s) (last_projected s)
  (retries s).
Definition set_epoch s e p := mkSession (worker s) (out s) (processed_edit_revisions s)
  (pending_select_ack s) p e (network_retry_in_progress s) (last_projected s) (retries s).
Definition set_projected s l := mkSession (worker s) (out s) (processed_edit_revisions s)
  (pending_select_ack s) (presence_map s) (network_epoch s) (network_retry_in_progress s) l
  (retries s).
Definition set_retry s peer t := mkSession (worker s) (out s) (processed_edit_revisions s)
  (pending_select_ack s) (presence_map s) (network_epoch s) (network_retry_in_progress s)
  (last_projected s) (<[peer := t]> (retries s)).
Definition update_status s f := set_out s (UpdateStatus (out s) f).
Definition with_chat s c := set_worker s (set_chat (worker s) c).
Definition dirty s := set_worker s (set_dirty (worker s)).
End setters.

Definition clean (w : Worker) : Worker :=
  mkWorker (chat w) (runtime w) (my_uid w) (aether_ready w) (identity_conflict w) (endpoint w)
    (sync_runtime w) (registered w) (waiting w) (join_sched_attempt_id w) (join_frozen_bytes w)
    (join_attempt_start w) (join_last_send w) false (effects w).

Definition kMaxDraftTextBytes : Z := 65536.
Definition FieldWithinUserCommandLimit (value : string) (max_bytes : Z) : bool :=
  string_size value <=? max_bytes.

Definition contains (needle s : string) : bool :=
  bool_decide (is_Some (String.index 0 needle s)).

Section session.
  Context {ids : AetherIds} {rep : Replica} {links : ChatLinks}.
  Context {archive : BootstrapArchive} {uids : AetherUids}.
  Implicit Types (s : Session) (now : Z) (clock : nat → Readings).

Abbreviation ws_of s := (fields (workspace (model (chat (worker s))))).
Abbreviation rt_of s := (fields (runtime (worker s))).

(** ** Commands of the user interface *)

(** [on_set_host_uid_input_], without its call of [project_demo_status]. *)
Definition set_host_uid_input s (text : string) clock : option (bool * Session) :=
  '(ok, c) ← SetHostUidInput (chat (worker s)) text clock;
  let s := with_chat s c in
  Some (ok, if ok : bool then dirty s else s).

Definition on_select_chat s (entry_id : Z) clock : option Session :=
  '(ok, c) ← SelectChat (chat (worker s)) entry_id clock;
  let s := with_chat s c in
  Some (if ok : bool then dirty (set_ack s (Some entry_id)) else s).

Definition edit_result (r : DraftCommandResult) (st : ChatRuntimeStatus) : ChatRuntimeStatus :=
  with_results st (<[result_entry r := r]> (latest_edit_result_by_entry st))
    (latest_send_result_by_entry st).
Definition send_result (r : DraftCommandResult) (st : ChatRuntimeStatus) : ChatRuntimeStatus :=
  with_results st (latest_edit_result_by_entry st)
    (<[result_entry r := r]> (latest_send_result_by_entry st)).

Definition reject_edit s (entry_id edit_revision : Z) (reason : string) : Session :=
  update_status s (λ st, edit_result
    (mkResult entry_id kEdit edit_revision kCommandRejected reason empty_identity)
    (with_error st reason)).

Definition on_edit_draft s (entry_id : Z) (text : string) (edit_revision : Z) clock
    : option Session :=
  if negb (FieldWithinUserCommandLimit text kMaxDraftTextBytes)
  then Some (dirty (reject_edit s entry_id edit_revision "Draft too large"))
  else if has_entry (chats (ws_of s)) entry_id then
    e ← entries (model (chat (worker s))) !! entry_id;
    let unchanged := String.eqb (draft (fields e)) text in
    '(ok, c) ← SetDraft (chat (worker s)) entry_id text clock;
    let s := with_chat s c in
    if ok : bool then
      let s := set_revision s entry_id edit_revision in
      let s := if negb unchanged then dirty s else s in
      Some (update_status s (edit_result
        (mkResult entry_id kEdit edit_revision kCommandAccepted "" empty_identity)))
    else Some s
  else Some (reject_edit s entry_id edit_revision "Unknown chat entry").

Definition reject_send s (entry_id edit_revision : Z) (reason : string) : Session :=
  update_status s (λ st, send_result
    (mkResult entry_id kSend edit_revision kCommandRejected reason empty_identity)
    (with_error st reason)).

(** [now_us]: the system's clock. *)
Definition on_send_draft s (entry_id : Z) (current_text : string) (edit_revision now_us : Z)
    clock1 clock2 : option Session :=
  if negb (FieldWithinUserCommandLimit current_text kMaxDraftTextBytes)
  then Some (dirty (reject_send s entry_id edit_revision "Draft too large"))
  else if has_entry (chats (ws_of s)) entry_id then
    '(_, c) ← SetDraft (chat (worker s)) entry_id current_text clock1;
    '(msg_id, c) ← SubmitDraft c entry_id now_us clock2;
    let s := with_chat s c in
    if negb (String.eqb (origin_uid msg_id) "") && (0 <? origin_sequence msg_id) then
      let s := dirty (set_revision s entry_id edit_revision) in
      Some (update_status s (send_result
        (mkResult entry_id kSend edit_revision kCommandAccepted "" msg_id)))
    else Some (dirty (reject_send s entry_id edit_revision "Send rejected"))
  else Some (reject_send s entry_id edit_revision "Unknown chat entry").

Definition on_save_scroll s (entry_id : Z) (anchor : ScrollAnchor) clock : option Session :=
  if has_entry (chats (ws_of s)) entry_id then
    '(ok, c) ← SetScroll (chat (worker s)) entry_id anchor clock;
    let s := with_chat s c in
    Some (if ok : bool then dirty s else s)
  else Some s.

Definition on_save_bounds s (bounds : DesktopBounds) clock : option Session :=
  '(ok, c) ← SetDesktopBounds (chat (worker s)) bounds clock;
  let s := with_chat s c in
  Some (if ok : bool then dirty s else s).

(** [fault]: the text of the exception that the save throws. *)
Definition on_checkpoint s (request_id : Z) (fault : option string) : Session :=
  match fault with
  | None =>
      let s := set_worker s (persist_workspace (worker s)) in
      update_status s (λ st, with_checkpoint st request_id)
  | Some what =>
      update_status s (λ st, with_error st (String.append "Checkpoint Save failed: " what))
  end.

Definition on_copy_host_uid s (req_id : Z) (reading : Readings) : option Session :=
  '(asked, w) ← copy_host_uid (worker s) req_id reading;
  let s := set_worker s w in
  Some (if asked : bool then
          update_status s (λ st, with_copy st
            (Some (mkCopy (copy_request_id (rt_of s)) (copy_uid (rt_of s)))))
        else s).

(** *** Callbacks of the endpoint, by the epoch of their network *)

Definition set_peer_presence s (peer : string) (p : PeerPresence) : Session :=
  let s := set_presence s (<[peer := p]> (presence_map s)) in
  update_status s (λ st, with_presence st (presence_map s)).

Definition on_failed s (epoch : Z) (err : string) : Session :=
  if negb (network_epoch s =? epoch) then s
  else update_status s (λ st, with_error (with_lifecycle st kFailed) err).

Definition on_presence s (epoch : Z) (peer : string) (p : PeerPresence) : Session :=
  if negb (network_epoch s =? epoch) then s else set_peer_presence s peer p.

Definition on_connectivity s (epoch : Z) (has_schedule any_online : bool) : Session :=
  if negb (network_epoch s =? epoch) then s
  else update_status s (λ st,
    with_connectivity st (LocalConnectivityFromDiag has_schedule any_online)).

(** The flag of a retry in progress is set and cleared within the call, on the one thread. *)
Definition on_retry_connection s : Session :=
  if identity_conflict (worker s) || network_retry_in_progress s then s
  else if negb (bool_decide (lifecycle_state (status_ (out s)) = kFailed)) then s
  else
    let s := set_epoch s (u64 (network_epoch s + 1)) ∅ in
    let s := update_status s (λ st,
      with_error (with_presence (with_connectivity (with_lifecycle st kStarting) kUnknown) ∅) "") in
    set_worker s (restart_network (worker s)).

(** ** Projections into the status *)

(** What a failed join may have left in the text of the last error. *)
Definition about_join (e : string) : bool :=
  contains "Join" e || contains "join" e || String.eqb e "Invalid Host UID" ||
  contains "timed out" e.

Definition client_text (phase : ChatJoinPhase) (err : string) : string :=
  match phase with
  | kJoining => "Joining…"
  | kAccepted => "Syncing…"
  | kJoined => "Joined"
  | ChatJoin.kFailed => err
  | kIdle => ""
  end.

Definition join_projection (role : DemoRole) (host uid : string) (phase : ChatJoinPhase)
    (err : string) (st : ChatRuntimeStatus) : ChatRuntimeStatus :=
  if bool_decide (role = kHost) && String.eqb uid "" then
    with_join st role uid host phase "Registering…" (error_text st)
  else if bool_decide (role = kClient) then
    let error :=
      if bool_decide (phase = ChatJoin.kFailed) then err
      else if String.eqb err "" && about_join (error_text st) then "" else error_text st in
    with_join st role uid host phase (client_text phase err) error
  else with_join st role uid host phase "" (error_text st).

Definition project_demo_status s : Session :=
  let w := worker s in
  let key := (Generation (runtime w), Generation (workspace (model (chat w))),
              join_phase (rt_of s), last_error (rt_of s), host_uid_input (ws_of s),
              local_endpoint_uid (ws_of s)) in
  if bool_decide (last_projected s = key) then s
  else
    let s := set_projected s key in
    update_status s (join_projection (demo_role (ws_of s)) (host_uid_input (ws_of s))
      (local_endpoint_uid (ws_of s)) (join_phase (rt_of s)) (last_error (rt_of s))).

Definition on_set_host_uid_input s (text : string) clock : option Session :=
  '(ok, s) ← set_host_uid_input s text clock;
  Some (if ok : bool then project_demo_status s else s).

Definition BootstrapFromPhase (phase : Z) : RoomBootstrapState :=
  if phase =? InitialSyncPhase.Complete then BootstrapComplete
  else if phase =? InitialSyncPhase.Pending then BootstrapPending
  else BootstrapNotStarted.

Definition DeliveryForOwnEvent (state : LinkSyncFields) (id : SharedEventId) (local_uid : string)
    : MessageDeliveryState :=
  if negb (String.eqb (origin_uid id) local_uid) || (origin_sequence id =? 0) then DeliveryNone
  else if HasDelivered state id then DeliveryDelivered
  else if HasPendingEvent state && bool_decide (pending_event_identity state = id)
  then DeliverySending
  else DeliveryQueued.

(** What the loops over the entries find of one: the uid of its peer, the room, the
    relationship and its synchronization state. *)
Definition synchronized_room s (p : option Z) : option (string * ChatRoom * Share * LinkSyncFields) :=
  e ← entry_at (worker s) p;
  rm ← room (fields e);
  l ← peer_link (fields e);
  n ← rooms (model (chat (worker s))) !! rm;
  if String.eqb (EndpointUid l) "" then None else
  share ← remote_share (fields n) (EndpointUid l);
  if negb (ObjId_is_valid (share_id share)) then None else
  match link_sync_states (fields n) !! FindLinkSyncIndexForShare (fields n) (share_id share) with
  | Some (Some state) => Some (EndpointUid l, n, share, fields state)
  | _ => None
  end.

Definition project_message (state : LinkSyncFields) (local_uid : string)
    (delivery : gmap SharedEventId MessageDeliveryState) (v : MessageValue)
    : gmap SharedEventId MessageDeliveryState :=
  let d := DeliveryForOwnEvent state (message_id v) local_uid in
  if bool_decide (d = DeliveryNone) then delivery else <[message_id v := d]> delivery.

Definition project_entry s (acc : gmap string RoomBootstrapState * gmap SharedEventId MessageDeliveryState)
    (p : option Z) : gmap string RoomBootstrapState * gmap SharedEventId MessageDeliveryState :=
  match synchronized_room s p with
  | None => acc
  | Some (peer, n, _, state) =>
      (<[peer := BootstrapFromPhase (initial_sync_phase state)]> acc.1,
       foldl (project_message state (my_uid (worker s))) acc.2 (messages (node_app (fields n))))
  end.

Definition refresh_sync_projection s
    : gmap string RoomBootstrapState * gmap SharedEventId MessageDeliveryState :=
  if String.eqb (my_uid (worker s)) "" then (∅, ∅)
  else foldl (project_entry s) (∅, ∅) (chats (ws_of s)).

(** ** The main loop *)

Inductive SyncCall := CallSyncInitialState | CallSyncNextEvent.

(** What the loop asks of the synchronization runtime for a room; [last]: the time of the last
    attempt. *)
Definition sync_call (state : LinkSyncFields) (online : bool) (last now : Z) : option SyncCall :=
  let phase := initial_sync_phase state in
  if phase =? InitialSyncPhase.NotStarted then Some CallSyncInitialState
  else if phase =? InitialSyncPhase.Pending then
    if kSecond <=? now - last then Some CallSyncInitialState else None
  else if phase =? InitialSyncPhase.Complete then
    if negb online then None
    else if HasPendingEvent state then
      if kSecond <=? now - last then Some CallSyncNextEvent else None
    else Some CallSyncNextEvent
  else None.

Record RoomSyncSnapshot := mkSnapshot {
  snap_phase : Z;
  snap_has_pending_event : bool;
  snap_initial_packet_id : Z;
  snap_event_packet_id : Z;
  message_count : Z;
  journal_size : Z
}.
#[export] Instance RoomSyncSnapshot_eq_dec : EqDecision RoomSyncSnapshot.
Proof. solve_decision. Defined.

Definition CaptureRoomSyncSnapshot (n : ChatRoom) (state : LinkSyncFields) : RoomSyncSnapshot :=
  mkSnapshot (initial_sync_phase state) (HasPendingEvent state)
    (pending_initial_packet_id state) (pending_event_packet_id state)
    (zlen (messages (node_app (fields n)))) (zlen (journal n)).

(** [call]: what the synchronization runtime does to the rooms of the worker. *)
Variable call : SyncCall → Z → Z → Worker → option Worker.

Definition is_online s (peer : string) : bool :=
  bool_decide (presence_map s !! peer = Some PresenceOnline).

Definition drive_entry s (p : option Z) now : option Session :=
  match synchronized_room s p with
  | None => Some s
  | Some (peer, n, share, state) =>
      let last := default 0 (retries s !! peer) in
      let before := CaptureRoomSyncSnapshot n state in
      match sync_call state (is_online s peer) last now with
      | None => Some (set_retry s peer last)
      | Some c =>
          w ← call c (obj_id n) (share_id share) (worker s);
          let s := set_retry (set_worker s w) peer now in
          match synchronized_room s p with
          | Some (_, n, _, state) =>
              if bool_decide (before = CaptureRoomSyncSnapshot n state) then Some s
              else Some (dirty (set_worker s (persist_workspace (worker s))))
          | None => None
          end
      end
  end.

Fixpoint drive_entries s (l : list (option Z)) now : option Session :=
  match l with
  | [] => Some s
  | p :: l => s ← drive_entry s p now; drive_entries s l now
  end.

Definition drive_sync s now : option Session :=
  if negb (sync_runtime (worker s)) || identity_conflict (worker s) then Some s
  else
    s ← drive_entries s (chats (ws_of s)) now;
    let '(bootstrap, delivery) := refresh_sync_projection s in
    if bool_decide (room_bootstrap_by_peer_uid (status_ (out s)) = bootstrap) &&
       bool_decide (delivery_by_event_id (status_ (out s)) = delivery)
    then Some s
    else Some (update_status s (λ st, with_sync st bootstrap delivery)).

(** [publish_now_unlocked], which uses up the acknowledgement of the selection. *)
Definition publish_unlocked s (is_initial : bool) (chunks : list bytes) : option Session :=
  o ← publish_now_unlocked (out s) is_initial chunks (processed_edit_revisions s)
        (pending_select_ack s);
  Some (set_ack (set_out s o) None).

(** The publication of an iteration; the flag stays while the channel is busy. *)
Definition publish_dirty s (chunks : list bytes) : option Session :=
  if negb (publication_dirty (worker s)) then Some s
  else
    '(c, busy) ← PublicationChannel.run (channel_ (out s)) PublicationChannel.is_publication_busy;
    if busy : bool then Some s
    else
      s ← publish_unlocked s false chunks;
      Some (set_worker s (clean (worker s))).

(** The rest of an iteration after the work of the queue.  [stopping]: a stop was requested. *)
Definition iteration s (chunks : list bytes) (stopping : bool) now (reading : Readings)
    : option Session :=
  s ← publish_dirty s chunks;
  if stopping then Some s
  else
    s ← drive_sync s now;
    w ← drive_join_send (worker s) now reading;
    Some (project_demo_status (set_worker s w)).
End session.
