(* ===== verification/ChatLoopTheory.v ===== *)
(** * What holds of the commands and of the main loop of a chat session

    Every edit and every send of a draft is answered with its revision, accepted exactly when
    it can be done; what is shown as delivered stays so; packets of a relationship are sent at
    most once a second while one is outstanding, and events only to a peer that is
    online; what is to be published is published with the revisions as soon as the channel is
    free. *)
From S2P Require Import Prelude Aether SharedEvent PublicationChannel Node NodeTheory NodeBudget.
From S2P Require Import LinkSync SharedNode SharedNodeTheory ChatModel ChatModelTheory ChatJoin.
From S2P Require Import ChatSession ChatOutput ChatOutputTheory ChatLoop.

Section commands.
  Context {ids : AetherIds} {rep : Replica} {links : ChatLinks}.
  Context {archive : BootstrapArchive} {uids : AetherUids} (me : string).
  Implicit Types (s : Session) (k : Z) (clock : nat → Readings).

Abbreviation chat_of s := (chat (worker s)).
Abbreviation status_of s := (status_ (out s)).

Lemma SetDraft_spec k c id n text clock :
  0 ≤ k → chat_ok me (k + 1) (model c) → clock_ok (k + 1) clock → entries (model c) !! id = Some n →
  ∃ c' n', SetDraft c id text clock = Some (true, c') ∧ chat_ok me k (model c') ∧
    entries (model c') = <[id := n']> (entries (model c)) ∧
    fields n' = Apply_Entry (fields n) (DraftChangedEvent text) ∧
    rooms (model c') = rooms (model c) ∧ workspace (model c') = workspace (model c).
Proof.
  intros Hk Hok Hclock Hid. unfold SetDraft. rewrite Hid. cbn [mbind option_bind].
  assert (chat_ok me k (model c)) as Hok' by (apply (chat_ok_weaken _ (k + 1)); [lia|done]).
  destruct (String.eqb_spec (draft (fields n)) text) as [Ht|Ht].
  - exists c, n. split; [done|]. split; [done|]. split; [by rewrite insert_id|].
    split; [|done]. cbn. rewrite <-Ht. by destruct (fields n).
  - unfold commit_entry_and_persist. destruct (chat_entries _ _ _ Hok id n Hid) as [Hb Hbd].
    destruct (commit_entry_ok me k c id n (DraftChangedEvent text) (clock 0%nat))
      as (n' & -> & Hf & _ & Hn); [done|done|done|apply Hclock|done|done|done|done|].
    exists (persist (set_model c (with_entry (model c) id n'))), n'. split; [done|].
    rewrite model_persist. done.
Qed.

Lemma has_entry_listed k c id :
  chat_ok me k (model c) → has_entry (chats (fields (workspace (model c)))) id = true →
  is_Some (entries (model c) !! id).
Proof.
  intros Hok Hl%has_entry_spec. destruct (ws_listed _ _ _ (chat_fields _ _ _ Hok) _ Hl) as [[p Hp] _].
  cbn in Hp. by destruct (entries (model c) !! id).
Qed.

(** The edit can be done. *)
Definition editable s (entry : Z) (text : string) : bool :=
  FieldWithinUserCommandLimit text kMaxDraftTextBytes && has_entry (chats (fields (workspace (model (chat_of s))))) entry.

(** What an edit does to the session, and its answer. *)
Definition edit_outcome k s s' (entry : Z) (text : string) (rev : Z) (r : DraftCommandResult) : Prop :=
  chat_ok me k (model (chat_of s')) ∧
  latest_edit_result_by_entry (status_of s') !! entry = Some r ∧
  result_kind r = kEdit ∧ revision r = rev ∧
  if editable s entry text then
    outcome r = kCommandAccepted ∧ processed_edit_revisions s' !! entry = Some rev ∧
    ∃ n n', entries (model (chat_of s)) !! entry = Some n ∧
      entries (model (chat_of s')) !! entry = Some n' ∧ draft (fields n') = text ∧
      (draft (fields n) ≠ text → publication_dirty (worker s') = true)
  else
    outcome r = kCommandRejected ∧ failure_reason r ≠ ""%string ∧
    error_text (status_of s') = failure_reason r ∧ chat_of s' = chat_of s ∧
    processed_edit_revisions s' = processed_edit_revisions s.

Lemma on_edit_draft_spec k s entry text rev clock :
  0 ≤ k → chat_ok me (k + 1) (model (chat_of s)) → clock_ok (k + 1) clock →
  ∃ s' r, on_edit_draft s entry text rev clock = Some s' ∧ edit_outcome k s s' entry text rev r ∧
    channel_ (out s') = channel_ (out s) ∧
    pending_publication_metadata_ (out s') = pending_publication_metadata_ (out s) ∧
    pending_select_ack s' = pending_select_ack s ∧
    status_serial_ (out s') = u64 (status_serial_ (out s) + 1) ∧
    last_delivered_status_serial_ (out s') = last_delivered_status_serial_ (out s).
Proof.
  intros Hk Hok Hclock. unfold on_edit_draft, edit_outcome, editable.
  assert (chat_ok me k (model (chat_of s))) as Hok' by (apply (chat_ok_weaken _ (k + 1)); [lia|done]).
  destruct (FieldWithinUserCommandLimit text kMaxDraftTextBytes); cbn [negb andb].
  2: { eexists _, _. split; [reflexivity|]. cbn. rewrite lookup_insert_eq. by split. }
  destruct (has_entry _ entry) eqn:Hl.
  2: { eexists _, _. split; [reflexivity|]. cbn. rewrite lookup_insert_eq. by split. }
  destruct (has_entry_listed _ _ _ Hok Hl) as [n Hn]. rewrite Hn. cbn [mbind option_bind].
  destruct (SetDraft_spec k (chat_of s) entry n text clock) as (c' & n' & -> & Hok2 & He & Hf & _);
    [done..|].
  cbn [mbind option_bind]. eexists _, _. split; [reflexivity|].
  destruct (String.eqb_spec (draft (fields n)) text) as [Ht|Ht]; cbn [negb]; cbn;
    rewrite !lookup_insert_eq; (split; [|done]); do 6 (split; [done|]);
    exists n, n'; (split; [done|]); rewrite He, lookup_insert_eq, Hf; done.
Qed.

(** The guards of [SubmitDraft] on an entry whose draft is [text]. *)
Definition sendable (c : ChatState) (entry : Z) (text : string) (now_us : Z) : bool :=
  let w := fields (workspace (model c)) in
  match entries (model c) !! entry with
  | None => false
  | Some n =>
      bool_decide (is_Some (room (fields n))) && negb (String.eqb (local_endpoint_uid w) "") &&
      negb (String.eqb text "") && negb (now_us =? 0) && negb (next_message_sequence w =? kMaxUint64)
  end.

Lemma SubmitDraft_refuses k c entry n now_us clock :
  chat_ok me k (model c) → entries (model c) !! entry = Some n →
  sendable c entry (draft (fields n)) now_us = false →
  SubmitDraft c entry now_us clock = Some (empty_identity, c).
Proof.
  intros Hok Hn. unfold sendable, SubmitDraft. rewrite Hn. cbn [mbind option_bind].
  destruct (room (fields n)) as [rm|]; [|done]. rewrite bool_decide_eq_true_2 by eauto.
  pose proof (ws_sequence _ _ _ (chat_fields _ _ _ Hok)).
  rewrite (proj2 (Z.eqb_neq (next_message_sequence _) 0)) by lia.
  intros Hs. destruct (String.eqb (local_endpoint_uid _) ""), (String.eqb (draft _) ""),
    (now_us =? 0), (_ =? kMaxUint64); done.
Qed.

(** A send of the draft that the entry has. *)
Lemma SubmitDraft_accepts k c entry n now_us clock :
  0 ≤ k → chat_ok me (k + 1) (model c) → clock_ok (k + 1) clock → me ≠ ""%string →
  entries (model c) !! entry = Some n → 0 ≤ now_us → now_us + k < kMaxUint64 →
  sendable c entry (draft (fields n)) now_us = true →
  let id := mkSharedEventId me (next_message_sequence (fields (workspace (model c)))) in
  ∃ c' rm r r' n' t, SubmitDraft c entry now_us clock = Some (id, c') ∧ chat_ok me k (model c') ∧
    room (fields n) = Some rm ∧ rooms (model c) !! rm = Some r ∧
    rooms (model c') = <[rm := r']> (rooms (model c)) ∧
    entries (model c') = <[entry := n']> (entries (model c)) ∧
    draft (fields n') = ""%string ∧ now_us ≤ t ∧
    room_messages r' ≡ₚ mkMessage id t (draft (fields n)) :: room_messages r.
Proof.
  intros Hk Hok Hclock Hme Hn Hnow Hfar. unfold sendable. rewrite Hn. intros Hs. breflect.
  match goal with H : is_Some (room _) |- _ => destruct H as [rm Hrm] end.
  destruct (chat_entries _ _ _ Hok entry n Hn) as [_ [Hb _]]. destruct (Hb rm Hrm) as [r Hr].
  destruct (ws_local _ _ _ (chat_fields _ _ _ Hok)) as [Hl|Hl];
    [match goal with H : String.eqb (local_endpoint_uid _) "" = false |- _ => by rewrite Hl in H end|].
  destruct (SubmitDraft_models me k c entry n rm r now_us clock) as
    (w & r' & n' & t & -> & _ & _ & Hok3 & _ & _ & _ & _ & Hn' & Ht & Hperm & _);
    [done|done|done|done|done|done|done|done|by apply String.eqb_neq|lia|done|done|].
  eexists _, rm, r, r', n', t. split; [reflexivity|]. rewrite model_persist. cbn [model set_model].
  do 5 (split; [done|]). by rewrite Hn'.
Qed.

(** Every send of a draft is answered in the status, with its revision.  It is accepted
    exactly when the text is within the limit and not empty, the entry is listed and has a
    room, the endpoint is known, and the clock and the sequence numbers are usable; then the
    answer names a message with the text and the next sequence number of this endpoint, which
    is in the room at a time not before the clock, and the draft is empty.  Otherwise it is
    rejected with a reason, which is the text of the error too, and no room changes. *)
Theorem send_is_answered k s entry text rev now_us clock1 clock2 :
  0 ≤ k → chat_ok me (k + 1 + 1) (model (chat_of s)) → clock_ok (k + 1 + 1) clock1 →
  clock_ok (k + 1) clock2 → me ≠ ""%string → 0 ≤ now_us → now_us + k < kMaxUint64 →
  ∃ s' r, on_send_draft s entry text rev now_us clock1 clock2 = Some s' ∧
    chat_ok me k (model (chat_of s')) ∧
    latest_send_result_by_entry (status_of s') !! entry = Some r ∧
    result_kind r = kSend ∧ revision r = rev ∧
    if editable s entry text && sendable (chat_of s) entry text now_us then
      outcome r = kCommandAccepted ∧ processed_edit_revisions s' !! entry = Some rev ∧
      publication_dirty (worker s') = true ∧
      accepted_send_id r = mkSharedEventId me (next_message_sequence (fields (workspace (model (chat_of s))))) ∧
      ∃ rm n r1 r2 t, rooms (model (chat_of s)) !! rm = Some r1 ∧
        rooms (model (chat_of s')) = <[rm := r2]> (rooms (model (chat_of s))) ∧
        room_messages r2 ≡ₚ mkMessage (accepted_send_id r) t text :: room_messages r1 ∧
        now_us ≤ t ∧ entries (model (chat_of s')) !! entry = Some n ∧ draft (fields n) = ""%string
    else
      outcome r = kCommandRejected ∧ failure_reason r ≠ ""%string ∧
      error_text (status_of s') = failure_reason r ∧
      rooms (model (chat_of s')) = rooms (model (chat_of s)).
Proof.
  intros Hk Hok Hclock1 Hclock2 Hme Hnow Hfar. unfold on_send_draft, editable.
  assert (chat_ok me k (model (chat_of s))) as Hok' by (apply (chat_ok_weaken _ (k + 1 + 1)); [lia|done]).
  destruct (FieldWithinUserCommandLimit text kMaxDraftTextBytes); cbn [negb andb].
  2: { eexists _, _. split; [reflexivity|]. cbn. rewrite lookup_insert_eq. by split. }
  destruct (has_entry _ entry) eqn:Hl.
  2: { eexists _, _. split; [reflexivity|]. cbn. rewrite lookup_insert_eq. by split. }
  destruct (has_entry_listed _ _ _ Hok Hl) as [n Hn]. cbn [andb].
  destruct (SetDraft_spec (k + 1) (chat_of s) entry n text clock1) as
    (c1 & n1 & -> & Hok1 & He1 & Hf1 & Hr1 & Hw1); [lia|done..|].
  cbn [mbind option_bind].
  assert (entries (model c1) !! entry = Some n1) as Hn1 by (by rewrite He1, lookup_insert_eq).
  assert (draft (fields n1) = text) as Hd1 by (by rewrite Hf1).
  assert (sendable (chat_of s) entry text now_us = sendable c1 entry (draft (fields n1)) now_us) as ->.
  { unfold sendable. by rewrite Hn, Hn1, Hw1, Hd1, Hf1. }
  destruct (sendable c1 entry _ now_us) eqn:Hs.
  - destruct (SubmitDraft_accepts k c1 entry n1 now_us clock2) as
      (c2 & rm & r1 & r2 & n2 & t & -> & Hok2 & Hrm & Hr & Hr2 & He2 & Hd2 & Ht & Hperm); [done..|].
    pose proof (ws_sequence _ _ _ (chat_fields _ _ _ Hok1)) as Hseq.
    cbn [mbind option_bind origin_uid origin_sequence].
    rewrite (proj2 (String.eqb_neq me "")), (proj2 (Z.ltb_lt _ _)) by (done || lia). cbn [negb andb].
    eexists _, _. split; [reflexivity|]. cbn. rewrite !lookup_insert_eq.
    rewrite Hr1 in *. rewrite Hd1 in *. rewrite Hw1 in *.
    do 8 (split; [done|]). exists rm, n2, r1, r2, t. rewrite He2, lookup_insert_eq. done.
  - rewrite (SubmitDraft_refuses _ _ _ _ _ _ Hok1 Hn1 Hs). cbn [mbind option_bind].
    eexists _, _. split; [reflexivity|]. cbn. rewrite lookup_insert_eq.
    split; [by apply (chat_ok_weaken _ (k + 1)); [lia|]|]. by rewrite Hr1.
Qed.

(** *** Publication *)

(** A publication of an iteration with a free channel. *)
Lemma publish_dirty_spec s chunks :
  idle (channel_ (out s)) → published_ (channel_ (out s)) = -1 → publication_dirty (worker s) = true →
  ∃ s' c', publish_dirty s chunks = Some s' ∧ publication_dirty (worker s') = false ∧
    chat_of s' = chat_of s ∧ status_of s' = status_of s ∧ pending_select_ack s' = None ∧
    channel_ (out s') = c' ∧ idle c' ∧ 0 ≤ published_ c' ∧ slot c' (published_ c') = concat chunks ∧
    pending_publication_metadata_ (out s') =
      Some (mkMetadata kStructural (next_publication_serial_ (out s)) (processed_edit_revisions s)
              (pending_select_ack s)).
Proof.
  intros Hi Hp Hd. unfold publish_dirty. rewrite Hd. cbn [negb]. rewrite run_busy by done.
  cbn [mbind option_bind]. rewrite (proj2 (Z.leb_gt _ _)) by lia.
  unfold publish_unlocked, publish_now_unlocked. rewrite run_busy by done. cbn [mbind option_bind].
  rewrite (proj2 (Z.leb_gt _ _)) by lia. cbn [negb].
  destruct (run_publish (channel_ (out s)) chunks Hi Hp) as (c' & -> & Hi' & Hp' & Hslot).
  cbn [mbind option_bind]. eexists _, c'. split; [reflexivity|]. cbn. done.
Qed.

(** With a channel that is not free nothing changes: the flag stays for the next iteration. *)
Lemma publish_dirty_busy s chunks :
  idle (channel_ (out s)) → 0 ≤ published_ (channel_ (out s)) → publish_dirty s chunks = Some s.
Proof.
  intros Hi Hp. unfold publish_dirty. destruct (publication_dirty (worker s)); [|done]. cbn [negb].
  rewrite run_busy by done. cbn [mbind option_bind]. by rewrite (proj2 (Z.leb_le _ _)) by lia.
Qed.

End commands.

(** ** Delivery *)

(** What is shown as delivered stays so whatever protocol events the relationship applies. *)
Lemma delivered_stays `{AetherIds} f j g id uid :
  sync_ok f → Forall protocol_record j → replay f j = Some g →
  DeliveryForOwnEvent f id uid = DeliveryDelivered → DeliveryForOwnEvent g id uid = DeliveryDelivered.
Proof.
  intros Hok Hp Hr. destruct (replay_progress f j g Hok Hp Hr) as (_ & [l Hl] & _).
  unfold DeliveryForOwnEvent. destruct (_ || _); [done|].
  destruct (HasDelivered f id) eqn:Hd; [|by destruct (_ && _)].
  intros _. unfold HasDelivered in *. by rewrite Hl, existsb_app, Hd.
Qed.

(** ** Pacing *)

Section pacing.
  Context {ids : AetherIds} {rep : Replica} {links : ChatLinks}.
  Implicit Types (s : Session) (now : Z).
  Variable call : SyncCall → Z → Z → Worker → option Worker.

(** A packet of a relationship is outstanding. *)
Definition outstanding (state : LinkSyncFields) : Prop :=
  initial_sync_phase state = InitialSyncPhase.Pending ∨
  (initial_sync_phase state = InitialSyncPhase.Complete ∧ HasPendingEvent state = true).

(** While a packet is outstanding nothing is asked of the synchronization within a second of
    the last attempt, and with the initial exchange complete nothing while the peer is not
    online; what is asked is noted with its time. *)
Lemma drive_entry_paced s p now s' peer n share state :
  synchronized_room s p = Some (peer, n, share, state) → drive_entry call s p now = Some s' →
  let last := default 0 (retries s !! peer) in
  (outstanding state → now - last < kSecond → worker s' = worker s ∧ retries s' !! peer = Some last) ∧
  (initial_sync_phase state = InitialSyncPhase.Complete → is_online s peer = false →
     worker s' = worker s) ∧
  (retries s' !! peer = Some last ∧ worker s' = worker s ∨ retries s' !! peer = Some now).
Proof.
  intros Hroom Hd last. unfold drive_entry in Hd. rewrite Hroom in Hd. fold last in Hd.
  assert (∀ c, sync_call state (is_online s peer) last now = Some c → retries s' !! peer = Some now) as Hcall.
  { intros c Hc. rewrite Hc in Hd. destruct (call c (obj_id n) (share_id share) (worker s)) as [w|];
      [|done]. cbn [mbind option_bind] in Hd.
    repeat case_match; try done; injection Hd as <-; cbn; apply lookup_insert_eq. }
  assert (sync_call state (is_online s peer) last now = None →
    worker s' = worker s ∧ retries s' !! peer = Some last) as Hnone.
  { intros Hc. rewrite Hc in Hd. injection Hd as <-. cbn. split; [done|]. apply lookup_insert_eq. }
  split; [|split].
  - intros Hout Hlt. apply Hnone. unfold sync_call, outstanding in *.
    rewrite (proj2 (Z.leb_gt _ _)) by lia.
    destruct Hout as [->|[-> ->]]; cbn; [done|]. by destruct (is_online s peer).
  - intros Hph Hoff. apply Hnone. unfold sync_call. by rewrite Hph, Hoff.
  - destruct (sync_call _ _ _ _) as [c|] eqn:Hc; [right; by apply (Hcall c)|left].
    by destruct Hnone.
Qed.
End pacing.
