(* ===== verification/ChatLoopRuns.v ===== *)
(** * An edit on its way to the user interface

    The thread of a chat session works on commands and callbacks and publishes between them,
    while the thread of the user interface takes updates: any sequence of these steps
    ([ui_run]).  The answer to an edit is in the next update that is taken; and whatever else
    is published, edited and received meanwhile, once an update has been taken, an iteration
    has published and an update has been taken again, the text of the edit has arrived. *)
From stdpp Require Import relations.
From S2P Require Import Prelude Aether SharedEvent PublicationChannel Node NodeTheory NodeBudget.
From S2P Require Import LinkSync SharedNode ChatModel ChatModelTheory ChatJoin.
From S2P Require Import ChatSession ChatOutput ChatOutputTheory ChatLoop ChatLoopTheory.



Section runs.
  Context {ids : AetherIds} {rep : Replica} {links : ChatLinks}.
  Context {archive : BootstrapArchive} {uids : AetherUids}.
  Context (call : SyncCall → Z → Z → Worker → option Worker).
  (** What the serialization of the workspace writes of the model. *)
  Context (serialize : ChatModel → list bytes).
  Implicit Types (s : Session) (k : Z) (clock : nat → Readings) (us : list ChatUiUpdate).

Abbreviation chat_of s := (chat (worker s)).
Abbreviation status_of s := (status_ (out s)).
Abbreviation entries_of s := (entries (model (chat_of s))).

Definition rest_of_iteration s now (reading : Readings) : option Session :=
  s ← drive_sync call s now;
  w ← drive_join_send (worker s) now reading;
  Some (project_demo_status (set_worker s w)).

(** An iteration that is not told to stop publishes and does the rest. *)
Lemma iteration_parts s chunks now reading :
  iteration call s chunks false now reading =
    s ← publish_dirty s chunks; rest_of_iteration s now reading.
Proof. done. Qed.




(** ** What the other closures keep of an edit *)

(** The entry, its revision and the answer stay, and what is to be published still is; the
    channel belongs to publishing and taking. *)
Record keeps (entry : Z) s s' : Prop := {
  keeps_entry n : entries_of s !! entry = Some n → entries_of s' !! entry = Some n;
  keeps_revision : processed_edit_revisions s' !! entry = processed_edit_revisions s !! entry;
  keeps_answer : latest_edit_result_by_entry (status_of s') !! entry =
    latest_edit_result_by_entry (status_of s) !! entry;
  keeps_dirty : publication_dirty (worker s) = true → publication_dirty (worker s') = true;
  keeps_channel : channel_ (out s') = channel_ (out s);
  keeps_metadata : pending_publication_metadata_ (out s') = pending_publication_metadata_ (out s)
}.

#[export] Instance keeps_preorder entry : PreOrder (keeps entry).
Proof.
  split; [by split|]. intros s1 s2 s3 [A1 A2 A3 A4 A5 A6] [B1 B2 B3 B4 B5 B6].
  split; [auto|congruence|congruence|auto|congruence|congruence].
Qed.














(** ** What the closures do *)

Context (Hcall : ∀ c rm share w w', call c rm share w = Some w' →
  entries (model (chat w')) = entries (model (chat w)) ∧
  (publication_dirty w = true → publication_dirty w' = true)).













(** ** The channel between the calls *)

Record channel_ok (o : Output) : Prop := {
  channel_idle : idle (channel_ o);
  channel_metadata : 0 ≤ published_ (channel_ o) ↔ is_Some (pending_publication_metadata_ o)
}.




(** ** The way of an edit *)

Section way.
Context (entry : Z) (text : string) (rev : Z) (r : DraftCommandResult).

(** The edit is in the model, and has been answered. *)
Record edited s : Prop := {
  edited_entry : ∃ n, entries_of s !! entry = Some n ∧ draft (fields n) = text;
  edited_revision : processed_edit_revisions s !! entry = Some rev;
  edited_answer : latest_edit_result_by_entry (status_of s) !! entry = Some r
}.

(** A model that has the text of the edit. *)
Definition has_text (m : ChatModel) : Prop :=
  ∃ n, entries m !! entry = Some n ∧ draft (fields n) = text.

(** An update has the publication of a model with the text, with the revision, and the
    answer. *)
Definition arrived us : Prop :=
  ∃ u m c, u ∈ us ∧ has_text c ∧ publication u = Some (concat (serialize c), m) ∧
    edit_revisions_by_entry m !! entry = Some rev ∧
    latest_edit_result_by_entry (runtime_status u) !! entry = Some r.

Inductive Phase : nat → Session → list ChatUiUpdate → Prop :=
| to_publish s us :
    edited s → channel_ok (out s) → publication_dirty (worker s) = true → Phase 0 s us
| channel_free s us :
    edited s → channel_ok (out s) → publication_dirty (worker s) = true →
    published_ (channel_ (out s)) = -1 → Phase 1 s us
| is_published s us m c :
    edited s → channel_ok (out s) → pending_publication_metadata_ (out s) = Some m →
    edit_revisions_by_entry m !! entry = Some rev → has_text c →
    slot (channel_ (out s)) (published_ (channel_ (out s))) = concat (serialize c) → Phase 2 s us
| has_arrived s us : channel_ok (out s) → arrived us → Phase 3 s us.

Definition reached (i : nat) s us : Prop := ∃ j, (i ≤ j)%nat ∧ Phase j s us.











End way.

End runs.
