(* ===== verification/ChatLoopExamples.v ===== *)
(** * Drafts of a chat session, step by step

    The session of alice with bob: the witnesses of the theorems on draft commands. *)
From S2P Require Import Prelude Aether SharedEvent PublicationChannel Node NodeBudget LinkSync.
From S2P Require Import SharedNode ChatModel ChatModelTheory ChatModelExamples ChatJoin ChatSession.
From S2P Require Import ChatOutput ChatOutputTheory ChatLoop ChatLoopTheory ChatLoopRuns.

#[local] Existing Instance Demo.ids.
#[local] Existing Instance chat_replica.
#[local] Existing Instance chat_links.

Definition alice_worker : Worker :=
  mkWorker chat_state (fresh 90 new_runtime_state) "alice" true false true true {[30]} ∅ 0 [] 0
    None false [].

Definition alice : Session :=
  mkSession alice_worker new_output ∅ None {["bob" := PresenceOnline]} 1 false
    (0, 0, kIdle, "", "", "")%string ∅.

Definition t0 : nat → Readings := at_time 1000.

Lemma t0_ok k : k < 1000000 → clock_ok k t0.
Proof. intros Hk. apply at_time_ok; unfold kMaxUint64; lia. Qed.

(** An edit and its publication. *)
Example an_edit :
  (s ← on_edit_draft alice 20 "fine" 5 t0;
   s ← publish_dirty s [[1]; [2]];
   '(u, _) ← TryTakeUiUpdate (out s);
   u ← u;
   Some (edit_revisions_by_entry <$> (snd <$> publication u),
         outcome <$> latest_edit_result_by_entry (runtime_status u) !! 20)) =
  Some (Some {[20 := 5]}, Some kCommandAccepted).
Proof. vm_compute. reflexivity. Qed.






Lemma send_is_answered_witness :
  ∃ s' r, on_send_draft alice 20 "bye" 6 300 t0 t0 = Some s' ∧
    latest_send_result_by_entry (status_ (out s')) !! 20 = Some r ∧
    outcome r = kCommandAccepted ∧ accepted_send_id r = mkSharedEventId "alice" 2.
Proof.
  destruct (send_is_answered "alice" 10 alice 20 "bye" 6 300 t0 t0)
    as (s' & r & Hs' & _ & Hr & _ & _ & Hacc).
  - discriminate.
  - apply chat_start_ok. reflexivity.
  - apply t0_ok. reflexivity.
  - apply t0_ok. reflexivity.
  - discriminate.
  - discriminate.
  - reflexivity.
  - exists s', r. split; [exact Hs'|]. split; [exact Hr|].
    change (editable alice 20 "bye" && sendable (chat (worker alice)) 20 "bye" 300) with true in Hacc.
    destruct Hacc as (H1 & _ & _ & H2 & _). split; [exact H1|exact H2].
Defined.

(** A text for an entry that is not listed, and an empty one. *)
Example rejected :
  (s ← on_edit_draft alice 21 "x" 5 t0; s ← on_send_draft s 20 "" 6 300 t0 t0;
   Some (failure_reason <$> latest_edit_result_by_entry (status_ (out s)) !! 21,
         failure_reason <$> latest_send_result_by_entry (status_ (out s)) !! 20)) =
  Some (Some "Unknown chat entry", Some "Send rejected")%string.
Proof. vm_compute. reflexivity. Qed.
