(* ===== verification/ChatNetwork.v ===== *)
(** * The network thread of the chat demo

    Models examples/chat_demo/aether/chat_aether_runtime.h and .cpp: the thread that owns the
    network client, with a queue of frames, at most one write and a presence for each peer.
    The streams and the client of the network library are inputs: what they report when they
    are asked, and the events that [Update] gives ([NetEvent]).  The callbacks of the
    endpoint are all set. *)
From S2P Require Import Prelude NativeBytes ChatTransport ChatOutput.

(** ** What the network library reports *)

Inductive LinkState := kUnlinked | kLinked | kLinkError.
Inductive WriteStatus := kSuccess | kFail | kStop.
Record StreamInfo := mkInfo {
  link_state : LinkState;
  rec_element_size : Z;
  max_element_size : Z;
  is_writable : bool
}.
#[export] Instance LinkState_eq_dec : EqDecision LinkState.
Proof. solve_decision. Defined.

(** ** State *)

Record Config := mkConfig { heartbeat_period_ms : Z; offline_after_ms : Z }.

(** A frame that waits: its kind and its bytes. *)
Definition PendingOut : Type := AetherFrameKind * bytes.

Record TerminalWriteNotice := mkNotice {
  token : Z;
  incarnation : Z;
  status : WriteStatus
}.

(** [active_write_sub]: the token and the incarnation that the subscription captures.
    [stream]: whether [raw_p2p] and [stream] are set, with the subscriptions to its data and
    updates. *)
Record PeerState := mkPeer {
  uid_text : string;
  channel_incarnation : Z;
  next_write_token : Z;
  active_write_token : Z;
  active : PendingOut;
  active_write_sub : option (Z * Z);
  terminal_notice : option TerminalWriteNotice;
  terminal_notice_pending : bool;
  pending_out : list PendingOut;
  stream : bool;
  stream_linked : bool;
  last_rx_ms : Z;
  last_heartbeat_tx_ms : Z;
  last_heartbeat_rx_ms : Z;
  reported_presence : PeerPresence
}.

Definition new_peer (uid : string) : PeerState :=
  mkPeer uid 0 1 0 (kApplication, []) None None false [] false false 0 0 0 PresenceUnknown.

(** Callbacks of the endpoint, calls of the library, and what happens to a frame of the queue
    of a peer.  The frame of [Write] is what the stream is given. *)
Inductive Effect :=
| OnUid (uid : string)
| OnReady
| OnFailed (error : string)
| OnFrame (uid : string) (payload : bytes)
| OnControl (uid : string) (payload : bytes)
| OnPresence (uid : string) (p : PeerPresence)
| OnConnectivity (has_schedule any_online : bool)
| SelectClient
| CreatePort (uid : string)
| SaveClient
| ExitApp
| Queued (uid : string) (item : PendingOut)
| Write (uid : string) (incarnation token : Z) (item : PendingOut) (frame : bytes)
| Oversize (uid : string) (item : PendingOut)
| Dropped (uid : string) (items : list PendingOut).

Section setters.
Implicit Types p : PeerState.

Definition set_active p tok item sub := mkPeer (uid_text p) (channel_incarnation p)
  (next_write_token p) tok item sub (terminal_notice p) (terminal_notice_pending p)
  (pending_out p) (stream p) (stream_linked p) (last_rx_ms p) (last_heartbeat_tx_ms p)
  (last_heartbeat_rx_ms p) (reported_presence p).
Definition set_notice p n pending := mkPeer (uid_text p) (channel_incarnation p)
  (next_write_token p) (active_write_token p) (active p) (active_write_sub p) n pending
  (pending_out p) (stream p) (stream_linked p) (last_rx_ms p) (last_heartbeat_tx_ms p)
  (last_heartbeat_rx_ms p) (reported_presence p).
Definition set_pending p l := mkPeer (uid_text p) (channel_incarnation p) (next_write_token p)
  (active_write_token p) (active p) (active_write_sub p) (terminal_notice p)
  (terminal_notice_pending p) l (stream p) (stream_linked p) (last_rx_ms p)
  (last_heartbeat_tx_ms p) (last_heartbeat_rx_ms p) (reported_presence p).
Definition set_token p t := mkPeer (uid_text p) (channel_incarnation p) t
  (active_write_token p) (active p) (active_write_sub p) (terminal_notice p)
  (terminal_notice_pending p) (pending_out p) (stream p) (stream_linked p) (last_rx_ms p)
  (last_heartbeat_tx_ms p) (last_heartbeat_rx_ms p) (reported_presence p).
Definition set_stream p inc has linked := mkPeer (uid_text p) inc (next_write_token p)
  (active_write_token p) (active p) (active_write_sub p) (terminal_notice p)
  (terminal_notice_pending p) (pending_out p) has linked (last_rx_ms p)
  (last_heartbeat_tx_ms p) (last_heartbeat_rx_ms p) (reported_presence p).
Definition set_linked p linked := set_stream p (channel_incarnation p) (stream p) linked.
Definition set_times p rx htx hrx := mkPeer (uid_text p) (channel_incarnation p)
  (next_write_token p) (active_write_token p) (active p) (active_write_sub p)
  (terminal_notice p) (terminal_notice_pending p) (pending_out p) (stream p)
  (stream_linked p) rx htx hrx (reported_presence p).
Definition set_reported p x := mkPeer (uid_text p) (channel_incarnation p)
  (next_write_token p) (active_write_token p) (active p) (active_write_sub p)
  (terminal_notice p) (terminal_notice_pending p) (pending_out p) (stream p)
  (stream_linked p) (last_rx_ms p) (last_heartbeat_tx_ms p) (last_heartbeat_rx_ms p) x.
End setters.

(** ** A peer *)

Section peer.
  Implicit Types (p : PeerState) (now : Z).

(** The status callback of a write: it leaves a notice for the outer loop. *)
Definition ApplyWriteStatus p (tok inc : Z) (st : WriteStatus) : PeerState :=
  if negb (channel_incarnation p =? inc) then p
  else if negb (active_write_token p =? tok) then p
  else set_notice p (Some (mkNotice tok inc st)) true.

Definition set_peer_presence p (new_presence : PeerPresence) : PeerState * list Effect :=
  if bool_decide (reported_presence p = new_presence) then (p, [])
  else (set_reported p new_presence, [OnPresence (uid_text p) new_presence]).

Definition same_pending p (item : PendingOut) : bool :=
  (negb (active_write_token p =? 0) && bool_decide (active p = item)) ||
  existsb (λ x, bool_decide (x = item)) (pending_out p).

Definition has_pending_kind p (kind : AetherFrameKind) : bool :=
  (negb (active_write_token p =? 0) && bool_decide ((active p).1 = kind)) ||
  existsb (λ x, bool_decide (x.1 = kind)) (pending_out p).

Definition queue_pending p (item : PendingOut) : PeerState * list Effect :=
  if same_pending p item then (p, [])
  else (set_pending p (pending_out p ++ [item]), [Queued (uid_text p) item]).

Definition destroy_peer_channel p : PeerState :=
  let p := set_stream p (channel_incarnation p) false false in
  set_notice (set_active p 0 ((active p).1, []) None) None false.

(** The answer to a ping takes the place of those that wait. *)
Definition queue_pong p (pong : bytes) : PeerState * list Effect :=
  if same_pending p (kHeartbeatPong, pong) then (p, [])
  else
    (set_pending p (filter (λ x, x.1 ≠ kHeartbeatPong) (pending_out p) ++ [(kHeartbeatPong, pong)]),
     [Queued (uid_text p) (kHeartbeatPong, pong)]).

Definition on_stream_data p (data : bytes) now : PeerState * list Effect :=
  match DecodeAetherFrame data with
  | None => (p, [])
  | Some (kind, payload) =>
      let p := set_times p now (last_heartbeat_tx_ms p) (last_heartbeat_rx_ms p) in
      match kind with
      | kHeartbeatPing =>
          let p := set_times p now (last_heartbeat_tx_ms p) now in
          let '(p, e1) := set_peer_presence p PresenceOnline in
          let '(p, e2) := queue_pong p (EncodeHeartbeatNonce (DecodeHeartbeatNonce payload)) in
          (p, e1 ++ e2)
      | kHeartbeatPong =>
          let p := set_times p now (last_heartbeat_tx_ms p) now in
          set_peer_presence p PresenceOnline
      | kApplication =>
          let '(p, e) := set_peer_presence p PresenceOnline in
          (p, e ++ [OnFrame (uid_text p) payload])
      | kControl => (p, [OnControl (uid_text p) payload])
      end
  end.

Definition on_stream_update p (link : LinkState) : PeerState * list Effect :=
  if negb (stream p) then (p, [])
  else
    match link with
    | kLinked =>
        let p := set_linked p true in
        if bool_decide (reported_presence p = PresenceOnline) then (p, [])
        else set_peer_presence p PresenceConnecting
    | kLinkError | kUnlinked =>
        let p := set_linked p false in
        if bool_decide (reported_presence p = PresenceOnline)
        then set_peer_presence p PresenceConnecting else (p, [])
    end.

(** A new stream in state [link]. *)
Definition bind_peer_stream p (link : LinkState) now : PeerState * list Effect :=
  let p := destroy_peer_channel p in
  let p := set_stream p (u64 (channel_incarnation p + 1)) true (bool_decide (link = kLinked)) in
  let '(p, e) := if bool_decide (reported_presence p = PresenceOnline) then (p, [])
                 else set_peer_presence p PresenceConnecting in
  (if last_rx_ms p =? 0
   then set_times p now (last_heartbeat_tx_ms p) (last_heartbeat_rx_ms p) else p, e).

Definition last_active p : Z := Z.max (last_heartbeat_rx_ms p) (last_rx_ms p).

Definition process_write_notice (cfg : Config) p now : PeerState * list Effect :=
  if negb (terminal_notice_pending p) then (p, [])
  else
    let notice := terminal_notice p in
    let p := set_notice p None false in
    match notice with
    | None => (p, [])
    | Some notice =>
        if negb (incarnation notice =? channel_incarnation p) then (p, [])
        else if (active_write_token p =? 0) || negb (token notice =? active_write_token p)
        then (p, [])
        else
          let p := set_active p 0 ((active p).1, []) None in
          match status notice with
          | kFail =>
              let p := set_linked p false in
              set_peer_presence p
                (if offline_after_ms cfg <=? u64 (now - last_active p)
                 then PresenceOffline else PresenceConnecting)
          | kSuccess | kStop => (p, [])
          end
    end.

(** [info]: what the stream reports; [finished]: the write has ended when it is subscribed. *)
Definition start_write p (item : PendingOut) (rest : list PendingOut) (finished : bool)
    : PeerState * list Effect :=
  let tok := next_write_token p in
  let p := set_pending (set_token p (u64 (tok + 1))) rest in
  let p := set_active p tok item (active_write_sub p) in
  (if finished then set_notice p (Some (mkNotice tok (channel_incarnation p) kFail)) true
   else set_active p tok item (Some (tok, channel_incarnation p)),
   [Write (uid_text p) (channel_incarnation p) tok item (EncodeAetherFrame item.1 item.2)]).

Definition oversize (info : StreamInfo) (item : PendingOut) : bool :=
  negb (max_element_size info =? 0) &&
  (max_element_size info <? zlen (EncodeAetherFrame item.1 item.2)).

(** The loop, on the frames that wait. *)
Fixpoint write_first p (info : StreamInfo) (finished : bool) (l : list PendingOut)
    : PeerState * list Effect :=
  match l with
  | [] => (set_pending p [], [])
  | item :: rest =>
      if (rec_element_size info =? 0) || negb (is_writable info) then (set_pending p l, [])
      else if oversize info item then
        let '(q, e) := write_first p info finished rest in (q, Oversize (uid_text p) item :: e)
      else start_write p item rest finished
  end.

Definition try_start_write p (info : StreamInfo) (finished : bool) : PeerState * list Effect :=
  if negb (active_write_token p =? 0) || negb (stream p) then (p, [])
  else write_first p info finished (pending_out p).

(** The nonce is used up when a ping is queued. *)
Definition schedule_heartbeat_ping p (next_nonce : Z) : PeerState * list Effect * Z :=
  if negb (stream p) then (p, [], next_nonce)
  else if has_pending_kind p kHeartbeatPing then (p, [], next_nonce)
  else (queue_pending p (kHeartbeatPing, EncodeHeartbeatNonce next_nonce), u64 (next_nonce + 1)).

(** The body of the loop of heartbeats. *)
Definition send_heartbeat (cfg : Config) p now (nonce : Z) : PeerState * list Effect * Z :=
  if stream p && ((last_heartbeat_tx_ms p =? 0) ||
                  (heartbeat_period_ms cfg <=? u64 (now - last_heartbeat_tx_ms p))) then
    let '(p, e, nonce) := schedule_heartbeat_ping p nonce in
    (set_times p (last_rx_ms p) now (last_heartbeat_rx_ms p), e, nonce)
  else (p, [], nonce).

Definition check_presence (cfg : Config) p now : PeerState * list Effect :=
  if (bool_decide (reported_presence p = PresenceConnecting) ||
      bool_decide (reported_presence p = PresenceOnline)) &&
     negb (last_active p =? 0) && (offline_after_ms cfg <=? u64 (now - last_active p))
  then set_peer_presence p PresenceOffline else (p, []).

(** [kClosePeer] of a peer that is known. *)
Definition close_peer p : PeerState * list Effect :=
  let dropped := Dropped (uid_text p) (pending_out p) in
  let p := set_pending (destroy_peer_channel p) [] in
  let p := set_stream p (u64 (channel_incarnation p + 1)) (stream p) (stream_linked p) in
  let '(p, e) := set_peer_presence p PresenceOffline in
  (p, dropped :: e).
End peer.

(** ** The thread *)

Inductive Command :=
| kOpenPeer (uid : string)
| kSend (uid : string) (payload : bytes)
| kSendControl (uid : string) (payload : bytes)
| kClosePeer (uid : string).

(** [client]: the client's uid, once it is configured.  [select_sub], [inbound_sub]: whether
    the subscriptions are there.  [last_reported_]: of [LocalConnectivityMonitor]. *)
Record Net := mkNet {
  peers : gmap string PeerState;
  commands_ : list Command;
  next_nonce : Z;
  client : option string;
  select_started : bool;
  select_sub : bool;
  select_failed : option string;
  inbound_sub : bool;
  last_reported_ : option (bool * bool);
  effects : list Effect
}.

Definition new_net (commands : list Command) : Net :=
  mkNet ∅ commands 1 None false false None false None [].

Section net.
  Implicit Types (n : Net) (now : Z).

Definition emit n e := mkNet (peers n) (commands_ n) (next_nonce n) (client n) (select_started n)
  (select_sub n) (select_failed n) (inbound_sub n) (last_reported_ n) (effects n ++ e).
Definition set_commands n l := mkNet (peers n) l (next_nonce n) (client n) (select_started n)
  (select_sub n) (select_failed n) (inbound_sub n) (last_reported_ n) (effects n).
Definition set_nonce n x := mkNet (peers n) (commands_ n) x (client n) (select_started n)
  (select_sub n) (select_failed n) (inbound_sub n) (last_reported_ n) (effects n).
Definition set_select n c started sub failed := mkNet (peers n) (commands_ n) (next_nonce n) c
  started sub failed (inbound_sub n) (last_reported_ n) (effects n).
Definition set_inbound n b l := mkNet (peers n) (commands_ n) (next_nonce n) (client n)
  (select_started n) (select_sub n) (select_failed n) b l (effects n).

(** The state of a peer after a step of its own, with what the step did. *)
Definition put n (uid : string) (r : PeerState * list Effect) : Net :=
  mkNet (<[uid := r.1]> (peers n)) (commands_ n) (next_nonce n) (client n) (select_started n)
    (select_sub n) (select_failed n) (inbound_sub n) (last_reported_ n) (effects n ++ r.2).

(** [peers[uid]], with [uid_text] set. *)
Definition peer_of n (uid : string) : PeerState := default (new_peer uid) (peers n !! uid).

(** A peer that [peers.find] finds. *)
Definition at_peer n (uid : string) (f : PeerState → PeerState * list Effect) : Net :=
  match peers n !! uid with Some p => put n uid (f p) | None => n end.

(** *** Other threads *)

(** Whether [Start] starts the thread. *)
Definition config_ok (cfg : Config) : bool :=
  negb ((heartbeat_period_ms cfg <? 250) ||
        (offline_after_ms cfg <? u64 (heartbeat_period_ms cfg * 2))).

Definition Enqueue n (c : Command) : Net := set_commands n (commands_ n ++ [c]).

(** *** Events of the library *)

Inductive NetEvent :=
| SelectResult (r : string + string)
| NewPort (uid : string) (link : LinkState) (now : Z)
| StreamData (uid : string) (data : bytes) (now : Z)
| StreamUpdate (uid : string) (link : LinkState)
| WriteEnded (uid : string) (tok inc : Z) (st : WriteStatus).

Definition net_event n (e : NetEvent) : Net :=
  match e with
  | SelectResult r =>
      if negb (select_sub n) then n
      else match r with
           | inl code =>
               set_select n (client n) (select_started n) (select_sub n)
                 (Some (String.append "SelectClient failed code=" code))
           | inr uid => set_select n (Some uid) (select_started n) (select_sub n) (select_failed n)
           end
  | NewPort uid link now =>
      if negb (inbound_sub n) then n else put n uid (bind_peer_stream (peer_of n uid) link now)
  | StreamData uid data now => at_peer n uid (λ p, on_stream_data p data now)
  | StreamUpdate uid link => at_peer n uid (λ p, on_stream_update p link)
  | WriteEnded uid tok inc st => at_peer n uid (λ p, (ApplyWriteStatus p tok inc st, []))
  end.

(** *** Commands *)

(** What the library says in a turn of the loop: whether a text is an identifier, the state of
    a stream that is made, what a stream reports before a write, and whether the write has
    ended at once; and the times at which the clock is read.  [diagnosis]: of the local
    presence, when the client has a policy. *)
Record Turn := mkTurn {
  uid_valid : string → bool;
  new_link : string → LinkState;
  infos : string → StreamInfo;
  finished : string → bool;
  commands_now : Z;
  heartbeat_now : Z;
  diagnosis : option (bool * bool);
  update : list NetEvent;
  stop_after_update : bool;
  pump_now : Z
}.

Variable t : Turn.

Definition open_peer_internal n (uid : string) : Net :=
  if String.eqb uid "" then n
  else if negb (uid_valid t uid) then n
  else if match peers n !! uid with Some p => stream p | None => false end then n
  else if bool_decide (client n = None) then n
  else
    let n := emit n [CreatePort uid] in
    put n uid (bind_peer_stream (peer_of n uid) (new_link t uid) (commands_now t)).

Definition send n (kind : AetherFrameKind) (uid : string) (payload : bytes) : Net :=
  let p := peer_of n uid in
  let n := put n uid (queue_pending p (kind, payload)) in
  if stream p then n else open_peer_internal n uid.

Definition run_command n (c : Command) : Net :=
  match c with
  | kOpenPeer uid => open_peer_internal n uid
  | kSend uid payload => send n kApplication uid payload
  | kSendControl uid payload => send n kControl uid payload
  | kClosePeer uid => at_peer n uid close_peer
  end.

Definition run_commands n : Net := foldl run_command (set_commands n []) (commands_ n).

(** *** The loop *)

(** The order in which the hash table is traversed. *)
Variable order : gmap string PeerState → list string.
Variable cfg : Config.

Definition heartbeat n (uid : string) : Net :=
  match peers n !! uid with
  | None => n
  | Some p =>
      let '(p, e1, nonce) := send_heartbeat cfg p (heartbeat_now t) (next_nonce n) in
      let '(p, e2) := check_presence cfg p (heartbeat_now t) in
      put (set_nonce n nonce) uid (p, e1 ++ e2)
  end.

Definition heartbeats n : Net := foldl heartbeat n (order (peers n)).

Definition pump_peer n (uid : string) : Net :=
  let n := at_peer n uid (λ p, process_write_notice cfg p (pump_now t)) in
  at_peer n uid (λ p, try_start_write p (infos t uid) (finished t uid)).

Definition pump n : Net := foldl pump_peer n (order (peers n)).

Definition start_select n : Net :=
  if select_started n then n
  else emit (set_select n (client n) true true (select_failed n)) [SelectClient].

(** The client is there and not yet in use. *)
Definition configure n : Net :=
  match client n with
  | Some uid =>
      if inbound_sub n then n
      else
        let n := set_select n (client n) (select_started n) false (select_failed n) in
        emit (set_inbound n true None) [SaveClient; OnUid uid; OnReady]
  | None => n
  end.

(** [LocalConnectivityMonitor::Tick] *)
Definition Tick n : Net :=
  match diagnosis t with
  | None => n
  | Some d =>
      if bool_decide (last_reported_ n = Some d) then n
      else emit (set_inbound n (inbound_sub n) (Some d)) [OnConnectivity d.1 d.2]
  end.

Definition configured n : bool := bool_decide (is_Some (client n)).

(** One turn, and whether the loop goes on. *)
Definition turn n : Net * bool :=
  let n := start_select n in
  match select_failed n with
  | Some e =>
      (emit (set_select n (client n) (select_started n) false (select_failed n)) [OnFailed e], false)
  | None =>
      let n := configure n in
      let n := if configured n then heartbeats (run_commands n) else n in
      let n := if configured n then Tick n else n in
      let n := foldl net_event n (update t) in
      if stop_after_update t then (n, false)
      else (if configured n then pump n else n, true)
  end.

(** The end of the thread: all streams are gone. *)
Definition finish n : Net :=
  let n := mkNet ∅ (commands_ n) (next_nonce n) (client n) (select_started n) false
             (select_failed n) false (last_reported_ n) (effects n) in
  emit n ((if configured n then [SaveClient] else []) ++ [ExitApp]).

(** An exception that leaves the loop; [what]: its text, if it is a [std::exception]. *)
Definition thread_failed n (what : option string) : Net :=
  emit n [OnFailed (match what with
                    | Some text => String.append "Aether runtime exception: " text
                    | None => "Aether runtime unknown exception"
                    end)].
End net.

(** Runs: commands come from other threads between the turns, as a turn takes all that are
    there at once. *)
Inductive Step :=
| Command_ (c : Command)
| Turn_ (t : Turn)
| RequestStop
| Throw_ (what : option string).

Section runs.
  Variable order : gmap string PeerState → list string.
  Variable cfg : Config.

(** The loop with its end; whether the thread still runs. *)
Fixpoint ThreadMain (n : Net) (l : list Step) : Net * bool :=
  match l with
  | [] => (n, true)
  | Command_ c :: l => ThreadMain (Enqueue n c) l
  | Turn_ t :: l =>
      let '(n, go_on) := turn t order cfg n in
      if go_on then ThreadMain n l else (finish n, false)
  | RequestStop :: _ => (finish n, false)
  | Throw_ what :: _ => (thread_failed n what, false)
  end.

(** [commands]: those that are in the queue already. *)
Definition Start (commands : list Command) (l : list Step) : Net * bool :=
  if config_ok cfg then ThreadMain (new_net commands) l
  else (emit (new_net commands) [OnFailed "Invalid heartbeat configuration"], false).
End runs.
