(* ===== verification/ChatNetworkTheory.v ===== *)
(** * The network thread: its peers, its steps

    The invariant of a peer of the network thread (ChatNetwork.v), with the log of what
    happened to its frames; each operation on a peer keeps it ([step_ok]); and a run of the
    thread is a sequence of such operations ([net_move]), whatever is to be shown of them
    ([PeerSteps]). *)
From stdpp Require Import relations.
From S2P Require Import Prelude NativeBytes ChatTransport ChatOutput ChatNetwork.

(** ** Reading the log *)

Definition not_pong (i : PendingOut) : Prop := i.1 ≠ kHeartbeatPong.
Definition is_ping (i : PendingOut) : Prop := i.1 = kHeartbeatPing.
Definition is_pong (i : PendingOut) : Prop := i.1 = kHeartbeatPong.

Definition of_peer {A} (uid u : string) (l : list A) : list A :=
  if bool_decide (uid = u) then l else [].

(** The frames that the queue of a peer took, but for answers to pings, those that left it, and
    the tokens of its writes. *)
Definition queued (uid : string) (e : Effect) : list PendingOut :=
  match e with Queued u i => of_peer uid u (filter not_pong [i]) | _ => [] end.
Definition left_queue (uid : string) (e : Effect) : list PendingOut :=
  match e with
  | Write u _ _ i _ | Oversize u i => of_peer uid u (filter not_pong [i])
  | Dropped u l => of_peer uid u (filter not_pong l)
  | _ => []
  end.
Definition write_tokens (uid : string) (e : Effect) : list Z :=
  match e with Write u _ tok _ _ => of_peer uid u [tok] | _ => [] end.

Definition all_queued (uid : string) (L : list Effect) := L ≫= queued uid.
Definition all_left (uid : string) (L : list Effect) := L ≫= left_queue uid.
Definition all_tokens (uid : string) (L : list Effect) := L ≫= write_tokens uid.

(** An effect that these do not show for any other peer than [uid]. *)
Definition only_of (uid : string) (e : Effect) : Prop :=
  match e with
  | Queued u _ | Oversize u _ | Dropped u _ => u = uid
  | Write u _ _ i f => u = uid ∧ f = EncodeAetherFrame i.1 i.2
  | _ => True
  end.
Definition of_none (e : Effect) : Prop :=
  match e with Queued _ _ | Oversize _ _ | Dropped _ _ | Write _ _ _ _ _ => False | _ => True end.

(** An effect of the thread itself: of no peer at all. *)
Definition of_thread (e : Effect) : Prop :=
  of_none e ∧ match e with OnPresence _ _ => False | _ => True end.

Definition quiet (uid : string) (L : list Effect) : Prop :=
  all_queued uid L = [] ∧ all_left uid L = [] ∧ all_tokens uid L = [].

Lemma all_queued_app uid L K : all_queued uid (L ++ K) = all_queued uid L ++ all_queued uid K.
Proof. apply bind_app. Qed.
Lemma all_left_app uid L K : all_left uid (L ++ K) = all_left uid L ++ all_left uid K.
Proof. apply bind_app. Qed.
Lemma all_tokens_app uid L K : all_tokens uid (L ++ K) = all_tokens uid L ++ all_tokens uid K.
Proof. apply bind_app. Qed.
#[local] Create Rewrite HintDb net.
#[local] Hint Rewrite all_queued_app all_left_app all_tokens_app : net.

Lemma of_peer_same {A} uid (l : list A) : of_peer uid uid l = l.
Proof. unfold of_peer. by rewrite bool_decide_true. Qed.
Lemma of_peer_other {A} uid u (l : list A) : uid ≠ u → of_peer uid u l = [].
Proof. intros ?. unfold of_peer. by rewrite bool_decide_false. Qed.

Lemma quiet_app uid L K : quiet uid L → quiet uid K → quiet uid (L ++ K).
Proof.
  intros (H1 & H2 & H3) (H4 & H5 & H6). unfold quiet. autorewrite with net.
  by rewrite H1, H2, H3, H4, H5, H6.
Qed.

Lemma quiet_other uid uid' L : uid ≠ uid' → Forall (only_of uid') L → quiet uid L.
Proof.
  intros Hne HL. induction HL as [|e L He _ IH]; [done|].
  apply (quiet_app uid [e]); [|done].
  destruct e; simpl in He; try done; (lazymatch type of He with _ ∧ _ => destruct He | _ => idtac end); subst; unfold quiet; simpl;
    by rewrite ?of_peer_other by done.
Qed.

Lemma quiet_none uid L : Forall of_none L → quiet uid L.
Proof.
  intros HL. induction HL as [|e L He _ IH]; [done|].
  apply (quiet_app uid [e]); [|done]. by destruct e.
Qed.

(** ** A peer *)

(** The frame that is written and those that wait. *)
Definition flight (p : PeerState) : list PendingOut :=
  (if active_write_token p =? 0 then [] else [active p]) ++ pending_out p.

(** The write ends by its callback, or its end has been noted. *)
Definition will_end (p : PeerState) : Prop :=
  active_write_sub p = Some (active_write_token p, channel_incarnation p) ∨
  terminal_notice_pending p = true ∧
  ∃ st, terminal_notice p = Some (mkNotice (active_write_token p) (channel_incarnation p) st).

Record peer_ok (uid : string) (L : list Effect) (p : PeerState) : Prop := {
  ok_uid : uid_text p = uid;
  ok_fifo : all_queued uid L = all_left uid L ++ filter not_pong (pending_out p);
  ok_next : 1 ≤ next_write_token p;
  ok_tokens : all_tokens uid L = seqZ 1 (next_write_token p - 1);
  ok_active : active_write_token p ≠ 0 →
    stream p = true ∧ active_write_token p = next_write_token p - 1 ∧ will_end p;
  ok_distinct : NoDup (flight p);
  ok_ping : (length (filter is_ping (flight p)) ≤ 1)%nat;
  ok_pong : (length (filter is_pong (pending_out p)) ≤ 1)%nat
}.

(** Fewer effects than there are tokens. *)
Definition kMaxEffects : Z := 18446744073709551614.
Definition short (L : list Effect) : Prop := zlen L < kMaxEffects.

Lemma new_peer_ok uid L : quiet uid L → peer_ok uid L (new_peer uid).
Proof.
  intros (H1 & H2 & H3). split; try done; cbn [next_write_token new_peer pending_out].
  all: first [by rewrite H1, H2|by rewrite H3|apply NoDup_nil_2|simpl; lia].
Qed.

Lemma tokens_length uid L : (length (all_tokens uid L) ≤ length L)%nat.
Proof.
  induction L as [|e L IH]; [done|]. change (e :: L) with ([e] ++ L). rewrite all_tokens_app, !length_app. simpl.
  destruct e; simpl; try lia. unfold of_peer. case_match; simpl; lia.
Qed.

Lemma ok_token_small uid L p : peer_ok uid L p → short L → next_write_token p < 2 ^ 64 - 1.
Proof.
  intros Hok Hs. pose proof (tokens_length uid L) as Hl. rewrite (ok_tokens _ _ _ Hok) in Hl.
  rewrite length_seqZ in Hl. unfold short, zlen, kMaxEffects in Hs.
  pose proof (ok_next _ _ _ Hok). lia.
Qed.

Lemma peer_ok_quiet uid L K p : peer_ok uid L p → quiet uid K → peer_ok uid (L ++ K) p.
Proof.
  intros Hok (H1 & H2 & H3). destruct Hok. split; try done; autorewrite with net.
  - by rewrite H1, H2, !app_nil_r.
  - by rewrite H3, app_nil_r.
Qed.

(** What a step of the peer leaves. *)
Definition step_ok (uid : string) (p : PeerState) (r : PeerState * list Effect) : Prop :=
  (uid_text p = uid → uid_text r.1 = uid ∧ Forall (only_of uid) r.2) ∧
  ∀ L, peer_ok uid L p → short (L ++ r.2) → peer_ok uid (L ++ r.2) r.1.

Lemma short_app L K : short (L ++ K) → short L.
Proof. unfold short. rewrite zlen_app. pose proof (zlen_nonneg K). lia. Qed.

Lemma step_ok_seq uid p q e1 r :
  step_ok uid p (q, e1) → step_ok uid q r → step_ok uid p (r.1, e1 ++ r.2).
Proof.
  intros [Hf1 H1] [Hf2 H2]. split; simpl.
  - intros Hp. destruct (Hf1 Hp) as [Hq He1]. destruct (Hf2 Hq) as [Hr He2].
    split; [done|by apply Forall_app].
  - intros L Hok Hs. simpl in *. rewrite app_assoc in *. apply H2; [|done].
    apply H1; [done|]. by eapply short_app.
Qed.

(** A step that changes neither the queue nor the write. *)
Definition same_transport (p q : PeerState) : Prop :=
  uid_text q = uid_text p ∧ next_write_token q = next_write_token p ∧
  active_write_token q = active_write_token p ∧ active q = active p ∧
  pending_out q = pending_out p ∧ (stream p = true → stream q = true) ∧
  (will_end p → will_end q).

Lemma step_ok_same uid p q e :
  same_transport p q → Forall of_none e → step_ok uid p (q, e).
Proof.
  intros (H1 & H2 & H3 & H4 & H5 & H6 & H7) He. split.
  - intros Hp. split; [simpl; congruence|].
    eapply Forall_impl; [|exact He]. by intros [].
  - intros L Hok _. apply peer_ok_quiet; [|by apply quiet_none].
    destruct Hok. unfold flight in *.
    split; unfold flight; simpl; rewrite ?H1, ?H2, ?H3, ?H4, ?H5; try done.
    intros Ha. destruct (ok_active0 Ha) as (Hs & Ht & Hw). auto.
Qed.

Ltac same :=
  lazymatch goal with
  | |- same_transport _ _ => unfold same_transport, will_end; simpl; by split_and!; auto
  | |- Forall _ _ => by repeat constructor
  end.

Lemma step_ok_pre uid p q r : same_transport p q → step_ok uid q r → step_ok uid p r.
Proof.
  intros Hpq Hr. destruct r as [q' e].
  apply (step_ok_seq uid p q [] (q', e)); [|done]. by apply step_ok_same.
Qed.

Lemma presence_step uid p x : step_ok uid p (set_peer_presence p x).
Proof. unfold set_peer_presence. case_match; apply step_ok_same; same. Qed.

(** *** Queueing *)

Lemma existsb_elem {A} (f : A → bool) l : existsb f l = true ↔ ∃ x, x ∈ l ∧ f x = true.
Proof.
  rewrite existsb_exists. split; intros (x & Hx & Hf); exists x; (split; [|done]);
    by apply list_elem_of_In.
Qed.

Lemma same_pending_spec p i : same_pending p i = true ↔ i ∈ flight p.
Proof.
  unfold same_pending, flight. rewrite orb_true_iff, andb_true_iff, existsb_elem, elem_of_app.
  destruct (active_write_token p =? 0); simpl; rewrite bool_decide_eq_true; split.
  - intros [[]|(x & Hx & ->%bool_decide_eq_true)]; [done|auto].
  - intros [[]%not_elem_of_nil|Hi]; [right]. exists i. by rewrite bool_decide_true.
  - intros [[_ <-]|(x & Hx & ->%bool_decide_eq_true)]; [left; set_solver|auto].
  - intros [->%list_elem_of_singleton|Hi]; [auto|right]. exists i. by rewrite bool_decide_true.
Qed.

Lemma has_pending_kind_spec p k :
  has_pending_kind p k = false → filter (λ x : PendingOut, x.1 = k) (flight p) = [].
Proof.
  unfold has_pending_kind, flight. rewrite orb_false_iff. intros [Ha Hp].
  apply filter_none. intros x [Hx|Hx]%elem_of_app Hk.
  - destruct (active_write_token p =? 0); [by apply not_elem_of_nil in Hx|].
    apply list_elem_of_singleton in Hx as ->. by apply bool_decide_eq_false in Ha.
  - apply not_true_iff_false in Hp. apply Hp, existsb_elem. exists x.
    by rewrite bool_decide_true.
Qed.

(** Appending a frame to the queue. *)
Lemma append_ok uid L p i e :
  peer_ok uid L p → i ∉ flight p → e = Queued uid i →
  (is_ping i → filter is_ping (flight p) = []) →
  (is_pong i → filter is_pong (pending_out p) = []) →
  peer_ok uid (L ++ [e]) (set_pending p (pending_out p ++ [i])).
Proof.
  intros Hok Hi -> Hping Hpong. destruct Hok. split; try done; simpl.
  - autorewrite with net. rewrite ok_fifo0. unfold all_queued, all_left. simpl.
    by rewrite of_peer_same, !app_nil_r, <-app_assoc, <-list.filter_app.
  - autorewrite with net. unfold all_tokens at 2. simpl. by rewrite app_nil_r.
  - unfold flight in *. simpl. rewrite app_assoc. apply list.NoDup_app.
    split; [done|]. split; [|apply NoDup_singleton].
    by intros x Hx ->%list_elem_of_singleton.
  - unfold flight in *. simpl. rewrite app_assoc, list.filter_app.
    destruct (decide (is_ping i)) as [Hp|Hp].
    + rewrite Hping by done. rewrite filter_cons_True by done. simpl. lia.
    + rewrite (filter_cons_False _ i) by done. by rewrite filter_nil, app_nil_r.
  - rewrite list.filter_app. destruct (decide (is_pong i)) as [Hp|Hp].
    + rewrite Hpong by done. rewrite filter_cons_True by done. simpl. lia.
    + rewrite (filter_cons_False _ i) by done. by rewrite filter_nil, app_nil_r.
Qed.

Lemma not_same_pending p i : same_pending p i = false → i ∉ flight p.
Proof. intros H Hi%same_pending_spec. congruence. Qed.

Lemma queue_pending_step uid p i :
  ¬ is_pong i → (is_ping i → has_pending_kind p kHeartbeatPing = false) →
  step_ok uid p (queue_pending p i).
Proof.
  intros Hpong Hping. unfold queue_pending. destruct (same_pending p i) eqn:Hs.
  { apply step_ok_same; same. }
  split; simpl; [intros; by repeat constructor|]. intros L Hok _.
  eapply append_ok; [done|by apply not_same_pending|f_equal; by destruct Hok| |done].
  intros Hi. by apply has_pending_kind_spec, Hping.
Qed.

Lemma sublist_length_filter {A} (P : A → Prop) `{!∀ x, Decision (P x)} (l k : list A) :
  l `sublist_of` k → (length (filter P l) ≤ length (filter P k))%nat.
Proof.
  induction 1 as [|x l k _ IH|x l k _ IH]; [done| |]; rewrite !filter_cons;
    destruct (decide (P x)); simpl; lia.
Qed.

(** Taking frames out of the queue, in an order that the log shows. *)
Lemma shrink_ok uid L K p l :
  peer_ok uid L p → l `sublist_of` pending_out p →
  all_queued uid K = [] → all_tokens uid K = [] →
  filter not_pong (pending_out p) = all_left uid K ++ filter not_pong l →
  peer_ok uid (L ++ K) (set_pending p l).
Proof.
  intros Hok Hl HK1 HK2 Hleft. destruct Hok.
  assert (Hf : flight (set_pending p l) `sublist_of` flight p) by by apply sublist_app.
  split; try done; simpl.
  - autorewrite with net. by rewrite ok_fifo0, HK1, Hleft, app_nil_r, app_assoc.
  - autorewrite with net. by rewrite HK2, app_nil_r.
  - by eapply sublist_NoDup.
  - etrans; [by apply sublist_length_filter|done].
  - etrans; [by apply sublist_length_filter|done].
Qed.

Lemma queue_pong_step uid p pong : step_ok uid p (queue_pong p pong).
Proof.
  unfold queue_pong. destruct (same_pending p _) eqn:Hs; [apply step_ok_same; same|].
  split; simpl; [intros; by repeat constructor|]. intros L Hok _.
  set (l := filter _ (pending_out p)).
  assert (Hl : peer_ok uid (L ++ []) (set_pending p l)).
  { apply shrink_ok; try done; [apply sublist_filter|].
    unfold l. rewrite list_filter_filter. apply list_filter_iff. unfold not_pong. tauto. }
  rewrite app_nil_r in Hl.
  eapply (append_ok _ _ (set_pending p l)); [done| |f_equal; by destruct Hok|by intros [=]|].
  - intros Hi. apply (not_same_pending _ _ Hs). unfold flight, l in *. simpl in *.
    rewrite elem_of_app, list_elem_of_filter in *. tauto.
  - intros _. apply filter_none. unfold l. simpl.
    intros x [Hx _]%list_elem_of_filter Hp. done.
Qed.

(** *** Data, updates and channels *)

Lemma on_stream_data_step uid p data now : step_ok uid p (on_stream_data p data now).
Proof.
  unfold on_stream_data. destruct (DecodeAetherFrame data) as [[kind payload]|];
    [|apply step_ok_same; same].
  eapply step_ok_pre with (q := set_times p now _ _); [same|].
  destruct kind; cbv zeta.
  - pose proof (presence_step uid (set_times p now (last_heartbeat_tx_ms p)
      (last_heartbeat_rx_ms p)) PresenceOnline) as Hp.
    destruct (set_peer_presence _ _) as [q e]. simpl in *.
    apply (step_ok_seq uid _ q e (q, [OnFrame (uid_text q) payload])); [done|].
    apply step_ok_same; same.
  - eapply step_ok_pre with (q := set_times _ now _ now); [same|].
    match goal with |- context [set_peer_presence ?x ?y] =>
      pose proof (presence_step uid x y) as Hp; destruct (set_peer_presence x y) as [q e] end.
    pose proof (queue_pong_step uid q (EncodeHeartbeatNonce (DecodeHeartbeatNonce payload))) as Hq.
    destruct (queue_pong _ _) as [q' e']. by apply (step_ok_seq uid _ q e (q', e')).
  - eapply step_ok_pre with (q := set_times _ now _ now); [same|]. apply presence_step.
  - apply step_ok_same; same.
Qed.

Lemma on_stream_update_step uid p link : step_ok uid p (on_stream_update p link).
Proof.
  unfold on_stream_update. destruct (stream p) eqn:Hs; simpl; [|apply step_ok_same; same].
  destruct link;
    (eapply step_ok_pre with (q := set_linked p _); [same|]); case_match;
    first [apply presence_step|apply step_ok_same; same].
Qed.

Lemma destroy_ok uid L p : peer_ok uid L p → peer_ok uid L (destroy_peer_channel p).
Proof.
  intros Hok. destruct Hok. split; try done; unfold flight in *; simpl.
  - by apply list.NoDup_app in ok_distinct0 as (_ & _ & ?).
  - etrans; [|exact ok_ping0]. apply sublist_length_filter. by apply sublist_inserts_l.
Qed.

(** A change of the channel of a peer that has no write. *)
Lemma set_stream_ok uid L p inc has linked :
  peer_ok uid L p → active_write_token p = 0 → peer_ok uid L (set_stream p inc has linked).
Proof. intros Hok H0. destruct Hok. split; try done. Qed.

Lemma bind_peer_stream_step uid p link now : step_ok uid p (bind_peer_stream p link now).
Proof.
  set (q := set_stream (destroy_peer_channel p)
              (u64 (channel_incarnation (destroy_peer_channel p) + 1)) true
              (bool_decide (link = kLinked))).
  assert (Hq : step_ok uid p (q, [])).
  { split; [by intros; simpl|]. intros L Hok _. rewrite app_nil_r.
    apply set_stream_ok; [by apply destroy_ok|done]. }
  unfold bind_peer_stream. fold q.
  assert (Hr : ∀ r e, step_ok uid q (r, e) →
    step_ok uid p (if last_rx_ms r =? 0
                   then set_times r now (last_heartbeat_tx_ms r) (last_heartbeat_rx_ms r) else r, e)).
  { intros r e Hre. apply (step_ok_seq uid p q [] (_, e)); [done|].
    case_match; [|done]. rewrite <-(app_nil_r e).
    apply (step_ok_seq uid q r e (_, [])); [done|]. apply step_ok_same; same. }
  destruct (bool_decide (reported_presence q = _)); [apply Hr, step_ok_same; same|].
  pose proof (presence_step uid q PresenceConnecting) as Hp.
  destruct (set_peer_presence q PresenceConnecting) as [r e]. by apply Hr.
Qed.

Lemma close_peer_step uid p : step_ok uid p (close_peer p).
Proof.
  unfold close_peer. cbv zeta.
  set (q := set_pending (destroy_peer_channel p) []).
  set (r := set_stream q (u64 (channel_incarnation q + 1)) (stream q) (stream_linked q)).
  assert (Hq : step_ok uid p (r, [Dropped (uid_text p) (pending_out p)])).
  { split; [intros; simpl; by repeat constructor|]. intros L Hok _. apply set_stream_ok; [|done].
    apply (shrink_ok uid L); [by apply destroy_ok|apply sublist_nil_l|done|done|].
    simpl. destruct Hok. by rewrite ok_uid0, of_peer_same, !app_nil_r. }
  pose proof (presence_step uid r PresenceOffline) as Hp.
  change (uid_text r) with (uid_text p) in *.
  destruct (set_peer_presence r PresenceOffline) as [p' e].
  by apply (step_ok_seq uid p r [_] (p', e)).
Qed.

(** *** Writes *)

Lemma ApplyWriteStatus_step uid p tok inc st :
  step_ok uid p (ApplyWriteStatus p tok inc st, []).
Proof.
  apply step_ok_same; [|done]. unfold ApplyWriteStatus.
  destruct (channel_incarnation p =? inc) eqn:Hi; simpl; [|same].
  destruct (active_write_token p =? tok) eqn:Ht; simpl; [|same]. breflect.
  unfold same_transport; simpl. split_and!; try done.
  intros _. right. split; [done|]. exists st. simpl. by rewrite Hi, Ht.
Qed.

(** The write of a peer has ended. *)
Lemma end_write_ok uid L p sub :
  peer_ok uid L p → peer_ok uid L (set_active p 0 ((active p).1, []) sub).
Proof.
  intros Hok. destruct Hok. split; try done; unfold flight in *; simpl.
  - by apply list.NoDup_app in ok_distinct0 as (_ & _ & ?).
  - etrans; [|exact ok_ping0]. apply sublist_length_filter. by apply sublist_inserts_l.
Qed.

(** Throwing away a notice that is not the one of the write. *)
Lemma forget_notice_ok uid L p :
  peer_ok uid L p →
  (active_write_token p ≠ 0 →
   active_write_sub p = Some (active_write_token p, channel_incarnation p)) →
  peer_ok uid L (set_notice p None false).
Proof.
  intros Hok Hsub. destruct Hok. split; try done. simpl. intros Ha.
  destruct (ok_active0 Ha) as (Hs & Ht & _). split; [done|]. split; [done|]. left. by apply Hsub.
Qed.

Lemma process_write_notice_step uid cfg p now :
  step_ok uid p (process_write_notice cfg p now).
Proof.
  unfold process_write_notice. destruct (terminal_notice_pending p) eqn:Hpend; simpl;
    [|apply step_ok_same; same].
  set (q := set_notice p None false).
  assert (Hq : (active_write_token p ≠ 0 → will_end p →
                active_write_sub p = Some (active_write_token p, channel_incarnation p)) →
               step_ok uid p (q, [])).
  { intros Hsub. split; [done|]. intros L Hok _. rewrite app_nil_r.
    apply forget_notice_ok; [done|]. intros Ha. apply Hsub; [done|].
    by destruct (ok_active _ _ _ Hok Ha) as (_ & _ & ?). }
  destruct (terminal_notice p) as [notice|] eqn:Hn.
  2:{ apply Hq. intros Ha [?|(_ & st & Hst)]; [done|congruence]. }
  destruct (incarnation notice =? channel_incarnation p) eqn:Hi; simpl; breflect.
  2:{ apply Hq. intros Ha [?|(_ & st & Hst)]; [done|]. rewrite Hn in Hst. by simplify_eq/=. }
  destruct (active_write_token p =? 0) eqn:H0; simpl; breflect; [by apply Hq|].
  destruct (token notice =? active_write_token p) eqn:Ht; simpl; breflect.
  2:{ apply Hq. intros Ha [?|(_ & st & Hst)]; [done|]. rewrite Hn in Hst. by simplify_eq/=. }
  set (r := set_active q 0 ((active p).1, []) None).
  assert (Hr : step_ok uid p (r, [])).
  { split; [done|]. intros L Hok _. rewrite app_nil_r. pose proof (end_write_ok uid L p None Hok) as H.
    destruct H. split; try done. }
  destruct (status notice); [done| |done].
  cbv zeta. match goal with |- step_ok _ _ (set_peer_presence ?x ?y) =>
    pose proof (presence_step uid x y) as Hp; destruct (set_peer_presence x y) as [s e] end.
  apply (step_ok_seq uid p r [] (s, e)); [done|].
  eapply step_ok_pre; [|exact Hp]. same.
Qed.

(** A write that is under way, of the frame that was the first one. *)
Lemma started_ok uid L p item rest sub n pend q :
  peer_ok uid L p → active_write_token p = 0 → stream p = true → pending_out p = item :: rest →
  q = set_notice (set_active (set_pending (set_token p (next_write_token p + 1)) rest)
                    (next_write_token p) item sub) n pend →
  will_end q →
  peer_ok uid (L ++ [Write (uid_text p) (channel_incarnation p) (next_write_token p) item
                       (EncodeAetherFrame item.1 item.2)]) q.
Proof.
  intros Hok H0 Hstream Hpend -> Hw. pose proof (ok_next _ _ _ Hok) as Hge.
  destruct Hok. unfold flight in *. rewrite H0, Hpend in *. simpl in *.
  split; unfold flight; simpl; try done; try lia.
  - autorewrite with net. unfold all_queued at 2, all_left at 2. simpl.
    rewrite ok_uid0, of_peer_same, !app_nil_r, <-app_assoc, <-list.filter_app. done.
  - autorewrite with net. unfold all_tokens at 2. simpl.
    rewrite ok_uid0, of_peer_same, ok_tokens0.
    replace (next_write_token p + 1 - 1) with (next_write_token p - 1 + 1) by lia.
    rewrite (seqZ_app 1 _ 1) by lia. f_equal.
    by replace (1 + (next_write_token p - 1)) with (next_write_token p) by lia.
  - intros _. split; [done|]. split; [lia|done].
  - by rewrite (proj2 (Z.eqb_neq _ _)) by lia.
  - by rewrite (proj2 (Z.eqb_neq _ _)) by lia.
  - etrans; [apply (sublist_length_filter is_pong rest (item :: rest))|done].
    by constructor.
Qed.

Lemma start_write_step uid p item rest finished :
  active_write_token p = 0 → stream p = true → pending_out p = item :: rest →
  step_ok uid p (start_write p item rest finished).
Proof.
  intros H0 Hstream Hpend. split.
  { intros Hu. unfold start_write. destruct finished; simpl; by repeat constructor. }
  intros L Hok Hs. apply short_app in Hs as Hs'.
  pose proof (ok_token_small _ _ _ Hok Hs') as Hlt. pose proof (ok_next _ _ _ Hok) as Hge.
  assert (Htok : u64 (next_write_token p + 1) = next_write_token p + 1)
    by (apply u64_small; unfold is_u64; lia).
  unfold start_write. cbv zeta. simpl. rewrite Htok.
  destruct finished.
  - eapply (started_ok _ _ _ _ _ (active_write_sub p)); [done..|].
    right. split; [done|]. by exists kFail.
  - eapply (started_ok _ _ _ _ _ (Some _) (terminal_notice p)); [done..|]. by left.
Qed.

Lemma write_first_step uid info finished : ∀ p,
  active_write_token p = 0 → stream p = true →
  step_ok uid p (write_first p info finished (pending_out p)).
Proof.
  intros p. remember (pending_out p) as l eqn:Hl. revert p Hl.
  assert (Hset : ∀ p l, pending_out p = l → set_pending p l = p) by (by intros [] ? <-).
  induction l as [|item rest IH]; intros p Hl H0 Hs; simpl.
  { rewrite Hset by done. apply step_ok_same; same. }
  case_if_dec; [rewrite Hset by done; apply step_ok_same; same|].
  case_if_dec; [|by apply start_write_step].
  set (q := set_pending p rest).
  assert (Hq : step_ok uid p (q, [Oversize (uid_text p) item])).
  { split; [intros; simpl; by repeat constructor|]. intros L Hok _.
    apply shrink_ok; [done|rewrite <-Hl; by constructor|done|done|]. rewrite <-Hl. simpl.
    destruct Hok. by rewrite ok_uid0, of_peer_same, app_nil_r, <-list.filter_app. }
  pose proof (IH q eq_refl H0 Hs) as Hr.
  assert (He : ∀ l, write_first p info finished l = write_first q info finished l).
  { induction l as [|i l IHl]; [done|]. simpl. by rewrite IHl. }
  rewrite He. destruct (write_first q info finished rest) as [r e].
  by apply (step_ok_seq uid p q [_] (r, e)).
Qed.

Lemma try_start_write_step uid p info finished : step_ok uid p (try_start_write p info finished).
Proof.
  unfold try_start_write. case_if_dec; [apply step_ok_same; same|].
  breflect. by apply write_first_step.
Qed.

(** *** Heartbeats *)

Lemma check_presence_step uid cfg p now : step_ok uid p (check_presence cfg p now).
Proof.
  unfold check_presence. case_if_dec; [apply presence_step|apply step_ok_same; same].
Qed.

Lemma send_heartbeat_step uid cfg p now nonce :
  step_ok uid p (send_heartbeat cfg p now nonce).1.
Proof.
  unfold send_heartbeat. case_if_dec; [|apply step_ok_same; same].
  pose proof (λ H, queue_pending_step uid p
    (kHeartbeatPing, EncodeHeartbeatNonce nonce) ltac:(by intros [=]) H) as Hq.
  unfold schedule_heartbeat_ping. do 2 (case_if_dec; [apply step_ok_same; same|]).
  specialize (Hq ltac:(done)). destruct (queue_pending _ _) as [q e]. simpl.
  rewrite <-(app_nil_r e).
  apply (step_ok_seq uid p q e (_, [])); [done|]. apply step_ok_same; same.
Qed.

(** ** The thread *)

(** The bytes of a write are those of its frame. *)
Definition encoded (e : Effect) : Prop :=
  match e with Write _ _ _ i f => f = EncodeAetherFrame i.1 i.2 | _ => True end.

Record net_ok (n : Net) : Prop := {
  peers_ok uid : peer_ok uid (effects n) (peer_of n uid);
  all_encoded : Forall encoded (effects n)
}.

Lemma new_net_ok commands : net_ok (new_net commands).
Proof.
  split; [|constructor]. intros uid. unfold peer_of. simpl. rewrite lookup_empty.
  by apply new_peer_ok.
Qed.

(** One step of the thread: of a peer, which does what [S] says, or of none. *)
Inductive net_move (S : string → PeerState → PeerState * list Effect → Prop) : Net → Net → Prop :=
| move_peer n uid r : S uid (peer_of n uid) r → net_move S n (put n uid r)
| move_other n n' e :
    peers n' = peers n → effects n' = effects n ++ e → Forall of_thread e → net_move S n n'.
Abbreviation moves S := (rtc (net_move S)).

(** What all steps of a peer do; [D]: the data that arrive. *)
Class PeerSteps (S : string → PeerState → PeerState * list Effect → Prop)
    (D : string → bytes → Prop) : Prop := {
  steps_seq uid p q e1 r : S uid p (q, e1) → S uid q r → S uid p (r.1, e1 ++ r.2);
  steps_data uid p data now : D uid data → S uid p (on_stream_data p data now);
  steps_update uid p link : S uid p (on_stream_update p link);
  steps_bind uid p link now : S uid p (bind_peer_stream p link now);
  steps_close uid p : S uid p (close_peer p);
  steps_queue uid p i : i.1 = kApplication ∨ i.1 = kControl → S uid p (queue_pending p i);
  steps_status uid p tok inc st : S uid p (ApplyWriteStatus p tok inc st, []);
  steps_notice uid cfg p now : S uid p (process_write_notice cfg p now);
  steps_write uid p info finished : S uid p (try_start_write p info finished);
  steps_heartbeat uid cfg p now nonce : S uid p (send_heartbeat cfg p now nonce).1;
  steps_check uid cfg p now : S uid p (check_presence cfg p now)
}.

#[export] Instance step_ok_steps : PeerSteps step_ok (λ _ _, True).
Proof.
  split; intros.
  - by eapply step_ok_seq.
  - apply on_stream_data_step.
  - apply on_stream_update_step.
  - apply bind_peer_stream_step.
  - apply close_peer_step.
  - apply queue_pending_step; unfold is_pong, is_ping; destruct H as [-> | ->]; done.
  - apply ApplyWriteStatus_step.
  - apply process_write_notice_step.
  - apply try_start_write_step.
  - apply send_heartbeat_step.
  - apply check_presence_step.
Qed.

Lemma net_move_grows S n n' : net_move S n n' → ∃ e, effects n' = effects n ++ e.
Proof. intros [? uid r _|? ? e _ He _]; eauto. Qed.

Lemma moves_grow S n n' : moves S n n' → ∃ e, effects n' = effects n ++ e.
Proof.
  induction 1 as [n|n n1 n2 H1 _ (e2 & He2)]; [exists []; by rewrite app_nil_r|].
  destruct (net_move_grows _ _ _ H1) as (e1 & He1). exists (e1 ++ e2).
  by rewrite He2, He1, app_assoc.
Qed.

Lemma net_move_ok n n' : net_move step_ok n n' → net_ok n → short (effects n') → net_ok n'.
Proof.
  intros Hm [Hp He] Hs. destruct Hm as [n uid r [Hf Hr]|n n' e Hpeers Heff Hnone].
  - destruct (Hf (ok_uid _ _ _ (Hp uid))) as [_ Honly]. split.
    + intros uid'. simpl. unfold peer_of. simpl.
      destruct (decide (uid = uid')) as [<-|Hne].
      * rewrite lookup_insert_eq. simpl. by apply Hr.
      * rewrite lookup_insert_ne by done. apply peer_ok_quiet; [apply Hp|].
        by apply (quiet_other _ uid).
    + apply Forall_app. split; [done|]. eapply Forall_impl; [|exact Honly].
      intros []; simpl; tauto.
  - split.
    + intros uid. unfold peer_of. rewrite Hpeers, Heff. apply peer_ok_quiet; [apply Hp|].
      apply quiet_none. eapply Forall_impl; [|exact Hnone]. by intros e' [].
    + rewrite Heff. apply Forall_app. split; [done|]. eapply Forall_impl; [|exact Hnone].
      by intros [] [].
Qed.

Lemma moves_ok n n' : moves step_ok n n' → net_ok n → short (effects n') → net_ok n'.
Proof.
  induction 1 as [n|n n1 n2 H1 H2 IH]; [done|]. intros Hok Hs. apply IH; [|done].
  eapply net_move_ok; [done..|]. destruct (moves_grow _ _ _ H2) as (e & He). rewrite He in Hs.
  by eapply short_app.
Qed.

(** *** The operations are moves *)

Section moves.
  Context {S : string → PeerState → PeerState * list Effect → Prop} {D : string → bytes → Prop}.
  Context {steps : PeerSteps S D}.

(** The data of an event are among those that may arrive. *)
Definition event_in (e : NetEvent) : Prop :=
  match e with StreamData uid data _ => D uid data | _ => True end.

Lemma put_moves n uid r : S uid (peer_of n uid) r → moves S n (put n uid r).
Proof. intros. by apply rtc_once, move_peer. Qed.

Lemma at_peer_moves n uid f : (∀ p, S uid p (f p)) → moves S n (at_peer n uid f).
Proof.
  intros Hf. unfold at_peer. destruct (peers n !! uid) as [p|] eqn:Hp; [|done].
  apply put_moves. unfold peer_of. by rewrite Hp.
Qed.

Lemma other_moves n n' e :
  peers n' = peers n → effects n' = effects n ++ e → Forall of_thread e → moves S n n'.
Proof. intros. by eapply rtc_once, move_other. Qed.

Lemma silent_moves n n' : peers n' = peers n → effects n' = effects n → moves S n n'.
Proof. intros. eapply (other_moves n n' []); by rewrite ?app_nil_r. Qed.

Lemma emit_moves n e : Forall of_thread e → moves S n (emit n e).
Proof. intros. by eapply other_moves. Qed.

Lemma foldl_moves {A} (f : Net → A → Net) l n : (∀ n x, moves S n (f n x)) → moves S n (foldl f n l).
Proof.
  intros Hf. revert n. induction l as [|x l IH]; intros n; simpl; [done|].
  etrans; [apply Hf|apply IH].
Qed.

Lemma net_event_moves n e : event_in e → moves S n (net_event n e).
Proof.
  destruct e; simpl; intros He.
  - case_match; [done|]. case_match; by apply silent_moves.
  - case_match; [done|]. apply put_moves, steps_bind.
  - apply at_peer_moves. intros. by apply steps_data.
  - apply at_peer_moves. intros. apply steps_update.
  - apply at_peer_moves. intros. apply steps_status.
Qed.

Lemma events_moves l n : Forall event_in l → moves S n (foldl net_event n l).
Proof.
  intros Hl. revert n. induction Hl as [|e l He _ IH]; intros n; simpl; [done|].
  etrans; [by apply net_event_moves|apply IH].
Qed.

Lemma open_peer_moves t n uid : moves S n (open_peer_internal t n uid).
Proof.
  unfold open_peer_internal. do 4 (case_if_dec; [done|]). cbv zeta.
  etrans; [|apply put_moves, steps_bind]. apply emit_moves. by repeat constructor.
Qed.

Lemma send_moves t n kind uid payload :
  kind = kApplication ∨ kind = kControl → moves S n (send t n kind uid payload).
Proof.
  intros Hk. unfold send. cbv zeta. set (n' := put n uid _).
  assert (Hn : moves S n n').
  { by apply put_moves, steps_queue. }
  case_match; [done|]. etrans; [exact Hn|apply open_peer_moves].
Qed.

Lemma run_commands_moves t n : moves S n (run_commands t n).
Proof.
  unfold run_commands. etrans; [|apply foldl_moves].
  - by apply silent_moves.
  - intros m [uid|uid payload|uid payload|uid]; simpl.
    + apply open_peer_moves.
    + apply send_moves. auto.
    + apply send_moves. auto.
    + apply at_peer_moves. intros. apply steps_close.
Qed.

Lemma heartbeat_moves t cfg n uid : moves S n (heartbeat t cfg n uid).
Proof.
  unfold heartbeat. destruct (peers n !! uid) as [p|] eqn:Hp; [|done].
  pose proof (steps_heartbeat uid cfg p (heartbeat_now t) (next_nonce n)) as H1.
  destruct (send_heartbeat _ _ _ _) as [[q e1] nonce].
  pose proof (steps_check uid cfg q (heartbeat_now t)) as H2.
  destruct (check_presence _ _ _) as [r e2]. simpl in *.
  etrans; [by apply (silent_moves n (set_nonce n nonce))|]. apply put_moves.
  unfold peer_of. simpl. rewrite Hp. by apply (steps_seq uid p q e1 (r, e2)).
Qed.

Lemma pump_peer_moves t cfg n uid : moves S n (pump_peer t cfg n uid).
Proof.
  unfold pump_peer. cbv zeta. etrans; apply at_peer_moves; intros.
  - apply steps_notice.
  - apply steps_write.
Qed.

Lemma configure_moves n : moves S n (configure n).
Proof.
  unfold configure. case_match; [|done]. case_match; [done|].
  eapply other_moves; [done..|]. by repeat constructor.
Qed.

Lemma Tick_moves t n : moves S n (Tick t n).
Proof.
  unfold Tick. case_match; [|done]. case_match; [done|].
  eapply other_moves; [done..|]. by repeat constructor.
Qed.

Lemma start_select_moves n : moves S n (start_select n).
Proof.
  unfold start_select. case_match; [done|]. eapply other_moves; [done..|]. by repeat constructor.
Qed.

Lemma turn_moves t order cfg n :
  Forall event_in (update t) → moves S n (turn t order cfg n).1.
Proof.
  intros Hin.
  unfold turn. cbv zeta. etrans; [apply start_select_moves|].
  set (n1 := start_select n). destruct (select_failed n1).
  { eapply other_moves; [done..|]. by repeat constructor. }
  etrans; [apply configure_moves|]. set (n2 := configure n1).
  set (n3 := if configured n2 then _ else _).
  assert (H3 : moves S n2 n3).
  { unfold n3. case_match; [|done]. etrans; [apply run_commands_moves|].
    apply foldl_moves. intros. apply heartbeat_moves. }
  etrans; [exact H3|]. set (n4 := if configured n3 then _ else _).
  assert (H4 : moves S n3 n4) by (unfold n4; case_match; [apply Tick_moves|done]).
  etrans; [exact H4|]. etrans; [apply events_moves, Hin|].
  case_match; [done|]. simpl. case_match; [|done].
  apply foldl_moves. intros. apply pump_peer_moves.
Qed.

Definition step_in (x : Step) : Prop :=
  match x with Turn_ t => Forall event_in (update t) | _ => True end.

(** A run is moves, and at its end effects that concern no peer. *)
Lemma ThreadMain_moves order cfg l n n' running :
  Forall step_in l → ThreadMain order cfg n l = (n', running) →
  ∃ m e, moves S n m ∧ effects n' = effects m ++ e ∧ Forall of_thread e ∧
         (running = true → n' = m).
Proof.
  assert (Hend : ∀ n0 m e, moves S n0 m → Forall of_thread e → ∀ n', effects n' = effects m ++ e →
    (n', false) = (n', running) → ∃ m e, moves S n0 m ∧ effects n' = effects m ++ e ∧
      Forall of_thread e ∧ (running = true → n' = m)).
  { intros n0 m e Hm He n1 Hn [= <-]. by exists m, e. }
  assert (Hfin : ∀ m, Forall of_thread ((if configured m then [SaveClient] else []) ++ [ExitApp]))
    by (intros m; destruct (configured m); by repeat constructor).
  intros Hl. revert n. induction Hl as [|x l Hx _ IH]; intros n; simpl;
    [|destruct x as [c|t| |what]].
  - intros [= <- <-]. exists n, []. rewrite app_nil_r. done.
  - intros (m & e & Hm & Hr)%IH. exists m, e. split; [|done].
    etrans; [by apply (silent_moves n (Enqueue n c))|done].
  - pose proof (turn_moves t order cfg n Hx) as Ht. destruct (turn t order cfg n) as [n1 []]; simpl in Ht.
    + intros (m & e & Hm & Hr)%IH. exists m, e. split; [by etrans|done].
    + intros [= <- <-]. by eapply Hend.
  - intros [= <- <-]. by eapply Hend.
  - intros [= <- <-]. eapply Hend; [reflexivity| |done|done]. by repeat constructor.
Qed.

End moves.

Lemma all_steps_in l : Forall (step_in (D := λ _ _, True)) l.
Proof.
  apply Forall_forall. intros [|t| |] _; try done. simpl. apply Forall_forall. by intros [].
Qed.

Lemma Start_moves order cfg commands l n running S `{!PeerSteps S (λ _ _, True)} :
  Start order cfg commands l = (n, running) →
  ∃ m e, moves S (new_net commands) m ∧ effects n = effects m ++ e ∧ Forall of_thread e ∧
         (running = true → n = m).
Proof.
  unfold Start. case_match.
  - apply (ThreadMain_moves (D := λ _ _, True)), all_steps_in.
  - intros [= <- <-]. exists (new_net commands), [OnFailed "Invalid heartbeat configuration"].
    split; [done|]. split; [done|]. split; [by repeat constructor|done].
Qed.

Lemma net_Start_ok order cfg commands l n running :
  Start order cfg commands l = (n, running) → short (effects n) →
  ∃ m e, net_ok m ∧ effects n = effects m ++ e ∧ Forall of_thread e ∧ (running = true → n = m).
Proof.
  intros (m & e & Hm & Heff & He & Hr)%(Start_moves _ _ _ _ _ _ step_ok) Hs. exists m, e.
  split; [|done]. eapply moves_ok; [done|apply new_net_ok|]. rewrite Heff in Hs.
  by eapply short_app.
Qed.
