(* ===== verification/ChatNetworkRuns.v ===== *)
(** * Runs of the network thread

    What holds in every run of the network thread (ChatNetwork.v): a frame that is accepted
    leaves the queue of its peer once, in order; there is at most one write, which its own
    completion ends; a presence that is reported follows the traffic and is as fresh as
    the configuration says; and a queue whose stream takes frames empties. *)
From stdpp Require Import relations.
From S2P Require Import Prelude NativeBytes ChatTransport ChatOutput ChatNetwork ChatNetworkTheory.

#[local] Create Rewrite HintDb net.
#[local] Hint Rewrite all_queued_app all_left_app all_tokens_app : net.

(** ** Frames *)

(** C28. What a peer's queue takes, requests to send and pings, leaves it in the order in which
    it came: written to the stream of the peer, dropped because the stream takes no frame
    of its size, or dropped when the peer is closed; while the thread runs the rest is
    what still waits.  The bytes of a write are the encoding of its frame, and the writes
    of a peer are numbered from 1. *)
Theorem frames_leave_in_order order cfg commands l n running uid :
  Start order cfg commands l = (n, running) → short (effects n) →
  all_left uid (effects n) `prefix_of` all_queued uid (effects n) ∧
  (running = true →
   all_queued uid (effects n) =
     all_left uid (effects n) ++ filter not_pong (pending_out (peer_of n uid))) ∧
  Forall encoded (effects n) ∧
  all_tokens uid (effects n) = seqZ 1 (zlen (all_tokens uid (effects n))).
Proof.
  intros Hrun Hs. destruct (net_Start_ok _ _ _ _ _ _ Hrun Hs) as (m & e & [Hp Henc] & Heff & He & Hr).
  assert (Hq : quiet uid e).
  { apply quiet_none. eapply Forall_impl; [|exact He]. by intros ? []. }
  pose proof (peer_ok_quiet _ _ _ _ (Hp uid) Hq) as Hok. rewrite <-Heff in Hok.
  pose proof (ok_fifo _ _ _ Hok) as Hfifo. split_and!.
  - rewrite Hfifo. by eexists.
  - by intros ->%Hr.
  - rewrite Heff. apply Forall_app. split; [done|]. eapply Forall_impl; [|exact He].
    by intros [] [].
  - rewrite (ok_tokens _ _ _ Hok). pose proof (ok_next _ _ _ Hok). unfold zlen.
    rewrite length_seqZ. by rewrite Z2Nat.id by lia.
Qed.

(** While the thread runs, a peer has at most one write under way, the last one that was
    started, on a stream that is there; and its end is still to be reported or has been
    noted, so that the queue of the peer cannot be stuck behind it.  No frame is twice among
    the write and the queue, which hold at most one ping and one waiting answer to a ping. *)
Theorem write_under_way order cfg commands l n uid p :
  Start order cfg commands l = (n, true) → short (effects n) → peers n !! uid = Some p →
  (active_write_token p ≠ 0 →
   stream p = true ∧ active_write_token p = zlen (all_tokens uid (effects n)) ∧
   will_end p) ∧
  NoDup (flight p) ∧
  (length (filter is_ping (flight p)) ≤ 1)%nat ∧
  (length (filter is_pong (pending_out p)) ≤ 1)%nat.
Proof.
  intros Hrun Hshort Hp.
  destruct (net_Start_ok _ _ _ _ _ _ Hrun Hshort) as (m & e & [Hok _] & Heff & He & Hr).
  specialize (Hr eq_refl) as <-. specialize (Hok uid). unfold peer_of in Hok. rewrite Hp in Hok.
  simpl in Hok. split; [|by destruct Hok]. intros Ha.
  destruct (ok_active _ _ _ Hok Ha) as (Hs & Ht & Hw). split; [done|]. split; [|done].
  rewrite (ok_tokens _ _ _ Hok). pose proof (ok_next _ _ _ Hok). unfold zlen.
  rewrite length_seqZ. lia.
Qed.

(** ** Presence *)

Definition reports (uid : string) (e : Effect) : list PeerPresence :=
  match e with OnPresence u x => of_peer uid u [x] | _ => [] end.
Definition last_report (uid : string) (x : PeerPresence) (L : list Effect) : PeerPresence :=
  foldl (λ _ y, y) x (L ≫= reports uid).

Lemma last_report_app uid x L K :
  last_report uid x (L ++ K) = last_report uid (last_report uid x L) K.
Proof. unfold last_report. by rewrite bind_app, foldl_app. Qed.

(** What is reported of a peer, and of no other. *)
Definition report_ok (uid : string) (p : PeerState) (r : PeerState * list Effect) : Prop :=
  uid_text p = uid →
  uid_text r.1 = uid ∧ reported_presence r.1 = last_report uid (reported_presence p) r.2 ∧
  Forall (λ e, match e with OnPresence u _ => u = uid | _ => True end) r.2.

Lemma report_ok_seq uid p q e1 r :
  report_ok uid p (q, e1) → report_ok uid q r → report_ok uid p (r.1, e1 ++ r.2).
Proof.
  intros H1 H2 Hp. destruct (H1 Hp) as (Hq & Hr1 & He1). destruct (H2 Hq) as (Hr & Hr2 & He2).
  simpl in *. split; [done|]. rewrite last_report_app, <-Hr1. split; [done|by apply Forall_app].
Qed.

(** A step without a report. *)
Lemma report_ok_none uid p q e :
  uid_text q = uid_text p → reported_presence q = reported_presence p →
  Forall (λ e, match e with OnPresence _ _ => False | _ => True end) e → report_ok uid p (q, e).
Proof.
  intros H1 H2 He Hp. simpl. split; [congruence|]. rewrite H2. split.
  - unfold last_report. induction He as [|x e Hx _ IH]; [done|]. by destruct x.
  - eapply Forall_impl; [|exact He]. by intros [].
Qed.

Lemma report_ok_presence uid p q x :
  uid_text q = uid_text p → reported_presence q = reported_presence p →
  report_ok uid p (set_peer_presence q x).
Proof.
  intros Hu Hr. unfold set_peer_presence. case_if_dec; [by apply report_ok_none|].
  intros Hp. simpl. split; [congruence|]. unfold last_report. simpl.
  rewrite Hu, Hp, of_peer_same. split; [done|]. by repeat constructor.
Qed.

#[export] Instance report_steps : PeerSteps report_ok (λ _ _, True).
Proof.
  split; intros.
  - by eapply report_ok_seq.
  - unfold on_stream_data. destruct (DecodeAetherFrame data) as [[kind payload]|];
      [|by apply report_ok_none].
    destruct kind; cbv zeta.
    + pose proof (report_ok_presence uid p (set_times p now (last_heartbeat_tx_ms p)
        (last_heartbeat_rx_ms p)) PresenceOnline eq_refl eq_refl) as Hp.
      destruct (set_peer_presence _ _) as [q e].
      apply (report_ok_seq uid _ q e (q, [_])); [done|]. apply report_ok_none; [done..|].
      by repeat constructor.
    + pose proof (report_ok_presence uid p (set_times (set_times p now (last_heartbeat_tx_ms p)
        (last_heartbeat_rx_ms p)) now (last_heartbeat_tx_ms p) now) PresenceOnline
        eq_refl eq_refl) as Hp.
      match goal with |- context [set_peer_presence ?x ?y] =>
        change (report_ok uid p (set_peer_presence x y)) in Hp;
        destruct (set_peer_presence x y) as [q e] end.
      assert (Hq : report_ok uid q (queue_pong q (EncodeHeartbeatNonce (DecodeHeartbeatNonce payload)))).
      { unfold queue_pong. case_if_dec; by apply report_ok_none; repeat constructor. }
      destruct (queue_pong _ _) as [q' e']. by apply (report_ok_seq uid _ q e (q', e')).
    + by apply report_ok_presence.
    + apply report_ok_none; [done..|]. by repeat constructor.
  - unfold on_stream_update. case_if_dec; [by apply report_ok_none|].
    destruct link; case_if_dec; first [by apply report_ok_presence|by apply report_ok_none].
  - unfold bind_peer_stream. cbv zeta.
    match goal with |- context [if bool_decide (reported_presence ?x = _) then _ else _] => set (q := x) end.
    assert (Hr : ∀ r e, report_ok uid p (r, e) →
      report_ok uid p (if last_rx_ms r =? 0
        then set_times r now (last_heartbeat_tx_ms r) (last_heartbeat_rx_ms r) else r, e)).
    { intros r e Hre. by case_match. }
    destruct (bool_decide (reported_presence q = _)); [by apply Hr, report_ok_none|].
    pose proof (report_ok_presence uid p q PresenceConnecting eq_refl eq_refl) as Hp.
    destruct (set_peer_presence q PresenceConnecting) as [r e]. by apply Hr.
  - unfold close_peer. cbv zeta.
    match goal with |- context [set_peer_presence ?x ?y] =>
      pose proof (report_ok_presence uid p x y eq_refl eq_refl) as Hp;
      destruct (set_peer_presence x y) as [q e] end.
    intros Hu. destruct (Hp Hu) as (H1 & H2 & H3). split; [done|]. split; [done|].
    by constructor.
  - unfold queue_pending. case_if_dec; apply report_ok_none; by repeat constructor.
  - unfold ApplyWriteStatus. by repeat case_if_dec; apply report_ok_none.
  - unfold process_write_notice. case_if_dec; [by apply report_ok_none|]. cbv zeta.
    destruct (terminal_notice p) as [notice|]; [|by apply report_ok_none].
    do 2 (case_if_dec; [by apply report_ok_none|]).
    destruct (status notice); first [by apply report_ok_presence|by apply report_ok_none].
  - unfold try_start_write. case_if_dec; [by apply report_ok_none|].
    assert (Hw : ∀ l, uid_text (write_first p info finished l).1 = uid_text p ∧
      reported_presence (write_first p info finished l).1 = reported_presence p ∧
      Forall (λ e, match e with OnPresence _ _ => False | _ => True end)
        (write_first p info finished l).2).
    { induction l as [|i l IH]; simpl; [done|]. case_if_dec; [done|]. case_if_dec.
      - destruct (write_first p info finished l). simpl in *. destruct IH as (? & ? & ?).
        split; [done|]. split; [done|]. by constructor.
      - unfold start_write. destruct finished; simpl; split_and!; try done; by repeat constructor. }
    destruct (Hw (pending_out p)) as (H1 & H2 & H3). destruct (write_first _ _ _ _).
    by apply report_ok_none.
  - unfold send_heartbeat. case_if_dec; [|by apply report_ok_none].
    unfold schedule_heartbeat_ping. do 2 (case_if_dec; [by apply report_ok_none|]).
    unfold queue_pending. case_if_dec; apply report_ok_none; by repeat constructor.
  - unfold check_presence. case_if_dec; [by apply report_ok_presence|by apply report_ok_none].
Qed.

(** The last report of a peer is its presence. *)
Definition reported (n : Net) : Prop :=
  ∀ uid, uid_text (peer_of n uid) = uid ∧
         reported_presence (peer_of n uid) = last_report uid PresenceUnknown (effects n).

Lemma net_move_reported n n' : net_move report_ok n n' → reported n → reported n'.
Proof.
  intros Hm Hn. destruct Hm as [n uid r Hr|n n' e Hpeers Heff He]; intros uid'.
  - destruct (Hn uid) as [Hu Hrep]. destruct (Hr Hu) as (Hu' & Hr' & Hother). simpl.
    rewrite last_report_app. unfold peer_of at 1 2. simpl.
    destruct (decide (uid = uid')) as [<-|Hne].
    + rewrite lookup_insert_eq. simpl. by rewrite Hr', Hrep.
    + rewrite lookup_insert_ne by done. destruct (Hn uid') as [Hu2 Hrep2]. split; [done|].
      etrans; [exact Hrep2|]. generalize (last_report uid' PresenceUnknown (effects n)) as x.
      clear Hr'. intros x. unfold last_report. induction Hother as [|y e Hy _ IH]; [done|].
      destruct y; try exact IH. simpl in Hy. subst. cbn [mbind list_bind reports].
      by rewrite of_peer_other.
  - destruct (Hn uid') as [Hu Hrep]. unfold peer_of in *. rewrite Hpeers, Heff, last_report_app.
    split; [done|]. rewrite Hrep. generalize (last_report uid' PresenceUnknown (effects n)) as x.
    clear Heff. intros x. unfold last_report. induction He as [|y e [_ Hy] _ IH]; [done|].
    by destruct y.
Qed.

Lemma moves_reported n n' : moves report_ok n n' → reported n → reported n'.
Proof. induction 1; eauto using net_move_reported. Qed.

Lemma new_net_reported commands : reported (new_net commands).
Proof. intros uid. unfold peer_of. simpl. by rewrite lookup_empty. Qed.

(** Whether an event is data of the peer that make it online. *)
Definition heard (uid : string) (e : NetEvent) : bool :=
  match e with
  | StreamData u data _ =>
      bool_decide (u = uid) &&
      match DecodeAetherFrame data with
      | Some (kind, _) => negb (bool_decide (kind = kControl))
      | None => false
      end
  | _ => false
  end.

(** Steps that do not make [uid] online, without data that would. *)
Definition no_online (uid u : string) (p : PeerState) (r : PeerState * list Effect) : Prop :=
  u = uid → reported_presence r.1 = PresenceOnline → reported_presence p = PresenceOnline.
Definition unheard (uid u : string) (data : bytes) : Prop := heard uid (StreamData u data 0) = false.

Lemma set_presence_not_online p x :
  x ≠ PresenceOnline → reported_presence (set_peer_presence p x).1 ≠ PresenceOnline.
Proof.
  intros Hx. unfold set_peer_presence. case_if_dec; simpl; [|done]. breflect. congruence.
Qed.

#[export] Instance no_online_steps uid : PeerSteps (no_online uid) (unheard uid).
Proof.
  assert (Hno : ∀ u p q x, x ≠ PresenceOnline → no_online uid u p (set_peer_presence q x)).
  { intros u p q x Hx _ Hr. by apply set_presence_not_online in Hr. }
  assert (Hsame : ∀ u p q e, reported_presence q = reported_presence p → no_online uid u p (q, e))
    by (intros u p q e Hq _; simpl; congruence).
  split; intros.
  - intros Hu Hr. by apply H, H0.
  - unfold on_stream_data. intros ->. unfold unheard, heard in H. rewrite bool_decide_true in H by done.
    destruct (DecodeAetherFrame data) as [[kind payload]|]; [|done].
    by destruct kind.
  - unfold on_stream_update. case_if_dec; [by apply Hsame|].
    destruct link; case_if_dec; first [by apply Hno|by apply Hsame].
  - unfold bind_peer_stream. cbv zeta.
    match goal with |- context [if bool_decide (reported_presence ?x = _) then _ else _] =>
      set (q := x) end.
    intros _. destruct (bool_decide (reported_presence q = _)) eqn:Hq.
    + simpl. by case_match.
    + pose proof (set_presence_not_online q PresenceConnecting ltac:(done)) as Hp.
      destruct (set_peer_presence q PresenceConnecting) as [r e]. simpl in *. by case_match.
  - unfold close_peer. cbv zeta. intros _.
    match goal with |- context [set_peer_presence ?x ?y] =>
      pose proof (set_presence_not_online x y ltac:(done)) as Hp;
      destruct (set_peer_presence x y) as [q e] end. done.
  - unfold queue_pending. case_if_dec; by apply Hsame.
  - unfold ApplyWriteStatus. by repeat case_if_dec; apply Hsame.
  - unfold process_write_notice. case_if_dec; [by apply Hsame|]. cbv zeta.
    destruct (terminal_notice p) as [notice|]; [|by apply Hsame].
    do 2 (case_if_dec; [by apply Hsame|]).
    destruct (status notice); [by apply Hsame| |by apply Hsame]. apply Hno. by case_match.
  - intros _. unfold try_start_write. case_if_dec; [done|].
    assert (Hw : ∀ l, reported_presence (write_first p info finished l).1 = reported_presence p).
    { induction l as [|i l IH]; simpl; [done|]. case_if_dec; [done|]. case_if_dec.
      - by destruct (write_first p info finished l).
      - unfold start_write. by destruct finished. }
    by rewrite Hw.
  - unfold send_heartbeat. case_if_dec; [|by apply Hsame].
    unfold schedule_heartbeat_ping. do 2 (case_if_dec; [by apply Hsame|]).
    unfold queue_pending. case_if_dec; by apply Hsame.
  - unfold check_presence. case_if_dec; [by apply Hno|by apply Hsame].
Qed.

Lemma moves_no_online uid n n' :
  moves (no_online uid) n n' → reported_presence (peer_of n' uid) = PresenceOnline →
  reported_presence (peer_of n uid) = PresenceOnline.
Proof.
  induction 1 as [n|n n1 n2 Hm _ IH]; [done|]. intros H%IH.
  destruct Hm as [n u r Hr|n n' e Hpeers _ _].
  - unfold peer_of in H. simpl in H. destruct (decide (u = uid)) as [->|Hne].
    + rewrite lookup_insert_eq in H. simpl in H. by apply Hr.
    + by rewrite lookup_insert_ne in H.
  - unfold peer_of in *. by rewrite <-Hpeers.
Qed.

(** C29. After every turn of the loop the last report of a peer is its presence, and a peer that
    a turn makes online has sent something in this turn, a ping, an answer to one or an
    application frame: a stream that is linked or a control frame does not. *)
Theorem presence_follows_traffic order cfg commands l t n n' uid :
  Start order cfg commands l = (n, true) → turn t order cfg n = (n', true) →
  reported_presence (peer_of n' uid) = last_report uid PresenceUnknown (effects n') ∧
  (reported_presence (peer_of n' uid) = PresenceOnline →
   reported_presence (peer_of n uid) = PresenceOnline ∨ existsb (heard uid) (update t) = true).
Proof.
  intros Hrun Hturn. split.
  - destruct (Start_moves _ _ _ _ _ _ report_ok Hrun) as (m & e & Hm & _ & _ & Hr).
    specialize (Hr eq_refl) as <-.
    pose proof (turn_moves (S := report_ok) (D := λ _ _, True) t order cfg n) as Ht.
    rewrite Hturn in Ht. eapply moves_reported; [|eapply moves_reported, new_net_reported; exact Hm].
    apply Ht, Forall_forall. intros e' _. by destruct e'.
  - intros Hon. destruct (existsb (heard uid) (update t)) eqn:Hh; [by right|left].
    pose proof (turn_moves (S := no_online uid) (D := unheard uid) t order cfg n) as Ht.
    rewrite Hturn in Ht. eapply moves_no_online; [apply Ht|done].
    apply Forall_forall. intros e He. destruct e as [| |u data now| |]; try done. simpl.
    unfold unheard. apply not_true_iff_false. intros Hd. apply not_true_iff_false in Hh.
    apply Hh, existsb_exists. by eexists.
Qed.

(** What lasts of a peer after the check of its presence. *)
Definition is_fresh (cfg : Config) (now : Z) (p : PeerState) : Prop :=
  reported_presence p = PresenceConnecting ∨ reported_presence p = PresenceOnline →
  last_active p = 0 ∨ u64 (now - last_active p) < offline_after_ms cfg.

Lemma check_presence_fresh cfg p now : is_fresh cfg now (check_presence cfg p now).1.
Proof.
  unfold check_presence, is_fresh. case_if_dec.
  - assert (Hp : reported_presence (set_peer_presence p PresenceOffline).1 = PresenceOffline).
    { unfold set_peer_presence. by case_if_dec; breflect. }
    rewrite Hp. by intros [].
  - simpl. intros Hp. apply andb_false_iff in Heqb as [Hb|Hb]; breflect; [|by right].
    apply andb_false_iff in Hb as [Hb|Hb]; breflect; [|by left].
    destruct Hp as [Hp|Hp]; rewrite Hp in *; simplify_eq/=.
Qed.

Lemma heartbeat_fresh t cfg n u uid p :
  peers (heartbeat t cfg n u) !! uid = Some p →
  u = uid ∨ is_fresh cfg (heartbeat_now t) (peer_of n uid) →
  is_fresh cfg (heartbeat_now t) p.
Proof.
  unfold heartbeat. destruct (peers n !! u) as [q|] eqn:Hq.
  - destruct (send_heartbeat _ _ _ _) as [[q1 e1] nonce].
    pose proof (check_presence_fresh cfg q1 (heartbeat_now t)) as Hf.
    destruct (check_presence _ _ _) as [q2 e2]. simpl in *.
    destruct (decide (u = uid)) as [<-|Hne].
    + rewrite lookup_insert_eq. by intros [= <-].
    + rewrite lookup_insert_ne by done. intros Hp [|Hn]; [done|].
      unfold peer_of in Hn. by rewrite Hp in Hn.
  - intros Hp [->|Hn]; [congruence|]. unfold peer_of in Hn. by rewrite Hp in Hn.
Qed.

(** When the heartbeats of a turn are done, every peer that is reported as connecting or
    online has been heard, or its stream was made, less than [offline_after_ms] before. *)
Theorem presence_is_fresh order cfg t n uid p :
  (∀ uid, is_Some (peers n !! uid) → uid ∈ order (peers n)) →
  peers (heartbeats t order cfg n) !! uid = Some p → is_fresh cfg (heartbeat_now t) p.
Proof.
  intros Horder. unfold heartbeats.
  assert (Hgen : ∀ l n, (∀ uid, is_Some (peers n !! uid) → uid ∈ l ∨
      is_fresh cfg (heartbeat_now t) (peer_of n uid)) → ∀ uid p,
      peers (foldl (heartbeat t cfg) n l) !! uid = Some p → is_fresh cfg (heartbeat_now t) p).
  { clear. induction l as [|u l IH]; intros n Hn uid p Hp; simpl in Hp.
    - destruct (Hn uid) as [Hu|Hu]; [by rewrite Hp|by apply not_elem_of_nil in Hu|].
      unfold peer_of in Hu. by rewrite Hp in Hu.
    - eapply IH; [|exact Hp]. intros u' [p' Hp'].
      assert (Hs : is_Some (peers n !! u')).
      { unfold heartbeat in Hp'. destruct (peers n !! u) as [q|] eqn:Hq; [|by rewrite Hp'].
        destruct (send_heartbeat _ _ _ _) as [[q1 e1] nonce].
        destruct (check_presence _ _ _) as [q2 e2]. simpl in Hp'.
        destruct (decide (u = u')) as [<-|Hne]; [by rewrite Hq|].
        rewrite lookup_insert_ne in Hp' by done. by rewrite Hp'. }
      destruct (Hn u' Hs) as [[->|Hu]%elem_of_cons|Hu]; [right|by left|right];
        unfold peer_of; rewrite Hp'; eapply heartbeat_fresh; eauto. }
  intros Hp. eapply Hgen; [|exact Hp]. intros u Hu. left. by apply Horder.
Qed.

(** ** The queue empties *)

(** The pump of a turn, after which the write that is under way succeeds. *)
Definition pump_round (cfg : Config) (info : StreamInfo) (now : Z) (p : PeerState)
    : PeerState * list Effect :=
  let '(p, e1) := process_write_notice cfg p now in
  let '(p, e2) := try_start_write p info false in
  (ApplyWriteStatus p (active_write_token p) (channel_incarnation p) kSuccess, e1 ++ e2).

Fixpoint pump_rounds (cfg : Config) (info : StreamInfo) (now : Z) (k : nat) (p : PeerState)
    : PeerState * list Effect :=
  match k with
  | O => (p, [])
  | S k =>
      let '(p, e1) := pump_round cfg info now p in
      let '(p, e2) := pump_rounds cfg info now k p in (p, e1 ++ e2)
  end.

(** The frames that leave the queue by the pump. *)
Definition taken (e : Effect) : list PendingOut :=
  match e with Write _ _ _ i _ | Oversize _ i => [i] | _ => [] end.

Definition ready (p : PeerState) : Prop :=
  stream p = true ∧ 1 ≤ next_write_token p ∧ (active_write_token p ≠ 0 → will_end p).
Definition settled (p : PeerState) : Prop :=
  active_write_token p ≠ 0 → terminal_notice_pending p = true ∧
  ∃ st, terminal_notice p = Some (mkNotice (active_write_token p) (channel_incarnation p) st).

Lemma set_presence_same p x :
  same_transport p (set_peer_presence p x).1 ∧ (set_peer_presence p x).2 ≫= taken = [].
Proof. unfold set_peer_presence. case_if_dec; (split; [same|done]). Qed.

(** The pump's first step ends a write whose end was noted. *)
Lemma process_ready cfg p now q e :
  process_write_notice cfg p now = (q, e) → ready p →
  ready q ∧ pending_out q = pending_out p ∧ next_write_token q = next_write_token p ∧
  e ≫= taken = [] ∧ (settled p → active_write_token q = 0).
Proof.
  unfold process_write_notice. intros Hq (Hs & Hn & Hw).
  destruct (terminal_notice_pending p) eqn:Hpend; simpl in Hq.
  2:{ simplify_eq/=. do 4 (split; [done|]). intros Hset.
      destruct (decide (active_write_token q = 0)) as [|Ha]; [done|].
      destruct (Hset Ha) as [? _]. congruence. }
  assert (Hforget : (active_write_token p ≠ 0 → ¬ ∃ st, terminal_notice p =
      Some (mkNotice (active_write_token p) (channel_incarnation p) st)) →
    (q, e) = (set_notice p None false, []) →
    ready q ∧ pending_out q = pending_out p ∧ next_write_token q = next_write_token p ∧
    e ≫= taken = [] ∧ (settled p → active_write_token q = 0)).
  { intros Hno [= -> ->]. split; [split; [done|]; split; [done|]|].
    - simpl. intros Ha. destruct (Hw Ha) as [?|[_ ?]]; [by left|by destruct (Hno Ha)].
    - do 3 (split; [done|]). intros Hset. simpl.
      destruct (decide (active_write_token p = 0)) as [|Ha]; [done|].
      by destruct (Hno Ha), (Hset Ha). }
  destruct (terminal_notice p) as [notice|] eqn:Hnotice; [|apply Hforget; [by intros _ [??]|done]].
  destruct (incarnation notice =? channel_incarnation p) eqn:Hi; simpl in Hq; breflect.
  2:{ apply Hforget; [|done]. intros _ [st Hst]. by simplify_eq/=. }
  destruct (active_write_token p =? 0) eqn:H0; simpl in Hq; breflect; [by apply Hforget|].
  destruct (token notice =? active_write_token p) eqn:Ht; simpl in Hq; breflect.
  2:{ apply Hforget; [|done]. intros _ [st Hst]. by simplify_eq/=. }
  destruct (status notice); [by simplify_eq/=| |by simplify_eq/=].
  match type of Hq with set_peer_presence ?x ?y = _ =>
    destruct (set_presence_same x y) as [Hsame He]; rewrite Hq in Hsame, He end.
  destruct Hsame as (_ & H1 & H2 & _ & H4 & H5 & _). simpl in *.
  split; [split; [by apply H5|]; split; [by rewrite H1|by rewrite H2]|].
  do 3 (split; [done|]). intros _. by rewrite H2.
Qed.

Definition writable (info : StreamInfo) : Prop :=
  rec_element_size info ≠ 0 ∧ is_writable info = true.

(** The pump's second step takes at least one frame when there is no write. *)
Lemma write_first_takes info p l : writable info →
  1 ≤ next_write_token p → next_write_token p < 2 ^ 64 - 1 →
  stream p = true → active_write_token p = 0 →
  ∃ q e, write_first p info false l = (q, e) ∧
    l = (e ≫= taken) ++ pending_out q ∧ (l = [] ∨ (length (pending_out q) < length l)%nat) ∧
    stream q = true ∧ next_write_token p ≤ next_write_token q ≤ next_write_token p + 1 ∧
    (active_write_token q ≠ 0 →
     active_write_sub q = Some (active_write_token q, channel_incarnation q)).
Proof.
  intros [Hrec Hwr] Hge Hlt Hs H0. induction l as [|i l IH]; simpl.
  { eexists _, _. split; [done|]. split; [done|]. split; [by left|]. split; [done|].
    split; [simpl; lia|done]. }
  rewrite Hwr, (proj2 (Z.eqb_neq _ _)) by done. simpl. case_if_dec.
  - destruct IH as (q & e & He & Hl & Hlen & Hr). rewrite He. eexists _, _. split; [done|].
    simpl. split; [by f_equal|]. split; [|done]. right. destruct Hlen as [->|]; [|lia].
    symmetry in Hl. apply app_nil in Hl as [_ ->]. simpl. lia.
  - eexists _, _. split; [reflexivity|]. simpl. split; [done|]. split; [by right; lia|].
    split; [done|]. rewrite u64_small by (unfold is_u64; lia). split; [lia|done].
Qed.

(** One round. *)
Lemma pump_round_takes cfg info now p : writable info → ready p →
  next_write_token p < 2 ^ 64 - 1 →
  ∃ q e, pump_round cfg info now p = (q, e) ∧ ready q ∧ settled q ∧
    next_write_token q ≤ next_write_token p + 1 ∧
    pending_out p = (e ≫= taken) ++ pending_out q ∧
    (settled p → pending_out p = [] ∨ (length (pending_out q) < length (pending_out p))%nat).
Proof.
  intros Hwr Hready Hlt. unfold pump_round.
  destruct (process_write_notice cfg p now) as [p1 e1] eqn:Hp1.
  destruct (process_ready _ _ _ _ _ Hp1 Hready) as ((Hs & Hn & Hw) & Hpend & Hnext & He1 & Hset).
  unfold try_start_write. rewrite Hs, orb_false_r.
  destruct (active_write_token p1 =? 0) eqn:H0; breflect; simpl.
  - destruct (write_first_takes info p1 (pending_out p1) Hwr) as
      (q & e2 & He2 & Hl & Hlen & Hsq & Hnq & Hsub); [done|lia|done|done|].
    rewrite He2. eexists _, _. split; [reflexivity|].
    unfold ApplyWriteStatus. rewrite !Z.eqb_refl. simpl. unfold ready, settled. simpl.
    split; [split; [done|]; split; [lia|]|].
    { intros _. right. split; [done|]. by eexists. }
    split; [split; [done|]; by eexists|]. split; [lia|].
    rewrite bind_app, He1. simpl. rewrite <-Hpend. split; [done|]. by intros _.
  - eexists _, _. split; [reflexivity|]. unfold ApplyWriteStatus. rewrite !Z.eqb_refl. simpl.
    unfold ready, settled. simpl. split; [split; [done|]; split; [done|]|].
    { intros _. right. split; [done|]. by eexists. }
    split; [split; [done|]; by eexists|]. split; [lia|].
    rewrite app_nil_r, He1, Hpend. split; [done|]. intros Hp%Hset. done.
Qed.

Lemma pump_rounds_settled cfg info now k p : writable info → ready p → settled p →
  (length (pending_out p) ≤ k)%nat → next_write_token p + Z.of_nat k < 2 ^ 64 - 1 →
  ∃ q e, pump_rounds cfg info now k p = (q, e) ∧ pending_out q = [] ∧
    e ≫= taken = pending_out p.
Proof.
  intros Hwr. revert p. induction k as [|k IH]; intros p Hready Hset Hlen Hlt.
  { exists p, []. split; [done|]. destruct (pending_out p); simpl in *; [done|lia]. }
  destruct (pump_round_takes cfg info now p Hwr Hready) as
    (q & e & Hq & Hrq & Hsq & Hnq & Hpq & Hless); [lia|].
  destruct (IH q Hrq Hsq) as (r & e' & Hr & Hpr & Her); [|lia|].
  { destruct (Hless Hset) as [Hnil|]; [|lia].
    rewrite Hnil in Hpq. symmetry in Hpq. apply app_nil in Hpq as [_ ->]. simpl. lia. }
  exists r, (e ++ e'). simpl. rewrite Hq, Hr. split; [done|]. split; [done|].
  by rewrite bind_app, Her.
Qed.

(** A peer whose stream takes frames and whose writes succeed empties its queue: one round
    of the pump more than there are frames is enough, whatever was under way before, and
    every frame that waited has then been written, or dropped because of its size, in the
    order of the queue. *)
Theorem pump_drains uid L p cfg info now : peer_ok uid L p →
  stream p = true → rec_element_size info ≠ 0 → is_writable info = true →
  next_write_token p + zlen (pending_out p) < 2 ^ 64 - 3 →
  ∃ q e, pump_rounds cfg info now (S (length (pending_out p))) p = (q, e) ∧
    pending_out q = [] ∧ e ≫= taken = pending_out p.
Proof.
  intros Hok Hs Hrec Hwr Hlt. unfold zlen in Hlt.
  assert (Hready : ready p).
  { split; [done|]. split; [by destruct Hok|]. intros Ha.
    by destruct (ok_active _ _ _ Hok Ha) as (_ & _ & ?). }
  destruct (pump_round_takes cfg info now p) as (q & e & Hq & Hrq & Hsq & Hnq & Hpq & _);
    [done|done|lia|].
  destruct (pump_rounds_settled cfg info now (length (pending_out p)) q) as
    (r & e' & Hr & Hpr & Her); [done|done|done|rewrite Hpq, length_app; lia|lia|].
  exists r, (e ++ e'). cbn [pump_rounds]. rewrite Hq, Hr. split; [done|]. split; [done|].
  by rewrite bind_app, Her.
Qed.

(** ** A peer that is opened again *)

Lemma send_heartbeat_keeps cfg p now nonce q e nonce' :
  send_heartbeat cfg p now nonce = (q, e, nonce') →
  uid_text q = uid_text p ∧ reported_presence q = reported_presence p ∧
  last_active q = last_active p.
Proof.
  unfold send_heartbeat, schedule_heartbeat_ping, queue_pending.
  repeat case_if_dec; intros; by simplify_eq/=.
Qed.

(** Closing a peer keeps the times at which it was heard, and a new stream takes the time of
    its making only when there is none.  So a peer that is opened again after a pause is
    reported as connecting and, by the heartbeats of the same turn, as offline. *)
Theorem reopened_peer_is_offline t cfg n uid p : uid ≠ ""%string → uid_valid t uid = true →
  is_Some (client n) → peers n !! uid = Some p → uid_text p = uid → stream p = false →
  reported_presence p = PresenceOffline → last_rx_ms p ≠ 0 → last_active p ≠ 0 →
  offline_after_ms cfg ≤ u64 (heartbeat_now t - last_active p) →
  let n1 := open_peer_internal t n uid in
  let n2 := heartbeat t cfg n1 uid in
  effects n1 = effects n ++ [CreatePort uid; OnPresence uid PresenceConnecting] ∧
  ∃ e, effects n2 = effects n1 ++ e ++ [OnPresence uid PresenceOffline].
Proof.
  intros Hne Hvalid [c Hc] Hp Hu Hs Hoff Hrx Hact Hold.
  assert (Hbind : ∃ b, bind_peer_stream p (new_link t uid) (commands_now t) =
      (b, [OnPresence uid PresenceConnecting]) ∧ uid_text b = uid ∧
      reported_presence b = PresenceConnecting ∧ last_active b = last_active p).
  { unfold bind_peer_stream, set_peer_presence. cbv zeta. simpl. rewrite Hoff. simpl.
    rewrite (proj2 (Z.eqb_neq _ _)), Hu by done. by eexists. }
  destruct Hbind as (b & Hb & Hub & Hrb & Hlb). cbv zeta.
  assert (Hopen : open_peer_internal t n uid =
      put (emit n [CreatePort uid]) uid (b, [OnPresence uid PresenceConnecting])).
  { unfold open_peer_internal. rewrite (proj2 (String.eqb_neq _ _)), Hvalid, Hp, Hs, Hc by done.
    assert (Hpeer : peer_of (emit n [CreatePort uid]) uid = p)
      by (unfold peer_of; simpl; by rewrite Hp).
    cbv zeta. by rewrite Hpeer, Hb. }
  rewrite Hopen. split; [simpl; by rewrite <-app_assoc|].
  unfold heartbeat. simpl. rewrite lookup_insert_eq.
  destruct (send_heartbeat cfg b (heartbeat_now t) (next_nonce n)) as [[q e] nonce] eqn:Hq.
  destruct (send_heartbeat_keeps _ _ _ _ _ _ _ Hq) as (Huq & Hrq & Hlq).
  exists e. unfold check_presence, set_peer_presence. rewrite Hrq, Hrb, Hlq, Hlb, Huq, Hub.
  rewrite (proj2 (Z.eqb_neq _ _)), (proj2 (Z.leb_le _ _)) by done. done.
Qed.

(** ** A run *)
Module Examples.

Definition cfg : Config := mkConfig 2000 7000.
Definition the_order (m : gmap string PeerState) : list string := (map_to_list m).*1.

Definition a_turn (now : Z) (events : list NetEvent) : Turn :=
  mkTurn (λ uid, String.eqb uid "peer") (λ _, kLinked) (λ _, mkInfo kLinked 512 1024 true)
    (λ _, false) now now (Some (true, true)) events false now.

Definition ping_data : bytes := EncodeAetherFrame kHeartbeatPing (EncodeHeartbeatNonce 9).

(** The client is selected; two frames are sent, one of them twice; the first write succeeds
    while the peer's ping arrives; the second one succeeds. *)
Definition a_run : list Step :=
  [Command_ (kSend "peer" [1; 2]); Command_ (kSend "peer" [1; 2]); Command_ (kSendControl "peer" [3]);
   Turn_ (a_turn 1000 [SelectResult (inr "me")]);
   Turn_ (a_turn 1100 []);
   Turn_ (a_turn 1200 [WriteEnded "peer" 1 1 kSuccess; StreamData "peer" ping_data 1190])].

Definition a_net : Net := (Start the_order cfg [] a_run).1.
Definition a_peer : PeerState := peer_of a_net "peer".

Example a_net_effects : effects a_net =
  [SelectClient; SaveClient; OnUid "me"; OnReady; Queued "peer" (kApplication, [1; 2]);
   CreatePort "peer"; OnPresence "peer" PresenceConnecting; Queued "peer" (kControl, [3]);
   Queued "peer" (kHeartbeatPing, EncodeHeartbeatNonce 1); OnConnectivity true true;
   Write "peer" 1 1 (kApplication, [1; 2]) (EncodeAetherFrame kApplication [1; 2]);
   OnPresence "peer" PresenceOnline; Queued "peer" (kHeartbeatPong, EncodeHeartbeatNonce 9);
   Write "peer" 1 2 (kControl, [3]) (EncodeAetherFrame kControl [3])].
Proof. vm_compute. reflexivity. Qed.

Lemma a_run_short : short (effects a_net).
Proof. by vm_compute. Qed.

Lemma frames_leave_in_order_witness :
  all_left "peer" (effects a_net) = [(kApplication, [1; 2]); (kControl, [3])] ∧
  all_left "peer" (effects a_net) `prefix_of` all_queued "peer" (effects a_net).
Proof.
  split; [by vm_compute|].
  apply (frames_leave_in_order the_order cfg [] a_run a_net true "peer");
    [vm_compute; reflexivity|apply a_run_short].
Defined.

Lemma write_under_way_witness :
  active_write_token a_peer = 2 ∧ stream a_peer = true ∧ will_end a_peer.
Proof.
  destruct (write_under_way the_order cfg [] a_run a_net "peer" a_peer) as [Hw _];
    [vm_compute; reflexivity|apply a_run_short|vm_compute; reflexivity|].
  assert (Ha : active_write_token a_peer = 2) by (vm_compute; reflexivity).
  split; [exact Ha|]. destruct Hw as (Hs & _ & He); [rewrite Ha; lia|]. split; [exact Hs|exact He].
Defined.

Definition two_turns : list Step := take 5 a_run.
Definition before : Net := (Start the_order cfg [] two_turns).1.
Definition last_turn : Turn :=
  a_turn 1200 [WriteEnded "peer" 1 1 kSuccess; StreamData "peer" ping_data 1190].

Lemma presence_follows_traffic_witness :
  reported_presence (peer_of before "peer") = PresenceConnecting ∧
  last_report "peer" PresenceUnknown (effects a_net) = PresenceOnline ∧
  existsb (heard "peer") (update last_turn) = true.
Proof.
  destruct (presence_follows_traffic the_order cfg [] two_turns last_turn before a_net "peer")
    as [Hr Hh]; [vm_compute; reflexivity|vm_compute; reflexivity|].
  assert (Hb : reported_presence (peer_of before "peer") = PresenceConnecting)
    by (vm_compute; reflexivity).
  assert (Ha : reported_presence (peer_of a_net "peer") = PresenceOnline)
    by (vm_compute; reflexivity).
  split; [exact Hb|]. split; [rewrite <-Hr; exact Ha|].
  destruct (Hh Ha) as [Hx|Hx]; [rewrite Hb in Hx; discriminate Hx|exact Hx].
Defined.

Lemma the_order_lists (m : gmap string PeerState) uid : is_Some (m !! uid) → uid ∈ the_order m.
Proof.
  intros [p Hp]. apply list_elem_of_fmap. exists (uid, p). split; [done|].
  by apply elem_of_map_to_list.
Qed.

Lemma presence_is_fresh_witness :
  is_fresh cfg 5000 (peer_of (heartbeats (a_turn 5000 []) the_order cfg a_net) "peer").
Proof.
  apply (presence_is_fresh the_order cfg (a_turn 5000 []) a_net "peer").
  - intros uid. apply the_order_lists.
  - vm_compute. reflexivity.
Defined.

(** Three frames, the second of which is larger than the stream takes. *)
Definition waiting_peer : PeerState :=
  set_pending (set_stream (new_peer "peer") 1 true true)
    [(kApplication, [1]); (kApplication, repeat 7 30); (kControl, [2])].
Definition waiting_log : list Effect := Queued "peer" <$> pending_out waiting_peer.
Definition small_info : StreamInfo := mkInfo kLinked 16 32 true.

Lemma waiting_peer_ok : peer_ok "peer" waiting_log waiting_peer.
Proof.
  split; try done; try (vm_compute; lia).
  apply (bool_decide_unpack (NoDup (flight waiting_peer))). by vm_compute.
Qed.

Lemma pump_drains_witness : ∃ q e,
  pump_rounds cfg small_info 0 4 waiting_peer = (q, e) ∧ pending_out q = [] ∧
  e ≫= taken = pending_out waiting_peer.
Proof.
  apply (pump_drains "peer" waiting_log waiting_peer cfg small_info 0);
    [apply waiting_peer_ok|reflexivity|vm_compute; discriminate|reflexivity|vm_compute; reflexivity].
Defined.

(** The peer is closed and opened again ten seconds later. *)
Definition closed : Net :=
  (Start the_order cfg [] (a_run ++ [Command_ (kClosePeer "peer"); Turn_ (a_turn 1300 [])])).1.

Lemma reopened_peer_is_offline_witness :
  reported_presence (peer_of closed "peer") = PresenceOffline ∧
  ∃ e, effects (heartbeat (a_turn 11300 []) cfg
                  (open_peer_internal (a_turn 11300 []) closed "peer") "peer") =
       effects (open_peer_internal (a_turn 11300 []) closed "peer") ++ e ++
       [OnPresence "peer" PresenceOffline].
Proof.
  split; [vm_compute; reflexivity|].
  apply (reopened_peer_is_offline (a_turn 11300 []) cfg closed "peer" (peer_of closed "peer"));
    try (vm_compute; reflexivity); try (vm_compute; discriminate).
  vm_compute. by eexists.
Defined.
End Examples.
