(* ===== verification/ChatApp.v ===== *)
(** * The window of the chat demo

    Models examples/chat_demo/windows/win_chat_app.h and .cpp: the state of the user interface
    of a chat, what the controls show, and the calls to the session.  The window system is
    an input: what the user has typed, what the controls measure; calls to the session are
    kept in a list.  Module [Gtk] has the parts of linux/linux_chat_app.cpp that differ.

    A text of a control is a list of UTF-16 units ([Utf8ToUtf16] and its inverse call the
    system, as does [MulDiv]). *)
From Stdlib Require Import Floats.SpecFloat.
From S2P Require Import Prelude Aether SharedEvent Node LinkSync SharedNode ChatModel ChatJoin.
From S2P Require Import PublicationChannel ChatOutput.

Definition wtext : Type := list Z.

(** Conversions of the system, and a conversion of scale.  [wide_literal]: the value of a
    literal of two characters. *)
Class WindowSystem := {
  Utf8ToUtf16 : string → wtext;
  Utf16ToUtf8 : wtext → string;
  MulDiv : Z → Z → Z → Z;
  wide_literal : Z → Z → Z;
  Utf8ToUtf16_empty : Utf8ToUtf16 "" = [];
  Utf16ToUtf8_empty : Utf16ToUtf8 [] = "";
  MulDiv_same a b : b ≠ 0 → MulDiv a b b = a
}.

(** ** The mirrored workspace *)

(** The objects of the user interface's Domain: the fields of those of the model. *)
Record Mirror := mkMirror {
  ui_workspace : ChatWorkspaceFields;
  ui_entries : gmap Z ChatEntryFields;
  ui_rooms : gmap Z (SharedFields ChatRoomFields)
}.

(** ** State *)

Record DraftEditState := mkDraft {
  local_edit_revision : Z;
  last_published_edit_revision : Z;
  local_draft : string;
  sel : Z * Z
}.

Record EntryViewState := mkView {
  edit : DraftEditState;
  live_scroll : option ScrollAnchor
}.
Definition new_view : EntryViewState := mkView (mkDraft 0 0 "" (0, 0)) None.

Record TranscriptCache := mkCache {
  cache_entry : Z;
  message_count : Z;
  last_message_id : SharedEventId
}.

(** Where the transcript was last scrolled to. *)
Inductive ScrollTarget := ToBottom | ToTop | ToMessage (pos : Z) (offset : spec_float).

(** [action]: the text of the button and whether it is enabled; [uid_field]: the text of the
    host's uid; [error]: the shown error. *)
Record Controls := mkControls {
  draft_text : wtext;
  draft_sel : Z * Z;
  transcript : wtext;
  scrolled : option ScrollTarget;
  chat_list : list wtext;
  list_selection : option Z;
  send_enabled : bool;
  uid_field : wtext;
  action : string * bool;
  error : option string
}.

(** Calls of the session and of the system. *)
Inductive Call :=
| EditDraft (entry : Z) (text : string) (revision : Z)
| SendDraft (entry : Z) (text : string) (revision : Z)
| SelectChat_ (entry : Z)
| SaveScroll (entry : Z) (anchor : ScrollAnchor)
| SaveBounds (bounds : DesktopBounds)
| SetHostUidInput_ (text : string)
| JoinHost
| RequestCopyHostUid
| RequestStop_
| Join_
| SetClipboard (text : wtext)
| PlaceWindow (bounds : DesktopBounds)
| SetTimer
| KillTimer
| DestroyWindow
| PostQuitMessage.

Record App := mkApp {
  app_role : DemoRole;
  mirror : option Mirror;
  entry_views : gmap Z EntryViewState;
  pending_user_selection : option Z;
  active_entry_id : Z;
  displayed_entry_id : Z;
  cache : TranscriptCache;
  positions : list (SharedEventId * Z);
  applying_view : bool;
  closing : bool;
  geometry_restored : bool;
  pending_scroll_save : option ScrollAnchor;
  last_scroll_save_time : Z;
  pending_send_revision : Z;
  local_send_error : string;
  last_copy_request_id : Z;
  controls : Controls;
  calls : list Call
}.

Section setters.
Implicit Types a : App.

Definition with_mirror a m := mkApp (app_role a) m (entry_views a) (pending_user_selection a)
  (active_entry_id a) (displayed_entry_id a) (cache a) (positions a) (applying_view a) (closing a)
  (geometry_restored a) (pending_scroll_save a) (last_scroll_save_time a)
  (pending_send_revision a) (local_send_error a) (last_copy_request_id a) (controls a) (calls a).
Definition with_view a id v := mkApp (app_role a) (mirror a) (<[id := v]> (entry_views a))
  (pending_user_selection a) (active_entry_id a) (displayed_entry_id a) (cache a) (positions a)
  (applying_view a) (closing a) (geometry_restored a) (pending_scroll_save a)
  (last_scroll_save_time a) (pending_send_revision a) (local_send_error a)
  (last_copy_request_id a) (controls a) (calls a).
Definition with_selection a pending active displayed := mkApp (app_role a) (mirror a)
  (entry_views a) pending active displayed (cache a) (positions a) (applying_view a) (closing a)
  (geometry_restored a) (pending_scroll_save a) (last_scroll_save_time a)
  (pending_send_revision a) (local_send_error a) (last_copy_request_id a) (controls a) (calls a).
Definition with_transcript a c l := mkApp (app_role a) (mirror a) (entry_views a)
  (pending_user_selection a) (active_entry_id a) (displayed_entry_id a) c l (applying_view a)
  (closing a) (geometry_restored a) (pending_scroll_save a) (last_scroll_save_time a)
  (pending_send_revision a) (local_send_error a) (last_copy_request_id a) (controls a) (calls a).
Definition with_flags a applying close restored := mkApp (app_role a) (mirror a) (entry_views a)
  (pending_user_selection a) (active_entry_id a) (displayed_entry_id a) (cache a) (positions a)
  applying close restored (pending_scroll_save a) (last_scroll_save_time a)
  (pending_send_revision a) (local_send_error a) (last_copy_request_id a) (controls a) (calls a).
Definition with_scroll a pending time := mkApp (app_role a) (mirror a) (entry_views a)
  (pending_user_selection a) (active_entry_id a) (displayed_entry_id a) (cache a) (positions a)
  (applying_view a) (closing a) (geometry_restored a) pending time (pending_send_revision a)
  (local_send_error a) (last_copy_request_id a) (controls a) (calls a).
Definition with_send a revision error := mkApp (app_role a) (mirror a) (entry_views a)
  (pending_user_selection a) (active_entry_id a) (displayed_entry_id a) (cache a) (positions a)
  (applying_view a) (closing a) (geometry_restored a) (pending_scroll_save a)
  (last_scroll_save_time a) revision error (last_copy_request_id a) (controls a) (calls a).
Definition with_copy_request a id := mkApp (app_role a) (mirror a) (entry_views a)
  (pending_user_selection a) (active_entry_id a) (displayed_entry_id a) (cache a) (positions a)
  (applying_view a) (closing a) (geometry_restored a) (pending_scroll_save a)
  (last_scroll_save_time a) (pending_send_revision a) (local_send_error a) id (controls a) (calls a).
Definition with_controls a c := mkApp (app_role a) (mirror a) (entry_views a)
  (pending_user_selection a) (active_entry_id a) (displayed_entry_id a) (cache a) (positions a)
  (applying_view a) (closing a) (geometry_restored a) (pending_scroll_save a)
  (last_scroll_save_time a) (pending_send_revision a) (local_send_error a)
  (last_copy_request_id a) c (calls a).
Definition call a (c : Call) := mkApp (app_role a) (mirror a) (entry_views a)
  (pending_user_selection a) (active_entry_id a) (displayed_entry_id a) (cache a) (positions a)
  (applying_view a) (closing a) (geometry_restored a) (pending_scroll_save a)
  (last_scroll_save_time a) (pending_send_revision a) (local_send_error a)
  (last_copy_request_id a) (controls a) (calls a ++ [c]).

Definition applying a b := with_flags a b (closing a) (geometry_restored a).
End setters.

Section controls.
Implicit Types c : Controls.

Definition set_draft_text c t s := mkControls t s (transcript c) (scrolled c) (chat_list c)
  (list_selection c) (send_enabled c) (uid_field c) (action c) (error c).
Definition set_transcript c t := mkControls (draft_text c) (draft_sel c) t (scrolled c)
  (chat_list c) (list_selection c) (send_enabled c) (uid_field c) (action c) (error c).
Definition set_scrolled c s := mkControls (draft_text c) (draft_sel c) (transcript c) (Some s)
  (chat_list c) (list_selection c) (send_enabled c) (uid_field c) (action c) (error c).
Definition set_list c l s := mkControls (draft_text c) (draft_sel c) (transcript c)
  (scrolled c) l s (send_enabled c) (uid_field c) (action c) (error c).
Definition set_send_enabled c b := mkControls (draft_text c) (draft_sel c) (transcript c)
  (scrolled c) (chat_list c) (list_selection c) b (uid_field c) (action c) (error c).
Definition set_connection c u act e := mkControls (draft_text c) (draft_sel c) (transcript c)
  (scrolled c) (chat_list c) (list_selection c) (send_enabled c) u act e.
End controls.

Section app.
  Context {ids : AetherIds} {links : ChatLinks} {ws : WindowSystem}.
  Implicit Types (a : App) (m : Mirror) (entry : Z * ChatEntryFields) (v : EntryViewState).

Definition ViewStateFor a (id : Z) : EntryViewState := default new_view (entry_views a !! id).

(** The entries of the workspace whose pointer is valid, in order. *)
Definition valid_entries m : list (Z * ChatEntryFields) :=
  omap (λ p, id ← p; e ← ui_entries m !! id; Some (id, e)) (chats (ui_workspace m)).

Definition FindUiEntry a (id : Z) : option (Z * ChatEntryFields) :=
  m ← mirror a;
  if negb (ObjId_is_valid id) then None
  else list_find (λ e, e.1 = id) (valid_entries m) ≫= λ r, Some r.2.

(** The room of an entry. *)
Definition room_of m (e : ChatEntryFields) : option (SharedFields ChatRoomFields) :=
  r ← room e; ui_rooms m !! r.
Definition messages_of (r : SharedFields ChatRoomFields) : list MessageValue := messages (node_app r).

(** ** The transcript *)

Definition ascii_units (s : string) : wtext := bytes_of_string s.
Definition label (e : ChatEntryFields) : wtext :=
  Utf8ToUtf16 (if String.eqb (display_name e) "" then peer_uid e else display_name e).

Definition FormatTranscriptLine m (e : ChatEntryFields) (msg : MessageValue) : wtext :=
  let uid := local_endpoint_uid (ui_workspace m) in
  let author :=
    if negb (String.eqb uid "") && String.eqb (origin_uid (message_id msg)) uid
    then ascii_units "You" else label e in
  ascii_units "[" ++ author ++ ascii_units "]: " ++ Utf8ToUtf16 (message_text msg) ++ [13; 10].

Definition format_all m e (l : list MessageValue) : wtext := l ≫= FormatTranscriptLine m e.

(** The position of each message; [pos]: that of the first one. *)
Fixpoint positions_from m (e : ChatEntryFields) (pos : Z) (l : list MessageValue)
    : list (SharedEventId * Z) :=
  match l with
  | [] => []
  | msg :: l => (message_id msg, pos) :: positions_from m e (pos + zlen (FormatTranscriptLine m e msg)) l
  end.

Definition RebuildMessageCharPositions a m (e : ChatEntryFields) : App :=
  with_transcript a (cache a)
    (match room_of m e with Some r => positions_from m e 0 (messages_of r) | None => [] end).

Definition MessageCharPosition a (id : SharedEventId) : Z :=
  match list_find (λ p, p.1 = id) (positions a) with Some (_, (_, pos)) => pos | None => -1 end.

Definition CanAppendTranscript a m entry : bool :=
  match room_of m entry.2 with
  | None => false
  | Some r =>
      let l := messages_of r in
      let n := message_count (cache a) in
      if negb (cache_entry (cache a) =? entry.1) then false
      else if (n =? 0) || (zlen l <=? n) then false
      else match l !! Z.to_nat (n - 1) with
           | Some prior => SharedEventId_eqb (message_id prior) (last_message_id (cache a))
           | None => false
           end
  end.

(** One line at the end of the text; [i]: the index of the message. *)
Definition append_line m (e : ChatEntryFields) a (i : Z) (msg : MessageValue) : App :=
  let c := controls a in
  let a := with_transcript a (mkCache (cache_entry (cache a)) (i + 1) (message_id msg))
             (positions a ++ [(message_id msg, zlen (transcript c))]) in
  with_controls a (set_transcript c (transcript c ++ FormatTranscriptLine m e msg)).

Fixpoint append_lines m e a (i : Z) (l : list MessageValue) : App :=
  match l with
  | [] => a
  | msg :: l => append_lines m e (append_line m e a i msg) (i + 1) l
  end.

Definition AppendTranscriptLines a m (e : ChatEntryFields) (r : SharedFields ChatRoomFields) : App :=
  let from := message_count (cache a) in
  append_lines m e a from (drop (Z.to_nat from) (messages_of r)).

(** *** Scrolling *)

(** What the text control measures: whether the end is near, the character at the top, and how
    far the top of a message is from the top of the view. *)
Record Viewport := mkViewport {
  near_bottom : bool;
  first_char : Z;
  offset_of : Z → spec_float
}.

(** The message at the top, with its position. *)
Fixpoint visible_from (l : list (SharedEventId * Z)) (first text_length : Z)
    (found : SharedEventId * Z) : SharedEventId * Z :=
  match l with
  | [] => found
  | (id, start) :: l =>
      let end_ := match l with (_, next) :: _ => next | [] => text_length end in
      if (start <=? first) && (first <? end_) then (id, start)
      else visible_from l first text_length (if start <=? first then (id, start) else found)
  end.

Definition CaptureScrollAnchor a (vp : Viewport) : ScrollAnchor :=
  if near_bottom vp then default_scroll
  else
    match positions a with
    | [] => default_scroll
    | (_, start) :: _ =>
        if first_char vp <? 0 then default_scroll
        else
          let '(id, pos) := visible_from (positions a) (first_char vp)
            (zlen (transcript (controls a))) (empty_identity, start) in
          if (origin_sequence id =? 0) && String.eqb (origin_uid id) "" then default_scroll
          else mkScroll false id (offset_of vp pos)
    end.

Definition RestoreScrollAnchor a (anchor : ScrollAnchor) : App :=
  with_controls a (set_scrolled (controls a)
    (if follow_tail anchor then ToBottom
     else
       let pos := MessageCharPosition a (first_visible_message anchor) in
       if pos <? 0 then ToTop else ToMessage pos (offset_from_message_top anchor))).

(** [entry]: the entry to show, if there is one. *)
Definition UpdateTranscript a (entry : option (Z * ChatEntryFields)) (chat_switched : bool)
    (restore : option ScrollAnchor) (vp : Viewport) : App :=
  let preserve_live := negb chat_switched && negb (bool_decide (is_Some restore)) in
  let captured := CaptureScrollAnchor a vp in
  match mirror a, entry with
  | Some m, Some (id, e) =>
      match room_of m e with
      | None =>
          with_controls (with_transcript a (mkCache ObjId_none 0 empty_identity) [])
            (set_transcript (controls a) [])
      | Some r =>
          let l := messages_of r in
          let did_append := negb chat_switched && CanAppendTranscript a m (id, e) in
          let a :=
            if chat_switched || negb did_append then
              let a := RebuildMessageCharPositions a m e in
              let a := with_controls a (set_transcript (controls a) (format_all m e l)) in
              let last := match l !! (length l - 1)%nat with
                          | Some msg => message_id msg | None => last_message_id (cache a) end in
              with_transcript a (mkCache id (zlen l) last) (positions a)
            else AppendTranscriptLines a m e r in
          let a := with_selection a (pending_user_selection a) (active_entry_id a) id in
          match restore with
          | Some anchor => RestoreScrollAnchor a anchor
          | None => if preserve_live then RestoreScrollAnchor a captured else a
          end
      end
  | _, _ =>
      with_controls (with_transcript a (mkCache ObjId_none 0 empty_identity) [])
        (set_transcript (controls a) [])
  end.

(** ** The draft *)

Definition blank (ch : Z) : bool :=
  (ch =? 32) || (ch =? wide_literal 92 116) || (ch =? wide_literal 92 114) ||
  (ch =? wide_literal 92 110).

Definition UpdateSendAvailability a (st : ChatRuntimeStatus) : App :=
  let enabled :=
    match mirror a, FindUiEntry a (active_entry_id a) with
    | Some m, Some (_, e) =>
        match room_of m e with
        | Some r =>
            negb (closing a) && negb (String.eqb (status_local_uid st) "") &&
            negb (bool_decide (lifecycle_state st = ChatOutput.kFailed)) &&
            bool_decide (is_Some (peer_link e)) &&
            existsb (λ s, match link s with
                          | Some l => String.eqb (EndpointUid l) (status_local_uid st) &&
                                      (SharedNode.access s =? ShareAccess.ReadWrite)
                          | None => false
                          end) (shares r) &&
            existsb (λ ch, negb (blank ch)) (draft_text (controls a))
        | None => false
        end
    | _, _ => false
    end in
  with_controls a (set_send_enabled (controls a) enabled).

(** [EN_CHANGE] of the draft's control. *)
Definition OnDraftChanged a (st : ChatRuntimeStatus) : App :=
  if applying_view a || negb (ObjId_is_valid (active_entry_id a)) then a
  else
    let text := Utf16ToUtf8 (draft_text (controls a)) in
    let v := ViewStateFor a (active_entry_id a) in
    let rev := u64 (local_edit_revision (edit v) + 1) in
    let a := with_view a (active_entry_id a)
               (mkView (mkDraft rev (last_published_edit_revision (edit v)) text
                          (draft_sel (controls a))) (live_scroll v)) in
    UpdateSendAvailability (call a (EditDraft (active_entry_id a) text rev)) st.

(** The user changes the text. *)
Definition Type_ a (t : wtext) (s : Z * Z) (st : ChatRuntimeStatus) : App :=
  OnDraftChanged (with_controls a (set_draft_text (controls a) t s)) st.

Definition OnSendDraftClicked a : App :=
  if negb (ObjId_is_valid (active_entry_id a)) then a
  else
    let text := Utf16ToUtf8 (draft_text (controls a)) in
    if String.eqb text "" then a
    else
      let v := ViewStateFor a (active_entry_id a) in
      let rev := u64 (local_edit_revision (edit v) + 1) in
      let a := with_view a (active_entry_id a)
                 (mkView (mkDraft rev (last_published_edit_revision (edit v))
                            (local_draft (edit v)) (sel (edit v))) (live_scroll v)) in
      call (with_send a rev "") (SendDraft (active_entry_id a) text rev).

(** [ime]: an input method is composing.  [st]: as [SetWindowTextW] may notify of the change. *)
Definition UpdateDraftFromModel a entry (chat_switched ime : bool) (st : ChatRuntimeStatus) : App :=
  let '(id, e) := entry in
  let v := ViewStateFor a id in
  let d := edit v in
  if ime then with_view a id v
  else if negb (chat_switched || (local_edit_revision d <=? last_published_edit_revision d))
  then with_view a id v
  else
    let display :=
      if chat_switched && negb (String.eqb (local_draft d) "") then local_draft d else draft e in
    let a := with_view a id
               (mkView (mkDraft (local_edit_revision d) (last_published_edit_revision d) display
                          (sel d)) (live_scroll v)) in
    let w := Utf8ToUtf16 display in
    let a :=
      if bool_decide (draft_text (controls a) = w) then a
      else OnDraftChanged (with_controls a (set_draft_text (controls a) w (0, 0))) st in
    if chat_switched
    then with_controls a (set_draft_text (controls a) (draft_text (controls a)) (sel d)) else a.

(** ** Selecting a chat *)

Definition FlushPendingScrollSave a : App :=
  match pending_scroll_save a with
  | Some anchor =>
      if negb (ObjId_is_valid (active_entry_id a)) then a
      else
        let a := call a (SaveScroll (active_entry_id a) anchor) in
        let v := ViewStateFor a (active_entry_id a) in
        let a := with_view a (active_entry_id a) (mkView (edit v) (Some anchor)) in
        with_scroll a None (last_scroll_save_time a)
  | None => a
  end.

Definition SaveCurrentDraftAndScroll a (vp : Viewport) : App :=
  if negb (ObjId_is_valid (active_entry_id a)) then a
  else
    let v := ViewStateFor a (active_entry_id a) in
    let d := edit v in
    let a := with_view a (active_entry_id a)
               (mkView (mkDraft (local_edit_revision d) (last_published_edit_revision d)
                          (Utf16ToUtf8 (draft_text (controls a))) (draft_sel (controls a)))
                  (live_scroll v)) in
    let a := FlushPendingScrollSave a in
    let anchor := CaptureScrollAnchor a vp in
    let a := call a (SaveScroll (active_entry_id a) anchor) in
    with_view a (active_entry_id a)
      (mkView (edit (ViewStateFor a (active_entry_id a))) (Some anchor)).

Definition RestoreDraftAndScroll a (id : Z) (ime : bool) (st : ChatRuntimeStatus) (vp : Viewport)
    : App :=
  match FindUiEntry a id with
  | None => a
  | Some entry =>
      let a := with_selection (applying a true) (pending_user_selection a) (active_entry_id a) id in
      let a := UpdateDraftFromModel a entry true ime st in
      let a := UpdateTranscript a (Some entry) true (Some (scroll entry.2)) vp in
      applying a false
  end.

(** [index]: the selected line of the list. *)
Definition OnChatSelectionChanged a (index : nat) (ime : bool) (st : ChatRuntimeStatus)
    (vp : Viewport) : App :=
  match m ← mirror a; valid_entries m !! index with
  | None => a
  | Some (id, _) =>
      if id =? active_entry_id a then a
      else
        let a := SaveCurrentDraftAndScroll a vp in
        let a := with_selection a (Some id) id (displayed_entry_id a) in
        let a := call a (SelectChat_ id) in
        RestoreDraftAndScroll a id ime st vp
  end.

(** *** The list *)

(** The loop: the index of the selected line and the active entry. *)
Fixpoint select_line (target : Z) (l : list (Z * ChatEntryFields)) (index : Z)
    (acc : option Z * Z) : option Z * Z :=
  match l with
  | [] => acc
  | (id, _) :: l =>
      let acc := if id =? target then (Some index, acc.2) else acc in
      let acc := if negb (ObjId_is_valid acc.2) && (index =? 0) then (Some 0, id) else acc in
      select_line target l (index + 1) acc
  end.

Definition UpdateChatListSelection a : App :=
  match mirror a with
  | None => a
  | Some m =>
      let selected := selected_chat_id (ui_workspace m) in
      let target :=
        match pending_user_selection a with
        | Some id => id
        | None => if ObjId_is_valid selected then selected else active_entry_id a
        end in
      let '(line, active) := select_line target (valid_entries m) 0 (None, active_entry_id a) in
      let a := with_selection a (pending_user_selection a) active (displayed_entry_id a) in
      with_controls a (set_list (controls a) (label ∘ snd <$> valid_entries m) line)
  end.

(** ** The connection *)

Definition UpdateConnectionControls a (st : ChatRuntimeStatus) : App :=
  let c := controls a in
  match app_role a with
  | kHost =>
      let have_uid := negb (String.eqb (status_local_uid st) "") in
      with_controls a (set_connection c
        (if have_uid then Utf8ToUtf16 (status_local_uid st) else Utf8ToUtf16 "Registering…")
        ((action c).1, have_uid) None)
  | _ =>
      let joining := bool_decide (status_phase st = kJoining) in
      let syncing := bool_decide (status_phase st = kAccepted) in
      let failed := bool_decide (status_phase st = ChatJoin.kFailed) in
      let text := if joining then "Joining…" else if syncing then "Syncing…" else "Join" in
      let e :=
        if negb (String.eqb (local_send_error a) "") then local_send_error a
        else if failed && negb (String.eqb (join_status_text st) "") then join_status_text st
        else if failed && negb (String.eqb (error_text st) "") then error_text st
        else "" in
      with_controls a (set_connection c (uid_field c) (text, negb (joining || syncing))
        (if String.eqb e "" then None else Some e))
  end.

Definition OnActionClicked a (input : wtext) : App :=
  match app_role a with
  | kHost => call a RequestCopyHostUid
  | _ => call (call a (SetHostUidInput_ (Utf16ToUtf8 input))) JoinHost
  end.

(** ** Geometry *)

Definition kLogicalDpi : Z := 96.

(** A rectangle: left, top, right, bottom. *)
Record Rect := mkRect { left : Z; top : Z; right : Z; bottom : Z }.

Definition CaptureBoundsLogical (rc : Rect) (dpi : Z) (is_maximized : bool) : DesktopBounds :=
  mkBounds true (MulDiv (left rc) kLogicalDpi dpi) (MulDiv (top rc) kLogicalDpi dpi)
    (MulDiv (right rc - left rc) kLogicalDpi dpi) (MulDiv (bottom rc - top rc) kLogicalDpi dpi)
    is_maximized.

(** The rectangle moved and shrunk into the work area of a monitor. *)
Definition clamp (rc work : Rect) : Rect :=
  let w := Z.min (right rc - left rc) (right work - left work) in
  let h := Z.min (bottom rc - top rc) (bottom work - top work) in
  let x := left rc in
  let x := if right work <? x + w then right work - w else x in
  let x := if x <? left work then left work else x in
  let y := top rc in
  let y := if bottom work <? y + h then bottom work - h else y in
  let y := if y <? top work then top work else y in
  mkRect x y (x + w) (y + h).

(** [off_screen]: no monitor has a part of the rectangle; [work]: the work area of the nearest
    one, if the system tells it. *)
Definition ApplyBoundsLogical (bounds : DesktopBounds) (dpi : Z) (off_screen : Rect → bool)
    (work : option Rect) : option (Rect * bool) :=
  if negb (valid bounds) || (width bounds <=? 0) || (height bounds <=? 0) then None
  else
    let rc := mkRect (MulDiv (x bounds) dpi kLogicalDpi) (MulDiv (y bounds) dpi kLogicalDpi)
                (MulDiv (x bounds + width bounds) dpi kLogicalDpi)
                (MulDiv (y bounds + height bounds) dpi kLogicalDpi) in
    Some (match work with
          | Some w => if off_screen rc then clamp rc w else rc
          | None => rc
          end, maximized bounds).

Definition RestoreWindowGeometry a : App :=
  match mirror a with
  | Some m =>
      if geometry_restored a then a
      else
        call (with_flags a (applying_view a) (closing a) true)
          (PlaceWindow (desktop_bounds (ui_workspace m)))
  | None => a
  end.

(** [captured]: what [CaptureBoundsLogical] gives, while the window is there. *)
Definition PersistWindowGeometry a (captured : option DesktopBounds) : App :=
  match captured with
  | Some b => if closing a then a
              else if (0 <? width b) && (0 <? height b) then call a (SaveBounds b) else a
  | None => a
  end.

(** ** Updates from the session *)

Definition UpdateUiFromWorkspace a (chat_switched ime : bool) (st : ChatRuntimeStatus)
    (vp : Viewport) : App :=
  match mirror a with
  | None => a
  | Some _ =>
      let a := UpdateChatListSelection (applying a true) in
      let selection_changed :=
        chat_switched || (ObjId_is_valid (displayed_entry_id a) &&
                          negb (displayed_entry_id a =? active_entry_id a)) in
      let a := if selection_changed
               then with_selection a (pending_user_selection a) (active_entry_id a) (active_entry_id a)
               else a in
      let a :=
        match FindUiEntry a (active_entry_id a) with
        | Some entry =>
            let a := UpdateDraftFromModel a entry selection_changed ime st in
            let restore :=
              if selection_changed then
                Some (default (scroll entry.2) (live_scroll (ViewStateFor a entry.1)))
              else None in
            UpdateTranscript a (Some entry) selection_changed restore vp
        | None => UpdateTranscript a None selection_changed None vp
        end in
      applying (UpdateSendAvailability (UpdateConnectionControls a st) st) false
  end.

(** [apply_publication]: the mirror after the first publication, or after one that is applied to
    the mirror that is there. *)
Variable apply_publication : option Mirror → bytes → Mirror.

Definition take_copy a (c : option CopyHostUidEffect) : App :=
  match c with
  | Some c =>
      if request_id c =? last_copy_request_id a then a
      else call (with_copy_request a (request_id c)) (SetClipboard (Utf8ToUtf16 (uid_text c)))
  | None => a
  end.

(** The publication of an update, and whether it switches the chat. *)
Definition take_publication a (bs : bytes) : App * bool :=
  let m := apply_publication (mirror a) bs in
  let selected := selected_chat_id (ui_workspace m) in
  match mirror a with
  | None =>
      let a := RestoreWindowGeometry (with_mirror a (Some m)) in
      (if negb (ObjId_is_valid (active_entry_id a)) && ObjId_is_valid selected
       then with_selection a (pending_user_selection a) selected (displayed_entry_id a) else a,
       false)
  | Some _ =>
      let a := with_mirror a (Some m) in
      if bool_decide (pending_user_selection a = None) && ObjId_is_valid selected &&
         negb (selected =? active_entry_id a)
      then (with_selection a None selected (displayed_entry_id a), true)
      else (a, false)
  end.

Definition take_ack a (ack : option Z) : App :=
  if bool_decide (is_Some ack) && bool_decide (pending_user_selection a = ack)
  then with_selection a None (active_entry_id a) (displayed_entry_id a) else a.

Definition take_revision a (r : Z * Z) : App :=
  let '(id, rev) := r in
  let v := ViewStateFor a id in
  let d := edit v in
  let a := with_view a id
             (mkView (mkDraft (local_edit_revision d) rev (local_draft d) (sel d)) (live_scroll v)) in
  if (id =? active_entry_id a) && (pending_send_revision a =? rev) then with_send a 0 "" else a.

(** The body of the loop; whether there was a publication and whether it switched the chat. *)
Definition take_update (acc : App * bool * bool) (u : ChatUiUpdate) : App * bool * bool :=
  let '(a, had, switched) := acc in
  let a := take_copy a (update_copy u) in
  match publication u with
  | None => (a, had, switched)
  | Some (bs, meta) =>
      let '(a, had, switched) :=
        if bool_decide (bs = []) then (a, had, switched)
        else let '(a, s) := take_publication a bs in (a, true, switched || s) in
      let a := take_ack a (meta_selected_chat_ack meta) in
      (foldl take_revision a (map_to_list (edit_revisions_by_entry meta)), had, switched)
  end.

(** [updates]: what [TryTakeUiUpdate] gives until there is none. *)
Definition ConsumeUiUpdates a (updates : list ChatUiUpdate) (ime : bool) (st : ChatRuntimeStatus)
    (vp : Viewport) : App :=
  let '(a, had, switched) := foldl take_update (a, false, false) updates in
  let a := if negb (pending_send_revision a =? 0)
           then with_send a (pending_send_revision a) "Message not sent" else a in
  if had || bool_decide (is_Some (mirror a)) then UpdateUiFromWorkspace a switched ime st vp
  else UpdateSendAvailability (UpdateConnectionControls a st) st.

(** ** Closing *)

(** Whether [main_hwnd_] is set: it is reset when the window is destroyed. *)
Definition has_window a : bool :=
  negb (existsb (λ c, match c with DestroyWindow => true | _ => false end) (calls a)).

Definition TryFinishClosing a (finished : bool) : App :=
  if closing a && finished then
    let a := call a Join_ in
    if has_window a then call a DestroyWindow else a
  else a.

Definition ApplyPublicationFromSession a updates ime st vp (finished : bool) : App :=
  TryFinishClosing (ConsumeUiUpdates a updates ime st vp) finished.

(** [WM_CLOSE] *)
Definition OnClose a (vp : Viewport) (captured : option DesktopBounds) (finished : bool) : App :=
  if closing a then a
  else
    let a := PersistWindowGeometry (SaveCurrentDraftAndScroll a vp) captured in
    let a := with_flags a (applying_view a) true (geometry_restored a) in
    TryFinishClosing (call a RequestStop_) finished.

Definition kScrollCoalesceMs : Z := 200.

(** [EN_VSCROLL]; [now]: the steady clock, in milliseconds. *)
Definition OnVScroll a (vp : Viewport) (now : Z) : App :=
  if applying_view a || negb (ObjId_is_valid (active_entry_id a)) then a
  else
    let anchor := CaptureScrollAnchor a vp in
    let a := with_scroll a (Some anchor) (last_scroll_save_time a) in
    let v := ViewStateFor a (active_entry_id a) in
    let a := with_view a (active_entry_id a) (mkView (edit v) (Some anchor)) in
    if kScrollCoalesceMs <=? now - last_scroll_save_time a
    then FlushPendingScrollSave (with_scroll a (Some anchor) now) else a.

(** ** Messages *)

(** What the session and the system say when a message is handled. *)
Record World := mkWorld {
  w_updates : list ChatUiUpdate;
  w_status : ChatRuntimeStatus;
  w_finished : bool;
  w_ime : bool;
  w_viewport : Viewport;
  w_captured : option DesktopBounds;
  w_now : Z
}.

(** The messages that concern the state; the others lay out the controls.  The commands of the
    controls carry what the control holds. *)
Inductive Message :=
| WM_EXITSIZEMOVE
| WM_TIMER (settle : bool)
| ActionClicked (uid : wtext)
| SendClicked
| SelChange (index : option nat)
| Change (text : wtext) (selection : Z * Z)
| VScroll
| WM_CHAT_PUBLISHED
| WM_CHAT_STATUS_NOTIFY
| WM_CLOSE
| WM_DESTROY.

Definition HandleMain a (w : World) (msg : Message) : App :=
  match msg with
  | WM_EXITSIZEMOVE => call (call a KillTimer) SetTimer
  | WM_TIMER settle => if settle then PersistWindowGeometry (call a KillTimer) (w_captured w) else a
  | ActionClicked uid => OnActionClicked a uid
  | SendClicked => OnSendDraftClicked a
  | SelChange index =>
      match index with
      | Some i => OnChatSelectionChanged a i (w_ime w) (w_status w) (w_viewport w)
      | None => a
      end
  | Change text selection => Type_ a text selection (w_status w)
  | VScroll => OnVScroll a (w_viewport w) (w_now w)
  | WM_CHAT_PUBLISHED | WM_CHAT_STATUS_NOTIFY =>
      ApplyPublicationFromSession a (w_updates w) (w_ime w) (w_status w) (w_viewport w) (w_finished w)
  | WM_CLOSE => OnClose a (w_viewport w) (w_captured w) (w_finished w)
  | WM_DESTROY => call a PostQuitMessage
  end.

Definition run_messages a (l : list (World * Message)) : App :=
  foldl (λ a x, HandleMain a x.1 x.2) a l.
End app.
#[global] Arguments FormatTranscriptLine : simpl never.

(** ** The window of GTK *)

(** From linux/linux_chat_app.cpp.  A text is its bytes; the lines are inserted into the buffer
    where the iterator is, which begins at the start of the buffer. *)
Module Gtk.
Section gtk.
  Context {ids : AetherIds}.
  Implicit Types (m : Mirror) (e : ChatEntryFields).

Definition GetEntryLabel e : string :=
  if String.eqb (display_name e) "" then peer_uid e else display_name e.

Definition FormatLine m e (msg : MessageValue) : string :=
  let uid := local_endpoint_uid (ui_workspace m) in
  let author :=
    if negb (String.eqb uid "") && String.eqb (origin_uid (message_id msg)) uid
    then "You"%string else GetEntryLabel e in
  String.append "[" (String.append author
    (String.append "]: " (String.append (message_text msg) (String (Ascii.ascii_of_nat 10) "")))).

Definition lines m e (l : list MessageValue) : string :=
  foldr (λ msg s, String.append (FormatLine m e msg) s) ""%string l.

(** What [RebuildMessageMarks] leaves in the buffer. *)
Definition rebuild m e (r : SharedFields ChatRoomFields) (buffer : string) : string :=
  String.append (lines m e (messages_of r)) buffer.

Definition append m e (from : Z) (r : SharedFields ChatRoomFields) (buffer : string) : string :=
  String.append buffer (lines m e (drop (Z.to_nat from) (messages_of r))).

Definition can_append m (c : TranscriptCache) (entry : Z * ChatEntryFields) : bool :=
  match room_of m entry.2 with
  | None => false
  | Some r =>
      let l := messages_of r in
      let n := message_count c in
      if negb (cache_entry c =? entry.1) then false
      else if (n =? 0) || (zlen l <=? n) then false
      else match l !! Z.to_nat (n - 1) with
           | Some prior => SharedEventId_eqb (message_id prior) (last_message_id c)
           | None => false
           end
  end.

(** The buffer and the cache of [UpdateTranscript]; the scrolling is as in the other window. *)
Definition UpdateTranscript_buffer m (entry : option (Z * ChatEntryFields)) (chat_switched : bool)
    (buffer : string) (c : TranscriptCache) : string * TranscriptCache :=
  match entry with
  | None => ("", mkCache ObjId_none 0 empty_identity)
  | Some (id, e) =>
      match room_of m e with
      | None => ("", mkCache ObjId_none 0 empty_identity)
      | Some r =>
          let l := messages_of r in
          let last := match l !! (length l - 1)%nat with
                      | Some msg => message_id msg | None => last_message_id c end in
          if chat_switched || negb (can_append m c (id, e))
          then (rebuild m e r buffer, mkCache id (zlen l) last)
          else (append m e (message_count c) r buffer, mkCache (cache_entry c) (zlen l) last)
      end
  end%string.

(** *** The status *)

Definition status_text (send_error : string) (st : ChatRuntimeStatus) : string :=
  if negb (String.eqb send_error "") then String.append "Error: " send_error
  else if negb (String.eqb (error_text st) "") then String.append "Error: " (error_text st)
  else if bool_decide (lifecycle_state st = ChatOutput.kFailed) then "Connection failed"
  else match local_connectivity st with
       | kUnknown => "Starting..."
       | kOffline => "Local Aether offline"
       | kOnline =>
           if negb (String.eqb (status_local_uid st) "")
           then String.append "UID: " (status_local_uid st) else "Starting..."
       end.

Definition presence_text_of (st : ChatRuntimeStatus) (peer : string) : string :=
  match room_bootstrap_by_peer_uid st !! peer with
  | Some BootstrapPending => "Syncing..."
  | Some BootstrapNotStarted => "Waiting room"
  | _ =>
      match remote_presence st !! peer with
      | Some PresenceOnline => "Online"
      | Some PresenceConnecting => "Connecting..."
      | Some PresenceOffline => "Offline"
      | Some PresenceUnknown => "Unknown"
      | None => ""
      end
  end.

Definition delivery_text (st : ChatRuntimeStatus) (l : list MessageValue) : string :=
  match l !! (length l - 1)%nat with
  | Some msg =>
      match delivery_by_event_id st !! message_id msg with
      | Some DeliveryDelivered => " | Delivered"
      | Some DeliverySending => " | Sending"
      | Some DeliveryQueued => " | Queued"
      | _ => ""
      end
  | None => ""
  end.

(** The labels, and whether the button that sends is enabled. *)
Definition UpdateStatusLine `{ChatLinks} m (entry : option ChatEntryFields) (send_error : string)
    (st : ChatRuntimeStatus) : string * string * bool :=
  let presence :=
    match entry with
    | Some e =>
        match peer_link e with
        | Some l =>
            String.append (presence_text_of st (EndpointUid l))
              (match room_of m e with Some r => delivery_text st (messages_of r) | None => "" end)
        | None => ""
        end
    | None => ""
    end%string in
  (status_text send_error st, presence,
   negb (String.eqb (status_local_uid st) "") &&
   match entry with Some e => bool_decide (is_Some (room_of m e)) | None => false end).
End gtk.
End Gtk.
