(* ===== verification/ChatAppTheory.v ===== *)
(** * What the window of the chat shows, and what it sends

    On ChatApp.v: the transcript is that of the room, however it is brought up to date; a text
    that the session has not answered is not overwritten; a selection of the user stays until
    it is acknowledged; and showing an update sends nothing to the session. *)
From Stdlib Require Import Floats.SpecFloat.
From S2P Require Import Prelude Aether SharedEvent Node LinkSync SharedNode ChatModel ChatJoin.
From S2P Require Import PublicationChannel ChatOutput ChatApp.

(** ** A list that has grown *)

(** The last element of a sublist is not before its length. *)
Lemma sublist_last_index {A} (k l : list A) x n i :
  k `sublist_of` l → length k = S n → k !! n = Some x → NoDup l → l !! i = Some x → (n ≤ i)%nat.
Proof.
  intros Hs. revert n i. induction Hs as [|y k l Hs IH|y k l Hs IH]; intros n i Hn Hk Hnd Hl; [done| |].
  - apply list.NoDup_cons in Hnd as [Hy Hnd]. destruct n as [|n]; [lia|].
    simpl in *. destruct i as [|i]; simpl in Hl.
    + simplify_eq. exfalso. apply Hy. eapply elem_of_sublist; [|exact Hs].
      by eapply list_elem_of_lookup_2.
    + apply le_n_S. by apply (IH n i); [lia|..].
  - apply list.NoDup_cons in Hnd as [Hy Hnd]. destruct i as [|i]; simpl in Hl.
    + simplify_eq. exfalso. apply Hy. eapply elem_of_sublist; [|exact Hs].
      by eapply list_elem_of_lookup_2.
    + specialize (IH n i Hn Hk Hnd Hl). lia.
Qed.

(** A list that has kept its order and has the old last element at the old place has grown at
    its end only. *)
Lemma grown_at_end {A} (k l : list A) x n :
  k `sublist_of` l → length k = S n → NoDup l → k !! n = Some x → l !! n = Some x →
  k = take (S n) l.
Proof.
  intros Hs. revert n. induction Hs as [|y k l Hs IH|y k l Hs IH]; intros n Hn Hnd Hk Hl; [done| |];
    apply list.NoDup_cons in Hnd as [Hy Hnd].
  - simpl in *. f_equal. destruct n as [|n].
    + by destruct k.
    + apply IH; [lia|done..].
  - exfalso. destruct n as [|n]; simpl in Hl.
    + simplify_eq. apply Hy. eapply elem_of_sublist; [|exact Hs]. by eapply list_elem_of_lookup_2.
    + pose proof (sublist_last_index _ _ _ _ _ Hs Hn Hk Hnd Hl). lia.
Qed.

Lemma NoDup_fmap_eq {A B} (f : A → B) l x y :
  NoDup (f <$> l) → x ∈ l → y ∈ l → f x = f y → x = y.
Proof.
  intros Hnd [i Hi]%list_elem_of_lookup [j Hj]%list_elem_of_lookup Hf.
  assert (i = j) as <-; [|congruence].
  eapply NoDup_lookup; [exact Hnd| |]; rewrite list_lookup_fmap, ?Hi, ?Hj; simpl; by rewrite ?Hf.
Qed.

Section theory.
  Context {ids : AetherIds} {links : ChatLinks} {ws : WindowSystem}.
  Implicit Types (a : App) (m : Mirror) (entry : Z * ChatEntryFields).

(** ** The transcript *)

(** The transcript of these messages, with its positions, as the cache says. *)
Definition shows a m (e : ChatEntryFields) (l : list MessageValue) : Prop :=
  message_count (cache a) = zlen l ∧
  (∀ msg, l !! (length l - 1)%nat = Some msg → last_message_id (cache a) = message_id msg) ∧
  positions a = positions_from m e 0 l ∧ transcript (controls a) = format_all m e l.

Lemma format_all_app m e k l : format_all m e (k ++ l) = format_all m e k ++ format_all m e l.
Proof. apply bind_app. Qed.

Lemma positions_from_app m e pos k l :
  positions_from m e pos (k ++ l) =
  positions_from m e pos k ++ positions_from m e (pos + zlen (format_all m e k)) l.
Proof.
  revert pos. induction k as [|msg k IH]; intros pos; cbn [positions_from app].
  - by rewrite Z.add_0_r.
  - f_equal. rewrite IH, (format_all_app m e [msg] k : format_all m e (msg :: k) = _), zlen_app.
    do 2 f_equal. unfold format_all at 2. cbn [mbind list_bind app]. rewrite app_nil_r. lia.
Qed.

(** What the transcript's operations leave. *)
Definition same_rest (a b : App) : Prop :=
  mirror b = mirror a ∧ entry_views b = entry_views a ∧
  pending_user_selection b = pending_user_selection a ∧ active_entry_id b = active_entry_id a ∧
  applying_view b = applying_view a ∧ draft_text (controls b) = draft_text (controls a) ∧
  draft_sel (controls b) = draft_sel (controls a) ∧ calls b = calls a ∧
  pending_send_revision b = pending_send_revision a ∧ local_send_error b = local_send_error a.

Lemma same_rest_trans a b c : same_rest a b → same_rest b c → same_rest a c.
Proof. unfold same_rest. intros (?&?&?&?&?&?&?&?&?&?) (?&?&?&?&?&?&?&?&?&?). split_and!; congruence. Qed.

Lemma append_lines_shows m e l : ∀ a k,
  shows a m e k → shows (append_lines m e a (zlen k) l) m e (k ++ l) ∧
  same_rest a (append_lines m e a (zlen k) l) ∧
  cache_entry (cache (append_lines m e a (zlen k) l)) = cache_entry (cache a).
Proof.
  induction l as [|msg l IH]; intros a k (Hc & Hlast & Hpos & Htext); simpl.
  { rewrite app_nil_r. done. }
  assert (Hs : shows (append_line m e a (zlen k) msg) m e (k ++ [msg])).
  { unfold append_line. split; [|split; [|split]]; simpl.
    - by rewrite zlen_app.
    - rewrite length_app. simpl. intros msg'. rewrite lookup_app_r by lia.
      replace (length k + 1 - 1 - length k)%nat with 0%nat by lia. by intros [= <-].
    - by rewrite Hpos, Htext, positions_from_app.
    - rewrite Htext, format_all_app. unfold format_all at 2. simpl. by rewrite app_nil_r. }
  destruct (IH _ _ Hs) as (H1 & H2 & H3). rewrite zlen_app in *. unfold zlen at 2 in H1.
  replace (zlen k + zlen [msg]) with (zlen k + 1) in * by done.
  rewrite <-app_assoc in H1. split; [exact H1|]. split; [|exact H3]. exact H2.
Qed.

Lemma RestoreScrollAnchor_shows a anchor m e l :
  shows a m e l → shows (RestoreScrollAnchor a anchor) m e l.
Proof. done. Qed.

(** C30. After a transcript is brought up to date it is that of the messages of the room, one
    formatted line after the other, and the position that is recorded of each message is
    where its line begins, whether the text was built again or lines were appended.  The
    messages that were shown may have been joined by others at any place; what is needed is
    that none has gone, that their identities differ, and that the authors' names are
    those with which they were formatted. *)
Theorem transcript_shows_room a m id e r switched restore vp :
  mirror a = Some m → room_of m e = Some r → NoDup (message_id <$> messages_of r) →
  (cache_entry (cache a) = id → ∃ old, old `sublist_of` messages_of r ∧ shows a m e old) →
  let a' := UpdateTranscript a (Some (id, e)) switched restore vp in
  shows a' m e (messages_of r) ∧ cache_entry (cache a') = id ∧ displayed_entry_id a' = id ∧
  same_rest a a'.
Proof.
  intros Hm Hr Hnd Hold. unfold UpdateTranscript. rewrite Hm, Hr. cbv zeta.
  set (b := if switched || _ then _ else _).
  assert (Hb : shows b m e (messages_of r) ∧ cache_entry (cache b) = id ∧ same_rest a b).
  { unfold b. destruct (switched || negb (negb switched && CanAppendTranscript a m (id, e))) eqn:Hc.
    - unfold RebuildMessageCharPositions. rewrite Hr. split; [|done].
      split; [done|]. split; [|done]. intros msg Hmsg. simpl. by rewrite Hmsg.
    - apply orb_false_iff in Hc as [-> Hc]. simpl in Hc. apply negb_false_iff in Hc.
      unfold CanAppendTranscript in Hc. simpl in Hc. rewrite Hr in Hc.
      destruct (cache_entry (cache a) =? id) eqn:Hid; simpl in Hc; [|done]. breflect.
      destruct (Hold Hid) as (old & Hsub & Hs). pose proof Hs as (Hcount & Hlast & _ & _).
      rewrite Hcount in Hc. destruct (_ || _) eqn:Hn in Hc; [done|]. breflect.
      assert (Hlen : (0 < length old < length (messages_of r))%nat) by (unfold zlen in *; lia).
      assert (Hi : Z.to_nat (zlen old - 1) = (length old - 1)%nat) by (unfold zlen; lia).
      rewrite Hi in Hc.
      destruct (messages_of r !! (length old - 1)%nat) as [prior|] eqn:Hprior; [|done].
      rewrite SharedEventId_eqb_spec in Hc. breflect. rename Hc into Hp.
      destruct (old !! (length old - 1)%nat) as [last|] eqn:Holdlast.
      2:{ apply lookup_ge_None in Holdlast. lia. }
      assert (Heq : prior = last).
      { eapply (NoDup_fmap_eq message_id); [exact Hnd|by eapply list_elem_of_lookup_2| |].
        - eapply elem_of_sublist; [by eapply list_elem_of_lookup_2|exact Hsub].
        - rewrite Hp. by apply Hlast. }
      subst last.
      assert (Hgrown : old = take (length old) (messages_of r)).
      { replace (length old) with (S (length old - 1)) by lia.
        eapply grown_at_end; [done|lia|by apply NoDup_fmap_1 in Hnd|done..]. }
      unfold AppendTranscriptLines. rewrite Hcount.
      replace (Z.to_nat (zlen old)) with (length old) by (unfold zlen; lia).
      destruct (append_lines_shows m e (drop (length old) (messages_of r)) a old Hs) as (H1 & H2 & H3).
      assert (Hall : old ++ drop (length old) (messages_of r) = messages_of r)
        by (rewrite Hgrown at 1; apply take_drop).
      rewrite Hall in H1. split; [exact H1|].
      split; [by rewrite H3|exact H2]. }
  clearbody b. destruct Hb as (H1 & H2 & H3).
  destruct restore as [anchor|]; [|destruct (negb switched && _)];
    (split; [exact H1|]; split; [exact H2|]; split; [reflexivity|exact H3]).
Qed.
(** ** Showing an update *)

(** Whether a call is for the user only, not for the session. *)
Definition for_the_user (c : Call) : bool :=
  match c with SetClipboard _ | PlaceWindow _ => true | _ => false end.
Definition sends_nothing a b : Prop :=
  ∃ k, calls b = calls a ++ k ∧ Forall (λ c, for_the_user c = true) k.

Lemma sends_nothing_same a b : calls b = calls a → sends_nothing a b.
Proof. intros H. exists []. by rewrite app_nil_r. Qed.

Lemma sends_nothing_trans a b c : sends_nothing a b → sends_nothing b c → sends_nothing a c.
Proof.
  intros (k & Hk & H1) (l & Hl & H2). exists (k ++ l). rewrite Hl, Hk, app_assoc.
  split; [done|by apply Forall_app].
Qed.

Lemma ViewStateFor_with_view a id id' v :
  ViewStateFor (with_view a id v) id' = if decide (id = id') then v else ViewStateFor a id'.
Proof.
  unfold ViewStateFor. simpl. destruct (decide (id = id')) as [<-|Hne].
  - by rewrite lookup_insert_eq.
  - by rewrite lookup_insert_ne.
Qed.

(** The draft that is shown when it may be replaced. *)
Definition shown_draft (d : DraftEditState) (e : ChatEntryFields) (switched : bool) : string :=
  if switched && negb (String.eqb (local_draft d) "") then local_draft d else draft e.
Definition may_replace (d : DraftEditState) (switched ime : bool) : bool :=
  negb ime && (switched || (local_edit_revision d <=? last_published_edit_revision d)).

(** While the view is applied the change of the text is not taken for the user's. *)
Lemma UpdateDraftFromModel_spec a id e switched ime st :
  applying_view a = true →
  let a' := UpdateDraftFromModel a (id, e) switched ime st in
  let d := edit (ViewStateFor a id) in
  mirror a' = mirror a ∧ active_entry_id a' = active_entry_id a ∧ calls a' = calls a ∧
  applying_view a' = true ∧ pending_user_selection a' = pending_user_selection a ∧
  local_send_error a' = local_send_error a ∧
  draft_text (controls a') =
    (if may_replace d switched ime then Utf8ToUtf16 (shown_draft d e switched)
     else draft_text (controls a)) ∧
  local_draft (edit (ViewStateFor a' id)) =
    (if may_replace d switched ime then shown_draft d e switched else local_draft d).
Proof.
  intros Ha. unfold UpdateDraftFromModel, may_replace, shown_draft. cbv zeta.
  destruct ime; simpl.
  { rewrite ViewStateFor_with_view, decide_True by done. done. }
  case_if_dec; simpl.
  { apply negb_true_iff in Heqb. rewrite Heqb. simpl.
    rewrite ViewStateFor_with_view, decide_True by done. done. }
  apply negb_false_iff in Heqb. rewrite Heqb.
  unfold OnDraftChanged. simpl. rewrite Ha. simpl.
  set (w := Utf8ToUtf16 _).
  assert (Hv : ∀ b c i, ViewStateFor (with_controls b c) i = ViewStateFor b i) by done.
  destruct (bool_decide (draft_text (controls a) = w)) eqn:Hw; breflect; destruct switched; simpl;
    rewrite ?Hv, ?ViewStateFor_with_view, ?decide_True by done; by split_and!.
Qed.

Lemma UpdateTranscript_same_rest a shown switched restore vp :
  same_rest a (UpdateTranscript a shown switched restore vp).
Proof.
  unfold UpdateTranscript. destruct (mirror a) as [m|] eqn:Hm; [|by destruct shown].
  destruct shown as [[id e]|]; [|done]. destruct (room_of m e) as [r|] eqn:Hr; [|done]. cbv zeta.
  set (b := if switched || _ then _ else _).
  assert (Hb : same_rest a b).
  { unfold b. case_if_dec.
    - unfold RebuildMessageCharPositions. by rewrite Hr.
    - unfold AppendTranscriptLines.
      generalize (drop (Z.to_nat (message_count (cache a))) (messages_of r)) as l.
      generalize (message_count (cache a)) as i. clear. intros i l. revert a i.
      induction l as [|msg l IH]; intros a i; cbn [append_lines]; [by split_and!|].
      eapply same_rest_trans; [|apply IH]. by split_and!. }
  clearbody b. eapply same_rest_trans; [exact Hb|].
  destruct restore as [anchor|]; [done|]. by destruct (negb switched && _).
Qed.

Lemma UpdateChatListSelection_spec a :
  ObjId_is_valid (active_entry_id a) = true →
  let a' := UpdateChatListSelection a in
  mirror a' = mirror a ∧ active_entry_id a' = active_entry_id a ∧ calls a' = calls a ∧
  applying_view a' = applying_view a ∧ pending_user_selection a' = pending_user_selection a ∧
  displayed_entry_id a' = displayed_entry_id a ∧ entry_views a' = entry_views a ∧
  local_send_error a' = local_send_error a ∧ draft_text (controls a') = draft_text (controls a).
Proof.
  intros Hv. unfold UpdateChatListSelection. destruct (mirror a) as [m|] eqn:Hm; [|done]. cbv zeta.
  set (target := match pending_user_selection a with Some _ => _ | None => _ end).
  assert (Hs : ∀ l i line, (select_line target l i (line, active_entry_id a)).2 = active_entry_id a).
  { induction l as [|[id e] l IH]; intros i line; simpl; [done|].
    assert (Hc : ∀ x : option Z, negb (ObjId_is_valid (x, active_entry_id a).2) && (i =? 0) = false)
      by (intros x; simpl; by rewrite Hv).
    destruct (id =? target); rewrite Hc; apply IH. }
  specialize (Hs (valid_entries m) 0 None). destruct (select_line _ _ _ _) as [line active].
  simpl in *. subst. done.
Qed.

(** *** Nothing is sent *)

Lemma UpdateChatListSelection_calls a :
  calls (UpdateChatListSelection a) = calls a ∧
  applying_view (UpdateChatListSelection a) = applying_view a.
Proof.
  unfold UpdateChatListSelection. destruct (mirror a) as [m|]; [|done]. cbv zeta.
  by destruct (select_line _ _ _ _) as [line active].
Qed.

Lemma UpdateConnectionControls_same a st :
  same_rest a (UpdateConnectionControls a st) ∧
  displayed_entry_id (UpdateConnectionControls a st) = displayed_entry_id a.
Proof. unfold UpdateConnectionControls. by destruct (app_role a). Qed.

Lemma UpdateUiFromWorkspace_calls a switched ime st vp :
  calls (UpdateUiFromWorkspace a switched ime st vp) = calls a.
Proof.
  unfold UpdateUiFromWorkspace. destruct (mirror a) as [m|]; [|done]. cbv zeta.
  destruct (UpdateChatListSelection_calls (applying a true)) as [Hc Ha].
  set (b := UpdateChatListSelection (applying a true)) in *.
  set (changed := switched || _).
  set (b1 := if changed then _ else b).
  assert (Hb1 : calls b1 = calls a ∧ applying_view b1 = true)
    by (unfold b1; destruct changed; simpl; by rewrite Hc, Ha).
  clearbody b1 changed. clear b Hc Ha. destruct Hb1 as [Hc Ha].
  match goal with |- context [UpdateConnectionControls ?x st] => set (b2 := x) end.
  assert (Hb2 : calls b2 = calls a).
  { unfold b2. destruct (FindUiEntry b1 (active_entry_id b1)) as [[id e]|].
    - destruct (UpdateDraftFromModel_spec b1 id e changed ime st Ha) as (_ & _ & Hd & _).
      destruct (UpdateTranscript_same_rest (UpdateDraftFromModel b1 (id, e) changed ime st)
        (Some (id, e)) changed (if changed then
           Some (default (scroll (id, e).2)
             (live_scroll (ViewStateFor (UpdateDraftFromModel b1 (id, e) changed ime st) (id, e).1)))
         else None) vp) as (_ & _ & _ & _ & _ & _ & _ & Ht & _). congruence.
    - destruct (UpdateTranscript_same_rest b1 None changed None vp)
        as (_ & _ & _ & _ & _ & _ & _ & Ht & _). congruence. }
  clearbody b2. destruct (UpdateConnectionControls_same b2 st)
    as [(_ & _ & _ & _ & _ & _ & _ & Hcc & _) _].
  simpl. congruence.
Qed.

Section updates.
  Context (apply_publication : option Mirror → bytes → Mirror).

Lemma take_revisions_keep l a :
  let a' := foldl take_revision a l in
  mirror a' = mirror a ∧ active_entry_id a' = active_entry_id a ∧ calls a' = calls a ∧
  pending_user_selection a' = pending_user_selection a ∧ controls a' = controls a ∧
  displayed_entry_id a' = displayed_entry_id a ∧
  (∀ id, local_draft (edit (ViewStateFor a' id)) = local_draft (edit (ViewStateFor a id)) ∧
         local_edit_revision (edit (ViewStateFor a' id)) = local_edit_revision (edit (ViewStateFor a id))).
Proof.
  revert a. induction l as [|[id rev] l IH]; intros a; [done|]. cbn [foldl].
  set (b := take_revision a (id, rev)).
  assert (Hb : mirror b = mirror a ∧ active_entry_id b = active_entry_id a ∧ calls b = calls a ∧
    pending_user_selection b = pending_user_selection a ∧ controls b = controls a ∧
    displayed_entry_id b = displayed_entry_id a ∧
    ∀ id', local_draft (edit (ViewStateFor b id')) = local_draft (edit (ViewStateFor a id')) ∧
      local_edit_revision (edit (ViewStateFor b id')) = local_edit_revision (edit (ViewStateFor a id'))).
  { unfold b, take_revision. set (c := with_view a id _).
    assert (Hv : ∀ id', local_draft (edit (ViewStateFor c id')) = local_draft (edit (ViewStateFor a id')) ∧
      local_edit_revision (edit (ViewStateFor c id')) = local_edit_revision (edit (ViewStateFor a id'))).
    { intros id'. unfold c. rewrite ViewStateFor_with_view. by destruct (decide (id = id')) as [<-|]. }
    case_if_dec; split_and!; done. }
  clearbody b. destruct Hb as (?&?&?&?&?&?&Hv). destruct (IH b) as (?&?&?&?&?&?&Hv').
  split_and!; try congruence. intros id'. destruct (Hv id'), (Hv' id'). split; congruence.
Qed.

(** What taking updates leaves: the controls, what was typed; and that nothing is sent. *)
Definition takes a b : Prop :=
  sends_nothing a b ∧ controls b = controls a ∧
  ∀ id, local_draft (edit (ViewStateFor b id)) = local_draft (edit (ViewStateFor a id)) ∧
        local_edit_revision (edit (ViewStateFor b id)) = local_edit_revision (edit (ViewStateFor a id)).

Lemma takes_trans a b c : takes a b → takes b c → takes a c.
Proof.
  intros (H1 & H2 & H3) (H4 & H5 & H6). split; [by eapply sends_nothing_trans|].
  split; [congruence|]. intros id. destruct (H3 id), (H6 id). split; congruence.
Qed.

Lemma take_copy_takes a c : takes a (take_copy a c).
Proof.
  unfold take_copy. destruct c as [c|]; [|by split; [apply sends_nothing_same|]].
  case_if_dec; [by split; [apply sends_nothing_same|]|].
  split; [|done]. eexists. split; [done|]. by repeat constructor.
Qed.

Lemma take_publication_takes a bs : takes a (take_publication apply_publication a bs).1.
Proof.
  unfold take_publication. destruct (mirror a) as [m|] eqn:Hm.
  - case_if_dec; (split; [by apply sends_nothing_same|done]).
  - unfold RestoreWindowGeometry. simpl.
    destruct (geometry_restored a); case_if_dec;
      (split; [|done]); try (by apply sends_nothing_same);
      (eexists; split; [done|]; by repeat constructor).
Qed.

Lemma take_update_takes a had switched u :
  takes a (take_update apply_publication (a, had, switched) u).1.1.
Proof.
  unfold take_update. eapply takes_trans; [apply (take_copy_takes a (update_copy u))|].
  set (b := take_copy a (update_copy u)). clearbody b.
  destruct (publication u) as [[bs meta]|]; [|by split; [apply sends_nothing_same|]].
  destruct (if bool_decide (bs = []) then _ else _) as [[c had'] switched'] eqn:Hc.
  assert (Hbc : takes b c).
  { case_if_dec; [simplify_eq; by split; [apply sends_nothing_same|]|].
    pose proof (take_publication_takes b bs) as Hp.
    destruct (take_publication apply_publication b bs). by simplify_eq/=. }
  eapply takes_trans; [exact Hbc|]. simpl.
  destruct (take_revisions_keep (map_to_list (edit_revisions_by_entry meta))
    (take_ack c (meta_selected_chat_ack meta))) as (_ & _ & H1 & _ & H2 & _ & H3).
  assert (Hack : calls (take_ack c (meta_selected_chat_ack meta)) = calls c ∧
    controls (take_ack c (meta_selected_chat_ack meta)) = controls c ∧
    entry_views (take_ack c (meta_selected_chat_ack meta)) = entry_views c)
    by (unfold take_ack; by case_if_dec).
  destruct Hack as (H4 & H5 & H6). split; [apply sends_nothing_same; congruence|].
  split; [congruence|]. intros id. specialize (H3 id). unfold ViewStateFor in *. by rewrite H6 in H3.
Qed.

Lemma take_updates_takes l a had switched :
  takes a (foldl (take_update apply_publication) (a, had, switched) l).1.1.
Proof.
  revert a had switched. induction l as [|u l IH]; intros a had switched; cbn [foldl].
  { by split; [apply sends_nothing_same|]. }
  pose proof (take_update_takes a had switched u) as Hu.
  destruct (take_update _ _ _) as [[b had'] switched']. eapply takes_trans; [exact Hu|apply IH].
Qed.

(** Showing what the session has published sends nothing back to it: whatever the updates
    are, no text that is put into a control is taken for the user's, and no selection; only the
    clipboard and the place of the window are set. *)
Theorem updates_send_nothing a updates ime st vp :
  sends_nothing a (ConsumeUiUpdates apply_publication a updates ime st vp).
Proof.
  unfold ConsumeUiUpdates. pose proof (take_updates_takes updates a false false) as [Ht _].
  destruct (foldl _ _ _) as [[b had] switched]. simpl in Ht. eapply sends_nothing_trans; [exact Ht|].
  set (c := if negb _ then _ else b).
  assert (Hc : calls c = calls b) by (unfold c; by case_if_dec). clearbody c.
  apply sends_nothing_same. case_if_dec; [by rewrite UpdateUiFromWorkspace_calls|].
  destruct (UpdateConnectionControls_same c st) as [(_ & _ & _ & _ & _ & _ & _ & Hcc & _) _].
  simpl. congruence.
Qed.

(** *** The text that was typed *)

(** The active chat stays. *)
Lemma UpdateUiFromWorkspace_draft a id e ime st vp :
  is_Some (mirror a) → active_entry_id a = id → displayed_entry_id a = id →
  ObjId_is_valid id = true → FindUiEntry a id = Some (id, e) →
  let a' := UpdateUiFromWorkspace a false ime st vp in
  let d := edit (ViewStateFor a id) in
  active_entry_id a' = id ∧
  draft_text (controls a') =
    (if may_replace d false ime then Utf8ToUtf16 (draft e) else draft_text (controls a)) ∧
  local_draft (edit (ViewStateFor a' id)) =
    (if may_replace d false ime then draft e else local_draft d).
Proof.
  intros [m Hm] Hactive Hdisplayed Hvalid Hfind. unfold UpdateUiFromWorkspace. rewrite Hm. cbv zeta.
  destruct (UpdateChatListSelection_spec (applying a true)) as
    (H1 & H2 & H3 & H4 & H5 & H6 & H7 & H8 & H9); [simpl; by rewrite Hactive|].
  set (b := UpdateChatListSelection (applying a true)) in *. clearbody b. simpl in *.
  rewrite H6, H2, Hactive, Hdisplayed, Hvalid, Z.eqb_refl. simpl.
  assert (Hfb : FindUiEntry b id = Some (id, e)) by (unfold FindUiEntry in *; by rewrite H1).
  rewrite H2, Hactive, Hfb.
  destruct (UpdateDraftFromModel_spec b id e false ime st H4) as (D1 & D2 & _ & D4 & _ & _ & D7 & D8).
  set (c := UpdateDraftFromModel b (id, e) false ime st) in *. clearbody c.
  destruct (UpdateTranscript_same_rest c (Some (id, e)) false None vp) as
    (T1 & T2 & T3 & T4 & T5 & T6 & _).
  set (t := UpdateTranscript c (Some (id, e)) false None vp) in *. clearbody t.
  destruct (UpdateConnectionControls_same t st) as [(C1 & C2 & C3 & C4 & C5 & C6 & _) _].
  assert (Hview : ViewStateFor b id = ViewStateFor a id)
    by (unfold ViewStateFor; by rewrite H7).
  rewrite Hview in *. unfold UpdateSendAvailability. simpl.
  split; [congruence|]. split.
  - rewrite C6, T6, D7. unfold shown_draft. simpl. by rewrite H9.
  - unfold ViewStateFor in *. simpl. rewrite C2, T2. exact D8.
Qed.

(** An update that keeps the chat never overwrites what the user has typed: while the last
    edit of the chat has not been answered by a publication, or an input method is
    composing, the text and what is kept of it stay; when it has been answered the text
    is the draft of the model. *)
Theorem typed_text_is_kept a updates ime st vp id :
  ObjId_is_valid id = true →
  let '(b, had, switched) := foldl (take_update apply_publication) (a, false, false) updates in
  switched = false → active_entry_id b = id → displayed_entry_id b = id →
  ∀ e, FindUiEntry b id = Some (id, e) →
  let a' := ConsumeUiUpdates apply_publication a updates ime st vp in
  let d := edit (ViewStateFor b id) in
  active_entry_id a' = id ∧
  (ime = true ∨ last_published_edit_revision d < local_edit_revision d →
   draft_text (controls a') = draft_text (controls a) ∧
   local_draft (edit (ViewStateFor a' id)) = local_draft (edit (ViewStateFor a id))) ∧
  (ime = false → local_edit_revision d ≤ last_published_edit_revision d →
   draft_text (controls a') = Utf8ToUtf16 (draft e) ∧
   local_draft (edit (ViewStateFor a' id)) = draft e).
Proof.
  intros Hvalid. pose proof (take_updates_takes updates a false false) as (_ & Hc & Hv).
  unfold ConsumeUiUpdates. destruct (foldl _ _ _) as [[b had] switched]. simpl in Hc, Hv.
  intros -> Hactive Hdisplayed e Hfind. cbv zeta.
  assert (Hm : is_Some (mirror b)).
  { unfold FindUiEntry in Hfind. destruct (mirror b); [by eexists|done]. }
  set (c := if negb _ then _ else b).
  assert (Hcb : mirror c = mirror b ∧ active_entry_id c = id ∧ displayed_entry_id c = id ∧
    controls c = controls b ∧ ViewStateFor c id = ViewStateFor b id ∧ FindUiEntry c id = Some (id, e)).
  { unfold c. case_if_dec; split_and!; done. }
  clearbody c. destruct Hcb as (H1 & H2 & H3 & H4 & H5 & H6).
  rewrite bool_decide_true by (by rewrite H1). rewrite orb_true_r.
  destruct (UpdateUiFromWorkspace_draft c id e ime st vp) as (U1 & U2 & U3); try done;
    [by rewrite H1|].
  rewrite H5, H4, Hc in *. split; [done|]. unfold may_replace in *.
  destruct (Hv id) as [Hv1 _]. split.
  - intros Hkeep. rewrite U2, U3, <-Hv1.
    destruct Hkeep as [-> | Hlt]; [done|]. simpl.
    rewrite (proj2 (Z.leb_gt _ _)) by lia. by rewrite andb_false_r.
  - intros -> Hle. rewrite U2, U3, (proj2 (Z.leb_le _ _)) by done. done.
Qed.

(** *** The selection *)

(** The acknowledgement that an update brings. *)
Definition ack_of (u : ChatUiUpdate) : option Z :=
  p ← publication u; meta_selected_chat_ack p.2.

Lemma take_update_selection a had switched u id :
  pending_user_selection a = Some id → active_entry_id a = id → ack_of u ≠ Some id →
  is_Some (mirror a) →
  let '(b, _, switched') := take_update apply_publication (a, had, switched) u in
  pending_user_selection b = Some id ∧ active_entry_id b = id ∧ switched' = switched ∧
  is_Some (mirror b).
Proof.
  intros Hp Ha Hack Hm. unfold take_update.
  set (b := take_copy a (update_copy u)).
  assert (Hb : pending_user_selection b = Some id ∧ active_entry_id b = id ∧ is_Some (mirror b))
    by (unfold b, take_copy; destruct (update_copy u); [case_if_dec|]; done).
  clearbody b. destruct Hb as (Hbp & Hba & Hbm).
  unfold ack_of in Hack. destruct (publication u) as [[bs meta]|]; [|done]. simpl in Hack.
  destruct (if bool_decide (bs = []) then _ else _) as [[c had'] switched'] eqn:Hc.
  assert (Hcc : pending_user_selection c = Some id ∧ active_entry_id c = id ∧
    switched' = switched ∧ is_Some (mirror c)).
  { case_if_dec; [by simplify_eq|]. unfold take_publication in Hc. destruct Hbm as [m Hbm].
    rewrite Hbm in Hc. simpl in Hc. rewrite Hbp in Hc. simpl in Hc. simplify_eq/=. rewrite orb_false_r. done. }
  destruct Hcc as (Hcp & Hca & -> & Hcm).
  destruct (take_revisions_keep (map_to_list (edit_revisions_by_entry meta))
    (take_ack c (meta_selected_chat_ack meta))) as (R1 & R2 & _ & R4 & _).
  rewrite R1, R2, R4. unfold take_ack. rewrite Hcp.
  rewrite (bool_decide_false (Some id = meta_selected_chat_ack meta)) by done.
  by rewrite andb_false_r.
Qed.

Lemma UpdateUiFromWorkspace_selection a switched ime st vp :
  ObjId_is_valid (active_entry_id a) = true →
  let a' := UpdateUiFromWorkspace a switched ime st vp in
  active_entry_id a' = active_entry_id a ∧ pending_user_selection a' = pending_user_selection a.
Proof.
  intros Hvalid. unfold UpdateUiFromWorkspace. destruct (mirror a) as [m|]; [|done]. cbv zeta.
  destruct (UpdateChatListSelection_spec (applying a true) Hvalid) as (_ & H2 & _ & H4 & H5 & _).
  set (b := UpdateChatListSelection (applying a true)) in *.
  set (changed := switched || _). set (b1 := if changed then _ else b).
  assert (Hb1 : active_entry_id b1 = active_entry_id a ∧ applying_view b1 = true ∧
    pending_user_selection b1 = pending_user_selection a)
    by (unfold b1; destruct changed; simpl; by rewrite ?H2, ?H4, ?H5).
  clearbody b1 changed. clear b H2 H4 H5. destruct Hb1 as (H2 & H4 & H5).
  match goal with |- context [UpdateConnectionControls ?x st] => set (b2 := x) end.
  assert (Hb2 : active_entry_id b2 = active_entry_id a ∧
    pending_user_selection b2 = pending_user_selection a).
  { unfold b2. destruct (FindUiEntry b1 (active_entry_id b1)) as [[id e]|].
    - destruct (UpdateDraftFromModel_spec b1 id e changed ime st H4) as (_ & D2 & _ & _ & D5 & _).
      match goal with |- context [UpdateTranscript ?x ?y ?z ?v ?w] =>
        destruct (UpdateTranscript_same_rest x y z v w) as (_ & _ & T3 & T4 & _) end.
      split; congruence.
    - destruct (UpdateTranscript_same_rest b1 None changed None vp) as (_ & _ & T3 & T4 & _).
      split; congruence. }
  clearbody b2. destruct (UpdateConnectionControls_same b2 st) as [(_ & _ & C3 & C4 & _) _].
  simpl. split; destruct Hb2; congruence.
Qed.

(** A chat that the user selects stays the active one, whatever chat the publications that
    arrive have selected, until one of them acknowledges the selection. *)
Theorem selection_waits_for_ack a updates ime st vp id :
  pending_user_selection a = Some id → active_entry_id a = id → ObjId_is_valid id = true →
  is_Some (mirror a) → Forall (λ u, ack_of u ≠ Some id) updates →
  active_entry_id (ConsumeUiUpdates apply_publication a updates ime st vp) = id ∧
  pending_user_selection (ConsumeUiUpdates apply_publication a updates ime st vp) = Some id.
Proof.
  intros Hp Ha Hvalid Hm Hack. unfold ConsumeUiUpdates.
  assert (Hfold : ∀ l a had switched, pending_user_selection a = Some id → active_entry_id a = id →
    is_Some (mirror a) → Forall (λ u, ack_of u ≠ Some id) l →
    let '(b, _, _) := foldl (take_update apply_publication) (a, had, switched) l in
    pending_user_selection b = Some id ∧ active_entry_id b = id ∧ is_Some (mirror b)).
  { clear. induction l as [|u l IH]; intros a had switched Hp Ha Hm Hl; cbn [foldl]; [done|].
    apply Forall_cons_1 in Hl as [Hu Hl].
    pose proof (take_update_selection a had switched u id Hp Ha Hu Hm) as Hs.
    destruct (take_update _ _ _) as [[b had'] switched']. destruct Hs as (? & ? & _ & ?).
    by apply IH. }
  specialize (Hfold updates a false false Hp Ha Hm Hack).
  destruct (foldl _ _ _) as [[b had] switched]. destruct Hfold as (Hbp & Hba & Hbm).
  set (c := if negb _ then _ else b).
  assert (Hc : pending_user_selection c = Some id ∧ active_entry_id c = id ∧ mirror c = mirror b)
    by (unfold c; by case_if_dec).
  clearbody c. destruct Hc as (Hcp & Hca & Hcm).
  rewrite bool_decide_true by (by rewrite Hcm). rewrite orb_true_r.
  destruct (UpdateUiFromWorkspace_selection c switched ime st vp) as [H1 H2]; [by rewrite Hca|].
  by rewrite H1, H2.
Qed.
End updates.

(** ** Geometry *)

Definition inside (r work : Rect) : Prop :=
  left work ≤ left r ∧ right r ≤ right work ∧ top work ≤ top r ∧ bottom r ≤ bottom work.

Lemma clamp_inside rc work :
  left work ≤ right work → top work ≤ bottom work → inside (clamp rc work) work.
Proof. intros H1 H2. unfold inside, clamp. simpl. repeat case_match; lia. Qed.

(** A window is placed where a part of it is on a monitor, or inside the work area of one. *)
Theorem placed_window_is_visible bounds dpi off_screen w rc mx :
  left w ≤ right w → top w ≤ bottom w →
  ApplyBoundsLogical bounds dpi off_screen (Some w) = Some (rc, mx) →
  off_screen rc = false ∨ inside rc w.
Proof.
  intros H1 H2. unfold ApplyBoundsLogical. case_if_dec; [done|]. intros [= <- <-].
  destruct (off_screen (mkRect _ _ _ _)) eqn:Ho; [right; by apply clamp_inside|by left].
Qed.

(** The bounds that are saved place the window where it was. *)
Theorem saved_bounds_place rc mx off_screen w :
  left rc < right rc → top rc < bottom rc → off_screen rc = false →
  ApplyBoundsLogical (CaptureBoundsLogical rc kLogicalDpi mx) kLogicalDpi off_screen w = Some (rc, mx).
Proof.
  intros H1 H2 Ho. unfold ApplyBoundsLogical, CaptureBoundsLogical. simpl.
  rewrite !MulDiv_same by done. rewrite !(proj2 (Z.leb_gt _ _)) by lia. simpl.
  replace (left rc + (right rc - left rc)) with (right rc) by lia.
  replace (top rc + (bottom rc - top rc)) with (bottom rc) by lia.
  destruct rc. simpl in *. destruct w; [by rewrite Ho|done].
Qed.

(** ** The buffer of GTK *)

(** Rebuilding inserts in front of what the buffer has: an update of the chat that is shown,
    without a new message, shows its messages once more, and a change of the chat leaves the
    messages of the other one below. *)
Theorem rebuilt_buffer_repeats m id e r switched buffer c :
  room_of m e = Some r → switched = true ∨ message_count c = zlen (messages_of r) →
  (Gtk.UpdateTranscript_buffer m (Some (id, e)) switched buffer c).1 =
    String.append (Gtk.lines m e (messages_of r)) buffer.
Proof.
  intros Hr Hs. unfold Gtk.UpdateTranscript_buffer. rewrite Hr. simpl.
  assert (Hc : switched || negb (Gtk.can_append m c (id, e)) = true).
  { destruct Hs as [-> | Hn]; [done|]. unfold Gtk.can_append. simpl. rewrite Hr, Hn.
    case_if_dec; [by rewrite orb_true_r|]. rewrite (proj2 (Z.leb_le _ _)) by lia.
    by rewrite !orb_true_r. }
  by rewrite Hc.
Qed.
End theory.
