(* ===== verification/ChatAppRuns.v ===== *)
(** * Closing the window of the chat

    Over all runs of the messages of ChatApp.v: the session is asked to stop once, the window is
    destroyed once, after the session has ended, and nothing is left out in between. *)
From Stdlib Require Import Floats.SpecFloat.
From S2P Require Import Prelude Aether SharedEvent Node LinkSync SharedNode ChatModel ChatJoin.
From S2P Require Import PublicationChannel ChatOutput ChatApp ChatAppTheory.

(** ** The protocol of closing *)

Inductive Stage := Open | Stopping | Joined | Destroyed.
#[export] Instance Stage_eq_dec : EqDecision Stage.
Proof. solve_decision. Defined.

(** A call that the protocol allows at a stage, and the stage after it. *)
Definition stage_step (s : Stage) (c : Call) : option Stage :=
  match c, s with
  | RequestStop_, Open => Some Stopping
  | RequestStop_, _ => None
  | Join_, Open => None
  | Join_, Stopping => Some Joined
  | Join_, _ => Some s
  | DestroyWindow, Joined => Some Destroyed
  | DestroyWindow, _ => None
  | SaveBounds _, Open => Some Open
  | SaveBounds _, _ => None
  | _, _ => Some s
  end.

Definition stage_after (s : option Stage) (l : list Call) : option Stage :=
  foldl (λ s c, s ≫= λ s, stage_step s c) s l.

Definition stage_of (a : App) : option Stage := stage_after (Some Open) (calls a).

(** Calls that have no part in it. *)
Definition neutral (c : Call) : bool :=
  match c with RequestStop_ | Join_ | DestroyWindow | SaveBounds _ => false | _ => true end.

Lemma stage_after_neutral s l : Forall (λ c, neutral c = true) l → stage_after s l = s.
Proof.
  intros H. revert s. induction H as [|c l Hc _ IH]; intros s; [done|]. cbn [stage_after foldl].
  replace (s ≫= λ s, stage_step s c) with s; [apply IH|]. by destruct s, c.
Qed.

Lemma for_the_user_neutral c : for_the_user c = true → neutral c = true.
Proof. by destruct c. Qed.

(** The stage, and what is known of the application at it. *)
Definition stage_ok (a : App) : Prop :=
  ∃ s, stage_of a = Some s ∧ (closing a = true ↔ s ≠ Open) ∧ (has_window a = true ↔ s ≠ Destroyed).

(** A step that only makes neutral calls. *)
Definition quiet (a b : App) : Prop :=
  closing b = closing a ∧ ∃ k, calls b = calls a ++ k ∧ Forall (λ c, neutral c = true) k.

#[export] Instance quiet_refl : Reflexive quiet.
Proof. intros a. split; [done|]. exists []. by rewrite app_nil_r. Qed.
#[export] Instance quiet_trans : Transitive quiet.
Proof.
  intros a b c [H1 (k & Hk & H2)] [H3 (l & Hl & H4)]. split; [congruence|].
  exists (k ++ l). rewrite Hl, Hk, app_assoc. split; [done|by apply Forall_app].
Qed.

Lemma quiet_same a b : closing b = closing a → calls b = calls a → quiet a b.
Proof. intros H1 H2. split; [done|]. exists []. by rewrite app_nil_r. Qed.

Lemma quiet_call a b c : quiet a b → neutral c = true → quiet a (call b c).
Proof.
  intros Hab Hc. etrans; [exact Hab|]. split; [done|]. exists [c]. by repeat constructor.
Qed.

Lemma has_window_app a k :
  Forall (λ c, neutral c = true) k →
  ∀ b, calls b = calls a ++ k → has_window b = has_window a.
Proof.
  intros Hk b Hb. unfold has_window. rewrite Hb, existsb_app.
  replace (existsb _ k) with false; [by rewrite orb_false_r|].
  clear Hb. induction Hk as [|c k Hc _ IH]; [done|]. simpl. rewrite <-IH. by destruct c.
Qed.

Lemma quiet_ok a b : quiet a b → stage_ok a → stage_ok b.
Proof.
  intros [Hc (k & Hk & Hn)] (s & Hs & H1 & H2). exists s. unfold stage_of in *.
  rewrite Hc, (has_window_app a k Hn b Hk), Hk. unfold stage_after in *. rewrite foldl_app, Hs.
  split; [by apply (stage_after_neutral (Some s))|done].
Qed.

(** A step that is a composition of setters and of neutral calls. *)
Ltac quiet :=
  repeat (first [ case_match | progress simpl ]);
  repeat first [ reflexivity | apply quiet_call; [|done] | by apply quiet_same ].

Section runs.
  Context {ids : AetherIds} {links : ChatLinks} {ws : WindowSystem}.
  Context (apply_publication : option Mirror → bytes → Mirror).
  Implicit Types (a : App) (w : World) (msg : Message).

Lemma OnDraftChanged_quiet a st : quiet a (OnDraftChanged a st).
Proof. unfold OnDraftChanged. quiet. Qed.

Lemma UpdateDraftFromModel_quiet a entry switched ime st :
  quiet a (UpdateDraftFromModel a entry switched ime st).
Proof.
  unfold UpdateDraftFromModel. destruct entry as [id e]. cbv zeta.
  destruct ime; [by apply quiet_same|]. case_match; [by apply quiet_same|].
  set (b := with_view _ _ _). assert (Hb : quiet a b) by by apply quiet_same. clearbody b.
  etrans; [exact Hb|]. clear Hb.
  set (c := if bool_decide _ then b else _).
  assert (Hc : quiet b c).
  { unfold c. case_match; [reflexivity|]. etrans; [|apply OnDraftChanged_quiet]. by apply quiet_same. }
  clearbody c. etrans; [exact Hc|]. quiet.
Qed.

Lemma UpdateTranscript_quiet a shown switched restore vp :
  quiet a (UpdateTranscript a shown switched restore vp).
Proof.
  unfold UpdateTranscript. destruct (mirror a) as [m|]; [|by destruct shown; apply quiet_same].
  destruct shown as [[id e]|]; [|by apply quiet_same].
  destruct (room_of m e) as [r|] eqn:Hr; [|by apply quiet_same]. cbv zeta.
  set (b := if switched || _ then _ else _).
  assert (Hb : quiet a b).
  { unfold b. case_match.
    - unfold RebuildMessageCharPositions. rewrite Hr. by apply quiet_same.
    - unfold AppendTranscriptLines. generalize (drop (Z.to_nat (message_count (cache a))) (messages_of r)) as l.
      generalize (message_count (cache a)) as i. clear. intros i l. revert a i.
      induction l as [|msg l IH]; intros a i; cbn [append_lines]; [reflexivity|].
      etrans; [|apply IH]. by apply quiet_same. }
  clearbody b. etrans; [exact Hb|]. destruct restore; [by apply quiet_same|].
  case_match; by apply quiet_same.
Qed.

Lemma UpdateChatListSelection_quiet a : quiet a (UpdateChatListSelection a).
Proof.
  unfold UpdateChatListSelection. destruct (mirror a) as [m|]; [|reflexivity]. cbv zeta.
  destruct (select_line _ _ _ _). by apply quiet_same.
Qed.

Lemma UpdateConnectionControls_quiet a st : quiet a (UpdateConnectionControls a st).
Proof. unfold UpdateConnectionControls. destruct (app_role a); by apply quiet_same. Qed.

Lemma FlushPendingScrollSave_quiet a : quiet a (FlushPendingScrollSave a).
Proof.
  unfold FlushPendingScrollSave. destruct (pending_scroll_save a); [|reflexivity].
  case_match; [reflexivity|]. etrans; [|by apply quiet_same]. by apply quiet_call.
Qed.

Lemma SaveCurrentDraftAndScroll_quiet a vp : quiet a (SaveCurrentDraftAndScroll a vp).
Proof.
  unfold SaveCurrentDraftAndScroll. case_match; [reflexivity|]. cbv zeta.
  set (b := with_view a _ _). etrans; [by apply (quiet_same a b)|].
  etrans; [apply (FlushPendingScrollSave_quiet b)|]. clearbody b.
  etrans; [|by apply quiet_same]. by apply quiet_call.
Qed.

Lemma RestoreDraftAndScroll_quiet a id ime st vp : quiet a (RestoreDraftAndScroll a id ime st vp).
Proof.
  unfold RestoreDraftAndScroll. destruct (FindUiEntry a id) as [entry|]; [|reflexivity]. cbv zeta.
  set (b := with_selection _ _ _ _).
  etrans; [by apply (quiet_same a b)|]. clearbody b. clear a.
  etrans; [apply (UpdateDraftFromModel_quiet b entry true ime st)|].
  set (c := UpdateDraftFromModel _ _ _ _ _). clearbody c.
  pose proof (UpdateTranscript_quiet c (Some entry) true (Some (scroll entry.2)) vp) as Ht.
  (* [applying_view_] is reset; the flags that closing depends on are not touched. *)
  etrans; [exact Ht|]. by apply quiet_same.
Qed.

Lemma OnChatSelectionChanged_quiet a i ime st vp : quiet a (OnChatSelectionChanged a i ime st vp).
Proof.
  unfold OnChatSelectionChanged. destruct (m ← mirror a; _) as [[id e]|]; [|reflexivity].
  case_match; [reflexivity|]. cbv zeta. etrans; [apply (SaveCurrentDraftAndScroll_quiet a vp)|].
  etrans; [|apply RestoreDraftAndScroll_quiet]. apply quiet_call; [by apply quiet_same|done].
Qed.

Lemma OnVScroll_quiet a vp now : quiet a (OnVScroll a vp now).
Proof.
  unfold OnVScroll. case_match; [reflexivity|]. cbv zeta. case_match; [|by apply quiet_same].
  etrans; [|apply FlushPendingScrollSave_quiet]. by apply quiet_same.
Qed.

Lemma UpdateUiFromWorkspace_quiet a switched ime st vp :
  quiet a (UpdateUiFromWorkspace a switched ime st vp).
Proof.
  unfold UpdateUiFromWorkspace. destruct (mirror a) as [m|]; [|reflexivity]. cbv zeta.
  assert (H0 : quiet a (UpdateChatListSelection (applying a true)))
    by (etrans; [|apply UpdateChatListSelection_quiet]; by apply quiet_same).
  set (b := UpdateChatListSelection (applying a true)) in *. clearbody b.
  set (changed := switched || _). clearbody changed.
  set (c := if changed then with_selection b _ _ _ else b).
  assert (Hc : quiet b c) by (unfold c; case_match; by apply quiet_same). clearbody c.
  etrans; [exact H0|]. etrans; [exact Hc|]. clear H0 Hc a b m.
  match goal with |- context [UpdateConnectionControls ?x st] => set (d := x) end.
  assert (Hd : quiet c d).
  { unfold d. destruct (FindUiEntry c (active_entry_id c)); [|apply UpdateTranscript_quiet].
    etrans; [|apply UpdateTranscript_quiet]. apply UpdateDraftFromModel_quiet. }
  clearbody d. etrans; [exact Hd|]. etrans; [apply (UpdateConnectionControls_quiet d st)|].
  by apply quiet_same.
Qed.

Lemma take_update_quiet acc u : quiet acc.1.1 (take_update apply_publication acc u).1.1.
Proof.
  destruct acc as [[a had] switched]. unfold take_update.
  assert (H1 : quiet a (take_copy a (update_copy u)))
    by (unfold take_copy; destruct (update_copy u); [case_match; [reflexivity|]|reflexivity];
        apply quiet_call; [by apply quiet_same|done]).
  set (b := take_copy a (update_copy u)) in *. clearbody b.
  destruct (publication u) as [[bs meta]|]; [|exact H1]. simpl. etrans; [exact H1|]. clear H1.
  destruct (if bool_decide (bs = []) then _ else _) as [[c had'] switched'] eqn:Hc.
  assert (H2 : quiet b c).
  { case_match; [simplify_eq; reflexivity|]. unfold take_publication in Hc.
    destruct (mirror b); [destruct (_ && _) in Hc; simplify_eq/=; by apply quiet_same|].
    unfold RestoreWindowGeometry in Hc. simpl in Hc. destruct (geometry_restored b);
      destruct (_ && _) in Hc; simplify_eq/=; try (by apply quiet_same);
      (split; [done|eexists; split; [done|by repeat constructor]]). }
  etrans; [exact H2|]. simpl. set (d := take_ack c _).
  assert (H3 : quiet c d) by (unfold d, take_ack; destruct (_ && _); by apply quiet_same).
  etrans; [exact H3|]. clearbody d. clear. revert d.
  induction (map_to_list (edit_revisions_by_entry meta)) as [|[id rev] l IH]; intros d; [reflexivity|].
  cbn [foldl]. etrans; [|apply IH]. unfold take_revision. destruct (_ && _); by apply quiet_same.
Qed.

Lemma ConsumeUiUpdates_quiet a updates ime st vp :
  quiet a (ConsumeUiUpdates apply_publication a updates ime st vp).
Proof.
  unfold ConsumeUiUpdates.
  assert (H1 : ∀ acc, quiet acc.1.1 (foldl (take_update apply_publication) acc updates).1.1).
  { induction updates as [|u l IH]; intros acc; [reflexivity|]. cbn [foldl].
    etrans; [apply take_update_quiet|apply IH]. }
  specialize (H1 (a, false, false)). destruct (foldl _ _ _) as [[b had] switched]. simpl in H1.
  etrans; [exact H1|]. set (c := if negb _ then with_send b _ _ else b).
  assert (Hc : quiet b c) by (unfold c; case_match; by apply quiet_same). clearbody c.
  etrans; [exact Hc|]. case_match; [apply UpdateUiFromWorkspace_quiet|].
  etrans; [apply (UpdateConnectionControls_quiet c st)|]. by apply quiet_same.
Qed.

Lemma PersistWindowGeometry_closing a captured :
  closing (PersistWindowGeometry a captured) = closing a.
Proof.
  unfold PersistWindowGeometry. destruct captured; [|done]. destruct (closing a) eqn:Hc; [done|].
  by destruct (_ && _).
Qed.

Lemma PersistWindowGeometry_ok a captured : stage_ok a → stage_ok (PersistWindowGeometry a captured).
Proof.
  intros (s & Hs & H1 & H2). unfold PersistWindowGeometry. destruct captured as [b|]; [|by exists s].
  destruct (closing a) eqn:Hc; [by exists s; rewrite Hc|]. case_match; [|by exists s; rewrite Hc].
  destruct (decide (s = Open)) as [->|Hne]; [|by apply H1 in Hne].
  exists Open. unfold stage_of, stage_after in *. simpl. rewrite foldl_app, Hs. split; [done|].
  split; [rewrite Hc; naive_solver|]. unfold has_window in *. simpl. rewrite existsb_app, orb_false_r. done.
Qed.

Lemma stage_of_call a c s : stage_of a = Some s → stage_of (call a c) = stage_step s c.
Proof. intros Hs. unfold stage_of, stage_after in *. simpl. by rewrite foldl_app, Hs. Qed.

Lemma TryFinishClosing_ok a finished : stage_ok a → stage_ok (TryFinishClosing a finished).
Proof.
  intros (s & Hs & H1 & H2). unfold TryFinishClosing.
  destruct (closing a) eqn:Hc; simpl; [|by exists s; rewrite Hc].
  destruct finished; [|by exists s; rewrite Hc].
  assert (Hw : has_window (call a Join_) = has_window a)
    by (unfold has_window; simpl; by rewrite existsb_app, orb_false_r).
  rewrite Hw. pose proof (stage_of_call a Join_ s Hs) as Hj.
  assert (Hs' : s ≠ Open) by by apply H1.
  destruct (has_window a) eqn:Hwin.
  - assert (Hne : s ≠ Destroyed) by by apply H2.
    assert (Hj' : stage_of (call a Join_) = Some Joined) by (rewrite Hj; by destruct s).
    exists Destroyed. rewrite (stage_of_call _ _ _ Hj'). simpl. rewrite Hc.
    unfold has_window. simpl. rewrite !existsb_app, orb_true_r. split; [done|]. by split; split.
  - destruct (decide (s = Destroyed)) as [->|Hne]; [|by apply H2 in Hne].
    exists Destroyed. rewrite Hj, Hw. simpl. by rewrite Hc.
Qed.

(** Asking the session to stop. *)
Lemma close_ok a :
  stage_ok a → closing a = false →
  stage_ok (call (with_flags a (applying_view a) true (geometry_restored a)) RequestStop_).
Proof.
  intros (s & Hs & H1 & H2) Hc. rewrite Hc in H1.
  destruct (decide (s = Open)) as [->|Hne]; [|by apply H1 in Hne].
  exists Stopping. unfold stage_of, stage_after, has_window in *. simpl.
  rewrite foldl_app, Hs, existsb_app, orb_false_r. split; [done|]. split; [by split|].
  rewrite H2. done.
Qed.

Lemma HandleMain_ok a w msg : stage_ok a → stage_ok (HandleMain apply_publication a w msg).
Proof.
  intros Ha. destruct msg as [|settle|uid| |index|text sel_| | | | |]; simpl.
  - eapply quiet_ok; [|exact Ha]. by repeat apply quiet_call.
  - destruct settle; [|done]. apply PersistWindowGeometry_ok. eapply quiet_ok; [|exact Ha]. by apply quiet_call.
  - eapply quiet_ok; [|exact Ha]. unfold OnActionClicked. destruct (app_role a); by repeat apply quiet_call.
  - eapply quiet_ok; [|exact Ha]. unfold OnSendDraftClicked. repeat (case_match; [reflexivity|]).
    apply quiet_call; [by apply quiet_same|done].
  - destruct index as [i|]; [|done]. eapply quiet_ok; [apply OnChatSelectionChanged_quiet|exact Ha].
  - eapply quiet_ok; [|exact Ha]. unfold Type_. etrans; [|apply OnDraftChanged_quiet]. by apply quiet_same.
  - eapply quiet_ok; [apply OnVScroll_quiet|exact Ha].
  - apply TryFinishClosing_ok. eapply quiet_ok; [apply ConsumeUiUpdates_quiet|exact Ha].
  - apply TryFinishClosing_ok. eapply quiet_ok; [apply ConsumeUiUpdates_quiet|exact Ha].
  - unfold OnClose. destruct (closing a) eqn:Hc; [done|]. apply TryFinishClosing_ok, close_ok.
    + apply PersistWindowGeometry_ok. eapply quiet_ok; [apply SaveCurrentDraftAndScroll_quiet|exact Ha].
    + rewrite PersistWindowGeometry_closing.
      by destruct (SaveCurrentDraftAndScroll_quiet a (w_viewport w)) as [-> _].
  - eapply quiet_ok; [|exact Ha]. by apply quiet_call.
Qed.

(** C32. Whatever messages the window handles, in any order: the session is asked to stop at most
    once, and joined only after that; the window is destroyed at most once, after the session
    has been joined; no bounds are saved after the session was asked to stop; and the window is
    closing exactly when the session has been asked. *)
Theorem window_closes_in_order a l :
  calls a = [] → closing a = false →
  let a' := run_messages apply_publication a l in
  ∃ s, stage_of a' = Some s ∧ (closing a' = true ↔ s ≠ Open) ∧ (has_window a' = true ↔ s ≠ Destroyed).
Proof.
  intros Hcalls Hc. cbv zeta. fold (stage_ok (run_messages apply_publication a l)).
  assert (Ha : stage_ok a).
  { exists Open. unfold stage_of, has_window. rewrite Hcalls, Hc. split; [done|]. by split. }
  unfold run_messages. clear Hcalls Hc. revert a Ha.
  induction l as [|[w msg] l IH]; intros a Ha; [done|]. cbn [foldl]. by apply IH, HandleMain_ok.
Qed.

(** The window does close: once it has been asked to, and the session has ended and says so in
    a notification, the window is destroyed. *)
Theorem window_closes a w :
  stage_ok a → closing a = true → w_finished w = true →
  stage_of (HandleMain apply_publication a w WM_CHAT_STATUS_NOTIFY) = Some Destroyed.
Proof.
  intros Ha Hc Hf. simpl. unfold ApplyPublicationFromSession. rewrite Hf.
  pose proof (ConsumeUiUpdates_quiet a (w_updates w) (w_ime w) (w_status w) (w_viewport w)) as Hq.
  set (b := ConsumeUiUpdates _ _ _ _ _ _) in *. clearbody b.
  pose proof (TryFinishClosing_ok b true (quiet_ok _ _ Hq Ha)) as (s & Hs & _ & Hw).
  rewrite Hs. destruct Hq as [Hcb _]. unfold TryFinishClosing in Hw. rewrite Hcb, Hc in Hw. simpl in Hw.
  f_equal. destruct (decide (s = Destroyed)) as [|Hne]; [done|]. exfalso. apply Hw in Hne. clear Hw.
  destruct (has_window (call b Join_)) eqn:Hb; [|congruence].
  unfold has_window in Hne. simpl in Hne. by rewrite !existsb_app, orb_true_r in Hne.
Qed.
End runs.
