(* ===== verification/ChatAppExamples.v ===== *)
(** * A window, event by event

    Two chats in a window: the witnesses of the theorems of ChatAppTheory.v and ChatAppRuns.v, and runs that show
    how a sent message is reported as not sent, and how a text that was sent comes back. *)
From Stdlib Require Import Floats.SpecFloat.
From S2P Require Import Prelude Aether SharedEvent Node LinkSync SharedNode ChatModel ChatJoin.
From S2P Require Import PublicationChannel ChatOutput ChatApp ChatAppTheory ChatAppRuns.

#[local] Existing Instance Demo.ids.

Section window.
#[local] Instance window : WindowSystem.
Proof.
  refine {| Utf8ToUtf16 := bytes_of_string; Utf16ToUtf8 := string_of_bytes;
            MulDiv a b c := if b =? c then a else a * b / c;
            wide_literal a b := a |}; [done|done|].
  intros a b _. by rewrite Z.eqb_refl.
Defined.
#[local] Instance the_links : ChatLinks := {| EndpointUid l := if l =? 21 then "ann" else "me" |}.

Definition msg (n : Z) (text : string) : MessageValue :=
  mkMessage (mkSharedEventId "ann" n) (100 * n) text.

Definition a_room (l : list MessageValue) : SharedFields ChatRoomFields :=
  mkShared [mkShare 31 (Some 22) ShareAccess.ReadWrite; mkShare 32 (Some 21) ShareAccess.ReadWrite]
    [] (mkRoom l) 0.

(** The chats 7, with a draft, and 8. *)
Definition the_mirror (selected : Z) (text : string) (l : list MessageValue) : Mirror :=
  mkMirror (mkWorkspace kClient "" "me" 1 [Some 7; Some 8] selected (mkBounds true 10 10 800 600 false))
    {[7 := mkEntry "ann" "" (Some 21) (Some 11) text default_scroll;
      8 := mkEntry "bob" "Bob" None None "" default_scroll]}
    {[11 := a_room l]}.

Definition the_status : ChatRuntimeStatus := new_status.
Definition the_view : Viewport := mkViewport true 0 (λ _, S754_zero false).

Definition start : App :=
  mkApp kClient None ∅ None 0 0 (mkCache 0 0 empty_identity) [] false false false None 0 0 "" 0
    (mkControls [] (0, 0) [] None [] None false [] ("Join", true) None) [].

(** Publications are numbered by their one byte. *)
Definition mirrors (n : Z) : Mirror :=
  if n =? 1 then the_mirror 7 "" [msg 1 "hello"]
  else if n =? 2 then the_mirror 8 "" [msg 1 "hello"]
  else the_mirror 7 "" [msg 1 "hello"; msg 2 "again"].
Definition apply_publication (_ : option Mirror) (bs : bytes) : Mirror := mirrors (nth 0 bs 0).

Definition publish (n : Z) (revisions : gmap Z Z) (ack : option Z) : ChatUiUpdate :=
  mkUpdate (Some ([n], mkMetadata kStructural n revisions ack)) the_status None.

Abbreviation consume a u := (ConsumeUiUpdates apply_publication a u false the_status the_view).

(** The first publication; the user types. *)
Definition shown_ : App := consume start [publish 1 ∅ None].
Definition typed : App := Type_ shown_ (Utf8ToUtf16 "hi") (2, 2) the_status.

Example typed_calls : calls typed = [PlaceWindow (mkBounds true 10 10 800 600 false); EditDraft 7 "hi" 1].
Proof. vm_compute. reflexivity. Qed.

(** The user sends the text and goes on typing; one publication answers both.  The message has
    been sent, but the window says that it has not. *)
Definition sent_then_typed : App := Type_ (OnSendDraftClicked typed) (Utf8ToUtf16 "x") (1, 1) the_status.

Example sent_is_reported_unsent :
  let a := consume sent_then_typed [publish 3 {[7 := 3]} None] in
  last_published_edit_revision (edit (ViewStateFor a 7)) = 3 ∧
  pending_send_revision a = 2 ∧ local_send_error a = "Message not sent"%string.
Proof. vm_compute. done. Qed.

(** The user sends the text, goes to the other chat and comes back when it has been sent: the
    draft of the model is empty, and the text that was sent is shown as a draft again. *)
Definition went_away : App :=
  OnChatSelectionChanged (OnSendDraftClicked typed) 1 false the_status the_view.
Definition answered : App := consume went_away [publish 2 {[7 := 2]} (Some 8)].

Example sent_text_comes_back :
  active_entry_id answered = 8 ∧
  last_published_edit_revision (edit (ViewStateFor answered 7)) = 2 ∧
  (draft ∘ snd <$> FindUiEntry answered 7) = Some ""%string ∧
  let a := OnChatSelectionChanged answered 0 false the_status the_view in
  active_entry_id a = 7 ∧ draft_text (controls a) = Utf8ToUtf16 "hi".
Proof. vm_compute. done. Qed.

(** ** The theorems at these inputs *)

(** A second message is appended to the transcript of the first. *)
Lemma transcript_shows_room_witness :
  let m := mirrors 3 in
  let a := with_mirror shown_ (Some m) in
  let e := mkEntry "ann" "" (Some 21) (Some 11) "" default_scroll in
  let r := a_room [msg 1 "hello"; msg 2 "again"] in
  let a' := UpdateTranscript a (Some (7, e)) false None the_view in
  CanAppendTranscript a m (7, e) = true ∧
  shows a' m e (messages_of r) ∧ cache_entry (cache a') = 7 ∧ displayed_entry_id a' = 7 ∧
  same_rest a a'.
Proof.
  intros m a e r a'. split; [vm_compute; reflexivity|].
  apply (transcript_shows_room a m 7 e r false None the_view); [reflexivity|vm_compute; reflexivity| |].
  - apply (bool_decide_unpack (NoDup (message_id <$> messages_of r))). vm_compute. exact I.
  - intros _. exists [msg 1 "hello"]. split.
    + apply sublist_skip, sublist_cons, sublist_nil.
    + split; [vm_compute; reflexivity|]. split; [|split; vm_compute; reflexivity].
      intros x Hx. vm_compute in Hx. injection Hx as <-. vm_compute. reflexivity.
Defined.

(** The publication is older than what the user has typed. *)
Lemma typed_text_is_kept_witness :
  let a' := consume typed [publish 3 ∅ None] in
  draft_text (controls a') = Utf8ToUtf16 "hi" ∧
  local_draft (edit (ViewStateFor a' 7)) = "hi"%string.
Proof.
  pose proof (typed_text_is_kept apply_publication typed [publish 3 ∅ None] false the_status the_view
    7 eq_refl) as H.
  set (x := foldl _ _ _) in H. cbv zeta in H |- *.
  let v := eval vm_compute in x in assert (Hx : x = v) by (vm_compute; reflexivity).
  rewrite Hx in H. cbv beta iota in H.
  specialize (H eq_refl eq_refl eq_refl).
  match type of H with ∀ e, FindUiEntry ?b 7 = _ → _ =>
    assert (He : ∃ e, FindUiEntry b 7 = Some (7, e)) by (vm_compute; by eexists) end.
  destruct He as [e He].
  destruct (H e He) as (_ & Hkeep & _).
  destruct Hkeep as [H1 H2]; [right; vm_compute; reflexivity|].
  split; [rewrite H1; vm_compute; reflexivity|rewrite H2; vm_compute; reflexivity].
Defined.

(** The publication has the chat 7 selected, while the user has selected 8. *)
Lemma selection_waits_for_ack_witness :
  let a' := consume went_away [publish 3 {[7 := 2]} (Some 7)] in
  active_entry_id a' = 8 ∧ pending_user_selection a' = Some 8.
Proof.
  apply (selection_waits_for_ack apply_publication went_away [publish 3 {[7 := 2]} (Some 7)] false
    the_status the_view 8);
    [vm_compute; reflexivity..| |].
  - vm_compute. by eexists.
  - apply Forall_cons_2; [|apply Forall_nil_2]. vm_compute. discriminate.
Defined.

(** The user closes the window while the session still works; then it has ended. *)
Definition the_world (finished : bool) : World :=
  mkWorld [] the_status finished false the_view (Some (mkBounds true 10 10 800 600 false)) 1000.
Definition closed_messages : list (World * Message) :=
  [(the_world false, Change (Utf8ToUtf16 "hi") (2, 2)); (the_world false, WM_CLOSE);
   (the_world false, WM_TIMER true); (the_world true, WM_CHAT_STATUS_NOTIFY);
   (the_world true, WM_DESTROY)].

Lemma window_closes_in_order_witness :
  let a' := run_messages apply_publication start closed_messages in
  calls a' = [SaveBounds (mkBounds true 10 10 800 600 false); RequestStop_; KillTimer; Join_;
              DestroyWindow; PostQuitMessage] ∧
  ∃ s, stage_of a' = Some s ∧ (closing a' = true ↔ s ≠ Open) ∧ (has_window a' = true ↔ s ≠ Destroyed).
Proof.
  split; [vm_compute; reflexivity|].
  apply (window_closes_in_order apply_publication start closed_messages); reflexivity.
Defined.

Definition closing_window : App :=
  run_messages apply_publication start (take 3 closed_messages).

Lemma window_closes_witness :
  stage_of (HandleMain apply_publication closing_window (the_world true) WM_CHAT_STATUS_NOTIFY) =
    Some Destroyed.
Proof.
  apply (window_closes apply_publication closing_window (the_world true));
    [|vm_compute; reflexivity|reflexivity].
  exists Stopping. split; [vm_compute; reflexivity|].
  vm_compute. by repeat split.
Defined.

(** A window that was saved on a monitor that is no longer there. *)
Definition the_work : Rect := mkRect 0 0 1920 1040.

Lemma placed_window_is_visible_witness :
  let rc := mkRect 1120 10 1920 610 in
  (λ _ : Rect, true) rc = false ∨ inside rc the_work.
Proof.
  apply (placed_window_is_visible (mkBounds true 2500 10 800 600 false) 96 (λ _, true) the_work _ false);
    [vm_compute; discriminate..|vm_compute; reflexivity].
Defined.

Lemma saved_bounds_place_witness :
  ApplyBoundsLogical (CaptureBoundsLogical (mkRect 10 20 810 620) kLogicalDpi true) kLogicalDpi
    (λ _, false) (Some the_work) = Some (mkRect 10 20 810 620, true).
Proof.
  apply (saved_bounds_place (mkRect 10 20 810 620) true (λ _, false) (Some the_work));
    vm_compute; reflexivity.
Defined.

Lemma rebuilt_buffer_repeats_witness :
  let m := mirrors 1 in
  let e := mkEntry "ann" "" (Some 21) (Some 11) "" default_scroll in
  let r := a_room [msg 1 "hello"] in
  let line := Gtk.lines m e (messages_of r) in
  (Gtk.UpdateTranscript_buffer m (Some (7, e)) false line (mkCache 7 1 (mkSharedEventId "ann" 1))).1 =
    String.append line line.
Proof.
  intros m e r line.
  apply (rebuilt_buffer_repeats m 7 e r false line (mkCache 7 1 (mkSharedEventId "ann" 1)));
    [vm_compute; reflexivity|right; vm_compute; reflexivity].
Defined.
End window.
